(* ===== verification/_CoqProject ===== *)
-Q . S2P
Prelude.v
Traps.v
Rand.v
Bytes.v
Buf.v
Bio.v
Ide.v
Log.v
Kalloc.v
Vm.v
Proc.v
StringC.v
Fs.v
FsBlock.v
FsFile.v
FsWrite.v
FsTypes.v
FsDir.v
Mkfs.v
Pipe.v
Spinlock.v
Sched.v
Sh.v
ShPrint.v
User.v
Printf.v
Grep.v
Progs.v
Tests.v
Hackbench.v
ShRun.v
Boot.v
Mp.v
Cmos.v
Intr.v
Seg.v
Cpus.v
Kernel.v
Args.v
Sysfile.v
Exec.v
Sysproc.v
Syscall.v
Usys.v
Usertests.v
Asm.v
Files.v
FilesInv.v
FilesSys.v
UserMem.v
FileIO.v
Durable.v
Defects.v
Umalloc.v
Console.v
