(* ===== verification/Prelude.v ===== *)
(** * Verification of xv6 with lottery scheduling

    The program is a small Unix kernel for i386 multiprocessors, its shell and
    user programs, and the tool that makes its disk image.  System calls and
    interrupts enter through trap.c and syscall.c; sysfile.c, sysproc.c and
    exec.c implement the calls on top of the open files (file.c, pipe.c), the
    file system (fs.c over log.c over bio.c over a disk driver), processes
    (proc.c, with the lottery of rand.c), and memory (vm.c over kalloc.c).

    ** Conventions

    Definitions keep the names of the C functions; a part of a function that
    needs a name of its own says so in its comment.  Integers are [Z], with
    [u32], [i32] and the like where C wraps around.  Memory, disk blocks and
    buffers are lists of bytes, accessed through the little-endian fields of
    the C structs (Bytes).  Pointers into arrays of structs are indices,
    pointers to pages and to user memory are their 32-bit values.

    Code with effects is in the monad [M] of this file: a function from a state
    to an [outcome], which is a result, a [panic], a sleep on a channel, or a
    fault where C has undefined behaviour (an index out of range, a null
    pointer) or a loop does not end.  A component has a state of its own;
    [zoom] runs it inside the state of a client.  A pass of a loop around
    [sleep] gives [Sleep], and the pass is repeated when the process is woken;
    a write to a pipe goes on at the byte it had come to ([write_pipe]).
    Critical sections are atomic, but in Spinlock, Sched and Pipe, which
    interleave them.

    ** Files and what they model

    - Prelude, Bytes, Traps: integers, the monad, loops, byte arrays; traps.h.
    - Rand (rand.c): the Mersenne Twister and [random_at_most].
    - Buf, Bio (buf.h, bio.c, memide.c): the class [BlockDriver] is what the
      buffer cache relies on; Module [Memide] and Ide (ide.c) fulfil it.
    - Log (log.c): transactions, commit, recovery.
    - Fs (fs.c), with its theorems in FsBlock (allocation), FsFile (contents
      and [readi]), FsWrite ([writei], [iupdate]), FsTypes (the C types as an
      invariant of all calls), FsDir (directories).
    - Mkfs (mkfs.c): the image builder, against the file system that reads it.
    - Kalloc (kalloc.c, memlayout.h), Vm (vm.c), Seg (the segments of vm.c and
      mmu.h).
    - Proc (proc.c): the process table and the lottery; Sched: the scheduler,
      [sched], [sleep], [wakeup] and [yield] step by step on several
      processors, but for [sleep] with [ptable.lock] itself; Spinlock
      (spinlock.c).
    - Pipe (pipe.c), StringC (string.c).
    - Boot (bootmain.c), Mp (mp.c), Cmos and Cpus (lapic.c, [startothers] and
      [entrypgdir] of main.c), Intr (picirq.c, ioapic.c, timer.c, [tvinit] of
      trap.c), Console (console.c, kbd.c, uart.c).
    - Asm (vectors.pl, trapasm.S, swtch.S): the instructions on the registers
      of a processor, with what the processor does at a trap.
    - Kernel: the state of the whole kernel, file.c and the pages of pipes;
      Args, Sysfile, Exec, Sysproc, Syscall (syscall.c, sysfile.c, exec.c,
      sysproc.c and the rest of proc.c, trap.c).  Files, FilesInv, FilesSys:
      the open files through every system call; UserMem: user memory; FileIO
      and Durable: [fileread] and [filewrite] from the descriptor to the disk,
      with crashes; Defects: system calls that go wrong.
    - User: programs as trees of system calls; Printf (printf.c), Progs (the
      small programs, ulib.c), Tests (forktest.c, stressfs.c, lotterytest.c),
      Hackbench (hackbench.c), Grep (grep.c), Sh, ShPrint, ShRun (sh.c), Umalloc
      (umalloc.c); Usys (usys.S): a program run on the kernel through its traps;
      Usertests (usertests.c).

    ** What the theorems show

    - Crash safety: a crash anywhere in [end_op], followed by recovery, which
      may crash too, leaves all writes of a transaction or none; a crash in
      [filewrite] leaves a file with a prefix of the chunks written; the log has
      room for the operations [begin_op] admits while each keeps its share.
    - The file system: the cache never holds two versions of a block; [readi]
      and [writei] read and write a sequence of bytes, whatever its blocks; a
      linked name is found; a file of the image mkfs made is read back by the
      booted kernel; all data keeps its C types whatever is on the disk.
    - Memory: no page is handed out twice; a forked address space has the
      parent's bytes in frames of its own; [freevm] frees all; the kernel
      reads and writes user memory without faults where [argptr] and the
      others accept it.
    - Processes: the table's invariant over all its operations; every zombie
      has a parent that will collect it; a process wins the lottery in
      proportion to its tickets; the generator is MT19937 and the draw
      unbiased.
    - Concurrency: mutual exclusion and interrupt nesting of spin locks; the
      assertions of [sched] hold in every interleaving and no wakeup is lost;
      pipes are bounded queues whose sleepers are woken.
    - System calls: reference counts of files and pipes agree with the
      descriptors after every system call; the kernel, from the trap down to
      the disk, passes file system tests of usertests.c.
    - Assembly: a trap restores every register of the code it interrupted,
      [swtch] returns to its caller, and a new process starts with the
      registers of its trap frame.
    - Devices and boot: the disk queue is served in order; a typed line is
      what [consoleread] delivers; the boot loader, the processor table, the
      clock, the interrupt routing and the start of the other processors.
    - User programs: the shell's parser inverts printing and ends on every
      line, [runcmd] connects the programs it runs; [grep]'s matcher accepts
      its language; [malloc] and [free] keep the heap.

    Some theorems show runs of the code that go wrong: those of Defects and
    others beside the functions they are about, such as a processor table with
    an unknown entry, on which [mpinit] hangs.

    ** Bounds and fuel

    Loops that are not structural have fuel that the theorems show to be
    enough: the sizes of the structures they walk ([NBUF] buffers, the blocks
    of a file, the pages of a range, the bytes of a line or a segment).  Where
    C waits for something outside (another processor, the clock, a device that
    is ready) the fuel, or what the device answers, is an argument, and a theorem says when it suffices, or
    the step is only possible when the wait is over.  Programs that never end
    (init, the shell, grep's input) take the number of rounds as an argument.

    ** Parameters

    Code that is not in the sources is an argument: the addresses the linker
    gives ([end], [data], the entry points), the contents of user programs'
    input, the device functions of [devsw], the clock, the disk's contents.
    The registers of devices are modelled as far as the drivers use them.

    ** Not modelled

    The assembly that starts a processor (bootasm.S, entry.S, entryother.S),
    initcode.S and the port instructions of x86.h; [main], [mpenter] and
    [mpmain], which call the modelled components in turn; [uartinit];
    [procdump]; the polling of the boot disk until it is ready ([waitdisk]);
    messages printed for information; the tests of usertests.c
    that fork and share files, exhaust memory or disk, or read the kernel's
    memory.  Of the others, those on large files and those with children are
    run on simple models of files and of processes: a run of [fork] on the
    kernel, which maps all of memory, is too long to evaluate.  Time is
    not modelled: nothing is said about how long a process waits. *)
From stdpp Require Import base numbers list strings gmap.
From Stdlib Require Import ZArith Lia.

Local Open Scope Z_scope.

(** ** Machine integers

    The kernel is compiled for i386: [int], [uint], [long] and pointers have
    32 bits.  A machine word is a [Z]; the wrap-around is written out. *)

Definition u8 (x : Z) : Z := x mod 2 ^ 8.
Definition u16 (x : Z) : Z := x mod 2 ^ 16.
Definition u32 (x : Z) : Z := x mod 2 ^ 32.
Definition i32 (x : Z) : Z := (x + 2 ^ 31) mod 2 ^ 32 - 2 ^ 31.
Definition is_u32 (x : Z) : Prop := 0 <= x < 2 ^ 32.

(** ** Channels

    [sleep] and [wakeup] identify what a process waits for by an address.
    These are the addresses the modelled code uses. *)

Inductive chan : Type :=
| ChProc (i : nat)       (* a process, in wait() *)
| ChBuf (i : nat)        (* a buffer of bcache.buf *)
| ChInode (i : nat)      (* an entry of icache.inode *)
| ChLog                  (* &log *)
| ChTicks                (* &ticks *)
| ChInput                (* &input.r *)
| ChPipeRead (p : Z)     (* &p->nread *)
| ChPipeWrite (p : Z).   (* &p->nwrite *)

#[global] Instance chan_eq_dec : EqDecision chan.
Proof. solve_decision. Defined.

(** ** The kernel monad

    A computation either returns, stops in [panic], blocks in [sleep], or
    leaves the objects the C code may touch ([Fault]: an access outside an
    array, a null dereference).  A blocked computation keeps the state it
    reached and the channel it waits on. *)

Inductive outcome (S A : Type) : Type :=
| Ret (s : S) (a : A)
| Panic (msg : string)
| Sleep (c : chan) (s : S)
| Fault.
Arguments Ret {S A} s a.
Arguments Panic {S A} msg.
Arguments Sleep {S A} c s.
Arguments Fault {S A}.

Definition M (S A : Type) : Type := S -> outcome S A.

Definition ret {S A} (a : A) : M S A := fun s => Ret s a.
Definition bind {S A B} (m : M S A) (k : A -> M S B) : M S B := fun s =>
  match m s with
  | Ret s' a => k a s'
  | Panic msg => Panic msg
  | Sleep c s' => Sleep c s'
  | Fault => Fault
  end.
Definition get {S} : M S S := fun s => Ret s s.
Definition gets {S A} (f : S -> A) : M S A := fun s => Ret s (f s).
Definition modify {S} (f : S -> S) : M S unit := fun s => Ret (f s) tt.
Definition panic {S A} (msg : string) : M S A := fun _ => Panic msg.
Definition sleep_on {S A} (c : chan) : M S A := fun s => Sleep c s.
Definition fault {S A} : M S A := fun _ => Fault.
Definition from_opt {S A} (o : option A) : M S A :=
  match o with Some a => ret a | None => fault end.
Definition whenM {S} (b : bool) (m : M S unit) : M S unit :=
  if b then m else ret tt.

(** Running a computation of one component inside the state of a client. *)
Definition zoom {S T A} (g : S -> T) (p : T -> S -> S) (m : M T A) : M S A := fun s =>
  match m (g s) with
  | Ret t a => Ret (p t s) a
  | Panic msg => Panic msg
  | Sleep c t => Sleep c (p t s)
  | Fault => Fault
  end.

Declare Scope xv6_scope.
Delimit Scope xv6_scope with xv6.
Notation "'let*' x ':=' m 'in' k" := (bind m (fun x => k))
  (at level 10, x pattern, m at level 100, k at level 200,
   format "'[v' 'let*'  x  ':='  m  'in' '/' k ']'") : xv6_scope.
Notation "m ;;; k" := (bind m (fun _ => k))
  (at level 100, right associativity) : xv6_scope.
Open Scope xv6_scope.

(** [returns m s Q]: from [s], the computation [m] returns (no panic, no
    blocking, no fault), with a state and a value in [Q]. *)
Definition returns {S A} (m : M S A) (s : S) (Q : S -> A -> Prop) : Prop :=
  exists s' a, m s = Ret s' a /\ Q s' a.

(** ** Counting loops: [for (i = lo; i < hi; i++) s = f(i, s)]. *)
Definition for_range {S} (lo hi : nat) (f : nat -> S -> S) (s : S) : S :=
  foldl (fun s i => f i s) s (seq lo (hi - lo)).

(** The same loop with effects. *)
Definition for_M {S} (lo hi : nat) (f : nat -> M S unit) : M S unit :=
  foldr (fun i k => f i ;;; k) (ret tt) (seq lo (hi - lo)).

(** ** Lemmas *)

Lemma u32_range x : is_u32 (u32 x).
Proof. apply Z.mod_pos_bound. lia. Qed.

Lemma u32_small x : is_u32 x -> u32 x = x.
Proof. apply Z.mod_small. Qed.

Lemma i32_range x : - 2 ^ 31 <= i32 x < 2 ^ 31.
Proof. unfold i32. pose proof (Z.mod_pos_bound (x + 2 ^ 31) (2 ^ 32)). lia. Qed.

Lemma i32_small x : - 2 ^ 31 <= x < 2 ^ 31 -> i32 x = x.
Proof. intros. unfold i32. rewrite Z.mod_small; lia. Qed.

Lemma bind_ret {S A B} (m : M S A) (k : A -> M S B) s s' a :
  m s = Ret s' a -> bind m k s = k a s'.
Proof. unfold bind. by intros ->. Qed.

Lemma bind_inv {S A B} (m : M S A) (k : A -> M S B) s s' b :
  bind m k s = Ret s' b -> exists s1 a, m s = Ret s1 a /\ k a s1 = Ret s' b.
Proof. unfold bind. destruct (m s) as [s1 a| | |]; try done. by exists s1, a. Qed.

Lemma bind_ext {S A B} (m : M S A) (k k' : A -> M S B) s :
  (forall a s', k a s' = k' a s') -> bind m k s = bind m k' s.
Proof. intros Hk. unfold bind. destruct (m s); auto. Qed.

Lemma ret_bind {S A B} (a : A) (k : A -> M S B) s : bind (ret a) k s = k a s.
Proof. done. Qed.

Lemma modify_bind {S B} (f : S -> S) (k : unit -> M S B) s : bind (modify f) k s = k tt (f s).
Proof. done. Qed.

Lemma gets_bind {S A B} (f : S -> A) (k : A -> M S B) s : bind (gets f) k s = k (f s) s.
Proof. done. Qed.

Lemma from_opt_bind {S A B} (a : A) (k : A -> M S B) s : bind (from_opt (Some a)) k s = k a s.
Proof. done. Qed.

Lemma returns_ret {S A} (a : A) (s : S) (Q : S -> A -> Prop) :
  Q s a -> returns (ret a) s Q.
Proof. intros H. by exists s, a. Qed.

Lemma returns_bind {S A B} (m : M S A) (k : A -> M S B) s (Q : S -> B -> Prop) :
  returns m s (fun s' a => returns (k a) s' Q) -> returns (bind m k) s Q.
Proof.
  intros (s1 & a & Hm & s2 & b & Hk & HQ). exists s2, b.
  by rewrite (bind_ret _ _ _ _ _ Hm).
Qed.

Lemma returns_mono {S A} (m : M S A) s (P Q : S -> A -> Prop) :
  returns m s P -> (forall s' a, P s' a -> Q s' a) -> returns m s Q.
Proof. intros (s' & a & H & HP) HQ. exists s', a; auto. Qed.

Lemma for_range_empty {S} lo hi (f : nat -> S -> S) s :
  (hi <= lo)%nat -> for_range lo hi f s = s.
Proof. intros. unfold for_range. by replace (hi - lo)%nat with 0%nat by lia. Qed.

Lemma for_range_last {S} lo hi (f : nat -> S -> S) s :
  (lo <= hi)%nat -> for_range lo (Datatypes.S hi) f s = f hi (for_range lo hi f s).
Proof.
  intros. unfold for_range. replace (Datatypes.S hi - lo)%nat with (Datatypes.S (hi - lo)) by lia.
  rewrite seq_S, foldl_app. simpl. f_equal. lia.
Qed.

(** The invariant rule of a counting loop. *)
Lemma for_range_ind {S} (P : nat -> S -> Prop) lo hi (f : nat -> S -> S) s :
  (lo <= hi)%nat -> P lo s ->
  (forall i s, (lo <= i < hi)%nat -> P i s -> P (Datatypes.S i) (f i s)) ->
  P hi (for_range lo hi f s).
Proof.
  intros Hle H0 Hstep. induction Hle as [|m Hle IH].
  - by rewrite for_range_empty.
  - rewrite for_range_last by lia. apply Hstep; [lia|].
    apply IH. intros. apply Hstep; [lia|done].
Qed.

(** The invariant rule of a counting loop with effects: it terminates. *)
Lemma for_M_ind {S} (P : nat -> S -> Prop) lo hi (f : nat -> M S unit) s :
  (lo <= hi)%nat -> P lo s ->
  (forall i s, (lo <= i < hi)%nat -> P i s -> exists s', f i s = Ret s' tt /\ P (Datatypes.S i) s') ->
  exists s', for_M lo hi f s = Ret s' tt /\ P hi s'.
Proof.
  intros Hle H0 Hstep. unfold for_M. remember (hi - lo)%nat as n eqn:Hn.
  revert lo s Hle H0 Hstep Hn. induction n as [|n IH]; intros lo s Hle H0 Hstep Hn; simpl.
  - exists s. split; [done|]. by replace hi with lo by lia.
  - destruct (Hstep lo s) as (s1 & H1 & P1); [lia|done|].
    rewrite (bind_ret _ _ _ _ _ H1). apply IH; [lia|done| |lia].
    intros. apply Hstep; [lia|done].
Qed.

(** ** Flag words

    [hasf f x] is the condition [x & f]. *)
Definition hasf (f x : Z) : bool := negb (Z.land x f =? 0).

Lemma hasf_lor f x y : hasf f (Z.lor x y) = hasf f x || hasf f y.
Proof.
  unfold hasf. rewrite Z.land_lor_distr_l, <- negb_andb. f_equal.
  destruct (Z.eqb_spec (Z.land x f) 0) as [->|Hx].
  - by rewrite Z.lor_0_l.
  - apply Z.eqb_neq. intros [? ?]%Z.lor_eq_0_iff. done.
Qed.

Lemma hasf_clear f x : hasf f (Z.land x (Z.lnot f)) = false.
Proof.
  unfold hasf. rewrite <- Z.land_assoc, (Z.land_comm (Z.lnot f)), Z.land_lnot_diag, Z.land_0_r. done.
Qed.

Lemma hasf_clear_other f g x : Z.land f g = 0 -> hasf f (Z.land x (Z.lnot g)) = hasf f x.
Proof.
  intros H. unfold hasf. rewrite <- Z.land_assoc, (Z.land_comm (Z.lnot g)).
  rewrite <- Z.ldiff_land. replace (Z.ldiff f g) with f; [done|].
  apply Z.bits_inj'. intros n Hn. rewrite Z.ldiff_spec.
  assert (Z.testbit f n && Z.testbit g n = false) as E.
  { by rewrite <- Z.land_spec, H, Z.bits_0. }
  by destruct (Z.testbit f n), (Z.testbit g n).
Qed.

Lemma hasf_clear_id f x : hasf f x = false -> Z.land x (Z.lnot f) = x.
Proof.
  unfold hasf. intros H%negb_false_iff%Z.eqb_eq. rewrite <- Z.ldiff_land.
  apply Z.bits_inj'. intros n Hn. rewrite Z.ldiff_spec.
  assert (Z.testbit x n && Z.testbit f n = false) as E.
  { by rewrite <- Z.land_spec, H, Z.bits_0. }
  by destruct (Z.testbit x n), (Z.testbit f n).
Qed.

Lemma hasf_split f g x : hasf (Z.lor f g) x = hasf f x || hasf g x.
Proof.
  unfold hasf. rewrite (Z.land_comm x (Z.lor f g)), (Z.land_comm x f), (Z.land_comm x g).
  apply (hasf_lor x f g).
Qed.

(** ** Arrays *)

Lemma list_alter_Some {A} (f : A -> A) (l : list A) i x :
  l !! i = Some x -> alter f i l = <[i := f x]> l.
Proof.
  intros H. apply list_eq. intros j. destruct (decide (i = j)) as [<-|Hne].
  - rewrite list_lookup_alter, decide_True, H by done.
    rewrite list_lookup_insert_eq; [done|]. by eapply lookup_lt_Some.
  - by rewrite list_lookup_alter, decide_False, list_lookup_insert_ne.
Qed.

Lemma list_alter_insert {A} (f : A -> A) (l : list A) i x :
  alter f i (<[i := x]> l) = <[i := f x]> l.
Proof.
  destruct (decide (i < length l)%nat) as [H|H].
  - rewrite (list_alter_Some _ _ _ x) by (by apply list_lookup_insert_eq).
    apply list_insert_insert_eq.
  - rewrite !list_insert_ge by lia. apply list_eq. intros j.
    rewrite list_lookup_alter. case_decide; subst; [|done].
    by rewrite lookup_ge_None_2 by lia.
Qed.

(** ** Proof steps *)

(** Run one computation of a sequence whose result is known. *)
Ltac mrun H := rewrite (bind_ret _ _ _ _ _ H).

Lemma zoom_ret {S T A} (g : S -> T) p (m : M T A) s t a :
  m (g s) = Ret t a -> zoom g p m s = Ret (p t s) a.
Proof. unfold zoom. by intros ->. Qed.

(** ** Computations that never block *)

Class NonBlocking {S A} (m : M S A) : Prop := nonblocking : forall s c s', m s <> Sleep c s'.

#[export] Instance nb_ret {S A} (a : A) : NonBlocking (S := S) (ret a).
Proof. by intros s c s'. Qed.
#[export] Instance nb_get {S} : NonBlocking (S := S) get.
Proof. by intros s c s'. Qed.
#[export] Instance nb_gets {S A} (f : S -> A) : NonBlocking (gets f).
Proof. by intros s c s'. Qed.
#[export] Instance nb_modify {S} (f : S -> S) : NonBlocking (modify f).
Proof. by intros s c s'. Qed.
#[export] Instance nb_panic {S A} msg : NonBlocking (S := S) (A := A) (panic msg).
Proof. by intros s c s'. Qed.
#[export] Instance nb_fault {S A} : NonBlocking (S := S) (A := A) fault.
Proof. by intros s c s'. Qed.
#[export] Instance nb_from_opt {S A} (o : option A) : NonBlocking (S := S) (from_opt o).
Proof. by destruct o; intros s c s'. Qed.
#[export] Instance nb_bind {S A B} (m : M S A) (k : A -> M S B) :
  NonBlocking m -> (forall a, NonBlocking (k a)) -> NonBlocking (bind m k).
Proof.
  intros Hm Hk s c s'. unfold bind. specialize (Hm s). destruct (m s) as [s1 a| |c1 s1|]; [apply Hk|done| |done].
  by destruct (Hm c1 s1).
Qed.
#[export] Instance nb_if {S A} (b : bool) (m m' : M S A) :
  NonBlocking m -> NonBlocking m' -> NonBlocking (if b then m else m').
Proof. by destruct b. Qed.
#[export] Instance nb_when {S} b (m : M S unit) : NonBlocking m -> NonBlocking (whenM b m).
Proof. intros. unfold whenM. apply _. Qed.
#[export] Instance nb_for {S} lo hi (f : nat -> M S unit) :
  (forall i, NonBlocking (f i)) -> NonBlocking (for_M lo hi f).
Proof. intros Hf. unfold for_M. induction (seq lo (hi - lo)); simpl; apply _. Qed.
#[export] Instance nb_zoom {S T A} (g : S -> T) p (m : M T A) : NonBlocking m -> NonBlocking (zoom g p m).
Proof.
  intros Hm s c s'. unfold zoom. specialize (Hm (g s)). destruct (m (g s)) as [| |c1 t|]; try done.
  by destruct (Hm c1 t).
Qed.
