(* ===== verification/Rand.v ===== *)
(** * Rand: the Mersenne twister of rand.c

    [sgenrand], [genrand] and [random_at_most] with their static state, a
    reference definition of MT19937 as a sliding window over its recurrence,
    and the theorems that the in-place block regeneration of [genrand] computes
    that recurrence and that [random_at_most] is unbiased. *)
From stdpp Require Import base numbers list.
From Stdlib Require Import ZArith Lia.
From S2P Require Import Prelude.

Local Open Scope Z_scope.

(** ** Constants *)
Definition N : nat := 624.
Definition Mm : nat := 397.
Definition MATRIX_A : Z := 0x9908b0df.
Definition UPPER_MASK : Z := 0x80000000.
Definition LOWER_MASK : Z := 0x7fffffff.
Definition TEMPERING_MASK_B : Z := 0x9d2c5680.
Definition TEMPERING_MASK_C : Z := 0xefc60000.
Definition RAND_MAX : Z := 0x7fffffff.

(** The static state: [mt[N]] and [mti]. *)
Record rng := mk_rng { mt : list Z; mti : nat }.

(** The state at boot: zeroed [mt], [mti == N+1]. *)
Definition rng_boot : rng := mk_rng (replicate N 0) (N + 1).

(** [sgenrand(seed)]: fills [mt] and leaves [mti == N]. *)
Definition sgenrand (seed : Z) (s : rng) : rng :=
  let mt0 := <[0%nat := Z.land seed 0xffffffff]> (mt s) in
  mk_rng (for_range 1 N (fun i m => <[i := Z.land (u32 (69069 * (m !!! (i - 1)%nat))) 0xffffffff]> m) mt0) N.

Definition mag01 (x : Z) : Z := if decide (x = 0) then 0 else MATRIX_A.

(** One assignment [mt[kk] = mt[src] ^ (y >> 1) ^ mag01[y & 1]], with [y] the
    upper bit of [mt[kk]] and the lower bits of [mt[nx]]. *)
Definition gen_word (kk nx src : nat) (m : list Z) : list Z :=
  let y := Z.lor (Z.land (m !!! kk) UPPER_MASK) (Z.land (m !!! nx) LOWER_MASK) in
  <[kk := Z.lxor (Z.lxor (m !!! src) (Z.shiftr y 1)) (mag01 (Z.land y 1))]> m.

(** The regeneration of all [N] words. *)
Definition genrand_reload (m : list Z) : list Z :=
  let m1 := for_range 0 (N - Mm) (fun kk m => gen_word kk (kk + 1) (kk + Mm) m) m in
  let m2 := for_range (N - Mm) (N - 1) (fun kk m => gen_word kk (kk + 1) (kk + Mm - N) m) m1 in
  gen_word (N - 1) 0 (Mm - 1) m2.

Definition temper (y : Z) : Z :=
  let y := Z.lxor y (Z.shiftr y 11) in
  let y := Z.lxor y (Z.land (u32 (Z.shiftl y 7)) TEMPERING_MASK_B) in
  let y := Z.lxor y (Z.land (u32 (Z.shiftl y 15)) TEMPERING_MASK_C) in
  let y := Z.lxor y (Z.shiftr y 18) in
  Z.land y RAND_MAX.

Definition genrand (s : rng) : rng * Z :=
  let s :=
    if decide (N <= mti s)%nat then
      let s := if decide (mti s = N + 1)%nat then sgenrand 4357 s else s in
      mk_rng (genrand_reload (mt s)) 0
    else s in
  (mk_rng (mt s) (mti s + 1), temper (mt s !!! mti s)).

(** The do-while loop of [random_at_most]; [None] when the fuel is exhausted. *)
Fixpoint random_loop (fuel : nat) (limit : Z) (s : rng) : option (rng * Z) :=
  match fuel with
  | O => None
  | S fuel =>
      let '(s, x) := genrand s in
      if limit <=? x then random_loop fuel limit s else Some (s, x)
  end.

Definition num_rand : Z := RAND_MAX + 1.
Definition num_bins (max : Z) : Z := u32 (max + 1).
Definition bin_size (max : Z) : Z := num_rand / num_bins max.
Definition defect (max : Z) : Z := num_rand mod num_bins max.

Definition random_at_most (fuel : nat) (max : Z) (s : rng) : option (rng * Z) :=
  match random_loop fuel (u32 (num_rand - defect max)) s with
  | Some (s, x) => Some (s, x / bin_size max)
  | None => None
  end.

(** ** Reference: MT19937 as a sliding window of [N] words

    [slide] drops the oldest word [x_k] and appends
    [x_(k+N) = x_(k+M) ^ twist(x_k, x_(k+1))]. *)
Definition twist (u l : Z) : Z :=
  let y := Z.lor (Z.land u UPPER_MASK) (Z.land l LOWER_MASK) in
  Z.lxor (Z.shiftr y 1) (mag01 (Z.land y 1)).

Definition slide (w : list Z) : list Z :=
  drop 1 w ++ [Z.lxor (w !!! Mm) (twist (w !!! 0%nat) (w !!! 1%nat))].

(** [X w n] is the [n]-th word of the infinite sequence that starts with [w]. *)
Definition X (w : list Z) (n : nat) : Z := Nat.iter n slide w !!! 0%nat.

(** The state [s] of rand.c produces next the word after the window [w]. *)
Definition rng_window (s : rng) (w : list Z) : Prop :=
  length w = N /\ length (mt s) = N /\
  ((mti s = N /\ w = mt s) \/
   ((mti s < N)%nat /\ exists w0, length w0 = N /\
      mt s = Nat.iter N slide w0 /\ w = Nat.iter (mti s) slide w0)).

Arguments N : simpl never.
Arguments Mm : simpl never.
Arguments sgenrand : simpl never.
Arguments genrand_reload : simpl never.
Arguments genrand : simpl never.
Arguments temper : simpl never.

(** ** The window and the sequence *)

Lemma slide_length w : length w = N -> length (slide w) = N.
Proof. intros H. unfold slide. rewrite length_app, length_drop, H. reflexivity. Qed.

Lemma iter_slide_length k w : length w = N -> length (Nat.iter k slide w) = N.
Proof. intros H. induction k as [|k IH]; [done|]. simpl. by apply slide_length. Qed.

Lemma slide_lookup w j : length w = N -> (j + 1 < N)%nat -> slide w !!! j = w !!! (j + 1)%nat.
Proof.
  intros Hw Hj. unfold slide. rewrite lookup_total_app_l by (rewrite length_drop; lia).
  rewrite lookup_total_drop. f_equal. lia.
Qed.

Lemma slide_lookup_last w :
  length w = N ->
  slide w !!! (N - 1)%nat = Z.lxor (w !!! Mm) (twist (w !!! 0%nat) (w !!! 1%nat)).
Proof.
  intros Hw. unfold slide. rewrite lookup_total_app_r by (rewrite length_drop, Hw; unfold N; lia).
  rewrite length_drop, Hw. by replace (N - 1 - (N - 1))%nat with 0%nat by lia.
Qed.

Lemma iter_slide_lookup w k j : length w = N -> (j < N)%nat ->
  Nat.iter k slide w !!! j = X w (k + j).
Proof.
  intros Hw. revert k. induction j as [|j IH]; intros k Hj.
  - by rewrite Nat.add_0_r.
  - replace (k + S j)%nat with (S k + j)%nat by lia.
    rewrite <- (IH (S k)) by lia. simpl.
    rewrite slide_lookup by (try apply iter_slide_length; auto; lia). f_equal. lia.
Qed.

Lemma X_rec w n : length w = N ->
  X w (n + N) = Z.lxor (X w (n + Mm)) (twist (X w n) (X w (n + 1))).
Proof.
  intros Hw.
  replace (n + N)%nat with (S n + (N - 1))%nat by (unfold N; lia).
  rewrite <- iter_slide_lookup by (auto; unfold N; lia). rewrite Nat.iter_succ.
  rewrite slide_lookup_last by (by apply iter_slide_length).
  rewrite !iter_slide_lookup by (auto; unfold N, Mm; lia).
  by rewrite Nat.add_0_r.
Qed.

(** ** The in-place regeneration computes [N] slides *)

(** The first [k] words have been regenerated, the others are old. *)
Definition regen_upto (w : list Z) (k : nat) (m : list Z) : Prop :=
  length m = N /\
  (forall i, (i < k)%nat -> m !!! i = X w (i + N)) /\
  (forall i, (k <= i < N)%nat -> m !!! i = X w i).

Lemma gen_word_regen w k nx src m :
  length w = N -> (k < N)%nat -> regen_upto w k m ->
  m !!! nx = X w (k + 1) -> m !!! src = X w (k + Mm) ->
  regen_upto w (S k) (gen_word k nx src m).
Proof.
  intros Hw Hk (Hlen & Hnew & Hold) Hnx Hsrc. unfold gen_word.
  split; [by rewrite length_insert|]. split; intros i Hi.
  - destruct (decide (i = k)) as [->|Hne].
    + rewrite list_lookup_total_insert_eq by lia.
      rewrite X_rec by done. rewrite Hsrc, Hnx, (Hold k) by lia.
      unfold twist. by rewrite Z.lxor_assoc.
    + rewrite list_lookup_total_insert_ne by done. apply Hnew. lia.
  - rewrite list_lookup_total_insert_ne by lia. apply Hold. lia.
Qed.

Lemma genrand_reload_slides w :
  length w = N -> genrand_reload w = Nat.iter N slide w.
Proof.
  intros Hw. unfold genrand_reload.
  assert (regen_upto w (N - 1)
    (for_range (N - Mm) (N - 1) (fun kk m => gen_word kk (kk + 1) (kk + Mm - N) m)
      (for_range 0 (N - Mm) (fun kk m => gen_word kk (kk + 1) (kk + Mm) m) w))) as (Hl & Hnew & Hold).
  { apply for_range_ind; [unfold N, Mm; lia| |].
    - apply for_range_ind; [unfold N, Mm; lia| |].
      + split; [done|]. split; intros i Hi; [lia|].
        apply (iter_slide_lookup w 0 i); auto; lia.
      + intros i m Hi Hm. pose proof Hm as (Hl & Hnew & Hold).
        apply gen_word_regen; auto; try apply Hold; unfold N, Mm in *; lia.
    - intros i m Hi Hm. pose proof Hm as (Hl & Hnew & Hold).
      apply gen_word_regen; auto; try (unfold N, Mm in *; lia).
      + apply Hold. unfold N, Mm in *; lia.
      + rewrite Hnew by (unfold N, Mm in *; lia). f_equal. unfold N, Mm in *; lia. }
  match goal with |- gen_word _ _ _ ?m = _ => set (m2 := m) in * end.
  destruct (gen_word_regen w (N - 1) 0 (Mm - 1) m2) as (Hl' & Hnew' & _); auto.
  - by split.
  - apply Hnew. unfold N; lia.
  - rewrite Hnew by (unfold N, Mm; lia). f_equal.
  - apply (list_eq_same_length _ _ N); [by rewrite iter_slide_length|done|].
    intros i a b Hi Ha Hb.
    apply list_lookup_total_correct in Ha, Hb. subst.
    rewrite Hnew', iter_slide_lookup by (auto; unfold N in *; lia). f_equal. lia.
Qed.

(** ** [genrand] follows the window *)

Lemma sgenrand_length seed s : length (mt s) = N -> length (mt (sgenrand seed s)) = N.
Proof.
  intros H. unfold sgenrand, mt.
  apply (for_range_ind (fun _ m => length m = N)); [unfold N; lia| |].
  - by rewrite length_insert.
  - intros. by rewrite length_insert.
Qed.

Lemma sgenrand_window seed s :
  length (mt s) = N -> rng_window (sgenrand seed s) (mt (sgenrand seed s)).
Proof. intros H. pose proof (sgenrand_length seed s H). split_and!; auto. Qed.

Lemma genrand_window s w :
  rng_window s w ->
  exists s', genrand s = (s', temper (slide w !!! (N - 1)%nat)) /\ rng_window s' (slide w).
Proof.
  intros (Hw & Hl & Hcase). unfold genrand.
  destruct Hcase as [[Hi ->]|(Hi & w0 & Hw0 & Hmt & ->)].
  - rewrite decide_True by lia. rewrite decide_False by lia. cbn [mt mti].
    rewrite genrand_reload_slides by done. eexists. split.
    + do 2 f_equal. pose proof (iter_slide_lookup (mt s) 1 (N - 1)) as E.
      rewrite iter_slide_lookup by (auto; unfold N; lia). symmetry. apply E; auto; unfold N; lia.
    + split_and!; [by apply slide_length|by apply iter_slide_length|].
      right. cbn [mt mti]. split; [unfold N; lia|]. exists (mt s). auto.
  - rewrite decide_False by lia. eexists. split.
    + do 2 f_equal. rewrite Hmt, iter_slide_lookup by auto.
      rewrite <- Nat.iter_succ, iter_slide_lookup by (auto; unfold N; lia). f_equal. unfold N; lia.
    + split_and!; [by apply slide_length|done|]. cbn [mt mti].
      destruct (decide (mti s + 1 = N)%nat) as [E|Hne].
      * left. split; [done|]. rewrite Hmt, <- E, Nat.add_1_r. by rewrite Nat.iter_succ.
      * right. split; [lia|]. exists w0. rewrite Nat.add_1_r, Nat.iter_succ. auto.
Qed.

(** The state after [n] draws, and the value of the next one. *)
Definition after (n : nat) (s : rng) : rng := Nat.iter n (fun s => (genrand s).1) s.
Definition draw (n : nat) (s : rng) : Z := (genrand (after n s)).2.

Lemma after_window n s w : rng_window s w -> rng_window (after n s) (Nat.iter n slide w).
Proof.
  intros H. induction n as [|n IH]; [done|]. unfold after in *. rewrite !Nat.iter_succ.
  destruct (genrand_window _ _ IH) as (s' & E & H'). by rewrite E.
Qed.

Lemma after_S n s : after (S n) s = after n (genrand s).1.
Proof. unfold after. by rewrite Nat.iter_succ_r. Qed.

Lemma temper_range y : 0 <= temper y <= RAND_MAX.
Proof.
  unfold temper, RAND_MAX. set (z := Z.lxor _ _).
  change 0x7fffffff with (Z.ones 31). rewrite Z.land_ones by lia.
  pose proof (Z.mod_pos_bound z (2 ^ 31)). rewrite Z.ones_equiv. lia.
Qed.

Lemma draw_range n s : 0 <= draw n s <= RAND_MAX.
Proof. unfold draw, genrand. apply temper_range. Qed.

Lemma draw_S n s : draw (S n) s = draw n (genrand s).1.
Proof. unfold draw. by rewrite after_S. Qed.

(** ** [random_at_most] *)

Lemma random_loop_S fuel limit s :
  random_loop (S fuel) limit s =
  if limit <=? draw 0 s then random_loop fuel limit (after 1 s) else Some (after 1 s, draw 0 s).
Proof. cbn [random_loop]. unfold draw, after. cbn [Nat.iter nat_rect]. by destruct (genrand s). Qed.

Lemma random_loop_first limit k fuel s :
  (forall i, (i < k)%nat -> limit <= draw i s) -> draw k s < limit -> (k < fuel)%nat ->
  random_loop fuel limit s = Some (after (S k) s, draw k s).
Proof.
  revert fuel s. induction k as [|k IH]; intros [|fuel] s Hrej Hacc Hf; try lia;
    rewrite random_loop_S.
  - by rewrite (proj2 (Z.leb_gt _ _)) by lia.
  - rewrite (proj2 (Z.leb_le _ _)) by (apply Hrej; lia).
    rewrite draw_S in *. rewrite (after_S (S k)), (after_S 0). apply IH; [|done|lia].
    intros i Hi. change (limit <= draw i (genrand s).1).
    rewrite <- draw_S. apply Hrej. lia.
Qed.

Section bins.
Context (max : Z) (Hmax : 0 <= max <= RAND_MAX).

Lemma num_bins_eq : num_bins max = max + 1.
Proof. unfold num_bins. apply u32_small. unfold is_u32, RAND_MAX in *. lia. Qed.

Lemma bin_size_pos : 1 <= bin_size max.
Proof.
  unfold bin_size. rewrite num_bins_eq. unfold num_rand.
  apply Z.div_le_lower_bound; lia.
Qed.

Lemma limit_exact : num_rand - defect max = (max + 1) * bin_size max.
Proof. unfold defect, bin_size. rewrite num_bins_eq, Z.mod_eq by lia. ring. Qed.

Lemma limit_nowrap : u32 (num_rand - defect max) = num_rand - defect max.
Proof.
  apply u32_small. unfold defect. rewrite num_bins_eq.
  pose proof (Z.mod_pos_bound num_rand (max + 1) ltac:(lia)).
  assert (num_rand mod (max + 1) <= num_rand) by (apply Z.mod_le; [done|lia]).
  change num_rand with (2 ^ 31) in *. revert H H0.
  generalize (2 ^ 31 mod (max + 1)). unfold is_u32. lia.
Qed.
End bins.

(** C4: [genrand] is MT19937.  After seeding, the [n]-th call returns the
    tempered word number [N + n] of the reference recurrence. *)
Theorem genrand_is_mt19937 seed s n :
  length (mt s) = N ->
  draw n (sgenrand seed s) = temper (X (mt (sgenrand seed s)) (n + N)).
Proof.
  intros H. pose proof (sgenrand_window seed s H) as Hw.
  pose proof (after_window n _ _ Hw) as Hn.
  destruct (genrand_window _ _ Hn) as (s' & E & _). unfold draw. rewrite E. cbn [snd].
  rewrite <- Nat.iter_succ.
  rewrite iter_slide_lookup; [|exact (sgenrand_length seed s H)|unfold N; lia].
  do 2 f_equal. unfold N. lia.
Qed.

(** [random_at_most] returns the first accepted draw, scaled to [0..max],
    as soon as the fuel covers the rejected draws before it. *)
Theorem random_at_most_first max k fuel s :
  0 <= max <= RAND_MAX ->
  (forall i, (i < k)%nat -> num_rand - defect max <= draw i s) ->
  draw k s < num_rand - defect max -> (k < fuel)%nat ->
  random_at_most fuel max s = Some (after (S k) s, draw k s / bin_size max) /\
  0 <= draw k s / bin_size max <= max.
Proof.
  intros Hmax Hrej Hacc Hf. pose proof (limit_exact max Hmax) as HL.
  unfold random_at_most. rewrite limit_nowrap by done.
  rewrite (random_loop_first _ k) by auto. split; [done|].
  pose proof (bin_size_pos max Hmax). pose proof (draw_range k s).
  split; [apply Z.div_pos; lia|].
  assert (draw k s / bin_size max < max + 1); [|lia].
  apply Z.div_lt_upper_bound; lia.
Qed.

(** A loop that returns has found its first accepted draw. *)
Lemma random_loop_some limit fuel s s' x :
  random_loop fuel limit s = Some (s', x) ->
  exists k, (k < fuel)%nat /\ (forall i, (i < k)%nat -> limit <= draw i s) /\ draw k s < limit /\ s' = after (S k) s /\ x = draw k s.
Proof.
  revert s. induction fuel as [|fuel IH]; intros s H; [done|]. rewrite random_loop_S in H. destruct (Z.leb_spec limit (draw 0 s)) as [Hl|Hl].
  - destruct (IH _ H) as (k & Hk & Hr & Ha & -> & ->). change (after 1 s) with (genrand s).1 in *. exists (S k). rewrite draw_S, (after_S (S k)).
    split_and!; [lia| |done|done|done]. intros [|i] Hi; [done|]. rewrite draw_S. apply Hr. lia.
  - injection H as <- <-. exists 0%nat. split_and!; [lia|lia|done|done|done].
Qed.

(** C16: [random_at_most] draws without bias.  The words [genrand] can return
    fall into bins of the same size [b], one for each value of [0..max], and at
    most [max] words in none; [random_at_most] draws until a word is in a bin and
    returns the value of that bin, with the generator advanced by the draws
    it took. *)
Theorem random_at_most_unbiased max : 0 <= max <= RAND_MAX ->
  exists b, 1 <= b /\ 0 <= RAND_MAX + 1 - (max + 1) * b <= max /\
    forall fuel s s' v, random_at_most fuel max s = Some (s', v) <->
      exists k, (k < fuel)%nat /\ s' = after (S k) s /\ 0 <= v <= max /\ v * b <= draw k s < (v + 1) * b /\
        forall i, (i < k)%nat -> (max + 1) * b <= draw i s.
Proof.
  intros Hmax. pose proof (bin_size_pos max Hmax) as Hb. pose proof (limit_exact max Hmax) as HL. exists (bin_size max). split; [done|]. split.
  { rewrite <- HL. unfold defect. rewrite num_bins_eq by done. pose proof (Z.mod_pos_bound num_rand (max + 1) ltac:(lia)).
    change num_rand with (RAND_MAX + 1) in *. lia. }
  intros fuel s s' v. split.
  - unfold random_at_most. rewrite limit_nowrap, HL by done. destruct (random_loop fuel _ s) as [[s1 x]|] eqn:E; [|done]. intros [= <- <-].
    destruct (random_loop_some _ _ _ _ _ E) as (k & Hk & Hr & Ha & -> & ->). pose proof (draw_range k s).
    pose proof (Z.div_mod (draw k s) (bin_size max) ltac:(lia)). pose proof (Z.mod_pos_bound (draw k s) (bin_size max) ltac:(lia)).
    exists k. split_and!; [done|done|apply Z.div_pos; lia| |lia|lia|done].
    assert (draw k s / bin_size max < max + 1); [apply Z.div_lt_upper_bound; lia|lia].
  - intros (k & Hk & -> & Hv & Hx & Hr). destruct (random_at_most_first max k fuel s Hmax) as [-> _]; [by rewrite HL|rewrite HL; nia|done|].
    do 2 f_equal. symmetry. apply (Z.div_unique _ _ _ (draw k s - v * bin_size max)); lia.
Qed.

Lemma genrand_is_mt19937_witness :
  draw 0 (sgenrand 4357 rng_boot) = temper (X (mt (sgenrand 4357 rng_boot)) (0 + N)).
Proof. apply (genrand_is_mt19937 4357 rng_boot 0). reflexivity. Defined.

Lemma random_at_most_first_witness :
  random_at_most 1 982343221 rng_boot =
    Some (after 1 rng_boot, draw 0 rng_boot / bin_size 982343221) /\
  0 <= draw 0 rng_boot / bin_size 982343221 <= 982343221.
Proof.
  apply (random_at_most_first 982343221 0 1 rng_boot).
  - split; discriminate.
  - intros i Hi. inversion Hi.
  - vm_compute. reflexivity.
  - lia.
Defined.

Lemma random_at_most_unbiased_witness : exists b s' v, 1 <= b /\ random_at_most 1 9 rng_boot = Some (s', v) /\ 0 <= v <= 9.
Proof.
  destruct (random_at_most_unbiased 9) as (b & Hb & Hd & H); [split; discriminate|].
  destruct (random_at_most 1 9 rng_boot) as [[s' v]|] eqn:E; [|vm_compute in E; discriminate E].
  exists b, s', v. split; [exact Hb|]. split; [reflexivity|]. apply H in E as (k & _ & _ & Hv & _). exact Hv.
Defined.
