(* ===== verification/Bytes.v ===== *)
(** * Bytes: arrays of bytes and the little-endian fields of C structs

    Disk blocks, user memory and kernel pages are arrays of bytes that the C
    code reads and writes through struct pointers.  A byte array is a [list Z];
    [rd n b off] and [wr n b off v] access the [n]-byte little-endian field at
    offset [off], as a cast to [ushort*], [uint*] or a struct pointer does on
    i386, and [memmove_in] is [memmove] into an array. *)
From stdpp Require Import base numbers list.
From Stdlib Require Import ZArith Lia.
From S2P Require Import Prelude.

Local Open Scope Z_scope.

(** The [n] bytes of [v], lowest first, and the value of a list of bytes. *)
Fixpoint le_bytes (n : nat) (v : Z) : list Z :=
  match n with
  | O => []
  | S n => v mod 256 :: le_bytes n (v / 256)
  end.

Fixpoint le_val (l : list Z) : Z :=
  match l with
  | [] => 0
  | b :: l => b + 256 * le_val l
  end.

Definition sub_bytes (b : list Z) (off n : nat) : list Z := take n (drop off b).

(** [memmove(b + off, src, length src)]. *)
Definition memmove_in (b : list Z) (off : nat) (src : list Z) : list Z := list_inserts off src b.

Definition rd (n : nat) (b : list Z) (off : nat) : Z := le_val (sub_bytes b off n).
Definition wr (n : nat) (b : list Z) (off : nat) (v : Z) : list Z := memmove_in b off (le_bytes n v).

Definition rd32 := rd 4.
Definition wr32 := wr 4.
Definition rd16 := rd 2.
Definition wr16 := wr 2.

(** [short] fields are read with their sign. *)
Definition i16 (x : Z) : Z := (x + 2 ^ 15) mod 2 ^ 16 - 2 ^ 15.

Definition byte_list (l : list Z) : Prop := Forall (fun x => 0 <= x < 256) l.

(** ** Encoding *)

Lemma le_bytes_length n v : length (le_bytes n v) = n.
Proof. revert v; induction n; simpl; auto. Qed.

Lemma le_bytes_byte n v : byte_list (le_bytes n v).
Proof.
  revert v. induction n as [|n IH]; intros v; simpl; constructor; [|apply IH].
  apply Z.mod_pos_bound. lia.
Qed.

Lemma le_val_bytes n v : le_val (le_bytes n v) = v mod 256 ^ Z.of_nat n.
Proof.
  revert v. induction n as [|n IH]; intros v; cbn [le_bytes le_val].
  - by rewrite Z.mod_1_r.
  - rewrite IH, Nat2Z.inj_succ, Z.pow_succ_r, Z.rem_mul_r by lia. lia.
Qed.

Lemma le_val_range l : byte_list l -> 0 <= le_val l < 256 ^ Z.of_nat (length l).
Proof.
  induction 1 as [|b l Hb Hl IH]; [simpl; lia|]. cbn [le_val length].
  rewrite Nat2Z.inj_succ, Z.pow_succ_r by lia. lia.
Qed.

Lemma le_bytes_val l : byte_list l -> le_bytes (length l) (le_val l) = l.
Proof.
  induction 1 as [|b l Hb Hl IH]; [done|]. cbn [le_val length le_bytes]. f_equal.
  - rewrite Z.mul_comm, Z_mod_plus_full. apply Z.mod_small. lia.
  - rewrite Z.mul_comm, Z.div_add by lia. rewrite Z.div_small by lia. by rewrite Z.add_0_l.
Qed.

(** ** Field accesses *)

Lemma memmove_in_length b off src : length (memmove_in b off src) = length b.
Proof. apply length_inserts. Qed.

Lemma wr_length n b off v : length (wr n b off v) = length b.
Proof. apply memmove_in_length. Qed.

Lemma sub_bytes_length b off n : (off + n <= length b)%nat -> length (sub_bytes b off n) = n.
Proof. intros. unfold sub_bytes. rewrite length_take, length_drop. lia. Qed.

Lemma sub_bytes_lookup b off n i :
  (i < n)%nat -> sub_bytes b off n !! i = b !! (off + i)%nat.
Proof. intros. unfold sub_bytes. rewrite lookup_take_lt by done. apply lookup_drop. Qed.

(** Reading back what was moved in. *)
Lemma sub_memmove_same b off src :
  (off + length src <= length b)%nat -> sub_bytes (memmove_in b off src) off (length src) = src.
Proof.
  intros H. apply (list_eq_same_length _ _ (length src)); [done|apply sub_bytes_length; by rewrite memmove_in_length|].
  intros i x y Hi Hx Hy. rewrite sub_bytes_lookup in Hx by done.
  unfold memmove_in in Hx. rewrite list_lookup_inserts in Hx by lia.
  replace (off + i - off)%nat with i in Hx by lia. congruence.
Qed.

(** Bytes outside the moved range are unchanged. *)
Lemma sub_memmove_other b off src off' n :
  (off' + n <= off \/ off + length src <= off')%nat ->
  sub_bytes (memmove_in b off src) off' n = sub_bytes b off' n.
Proof.
  intros H. apply list_eq. intros i. destruct (decide (i < n)%nat) as [Hi|Hi].
  - rewrite !sub_bytes_lookup by done. unfold memmove_in. destruct H.
    + by rewrite list_lookup_inserts_lt by lia.
    + by rewrite list_lookup_inserts_ge by lia.
  - unfold sub_bytes. by rewrite !lookup_take_ge by lia.
Qed.

Lemma rd_wr_same n b off v :
  (off + n <= length b)%nat -> rd n (wr n b off v) off = v mod 256 ^ Z.of_nat n.
Proof.
  intros H. unfold rd, wr. rewrite <- le_val_bytes. f_equal.
  rewrite <- (le_bytes_length n v) at 2. apply sub_memmove_same. by rewrite le_bytes_length.
Qed.

Lemma rd_wr_other n m b off off' v :
  (off' + m <= off \/ off + n <= off')%nat -> rd m (wr n b off v) off' = rd m b off'.
Proof.
  intros H. unfold rd, wr. f_equal. apply sub_memmove_other. by rewrite le_bytes_length.
Qed.

Lemma rd32_wr32_same b off v :
  (off + 4 <= length b)%nat -> is_u32 v -> rd32 (wr32 b off v) off = v.
Proof. intros H Hv. unfold rd32, wr32. rewrite rd_wr_same by done. by apply Z.mod_small. Qed.

Lemma rd32_wr32_other b off off' v :
  (off' + 4 <= off \/ off + 4 <= off')%nat -> rd32 (wr32 b off v) off' = rd32 b off'.
Proof. apply rd_wr_other. Qed.

Lemma byte_list_memmove b off src : byte_list b -> byte_list src -> byte_list (memmove_in b off src).
Proof.
  intros Hb Hs. unfold byte_list, memmove_in in *. apply Forall_lookup. intros i x Hx.
  destruct (decide (off <= i < off + length src)%nat) as [Hi|Hi].
  - destruct (decide (i < length b)%nat).
    + rewrite list_lookup_inserts in Hx by lia. by eapply Forall_lookup in Hs.
    + rewrite lookup_ge_None_2 in Hx by (rewrite length_inserts; lia). done.
  - destruct (decide (i < off)%nat).
    + rewrite list_lookup_inserts_lt in Hx by lia. by eapply Forall_lookup in Hb.
    + rewrite list_lookup_inserts_ge in Hx by lia. by eapply Forall_lookup in Hb.
Qed.

Lemma byte_list_wr n b off v : byte_list b -> byte_list (wr n b off v).
Proof. intros. apply byte_list_memmove; [done|apply le_bytes_byte]. Qed.

Lemma byte_list_sub b off n : byte_list b -> byte_list (sub_bytes b off n).
Proof. intros. unfold sub_bytes. by apply Forall_take, Forall_drop. Qed.

Lemma rd32_range b off : byte_list b -> is_u32 (rd32 b off).
Proof.
  intros H. unfold rd32, rd. pose proof (le_val_range _ (byte_list_sub b off 4 H)) as Hr.
  assert (length (sub_bytes b off 4) <= 4)%nat by (unfold sub_bytes; rewrite length_take; lia).
  assert (256 ^ Z.of_nat (length (sub_bytes b off 4)) <= 256 ^ 4) by (apply Z.pow_le_mono_r; lia).
  unfold is_u32. change (2 ^ 32) with (256 ^ 4). lia.
Qed.

Lemma memmove_in_full b src : length src = length b -> memmove_in b 0 src = src.
Proof.
  intros Hl. unfold memmove_in. apply list_eq. intros i. destruct (decide (i < length src)%nat) as [Hi|Hi].
  - rewrite list_lookup_inserts by lia. by rewrite Nat.sub_0_r.
  - rewrite !lookup_ge_None_2; [done|lia|rewrite length_inserts; lia].
Qed.

Lemma memmove_in_app b off s1 s2 :
  memmove_in (memmove_in b off s1) (off + length s1) s2 = memmove_in b off (s1 ++ s2).
Proof. unfold memmove_in. by rewrite list_inserts_app_l, Nat.add_comm. Qed.

Lemma memmove_in_prefix b rest off src :
  (off + length src <= length b)%nat -> memmove_in (b ++ rest) off src = memmove_in b off src ++ rest.
Proof.
  intros H. unfold memmove_in. apply list_eq. intros i.
  destruct (decide (i < length b)%nat) as [Hi|Hi].
  - rewrite lookup_app_l by (by rewrite length_inserts).
    destruct (decide (off <= i < off + length src)%nat).
    + rewrite !list_lookup_inserts; rewrite ?length_app; by try lia.
    + destruct (decide (i < off)%nat).
      * rewrite !list_lookup_inserts_lt by lia. by rewrite lookup_app_l.
      * rewrite !list_lookup_inserts_ge by lia. by rewrite lookup_app_l.
  - rewrite lookup_app_r by (rewrite length_inserts; lia). rewrite length_inserts.
    rewrite list_lookup_inserts_ge by lia. by rewrite lookup_app_r by lia.
Qed.

(** A write inside one of equally long chunks is a write to their concatenation. *)
Lemma memmove_in_concat k bs i b off src :
  Forall (fun b => length b = k) bs -> bs !! i = Some b -> (off + length src <= k)%nat ->
  concat (<[i := memmove_in b off src]> bs) = memmove_in (concat bs) (i * k + off) src.
Proof.
  intros Hk. revert i. induction Hk as [|c bs Hc Hk IH]; intros i Hi Ho; [done|].
  destruct i as [|i]; cbn in Hi.
  - injection Hi as ->. cbn. by rewrite memmove_in_prefix by lia.
  - cbn [insert list_insert concat Nat.mul]. rewrite IH by done. unfold memmove_in.
    rewrite <- Nat.add_assoc, <- Hc at 1. rewrite <- list_inserts_app_r. f_equal. lia.
Qed.
