(* ===== verification/Buf.v ===== *)
(** * Buf: buffers, the disk and the interface of the block driver

    [struct buf] of buf.h, the state shared by the buffer cache and the disk
    driver, and the contract of [iderw]: the typeclass [BlockDriver] says what
    bio.c relies on.  Module [Memide] models the in-memory driver memide.c and
    discharges the contract. *)
From stdpp Require Import base numbers list gmap strings.
From Stdlib Require Import ZArith Lia.
From S2P Require Import Prelude Bytes.

Local Open Scope Z_scope.

Definition BSIZE : nat := 512.
Definition NBUF : nat := 30.
Definition FSSIZE : Z := 1000.
Definition ROOTDEV : Z := 1.

Definition B_BUSY : Z := 0x1.
Definition B_VALID : Z := 0x2.
Definition B_DIRTY : Z := 0x4.

(** [prev], [next] and [qnext] point to entries of [bcache.buf]; the pointer
    [NBUF] is [&bcache.head]. *)
Record buf := mk_buf {
  flags : Z;
  dev : Z;
  blockno : Z;
  prev : nat;
  next : nat;
  qnext : option nat;
  data : list Z
}.

Definition set_flags (f : Z) (b : buf) : buf :=
  mk_buf f (dev b) (blockno b) (prev b) (next b) (qnext b) (data b).
Definition set_block (d n : Z) (b : buf) : buf :=
  mk_buf (flags b) d n (prev b) (next b) (qnext b) (data b).
Definition set_prev (p : nat) (b : buf) : buf :=
  mk_buf (flags b) (dev b) (blockno b) p (next b) (qnext b) (data b).
Definition set_next (p : nat) (b : buf) : buf :=
  mk_buf (flags b) (dev b) (blockno b) (prev b) p (qnext b) (data b).
Definition set_qnext (q : option nat) (b : buf) : buf :=
  mk_buf (flags b) (dev b) (blockno b) (prev b) (next b) q (data b).
Definition set_data (d : list Z) (b : buf) : buf :=
  mk_buf (flags b) (dev b) (blockno b) (prev b) (next b) (qnext b) d.

(** [b->flags & f] as a condition. *)
Definition has (f : Z) (b : buf) : bool := hasf f (flags b).

(** The disk is a map from block numbers to blocks; an absent block is zero.
    [trace] lists every block write the disk has performed, oldest first, so
    that a crash can be placed between any two of them. *)
Abbreviation block := (list Z).
Definition zero_block : block := replicate BSIZE 0.
Definition disk_read (d : gmap Z block) (n : Z) : block := default zero_block (d !! n).
Definition apply_writes (d : gmap Z block) (w : list (Z * block)) : gmap Z block :=
  foldl (fun d '(n, b) => <[n := b]> d) d w.

(** The state of the buffer cache and of the disk under it: [bufs] holds the
    entries of [bcache.buf] and, last, [bcache.head]. *)
Record bio_state := mk_bio {
  bufs : list buf;
  idequeue : option nat;
  dsk : gmap Z block;
  trace : list (Z * block);
  woken : list chan
}.

Definition upd_bufs (f : list buf -> list buf) (s : bio_state) : bio_state :=
  mk_bio (f (bufs s)) (idequeue s) (dsk s) (trace s) (woken s).
Definition set_idequeue (q : option nat) (s : bio_state) : bio_state :=
  mk_bio (bufs s) q (dsk s) (trace s) (woken s).
Definition disk_write (n : Z) (b : block) (s : bio_state) : bio_state :=
  mk_bio (bufs s) (idequeue s) (<[n := b]> (dsk s)) (trace s ++ [(n, b)]) (woken s).
Definition set_woken (w : list chan) (s : bio_state) : bio_state :=
  mk_bio (bufs s) (idequeue s) (dsk s) (trace s) w.
Definition add_woken (c : chan) (s : bio_state) : bio_state := set_woken (woken s ++ [c]) s.

(** Reading and updating one entry of the array. *)
Definition buf_at (i : nat) : M bio_state buf := let* bs := gets bufs in from_opt (bs !! i).
Definition upd_buf (i : nat) (f : buf -> buf) : M bio_state unit :=
  let* b := buf_at i in modify (upd_bufs <[i := f b]>).

Lemma buf_at_ret s i b : bufs s !! i = Some b -> buf_at i s = Ret s b.
Proof. intros H. unfold buf_at, bind, gets. by rewrite H. Qed.

Lemma upd_buf_ret s i f b :
  bufs s !! i = Some b -> upd_buf i f s = Ret (upd_bufs <[i := f b]> s) tt.
Proof. intros H. unfold upd_buf. by rewrite (bind_ret _ _ _ _ _ (buf_at_ret _ _ _ H)). Qed.

(** The effect of a finished transfer on the buffer: DIRTY cleared, VALID set. *)
Definition done_flags (f : Z) : Z := Z.lor (Z.land f (Z.lnot B_DIRTY)) B_VALID.

(** Flag tests on updated flag words. *)
Lemma busy_set x : hasf B_BUSY (Z.lor x B_BUSY) = true.
Proof. rewrite hasf_lor. apply orb_true_r. Qed.
Lemma valid_set x : hasf B_VALID (Z.lor x B_VALID) = true.
Proof. rewrite hasf_lor. apply orb_true_r. Qed.
Lemma dirty_set x : hasf B_DIRTY (Z.lor x B_DIRTY) = true.
Proof. rewrite hasf_lor. apply orb_true_r. Qed.
Lemma other_set f g x : hasf f g = false -> hasf f (Z.lor x g) = hasf f x.
Proof. intros H. by rewrite hasf_lor, H, orb_false_r. Qed.

Lemma busy_done x : hasf B_BUSY (done_flags x) = hasf B_BUSY x.
Proof. unfold done_flags. rewrite other_set by done. by apply hasf_clear_other. Qed.
Lemma valid_done x : hasf B_VALID (done_flags x) = true.
Proof. apply valid_set. Qed.
Lemma dirty_done x : hasf B_DIRTY (done_flags x) = false.
Proof. unfold done_flags. rewrite other_set by done. apply hasf_clear. Qed.

Create Rewrite HintDb flags.
#[export] Hint Rewrite busy_set valid_set dirty_set busy_done valid_done dirty_done : flags.
#[export] Hint Rewrite hasf_clear : flags.
#[export] Hint Rewrite other_set using done : flags.
#[export] Hint Rewrite hasf_clear_other using done : flags.

(** "(b->flags & (B_VALID|B_DIRTY)) == B_VALID": valid and not dirty. *)
Lemma valid_dirty_test x :
  (Z.land x (Z.lor B_VALID B_DIRTY) =? B_VALID) = hasf B_VALID x && negb (hasf B_DIRTY x).
Proof.
  rewrite Z.land_lor_distr_r. unfold hasf. rewrite !negb_involutive.
  assert (forall k, 0 <= k -> Z.land x (2 ^ k) = 0 \/ Z.land x (2 ^ k) = 2 ^ k) as H.
  { intros k Hk. destruct (Z.testbit x k) eqn:E; [right|left]; apply Z.bits_inj'; intros n Hn;
      rewrite Z.land_spec, Z.pow2_bits_eqb by done; destruct (Z.eqb_spec k n) as [->|];
      rewrite ?E, ?andb_false_r, ?Z.bits_0; done. }
  unfold B_VALID, B_DIRTY.
  destruct (H 1 ltac:(lia)) as [E1|E1], (H 2 ltac:(lia)) as [E2|E2];
    change (2 ^ 1) with 2 in E1; change (2 ^ 2) with 4 in E2; by rewrite E1, E2.
Qed.

(** ** The contract of the driver

    "Sync buf with disk.  If B_DIRTY is set, write buf to disk, clear B_DIRTY,
    set B_VALID.  Else if B_VALID is not set, read buf from disk, set
    B_VALID."  The contract is for a buffer of [ROOTDEV] with a block number
    on the disk. *)
Definition on_disk (n : Z) : Prop := 0 <= n < FSSIZE.

Class BlockDriver := {
  iderw : nat -> M bio_state unit;
  driver_ok : bio_state -> Prop;
  driver_ok_boot : forall bs d, driver_ok (mk_bio bs None d [] []);
  driver_ok_bufs : forall s f, driver_ok s -> driver_ok (upd_bufs f s);
  driver_ok_woken : forall s w, driver_ok s -> driver_ok (set_woken w s);
  iderw_write : forall s i b,
    driver_ok s -> bufs s !! i = Some b ->
    has B_BUSY b -> has B_DIRTY b -> dev b = ROOTDEV -> on_disk (blockno b) ->
    exists s' q, iderw i s = Ret s' tt /\ driver_ok s' /\
      bufs s' = <[i := set_qnext q (set_flags (done_flags (flags b)) b)]> (bufs s) /\
      dsk s' = <[blockno b := data b]> (dsk s) /\
      trace s' = trace s ++ [(blockno b, data b)];
  iderw_read : forall s i b,
    driver_ok s -> bufs s !! i = Some b ->
    has B_BUSY b -> has B_DIRTY b = false -> has B_VALID b = false ->
    dev b = ROOTDEV -> on_disk (blockno b) ->
    exists s' q, iderw i s = Ret s' tt /\ driver_ok s' /\
      bufs s' = <[i := set_qnext q (set_data (disk_read (dsk s) (blockno b))
                          (set_flags (done_flags (flags b)) b))]> (bufs s) /\
      dsk s' = dsk s /\ trace s' = trace s
}.

(** ** The in-memory driver (memide.c) *)
Module Memide.
Section memide.
(** The size of the linked file system image, in blocks. *)
Context (disksize : Z).

Definition iderw (i : nat) : M bio_state unit :=
  let* b := buf_at i in
  if negb (has B_BUSY b) then panic "iderw: buf not busy"
  else if Z.land (flags b) (Z.lor B_VALID B_DIRTY) =? B_VALID then panic "iderw: nothing to do"
  else if negb (dev b =? 1) then panic "iderw: request not for disk 1"
  else if disksize <=? blockno b then panic "iderw: block out of range"
  else
    (if has B_DIRTY b then
       upd_buf i (fun b => set_flags (Z.land (flags b) (Z.lnot B_DIRTY)) b) ;;;
       modify (disk_write (blockno b) (data b))
     else
       let* d := gets dsk in
       upd_buf i (set_data (disk_read d (blockno b)))) ;;;
    upd_buf i (fun b => set_flags (Z.lor (flags b) B_VALID) b).

Lemma iderw_write_ok s i b :
  FSSIZE <= disksize -> bufs s !! i = Some b ->
  has B_BUSY b -> has B_DIRTY b -> dev b = ROOTDEV -> on_disk (blockno b) ->
  exists s' q, iderw i s = Ret s' tt /\ True /\
    bufs s' = <[i := set_qnext q (set_flags (done_flags (flags b)) b)]> (bufs s) /\
    dsk s' = <[blockno b := data b]> (dsk s) /\
    trace s' = trace s ++ [(blockno b, data b)].
Proof.
  intros Hsz Hb Hbusy Hdirty Hdev Hn. unfold iderw.
  pose proof (lookup_lt_Some _ _ _ Hb) as Hlt.
  rewrite (bind_ret _ _ _ _ _ (buf_at_ret _ _ _ Hb)). rewrite valid_dirty_test. fold (has B_DIRTY b).
  rewrite (Is_true_true_1 _ Hbusy), (Is_true_true_1 _ Hdirty), Hdev, andb_false_r. cbn.
  rewrite (proj2 (Z.leb_gt _ _)) by (unfold on_disk in *; lia). cbn.
  unfold bind. rewrite (upd_buf_ret _ _ _ _ Hb). cbn.
  erewrite upd_buf_ret by (by apply list_lookup_insert_eq).
  eexists _, (qnext b). split; [done|]. split; [done|]. split; [|done]. cbn.
  by rewrite list_insert_insert_eq.
Qed.

Lemma iderw_read_ok s i b :
  FSSIZE <= disksize -> bufs s !! i = Some b ->
  has B_BUSY b -> has B_DIRTY b = false -> has B_VALID b = false ->
  dev b = ROOTDEV -> on_disk (blockno b) ->
  exists s' q, iderw i s = Ret s' tt /\ True /\
    bufs s' = <[i := set_qnext q (set_data (disk_read (dsk s) (blockno b))
                        (set_flags (done_flags (flags b)) b))]> (bufs s) /\
    dsk s' = dsk s /\ trace s' = trace s.
Proof.
  intros Hsz Hb Hbusy Hdirty Hvalid Hdev Hn. unfold iderw.
  pose proof (lookup_lt_Some _ _ _ Hb) as Hlt.
  rewrite (bind_ret _ _ _ _ _ (buf_at_ret _ _ _ Hb)). rewrite valid_dirty_test. fold (has B_VALID b).
  rewrite (Is_true_true_1 _ Hbusy), Hdirty, Hvalid, Hdev. cbn.
  rewrite (proj2 (Z.leb_gt _ _)) by (unfold on_disk in *; lia). cbn.
  unfold bind, gets. rewrite (upd_buf_ret _ _ _ _ Hb). cbn.
  erewrite upd_buf_ret by (by apply list_lookup_insert_eq).
  eexists _, (qnext b). split; [done|]. split; [done|]. split; [|done]. cbn.
  rewrite list_insert_insert_eq. f_equal.
  unfold set_flags, set_data, set_qnext, done_flags. cbn. by rewrite hasf_clear_id by done.
Qed.

Definition driver (Hsz : FSSIZE <= disksize) : BlockDriver := {|
  Buf.iderw := iderw;
  driver_ok := fun _ => True;
  driver_ok_boot := fun _ _ => I;
  driver_ok_bufs := fun _ _ H => H;
  driver_ok_woken := fun _ _ H => H;
  iderw_write := fun s i b _ => iderw_write_ok s i b Hsz;
  iderw_read := fun s i b _ => iderw_read_ok s i b Hsz
|}.
End memide.
End Memide.

(** The driver with an image of the size mkfs makes. *)
Definition mem_driver : BlockDriver := Memide.driver FSSIZE (Z.le_refl _).
