(* ===== verification/Bio.v ===== *)
(** * Bio: the buffer cache of bio.c

    [binit], [bget], [bread], [bwrite] and [brelse] over the array of buffers
    and its doubly linked MRU list, exactly as the pointers are updated.  The
    invariant [bio_inv] relates the cache to the disk, to the buffers clients
    hold and to the blocks pinned by the log; the laws of [bread], [bwrite] and
    [brelse] say that clients see one consistent copy of every block. *)
From stdpp Require Import base numbers list gmap strings sorting.
From Stdlib Require Import ZArith Lia.
From S2P Require Import Prelude Bytes Buf.

Local Open Scope Z_scope.

Definition HEAD : nat := NBUF.

(** [binit()] on an array of [NBUF] buffers followed by [bcache.head]. *)
Definition binit_link (i : nat) (bs : list buf) : list buf :=
  let hn := default HEAD (next <$> bs !! HEAD) in
  let bs := alter (fun b => set_block (2 ^ 32 - 1) (blockno b) (set_prev HEAD (set_next hn b))) i bs in
  let bs := alter (set_prev i) hn bs in
  alter (set_next i) HEAD bs.

Definition binit (s : bio_state) : bio_state :=
  upd_bufs (fun bs =>
    for_range 0 NBUF binit_link (alter (fun b => set_next HEAD (set_prev HEAD b)) HEAD bs)) s.

(** Following [step] from [p] up to [&bcache.head], looking for a buffer that
    passes [test].  [None]: a dangling pointer, or more than [fuel] nodes. *)
Fixpoint walk (fuel : nat) (bs : list buf) (step : buf -> nat) (test : buf -> bool) (p : nat)
  : option (option nat) :=
  match fuel with
  | O => None
  | S fuel =>
      if decide (p = HEAD) then Some None
      else match bs !! p with
           | None => None
           | Some b => if test b then Some (Some p) else walk fuel bs step test (step b)
           end
  end.

Definition is_block (d n : Z) (b : buf) : bool := (dev b =? d) && (blockno b =? n).
Definition recyclable (b : buf) : bool := negb (has B_BUSY b) && negb (has B_DIRTY b).

Section bio.
Context `{BlockDriver}.

Definition bget (d n : Z) : M bio_state nat :=
  let* bs := gets bufs in
  let* h := buf_at HEAD in
  (* Is the block already cached? *)
  let* r := from_opt (walk (S NBUF) bs next (is_block d n) (next h)) in
  match r with
  | Some i =>
      let* b := buf_at i in
      if negb (has B_BUSY b) then
        upd_buf i (fun b => set_flags (Z.lor (flags b) B_BUSY) b) ;;; ret i
      else sleep_on (ChBuf i)
  | None =>
      (* Not cached; recycle some non-busy and clean buffer. *)
      let* r := from_opt (walk (S NBUF) bs prev recyclable (prev h)) in
      match r with
      | Some i =>
          upd_buf i (fun b => set_flags B_BUSY (set_block d n b)) ;;; ret i
      | None => panic "bget: no buffers"
      end
  end.

Definition bread (d n : Z) : M bio_state nat :=
  let* i := bget d n in
  let* b := buf_at i in
  whenM (negb (has B_VALID b)) (iderw i) ;;;
  ret i.

Definition bwrite (i : nat) : M bio_state unit :=
  let* b := buf_at i in
  if negb (has B_BUSY b) then panic "bwrite"
  else
    upd_buf i (fun b => set_flags (Z.lor (flags b) B_DIRTY) b) ;;;
    iderw i.

(** The six pointer assignments of [brelse]. *)
Definition move_to_front (i : nat) : M bio_state unit :=
  let* b := buf_at i in
  upd_buf (next b) (set_prev (prev b)) ;;;
  let* b := buf_at i in
  upd_buf (prev b) (set_next (next b)) ;;;
  let* h := buf_at HEAD in
  upd_buf i (set_next (next h)) ;;;
  upd_buf i (set_prev HEAD) ;;;
  let* h := buf_at HEAD in
  upd_buf (next h) (set_prev i) ;;;
  upd_buf HEAD (set_next i).

Definition brelse (i : nat) : M bio_state unit :=
  let* b := buf_at i in
  if negb (has B_BUSY b) then panic "brelse"
  else
    move_to_front i ;;;
    upd_buf i (fun b => set_flags (Z.land (flags b) (Z.lnot B_BUSY)) b) ;;;
    modify (add_woken (ChBuf i)).

(** A client reads or overwrites [b->data] of a buffer it holds. *)
Definition buf_data (i : nat) : M bio_state block := let* b := buf_at i in ret (data b).
Definition buf_store (i : nat) (d : block) : M bio_state unit := upd_buf i (set_data d).

End bio.

(** ** The doubly linked list

    [linked nx pv x l y]: following [nx] from [x] visits [l] and then [y], and
    [pv] goes back the same way. *)
Definition edge (nx pv : list nat) (x y : nat) : Prop := nx !! x = Some y /\ pv !! y = Some x.

Fixpoint linked (nx pv : list nat) (x : nat) (l : list nat) (y : nat) : Prop :=
  match l with
  | [] => edge nx pv x y
  | z :: l => edge nx pv x z /\ linked nx pv z l y
  end.

Definition first_of (l : list nat) (y : nat) : nat := default y (head l).
Definition last_of (x : nat) (l : list nat) : nat := default x (last l).

Lemma last_of_cons x z l : last_of x (z :: l) = last_of z l.
Proof. unfold last_of. rewrite last_cons. by destruct (last l). Qed.

Lemma last_of_elem x l : last_of x l ∈ x :: l.
Proof.
  revert x. induction l as [|z l IH]; intros x; [left|]. rewrite last_of_cons. right. apply IH.
Qed.

Lemma first_of_elem l y : first_of l y ∈ y :: l.
Proof. destruct l; [left|right; left]. Qed.

Lemma linked_app nx pv x l1 z l2 y :
  linked nx pv x (l1 ++ z :: l2) y <-> linked nx pv x l1 z /\ linked nx pv z l2 y.
Proof. revert x. induction l1 as [|w l1 IH]; intros x; simpl; [done|]. rewrite IH. tauto. Qed.

Lemma linked_frame nx pv nx' pv' x l y :
  linked nx pv x l y ->
  (forall z, z ∈ x :: l -> nx' !! z = nx !! z) ->
  (forall z, z ∈ y :: l -> pv' !! z = pv !! z) ->
  linked nx' pv' x l y.
Proof.
  revert x. induction l as [|w l IH]; intros x Hl Hn Hp; simpl in *.
  - destruct Hl as [E1 E2]. split; [rewrite Hn|rewrite Hp]; auto; left.
  - destruct Hl as [[E1 E2] Hl]. split.
    + split; [rewrite Hn by left; done|rewrite Hp by (right; left); done].
    + apply IH; [done| |]; intros z Hz.
      * apply Hn. by right.
      * apply Hp. apply elem_of_cons in Hz as [->|?]; [left|right; by right].
Qed.

Lemma linked_ends nx pv x l y :
  linked nx pv x l y -> nx !! x = Some (first_of l y) /\ pv !! y = Some (last_of x l).
Proof.
  revert x. induction l as [|z l IH]; intros x; simpl; [done|].
  intros [[E1 E2] Hl]. split; [done|]. rewrite last_of_cons. by apply IH.
Qed.

Lemma linked_rev nx pv x l y : linked nx pv x l y -> linked pv nx y (reverse l) x.
Proof.
  revert x. induction l as [|z l IH]; intros x; simpl.
  - unfold edge. naive_solver.
  - intros [[E1 E2] Hl]. rewrite reverse_cons. apply linked_app. split; [by apply IH|].
    simpl. done.
Qed.

(** Splicing a node out: [b->next->prev = b->prev; b->prev->next = b->next]. *)
Lemma linked_unlink nx pv x l1 i l2 y :
  linked nx pv x l1 i -> linked nx pv i l2 y ->
  NoDup (x :: l1 ++ l2) -> y ∉ l1 ++ l2 -> i ∉ x :: l1 ++ l2 ->
  linked (<[last_of x l1 := first_of l2 y]> nx) (<[first_of l2 y := last_of x l1]> pv)
    x (l1 ++ l2) y.
Proof.
  revert x. induction l1 as [|z l1 IH]; intros x H1 H2 Hnd Hy Hi.
  - change (last_of x []) with x. simpl in *. destruct H1 as [E1 E2].
    pose proof (lookup_lt_Some _ _ _ E1).
    destruct l2 as [|z l2]; simpl in *.
    + change (first_of [] y) with y. destruct H2 as [E3 E4]. pose proof (lookup_lt_Some _ _ _ E4).
      split; by rewrite list_lookup_insert_eq.
    + change (first_of (z :: l2) y) with z. destruct H2 as [[E3 E4] Hl].
      pose proof (lookup_lt_Some _ _ _ E4).
      split; [split; by rewrite list_lookup_insert_eq|].
      apply NoDup_cons in Hnd as [Hx Hnd]. apply NoDup_cons in Hnd as [Hz Hnd].
      apply (linked_frame _ _ _ _ _ _ _ Hl); intros w Hw; rewrite list_lookup_insert_ne; set_solver.
  - rewrite last_of_cons. simpl in *. destruct H1 as [[E1 E2] Hl].
    apply NoDup_cons in Hnd as [Hx Hnd].
    pose proof (last_of_elem z l1). pose proof (first_of_elem l2 y).
    split.
    + split; rewrite list_lookup_insert_ne; try done.
      * set_solver.
      * apply NoDup_cons in Hnd as [Hz _]. set_solver.
    + apply IH; auto; set_solver.
Qed.

(** Inserting a node right after the head. *)
Lemma linked_push nx pv h l i :
  linked nx pv h l h -> NoDup (h :: l) -> i ∉ h :: l -> (i < length nx)%nat -> (i < length pv)%nat ->
  linked (<[h := i]> (<[i := first_of l h]> nx)) (<[first_of l h := i]> (<[i := h]> pv)) h (i :: l) h.
Proof.
  intros Hl Hnd Hi Hlx Hlp. pose proof (linked_ends _ _ _ _ _ Hl) as [E1 E2].
  pose proof (lookup_lt_Some _ _ _ E1). pose proof (first_of_elem l h) as Hq.
  assert (i ≠ h) by set_solver. assert (first_of l h ≠ i) by set_solver.
  apply NoDup_cons in Hnd as [Hh Hnd].
  assert (first_of l h < length pv)%nat as Hqlt.
  { destruct l; simpl in *; [|destruct Hl as [[_ E] _]; by eapply lookup_lt_Some].
    by eapply lookup_lt_Some. }
  split.
  { split.
    - rewrite list_lookup_insert_eq; [done|]. by rewrite length_insert.
    - rewrite list_lookup_insert_ne by done. by rewrite list_lookup_insert_eq. }
  assert (<[h:=i]> (<[i:=first_of l h]> nx) !! i = Some (first_of l h)) as F1.
  { rewrite list_lookup_insert_ne by done. by rewrite list_lookup_insert_eq. }
  assert (<[first_of l h:=i]> (<[i:=h]> pv) !! first_of l h = Some i) as F2.
  { rewrite list_lookup_insert_eq; [done|]. by rewrite length_insert. }
  destruct l as [|z l]; [by split|]. change (first_of (z :: l) h) with z in *.
  simpl. split; [by split|]. destruct Hl as [_ Hl].
  apply (linked_frame _ _ _ _ _ _ _ Hl); intros w Hw.
  - rewrite !list_lookup_insert_ne; set_solver.
  - apply NoDup_cons in Hnd as [Hz Hnd]. rewrite !list_lookup_insert_ne; set_solver.
Qed.

(** ** Walking the list *)

Lemma walk_spec bs (step : buf -> nat) test (nx pv : list nat) x l fuel :
  nx = step <$> bs ->
  linked nx pv x l HEAD -> HEAD ∉ l -> (length l < fuel)%nat ->
  (exists l1 i l2 b, walk fuel bs step test (first_of l HEAD) = Some (Some i) /\
     l = l1 ++ i :: l2 /\ bs !! i = Some b /\ test b /\
     (forall j c, j ∈ l1 -> bs !! j = Some c -> test c = false)) \/
  (walk fuel bs step test (first_of l HEAD) = Some None /\
   forall j c, j ∈ l -> bs !! j = Some c -> test c = false).
Proof.
  intros ->. revert x fuel. induction l as [|z l IH]; intros x [|fuel] Hl Hh Hf; cbn [length walk linked] in *; try lia.
  - right. split; [done|]. intros j c Hj. by apply elem_of_nil in Hj.
  - change (first_of (z :: l) HEAD) with z. rewrite decide_False by set_solver. destruct Hl as [_ Hl].
    pose proof (linked_ends _ _ _ _ _ Hl) as [E _]. rewrite list_lookup_fmap in E.
    destruct (bs !! z) as [b|] eqn:Hb; [|done]. simpl in E. injection E as E. rewrite E.
    destruct (test b) eqn:Ht.
    + left. exists [], z, l, b. rewrite Ht. split_and!; auto. intros j c Hj. by apply elem_of_nil in Hj.
    + destruct (IH z fuel Hl ltac:(set_solver) ltac:(lia)) as [(l1 & i & l2 & c & Hw & -> & Hc & Htc & Hne)|[Hw Hne]].
      * left. exists (z :: l1), i, l2, c. split_and!; auto.
        intros j d Hj Hd. apply elem_of_cons in Hj as [->|Hj]; [congruence|eauto].
      * right. split; [done|]. intros j d Hj Hd. apply elem_of_cons in Hj as [->|Hj]; [congruence|eauto].
Qed.

(** ** The invariant of the cache

    [held] maps each block some client holds to its buffer, [pinned] is the set
    of dirty blocks.  Every block has at most one buffer, every used buffer is
    valid, and a clean buffer nobody holds agrees with the disk. *)
Definition is_order (bs : list buf) (order : list nat) : Prop :=
  linked (next <$> bs) (prev <$> bs) HEAD order HEAD /\ order ≡ₚ seq 0 NBUF.

Definition entry (s : bio_state) (i : nat) (b : buf) : Prop := (i < NBUF)%nat /\ bufs s !! i = Some b.

(** The entry [i] caches block [n] of [ROOTDEV]. *)
Definition caches (s : bio_state) (i : nat) (n : Z) (b : buf) : Prop :=
  entry s i b /\ dev b = ROOTDEV /\ blockno b = n.

Section inv.
Context `{BlockDriver}.

Record bio_inv (s : bio_state) (held : gmap Z nat) (pinned : gset Z) : Prop := {
  inv_driver : driver_ok s;
  inv_len : length (bufs s) = S NBUF;
  inv_order : exists order, is_order (bufs s) order;
  inv_uniq : forall i j n b c, caches s i n b -> caches s j n c -> i = j;
  inv_valid : forall i n b, caches s i n b -> has B_VALID b;
  inv_range : forall i n b, caches s i n b -> on_disk n;
  inv_size : forall i n b, caches s i n b -> length (data b) = BSIZE;
  inv_busy : forall i n b, caches s i n b -> has B_BUSY b <-> held !! n = Some i;
  inv_dirty : forall i n b, caches s i n b -> has B_DIRTY b <-> n ∈ pinned;
  inv_clean : forall i n b, caches s i n b -> n ∉ pinned -> held !! n = None ->
    data b = disk_read (dsk s) n;
  inv_unused : forall i b, entry s i b -> dev b ≠ ROOTDEV -> flags b = 0;
  inv_held : forall n i, held !! n = Some i -> exists b, caches s i n b;
  inv_pinned : forall n, n ∈ pinned -> exists i b, caches s i n b;
  inv_disk : forall n, length (disk_read (dsk s) n) = BSIZE
}.
End inv.

(** The contents of block [n] as clients see it: the cached copy if there is
    one, the disk otherwise. *)
Definition cached (s : bio_state) (n : Z) : option (nat * buf) :=
  list_find (fun b => dev b = ROOTDEV /\ blockno b = n) (take NBUF (bufs s)).
Definition blk (s : bio_state) (n : Z) : block :=
  match cached s n with Some (_, b) => data b | None => disk_read (dsk s) n end.

Lemma cached_Some s i n b : cached s n = Some (i, b) -> caches s i n b.
Proof.
  unfold cached. intros (Hl & [Hd Hn] & _)%list_find_Some.
  assert (i < NBUF)%nat as Hi.
  { apply lookup_lt_Some in Hl. rewrite length_take in Hl. lia. }
  rewrite lookup_take_lt in Hl by done. by split.
Qed.

Lemma cached_None s n : cached s n = None <-> forall i b, ~ caches s i n b.
Proof.
  unfold cached. rewrite list_find_None, Forall_lookup. split.
  - intros H i b [[Hi Hb] [Hd Hn]]. apply (H i b); [|done]. by rewrite lookup_take_lt.
  - intros H i b Hb [Hd Hn].
    assert (i < NBUF)%nat as Hi.
    { apply lookup_lt_Some in Hb. rewrite length_take in Hb. lia. }
    rewrite lookup_take_lt in Hb by done. by apply (H i b).
Qed.

Section laws.
Context `{BlockDriver}.
Implicit Types (s : bio_state) (held : gmap Z nat) (pinned : gset Z).

Lemma blk_caches s held pinned i n b :
  bio_inv s held pinned -> caches s i n b -> blk s n = data b.
Proof.
  intros Hinv Hc. unfold blk. destruct (cached s n) as [[j c]|] eqn:E.
  - apply cached_Some in E. pose proof (inv_uniq _ _ _ Hinv _ _ _ _ _ E Hc) as ->.
    destruct E as [[_ E] _], Hc as [[_ Hc] _]. congruence.
  - exfalso. by eapply (proj1 (cached_None s n) E).
Qed.

Lemma blk_uncached s n : (forall i b, ~ caches s i n b) -> blk s n = disk_read (dsk s) n.
Proof. intros Hn. unfold blk. apply cached_None in Hn. by rewrite Hn. Qed.

Lemma blk_length s held pinned n : bio_inv s held pinned -> length (blk s n) = BSIZE.
Proof.
  intros Hinv. unfold blk. destruct (cached s n) as [[i b]|] eqn:E.
  - apply cached_Some in E. by eapply inv_size.
  - by eapply inv_disk.
Qed.

(** *** Preservation of the invariant

    Updating the links only. *)
Definition payload (b : buf) := (flags b, dev b, blockno b, data b).

Lemma payload_caches s s' i n b :
  payload <$> bufs s' = payload <$> bufs s -> caches s' i n b ->
  exists c, caches s i n c /\ payload c = payload b.
Proof.
  intros Hp [[Hi Hb] [Hd Hn]].
  assert (payload <$> bufs s !! i = Some (payload b)) as E.
  { by rewrite <- list_lookup_fmap, <- Hp, list_lookup_fmap, Hb. }
  destruct (bufs s !! i) as [c|] eqn:Hc; [|done]. simpl in E. injection E as E1 E2 E3 E4.
  exists c. unfold payload. split; [|congruence]. repeat split; congruence.
Qed.

Lemma inv_links s s' held pinned :
  bio_inv s held pinned -> payload <$> bufs s' = payload <$> bufs s -> dsk s' = dsk s ->
  driver_ok s' -> (exists order, is_order (bufs s') order) ->
  bio_inv s' held pinned /\ forall m, blk s' m = blk s m.
Proof.
  intros Hinv Hp Hd Hdrv Hord.
  assert (forall i n b, caches s' i n b -> exists c, caches s i n c /\ payload c = payload b) as Hfwd
    by (intros; by eapply payload_caches).
  assert (forall i n b, caches s i n b -> exists c, caches s' i n c /\ payload c = payload b) as Hbwd
    by (intros; by eapply payload_caches).
  assert (bio_inv s' held pinned) as Hinv'.
  { split; try done.
    - apply (f_equal length) in Hp. rewrite !length_fmap in Hp. rewrite Hp. by eapply inv_len.
    - intros i j n b c (b' & Hb & _)%Hfwd (c' & Hc & _)%Hfwd. by eapply inv_uniq.
    - intros i n b (c & Hc & [= E _ _ _])%Hfwd. unfold has. rewrite <- E. by eapply inv_valid.
    - intros i n b (c & Hc & _)%Hfwd. by eapply inv_range.
    - intros i n b (c & Hc & [= _ _ _ E])%Hfwd. rewrite <- E. by eapply inv_size.
    - intros i n b (c & Hc & [= E _ _ _])%Hfwd. unfold has. rewrite <- E. by eapply inv_busy.
    - intros i n b (c & Hc & [= E _ _ _])%Hfwd. unfold has. rewrite <- E. by eapply inv_dirty.
    - intros i n b (c & Hc & [= _ _ _ E])%Hfwd. rewrite <- E, Hd. by eapply inv_clean.
    - intros i b [Hi Hb] Hdev.
      assert (payload <$> bufs s !! i = Some (payload b)) as E.
      { by rewrite <- list_lookup_fmap, <- Hp, list_lookup_fmap, Hb. }
      destruct (bufs s !! i) as [c|] eqn:Hc; [|done]. simpl in E. injection E as E1 E2 E3 E4.
      rewrite <- E1. eapply inv_unused; [done|by split|congruence].
    - intros n i Hh. destruct (inv_held _ _ _ Hinv n i Hh) as (b & (c & Hc & _)%Hbwd). eauto.
    - intros n Hn. destruct (inv_pinned _ _ _ Hinv n Hn) as (i & b & (c & Hc & _)%Hbwd). eauto.
    - rewrite Hd. by eapply inv_disk. }
  split; [done|]. intros m. destruct (cached s m) as [[i b]|] eqn:E.
  - apply cached_Some in E. destruct (Hbwd _ _ _ E) as (c & Hc & [= _ _ _ E4]).
    by rewrite (blk_caches _ _ _ _ _ _ Hinv E), (blk_caches _ _ _ _ _ _ Hinv' Hc).
  - assert (forall i b, ~ caches s i m b) as Hn by (by apply cached_None).
    rewrite (blk_uncached s) by done. rewrite blk_uncached; [by rewrite Hd|].
    intros i b (c & Hc & _)%Hfwd. by eapply Hn.
Qed.

(** Updating one entry in place. *)
Lemma caches_insert s s' i b' j m c :
  bufs s' = <[i := b']> (bufs s) -> (i < length (bufs s))%nat ->
  caches s' j m c <->
  (j = i /\ c = b' /\ (i < NBUF)%nat /\ dev b' = ROOTDEV /\ blockno b' = m) \/
  (j <> i /\ caches s j m c).
Proof.
  intros Hb Hlt. unfold caches, entry. rewrite Hb. destruct (decide (i = j)) as [<-|Hne].
  - rewrite list_lookup_insert_eq by done. naive_solver.
  - rewrite list_lookup_insert_ne by done. naive_solver.
Qed.

Lemma order_insert bs i b b' order :
  bs !! i = Some b -> next b' = next b -> prev b' = prev b ->
  is_order bs order -> is_order (<[i := b']> bs) order.
Proof.
  intros Hb Hn Hp [Hl Ho]. split; [|done]. rewrite !list_fmap_insert, Hn, Hp.
  rewrite !list_insert_id; [done| |]; by rewrite list_lookup_fmap, Hb.
Qed.

Lemma inv_upd s s' held pinned held' pinned' i n b b' :
  bio_inv s held pinned -> caches s i n b ->
  bufs s' = <[i := b']> (bufs s) -> next b' = next b -> prev b' = prev b ->
  dev b' = dev b -> blockno b' = blockno b -> driver_ok s' ->
  (forall m, m <> n -> held' !! m = held !! m) ->
  (forall m, m <> n -> m ∈ pinned' <-> m ∈ pinned) ->
  (forall m, m <> n -> disk_read (dsk s') m = disk_read (dsk s) m) ->
  length (disk_read (dsk s') n) = BSIZE ->
  has B_VALID b' -> length (data b') = BSIZE ->
  (has B_BUSY b' <-> held' !! n = Some i) -> (held' !! n = None \/ held' !! n = Some i) ->
  (has B_DIRTY b' <-> n ∈ pinned') ->
  (n ∉ pinned' -> held' !! n = None -> data b' = disk_read (dsk s') n) ->
  bio_inv s' held' pinned' /\ blk s' n = data b' /\ forall m, m <> n -> blk s' m = blk s m.
Proof.
  intros Hinv Hc Hb Hnx Hpv Hdev Hbn Hdrv Hheld Hpin Hdsk Hlen Hv Hsz Hbusy Hh Hdirty Hclean.
  pose proof Hc as [[Hi Hbi] [Hd Hn]].
  assert (i < length (bufs s))%nat as Hlt by (by eapply lookup_lt_Some).
  pose proof (fun j m c => caches_insert s s' i b' j m c Hb Hlt) as Hcs.
  assert (caches s' i n b') as Hc' by (apply Hcs; left; split_and!; congruence).
  assert (forall j m c, caches s' j m c -> j <> i -> m <> n) as Hne.
  { intros j m c [(-> & _)|[Hji Hcj]]%Hcs Hj ->; [done|].
    by pose proof (inv_uniq _ _ _ Hinv _ _ _ _ _ Hcj Hc). }
  assert (bio_inv s' held' pinned') as Hinv'.
  { split; try done.
    - rewrite Hb, length_insert. by eapply inv_len.
    - destruct (inv_order _ _ _ Hinv) as [order Ho]. exists order. rewrite Hb. by eapply order_insert.
    - intros j k m c d Hj Hk. destruct (decide (j = i)) as [->|Hji], (decide (k = i)) as [->|Hki]; [done| | |].
      + pose proof (Hne _ _ _ Hk Hki). apply Hcs in Hj as [(_ & -> & _ & _ & Hm)|[? _]]; congruence.
      + pose proof (Hne _ _ _ Hj Hji). apply Hcs in Hk as [(_ & -> & _ & _ & Hm)|[? _]]; congruence.
      + apply Hcs in Hj as [[? _]|[_ Hj]]; [done|]. apply Hcs in Hk as [[? _]|[_ Hk]]; [done|].
        by eapply inv_uniq.
    - intros j m c [(-> & -> & _)|[Hji Hj]]%Hcs; [done|by eapply inv_valid].
    - intros j m c [(-> & -> & _ & _ & <-)|[Hji Hj]]%Hcs; [rewrite Hbn, Hn|]; by eapply inv_range.
    - intros j m c [(-> & -> & _)|[Hji Hj]]%Hcs; [done|by eapply inv_size].
    - intros j m c [(-> & -> & _ & _ & <-)|[Hji Hj]]%Hcs; [by rewrite Hbn, Hn|].
      rewrite Hheld by (eapply (Hne j m c); [apply Hcs; by right|done]). by eapply inv_busy.
    - intros j m c [(-> & -> & _ & _ & <-)|[Hji Hj]]%Hcs; [by rewrite Hbn, Hn|].
      rewrite Hpin by (eapply (Hne j m c); [apply Hcs; by right|done]). by eapply inv_dirty.
    - intros j m c [(-> & -> & _ & _ & <-)|[Hji Hj]]%Hcs; [rewrite Hbn, Hn; auto|].
      assert (m <> n) by (eapply (Hne j m c); [apply Hcs; by right|done]).
      rewrite Hheld, Hpin, Hdsk by done. by eapply inv_clean.
    - intros j c [Hj Hbj] Hdj. rewrite Hb in Hbj. destruct (decide (i = j)) as [<-|Hji].
      + rewrite list_lookup_insert_eq in Hbj by done. congruence.
      + rewrite list_lookup_insert_ne in Hbj by done. eapply inv_unused; [done|by split|done].
    - intros m j Hm. destruct (decide (m = n)) as [->|Hmn].
      + destruct Hh as [Hh|Hh]; [congruence|]. rewrite Hh in Hm. injection Hm as <-. eauto.
      + rewrite Hheld in Hm by done. destruct (inv_held _ _ _ Hinv m j Hm) as (c & Hj).
        exists c. apply Hcs. right. split; [|done]. intros ->.
        destruct Hj as [[_ Hj] [_ Hjn]]. congruence.
    - intros m Hm. destruct (decide (m = n)) as [->|Hmn]; [eauto|].
      rewrite Hpin in Hm by done. destruct (inv_pinned _ _ _ Hinv m Hm) as (j & c & Hj).
      exists j, c. apply Hcs. right. split; [|done]. intros ->.
      destruct Hj as [[_ Hj] [_ Hjn]]. congruence.
    - intros m. destruct (decide (m = n)) as [->|Hmn]; [done|]. rewrite Hdsk by done. by eapply inv_disk. }
  split_and!; [done|by eapply blk_caches|]. intros m Hm.
  destruct (cached s m) as [[j c]|] eqn:E.
  - apply cached_Some in E. assert (j <> i) as Hji.
    { intros ->. destruct E as [[_ E] [_ En]]. congruence. }
    rewrite (blk_caches _ _ _ _ _ _ Hinv E). eapply blk_caches; [done|]. apply Hcs. by right.
  - assert (forall j c, ~ caches s j m c) as Hno by (by apply cached_None).
    rewrite (blk_uncached s) by done. rewrite blk_uncached; [by apply Hdsk|].
    intros j c [(-> & -> & _ & _ & Hbm)|[_ Hj]]%Hcs; [congruence|by eapply Hno].
Qed.

(** Recycling an entry for an uncached block. *)
Lemma inv_recycle s s' held pinned i n b b' :
  bio_inv s held pinned -> entry s i b -> recyclable b ->
  (forall j c, ~ caches s j n c) -> on_disk n ->
  bufs s' = <[i := b']> (bufs s) -> next b' = next b -> prev b' = prev b ->
  dev b' = ROOTDEV -> blockno b' = n -> driver_ok s' -> dsk s' = dsk s ->
  has B_VALID b' -> has B_BUSY b' -> has B_DIRTY b' = false ->
  data b' = disk_read (dsk s) n ->
  bio_inv s' (<[n := i]> held) pinned /\ forall m, blk s' m = blk s m.
Proof.
  intros Hinv [Hi Hbi] Hrec Hno Hnd Hb Hnx Hpv Hdev Hbn Hdrv Hdsk Hv Hbusy Hdirty Hdata.
  assert (i < length (bufs s))%nat as Hlt by (by eapply lookup_lt_Some).
  pose proof (fun j m c => caches_insert s s' i b' j m c Hb Hlt) as Hcs.
  apply andb_True in Hrec as [Hnb%negb_True Hndirty%negb_True].
  assert (held !! n = None) as Hhn.
  { destruct (held !! n) as [j|] eqn:E; [|done].
    destruct (inv_held _ _ _ Hinv n j E) as (c & Hc). by destruct (Hno j c). }
  assert (n ∉ pinned) as Hpn.
  { intros Hp. destruct (inv_pinned _ _ _ Hinv n Hp) as (j & c & Hc). by destruct (Hno j c). }
  assert (forall m, caches s i m b -> held !! m = None /\ m ∉ pinned) as Hold.
  { intros m Hm. split.
    - destruct (held !! m) as [j|] eqn:E; [|done]. exfalso. apply Hnb.
      destruct (inv_held _ _ _ Hinv m j E) as (c & Hc).
      pose proof (inv_uniq _ _ _ Hinv _ _ _ _ _ Hc Hm) as ->. by eapply inv_busy.
    - intros Hp. apply Hndirty. by eapply inv_dirty. }
  assert (forall m j c, caches s j m c -> (held !! m <> None \/ m ∈ pinned) -> j <> i) as Hkeep.
  { intros m j c Hc Hor ->. assert (c = b) as -> by (destruct Hc as [[_ Hc] _]; congruence).
    destruct (Hold m Hc). by destruct Hor. }
  assert (bio_inv s' (<[n := i]> held) pinned) as Hinv'.
  { split; try done.
    - rewrite Hb, length_insert. by eapply inv_len.
    - destruct (inv_order _ _ _ Hinv) as [order Ho]. exists order. rewrite Hb. by eapply order_insert.
    - intros j k m c d [(-> & -> & _ & _ & <-)|[Hj Hcj]]%Hcs [(-> & -> & _ & _ & Hm)|[Hk Hck]]%Hcs; auto.
      + rewrite Hbn in Hck. by destruct (Hno k d).
      + rewrite <- Hm, Hbn in Hcj. by destruct (Hno j c).
      + by eapply inv_uniq.
    - intros j m c [(-> & -> & _)|[Hj Hcj]]%Hcs; [done|by eapply inv_valid].
    - intros j m c [(-> & -> & _ & _ & <-)|[Hj Hcj]]%Hcs; [by rewrite Hbn|by eapply inv_range].
    - intros j m c [(-> & -> & _)|[Hj Hcj]]%Hcs; [rewrite Hdata; by eapply inv_disk|by eapply inv_size].
    - intros j m c [(-> & -> & _ & _ & <-)|[Hj Hcj]]%Hcs.
      + rewrite Hbn, lookup_insert_eq. done.
      + assert (n <> m) by (intros <-; by destruct (Hno j c)).
        rewrite lookup_insert_ne by done. by eapply inv_busy.
    - intros j m c [(-> & -> & _ & _ & <-)|[Hj Hcj]]%Hcs; [|by eapply inv_dirty].
      by rewrite Hbn, Hdirty.
    - intros j m c [(-> & -> & _ & _ & <-)|[Hj Hcj]]%Hcs Hp Hh.
      + by rewrite Hbn, Hdsk.
      + assert (n <> m) by (intros <-; by destruct (Hno j c)).
        rewrite lookup_insert_ne in Hh by done. rewrite Hdsk. by eapply inv_clean.
    - intros j c [Hj Hbj] Hdj. rewrite Hb in Hbj. destruct (decide (i = j)) as [<-|Hne].
      + rewrite list_lookup_insert_eq in Hbj by done. congruence.
      + rewrite list_lookup_insert_ne in Hbj by done. eapply inv_unused; [done|by split|done].
    - intros m j. destruct (decide (n = m)) as [<-|Hnm].
      + rewrite lookup_insert_eq. intros [= <-]. exists b'. apply Hcs. left. by split_and!.
      + rewrite lookup_insert_ne by done. intros Hm.
        destruct (inv_held _ _ _ Hinv m j Hm) as (c & Hc). exists c. apply Hcs. right.
        split; [|done]. eapply Hkeep; [done|]. left. congruence.
    - intros m Hm. destruct (inv_pinned _ _ _ Hinv m Hm) as (j & c & Hc). exists j, c.
      apply Hcs. right. split; [|done]. eapply Hkeep; [done|]. by right.
    - rewrite Hdsk. by eapply inv_disk. }
  split; [done|]. intros m. destruct (decide (m = n)) as [->|Hmn].
  { rewrite (blk_uncached s), (blk_caches s' _ _ i n b' Hinv'); [done| |done].
    apply Hcs. left. by split_and!. }
  destruct (cached s m) as [[j c]|] eqn:E.
  - apply cached_Some in E. rewrite (blk_caches _ _ _ _ _ _ Hinv E).
    destruct (decide (j = i)) as [->|Hne].
    + assert (c = b) as -> by (destruct E as [[_ E] _]; congruence).
      destruct (Hold m E) as [Hh Hp]. rewrite (inv_clean _ _ _ Hinv _ _ _ E Hp Hh), <- Hdsk.
      apply blk_uncached. intros k d [(-> & -> & _ & _ & Hm)|[Hk Hck]]%Hcs; [congruence|].
      by pose proof (inv_uniq _ _ _ Hinv _ _ _ _ _ Hck E).
    + eapply blk_caches; [done|]. apply Hcs. by right.
  - assert (forall j c, ~ caches s j m c) as Hnom by (by apply cached_None).
    rewrite (blk_uncached s), <- Hdsk by done. apply blk_uncached.
    intros j c [(-> & -> & _ & _ & Hm)|[Hj Hc]]%Hcs; [congruence|by eapply Hnom].
Qed.

(** A buffer can be recycled while fewer than [NBUF] blocks are held or pinned. *)
Lemma recyclable_exists s held pinned :
  bio_inv s held pinned -> (size (dom held ∪ pinned) < NBUF)%nat ->
  exists i b, entry s i b /\ recyclable b.
Proof.
  intros Hinv Hsz.
  destruct (decide (Exists (fun b => recyclable b) (take NBUF (bufs s)))) as [Hex|Hnex].
  { apply Exists_exists in Hex as (b & Hb & Hr). apply list_elem_of_lookup in Hb as [i Hi].
    assert (i < NBUF)%nat.
    { apply lookup_lt_Some in Hi. rewrite length_take in Hi. lia. }
    rewrite lookup_take_lt in Hi by done. by exists i, b. }
  exfalso. apply not_Exists_Forall in Hnex; [|apply _]. rewrite Forall_lookup in Hnex.
  assert (forall i b, entry s i b -> dev b = ROOTDEV /\ blockno b ∈ dom held ∪ pinned) as Hall.
  { intros i b [Hi Hb]. specialize (Hnex i b). rewrite lookup_take_lt in Hnex by done.
    specialize (Hnex Hb). change (~ recyclable b) in Hnex. unfold recyclable in Hnex.
    assert (has B_BUSY b \/ has B_DIRTY b) as Hor.
    { destruct (has B_BUSY b); [by left|]. destruct (has B_DIRTY b); [by right|]. exfalso. by apply Hnex. }
    assert (dev b = ROOTDEV) as Hd.
    { destruct (decide (dev b = ROOTDEV)) as [|Hne]; [done|].
      unfold has in Hor. rewrite (inv_unused _ _ _ Hinv i b (conj Hi Hb) Hne) in Hor. by destruct Hor. }
    split; [done|]. assert (caches s i (blockno b) b) as Hc by done. apply elem_of_union.
    destruct Hor as [Hbz|Hdz].
    - left. apply elem_of_dom. exists i. by eapply inv_busy.
    - right. by eapply inv_dirty. }
  pose proof (inv_len _ _ _ Hinv) as Hlen.
  assert (NoDup (blockno <$> take NBUF (bufs s))) as Hnd.
  { apply NoDup_alt. intros i j n Hi Hj. rewrite list_lookup_fmap in Hi, Hj.
    destruct (take NBUF (bufs s) !! i) as [b|] eqn:Hb; [|done].
    destruct (take NBUF (bufs s) !! j) as [c|] eqn:Hc; [|done].
    apply lookup_take_Some in Hb as [Hb Hbi]. apply lookup_take_Some in Hc as [Hc Hcj].
    simpl in Hi, Hj. injection Hi as <-. injection Hj as E.
    destruct (Hall i b) as [Hdb _]; [done|]. destruct (Hall j c) as [Hdc _]; [done|].
    by eapply (inv_uniq _ _ _ Hinv i j (blockno b) b c). }
  assert (list_to_set (blockno <$> take NBUF (bufs s)) ⊆ dom held ∪ pinned) as Hsub.
  { intros n. rewrite elem_of_list_to_set, list_elem_of_fmap. intros (b & -> & Hb).
    apply list_elem_of_lookup in Hb as [i Hi]. apply lookup_take_Some in Hi as [Hb Hi].
    by apply (Hall i b). }
  apply subseteq_size in Hsub. rewrite size_list_to_set, length_fmap, length_take in Hsub by done. lia.
Qed.

(** *** The laws of the operations *)

Lemma order_facts bs order :
  is_order bs order ->
  length order = NBUF /\ NoDup (HEAD :: order) /\ forall i, i ∈ order <-> (i < NBUF)%nat.
Proof.
  intros [_ Hp].
  assert (forall i, i ∈ order <-> (i < NBUF)%nat) as Hel.
  { intros i. rewrite Hp, elem_of_seq. lia. }
  split_and!; [by rewrite Hp, length_seq| |done].
  apply NoDup_cons. split; [rewrite Hel; unfold HEAD; lia|]. rewrite Hp. apply NoDup_seq.
Qed.

(** Looking for a cached block from the most recently used buffer on. *)
Lemma walk_next s held pinned order h test :
  bio_inv s held pinned -> is_order (bufs s) order -> bufs s !! HEAD = Some h ->
  (exists l1 i l2 b, walk (S NBUF) (bufs s) next test (next h) = Some (Some i) /\
     order = l1 ++ i :: l2 /\ entry s i b /\ test b /\
     (forall j c, j ∈ l1 -> bufs s !! j = Some c -> test c = false)) \/
  (walk (S NBUF) (bufs s) next test (next h) = Some None /\
   forall j c, entry s j c -> test c = false).
Proof.
  intros Hinv Ho Hh. destruct (order_facts _ _ Ho) as (Hlen & Hnd & Hel). destruct Ho as [Hl _].
  apply NoDup_cons in Hnd as [Hnh _].
  pose proof (linked_ends _ _ _ _ _ Hl) as [E _].
  rewrite list_lookup_fmap, Hh in E. injection E as E. rewrite E.
  destruct (walk_spec (bufs s) next test _ _ HEAD order (S NBUF) eq_refl Hl Hnh ltac:(lia))
    as [(l1 & i & l2 & b & Hw & -> & Hb & Ht & Hne)|[Hw Hne]].
  - left. exists l1, i, l2, b. split_and!; auto. split; [|done]. apply Hel. set_solver.
  - right. split; [done|]. intros j c [Hj Hc]. eapply Hne; [|done]. by apply Hel.
Qed.

(** Looking for a buffer to recycle from the least recently used one on. *)
Lemma walk_prev s held pinned order h test :
  bio_inv s held pinned -> is_order (bufs s) order -> bufs s !! HEAD = Some h ->
  (exists l1 i l2 b, walk (S NBUF) (bufs s) prev test (prev h) = Some (Some i) /\
     order = l1 ++ i :: l2 /\ entry s i b /\ test b /\
     (forall j c, j ∈ l2 -> bufs s !! j = Some c -> test c = false)) \/
  (walk (S NBUF) (bufs s) prev test (prev h) = Some None /\
   forall j c, entry s j c -> test c = false).
Proof.
  intros Hinv Ho Hh. destruct (order_facts _ _ Ho) as (Hlen & Hnd & Hel). destruct Ho as [Hl _].
  apply NoDup_cons in Hnd as [Hnh _]. apply linked_rev in Hl.
  pose proof (linked_ends _ _ _ _ _ Hl) as [E _].
  rewrite list_lookup_fmap, Hh in E. injection E as E. rewrite E.
  destruct (walk_spec (bufs s) prev test _ _ HEAD (reverse order) (S NBUF) eq_refl Hl)
    as [(l1 & i & l2 & b & Hw & Hrev & Hb & Ht & Hne)|[Hw Hne]].
  - by rewrite elem_of_reverse.
  - rewrite length_reverse. lia.
  - left. exists (reverse l2), i, (reverse l1), b.
    assert (order = reverse l2 ++ i :: reverse l1) as Hord.
    { rewrite <- (reverse_involutive order), Hrev, reverse_app, reverse_cons, <- app_assoc. done. }
    split_and!; auto.
    + split; [|done]. apply Hel. rewrite Hord. set_solver.
    + intros j c Hj. apply Hne. by apply elem_of_reverse.
  - right. split; [done|]. intros j c [Hj Hc]. eapply Hne; [|done]. rewrite elem_of_reverse. by apply Hel.
Qed.

Lemma head_lookup s held pinned : bio_inv s held pinned -> exists h, bufs s !! HEAD = Some h.
Proof. intros Hinv. apply lookup_lt_is_Some. rewrite (inv_len _ _ _ Hinv). unfold HEAD. lia. Qed.

Lemma is_block_true b n : is_block ROOTDEV n b <-> dev b = ROOTDEV /\ blockno b = n.
Proof. unfold is_block. rewrite andb_True, !Is_true_true, !Z.eqb_eq. done. Qed.

(** The cached case of [bget]. *)
Lemma bget_hit s held pinned i n b :
  bio_inv s held pinned -> caches s i n b -> held !! n = None ->
  bget ROOTDEV n s = Ret (upd_bufs <[i := set_flags (Z.lor (flags b) B_BUSY) b]> s) i.
Proof.
  intros Hinv Hc Hh. destruct (head_lookup _ _ _ Hinv) as [h Hhd].
  destruct (inv_order _ _ _ Hinv) as [order Ho].
  unfold bget, gets. unfold bind at 1.
  rewrite (bind_ret _ _ _ _ _ (buf_at_ret _ _ _ Hhd)).
  destruct (walk_next s held pinned order h (is_block ROOTDEV n) Hinv Ho Hhd)
    as [(l1 & j & l2 & c & Hw & _ & Hj & Ht & _)|[Hw Hno]].
  - rewrite Hw. apply is_block_true in Ht as [Hd Hn].
    assert (j = i) as -> by (eapply (inv_uniq _ _ _ Hinv); [|done]; by split).
    pose proof Hc as [[Hi Hb] _].
    assert (c = b) as -> by (destruct Hj; congruence).
    assert (has B_BUSY b = false) as Hnb.
    { destruct (has B_BUSY b) eqn:E; [|done]. assert (has B_BUSY b) as Hbz by (by rewrite E).
      apply (inv_busy _ _ _ Hinv _ _ _ Hc) in Hbz. congruence. }
    cbn [from_opt]. unfold bind at 1, ret at 1.
    rewrite (bind_ret _ _ _ _ _ (buf_at_ret _ _ _ Hb)), Hnb. cbn [negb].
    by rewrite (bind_ret _ _ _ _ _ (upd_buf_ret _ _ _ _ Hb)).
  - exfalso. destruct Hc as [Hi Hd]. specialize (Hno i b Hi). apply is_block_true in Hd. by rewrite Hno in Hd.
Qed.

(** The recycling case: the victim is the least recently used buffer that is
    neither busy nor dirty. *)
Lemma bget_miss s held pinned order n :
  bio_inv s held pinned -> is_order (bufs s) order -> (forall j c, ~ caches s j n c) ->
  (exists i b, entry s i b /\ recyclable b) ->
  exists l1 i l2 b, order = l1 ++ i :: l2 /\ entry s i b /\ recyclable b /\
    (forall j c, j ∈ l2 -> bufs s !! j = Some c -> recyclable c = false) /\
    bget ROOTDEV n s = Ret (upd_bufs <[i := set_flags B_BUSY (set_block ROOTDEV n b)]> s) i.
Proof.
  intros Hinv Ho Hno (k & bk & Hk & Hrk). destruct (head_lookup _ _ _ Hinv) as [h Hhd].
  destruct (walk_next s held pinned order h (is_block ROOTDEV n) Hinv Ho Hhd)
    as [(l1 & j & l2 & c & Hw & _ & Hj & Ht & _)|[Hw _]].
  { exfalso. apply is_block_true in Ht as [Hd Hn]. by apply (Hno j c). }
  destruct (walk_prev s held pinned order h recyclable Hinv Ho Hhd)
    as [(l1 & i & l2 & b & Hw' & Hord & Hi & Hr & Hlru)|[_ Hnone]].
  2: { by rewrite (Hnone k bk Hk) in Hrk. }
  exists l1, i, l2, b. split_and!; auto.
  unfold bget, gets. unfold bind at 1.
  rewrite (bind_ret _ _ _ _ _ (buf_at_ret _ _ _ Hhd)).
  rewrite Hw, Hw'. cbn [from_opt]. unfold bind at 1, ret at 1. unfold bind at 1, ret at 1.
  destruct Hi as [Hi Hb]. by rewrite (bind_ret _ _ _ _ _ (upd_buf_ret _ _ _ _ Hb)).
Qed.

Lemma bread_law s held pinned n :
  bio_inv s held pinned -> on_disk n -> held !! n = None ->
  ((size (dom held ∪ pinned) < NBUF)%nat \/ n ∈ pinned) ->
  exists s' i, bread ROOTDEV n s = Ret s' i /\ bio_inv s' (<[n := i]> held) pinned /\
    (forall m, blk s' m = blk s m) /\ dsk s' = dsk s /\ trace s' = trace s.
Proof.
  intros Hinv Hn Hh Hroom. unfold bread. destruct (cached s n) as [[i b]|] eqn:E.
  - apply cached_Some in E. rewrite (bind_ret _ _ _ _ _ (bget_hit _ _ _ _ _ _ Hinv E Hh)).
    pose proof E as [[Hi Hb] [Hd Hbn]]. pose proof (lookup_lt_Some _ _ _ Hb) as Hlt.
    set (b' := set_flags (Z.lor (flags b) B_BUSY) b).
    assert (bufs (upd_bufs <[i:=b']> s) !! i = Some b') as Hb' by (by apply list_lookup_insert_eq).
    rewrite (bind_ret _ _ _ _ _ (buf_at_ret _ _ _ Hb')).
    assert (has B_VALID b') as Hv.
    { unfold has, b'. cbn. autorewrite with flags. by eapply inv_valid. }
    rewrite (Is_true_true_1 _ Hv). cbn [negb whenM]. unfold bind, ret.
    exists (upd_bufs <[i:=b']> s), i. split; [done|].
    destruct (inv_upd s (upd_bufs <[i:=b']> s) held pinned (<[n:=i]> held) pinned i n b b')
      as (Hinv' & Hbn' & Hbm); auto.
    + apply driver_ok_bufs. by eapply inv_driver.
    + intros m Hm. by rewrite lookup_insert_ne.
    + exact (inv_disk _ _ _ Hinv n).
    + exact (inv_size _ _ _ Hinv _ _ _ E).
    + rewrite lookup_insert_eq. unfold has, b'. cbn. autorewrite with flags. done.
    + rewrite lookup_insert_eq. by right.
    + unfold has, b'. cbn. autorewrite with flags. by eapply inv_dirty.
    + rewrite lookup_insert_eq. done.
    + split_and!; auto. intros m. destruct (decide (m = n)) as [->|Hm]; [|by apply Hbm].
      rewrite Hbn'. by rewrite (blk_caches _ _ _ _ _ _ Hinv E).
  - assert (forall j c, ~ caches s j n c) as Hno by (by apply cached_None).
    assert (exists i b, entry s i b /\ recyclable b) as Hex.
    { destruct Hroom as [Hsz|Hp]; [by eapply recyclable_exists|].
      destruct (inv_pinned _ _ _ Hinv n Hp) as (j & c & Hc). by destruct (Hno j c). }
    destruct (inv_order _ _ _ Hinv) as [order Ho].
    destruct (bget_miss s held pinned order n Hinv Ho Hno Hex) as (_ & i & _ & b & _ & Hi & Hr & _ & Hget).
    rewrite (bind_ret _ _ _ _ _ Hget). pose proof Hi as [Hin Hb].
    pose proof (lookup_lt_Some _ _ _ Hb) as Hlt.
    set (b1 := set_flags B_BUSY (set_block ROOTDEV n b)). set (s1 := upd_bufs <[i:=b1]> s).
    assert (bufs s1 !! i = Some b1) as Hb1 by (by apply list_lookup_insert_eq).
    rewrite (bind_ret _ _ _ _ _ (buf_at_ret _ _ _ Hb1)). cbn [whenM negb].
    destruct (iderw_read s1 i b1) as (s2 & q & Hrw & Hdrv & Hbs & Hdsk & Htr); auto.
    { apply driver_ok_bufs. by eapply inv_driver. }
    change (has B_VALID b1) with false. cbn [negb whenM].
    rewrite (bind_ret _ _ _ _ _ Hrw). exists s2, i. split; [done|].
    assert (bufs s2 = <[i := set_qnext q (set_data (disk_read (dsk s1) (blockno b1))
              (set_flags (done_flags (flags b1)) b1))]> (bufs s)) as Hbs'.
    { rewrite Hbs. unfold s1. cbn. by rewrite list_insert_insert_eq. }
    destruct (inv_recycle s s2 held pinned i n b _ Hinv Hi Hr Hno Hn Hbs') as [Hinv' Hblk]; auto.
Qed.

Lemma buf_data_law s held pinned n i :
  bio_inv s held pinned -> held !! n = Some i -> buf_data i s = Ret s (blk s n).
Proof.
  intros Hinv Hh. destruct (inv_held _ _ _ Hinv n i Hh) as (b & Hc).
  rewrite (blk_caches _ _ _ _ _ _ Hinv Hc). destruct Hc as [[_ Hb] _].
  unfold buf_data. by rewrite (bind_ret _ _ _ _ _ (buf_at_ret _ _ _ Hb)).
Qed.

Lemma buf_store_law s held pinned n i d :
  bio_inv s held pinned -> held !! n = Some i -> length d = BSIZE ->
  exists s', buf_store i d s = Ret s' tt /\ bio_inv s' held pinned /\ blk s' n = d /\
    (forall m, m <> n -> blk s' m = blk s m) /\ dsk s' = dsk s /\ trace s' = trace s.
Proof.
  intros Hinv Hh Hd. destruct (inv_held _ _ _ Hinv n i Hh) as (b & Hc). pose proof Hc as [[Hi Hb] _].
  unfold buf_store. rewrite (upd_buf_ret _ _ _ _ Hb). eexists. split; [done|].
  destruct (inv_upd s (upd_bufs <[i:=set_data d b]> s) held pinned held pinned i n b (set_data d b))
    as (Hinv' & Hbn' & Hbm); auto.
  - apply driver_ok_bufs. by eapply inv_driver.
  - exact (inv_disk _ _ _ Hinv n).
  - by eapply (inv_valid _ _ _ Hinv i n b).
  - by eapply (inv_busy _ _ _ Hinv i n b).
  - by eapply (inv_dirty _ _ _ Hinv i n b).
  - intros _ Hn. congruence.
Qed.

Lemma bwrite_law s held pinned n i :
  bio_inv s held pinned -> held !! n = Some i ->
  exists s', bwrite i s = Ret s' tt /\ bio_inv s' held (pinned ∖ {[n]}) /\
    (forall m, blk s' m = blk s m) /\ dsk s' = <[n := blk s n]> (dsk s) /\
    trace s' = trace s ++ [(n, blk s n)].
Proof.
  intros Hinv Hh. destruct (inv_held _ _ _ Hinv n i Hh) as (b & Hc). pose proof Hc as [[Hi Hb] [Hd Hn]].
  pose proof (lookup_lt_Some _ _ _ Hb) as Hlt.
  assert (has B_BUSY b) as Hbz by (by eapply inv_busy).
  rewrite (blk_caches _ _ _ _ _ _ Hinv Hc).
  unfold bwrite. rewrite (bind_ret _ _ _ _ _ (buf_at_ret _ _ _ Hb)), (Is_true_true_1 _ Hbz). cbn [negb].
  rewrite (bind_ret _ _ _ _ _ (upd_buf_ret _ _ _ _ Hb)).
  set (b1 := set_flags (Z.lor (flags b) B_DIRTY) b). set (s1 := upd_bufs <[i:=b1]> s).
  destruct (iderw_write s1 i b1) as (s2 & q & Hrw & Hdrv & Hbs & Hdsk & Htr).
  - apply driver_ok_bufs. by eapply inv_driver.
  - by apply list_lookup_insert_eq.
  - unfold has, b1. cbn. by autorewrite with flags.
  - unfold has, b1. cbn. by autorewrite with flags.
  - done.
  - cbn. rewrite Hn. by eapply inv_range.
  - exists s2. split; [done|].
    assert (bufs s2 = <[i := set_qnext q (set_flags (done_flags (flags b1)) b1)]> (bufs s)) as Hbs'.
    { rewrite Hbs. unfold s1. cbn. by rewrite list_insert_insert_eq. }
    change (blockno b1) with (blockno b) in *. change (data b1) with (data b) in *. rewrite Hn in *.
    change (dsk s1) with (dsk s) in *.
    destruct (inv_upd s s2 held pinned held (pinned ∖ {[n]}) i n b _ Hinv Hc Hbs')
      as (Hinv' & Hbn' & Hbm); auto; cbn.
    + set_solver.
    + intros m Hm. rewrite Hdsk. unfold disk_read. by rewrite lookup_insert_ne.
    + rewrite Hdsk. unfold disk_read. rewrite lookup_insert_eq. by eapply inv_size.
    + unfold has. cbn. by autorewrite with flags.
    + by eapply inv_size.
    + unfold has. cbn. autorewrite with flags. by eapply (inv_busy _ _ _ Hinv i n b).
    + unfold has. cbn. autorewrite with flags. set_solver.
    + intros _ Hno. congruence.
    + split_and!; auto. intros m. destruct (decide (m = n)) as [->|Hm]; [|by apply Hbm].
      rewrite Hbn'. cbn. by rewrite (blk_caches _ _ _ _ _ _ Hinv Hc).
Qed.

(** *** Releasing a buffer: the pointer updates move it to the front *)

Record relinked (s s' : bio_state) : Prop := {
  rl_payload : payload <$> bufs s' = payload <$> bufs s;
  rl_dsk : dsk s' = dsk s;
  rl_trace : trace s' = trace s;
  rl_driver : driver_ok s -> driver_ok s'
}.

Lemma relinked_refl s : relinked s s.
Proof. by split. Qed.

Lemma relinked_trans s1 s2 s3 : relinked s1 s2 -> relinked s2 s3 -> relinked s1 s3.
Proof. intros [] []. split; try congruence. auto. Qed.

Lemma upd_link s j (f : buf -> buf) :
  (j < length (bufs s))%nat -> (forall b, payload (f b) = payload b) ->
  exists s' c, bufs s !! j = Some c /\ upd_buf j f s = Ret s' tt /\ relinked s s' /\
    next <$> bufs s' = <[j := next (f c)]> (next <$> bufs s) /\
    prev <$> bufs s' = <[j := prev (f c)]> (prev <$> bufs s).
Proof.
  intros Hj Hf. apply lookup_lt_is_Some in Hj as [c Hc].
  exists (upd_bufs <[j := f c]> s), c. split_and!; auto.
  - by apply upd_buf_ret.
  - split; cbn; try done; [|apply driver_ok_bufs].
    rewrite list_fmap_insert, Hf. apply list_insert_id. by rewrite list_lookup_fmap, Hc.
  - apply list_fmap_insert.
  - apply list_fmap_insert.
Qed.

Lemma upd_prev_links s j v :
  (j < length (bufs s))%nat ->
  exists s', upd_buf j (set_prev v) s = Ret s' tt /\ relinked s s' /\
    next <$> bufs s' = next <$> bufs s /\ prev <$> bufs s' = <[j := v]> (prev <$> bufs s).
Proof.
  intros Hj. destruct (upd_link s j (set_prev v) Hj) as (s' & c & Hc & Hu & Hr & Hn & Hp); [done|].
  exists s'. split_and!; auto. rewrite Hn. apply list_insert_id. by rewrite list_lookup_fmap, Hc.
Qed.

Lemma upd_next_links s j v :
  (j < length (bufs s))%nat ->
  exists s', upd_buf j (set_next v) s = Ret s' tt /\ relinked s s' /\
    next <$> bufs s' = <[j := v]> (next <$> bufs s) /\ prev <$> bufs s' = prev <$> bufs s.
Proof.
  intros Hj. destruct (upd_link s j (set_next v) Hj) as (s' & c & Hc & Hu & Hr & Hn & Hp); [done|].
  exists s'. split_and!; auto. rewrite Hp. apply list_insert_id. by rewrite list_lookup_fmap, Hc.
Qed.

Lemma relinked_length s s' : relinked s s' -> length (bufs s') = length (bufs s).
Proof. intros [Hp _ _ _]. apply (f_equal length) in Hp. by rewrite !length_fmap in Hp. Qed.

Lemma buf_at_links s i q p :
  (next <$> bufs s) !! i = Some q -> (prev <$> bufs s) !! i = Some p ->
  exists b, buf_at i s = Ret s b /\ next b = q /\ prev b = p /\ bufs s !! i = Some b.
Proof.
  rewrite !list_lookup_fmap. destruct (bufs s !! i) as [b|] eqn:Hb; [|done].
  intros [= Hq] [= Hp]. exists b. split_and!; auto. by apply buf_at_ret.
Qed.

Lemma linked_lt nx pv x l y z :
  linked nx pv x l y -> (z ∈ x :: l -> (z < length nx)%nat) /\ (z ∈ y :: l -> (z < length pv)%nat).
Proof.
  revert x. induction l as [|w l IH]; intros x Hl; simpl in Hl.
  - destruct Hl as [E1 E2]. apply lookup_lt_Some in E1, E2. set_solver.
  - destruct Hl as [[E1 E2] Hl]. apply lookup_lt_Some in E1, E2. specialize (IH w Hl). set_solver.
Qed.

Lemma move_to_front_law s l1 i l2 :
  is_order (bufs s) (l1 ++ i :: l2) -> length (bufs s) = S NBUF ->
  exists s', move_to_front i s = Ret s' tt /\ relinked s s' /\ is_order (bufs s') (i :: l1 ++ l2).
Proof.
  intros Ho Hlen. destruct (order_facts _ _ Ho) as (_ & Hnd & _). destruct Ho as [Hl Hp].
  set (q := first_of l2 HEAD). set (p := last_of HEAD l1).
  assert ((i ≠ HEAD) /\ (i ∉ l1 ++ l2) /\ (HEAD ∉ l1 ++ l2) /\ NoDup (l1 ++ l2)) as (Hih & Hil & Hhl & Hnd').
  { rewrite <- Permutation_middle in Hnd. apply NoDup_cons in Hnd as [? Hnd].
    apply NoDup_cons in Hnd as [? Hnd]. set_solver. }
  apply linked_app in Hl as [Hl1 Hl2].
  pose proof (linked_ends _ _ _ _ _ Hl1) as [E1 E2]. pose proof (linked_ends _ _ _ _ _ Hl2) as [E3 E4].
  fold q in E3. fold p in E2.
  assert (forall l z, z ∈ HEAD :: l -> l ⊆ l1 ++ i :: l2 -> (z < S NBUF)%nat) as Hlt.
  { intros l z Hz Hsub. apply elem_of_cons in Hz as [->|Hz]; [unfold HEAD; lia|].
    apply Hsub in Hz. rewrite Hp in Hz. apply elem_of_seq in Hz. lia. }
  assert (q < S NBUF)%nat as Hq by (apply (Hlt l2); [apply first_of_elem|set_solver]).
  assert (p < S NBUF)%nat as Hpl by (apply (Hlt l1); [apply last_of_elem|set_solver]).
  assert (i < S NBUF)%nat as Hi by (apply (Hlt (l1 ++ i :: l2)); set_solver).
  assert (q ≠ i) by (pose proof (first_of_elem l2 HEAD); set_solver).
  assert (p ≠ i) by (pose proof (last_of_elem HEAD l1); set_solver).
  assert (linked (<[p:=q]> (next <$> bufs s)) (<[q:=p]> (prev <$> bufs s)) HEAD (l1 ++ l2) HEAD) as Hun.
  { apply (linked_unlink _ _ HEAD l1 i l2 HEAD); auto; [by apply NoDup_cons|set_solver]. }
  unfold move_to_front.
  destruct (buf_at_links s i q p E3 E2) as (b & Hb & Hnb & Hpb & _). rewrite (bind_ret _ _ _ _ _ Hb), Hnb, Hpb.
  destruct (upd_prev_links s q p) as (s1 & Hs1 & R1 & N1 & P1); [lia|]. rewrite (bind_ret _ _ _ _ _ Hs1).
  pose proof (relinked_length _ _ R1) as L1.
  destruct (buf_at_links s1 i q p) as (b1 & Hb1 & Hnb1 & Hpb1 & _).
  { by rewrite N1. } { rewrite P1, list_lookup_insert_ne by done. done. }
  rewrite (bind_ret _ _ _ _ _ Hb1), Hnb1, Hpb1.
  destruct (upd_next_links s1 p q) as (s2 & Hs2 & R2 & N2 & P2); [lia|]. rewrite (bind_ret _ _ _ _ _ Hs2).
  pose proof (relinked_length _ _ R2) as L2. rewrite N1 in N2. rewrite P1 in P2. rewrite <- N2, <- P2 in Hun.
  pose proof (linked_ends _ _ _ _ _ Hun) as [F1 F2]. set (q2 := first_of (l1 ++ l2) HEAD) in *.
  assert (q2 < S NBUF)%nat as Hq2 by (apply (Hlt (l1 ++ l2)); [apply first_of_elem|set_solver]).
  assert (q2 ≠ i) by (pose proof (first_of_elem (l1 ++ l2) HEAD); set_solver).
  destruct (buf_at_links s2 HEAD q2 _ F1 F2) as (h & Hh & Hnh & _ & _). rewrite (bind_ret _ _ _ _ _ Hh), Hnh.
  destruct (upd_next_links s2 i q2) as (s3 & Hs3 & R3 & N3 & P3); [lia|]. rewrite (bind_ret _ _ _ _ _ Hs3).
  pose proof (relinked_length _ _ R3) as L3.
  destruct (upd_prev_links s3 i HEAD) as (s4 & Hs4 & R4 & N4 & P4); [lia|]. rewrite (bind_ret _ _ _ _ _ Hs4).
  pose proof (relinked_length _ _ R4) as L4.
  destruct (buf_at_links s4 HEAD q2 (last_of HEAD (l1 ++ l2))) as (h4 & Hh4 & Hnh4 & _ & _).
  { rewrite N4, N3, list_lookup_insert_ne by done. done. }
  { rewrite P4, P3, list_lookup_insert_ne by done. done. }
  rewrite (bind_ret _ _ _ _ _ Hh4), Hnh4.
  destruct (upd_prev_links s4 q2 i) as (s5 & Hs5 & R5 & N5 & P5); [lia|]. rewrite (bind_ret _ _ _ _ _ Hs5).
  pose proof (relinked_length _ _ R5) as L5.
  destruct (upd_next_links s5 HEAD i) as (s6 & Hs6 & R6 & N6 & P6); [unfold HEAD; lia|].
  exists s6. split; [done|]. split.
  { do 5 (eapply relinked_trans; [eassumption|]). done. }
  split.
  - rewrite N6, N5, N4, N3, P6, P5, P4, P3. apply (linked_push _ _ HEAD (l1 ++ l2) i Hun).
    + by apply NoDup_cons.
    + set_solver.
    + rewrite length_fmap. lia.
    + rewrite length_fmap. lia.
  - by rewrite <- Hp, Permutation_middle.
Qed.

Lemma brelse_law s held pinned n i :
  bio_inv s held pinned -> held !! n = Some i ->
  (n ∈ pinned \/ blk s n = disk_read (dsk s) n) ->
  exists s', brelse i s = Ret s' tt /\ bio_inv s' (delete n held) pinned /\
    (forall m, blk s' m = blk s m) /\ dsk s' = dsk s /\ trace s' = trace s.
Proof.
  intros Hinv Hh Hcl. destruct (inv_held _ _ _ Hinv n i Hh) as (b & Hc). pose proof Hc as [[Hi Hb] [Hd Hn]].
  assert (has B_BUSY b) as Hbz by (by eapply inv_busy).
  destruct (inv_order _ _ _ Hinv) as [order Ho].
  destruct (order_facts _ _ Ho) as (_ & _ & Hel).
  destruct (list_elem_of_split order i) as (l1 & l2 & ->); [by apply Hel|].
  destruct (move_to_front_law s l1 i l2 Ho (inv_len _ _ _ Hinv)) as (s1 & Hmv & R & Ho1).
  destruct (inv_links s s1 held pinned Hinv) as [Hinv1 Hblk1]; try apply R; [by eapply inv_driver|by eexists|].
  destruct (inv_held _ _ _ Hinv1 n i Hh) as (b1 & Hc1). pose proof Hc1 as [[_ Hb1] _].
  set (b2 := set_flags (Z.land (flags b1) (Z.lnot B_BUSY)) b1). set (s2 := upd_bufs <[i:=b2]> s1).
  assert (brelse i s = Ret (add_woken (ChBuf i) s2) tt) as Hrun.
  { unfold brelse. rewrite (bind_ret _ _ _ _ _ (buf_at_ret _ _ _ Hb)), (Is_true_true_1 _ Hbz). cbn [negb].
    rewrite (bind_ret _ _ _ _ _ Hmv). by rewrite (bind_ret _ _ _ _ _ (upd_buf_ret _ _ _ _ Hb1)). }
  rewrite Hrun. eexists. split; [done|].
  destruct (inv_upd s1 s2 held pinned (delete n held) pinned i n b1 b2 Hinv1 Hc1) as (Hinv2 & Hbn2 & Hbm2); auto.
  - apply driver_ok_bufs. by eapply inv_driver.
  - intros m Hm. by rewrite lookup_delete_ne.
  - exact (inv_disk _ _ _ Hinv1 n).
  - unfold has, b2. cbn. autorewrite with flags. by eapply inv_valid.
  - exact (inv_size _ _ _ Hinv1 _ _ _ Hc1).
  - rewrite lookup_delete_eq. unfold has, b2. cbn. autorewrite with flags. done.
  - rewrite lookup_delete_eq. by left.
  - unfold has, b2. cbn. autorewrite with flags. by eapply inv_dirty.
  - intros Hp _. cbn. destruct Hcl as [?|Hcl]; [done|].
    rewrite (rl_dsk _ _ R), <- Hcl, <- Hblk1. symmetry. by eapply blk_caches.
  - destruct (inv_links s2 (add_woken (ChBuf i) s2) (delete n held) pinned Hinv2) as [Hinv3 Hblk3]; auto.
    + apply driver_ok_woken. by eapply inv_driver.
    + exact (inv_order _ _ _ Hinv2).
    + split_and!; auto; [|apply R|apply R].
      intros m. rewrite Hblk3, <- Hblk1. destruct (decide (m = n)) as [->|Hm]; [|by apply Hbm2].
      rewrite Hbn2. by rewrite (blk_caches _ _ _ _ _ _ Hinv1 Hc1).
Qed.
End laws.

(** ** The cache at boot *)

Definition zero_buf : buf := mk_buf 0 0 0 HEAD HEAD None zero_block.
Definition boot_bio (d : gmap Z block) : bio_state :=
  mk_bio (replicate (S NBUF) zero_buf) None d [] [].

Definition disk_ok (d : gmap Z block) : Prop := forall n, length (disk_read d n) = BSIZE.

Lemma disk_ok_insert d n b : disk_ok d -> length b = BSIZE -> disk_ok (<[n := b]> d).
Proof.
  intros Hd Hb m. unfold disk_read. rewrite lookup_insert. case_decide; [done|apply Hd].
Qed.

Lemma disk_ok_empty : disk_ok ∅.
Proof. intros n. unfold disk_read. by rewrite lookup_empty. Qed.

Definition booted_bufs : list buf := Eval vm_compute in bufs (binit (boot_bio ∅)).

Lemma binit_booted d : binit (boot_bio d) = mk_bio booted_bufs None d [] [].
Proof. unfold binit, upd_bufs. cbn [bufs idequeue dsk trace woken boot_bio]. f_equal. Qed.

Lemma booted_order : is_order booted_bufs (reverse (seq 0 NBUF)).
Proof. split; [|apply reverse_Permutation]. vm_compute. repeat split. Qed.

Lemma booted_unused : Forall (fun b => dev b = 2 ^ 32 - 1 /\ flags b = 0) (take NBUF booted_bufs).
Proof. vm_compute. repeat constructor. Qed.

Lemma binit_inv `{BlockDriver} d :
  disk_ok d -> bio_inv (binit (boot_bio d)) ∅ ∅.
Proof.
  rewrite binit_booted. intros Hd. set (s := mk_bio _ _ _ _ _) in *.
  assert (forall i b, entry s i b -> dev b = 2 ^ 32 - 1 /\ flags b = 0) as Hent.
  { intros i b [Hi Hb]. pose proof booted_unused as Hf. rewrite Forall_lookup in Hf.
    apply (Hf i). by rewrite lookup_take_lt. }
  assert (forall i n b, ~ caches s i n b) as Hno.
  { intros i n b [[Hdev _]%Hent [Hr _]]. rewrite Hdev in Hr. done. }
  split; try done; try (intros; by exfalso; eapply Hno).
  - apply driver_ok_boot.
  - exists (reverse (seq 0 NBUF)). exact booted_order.
  - intros i b [_ Hf]%Hent _. done.
Qed.

(** ** Theorems *)
Section theorems.
Context `{BlockDriver}.

(** C3: a [bread] of a block no one holds returns a busy buffer with the current
    contents of the block, provided fewer than [NBUF] blocks are held or
    pinned by the log.  What clients see of every block, and the disk, do not
    change, and the cache keeps at most one buffer per block. *)
Theorem bread_consistent s held pinned n :
  bio_inv s held pinned -> on_disk n -> held !! n = None ->
  (size (dom held ∪ pinned) < NBUF)%nat ->
  exists s' i b, bread ROOTDEV n s = Ret s' i /\
    bufs s' !! i = Some b /\ has B_BUSY b /\ data b = blk s n /\
    bio_inv s' (<[n := i]> held) pinned /\
    (forall m, blk s' m = blk s m) /\ dsk s' = dsk s.
Proof.
  intros Hinv Hn Hh Hsz. destruct (bread_law s held pinned n) as (s' & i & Hr & Hinv' & Hb & Hd & _); auto.
  destruct (inv_held _ _ _ Hinv' n i) as (b & Hc); [apply lookup_insert_eq|].
  exists s', i, b. split_and!; auto.
  - by destruct Hc as [[_ Hc] _].
  - eapply inv_busy; [done..|]. apply lookup_insert_eq.
  - by rewrite <- Hb, (blk_caches _ _ _ _ _ _ Hinv' Hc).
Qed.

(** For an uncached block [bget] recycles the least recently used buffer
    that is neither busy nor dirty: every buffer after it in MRU order is one
    or the other. *)
Theorem bget_recycles_lru s held pinned order n :
  bio_inv s held pinned -> is_order (bufs s) order -> (forall j c, ~ caches s j n c) ->
  (size (dom held ∪ pinned) < NBUF)%nat ->
  exists newer i older b s', bget ROOTDEV n s = Ret s' i /\
    order = newer ++ i :: older /\ entry s i b /\ recyclable b /\
    (forall j c, j ∈ older -> bufs s !! j = Some c -> recyclable c = false).
Proof.
  intros Hinv Ho Hno Hsz.
  destruct (bget_miss s held pinned order n) as (l1 & i & l2 & b & H1 & H2 & H3 & H4 & H5); auto.
  { by eapply recyclable_exists. }
  eexists l1, i, l2, b, _. eauto.
Qed.

(** [brelse] moves the released buffer to the front of the MRU list, keeps
    the doubly linked list intact, and changes no block. *)
Theorem brelse_moves_to_front s held pinned n i l1 l2 :
  bio_inv s held pinned -> held !! n = Some i -> is_order (bufs s) (l1 ++ i :: l2) ->
  (n ∈ pinned \/ blk s n = disk_read (dsk s) n) ->
  exists s', brelse i s = Ret s' tt /\ is_order (bufs s') (i :: l1 ++ l2) /\
    bio_inv s' (delete n held) pinned /\ (forall m, blk s' m = blk s m).
Proof.
  intros Hinv Hh Ho Hcl. destruct (brelse_law s held pinned n i) as (s' & Hr & Hinv' & Hb & _); auto.
  exists s'. split_and!; auto. revert Hr. unfold brelse.
  destruct (inv_held _ _ _ Hinv n i Hh) as (b & Hc). pose proof Hc as [[Hi Hbi] _].
  rewrite (bind_ret _ _ _ _ _ (buf_at_ret _ _ _ Hbi)). case_match; [done|].
  destruct (move_to_front_law s l1 i l2 Ho (inv_len _ _ _ Hinv)) as (s1 & Hmv & R & Ho1).
  rewrite (bind_ret _ _ _ _ _ Hmv).
  destruct (inv_links s s1 held pinned Hinv) as [Hinv1 _]; try apply R; [by eapply inv_driver|by eexists|].
  destruct (inv_held _ _ _ Hinv1 n i Hh) as (b1 & [[_ Hb1] _]).
  rewrite (bind_ret _ _ _ _ _ (upd_buf_ret _ _ _ _ Hb1)). unfold modify. intros [= <-].
  cbn. by eapply order_insert.
Qed.
End theorems.

(** ** Witnesses: the in-memory driver on an empty disk, after [binit] *)

#[local] Existing Instance mem_driver.

Lemma boot_inv : bio_inv (binit (boot_bio ∅)) ∅ ∅.
Proof. apply binit_inv, disk_ok_empty. Qed.

Lemma boot_uncached n i b : ~ caches (binit (boot_bio ∅)) i n b.
Proof.
  rewrite binit_booted. intros [[Hi Hb] [Hd _]]. pose proof booted_unused as Hf.
  rewrite Forall_lookup in Hf. destruct (Hf i b) as [E _]; [by rewrite lookup_take_lt|].
  rewrite E in Hd. done.
Qed.

Lemma bread_consistent_witness :
  exists s' i b, bread ROOTDEV 1 (binit (boot_bio ∅)) = Ret s' i /\
    bufs s' !! i = Some b /\ has B_BUSY b /\ data b = blk (binit (boot_bio ∅)) 1 /\
    bio_inv s' (<[1 := i]> ∅) ∅ /\
    (forall m, blk s' m = blk (binit (boot_bio ∅)) m) /\ dsk s' = dsk (binit (boot_bio ∅)).
Proof.
  apply (bread_consistent (binit (boot_bio ∅)) ∅ ∅ 1).
  - apply boot_inv.
  - split; [discriminate|reflexivity].
  - reflexivity.
  - vm_compute. lia.
Defined.

Lemma bget_recycles_lru_witness :
  exists newer i older b s', bget ROOTDEV 1 (binit (boot_bio ∅)) = Ret s' i /\
    reverse (seq 0 NBUF) = newer ++ i :: older /\ entry (binit (boot_bio ∅)) i b /\ recyclable b /\
    (forall j c, j ∈ older -> bufs (binit (boot_bio ∅)) !! j = Some c -> recyclable c = false).
Proof.
  apply (bget_recycles_lru (binit (boot_bio ∅)) ∅ ∅ (reverse (seq 0 NBUF)) 1).
  - apply boot_inv.
  - rewrite binit_booted. apply booted_order.
  - intros j c. apply boot_uncached.
  - vm_compute. lia.
Defined.

Lemma brelse_moves_to_front_witness :
  exists s i l1 l2 s', bread ROOTDEV 1 (binit (boot_bio ∅)) = Ret s i /\
    brelse i s = Ret s' tt /\ is_order (bufs s') (i :: l1 ++ l2) /\
    bio_inv s' (delete 1 (<[1 := i]> ∅)) ∅ /\ (forall m, blk s' m = blk s m).
Proof.
  destruct (bread_law (binit (boot_bio ∅)) ∅ ∅ 1) as (s & i & Hr & Hinv & Hb & Hd & _).
  - apply boot_inv.
  - split; [discriminate|reflexivity].
  - reflexivity.
  - left. vm_compute. lia.
  - destruct (inv_order _ _ _ Hinv) as [order Ho].
    destruct (inv_held _ _ _ Hinv 1 i (lookup_insert_eq _ _ _)) as (b & [[Hi _] _]).
    destruct (list_elem_of_split order i) as (l1 & l2 & ->).
    { apply (order_facts _ _ Ho). exact Hi. }
    destruct (brelse_moves_to_front s (<[1 := i]> ∅) ∅ 1 i l1 l2 Hinv (lookup_insert_eq _ _ _) Ho) as (s' & H').
    + right. rewrite Hb, Hd. apply blk_uncached. intros j c. apply boot_uncached.
    + exists s, i, l1, l2, s'. split; [exact Hr|exact H'].
Defined.
