(* ===== verification/Ide.v ===== *)
(** * Ide: the IDE disk driver (ide.c)

    The driver keeps a queue of buffers, linked by [qnext] from [idequeue];
    the first one is being transferred, and the interrupt at the end of the
    transfer takes it off and starts the next.  The state adds to that of the
    buffer cache the registers of the controller.  What the controller does
    with a command is written out as [disk_done]; what the reads of its status
    give is an argument.

    Requests and interrupts come in any order.  The theorems show that the
    queue is served first in first out, each request with the effect of the
    in-memory driver, and that a call on an idle disk fulfils the contract
    [BlockDriver], so that what is proved above it holds for both drivers. *)
From stdpp Require Import base numbers list gmap strings.
From Stdlib Require Import ZArith Lia.
From S2P Require Import Prelude Bytes Buf.

Local Open Scope Z_scope.

Definition IDE_BSY : Z := 0x80.
Definition IDE_DRDY : Z := 0x40.
Definition IDE_DF : Z := 0x20.
Definition IDE_ERR : Z := 0x01.
Definition IDE_CMD_READ : Z := 0x20.
Definition IDE_CMD_WRITE : Z := 0x30.
Definition SECTOR_SIZE : Z := 512.

(** The registers: sector count, sector number, drive and head, command, and
    the words that pass through the data port. *)
Record ctl := mk_ctl {
  count : Z;
  lba0 : Z;
  lba1 : Z;
  lba2 : Z;
  devsel : Z;
  cmd : Z;
  xfer : list Z
}.
Definition idle : ctl := mk_ctl 0 0 0 0 0 0 [].

(** [dsk] of the buffer cache's state is disk 1. *)
Record ide := mk_ide { ib : bio_state; ctlr : ctl; disk0 : gmap Z block; havedisk1 : bool }.
Definition set_ib b (s : ide) := mk_ide b (ctlr s) (disk0 s) (havedisk1 s).
Definition set_ctl c (s : ide) := mk_ide (ib s) c (disk0 s) (havedisk1 s).
Definition inib {A} (m : M bio_state A) : M ide A := zoom ib set_ib m.

Definition set_cmd (v : Z) (x : list Z) (c : ctl) : ctl := mk_ctl (count c) (lba0 c) (lba1 c) (lba2 c) (devsel c) v x.

Definition outb (port v : Z) : M ide unit :=
  modify (fun s =>
    let c := ctlr s in
    let v := u8 v in
    set_ctl
      (match port with
       | 0x1f2 => mk_ctl v (lba0 c) (lba1 c) (lba2 c) (devsel c) (cmd c) (xfer c)
       | 0x1f3 => mk_ctl (count c) v (lba1 c) (lba2 c) (devsel c) (cmd c) (xfer c)
       | 0x1f4 => mk_ctl (count c) (lba0 c) v (lba2 c) (devsel c) (cmd c) (xfer c)
       | 0x1f5 => mk_ctl (count c) (lba0 c) (lba1 c) v (devsel c) (cmd c) (xfer c)
       | 0x1f6 => mk_ctl (count c) (lba0 c) (lba1 c) (lba2 c) v (cmd c) (xfer c)
       | 0x1f7 => set_cmd v (xfer c) c
       | _ => c
       end) s).
(** The words of a buffer through the data port. *)
Definition outsl (l : list Z) : M ide unit := modify (fun s => set_ctl (set_cmd (cmd (ctlr s)) l (ctlr s)) s).
Definition insl : M ide (list Z) := gets (fun s => xfer (ctlr s)).

(** [idewait], where [status] is what the reads of the status register give.
    A controller that is not ready at the last of them keeps the loop going. *)
Fixpoint idewait (checkerr : bool) (status : list Z) : option Z :=
  match status with
  | [] => None
  | r :: status =>
      if negb (Z.land r (Z.lor IDE_BSY IDE_DRDY) =? IDE_DRDY) then idewait checkerr status
      else Some (if checkerr && negb (Z.land r (Z.lor IDE_DF IDE_ERR) =? 0) then -1 else 0)
  end.

(** [wait]: what [idewait] reads; [status]: what the loop after it reads. *)
Definition ideinit (wait status : list Z) : M ide unit :=
  let* _ := from_opt (idewait false wait) in
  outb 0x1f6 (Z.lor 0xe0 (Z.shiftl 1 4)) ;;;
  whenM (existsb (fun r => negb (r =? 0)) (take 1000 status))
    (modify (fun s => mk_ide (ib s) (ctlr s) (disk0 s) true)) ;;;
  outb 0x1f6 (Z.lor 0xe0 (Z.shiftl 0 4)).

(** [wait]: what [idewait(0)] reads. *)
Definition idestart (wait : list Z) (p : option nat) : M ide unit :=
  let* i := match p with Some i => ret i | None => panic "idestart" end in
  let* b := inib (buf_at i) in
  if FSSIZE <=? blockno b then panic "incorrect blockno"
  else
    let sector_per_block := Z.of_nat BSIZE / SECTOR_SIZE in
    let sector := i32 (blockno b * sector_per_block) in
    if 7 <? sector_per_block then panic "idestart"
    else
      let* _ := from_opt (idewait false wait) in
      outb 0x3f6 0 ;;;
      outb 0x1f2 sector_per_block ;;;
      outb 0x1f3 (Z.land sector 0xff) ;;;
      outb 0x1f4 (Z.land (Z.shiftr sector 8) 0xff) ;;;
      outb 0x1f5 (Z.land (Z.shiftr sector 16) 0xff) ;;;
      outb 0x1f6 (Z.lor (Z.lor 0xe0 (Z.shiftl (Z.land (dev b) 1) 4)) (Z.land (Z.shiftr sector 24) 0x0f)) ;;;
      if has B_DIRTY b then
        outb 0x1f7 IDE_CMD_WRITE ;;;
        outsl (data b)
      else outb 0x1f7 IDE_CMD_READ.

(** [check]: what [idewait(1)] reads; [wait]: as of [idestart]. *)
Definition ideintr (check wait : list Z) : M ide unit :=
  let* q := gets (fun s => idequeue (ib s)) in
  match q with
  | None => ret tt
  | Some i =>
      let* b := inib (buf_at i) in
      inib (modify (set_idequeue (qnext b))) ;;;
      whenM (negb (has B_DIRTY b))
        (let* r := from_opt (idewait true check) in
         whenM (0 <=? r) (let* l := insl in inib (upd_buf i (set_data l)))) ;;;
      inib (upd_buf i (fun b => set_flags (Z.lor (flags b) B_VALID) b)) ;;;
      inib (upd_buf i (fun b => set_flags (Z.land (flags b) (Z.lnot B_DIRTY)) b)) ;;;
      inib (modify (add_woken (ChBuf i))) ;;;
      let* q := gets (fun s => idequeue (ib s)) in
      match q with
      | Some _ => idestart wait q
      | None => ret tt
      end
  end.

(** The loop of [iderw] to the end of the queue, which is at [j]. *)
Fixpoint queue_end (fuel j : nat) : M ide nat :=
  match fuel with
  | O => fault
  | S fuel =>
      let* b := inib (buf_at j) in
      match qnext b with
      | None => ret j
      | Some k => queue_end fuel k
      end
  end.

(** [iderw] up to the loop that waits; the queue is no longer than the array. *)
Definition iderw_begin (wait : list Z) (i : nat) : M ide unit :=
  let* b := inib (buf_at i) in
  if negb (has B_BUSY b) then panic "iderw: buf not busy"
  else if Z.land (flags b) (Z.lor B_VALID B_DIRTY) =? B_VALID then panic "iderw: nothing to do"
  else
    let* s := get in
    if negb (dev b =? 0) && negb (havedisk1 s) then panic "iderw: ide disk 1 not present"
    else
      inib (upd_buf i (set_qnext None)) ;;;
      match idequeue (ib s) with
      | None => inib (modify (set_idequeue (Some i))) ;;; idestart wait (Some i)
      | Some h =>
          let* j := queue_end (length (bufs (ib s))) h in
          inib (upd_buf j (set_qnext (Some i))) ;;;
          whenM (bool_decide (h = i)) (idestart wait (Some i))
      end.
(** One pass of the loop that waits. *)
Definition iderw_wait (i : nat) : M ide unit :=
  let* b := inib (buf_at i) in
  if negb (Z.land (flags b) (Z.lor B_VALID B_DIRTY) =? B_VALID) then sleep_on (ChBuf i) else ret tt.

(** ** The controller *)

Definition sector_of (c : ctl) : Z := lba0 c + 2 ^ 8 * lba1 c + 2 ^ 16 * lba2 c + 2 ^ 24 * Z.land (devsel c) 15.
Definition drive_of (c : ctl) : Z := Z.land (Z.shiftr (devsel c) 4) 1.

(** The end of a command: the words written are on the disk, or those of the
    sector are ready to be read. *)
Definition disk_done (s : ide) : ide :=
  let c := ctlr s in
  let n := sector_of c in
  if cmd c =? IDE_CMD_WRITE then
    if drive_of c =? 1 then set_ctl (set_cmd 0 (xfer c) c) (set_ib (disk_write n (xfer c) (ib s)) s)
    else mk_ide (ib s) (set_cmd 0 (xfer c) c) (<[n := xfer c]> (disk0 s)) (havedisk1 s)
  else if cmd c =? IDE_CMD_READ then
    set_ctl (set_cmd 0 (disk_read (if drive_of c =? 1 then dsk (ib s) else disk0 s) n) c) s
  else s.

(** The reads of the status register by a driver that waits: the controller
    becomes ready; after a transfer it is ready without, or with, an error. *)
Definition ready (wait : list Z) : Prop := is_Some (idewait false wait).
Definition good (check : list Z) : Prop := idewait true check = Some 0.
Definition bad (check : list Z) : Prop := idewait true check = Some (-1).

(** The end of a transfer that the controller has carried out, and its interrupt. *)
Definition transfer (check wait : list Z) : M ide unit := modify disk_done ;;; ideintr check wait.
(** A transfer that fails: the controller has done nothing. *)
Definition failed_transfer (check wait : list Z) : M ide unit := ideintr check wait.

(** ** The queue *)

(** The pointers from [h] on are those of the queue [q]. *)
Fixpoint links (bs : list buf) (h : option nat) (q : list nat) : Prop :=
  match q with
  | [] => h = None
  | i :: q' => h = Some i /\ exists b, bs !! i = Some b /\ links bs (qnext b) q'
  end.

(** A request: a buffer of the file system's disk, busy and not in step with it. *)
Definition wanted (b : buf) : Prop :=
  has B_BUSY b = true /\ has B_VALID b && negb (has B_DIRTY b) = false /\ dev b = ROOTDEV /\ on_disk (blockno b).

(** The registers hold the command for the buffer. *)
Definition active (c : ctl) (b : buf) : Prop :=
  sector_of c = blockno b /\ drive_of c = 1 /\
  if has B_DIRTY b then cmd c = IDE_CMD_WRITE /\ xfer c = data b else cmd c = IDE_CMD_READ.

Record ide_inv (s : ide) (q : list nat) : Prop := {
  ii_links : links (bufs (ib s)) (idequeue (ib s)) q;
  ii_nodup : NoDup q;
  ii_wanted : forall i, i ∈ q -> exists b, bufs (ib s) !! i = Some b /\ wanted b;
  ii_active : forall i b, head q = Some i -> bufs (ib s) !! i = Some b -> active (ctlr s) b;
  ii_disk1 : havedisk1 s = true
}.

Lemma links_insert_out bs h q j x : links bs h q -> j ∉ q -> links (<[j := x]> bs) h q.
Proof.
  revert h. induction q as [|i q IH]; intros h; [done|]. intros (-> & b & Hb & Hl) [Hne Hj]%not_elem_of_cons.
  split; [done|]. exists b. rewrite list_lookup_insert_ne by done. auto.
Qed.

Lemma links_insert_same bs h q j b b' : links bs h q -> bs !! j = Some b -> qnext b' = qnext b -> links (<[j := b']> bs) h q.
Proof.
  revert h. induction q as [|i q IH]; intros h; [done|]. intros (-> & c & Hc & Hl) Hj Hq. split; [done|].
  destruct (decide (i = j)) as [->|Hne].
  - rewrite Hc in Hj. injection Hj as ->. exists b'. rewrite list_lookup_insert_eq by (by eapply lookup_lt_Some).
    rewrite Hq. auto.
  - exists c. rewrite list_lookup_insert_ne by done. auto.
Qed.

Lemma links_snoc bs h q j i bj bi : links bs h (q ++ [j]) -> NoDup (q ++ [j]) -> bs !! j = Some bj -> bs !! i = Some bi ->
  qnext bi = None -> i ∉ q ++ [j] -> links (<[j := set_qnext (Some i) bj]> bs) h ((q ++ [j]) ++ [i]).
Proof.
  revert h. induction q as [|k q IH]; intros h; cbn [app].
  - intros (-> & b & Hb & _) _ Hj Hi Hn Hij. split; [done|]. eexists.
    rewrite list_lookup_insert_eq by (by eapply lookup_lt_Some). split; [reflexivity|]. split; [done|].
    exists bi. rewrite list_lookup_insert_ne by (intros ->; apply Hij; by left). by rewrite Hn.
  - intros (-> & b & Hb & Hl) [Hk ND]%NoDup_cons Hj Hi Hn [_ Hij]%not_elem_of_cons. split; [done|].
    exists b. rewrite list_lookup_insert_ne by (intros ->; apply Hk, elem_of_app; right; by left). split; [done|]. auto.
Qed.

Lemma queue_end_run fuel s h q j : links (bufs (ib s)) (Some h) (q ++ [j]) -> (length q < fuel)%nat ->
  queue_end fuel h s = Ret s j.
Proof.
  assert (forall i b, bufs (ib s) !! i = Some b -> inib (buf_at i) s = Ret s b) as Hat.
  { intros i b Hb. unfold inib, zoom. rewrite (buf_at_ret _ _ _ Hb). by destruct s. }
  revert fuel h. induction q as [|i q IH]; intros fuel h; cbn [app links]; (destruct fuel as [|fuel]; [cbn; lia|]); cbn [queue_end].
  - intros ([= ->] & b & Hb & Hn) _. mrun (Hat _ _ Hb). by rewrite Hn.
  - intros ([= ->] & b & Hb & Hl) Hf. mrun (Hat _ _ Hb). destruct (qnext b) as [k|]; [|by destruct q; destruct Hl].
    apply IH; [done|cbn in Hf; lia].
Qed.

Lemma queue_short (q : list nat) n : NoDup q -> (forall i, i ∈ q -> (i < n)%nat) -> (length q <= n)%nat.
Proof.
  intros ND H. rewrite <- (length_seq n 0). apply submseteq_length, NoDup_submseteq; [done|].
  intros i Hi. apply elem_of_seq. specialize (H i Hi). lia.
Qed.

(** ** Running the driver *)

Lemma inib_ret {A} (m : M bio_state A) s b a : m (ib s) = Ret b a -> inib m s = Ret (set_ib b s) a.
Proof. intros R. unfold inib, zoom. by rewrite R. Qed.

Lemma ide_buf_at s i b : bufs (ib s) !! i = Some b -> inib (buf_at i) s = Ret s b.
Proof. intros Hb. erewrite inib_ret by (by apply buf_at_ret). by destruct s. Qed.

Lemma ide_upd s i f b : bufs (ib s) !! i = Some b ->
  inib (upd_buf i f) s = Ret (set_ib (upd_bufs <[i := f b]> (ib s)) s) tt.
Proof. intros Hb. apply inib_ret. by apply upd_buf_ret. Qed.

Lemma bits_sector n : 0 <= n < 2 ^ 28 ->
  u8 (Z.land n 0xff) + 2 ^ 8 * u8 (Z.land (Z.shiftr n 8) 0xff) + 2 ^ 16 * u8 (Z.land (Z.shiftr n 16) 0xff) +
    2 ^ 24 * Z.land (Z.shiftr n 24) 15 = n.
Proof.
  intros Hn. unfold u8. change 0xff with (Z.ones 8). change 15 with (Z.ones 4). rewrite !Z.land_ones, !Z.shiftr_div_pow2 by lia.
  rewrite !Z.mod_mod by lia. rewrite (Z.mod_small (n / 2 ^ 24)) by (split; [apply Z.div_pos; lia|apply Z.div_lt_upper_bound; lia]).
  assert (n / 2 ^ 8 / 2 ^ 8 = n / 2 ^ 16) as E1 by (by rewrite Z.div_div by lia).
  assert (n / 2 ^ 16 / 2 ^ 8 = n / 2 ^ 24) as E2 by (by rewrite Z.div_div by lia).
  pose proof (Z.div_mod n (2 ^ 8) ltac:(lia)) as D0. pose proof (Z.div_mod (n / 2 ^ 8) (2 ^ 8) ltac:(lia)) as D1.
  pose proof (Z.div_mod (n / 2 ^ 16) (2 ^ 8) ltac:(lia)) as D2. rewrite E1 in D1. rewrite E2 in D2. clear E1 E2. lia.
Qed.

Lemma drive_bits n : 0 <= n < 16 ->
  let d := u8 (Z.lor (Z.lor 0xe0 (Z.shiftl (Z.land ROOTDEV 1) 4)) n) in Z.land d 15 = n /\ Z.land (Z.shiftr d 4) 1 = 1.
Proof.
  intros Hn. assert (Forall (fun n => let d := u8 (Z.lor (Z.lor 0xe0 (Z.shiftl (Z.land ROOTDEV 1) 4)) n) in
    Z.land d 15 = n /\ Z.land (Z.shiftr d 4) 1 = 1) (seqZ 0 16)) as H by (by repeat constructor).
  rewrite Forall_forall in H. apply H, elem_of_seqZ. lia.
Qed.

(** Flags as the interrupt sets them: VALID first. *)
Lemma done_flags_swap f : Z.land (Z.lor f B_VALID) (Z.lnot B_DIRTY) = done_flags f.
Proof. unfold done_flags. by rewrite Z.land_lor_distr_l. Qed.

Lemma idestart_run wait s i b : ready wait -> bufs (ib s) !! i = Some b -> wanted b ->
  exists c, idestart wait (Some i) s = Ret (set_ctl c s) tt /\ active c b.
Proof.
  intros [w Hw] Hb (_ & _ & Hdev & Hn). unfold idestart. rewrite ret_bind. mrun (ide_buf_at _ _ _ Hb).
  unfold on_disk, FSSIZE in *. rewrite (proj2 (Z.leb_gt _ _)) by lia.
  change (Z.of_nat BSIZE / SECTOR_SIZE) with 1. change (7 <? 1) with false. cbn [negb].
  rewrite Z.mul_1_r, (i32_small (blockno b)) by lia. rewrite Hdev, Hw, from_opt_bind.
  destruct (drive_bits (Z.land (Z.shiftr (blockno b) 24) 15)) as [L D].
  { change 15 with (Z.ones 4). rewrite Z.land_ones by lia. apply Z.mod_pos_bound. lia. }
  destruct (has B_DIRTY b) eqn:E.
  all: eexists; split; [unfold bind, outb, outsl, modify; cbn -[u8 Z.land Z.lor Z.shiftl Z.shiftr]; reflexivity|].
  all: unfold active, sector_of, drive_of; rewrite E; cbn -[u8 Z.land Z.lor Z.shiftl Z.shiftr Z.pow Z.mul]; cbn in L, D.
  all: rewrite ?L, ?D; split; [apply (bits_sector (blockno b)); lia|done].
Qed.

(** What the transfer of a buffer leaves in it and on the disk. *)
Definition synced (d : gmap Z block) (b : buf) : buf :=
  set_flags (done_flags (flags b)) (if has B_DIRTY b then b else set_data (disk_read d (blockno b)) b).
Definition written (b : buf) : list (Z * block) := if has B_DIRTY b then [(blockno b, data b)] else [].

Lemma set_ib_id s : set_ib (ib s) s = s.
Proof. by destruct s. Qed.

Lemma ideintr_run check wait s i b r : idewait true check = Some r -> idequeue (ib s) = Some i -> bufs (ib s) !! i = Some b ->
  ideintr check wait s =
  let b' := set_flags (done_flags (flags b)) (if has B_DIRTY b || (r <? 0) then b else set_data (xfer (ctlr s)) b) in
  let s' := set_ib (mk_bio (<[i := b']> (bufs (ib s))) (qnext b) (dsk (ib s)) (trace (ib s)) (woken (ib s) ++ [ChBuf i])) s in
  match qnext b with Some j => idestart wait (Some j) s' | None => Ret s' tt end.
Proof.
  intros Hr Hq Hb. pose proof (lookup_lt_Some _ _ _ Hb) as Hlt. unfold ideintr. rewrite gets_bind, Hq. mrun (ide_buf_at _ _ _ Hb).
  mrun (inib_ret (modify (set_idequeue (qnext b))) s _ _ eq_refl). rewrite Hr.
  assert (forall s1 b1, bufs (ib s1) !! i = Some b1 -> forall k : M ide unit,
    (inib (upd_buf i (fun b => set_flags (Z.lor (flags b) B_VALID) b)) ;;;
     inib (upd_buf i (fun b => set_flags (Z.land (flags b) (Z.lnot B_DIRTY)) b)) ;;;
     inib (modify (add_woken (ChBuf i))) ;;; k) s1 =
    k (set_ib (mk_bio (<[i := set_flags (done_flags (flags b1)) b1]> (bufs (ib s1))) (idequeue (ib s1)) (dsk (ib s1)) (trace (ib s1))
         (woken (ib s1) ++ [ChBuf i])) s1)) as H.
  { intros s1 b1 H1 k. pose proof (lookup_lt_Some _ _ _ H1). mrun (ide_upd _ _ (fun b => set_flags (Z.lor (flags b) B_VALID) b) _ H1).
    erewrite bind_ret by (apply ide_upd; cbn; by apply list_lookup_insert_eq).
    erewrite bind_ret by (by apply inib_ret). unfold set_ib, upd_bufs, add_woken, set_woken. cbn.
    rewrite list_insert_insert_eq. unfold set_flags. cbn. by rewrite done_flags_swap. }
  destruct (has B_DIRTY b); [|destruct (Z.ltb_spec r 0)]; cbn [negb orb whenM].
  - rewrite ret_bind. rewrite (H _ b) by done. cbn. by destruct (qnext b).
  - erewrite bind_ret by (rewrite from_opt_bind, (proj2 (Z.leb_gt 0 r)) by done; reflexivity). rewrite (H _ b) by done. cbn. by destruct (qnext b).
  - erewrite bind_ret by (rewrite from_opt_bind, (proj2 (Z.leb_le 0 r)) by done; by refine (ide_upd _ i (set_data (xfer (ctlr s))) b _)).
    rewrite (H _ (set_data (xfer (ctlr s)) b)) by (cbn; by apply list_lookup_insert_eq).
    unfold set_ib, upd_bufs. cbn. rewrite list_insert_insert_eq. by destruct (qnext b).
Qed.

(** The controller carries out the command of the first request. *)
Lemma disk_done_run s b : active (ctlr s) b -> exists c,
  disk_done s = mk_ide (mk_bio (bufs (ib s)) (idequeue (ib s)) (apply_writes (dsk (ib s)) (written b))
                          (trace (ib s) ++ written b) (woken (ib s))) c (disk0 s) (havedisk1 s) /\
  (has B_DIRTY b = false -> xfer c = disk_read (dsk (ib s)) (blockno b)).
Proof.
  intros (Hn & Hd & Hc). unfold disk_done, written. rewrite Hn, Hd. destruct (has B_DIRTY b).
  - destruct Hc as [-> ->]. by eexists.
  - rewrite Hc, app_nil_r. exists (set_cmd 0 (disk_read (dsk (ib s)) (blockno b)) (ctlr s)). by destruct s as [[] ? ? ?].
Qed.

Lemma ide_inv_finish s q s' i b b' c : ide_inv s (i :: q) -> bufs (ib s) !! i = Some b -> qnext b' = qnext b ->
  bufs (ib s') = <[i := b']> (bufs (ib s)) -> idequeue (ib s') = qnext b -> havedisk1 s' = true ->
  (forall j bj, head q = Some j -> bufs (ib s) !! j = Some bj -> active c bj) -> ide_inv (set_ctl c s') q.
Proof.
  intros I Hb Hq Hbs Hiq H1 Hc. destruct (ii_links _ _ I) as (_ & b0 & Hb0 & Hl). rewrite Hb in Hb0. injection Hb0 as <-.
  pose proof (ii_nodup _ _ I) as [Hni ND]%NoDup_cons.
  assert (forall j, j ∈ q -> bufs (ib s') !! j = bufs (ib s) !! j) as Hout.
  { intros j Hj. rewrite Hbs. apply list_lookup_insert_ne. by intros ->. }
  split; cbn; [|done| | |done].
  - rewrite Hbs, Hiq. by apply links_insert_out.
  - intros j Hj. rewrite Hout by done. apply (ii_wanted _ _ I). by right.
  - intros j bj Hh. rewrite Hout by (destruct q; [done|]; injection Hh as ->; by left). by apply Hc.
Qed.

(** The transfer of the first request: the buffer and the disk are in step,
    its sleepers are awake and the next request is under way. *)
Lemma transfer_run check wait s i q : good check -> ready wait -> ide_inv s (i :: q) -> exists s' b,
  bufs (ib s) !! i = Some b /\ wanted b /\ transfer check wait s = Ret s' tt /\ ide_inv s' q /\
  bufs (ib s') = <[i := synced (dsk (ib s)) b]> (bufs (ib s)) /\
  dsk (ib s') = apply_writes (dsk (ib s)) (written b) /\ trace (ib s') = trace (ib s) ++ written b /\
  woken (ib s') = woken (ib s) ++ [ChBuf i].
Proof.
  intros Hgood Hready I. destruct (ii_wanted _ _ I i) as (b & Hb & W); [by left|].
  destruct (disk_done_run s b) as (c & Hdd & Hx); [by apply (ii_active _ _ I i)|].
  destruct (ii_links _ _ I) as (Hiq & b0 & Hb0 & Hl). rewrite Hb in Hb0. injection Hb0 as <-.
  unfold transfer. rewrite modify_bind, Hdd. erewrite (ideintr_run check wait) by done. change (0 <? 0) with false. cbn [ctlr ib bufs dsk trace woken]. rewrite orb_false_r.
  assert (set_flags (done_flags (flags b)) (if has B_DIRTY b then b else set_data (xfer c) b) = synced (dsk (ib s)) b) as ->.
  { unfold synced. destruct (has B_DIRTY b) eqn:E; [done|]. by rewrite Hx. }
  set (s1 := set_ib _ _). cbn zeta.
  assert (forall c, (forall j bj, head q = Some j -> bufs (ib s) !! j = Some bj -> active c bj) -> ide_inv (set_ctl c s1) q) as Hf.
  { intros c' Hc. apply (ide_inv_finish s q s1 i b (synced (dsk (ib s)) b)); try done; [|by apply (ii_disk1 _ _ I)].
    unfold synced. by destruct (has B_DIRTY b). }
  destruct q as [|j q]; cbn in Hl.
  - rewrite Hl. exists s1, b. do 3 (split; [done|]). split; [|done]. apply (Hf c). done.
  - destruct Hl as (-> & bj & Hbj & _). pose proof (ii_nodup _ _ I) as [Hni _]%NoDup_cons.
    destruct (ii_wanted _ _ I j) as (bj' & Hbj' & Wj); [right; by left|]. rewrite Hbj in Hbj'. injection Hbj' as <-.
    destruct (idestart_run wait s1 j bj Hready) as (c' & Hs & Ha); [|done|].
    { cbn. rewrite list_lookup_insert_ne; [done|]. intros ->. apply Hni. by left. }
    exists (set_ctl c' s1), b. do 3 (split; [done|]). split; [|done]. apply Hf. intros k bk [= <-]. by rewrite Hbj; intros [= <-].
Qed.

(** Buffers up to the links of the queue, which only the driver reads. *)
Definition erase (bs : list buf) : list buf := set_qnext None <$> bs.

Lemma erase_insert bs j b x : bs !! j = Some b -> erase (<[j := set_qnext x b]> bs) = erase bs.
Proof.
  intros Hb. unfold erase. rewrite list_fmap_insert. apply list_insert_id. by rewrite list_lookup_fmap, Hb.
Qed.

Lemma erase_lookup bs bs' j b : erase bs = erase bs' -> bs !! j = Some b ->
  exists b', bs' !! j = Some b' /\ set_qnext None b = set_qnext None b'.
Proof.
  intros He Hb. assert (erase bs' !! j = Some (set_qnext None b)) as H by (by rewrite <- He; unfold erase; rewrite list_lookup_fmap, Hb).
  unfold erase in H. rewrite list_lookup_fmap in H. destruct (bs' !! j) as [b'|]; [|done]. apply (inj Some) in H. by exists b'.
Qed.

Lemma wanted_erase b b' : set_qnext None b = set_qnext None b' -> wanted b -> wanted b'.
Proof. intros H W. change (wanted (set_qnext None b')). by rewrite <- H. Qed.
Lemma active_erase c b b' : set_qnext None b = set_qnext None b' -> active c b -> active c b'.
Proof. intros H W. change (active c (set_qnext None b')). by rewrite <- H. Qed.

(** The queue after a change of links. *)
Lemma ide_inv_relink s q s' q' : ide_inv s q -> erase (bufs (ib s)) = erase (bufs (ib s')) ->
  links (bufs (ib s')) (idequeue (ib s')) q' -> NoDup q' -> havedisk1 s' = true ->
  (forall j, j ∈ q' -> j ∈ q \/ exists b, bufs (ib s') !! j = Some b /\ wanted b) ->
  (forall j b, head q' = Some j -> bufs (ib s') !! j = Some b -> active (ctlr s') b) -> ide_inv s' q'.
Proof.
  intros I He Hl ND H1 Hq Ha. split; try done. intros j [Hj|Hj]%Hq; [|done].
  destruct (ii_wanted _ _ I j Hj) as (b & Hb & W). destruct (erase_lookup _ _ _ _ He Hb) as (b' & Hb' & E).
  exists b'. split; [done|]. by eapply wanted_erase.
Qed.

Lemma links_head bs h q j : links bs h (q ++ [j]) -> exists k, h = Some k /\ k ∈ q ++ [j].
Proof. destruct q as [|k q]; cbn; intros (-> & _); eexists; split; try done; by left. Qed.

(** The checks that open [iderw]; then the buffer ends a queue. *)
Lemma iderw_begin_checks wait s i b : bufs (ib s) !! i = Some b -> wanted b -> havedisk1 s = true ->
  iderw_begin wait i s =
  let s1 := set_ib (upd_bufs <[i := set_qnext None b]> (ib s)) s in
  match idequeue (ib s) with
  | None => (inib (modify (set_idequeue (Some i))) ;;; idestart wait (Some i)) s1
  | Some h => (let* j := queue_end (length (bufs (ib s))) h in
               inib (upd_buf j (set_qnext (Some i))) ;;; whenM (bool_decide (h = i)) (idestart wait (Some i))) s1
  end.
Proof.
  intros Hb (Hbusy & Hvd & Hdev & Hn) H1. unfold iderw_begin. mrun (ide_buf_at _ _ _ Hb).
  rewrite Hbusy, valid_dirty_test. fold (has B_VALID b) (has B_DIRTY b). rewrite Hvd. cbn [negb].
  mrun (eq_refl (get s)). rewrite H1, andb_false_r. mrun (ide_upd _ _ (set_qnext None) _ Hb). by destruct (idequeue (ib s)).
Qed.

(** On an idle disk the request is started. *)
Lemma iderw_begin_idle wait s i b : ready wait -> ide_inv s [] -> bufs (ib s) !! i = Some b -> wanted b -> exists c,
  let s' := mk_ide (mk_bio (<[i := set_qnext None b]> (bufs (ib s))) (Some i) (dsk (ib s)) (trace (ib s)) (woken (ib s)))
              c (disk0 s) (havedisk1 s) in
  iderw_begin wait i s = Ret s' tt /\ ide_inv s' [i].
Proof.
  intros Hready I Hb W. pose proof (lookup_lt_Some _ _ _ Hb) as Hlt. rewrite (iderw_begin_checks wait s i b) by (try done; apply I).
  rewrite (ii_links _ _ I). cbn zeta. erewrite bind_ret by (by apply inib_ret). set (s1 := set_ib _ _).
  assert (bufs (ib s1) !! i = Some (set_qnext None b)) as H1 by (by apply list_lookup_insert_eq).
  destruct (idestart_run wait s1 i (set_qnext None b) Hready H1) as (c & Hs & Ha); [done|].
  exists c. split; [exact Hs|]. apply (ide_inv_relink s []); try done; [symmetry; by apply erase_insert| |by apply NoDup_singleton|apply I| |].
  - split; [done|]. by exists (set_qnext None b).
  - intros k ->%list_elem_of_singleton. right. by exists (set_qnext None b).
  - intros k bk [= <-]. cbn. cbn in H1. rewrite H1. by intros [= <-].
Qed.

(** A request joins the end of the queue. *)
Lemma iderw_begin_run wait s q i b : ready wait -> ide_inv s q -> bufs (ib s) !! i = Some b -> wanted b -> i ∉ q -> exists s',
  iderw_begin wait i s = Ret s' tt /\ ide_inv s' (q ++ [i]) /\ erase (bufs (ib s')) = erase (bufs (ib s)) /\
  dsk (ib s') = dsk (ib s) /\ trace (ib s') = trace (ib s) /\ woken (ib s') = woken (ib s).
Proof.
  intros Hready I Hb W Hi. destruct q as [|j q _] using rev_ind.
  - destruct (iderw_begin_idle wait s i b Hready I Hb W) as (c & R & I'). eexists. split; [exact R|]. split; [exact I'|]. split; [by apply erase_insert|done].
  - rewrite (iderw_begin_checks wait s i b) by (try done; apply I). cbn zeta.
    set (s1 := set_ib _ _). assert (erase (bufs (ib s1)) = erase (bufs (ib s))) as E1 by (by apply erase_insert).
    assert (bufs (ib s1) !! i = Some (set_qnext None b)) as H1 by (by eapply list_lookup_insert_eq, lookup_lt_Some).
    assert (links (bufs (ib s1)) (idequeue (ib s)) (q ++ [j])) as L1 by (apply links_insert_out; [apply I|done]).
    destruct (links_head _ _ _ _ L1) as (h & Hh & Hhq). rewrite Hh in *.
    assert (length (q ++ [j]) <= length (bufs (ib s)))%nat as Hlen.
    { apply queue_short; [apply I|]. intros k Hk. destruct (ii_wanted _ _ I k Hk) as (? & ? & _). by eapply lookup_lt_Some. }
    rewrite length_app in Hlen. cbn in Hlen. mrun (queue_end_run (length (bufs (ib s))) _ _ _ _ L1 ltac:(lia)).
    destruct (ii_wanted _ _ I j) as (bj & Hbj & _); [apply elem_of_app; right; by left|].
    assert (bufs (ib s1) !! j = Some bj) as Hj1.
    { cbn. rewrite list_lookup_insert_ne; [done|]. intros ->. apply Hi, elem_of_app. right. by left. }
    mrun (ide_upd _ _ (set_qnext (Some i)) _ Hj1). rewrite bool_decide_eq_false_2 by (by intros ->). eexists. split; [reflexivity|].
    assert (erase (bufs (ib s)) = erase (<[j := set_qnext (Some i) bj]> (bufs (ib s1)))) as E2 by (by rewrite erase_insert).
    split; [|done]. apply (ide_inv_relink s (q ++ [j])); try done.
    + cbn. rewrite Hh. eapply links_snoc; try done. apply I.
    + apply NoDup_app. split; [apply I|]. split; [by intros k Hk ->%list_elem_of_singleton|apply NoDup_singleton].
    + apply I.
    + intros k [Hk | ->%list_elem_of_singleton]%elem_of_app; [by left|right].
      destruct (erase_lookup _ _ i b E2 Hb) as (b' & ? & ?). exists b'. split; [done|]. by eapply wanted_erase.
    + intros k bk Hk Hbk. destruct (erase_lookup _ _ k bk (eq_sym E2) Hbk) as (b' & Hb' & E'). eapply active_erase; [symmetry; exact E'|].
      apply (ii_active _ _ I k); [|done]. destruct q; exact Hk.
Qed.

(** ** First in, first out *)

(** The in-memory driver does the transfer of a request in one step. *)
Lemma memide_run v i b : bufs v !! i = Some b -> wanted b -> exists v', Memide.iderw FSSIZE i v = Ret v' tt /\
  erase (bufs v') = erase (<[i := synced (dsk v) b]> (bufs v)) /\
  dsk v' = apply_writes (dsk v) (written b) /\ trace v' = trace v ++ written b.
Proof.
  intros Hb (Hbusy & Hvd & Hdev & Hn). unfold synced, written. destruct (has B_DIRTY b) eqn:E.
  - destruct (Memide.iderw_write_ok FSSIZE v i b) as (v' & x & R & _ & Hbs & Hd & Ht); try done;
      [by rewrite Hbusy|by rewrite E|]. exists v'. split; [done|]. rewrite Hbs, Hd, Ht. split; [|done].
    unfold erase. by rewrite !list_fmap_insert.
  - destruct (Memide.iderw_read_ok FSSIZE v i b) as (v' & x & R & _ & Hbs & Hd & Ht); try done;
      [by rewrite Hbusy|by destruct (has B_VALID b)|]. exists v'. split; [done|]. rewrite Hbs, Hd, Ht, app_nil_r. split; [|done].
    unfold erase. by rewrite !list_fmap_insert.
Qed.

(** Requests, transfers and the interrupts of an idle controller, in any
    order, and beside them what the in-memory driver does with the same
    requests in the order they were made.  A buffer that is not queued may
    change at any time: it is its owner's. *)
Inductive ide_run : list nat -> ide -> bio_state -> Prop :=
  | run_boot bs d d0 : ide_run [] (mk_ide (mk_bio bs None d [] []) idle d0 true) (mk_bio bs None d [] [])
  | run_request wait q s v i b s' : ide_run q s v -> ready wait -> i ∉ q -> bufs (ib s) !! i = Some b -> wanted b ->
      iderw_begin wait i s = Ret s' tt -> ide_run (q ++ [i]) s' v
  | run_transfer check wait q s v i s' v' : ide_run (i :: q) s v -> good check -> ready wait ->
      transfer check wait s = Ret s' tt -> Memide.iderw FSSIZE i v = Ret v' tt -> ide_run q s' v'
  | run_interrupt check wait s v s' : ide_run [] s v -> ideintr check wait s = Ret s' tt -> ide_run [] s' v
  | run_owner q s v j b : ide_run q s v -> j ∉ q ->
      ide_run q (set_ib (upd_bufs <[j := b]> (ib s)) s) (upd_bufs <[j := b]> v).

(** The two drivers have the same buffers, the same disk and the same writes in the same order. *)
Definition agree (s : ide) (v : bio_state) : Prop :=
  erase (bufs (ib s)) = erase (bufs v) /\ dsk (ib s) = dsk v /\ trace (ib s) = trace v.

(** Both drivers serve the first request, and stay in agreement. *)
Lemma transfer_agree check wait s v i q : good check -> ready wait -> ide_inv s (i :: q) -> agree s v -> exists s' v',
  transfer check wait s = Ret s' tt /\ Memide.iderw FSSIZE i v = Ret v' tt /\ ide_inv s' q /\ agree s' v' /\
  ChBuf i ∈ woken (ib s') /\ iderw_wait i s' = Ret s' tt.
Proof.
  intros Hgood Hready I (He & Hd & Ht). destruct (transfer_run check wait s i q Hgood Hready I) as (s' & b & Hb & W & R & I' & Hbs & Hds & Hts & Hw).
  destruct (erase_lookup _ _ _ _ He Hb) as (b' & Hb' & E).
  destruct (memide_run v i b') as (v' & R' & Hbs' & Hds' & Hts'); [done|by eapply wanted_erase|].
  assert (written b = written b') as Ew by (change (written (set_qnext None b) = written (set_qnext None b')); by rewrite E).
  assert (set_qnext None (synced (dsk (ib s)) b) = set_qnext None (synced (dsk v) b')) as Es.
  { transitivity (synced (dsk (ib s)) (set_qnext None b)); [unfold synced; by destruct b; destruct (has _ _)|].
    rewrite E, Hd. unfold synced. by destruct b'; destruct (has _ _). }
  exists s', v'. do 3 (split; [done|]). split; [|split].
  - split; [|by rewrite Hds, Hds', Hts, Hts', Ew, Hd, Ht]. rewrite Hbs', Hbs. unfold erase in *. by rewrite !list_fmap_insert, He, Es.
  - rewrite Hw. apply elem_of_app. right. by left.
  - unfold iderw_wait. erewrite bind_ret by (apply ide_buf_at; rewrite Hbs; by eapply list_lookup_insert_eq, lookup_lt_Some).
    unfold synced. rewrite valid_dirty_test. cbn [flags set_flags]. by rewrite valid_done, dirty_done.
Qed.

Lemma ide_run_inv q s v : ide_run q s v -> ide_inv s q /\ agree s v.
Proof.
  induction 1 as [bs d d0|wait q s v i b s' _ [I A] Hw Hi Hb W R|check wait q s v i s' v' _ [I A] Hc Hw R R'|check wait s v s' _ [I A] R|q s v j b _ [I A] Hj].
  - split; [|done]. split; try done; [constructor|by intros i ?%elem_of_nil].
  - destruct (iderw_begin_run wait s q i b Hw I Hb W Hi) as (s1 & R1 & I' & He & Hd & Ht & _). rewrite R in R1. injection R1 as <-.
    split; [done|]. unfold agree. by rewrite He, Hd, Ht.
  - destruct (transfer_agree check wait s v i q Hc Hw I A) as (s1 & v1 & R1 & R2 & I' & A' & _). rewrite R in R1. rewrite R' in R2.
    injection R1 as <-. injection R2 as <-. done.
  - unfold ideintr in R. rewrite gets_bind, (ii_links _ _ I) in R. by injection R as <-.
  - destruct A as (He & Hd & Ht). split.
    + assert (forall i, i ∈ q -> <[j := b]> (bufs (ib s)) !! i = bufs (ib s) !! i) as Ho.
      { intros i Hi. apply list_lookup_insert_ne. by intros ->. }
      split; cbn; [by apply links_insert_out; [apply I|]|apply I| | |apply I].
      * intros i Hi. rewrite Ho by done. by apply I.
      * intros i bi Hh. rewrite Ho by (destruct q; [done|]; injection Hh as ->; by left). by apply I.
    + split; [|done]. cbn. unfold erase in *. by rewrite !list_fmap_insert, He.
Qed.

Lemma queued_sleeps s q i : ide_inv s q -> i ∈ q -> iderw_wait i s = Sleep (ChBuf i) s.
Proof.
  intros I Hi. destruct (ii_wanted _ _ I i Hi) as (b & Hb & (_ & Hv & _)). unfold iderw_wait. mrun (ide_buf_at _ _ _ Hb).
  rewrite valid_dirty_test. fold (has B_VALID b) (has B_DIRTY b). by rewrite Hv.
Qed.

(** C27: whatever the order of requests and interrupts, the driver agrees with
    one that serves each request at once, in the order in which they were
    made: same buffers, same disk, same writes in the same order.  A process
    whose buffer is queued sleeps on it; a new request is never refused; and
    while a request is queued the next interrupt finishes the oldest one,
    after which its process is awake and returns.  The transfers are those
    that the controller carries out, becoming ready in a finite number of
    reads of its status. *)
Theorem ide_serves_in_order q s v : ide_run q s v ->
  agree s v /\ idequeue (ib s) = head q /\
  (forall i, i ∈ q -> iderw_wait i s = Sleep (ChBuf i) s) /\
  (forall wait i b, ready wait -> i ∉ q -> bufs (ib s) !! i = Some b -> wanted b -> exists s', iderw_begin wait i s = Ret s' tt) /\
  (forall check wait i q', good check -> ready wait -> q = i :: q' -> exists s' v', transfer check wait s = Ret s' tt /\ Memide.iderw FSSIZE i v = Ret v' tt /\
     ChBuf i ∈ woken (ib s') /\ iderw_wait i s' = Ret s' tt).
Proof.
  intros [I A]%ide_run_inv. split; [done|]. split; [|split; [|split]].
  - pose proof (ii_links _ _ I) as L. destruct q; [done|apply L].
  - intros i. by apply queued_sleeps.
  - intros wait i b Hw Hi Hb W. destruct (iderw_begin_run wait s q i b Hw I Hb W Hi) as (s' & R & _). by exists s'.
  - intros check wait i q' Hc Hw ->. destruct (transfer_agree check wait s v i q' Hc Hw I A) as (s' & v' & R & R' & _ & _ & Hwk & Hr). by exists s', v'.
Qed.

(** Two requests, a write of block 2 and a read of block 2, and one transfer. *)
Definition ex_bufs : list buf :=
  [mk_buf 5 1 2 0 0 None (replicate 512 7); mk_buf 1 1 2 0 0 None (replicate 512 0)].
Definition ex_ide : ide := mk_ide (mk_bio ex_bufs None ∅ [] []) idle ∅ true.
(** A controller that is busy at the first read, and ready at the second. *)
Definition ex_status : list Z := [0x80; 0x40].
Definition after {A} (m : M ide A) (s : ide) : ide := match m s with Ret s' _ => s' | _ => s end.

Lemma ide_serves_in_order_witness :
  (data <$> bufs (ib (after (iderw_begin ex_status 0 ;;; iderw_begin ex_status 1 ;;; transfer ex_status ex_status ;;; transfer ex_status ex_status) ex_ide)) !! 1%nat)
    = Some (replicate 512 7) /\
  let s := after (iderw_begin ex_status 0 ;;; iderw_begin ex_status 1) ex_ide in
  agree s (ib ex_ide) /\ idequeue (ib s) = Some 0%nat.
Proof.
  split; [vm_compute; reflexivity|].
  assert (ide_run [0; 1]%nat (after (iderw_begin ex_status 0 ;;; iderw_begin ex_status 1) ex_ide) (ib ex_ide)) as R.
  { eapply (run_request ex_status [0%nat] (after (iderw_begin ex_status 0) ex_ide)).
    - eapply (run_request ex_status [] ex_ide); [apply run_boot|by eexists|apply not_elem_of_nil|reflexivity| |vm_compute; reflexivity].
      by vm_compute.
    - by eexists.
    - by intros ?%list_elem_of_singleton.
    - vm_compute; reflexivity.
    - by vm_compute.
    - vm_compute; reflexivity. }
  destruct (ide_serves_in_order _ _ _ R) as (A & Hq & _). split; [exact A|exact Hq].
Defined.

(** A transfer that fails is not reported: a buffer whose read failed is
    marked valid with the data it had, and one whose write failed is marked
    clean while the disk has not changed; the process returns as if it had
    been served. *)
Theorem failed_transfer_unreported check wait s i q b : bad check -> ready wait ->
  ide_inv s (i :: q) -> bufs (ib s) !! i = Some b -> exists s' b',
  failed_transfer check wait s = Ret s' tt /\ bufs (ib s') !! i = Some b' /\ iderw_wait i s' = Ret s' tt /\
  data b' = data b /\ has B_VALID b' = true /\ has B_DIRTY b' = false /\ dsk (ib s') = dsk (ib s).
Proof.
  intros Hbad Hready I Hb. destruct (ii_links _ _ I) as (Hiq & b0 & Hb0 & Hl). rewrite Hb in Hb0. injection Hb0 as <-.
  unfold failed_transfer. erewrite (ideintr_run check wait) by done. change (-1 <? 0) with true. rewrite orb_true_r. cbn zeta.
  set (b' := set_flags _ _). set (s1 := set_ib _ _).
  assert (bufs (ib s1) !! i = Some b') as H1 by (by eapply list_lookup_insert_eq, lookup_lt_Some).
  assert (forall c, iderw_wait i (set_ctl c s1) = Ret (set_ctl c s1) tt) as Hw.
  { intros c. unfold iderw_wait. erewrite bind_ret by (by apply ide_buf_at). rewrite valid_dirty_test. cbn [flags b' set_flags].
    by rewrite valid_done, dirty_done. }
  assert (has B_VALID b' = true /\ has B_DIRTY b' = false) as [Hv Hd] by (split; [apply valid_done|apply dirty_done]).
  destruct q as [|j q]; cbn in Hl.
  - rewrite Hl. exists s1, b'. do 2 (split; [done|]). split; [exact (Hw (ctlr s1))|done].
  - destruct Hl as (-> & bj & Hbj & _). pose proof (ii_nodup _ _ I) as [Hni _]%NoDup_cons.
    destruct (ii_wanted _ _ I j) as (bj' & Hbj' & Wj); [right; by left|]. rewrite Hbj in Hbj'. injection Hbj' as <-.
    destruct (idestart_run wait s1 j bj Hready) as (c' & Hs & _); [|done|].
    { cbn. rewrite list_lookup_insert_ne; [done|]. intros ->. apply Hni. by left. }
    by exists (set_ctl c' s1), b'.
Qed.

(** ** The contract of the driver *)

(** A call while no other is queued: the request, its transfer, and the loop
    that waits, with a controller that is ready when it is read. *)
Definition at_once : list Z := [IDE_DRDY].
Definition iderw_alone (i : nat) : M bio_state unit := fun s =>
  match (iderw_begin at_once i ;;; transfer at_once at_once ;;; iderw_wait i) (mk_ide s idle ∅ true) with
  | Ret t _ => Ret (ib t) tt
  | Panic m => Panic m
  | Sleep c t => Sleep c (ib t)
  | Fault => Fault
  end.

Lemma iderw_alone_run s i b : idequeue s = None -> bufs s !! i = Some b -> wanted b -> exists s' x,
  iderw_alone i s = Ret s' tt /\ idequeue s' = None /\ bufs s' = <[i := set_qnext x (synced (dsk s) b)]> (bufs s) /\
  dsk s' = apply_writes (dsk s) (written b) /\ trace s' = trace s ++ written b.
Proof.
  intros Hq Hb W. assert (ide_inv (mk_ide s idle ∅ true) []) as I0 by (split; try done; [constructor|by intros j ?%elem_of_nil]).
  destruct (iderw_begin_idle at_once _ i b ltac:(by eexists) I0 Hb W) as (c & R & I1). unfold iderw_alone. mrun R.
  destruct (transfer_run at_once at_once _ i [] eq_refl ltac:(by eexists) I1) as (s2 & b2 & Hb2 & W2 & R2 & I2 & Hbs & Hds & Hts & _). cbn in Hb2, Hbs, Hds, Hts.
  rewrite list_lookup_insert_eq in Hb2 by (by eapply lookup_lt_Some). injection Hb2 as <-. mrun R2.
  rewrite list_insert_insert_eq in Hbs. unfold iderw_wait.
  erewrite bind_ret by (apply ide_buf_at; rewrite Hbs; by eapply list_lookup_insert_eq, lookup_lt_Some).
  unfold synced at 1. rewrite valid_dirty_test. cbn [flags set_flags]. rewrite valid_done, dirty_done. cbn.
  exists (ib s2), None. do 2 (split; [done || by apply (ii_links _ _ I2)|]). split; [|done].
  rewrite Hbs. unfold synced. by destruct b; destruct (has _ _).
Qed.

Lemma wanted_of b : has B_BUSY b -> has B_DIRTY b \/ has B_VALID b = false -> dev b = ROOTDEV -> on_disk (blockno b) -> wanted b.
Proof.
  intros Hb Hdv Hdev Hn. split; [by apply Is_true_true_1|]. split; [|done].
  destruct (has B_DIRTY b), (has B_VALID b), Hdv; done.
Qed.

Lemma ide_write_ok s i b : idequeue s = None -> bufs s !! i = Some b ->
  has B_BUSY b -> has B_DIRTY b -> dev b = ROOTDEV -> on_disk (blockno b) ->
  exists s' x, iderw_alone i s = Ret s' tt /\ idequeue s' = None /\
    bufs s' = <[i := set_qnext x (set_flags (done_flags (flags b)) b)]> (bufs s) /\
    dsk s' = <[blockno b := data b]> (dsk s) /\ trace s' = trace s ++ [(blockno b, data b)].
Proof.
  intros Hq Hb Hbusy Hd Hdev Hn. destruct (iderw_alone_run s i b Hq Hb) as (s' & x & R); [by apply wanted_of; auto|].
  exists s', x. revert R. unfold synced, written. by rewrite (Is_true_true_1 _ Hd).
Qed.

Lemma ide_read_ok s i b : idequeue s = None -> bufs s !! i = Some b ->
  has B_BUSY b -> has B_DIRTY b = false -> has B_VALID b = false -> dev b = ROOTDEV -> on_disk (blockno b) ->
  exists s' x, iderw_alone i s = Ret s' tt /\ idequeue s' = None /\
    bufs s' = <[i := set_qnext x (set_data (disk_read (dsk s) (blockno b)) (set_flags (done_flags (flags b)) b))]> (bufs s) /\
    dsk s' = dsk s /\ trace s' = trace s.
Proof.
  intros Hq Hb Hbusy Hd Hv Hdev Hn. destruct (iderw_alone_run s i b Hq Hb) as (s' & x & R); [by apply wanted_of; auto|].
  exists s', x. revert R. unfold synced, written. by rewrite Hd, app_nil_r.
Qed.

(** The driver fulfils the contract of the buffer cache. *)
Definition ide_driver : BlockDriver := {|
  Buf.iderw := iderw_alone;
  driver_ok := fun s => idequeue s = None;
  driver_ok_boot := fun _ _ => eq_refl;
  driver_ok_bufs := fun _ _ H => H;
  driver_ok_woken := fun _ _ H => H;
  iderw_write := ide_write_ok;
  iderw_read := ide_read_ok
|}.
