(* ===== verification/Log.v ===== *)
(** * Log: the write-ahead log of log.c

    [begin_op], [log_write], [end_op], [commit] and the recovery of [initlog]
    over the buffer cache.  The theorems show that a crash at any point of a
    commit, followed by recovery, leaves either the disk of before the
    transaction or all of its writes, and that recovery itself may crash. *)
From stdpp Require Import base numbers list gmap strings.
From Stdlib Require Import ZArith Lia.
From S2P Require Import Prelude Bytes Buf Bio.

Local Open Scope Z_scope.

Definition MAXOPBLOCKS : Z := 10.
Definition LOGSIZE : nat := 30.

(** [struct superblock] and the block it is read from. *)
Record superblock := mk_sb {
  sb_size : Z; sb_nblocks : Z; sb_ninodes : Z; sb_nlog : Z;
  sb_logstart : Z; sb_inodestart : Z; sb_bmapstart : Z
}.
Definition sb_decode (b : block) : superblock :=
  mk_sb (rd32 b 0) (rd32 b 4) (rd32 b 8) (rd32 b 12) (rd32 b 16) (rd32 b 20) (rd32 b 24).

(** [struct log], with its [struct logheader] inlined: [lh_n], [lh_block]. *)
Record log := mk_log {
  lstart : Z;
  lsize : Z;
  outstanding : Z;
  committing : Z;
  ldev : Z;
  lh_n : Z;
  lh_block : list Z
}.
Record log_state := mk_ls { lg : log; bio : bio_state }.

Definition set_lh (n : Z) (bl : list Z) (l : log) : log :=
  mk_log (lstart l) (lsize l) (outstanding l) (committing l) (ldev l) n bl.
Definition set_outstanding (o : Z) (l : log) : log :=
  mk_log (lstart l) (lsize l) o (committing l) (ldev l) (lh_n l) (lh_block l).
Definition set_committing (c : Z) (l : log) : log :=
  mk_log (lstart l) (lsize l) (outstanding l) c (ldev l) (lh_n l) (lh_block l).

Definition getlog : M log_state log := gets lg.
Definition modlog (f : log -> log) : M log_state unit := modify (fun s => mk_ls (f (lg s)) (bio s)).
Definition inbio {A} (m : M bio_state A) : M log_state A := zoom bio (fun b s => mk_ls (lg s) b) m.
Definition wakeup_log : M log_state unit := inbio (modify (add_woken ChLog)).

Section log.
Context `{BlockDriver}.

Definition readsb (d : Z) : M bio_state superblock :=
  let* bp := bread d 1 in
  let* b := buf_data bp in
  brelse bp ;;;
  ret (sb_decode b).

(** Copy committed blocks from log to their home location. *)
Definition install_block (tail : nat) : M log_state unit :=
  let* l := getlog in
  let* lbuf := inbio (bread (ldev l) (u32 (lstart l + Z.of_nat tail + 1))) in
  let* dst := from_opt (lh_block l !! tail) in
  let* dbuf := inbio (bread (ldev l) (u32 dst)) in
  let* d := inbio (buf_data lbuf) in
  inbio (buf_store dbuf d) ;;;
  inbio (bwrite dbuf) ;;;
  inbio (brelse lbuf) ;;;
  inbio (brelse dbuf).

Definition install_trans : M log_state unit :=
  let* l := getlog in
  for_M 0 (Z.to_nat (lh_n l)) install_block.

(** [for (i = 0; i < n; i++) log.lh.block[i] = lh->block[i]] *)
Fixpoint read_blocks (n i : nat) (b : block) (bl : list Z) : option (list Z) :=
  match n with
  | O => Some bl
  | S n => if decide (i < length bl)%nat
           then read_blocks n (S i) b (<[i := i32 (rd32 b (4 + 4 * i))]> bl)
           else None
  end.

(** Read the log header from disk into the in-memory log header. *)
Definition read_head : M log_state unit :=
  let* l := getlog in
  let* bp := inbio (bread (ldev l) (u32 (lstart l))) in
  let* b := inbio (buf_data bp) in
  let n := i32 (rd32 b 0) in
  let* bl := from_opt (read_blocks (Z.to_nat n) 0 b (lh_block l)) in
  modlog (set_lh n bl) ;;;
  inbio (brelse bp).

(** The header block with [hb->n] and [hb->block[0..n-1]] assigned. *)
Definition enc_head (b : block) (n : Z) (bl : list Z) : block :=
  for_range 0 (Z.to_nat n) (fun i b => wr32 b (4 + 4 * i) (bl !!! i)) (wr32 b 0 n).

(** Write in-memory log header to disk: the point at which a transaction commits. *)
Definition write_head : M log_state unit :=
  let* l := getlog in
  let* bp := inbio (bread (ldev l) (u32 (lstart l))) in
  let* b := inbio (buf_data bp) in
  (if decide (Z.to_nat (lh_n l) <= length (lh_block l))%nat
   then inbio (buf_store bp (enc_head b (lh_n l) (lh_block l)))
   else fault) ;;;
  inbio (bwrite bp) ;;;
  inbio (brelse bp).

Definition recover_from_log : M log_state unit :=
  read_head ;;;
  install_trans ;;;
  modlog (fun l => set_lh 0 (lh_block l) l) ;;;
  write_head.

Definition initlog (d : Z) : M log_state unit :=
  if decide (BSIZE <= 4 + 4 * LOGSIZE)%nat then panic "initlog: too big logheader"
  else
    let* sb := inbio (readsb d) in
    modlog (fun l => mk_log (i32 (sb_logstart sb)) (i32 (sb_nlog sb))
                       (outstanding l) (committing l) d (lh_n l) (lh_block l)) ;;;
    recover_from_log.

(** Called at the start of each FS system call: one pass of its loop, which
    sleeps on [&log] and tries again. *)
Definition begin_op : M log_state unit :=
  let* l := getlog in
  if negb (committing l =? 0) then sleep_on ChLog
  else if Z.of_nat LOGSIZE <? lh_n l + (outstanding l + 1) * MAXOPBLOCKS then sleep_on ChLog
  else modlog (set_outstanding (outstanding l + 1)).

(** Copy modified blocks from cache to log. *)
Definition write_log_block (tail : nat) : M log_state unit :=
  let* l := getlog in
  let* to := inbio (bread (ldev l) (u32 (lstart l + Z.of_nat tail + 1))) in
  let* src := from_opt (lh_block l !! tail) in
  let* from := inbio (bread (ldev l) (u32 src)) in
  let* d := inbio (buf_data from) in
  inbio (buf_store to d) ;;;
  inbio (bwrite to) ;;;
  inbio (brelse from) ;;;
  inbio (brelse to).

Definition write_log : M log_state unit :=
  let* l := getlog in
  for_M 0 (Z.to_nat (lh_n l)) write_log_block.

Definition commit : M log_state unit :=
  let* l := getlog in
  whenM (0 <? lh_n l)
    (write_log ;;;
     write_head ;;;
     install_trans ;;;
     modlog (fun l => set_lh 0 (lh_block l) l) ;;;
     write_head).

(** Called at the end of each FS system call; the last one commits. *)
Definition end_op : M log_state unit :=
  let* l := getlog in
  modlog (set_outstanding (outstanding l - 1)) ;;;
  let* l := getlog in
  if negb (committing l =? 0) then panic "log.committing"
  else if outstanding l =? 0 then
    modlog (set_committing 1) ;;;
    commit ;;;
    modlog (set_committing 0) ;;;
    wakeup_log
  else wakeup_log.

(** The index of the first of the [n] logged blocks equal to [b], or [n]. *)
Fixpoint log_slot (n i : nat) (bl : list Z) (b : Z) : option nat :=
  match n with
  | O => Some i
  | S n => match bl !! i with
           | Some x => if u32 x =? b then Some i else log_slot n (S i) bl b
           | None => None
           end
  end.

(** The caller has modified [b->data]: record the block number and pin it. *)
Definition log_write (i : nat) : M log_state unit :=
  let* l := getlog in
  if (Z.of_nat LOGSIZE <=? lh_n l) || (lsize l - 1 <=? lh_n l) then panic "too big a transaction"
  else if outstanding l <? 1 then panic "log_write outside of trans"
  else
    let* b := inbio (buf_at i) in
    let* k := from_opt (log_slot (Z.to_nat (lh_n l)) 0 (lh_block l) (blockno b)) in
    (if decide (k < length (lh_block l))%nat then ret tt else fault) ;;;
    modlog (set_lh (if Z.of_nat k =? lh_n l then lh_n l + 1 else lh_n l)
                   (<[k := i32 (blockno b)]> (lh_block l))) ;;;
    inbio (upd_buf i (fun b => set_flags (Z.lor (flags b) B_DIRTY) b)).

End log.

(** ** Invariants *)

Lemma inbio_ret {A} (m : M bio_state A) s b a :
  m (bio s) = Ret b a -> inbio m s = Ret (mk_ls (lg s) b) a.
Proof. intros H. unfold inbio. by rewrite (zoom_ret _ _ _ _ _ _ H). Qed.

Lemma getlog_ret s : getlog s = Ret s (lg s).
Proof. done. Qed.

Lemma modlog_ret f s : modlog f s = Ret (mk_ls (f (lg s)) (bio s)) tt.
Proof. done. Qed.

(** The geometry of the log on the disk; mkfs makes it [LOGSIZE] blocks, which
    keeps the pinned blocks fewer than the [NBUF] buffers. *)
Record log_geom (l : log) : Prop := {
  geom_dev : ldev l = ROOTDEV;
  geom_start : 2 <= lstart l;
  geom_size : 1 <= lsize l;
  geom_end : lstart l + lsize l <= FSSIZE;
  geom_max : lsize l <= Z.of_nat LOGSIZE;
  geom_len : length (lh_block l) = LOGSIZE
}.
Definition in_log (l : log) (n : Z) : Prop := lstart l <= n < lstart l + lsize l.

(** The blocks [L] of the header are home blocks: on the disk, not in the log
    and not the superblock; they fit in the log. *)
Record header_ok (l : log) (L : list Z) : Prop := {
  hdr_nodup : NoDup L;
  hdr_home : Forall (fun n => on_disk n /\ ~ in_log l n /\ n <> 1) L;
  hdr_fits : Z.of_nat (length L) < lsize l
}.

(** The in-memory header is [L]. *)
Definition mem_header (l : log) (L : list Z) : Prop :=
  lh_n l = Z.of_nat (length L) /\ take (length L) (lh_block l) = L.

(** The header block [b] encodes [L]. *)
Definition disk_header (b : block) (L : list Z) : Prop :=
  rd32 b 0 = Z.of_nat (length L) /\ forall i n, L !! i = Some n -> rd32 b (4 + 4 * i) = n.

Lemma on_disk_u32 n : on_disk n -> u32 n = n.
Proof. intros Hn. apply u32_small. unfold on_disk, is_u32, FSSIZE in *. lia. Qed.

Lemma on_disk_i32 n : on_disk n -> i32 n = n.
Proof. intros Hn. apply i32_small. unfold on_disk, FSSIZE in *. lia. Qed.

Lemma disk_read_insert_eq d n b : disk_read (<[n := b]> d) n = b.
Proof. unfold disk_read. by rewrite lookup_insert_eq. Qed.

Lemma disk_read_insert_ne d n m b : n <> m -> disk_read (<[n := b]> d) m = disk_read d m.
Proof. intros Hne. unfold disk_read. by rewrite lookup_insert_ne. Qed.

Lemma apply_writes_app d w1 w2 : apply_writes d (w1 ++ w2) = apply_writes (apply_writes d w1) w2.
Proof. apply foldl_app. Qed.

Lemma apply_writes_other d w n :
  (forall m b, (m, b) ∈ w -> m <> n) -> disk_read (apply_writes d w) n = disk_read d n.
Proof.
  revert d. induction w as [|[m b] w IH]; intros d Hw; [done|]. cbn [apply_writes foldl].
  change (disk_read (apply_writes (<[m:=b]> d) w) n = disk_read d n).
  rewrite IH by (intros k c Hk; eapply Hw; right; done).
  apply disk_read_insert_ne. eapply Hw. left.
Qed.

Lemma apply_writes_NoDup d w n b :
  NoDup w.*1 -> (n, b) ∈ w -> disk_read (apply_writes d w) n = b.
Proof.
  revert d. induction w as [|[m c] w IH]; intros d Hnd Hin; [by apply not_elem_of_nil in Hin|].
  apply NoDup_cons in Hnd as [Hm Hnd]. change (disk_read (apply_writes (<[m:=c]> d) w) n = b).
  apply elem_of_cons in Hin as [[= -> ->]|Hin]; [|by apply IH].
  rewrite apply_writes_other; [apply disk_read_insert_eq|].
  intros k a Hk ->. apply Hm. apply list_elem_of_fmap. by exists (m, a).
Qed.

Lemma apply_writes_ok d w :
  disk_ok d -> (forall n b, (n, b) ∈ w -> length b = BSIZE) -> disk_ok (apply_writes d w).
Proof.
  revert d. induction w as [|[m c] w IH]; intros d Hd Hw; [done|].
  change (disk_ok (apply_writes (<[m:=c]> d) w)). apply IH.
  - apply disk_ok_insert; [done|]. eapply Hw. left.
  - intros n b Hin. eapply Hw. by right.
Qed.

Section laws.
Context `{BlockDriver}.
Implicit Types (s : bio_state) (P : gset Z).

Lemma blk_clean s held P n :
  bio_inv s held P -> n ∉ P -> held !! n = None -> blk s n = disk_read (dsk s) n.
Proof.
  intros Hinv Hp Hh. destruct (cached s n) as [[i b]|] eqn:E.
  - apply cached_Some in E. rewrite (blk_caches _ _ _ _ _ _ Hinv E). by eapply inv_clean.
  - apply blk_uncached. by apply cached_None.
Qed.

(** One iteration of [write_log]: copy the cached block [src] to the log block [dst]. *)
Definition log_copy (d dst src : Z) : M bio_state unit :=
  let* to := bread d dst in
  let* from := bread d src in
  let* c := buf_data from in
  buf_store to c ;;;
  bwrite to ;;;
  brelse from ;;;
  brelse to.

(** One iteration of [install_trans]: copy the log block [src] to its home [dst]. *)
Definition install_copy (d src dst : Z) : M bio_state unit :=
  let* lbuf := bread d src in
  let* dbuf := bread d dst in
  let* c := buf_data lbuf in
  buf_store dbuf c ;;;
  bwrite dbuf ;;;
  brelse lbuf ;;;
  brelse dbuf.

(** Block [n] gets the contents [d] in the cache and on disk; nothing else changes. *)
Record wrote (s s' : bio_state) (n : Z) (d : block) : Prop := {
  wr_dst : blk s' n = d;
  wr_other : forall m, m <> n -> blk s' m = blk s m;
  wr_dsk : dsk s' = <[n := d]> (dsk s);
  wr_trace : trace s' = trace s ++ [(n, d)]
}.

Lemma log_copy_law s P src dst :
  bio_inv s ∅ P -> on_disk src -> on_disk dst -> src ∈ P -> dst ∉ P -> (size P < NBUF)%nat ->
  exists s', log_copy ROOTDEV dst src s = Ret s' tt /\ bio_inv s' ∅ P /\ wrote s s' dst (blk s src).
Proof.
  intros Hinv Hsrc Hdst Hin Hout Hsz. assert (src <> dst) as Hne by set_solver.
  unfold log_copy.
  destruct (bread_law s ∅ P dst) as (s1 & to & R1 & I1 & B1 & D1 & T1); auto.
  { left. by rewrite dom_empty_L, union_empty_l_L. }
  mrun R1.
  destruct (bread_law s1 (<[dst:=to]> ∅) P src) as (s2 & from & R2 & I2 & B2 & D2 & T2); auto.
  { by rewrite lookup_insert_ne. }
  mrun R2.
  mrun (buf_data_law s2 _ P src from I2 (lookup_insert_eq _ _ _)).
  assert ((<[src:=from]> (<[dst:=to]> ∅) : gmap Z nat) !! dst = Some to) as Hto.
  { rewrite lookup_insert_ne by done. apply lookup_insert_eq. }
  destruct (buf_store_law s2 _ P dst to (blk s2 src) I2 Hto) as (s3 & R3 & I3 & B3 & O3 & D3 & T3).
  { by eapply blk_length. }
  mrun R3.
  destruct (bwrite_law s3 _ P dst to I3 Hto) as (s4 & R4 & I4 & B4 & D4 & T4). mrun R4.
  assert (P ∖ {[dst]} = P) as HP by set_solver. rewrite HP in I4.
  destruct (brelse_law s4 _ P src from I4 (lookup_insert_eq _ _ _)) as (s5 & R5 & I5 & B5 & D5 & T5); [by left|].
  mrun R5.
  assert ((delete src (<[src:=from]> (<[dst:=to]> ∅)) : gmap Z nat) = <[dst:=to]> ∅) as Hdel.
  { apply delete_insert_id. by rewrite lookup_insert_ne. }
  rewrite Hdel in I5.
  destruct (brelse_law s5 _ P dst to I5 (lookup_insert_eq _ _ _)) as (s6 & R6 & I6 & B6 & D6 & T6).
  { right. rewrite B5, B4, D5, D4. by rewrite disk_read_insert_eq. }
  rewrite delete_insert_id in I6 by done.
  assert (blk s2 src = blk s src) as Hc by (by rewrite B2, B1).
  exists s6. split_and!; [done|done|]. split.
  - by rewrite B6, B5, B4, B3.
  - intros m Hm. by rewrite B6, B5, B4, O3, B2, B1.
  - by rewrite D6, D5, D4, B3, D3, D2, D1, Hc.
  - by rewrite T6, T5, T4, B3, T3, T2, T1, Hc.
Qed.

Lemma install_copy_law s P src dst :
  bio_inv s ∅ P -> on_disk src -> on_disk dst -> src <> dst -> src ∉ P ->
  (size P < NBUF)%nat -> (dst ∈ P \/ (S (size P) < NBUF)%nat) ->
  exists s', install_copy ROOTDEV src dst s = Ret s' tt /\ bio_inv s' ∅ (P ∖ {[dst]}) /\ wrote s s' dst (blk s src).
Proof.
  intros Hinv Hsrc Hdst Hne Hout Hsz Hroom. unfold install_copy.
  destruct (bread_law s ∅ P src) as (s1 & lb & R1 & I1 & B1 & D1 & T1); auto.
  { left. by rewrite dom_empty_L, union_empty_l_L. }
  mrun R1.
  destruct (bread_law s1 (<[src:=lb]> ∅) P dst) as (s2 & db & R2 & I2 & B2 & D2 & T2); auto.
  { by rewrite lookup_insert_ne. }
  { destruct Hroom as [?|Hr]; [by right|left]. rewrite dom_insert_L, dom_empty_L, union_empty_r_L.
    rewrite size_union_alt, size_singleton. pose proof (subseteq_size (P ∖ {[src]}) P ltac:(set_solver)). lia. }
  mrun R2.
  assert ((<[dst:=db]> (<[src:=lb]> ∅) : gmap Z nat) !! src = Some lb) as Hlb.
  { rewrite lookup_insert_ne by done. apply lookup_insert_eq. }
  mrun (buf_data_law s2 _ P src lb I2 Hlb).
  destruct (buf_store_law s2 _ P dst db (blk s2 src) I2 (lookup_insert_eq _ _ _)) as (s3 & R3 & I3 & B3 & O3 & D3 & T3).
  { by eapply blk_length. }
  mrun R3.
  destruct (bwrite_law s3 _ P dst db I3 (lookup_insert_eq _ _ _)) as (s4 & R4 & I4 & B4 & D4 & T4). mrun R4.
  assert (blk s2 src = blk s src) as Hc by (by rewrite B2, B1).
  destruct (brelse_law s4 _ (P ∖ {[dst]}) src lb I4 Hlb) as (s5 & R5 & I5 & B5 & D5 & T5).
  { right. rewrite B4, O3, Hc, D4, disk_read_insert_ne, D3, D2, D1 by done. by eapply blk_clean. }
  mrun R5.
  assert ((delete src (<[dst:=db]> (<[src:=lb]> ∅)) : gmap Z nat) = <[dst:=db]> ∅) as Hdel.
  { rewrite delete_insert_ne by done. by rewrite delete_insert_id. }
  rewrite Hdel in I5.
  destruct (brelse_law s5 _ (P ∖ {[dst]}) dst db I5 (lookup_insert_eq _ _ _)) as (s6 & R6 & I6 & B6 & D6 & T6).
  { right. rewrite B5, B4, D5, D4. by rewrite disk_read_insert_eq. }
  rewrite delete_insert_id in I6 by done.
  exists s6. split_and!; [done|done|]. split.
  - by rewrite B6, B5, B4, B3.
  - intros m Hm. by rewrite B6, B5, B4, O3, B2, B1.
  - by rewrite D6, D5, D4, B3, D3, D2, D1, Hc.
  - by rewrite T6, T5, T4, B3, T3, T2, T1, Hc.
Qed.

(** A run of copies from blocks the run does not write. *)
Definition copy_writes (s : bio_state) (ps : list (Z * Z)) : list (Z * block) :=
  (fun '(src, dst) => (dst, blk s src)) <$> ps.

Record copies (s s' : bio_state) (ps : list (Z * Z)) : Prop := {
  cps_dst : forall src dst, (src, dst) ∈ ps -> blk s' dst = blk s src;
  cps_other : forall m, m ∉ ps.*2 -> blk s' m = blk s m;
  cps_dsk : dsk s' = apply_writes (dsk s) (copy_writes s ps);
  cps_trace : trace s' = trace s ++ copy_writes s ps
}.

Lemma copies_nil s : copies s s [].
Proof. split; try done. - intros ?? Hin. by apply not_elem_of_nil in Hin. - by rewrite app_nil_r. Qed.

Lemma copies_snoc s s1 s2 ps src dst :
  copies s s1 ps -> wrote s1 s2 dst (blk s1 src) -> src ∉ ps.*2 -> dst ∉ ps.*2 ->
  copies s s2 (ps ++ [(src, dst)]).
Proof.
  intros [C1 C2 C3 C4] [E1 E2 E3 E4] Hs Hd.
  assert (copy_writes s (ps ++ [(src, dst)]) = copy_writes s ps ++ [(dst, blk s src)]) as Hw
    by (unfold copy_writes; by rewrite fmap_app).
  split.
  - intros a c [Hin|Hin]%elem_of_app.
    + rewrite E2; [by apply C1|]. intros ->. apply Hd. apply list_elem_of_fmap. by exists (a, dst).
    + apply list_elem_of_singleton in Hin. injection Hin as -> ->. by rewrite E1, C2.
  - intros m Hm. rewrite fmap_app in Hm. simpl in Hm.
    apply not_elem_of_app in Hm as [Hm1 Hm2%not_elem_of_cons]. rewrite E2 by naive_solver. by apply C2.
  - by rewrite E3, C2, C3, Hw, apply_writes_app by done.
  - by rewrite E4, C2, C4, Hw, <- app_assoc by done.
Qed.
End laws.

(** The log slot of each block of the header, with its home block. *)
Definition slots (l : log) (L : list Z) : list (Z * Z) :=
  imap (fun j n => (lstart l + Z.of_nat j + 1, n)) L.
Definition swap (p : Z * Z) : Z * Z := (p.2, p.1).

Lemma slots_lookup l L j n :
  slots l L !! j = Some n <-> exists m, L !! j = Some m /\ n = (lstart l + Z.of_nat j + 1, m).
Proof.
  unfold slots. rewrite list_lookup_imap. destruct (L !! j); simpl; naive_solver.
Qed.

Lemma slots_home l L : (slots l L).*2 = L.
Proof.
  apply list_eq. intros j. rewrite list_lookup_fmap. unfold slots. rewrite list_lookup_imap.
  by destruct (L !! j).
Qed.

Lemma slots_swap_fst l L : (swap <$> slots l L).*1 = L.
Proof. rewrite <- list_fmap_compose. apply slots_home. Qed.

Lemma slots_swap_snd l L : (swap <$> slots l L).*2 = (slots l L).*1.
Proof. by rewrite <- list_fmap_compose. Qed.

Lemma slots_in_log l L n : header_ok l L -> n ∈ (slots l L).*1 -> in_log l n /\ n <> lstart l.
Proof.
  intros Hh ([a b] & -> & (j & (m & Hm & [= -> ->])%slots_lookup)%list_elem_of_lookup)%list_elem_of_fmap.
  apply lookup_lt_Some in Hm. pose proof (hdr_fits _ _ Hh). unfold in_log. simpl. lia.
Qed.

Lemma slots_nodup l L : NoDup (slots l L).*1.
Proof.
  apply NoDup_alt. intros i j x. rewrite !list_lookup_fmap. unfold slots. rewrite !list_lookup_imap.
  destruct (L !! i), (L !! j); simpl; try done. intros [= <-] [= ?]. lia.
Qed.

Lemma home_elem l L n : header_ok l L -> n ∈ L -> on_disk n /\ ~ in_log l n /\ n <> 1.
Proof. intros Hh. apply (proj1 (Forall_forall _ _) (hdr_home _ _ Hh)). Qed.

Lemma in_log_disk l n : log_geom l -> in_log l n -> on_disk n.
Proof. intros [] Hn. unfold in_log, on_disk in *. lia. Qed.

Lemma header_take l L k : header_ok l L -> header_ok l (take k L).
Proof.
  intros [Hn Hh Hf]. split.
  - eapply sublist_NoDup; [done|apply sublist_take].
  - by apply Forall_take.
  - rewrite length_take. lia.
Qed.

Lemma slots_take l L k : take k (slots l L) = slots l (take k L).
Proof.
  apply list_eq. intros j. unfold slots. rewrite list_lookup_imap, !lookup_take, list_lookup_imap.
  by case_decide.
Qed.

(** ** Laws of the log *)
Section log_laws.
Context `{BlockDriver}.
Implicit Types (l : log) (b : bio_state).

Lemma inbio_bind {A B} (m : M bio_state A) (k : A -> M bio_state B) s :
  inbio (bind m k) s = bind (inbio m) (fun a => inbio (k a)) s.
Proof. unfold inbio, zoom, bind. destruct (m (bio s)); reflexivity. Qed.

Lemma slot_u32 l n : log_geom l -> in_log l n -> u32 n = n.
Proof. intros Hg Hn. eapply on_disk_u32, in_log_disk; done. Qed.

Lemma mem_lookup l L j n : mem_header l L -> L !! j = Some n -> lh_block l !! j = Some n.
Proof.
  intros [_ Ht] Hj. rewrite <- Ht in Hj. rewrite lookup_take in Hj. by case_decide.
Qed.

Lemma pinned_size l L : log_geom l -> header_ok l L -> (size (list_to_set L : gset Z) < NBUF)%nat.
Proof.
  intros [] []. rewrite size_list_to_set by done. unfold LOGSIZE, NBUF in *. lia.
Qed.

(** A loop of copies. *)
Lemma copy_loop l b ps (P : nat -> gset Z) (body : nat -> M log_state unit) :
  (forall k src dst b1, ps !! k = Some (src, dst) -> bio_inv b1 ∅ (P k) ->
     exists b2, body k (mk_ls l b1) = Ret (mk_ls l b2) tt /\
       bio_inv b2 ∅ (P (S k)) /\ wrote b1 b2 dst (blk b1 src)) ->
  NoDup ps.*2 -> (forall n, n ∈ ps.*1 -> n ∉ ps.*2) -> bio_inv b ∅ (P 0%nat) ->
  exists b', for_M 0 (length ps) body (mk_ls l b) = Ret (mk_ls l b') tt /\
    bio_inv b' ∅ (P (length ps)) /\ copies b b' ps.
Proof.
  intros Hbody Hnd Hdisj Hinv.
  destruct (for_M_ind (fun k s => exists b', s = mk_ls l b' /\ bio_inv b' ∅ (P k) /\
    copies b b' (take k ps)) 0 (length ps) body (mk_ls l b)) as (s' & Hrun & b' & -> & I' & C').
  - lia.
  - exists b. split_and!; [done|done|apply copies_nil].
  - intros k s Hk (b1 & -> & I1 & C1).
    destruct (lookup_lt_is_Some_2 ps k ltac:(lia)) as [[src dst] Hp].
    destruct (Hbody k src dst b1 Hp I1) as (b2 & R & I2 & C2).
    exists (mk_ls l b2). split; [done|]. exists b2. split_and!; [done|done|].
    rewrite (take_S_r _ _ _ Hp). eapply copies_snoc; [done|done| |]; rewrite fmap_take.
    + intros Hin. apply (Hdisj src).
      * apply list_elem_of_fmap. exists (src, dst). split; [done|]. by eapply list_elem_of_lookup_2.
      * eapply elem_of_sublist; [done|apply sublist_take].
    + intros (j & Hj)%list_elem_of_lookup. rewrite lookup_take in Hj. case_decide as Hlt; [|done].
      pose proof (NoDup_lookup ps.*2 j k dst Hnd Hj) as Heq. rewrite list_lookup_fmap, Hp in Heq.
      specialize (Heq eq_refl). lia.
  - exists b'. rewrite firstn_all in C'. done.
Qed.

Lemma slot_elem l L k n :
  L !! k = Some n -> (lstart l + Z.of_nat k + 1) ∈ (slots l L).*1.
Proof.
  intros Hn. apply list_elem_of_fmap. exists (lstart l + Z.of_nat k + 1, n). split; [done|].
  eapply (list_elem_of_lookup_2 _ k), slots_lookup. eauto.
Qed.

Lemma write_log_law l b L :
  log_geom l -> header_ok l L -> mem_header l L -> bio_inv b ∅ (list_to_set L) ->
  exists b', write_log (mk_ls l b) = Ret (mk_ls l b') tt /\
    bio_inv b' ∅ (list_to_set L) /\ copies b b' (swap <$> slots l L).
Proof.
  intros Hg Hh Hm Hinv. unfold write_log. rewrite (bind_ret _ _ _ _ _ (getlog_ret _)). simpl lg.
  rewrite (proj1 Hm), Nat2Z.id.
  assert (length L = length (swap <$> slots l L)) as Hlen
    by (unfold slots; by rewrite length_fmap, length_imap).
  rewrite Hlen. apply (copy_loop l b _ (fun _ => list_to_set L)); [|..|done].
  - intros k src dst b1 Hk I1. rewrite list_lookup_fmap_Some in Hk.
    destruct Hk as ([slot m] & [= -> ->] & (n & Hn & [= -> ->])%slots_lookup).
    pose proof (slots_in_log l L _ Hh (slot_elem l _ _ _ Hn)) as [Hslot _].
    pose proof (list_elem_of_lookup_2 _ _ _ Hn) as HnL.
    destruct (home_elem _ _ _ Hh HnL) as (Hnd & Hnl & _).
    destruct (log_copy_law b1 (list_to_set L) n (lstart l + Z.of_nat k + 1)) as (b2 & R & I2 & C2); auto.
    { by eapply in_log_disk. } { by apply elem_of_list_to_set. }
    { rewrite elem_of_list_to_set. intros Hin. by apply (home_elem _ _ _ Hh) in Hin as (_ & ? & _). }
    { by eapply pinned_size. }
    exists b2. split_and!; [|done|done]. etrans; [|exact (inbio_ret _ (mk_ls l b1) _ _ R)].
    unfold write_log_block. mrun (getlog_ret (mk_ls l b1)). simpl lg.
    rewrite (mem_lookup _ _ _ _ Hm Hn), (geom_dev _ Hg), (slot_u32 l) by done.
    unfold log_copy. rewrite inbio_bind. apply bind_ext. intros to s1. rewrite from_opt_bind.
    rewrite (on_disk_u32 n) by done. by repeat (rewrite inbio_bind; apply bind_ext; intros).
  - rewrite slots_swap_snd. apply slots_nodup.
  - rewrite slots_swap_fst, slots_swap_snd. intros n Hn Hin.
    apply (home_elem _ _ _ Hh) in Hn as (_ & Hn & _). by apply slots_in_log in Hin as [? _].
Qed.

Lemma install_trans_law l b L P :
  log_geom l -> header_ok l L -> mem_header l L -> bio_inv b ∅ P -> P = list_to_set L \/ P = ∅ ->
  exists b', install_trans (mk_ls l b) = Ret (mk_ls l b') tt /\
    bio_inv b' ∅ ∅ /\ copies b b' (slots l L).
Proof.
  intros Hg Hh Hm Hinv HP. unfold install_trans. mrun (getlog_ret (mk_ls l b)). simpl lg.
  rewrite (proj1 Hm), Nat2Z.id.
  assert (length L = length (slots l L)) as Hlen by (unfold slots; by rewrite length_imap).
  destruct (copy_loop l b (slots l L) (fun k => P ∖ list_to_set (take k L)) install_block)
    as (b' & R & I' & C').
  - intros k src dst b1 (n & Hn & [= -> ->])%slots_lookup I1.
    pose proof (slots_in_log l L _ Hh (slot_elem l _ _ _ Hn)) as [Hslot _].
    pose proof (list_elem_of_lookup_2 _ _ _ Hn) as HnL.
    destruct (home_elem _ _ _ Hh HnL) as (Hnd & Hnl & _).
    assert (P ∖ list_to_set (take k L) ⊆ list_to_set L) as Hsub by (destruct HP as [->| ->]; set_solver).
    pose proof (pinned_size l L Hg Hh) as Hsz. pose proof (subseteq_size _ _ Hsub) as Hle.
    destruct (install_copy_law b1 (P ∖ list_to_set (take k L)) (lstart l + Z.of_nat k + 1) n)
      as (b2 & R & I2 & C2); auto.
    { by eapply in_log_disk. } { intros Heq. by rewrite Heq in Hslot. }
    { intros Hin%Hsub%elem_of_list_to_set. by apply (home_elem _ _ _ Hh) in Hin as (_ & ? & _). }
    { lia. }
    { destruct HP as [->| ->]; [left|right].
      - apply elem_of_difference. rewrite !elem_of_list_to_set. split; [done|].
        intros (j & Hj)%list_elem_of_lookup. rewrite lookup_take in Hj. case_decide as Hlt; [|done].
        pose proof (NoDup_lookup _ _ _ _ (hdr_nodup _ _ Hh) Hj Hn). lia.
      - replace (∅ ∖ list_to_set (take k L) : gset Z) with (∅ : gset Z) by set_solver.
        unfold NBUF. rewrite size_empty. lia. }
    exists b2. split_and!; [| |done].
    + etrans; [|exact (inbio_ret _ (mk_ls l b1) _ _ R)].
      unfold install_block. mrun (getlog_ret (mk_ls l b1)). simpl lg.
      rewrite (mem_lookup _ _ _ _ Hm Hn), (geom_dev _ Hg), (slot_u32 l) by done.
      unfold install_copy. rewrite inbio_bind. apply bind_ext. intros to s1. rewrite from_opt_bind.
      rewrite (on_disk_u32 n) by done. by repeat (rewrite inbio_bind; apply bind_ext; intros).
    + rewrite (take_S_r _ _ _ Hn), list_to_set_app_L. simpl.
      by rewrite union_empty_r_L, <- difference_difference_l_L.
  - rewrite slots_home. apply Hh.
  - rewrite slots_home. intros n Hn Hin.
    apply (home_elem _ _ _ Hh) in Hin as (_ & Hin & _). by apply slots_in_log in Hn as [? _].
  - rewrite take_0. simpl. by rewrite difference_empty_L.
  - exists b'. rewrite Hlen. split_and!; [done| |done]. rewrite <- Hlen, firstn_all in I'.
    replace (P ∖ list_to_set L) with (∅ : gset Z) in I' by (destruct HP as [->| ->]; set_solver). done.
Qed.

(** The encoding of the header. *)
Lemma enc_head_spec h bl L :
  length h = BSIZE -> (length L <= LOGSIZE)%nat -> take (length L) bl = L -> Forall on_disk L ->
  length (enc_head h (Z.of_nat (length L)) bl) = BSIZE /\
  disk_header (enc_head h (Z.of_nat (length L)) bl) L.
Proof.
  intros Hh HL Ht Hd. unfold enc_head. rewrite Nat2Z.id. unfold BSIZE, LOGSIZE in *.
  assert (forall i n, L !! i = Some n -> bl !!! i = n /\ is_u32 n) as HbL.
  { intros i n Hi. split.
    - apply list_lookup_total_correct. rewrite <- Ht, lookup_take in Hi. by case_decide.
    - pose proof (proj1 (Forall_lookup _ _) Hd _ _ Hi) as Hn. unfold on_disk, FSSIZE, is_u32 in *. lia. }
  destruct (for_range_ind (fun k hb => length hb = 512%nat /\ rd32 hb 0 = Z.of_nat (length L) /\
    forall i n, (i < k)%nat -> L !! i = Some n -> rd32 hb (4 + 4 * i) = n) 0 (length L)
    (fun i hb => wr32 hb (4 + 4 * i) (bl !!! i)) (wr32 h 0 (Z.of_nat (length L)))) as (H1 & H2 & H3).
  - lia.
  - split_and!; [by unfold wr32; rewrite wr_length| |intros; lia].
    apply rd32_wr32_same; [lia|unfold is_u32; lia].
  - intros k hb Hk (H1 & H2 & H3). split_and!.
    + by unfold wr32; rewrite wr_length.
    + by rewrite rd32_wr32_other by lia.
    + intros i n Hi Hn. destruct (HbL _ _ Hn) as [Hb Hu]. destruct (decide (i = k)) as [->|].
      * rewrite Hb. apply rd32_wr32_same; [lia|done].
      * rewrite rd32_wr32_other by lia. apply H3; [lia|done].
  - split; [done|]. split; [done|]. intros i n Hi. apply H3; [|done]. by eapply lookup_lt_Some.
Qed.

Lemma write_head_law l b P L :
  log_geom l -> header_ok l L -> mem_header l L -> bio_inv b ∅ P -> lstart l ∉ P -> (size P < NBUF)%nat ->
  exists b' hb, write_head (mk_ls l b) = Ret (mk_ls l b') tt /\ bio_inv b' ∅ P /\
    length hb = BSIZE /\ disk_header hb L /\ wrote b b' (lstart l) hb.
Proof.
  intros Hg Hh Hm Hinv Hout Hsz.
  assert (in_log l (lstart l)) as Hin by (destruct Hg; unfold in_log; lia).
  pose proof (in_log_disk _ _ Hg Hin) as Hd.
  assert (length L <= length (lh_block l))%nat as Hlen.
  { rewrite (geom_len _ Hg). destruct Hg, Hh. lia. }
  destruct (enc_head_spec (blk b (lstart l)) (lh_block l) L) as [He1 He2].
  { by eapply blk_length. } { by rewrite (geom_len _ Hg) in Hlen. } { apply Hm. }
  { eapply Forall_impl; [apply (hdr_home _ _ Hh)|naive_solver]. }
  set (hb := enc_head (blk b (lstart l)) (Z.of_nat (length L)) (lh_block l)) in *.
  destruct (bread_law b ∅ P (lstart l)) as (b1 & i & R1 & I1 & B1 & D1 & T1); auto.
  { left. by rewrite dom_empty_L, union_empty_l_L. }
  pose proof (buf_data_law b1 _ P (lstart l) i I1 (lookup_insert_eq _ _ _)) as Rd.
  destruct (buf_store_law b1 _ P (lstart l) i hb I1 (lookup_insert_eq _ _ _) He1)
    as (b2 & R2 & I2 & B2 & O2 & D2 & T2).
  destruct (bwrite_law b2 _ P (lstart l) i I2 (lookup_insert_eq _ _ _)) as (b3 & R3 & I3 & B3 & D3 & T3).
  replace (P ∖ {[lstart l]}) with P in I3 by set_solver.
  destruct (brelse_law b3 _ P (lstart l) i I3 (lookup_insert_eq _ _ _)) as (b4 & R4 & I4 & B4 & D4 & T4).
  { right. by rewrite B3, D3, disk_read_insert_eq. }
  rewrite delete_insert_id in I4 by done.
  exists b4, hb. split_and!; [|done|done|done|].
  - unfold write_head. mrun (getlog_ret (mk_ls l b)). simpl lg.
    rewrite (geom_dev _ Hg), (slot_u32 l) by done.
    mrun (inbio_ret _ (mk_ls l b) _ _ R1). mrun (inbio_ret _ (mk_ls l b1) _ _ Rd).
    rewrite (proj1 Hm), Nat2Z.id, decide_True by done. rewrite B1. fold hb.
    mrun (inbio_ret _ (mk_ls l b1) _ _ R2). mrun (inbio_ret _ (mk_ls l b2) _ _ R3).
    exact (inbio_ret _ (mk_ls l b3) _ _ R4).
  - split.
    + by rewrite B4, B3, B2.
    + intros m Hm'. by rewrite B4, B3, O2, B1.
    + by rewrite D4, D3, B2, D2, D1.
    + by rewrite T4, T3, B2, T2, T1.
Qed.

Lemma read_blocks_spec hb L bl n i :
  disk_header hb L -> Forall on_disk L -> (i + n = length L)%nat -> (length L <= length bl)%nat ->
  take i bl = take i L ->
  exists bl', read_blocks n i hb bl = Some bl' /\ length bl' = length bl /\ take (length L) bl' = L.
Proof.
  intros [_ Hh] Hd. revert i bl. induction n as [|n IH]; intros i bl Hi Hlen Ht; cbn [read_blocks].
  - exists bl. split_and!; [done|done|]. replace (length L) with i by lia. rewrite Ht.
    apply take_ge. lia.
  - rewrite decide_True by lia. destruct (lookup_lt_is_Some_2 L i ltac:(lia)) as [x Hx].
    rewrite (Hh _ _ Hx), (on_disk_i32 x) by (by eapply (proj1 (Forall_lookup _ _) Hd)).
    destruct (IH (S i) (<[i:=x]> bl)) as (bl' & Hr & Hl & Hk); [lia|by rewrite length_insert| |].
    + rewrite (take_S_r _ _ x) by (apply list_lookup_insert_eq; lia).
      rewrite take_insert_ge by lia. by rewrite Ht, (take_S_r _ _ _ Hx).
    + exists bl'. by rewrite length_insert in Hl.
Qed.

Lemma read_head_law l b L :
  log_geom l -> header_ok l L -> bio_inv b ∅ ∅ -> disk_header (blk b (lstart l)) L ->
  exists b' bl, read_head (mk_ls l b) = Ret (mk_ls (set_lh (Z.of_nat (length L)) bl l) b') tt /\
    bio_inv b' ∅ ∅ /\ (forall m, blk b' m = blk b m) /\ dsk b' = dsk b /\ trace b' = trace b /\
    length bl = LOGSIZE /\ take (length L) bl = L.
Proof.
  intros Hg Hh Hinv Hdh.
  assert (in_log l (lstart l)) as Hin by (destruct Hg; unfold in_log; lia).
  pose proof (in_log_disk _ _ Hg Hin) as Hd.
  destruct (bread_law b ∅ ∅ (lstart l)) as (b1 & i & R1 & I1 & B1 & D1 & T1); auto.
  { left. rewrite dom_empty_L, union_empty_l_L, size_empty. unfold NBUF. lia. }
  pose proof (buf_data_law b1 _ ∅ (lstart l) i I1 (lookup_insert_eq _ _ _)) as Rd.
  destruct (read_blocks_spec (blk b (lstart l)) L (lh_block l) (length L) 0)
    as (bl & Hr & Hl & Ht); [done| |lia| |by rewrite !take_0|].
  { eapply Forall_impl; [apply (hdr_home _ _ Hh)|naive_solver]. }
  { rewrite (geom_len _ Hg). destruct Hg, Hh. lia. }
  destruct (brelse_law b1 _ ∅ (lstart l) i I1 (lookup_insert_eq _ _ _)) as (b2 & R2 & I2 & B2 & D2 & T2).
  { right. rewrite B1, D1. by eapply blk_clean. }
  rewrite delete_insert_id in I2 by done.
  exists b2, bl. split_and!; try done.
  - unfold read_head. mrun (getlog_ret (mk_ls l b)). simpl lg.
    rewrite (geom_dev _ Hg), (slot_u32 l) by done.
    mrun (inbio_ret _ (mk_ls l b) _ _ R1). mrun (inbio_ret _ (mk_ls l b1) _ _ Rd).
    rewrite B1, (proj1 Hdh). rewrite i32_small by (destruct Hg, Hh; unfold FSSIZE in *; lia).
    rewrite Nat2Z.id, Hr, from_opt_bind. mrun (modlog_ret (set_lh (Z.of_nat (length L)) bl) (mk_ls l b1)).
    exact (inbio_ret _ (mk_ls _ b1) _ _ R2).
  - intros m. by rewrite B2, B1.
  - by rewrite D2, D1.
  - by rewrite T2, T1.
  - by rewrite Hl, (geom_len _ Hg).
Qed.

(** The superblock describes this log. *)
Definition sb_ok (l : log) (b : block) : Prop :=
  sb_logstart (sb_decode b) = lstart l /\ sb_nlog (sb_decode b) = lsize l.

(** Between transactions and inside one: [L] is logged and pinned, the header
    on disk is empty. *)
Record log_inv (s : log_state) (held : gmap Z nat) (L : list Z) : Prop := {
  li_geom : log_geom (lg s);
  li_header : header_ok (lg s) L;
  li_mem : mem_header (lg s) L;
  li_bio : bio_inv (bio s) held (list_to_set L);
  li_disk : disk_header (disk_read (dsk (bio s)) (lstart (lg s))) [];
  li_sb : sb_ok (lg s) (disk_read (dsk (bio s)) 1)
}.

(** The writes that install a committed transaction whose log slots hold
    [v 0], [v 1], ... and erase its header. *)
Definition install_writes (l : log) (L : list Z) (v : Z -> block) (h0 : block) : list (Z * block) :=
  ((fun '(slot, n) => (n, v slot)) <$> slots l L) ++ [(lstart l, h0)].

Lemma mem_nil l : mem_header (set_lh 0 (lh_block l) l) [].
Proof. split; done. Qed.

Lemma geom_lh l n bl : log_geom l -> length bl = LOGSIZE -> log_geom (set_lh n bl l).
Proof. intros []. by split. Qed.

Lemma header_lh l n bl L : header_ok l L -> header_ok (set_lh n bl l) L.
Proof. intros []. by split. Qed.

Lemma header_nil l : log_geom l -> header_ok l [].
Proof. intros []. split; [constructor|constructor|simpl; lia]. Qed.

Lemma copies_home b b' l L :
  copies b b' (slots l L) -> trace b' = trace b ++ ((fun '(slot, n) => (n, blk b slot)) <$> slots l L).
Proof. intros C. apply (cps_trace _ _ _ C). Qed.

(** Installing and erasing: the second half of [commit] and the body of
    [recover_from_log]. *)
Lemma install_erase_law l b L P :
  log_geom l -> header_ok l L -> mem_header l L -> bio_inv b ∅ P -> P = list_to_set L \/ P = ∅ ->
  exists b' h0,
    (install_trans ;;; modlog (fun l => set_lh 0 (lh_block l) l) ;;; write_head) (mk_ls l b) =
      Ret (mk_ls (set_lh 0 (lh_block l) l) b') tt /\
    bio_inv b' ∅ ∅ /\ length h0 = BSIZE /\ disk_header h0 [] /\
    dsk b' = apply_writes (dsk b) (install_writes l L (blk b) h0) /\
    trace b' = trace b ++ install_writes l L (blk b) h0.
Proof.
  intros Hg Hh Hm Hinv HP.
  destruct (install_trans_law l b L P) as (b1 & R1 & I1 & C1); try done.
  destruct (write_head_law (set_lh 0 (lh_block l) l) b1 ∅ []) as (b2 & h0 & R2 & I2 & Hl & Hd & W).
  { apply geom_lh; [done|apply Hg]. } { by apply header_lh, header_nil. } { apply mem_nil. }
  { done. } { set_solver. } { rewrite size_empty. unfold NBUF. lia. }
  exists b2, h0. split_and!; [|done|done|done| |].
  - mrun R1. by mrun (modlog_ret (fun l => set_lh 0 (lh_block l) l) (mk_ls l b1)).
  - rewrite (wr_dsk _ _ _ _ W), (cps_dsk _ _ _ C1). unfold install_writes. by rewrite apply_writes_app.
  - rewrite (wr_trace _ _ _ _ W), (copies_home _ _ _ _ C1), <- app_assoc. done.
Qed.

(** [commit]: the exact sequence of disk writes. *)
Definition log_writes (l : log) (L : list Z) (v : Z -> block) : list (Z * block) :=
  (fun '(slot, n) => (slot, v n)) <$> slots l L.

Lemma commit_law s L :
  log_inv s ∅ L -> L <> [] ->
  exists b' hb h0, commit s = Ret (mk_ls (set_lh 0 (lh_block (lg s)) (lg s)) b') tt /\
    bio_inv b' ∅ ∅ /\ length hb = BSIZE /\ disk_header hb L /\ length h0 = BSIZE /\ disk_header h0 [] /\
    let W := log_writes (lg s) L (blk (bio s)) ++ [(lstart (lg s), hb)] ++
             ((fun n => (n, blk (bio s) n)) <$> L) ++ [(lstart (lg s), h0)] in
    dsk b' = apply_writes (dsk (bio s)) W /\ trace b' = trace (bio s) ++ W.
Proof.
  destruct s as [l b]. intros [Hg Hh Hm Hinv Hd Hsb] Hne. simpl in *. unfold commit.
  mrun (getlog_ret (mk_ls l b)). simpl lg.
  rewrite (proj2 (Z.ltb_lt _ _)) by (rewrite (proj1 Hm); destruct L; [done|simpl; lia]). cbn [whenM].
  destruct (write_log_law l b L) as (b1 & R1 & I1 & C1); try done.
  assert (lstart l ∉ (list_to_set L : gset Z)) as Hout.
  { rewrite elem_of_list_to_set. intros (_ & Hn & _)%(home_elem _ _ _ Hh). apply Hn.
    destruct Hg. unfold in_log. lia. }
  destruct (write_head_law l b1 (list_to_set L) L) as (b2 & hb & R2 & I2 & Hl & Hdh & W2); try done.
  { by eapply pinned_size. }
  destruct (install_erase_law l b2 L (list_to_set L)) as (b3 & h0 & R3 & I3 & Hl0 & Hd0 & D3 & T3); try done.
  { by left. }
  mrun R1. mrun R2. exists b3, hb, h0.
  assert (copy_writes b (swap <$> slots l L) = log_writes l L (blk b)) as E1.
  { unfold copy_writes, log_writes. rewrite <- list_fmap_compose. apply list_fmap_ext. by intros ? []. }
  assert (install_writes l L (blk b2) h0 = ((fun n => (n, blk b n)) <$> L) ++ [(lstart l, h0)]) as E2.
  { unfold install_writes. f_equal. rewrite <- (slots_home l L) at 2. rewrite <- list_fmap_compose.
    apply list_fmap_ext. intros j [slot n] Hj. simpl. f_equal.
    pose proof (list_elem_of_lookup_2 _ _ _ Hj) as Hin.
    rewrite (wr_other _ _ _ _ W2).
    - apply (cps_dst _ _ _ C1). apply list_elem_of_fmap. by exists (slot, n).
    - apply (slots_in_log l L); [done|]. apply list_elem_of_fmap. by exists (slot, n). }
  rewrite E2 in D3, T3. simpl. split_and!; try done.
  - rewrite D3, (wr_dsk _ _ _ _ W2), (cps_dsk _ _ _ C1), E1. by rewrite (apply_writes_app _ (log_writes _ _ _)).
  - rewrite T3, (wr_trace _ _ _ _ W2), (cps_trace _ _ _ C1), E1. by rewrite <- !app_assoc.
Qed.

Lemma readsb_law b n :
  bio_inv b ∅ ∅ -> n = 1 ->
  exists b', readsb ROOTDEV b = Ret b' (sb_decode (blk b n)) /\ bio_inv b' ∅ ∅ /\
    (forall m, blk b' m = blk b m) /\ dsk b' = dsk b /\ trace b' = trace b.
Proof.
  intros Hinv ->.
  destruct (bread_law b ∅ ∅ 1) as (b1 & i & R1 & I1 & B1 & D1 & T1); auto.
  { by unfold on_disk, FSSIZE. }
  { left. rewrite dom_empty_L, union_empty_l_L, size_empty. unfold NBUF. lia. }
  destruct (brelse_law b1 _ ∅ 1 i I1 (lookup_insert_eq _ _ _)) as (b2 & R2 & I2 & B2 & D2 & T2).
  { right. rewrite B1, D1. by eapply blk_clean. }
  rewrite delete_insert_id in I2 by done.
  exists b2. split_and!; [|done| |by rewrite D2, D1|by rewrite T2, T1].
  - unfold readsb. mrun R1. mrun (buf_data_law b1 _ ∅ 1 i I1 (lookup_insert_eq _ _ _)).
    mrun R2. by rewrite B1.
  - intros m. by rewrite B2, B1.
Qed.

(** The machine after a reboot with disk [D]: the log in [bss] is zero, the
    buffer cache is freshly initialised, and [initlog] runs. *)
Definition zero_log : log := mk_log 0 0 0 0 0 0 (replicate LOGSIZE 0).
Definition boot_log (D : gmap Z block) : log_state := mk_ls zero_log (binit (boot_bio D)).
Definition recover (D : gmap Z block) : outcome log_state unit := initlog ROOTDEV (boot_log D).

Lemma initlog_law l b L :
  log_geom l -> bio_inv b ∅ ∅ -> sb_ok l (disk_read (dsk b) 1) ->
  disk_header (disk_read (dsk b) (lstart l)) L -> header_ok l L ->
  exists s h0, initlog ROOTDEV (mk_ls zero_log b) = Ret s tt /\
    log_geom (lg s) /\ mem_header (lg s) [] /\ bio_inv (bio s) ∅ ∅ /\
    lstart (lg s) = lstart l /\ lsize (lg s) = lsize l /\ length h0 = BSIZE /\ disk_header h0 [] /\
    dsk (bio s) = apply_writes (dsk b) (install_writes l L (disk_read (dsk b)) h0) /\
    trace (bio s) = trace b ++ install_writes l L (disk_read (dsk b)) h0 /\
    outstanding (lg s) = 0 /\ committing (lg s) = 0.
Proof.
  intros Hg Hinv [Hs1 Hs2] Hdh Hh. unfold initlog. rewrite decide_False by (unfold BSIZE, LOGSIZE; lia).
  assert (forall n, blk b n = disk_read (dsk b) n) as B0 by (intros; by eapply blk_clean).
  destruct (readsb_law b 1) as (b1 & R1 & I1 & B1 & D1 & T1); [done|done|].
  rewrite B0 in R1. mrun (inbio_ret _ (mk_ls zero_log b) _ _ R1).
  mrun (modlog_ret (fun l => mk_log (i32 (sb_logstart (sb_decode (disk_read (dsk b) 1))))
    (i32 (sb_nlog (sb_decode (disk_read (dsk b) 1))))
       (outstanding l) (committing l) ROOTDEV (lh_n l) (lh_block l)) (mk_ls zero_log b1)).
  cbn [lg bio]. rewrite Hs1, Hs2.
  rewrite !i32_small by (destruct Hg; unfold FSSIZE, LOGSIZE in *; lia).
  set (l1 := mk_log _ _ _ _ _ _ _).
  assert (log_geom l1) as Hg1 by (destruct Hg; by split).
  assert (header_ok l1 L) as Hh1 by (destruct Hh; by split).
  destruct (read_head_law l1 b1 L) as (b2 & bl & R2 & I2 & B2 & D2 & T2 & Hbl & Ht);
    [done|done|done|by rewrite B1, B0|].
  destruct (install_erase_law (set_lh (Z.of_nat (length L)) bl l1) b2 L ∅)
    as (b3 & h0 & R3 & I3 & Hl0 & Hd0 & D3 & T3);
    [by apply geom_lh|by apply header_lh|done|done|by right|].
  assert (install_writes (set_lh (Z.of_nat (length L)) bl l1) L (blk b2) h0 =
          install_writes l L (disk_read (dsk b)) h0) as E.
  { unfold install_writes. f_equal. apply list_fmap_ext. intros j [slot n] _. by rewrite B2, B1, B0. }
  exists (mk_ls (set_lh 0 bl (set_lh (Z.of_nat (length L)) bl l1)) b3), h0.
  unfold recover_from_log. mrun R2. rewrite R3. cbn [lg bio]. split_and!; try done.
  - by apply geom_lh; [apply geom_lh|].
  - by rewrite D3, D2, D1, E.
  - by rewrite T3, T2, T1, E.
Qed.

Lemma recover_law l D L :
  log_geom l -> disk_ok D -> sb_ok l (disk_read D 1) ->
  disk_header (disk_read D (lstart l)) L -> header_ok l L ->
  exists s h0, recover D = Ret s tt /\ log_geom (lg s) /\ mem_header (lg s) [] /\ bio_inv (bio s) ∅ ∅ /\
    lstart (lg s) = lstart l /\ lsize (lg s) = lsize l /\ length h0 = BSIZE /\ disk_header h0 [] /\
    dsk (bio s) = apply_writes D (install_writes l L (disk_read D) h0) /\
    trace (bio s) = install_writes l L (disk_read D) h0 /\
    outstanding (lg s) = 0 /\ committing (lg s) = 0.
Proof.
  intros Hg HD Hs Hdh Hh. unfold recover, boot_log. pose proof (binit_inv D HD) as Hinv.
  assert (dsk (binit (boot_bio D)) = D /\ trace (binit (boot_bio D)) = []) as [E1 E2]
    by (by rewrite binit_booted).
  revert Hinv E1 E2. generalize (binit (boot_bio D)) as b. intros b Hinv <- Ht.
  destruct (initlog_law l b L) as (s & h0 & Hall); try done. exists s, h0. by rewrite Ht in Hall.
Qed.

(** ** Recoverable disks *)

(** Block [m] as a disk with header [L] determines it: the log slot of a
    logged block, the block itself otherwise. *)
Definition content (l : log) (L : list Z) (D : gmap Z block) (m : Z) : block :=
  match list_find (fun n => n = m) L with
  | Some (j, _) => disk_read D (lstart l + Z.of_nat j + 1)
  | None => disk_read D m
  end.

(** Recovery from [D] will give the home blocks the contents [F]. *)
Definition recoverable (l : log) (D : gmap Z block) (F : Z -> block) : Prop :=
  disk_ok D /\ sb_ok l (disk_read D 1) /\
  exists L, disk_header (disk_read D (lstart l)) L /\ header_ok l L /\
    forall m, ~ in_log l m -> content l L D m = F m.

Lemma content_nil l D m : content l [] D m = disk_read D m.
Proof. done. Qed.

Lemma content_home l L D j m :
  NoDup L -> L !! j = Some m -> content l L D m = disk_read D (lstart l + Z.of_nat j + 1).
Proof.
  intros Hnd Hj. unfold content. rewrite (proj2 (list_find_Some _ _ j m)); [done|].
  split_and!; [done|done|]. intros i y Hi Hlt ->. pose proof (NoDup_lookup _ _ _ _ Hnd Hi Hj). lia.
Qed.

Lemma content_other l L D m : m ∉ L -> content l L D m = disk_read D m.
Proof.
  intros Hm. unfold content. rewrite (proj2 (list_find_None _ _)); [done|].
  apply Forall_forall. by intros x Hx ->.
Qed.

Definition home_writes (l : log) (L : list Z) (v : Z -> block) : list (Z * block) :=
  (fun '(slot, n) => (n, v slot)) <$> slots l L.

Lemma home_writes_elem l L v n (d : block) :
  (n, d) ∈ home_writes l L v -> exists j, L !! j = Some n /\ d = v (lstart l + Z.of_nat j + 1).
Proof.
  intros ([? ?] & [= -> ->] & (j & (m & Hm & [= -> ->])%slots_lookup)%list_elem_of_lookup)%list_elem_of_fmap.
  by exists j.
Qed.

Lemma home_writes_lookup l L v j n :
  L !! j = Some n -> (n, v (lstart l + Z.of_nat j + 1)) ∈ home_writes l L v.
Proof.
  intros Hn. apply list_elem_of_fmap. exists (lstart l + Z.of_nat j + 1, n). split; [done|].
  apply (list_elem_of_lookup_2 _ j). apply slots_lookup. eauto.
Qed.

Lemma home_writes_fst l L v : (home_writes l L v).*1 = L.
Proof.
  rewrite <- (slots_home l L) at 2. unfold home_writes. rewrite <- list_fmap_compose.
  apply list_fmap_ext. by intros ? [].
Qed.

Lemma home_writes_take l L v k : take k (home_writes l L v) = home_writes l (take k L) v.
Proof. unfold home_writes. by rewrite <- fmap_take, slots_take. Qed.

(** Writing home blocks leaves the log and the superblock alone. *)
Lemma home_writes_frame l L v D m :
  header_ok l L -> in_log l m \/ m = 1 \/ m ∉ L ->
  disk_read (apply_writes D (home_writes l L v)) m = disk_read D m.
Proof.
  intros Hh Hm. apply apply_writes_other. intros n b (j & Hj & _)%home_writes_elem ->.
  apply list_elem_of_lookup_2 in Hj as Hin. apply (home_elem _ _ _ Hh) in Hin as HnL. naive_solver.
Qed.

Lemma home_writes_ok l L v D :
  disk_ok D -> (forall n, length (v n) = BSIZE) -> disk_ok (apply_writes D (home_writes l L v)).
Proof. intros HD Hv. apply apply_writes_ok; [done|]. by intros n b (j & _ & ->)%home_writes_elem. Qed.

Lemma lstart_in_log l : log_geom l -> in_log l (lstart l).
Proof. intros []. unfold in_log. lia. Qed.

Lemma slot_in_log l L j n :
  header_ok l L -> L !! j = Some n -> in_log l (lstart l + Z.of_nat j + 1).
Proof. intros Hh Hn. by apply (slots_in_log l L _ Hh), (slot_elem l _ _ n). Qed.

Lemma content_cases l L D m (P : block -> Prop) :
  header_ok l L ->
  (forall j, L !! j = Some m -> P (disk_read D (lstart l + Z.of_nat j + 1))) ->
  (m ∉ L -> P (disk_read D m)) -> P (content l L D m).
Proof.
  intros Hh H1 H2. destruct (decide (m ∈ L)) as [(j & Hj)%list_elem_of_lookup|Hm].
  - rewrite (content_home _ _ _ j) by (done || apply Hh). by apply H1.
  - rewrite content_other by done. by apply H2.
Qed.

(** A crash while a committed transaction is being installed. *)
Lemma install_prefix l D L h0 k :
  log_geom l -> disk_ok D -> sb_ok l (disk_read D 1) ->
  disk_header (disk_read D (lstart l)) L -> header_ok l L -> length h0 = BSIZE -> disk_header h0 [] ->
  recoverable l (apply_writes D (take k (install_writes l L (disk_read D) h0))) (content l L D).
Proof.
  intros Hg HD Hsb Hdh Hh Hl0 Hd0. pose proof (lstart_in_log _ Hg) as Hls.
  assert (length (home_writes l L (disk_read D)) = length L) as Hlen
    by (unfold home_writes, slots; by rewrite length_fmap, length_imap).
  unfold install_writes. fold (home_writes l L (disk_read D)).
  destruct (decide (k <= length L)%nat) as [Hk|Hk].
  - rewrite take_app_le, home_writes_take by lia.
    pose proof (header_take l L k Hh) as Hhk. set (D' := apply_writes D _).
    assert (forall m, in_log l m \/ m = 1 \/ m ∉ take k L -> disk_read D' m = disk_read D m) as Hfr
      by (intros; by apply home_writes_frame).
    split_and!; [by apply home_writes_ok|by rewrite Hfr by auto|].
    exists L. split_and!; [by rewrite Hfr by auto|done|]. intros m Hm.
    apply (content_cases l L D' m (fun d => d = _)); [done| |].
    + intros j Hj. rewrite (content_home _ _ _ j) by (done || apply Hh). apply Hfr. left. by eapply (slot_in_log l L).
    + intros HmL. rewrite content_other by done. apply Hfr. right; right. intros Hin. apply HmL.
      eapply elem_of_sublist; [done|apply sublist_take].
  - rewrite take_ge by (rewrite length_app, Hlen; simpl; lia). rewrite apply_writes_app.
    set (D' := apply_writes D _). change (apply_writes D' [(lstart l, h0)]) with (<[lstart l := h0]> D').
    assert (forall m, m = 1 \/ m ∉ L -> disk_read D' m = disk_read D m) as Hfr
      by (intros; apply home_writes_frame; auto).
    assert (lstart l <> 1) by (destruct Hg; lia).
    split_and!; [by apply disk_ok_insert; [apply home_writes_ok|]| |].
    { rewrite disk_read_insert_ne by done. by rewrite Hfr by auto. }
    exists []. split_and!; [by rewrite disk_read_insert_eq|by apply header_nil|].
    intros m Hm. rewrite content_nil, disk_read_insert_ne by (by intros <-). symmetry.
    apply (content_cases l L D m (fun d => d = _)); [done| |].
    + intros j Hj. symmetry. apply apply_writes_NoDup; [rewrite home_writes_fst; apply Hh|].
      by apply home_writes_lookup.
    + intros HmL. by rewrite Hfr by auto.
Qed.

(** Recovery of a recoverable disk returns, leaves an empty log and the
    contents [F], and every disk on the way is recoverable to the same [F]. *)
Lemma recover_recoverable l D F :
  log_geom l -> recoverable l D F ->
  exists s, recover D = Ret s tt /\ log_inv s ∅ [] /\
    lstart (lg s) = lstart l /\ lsize (lg s) = lsize l /\
    (forall m, ~ in_log l m -> blk (bio s) m = F m) /\
    forall k, recoverable l (apply_writes D (take k (trace (bio s)))) F.
Proof.
  intros Hg (HD & Hsb & L & Hdh & Hh & HF).
  destruct (recover_law l D L Hg HD Hsb Hdh Hh)
    as (s & h0 & R & Hg' & Hm & Hinv & E1 & E2 & Hl0 & Hd0 & Ed & Et & _).
  pose proof (fun k => install_prefix l D L h0 k Hg HD Hsb Hdh Hh Hl0 Hd0) as Hk. rewrite <- Et in Hk.
  assert (forall k, recoverable l (apply_writes D (take k (trace (bio s)))) F) as Hrec.
  { intros k. destruct (Hk k) as (? & ? & L' & ? & ? & HL'). split_and!; [done|done|].
    exists L'. split_and!; [done|done|]. intros m Hml. by rewrite HL', HF by done. }
  assert (disk_header (disk_read (dsk (bio s)) (lstart l)) []) as Hd.
  { rewrite Ed. unfold install_writes. rewrite apply_writes_app.
    change (apply_writes ?d [(lstart l, h0)]) with (<[lstart l := h0]> d). by rewrite disk_read_insert_eq. }
  destruct (Hrec (length (trace (bio s)))) as (_ & Hsb' & L' & HdL & _ & HL').
  rewrite firstn_all in Hsb', HdL, HL'. rewrite Et, <- Ed in Hsb', HdL, HL'.
  assert (L' = []) as ->.
  { apply length_zero_iff_nil. destruct HdL as [E _], Hd as [E' _]. simpl in E'. lia. }
  exists s. split; [exact R|]. clear R. split_and!; try done.
  - split; try done; [by apply header_nil|by rewrite E1|by unfold sb_ok; rewrite E1, E2].
  - intros m Hml. rewrite <- HL' by done. by rewrite content_nil, (blk_clean _ ∅ ∅) by done.
Qed.

(** After a reboot no operation is under way. *)
Lemma recover_idle l D F s : log_geom l -> recoverable l D F -> recover D = Ret s tt -> outstanding (lg s) = 0 /\ committing (lg s) = 0.
Proof.
  intros Hg (HD & Hsb & L & Hdh & Hh & _) R. destruct (recover_law l D L Hg HD Hsb Hdh Hh) as (s' & h0 & R' & H').
  rewrite R in R'. injection R' as <-. split; apply H'.
Qed.

Lemma elem_of_take_in {A} k (x : A) xs : x ∈ take k xs -> x ∈ xs.
Proof. intros Hin. eapply elem_of_sublist; [done|apply sublist_take]. Qed.

Lemma log_writes_snd l L v n d :
  (n, d) ∈ log_writes l L v -> n ∈ (slots l L).*1 /\ exists m, d = v m.
Proof.
  intros ([slot m] & [= -> ->] & Hin)%list_elem_of_fmap. split; [|by exists m].
  apply list_elem_of_fmap. by exists (slot, m).
Qed.

Lemma log_writes_fst l L v : (log_writes l L v).*1 = (slots l L).*1.
Proof. unfold log_writes. rewrite <- list_fmap_compose. apply list_fmap_ext. by intros ? []. Qed.

Lemma log_writes_frame l L v D m k :
  header_ok l L -> ~ in_log l m \/ m = lstart l ->
  disk_read (apply_writes D (take k (log_writes l L v))) m = disk_read D m.
Proof.
  intros Hh Hm. apply apply_writes_other.
  intros n d Hin ->. apply elem_of_take_in in Hin.
  apply log_writes_snd in Hin as [Hin _]. apply slots_in_log in Hin as [? ?]; [|done]. naive_solver.
Qed.

Lemma log_writes_ok l L v D k :
  disk_ok D -> (forall n, length (v n) = BSIZE) -> disk_ok (apply_writes D (take k (log_writes l L v))).
Proof.
  intros HD Hv. apply apply_writes_ok; [done|].
  intros n d Hin%elem_of_take_in.
  by apply log_writes_snd in Hin as [_ [m ->]].
Qed.

(** The disk on which the header of the transaction has just been written. *)
Lemma committed_disk s L hb :
  log_inv s ∅ L -> length hb = BSIZE -> disk_header hb L ->
  let l := lg s in
  let D := <[lstart l := hb]> (apply_writes (dsk (bio s)) (log_writes l L (blk (bio s)))) in
  disk_ok D /\ sb_ok l (disk_read D 1) /\ disk_header (disk_read D (lstart l)) L /\
  (forall j n, L !! j = Some n -> disk_read D (lstart l + Z.of_nat j + 1) = blk (bio s) n) /\
  forall m, ~ in_log l m -> content l L D m = blk (bio s) m.
Proof.
  destruct s as [l b]. intros [Hg Hh Hm Hinv Hd Hsb] Hlb Hhb. cbn [lg bio] in *.
  set (W := log_writes l L (blk b)).
  assert (forall m, ~ in_log l m \/ m = lstart l -> disk_read (apply_writes (dsk b) W) m = disk_read (dsk b) m) as Hfr.
  { intros m Hml. rewrite <- (firstn_all W). by apply log_writes_frame. }
  assert (~ in_log l 1) as H1 by (destruct Hg; unfold in_log; lia).
  set (D := <[lstart l := hb]> (apply_writes (dsk b) W)).
  assert (forall m, ~ in_log l m -> disk_read D m = disk_read (dsk b) m) as HfrD.
  { intros m Hml. unfold D. rewrite disk_read_insert_ne; [by apply Hfr; left|].
    intros <-. by apply Hml, lstart_in_log. }
  assert (forall j n, L !! j = Some n -> disk_read D (lstart l + Z.of_nat j + 1) = blk b n) as Hslot.
  { intros j n Hj. unfold D. rewrite disk_read_insert_ne by lia.
    apply apply_writes_NoDup; [unfold W; rewrite log_writes_fst; apply slots_nodup|].
    apply list_elem_of_fmap. exists (lstart l + Z.of_nat j + 1, n). split; [done|].
    apply (list_elem_of_lookup_2 _ j), slots_lookup. eauto. }
  split_and!; [|by rewrite HfrD|by unfold D; rewrite disk_read_insert_eq|done|].
  - apply disk_ok_insert; [|done]. unfold W. rewrite <- (firstn_all (log_writes _ _ _)).
    apply log_writes_ok; [exact (inv_disk _ _ _ Hinv)|]. intros n. by eapply blk_length.
  - intros m Hml. apply (content_cases l L D m (fun d => d = _)); [done| |].
    + intros j Hj. by apply Hslot.
    + intros HmL. rewrite HfrD by done. symmetry. eapply blk_clean; [done| |done].
      by rewrite elem_of_list_to_set.
Qed.

Lemma commit_writes_eq l L D (v : Z -> block) h0 :
  (forall j n, L !! j = Some n -> disk_read D (lstart l + Z.of_nat j + 1) = v n) ->
  ((fun n => (n, v n)) <$> L) ++ [(lstart l, h0)] = install_writes l L (disk_read D) h0.
Proof.
  intros Hs. unfold install_writes. f_equal. rewrite <- (slots_home l L) at 1.
  rewrite <- list_fmap_compose. apply list_fmap_ext.
  intros j [slot n] (m & Hm & [= -> ->])%slots_lookup. simpl. by rewrite (Hs j m).
Qed.

Lemma log_inv_nil l b :
  log_geom l -> bio_inv b ∅ ∅ -> disk_header (disk_read (dsk b) (lstart l)) [] ->
  sb_ok l (disk_read (dsk b) 1) -> log_inv (mk_ls (set_lh 0 (lh_block l) l) b) ∅ [].
Proof.
  intros Hg Hinv Hd Hsb. split; try done; [by apply geom_lh; [|apply Hg]|by apply header_lh, header_nil].
Qed.

(** Every prefix of the writes of a commit: up to the write of the header the
    disk recovers to its old contents, after it to the contents of the cache. *)
Lemma commit_prefix s L hb h0 k :
  log_inv s ∅ L -> length hb = BSIZE -> disk_header hb L -> length h0 = BSIZE -> disk_header h0 [] ->
  recoverable (lg s) (apply_writes (dsk (bio s)) (take k
      (log_writes (lg s) L (blk (bio s)) ++ [(lstart (lg s), hb)] ++
       ((fun n => (n, blk (bio s) n)) <$> L) ++ [(lstart (lg s), h0)])))
    (if decide (k <= length L)%nat then disk_read (dsk (bio s)) else blk (bio s)).
Proof.
  intros Hli Hlb Hhb Hl0 Hd0. pose proof Hli as [Hg Hh Hm Hinv Hd Hsb].
  pose proof (committed_disk s L hb Hli Hlb Hhb) as (Ok & Sb & Dh & Hs & Hc).
  set (Dc := <[lstart (lg s):=hb]> _) in *. set (LW := log_writes (lg s) L (blk (bio s))) in *.
  assert (length LW = length L) as Hlen by (unfold LW, log_writes, slots; by rewrite length_fmap, length_imap).
  case_decide as Hk.
  - rewrite take_app_le by lia. unfold LW.
    assert (~ in_log (lg s) 1) by (destruct Hg; unfold in_log; lia).
    split_and!; [apply log_writes_ok; [exact (inv_disk _ _ _ Hinv)|intros; by eapply blk_length]| |].
    + by rewrite log_writes_frame by auto.
    + exists []. split_and!; [by rewrite log_writes_frame by auto|by apply header_nil|].
      intros m Hml. by rewrite content_nil, log_writes_frame by auto.
  - rewrite take_app_ge by lia. rewrite Hlen. replace (k - length L)%nat with (S (k - length L - 1)) by lia.
    rewrite apply_writes_app. change (take (S ?n) ([?x] ++ ?y)) with (x :: take n y).
    change (apply_writes ?d ((lstart (lg s), hb) :: ?w)) with (apply_writes (<[lstart (lg s) := hb]> d) w).
    fold Dc. rewrite (commit_writes_eq (lg s) L Dc) by done.
    destruct (install_prefix (lg s) Dc L h0 (k - length L - 1)) as (? & ? & L' & ? & ? & HL'); try done.
    split_and!; [done|done|]. exists L'. split_and!; [done|done|]. intros m Hml. by rewrite HL', Hc.
Qed.

Lemma commit_recoverable s L :
  log_inv s ∅ L ->
  exists b' W, commit s = Ret (mk_ls (set_lh 0 (lh_block (lg s)) (lg s)) b') tt /\
    log_inv (mk_ls (set_lh 0 (lh_block (lg s)) (lg s)) b') ∅ [] /\
    (forall m, ~ in_log (lg s) m -> blk b' m = blk (bio s) m) /\
    dsk b' = apply_writes (dsk (bio s)) W /\ trace b' = trace (bio s) ++ W /\
    forall k, recoverable (lg s) (apply_writes (dsk (bio s)) (take k W))
      (if decide (k <= length L)%nat then disk_read (dsk (bio s)) else blk (bio s)).
Proof.
  intros Hli. pose proof Hli as [Hg Hh Hm Hinv Hd Hsb].
  destruct (decide (L = [])) as [->|Hne].
  { exists (bio s), []. unfold commit. mrun (getlog_ret s). rewrite (proj1 Hm). simpl.
    split_and!; [|by apply log_inv_nil|done|done|by rewrite app_nil_r|].
    - destruct s as [[] b], Hm as [Hm _]. simpl in Hm. by rewrite Hm.
    - intros k. rewrite take_nil. split_and!; [exact (inv_disk _ _ _ Hinv)|done|].
      exists []. split_and!; [done|done|].
      intros m _. rewrite content_nil. case_decide; [done|]. symmetry. by eapply blk_clean. }
  destruct (commit_law s L Hli Hne) as (b' & hb & h0 & R & I' & Hlb & Hhb & Hl0 & Hd0 & Ed & Et).
  pose proof (fun k => commit_prefix s L hb h0 k Hli Hlb Hhb Hl0 Hd0) as Hrec.
  eexists b', _. split; [exact R|]. clear R.
  match goal with |- ?A /\ ?B /\ _ => enough (A /\ B) as [HA HB] by (exact (conj HA (conj HB (conj Ed (conj Et Hrec))))) end.
  destruct (Hrec (length L + (2 + (length L + 1)))%nat) as (_ & Sb' & L' & Dh' & _ & Hc').
  rewrite take_ge, <- Ed in Sb', Dh', Hc'
    by (unfold log_writes, slots; rewrite ?length_app, ?length_fmap, ?length_imap; simpl; lia).
  assert (disk_header (disk_read (dsk b') (lstart (lg s))) []) as Hd'.
  { rewrite Ed, !app_assoc, apply_writes_app.
    change (apply_writes ?d [(?n, h0)]) with (<[n := h0]> d). by rewrite disk_read_insert_eq. }
  assert (L' = []) as ->.
  { apply length_zero_iff_nil. destruct Dh' as [E _], Hd' as [E' _]. simpl in E'. lia. }
  rewrite decide_False in Hc' by lia. split; [by apply log_inv_nil|].
  intros m Hml. rewrite <- Hc' by done. rewrite content_nil. by eapply blk_clean.
Qed.

(** Pinning a held buffer. *)
Lemma pin_law b held P n i :
  bio_inv b held P -> held !! n = Some i ->
  exists b', upd_buf i (fun c => set_flags (Z.lor (flags c) B_DIRTY) c) b = Ret b' tt /\
    bio_inv b' held ({[n]} ∪ P) /\ (forall m, blk b' m = blk b m) /\ dsk b' = dsk b /\ trace b' = trace b.
Proof.
  intros Hinv Hh. destruct (inv_held _ _ _ Hinv n i Hh) as (c & Hc). pose proof Hc as [[Hi Hb] _].
  rewrite (upd_buf_ret _ _ _ _ Hb). eexists. split; [done|].
  destruct (inv_upd b (upd_bufs <[i:=set_flags (Z.lor (flags c) B_DIRTY) c]> b) held P held ({[n]} ∪ P) i n c
    (set_flags (Z.lor (flags c) B_DIRTY) c)) as (Hinv' & Hbn & Hbm); auto; unfold has; cbn; autorewrite with flags.
  - apply driver_ok_bufs. by eapply inv_driver.
  - set_solver.
  - exact (inv_disk _ _ _ Hinv n).
  - by eapply (inv_valid _ _ _ Hinv i n c).
  - by eapply (inv_size _ _ _ Hinv i n c).
  - by eapply (inv_busy _ _ _ Hinv i n c).
  - set_solver.
  - intros _ Hno. congruence.
  - split_and!; auto. intros m. destruct (decide (m = n)) as [->|Hm]; [|by apply Hbm].
    rewrite Hbn. cbn. by rewrite (blk_caches _ _ _ _ _ _ Hinv Hc).
Qed.

Lemma log_slot_spec L bl n k i :
  take (length L) bl = L -> Forall on_disk L -> (i + k = length L)%nat ->
  (forall j, (j < i)%nat -> L !! j <> Some n) ->
  exists j, log_slot k i bl n = Some j /\
    (L !! j = Some n \/ (j = length L /\ n ∉ L)).
Proof.
  intros Ht Hd. revert i. induction k as [|k IH]; intros i Hi Hno; cbn [log_slot].
  - exists i. split; [done|]. right. split; [lia|]. intros (j & Hj)%list_elem_of_lookup.
    apply (Hno j); [|done]. apply lookup_lt_Some in Hj. lia.
  - destruct (lookup_lt_is_Some_2 L i ltac:(lia)) as [x Hx].
    assert (bl !! i = Some x) as -> by (rewrite <- Ht, lookup_take in Hx; by case_decide).
    rewrite (on_disk_u32 x) by (by eapply (proj1 (Forall_lookup _ _) Hd)).
    destruct (Z.eqb_spec x n) as [->|Hxn]; [eauto|]. apply IH; [lia|].
    intros j Hj. destruct (decide (j = i)) as [->|]; [congruence|]. apply Hno. lia.
Qed.

(** The blocks logged after one more [log_write]. *)
Definition absorb (n : Z) (L : list Z) : list Z := if decide (n ∈ L) then L else L ++ [n].

Lemma absorb_header l L n :
  header_ok l L -> on_disk n -> ~ in_log l n -> n <> 1 -> lsize l - 1 > Z.of_nat (length L) ->
  header_ok l (absorb n L).
Proof.
  intros [H1 H2 H3] Hd Hn H1' Hsz. unfold absorb. case_decide as Hin; [done|]. split.
  - apply NoDup_app. split_and!; [done|set_solver|apply NoDup_singleton].
  - apply Forall_app. by rewrite Forall_singleton.
  - rewrite length_app. simpl. lia.
Qed.

Lemma absorb_mem l L n j :
  mem_header l L -> (length L < length (lh_block l))%nat ->
  (L !! j = Some n \/ (j = length L /\ n ∉ L)) ->
  mem_header (set_lh (if Z.of_nat j =? lh_n l then lh_n l + 1 else lh_n l) (<[j := n]> (lh_block l)) l) (absorb n L).
Proof.
  intros [Hn Ht] Hlen Hj. unfold absorb, mem_header. cbn. rewrite Hn. destruct Hj as [Hj|[-> Hj]].
  - rewrite decide_True by (by eapply list_elem_of_lookup_2). pose proof (lookup_lt_Some _ _ _ Hj).
    rewrite (proj2 (Z.eqb_neq _ _)) by lia. split; [done|].
    assert (lh_block l !! j = Some n) as Hb by (rewrite <- Ht, lookup_take in Hj; by case_decide).
    by rewrite list_insert_id by done.
  - rewrite decide_False by done. rewrite Z.eqb_refl, length_app. simpl. split; [lia|].
    rewrite Nat.add_1_r, (take_S_r _ _ n) by (by apply list_lookup_insert_eq).
    by rewrite take_insert_ge, Ht by lia.
Qed.

Lemma log_write_law s held L n i :
  log_inv s held L -> held !! n = Some i -> on_disk n -> ~ in_log (lg s) n -> n <> 1 ->
  1 <= outstanding (lg s) -> lh_n (lg s) < lsize (lg s) - 1 ->
  exists s', log_write i s = Ret s' tt /\ log_inv s' held (absorb n L) /\
    (forall m, blk (bio s') m = blk (bio s) m) /\ dsk (bio s') = dsk (bio s) /\
    trace (bio s') = trace (bio s) /\ outstanding (lg s') = outstanding (lg s) /\
    committing (lg s') = committing (lg s) /\ lstart (lg s') = lstart (lg s) /\ lsize (lg s') = lsize (lg s).
Proof.
  destruct s as [l b]. intros [Hg Hh Hm Hinv Hd Hsb] Hheld Hn Hnl Hn1 Hout Hsz. cbn [lg bio] in *.
  assert (length L < length (lh_block l))%nat as Hlen.
  { rewrite (geom_len _ Hg). destruct Hg, Hm. unfold LOGSIZE in *. lia. }
  destruct (inv_held _ _ _ Hinv n i Hheld) as (c & [[_ Hb] [Hdev Hbn]]).
  destruct (log_slot_spec L (lh_block l) n (length L) 0) as (j & Hslot & Hj); [apply Hm| |lia|lia|].
  { eapply Forall_impl; [apply (hdr_home _ _ Hh)|naive_solver]. }
  destruct (pin_law b held (list_to_set L) n i Hinv Hheld) as (b' & R & I' & B' & D' & T').
  pose proof (absorb_mem l L n j Hm Hlen Hj) as Hm'.
  set (l' := set_lh _ _ l) in Hm'.
  exists (mk_ls l' b'). split_and!; try done.
  - unfold log_write. mrun (getlog_ret (mk_ls l b)). cbn [lg].
    assert ((Z.of_nat LOGSIZE <=? lh_n l) || (lsize l - 1 <=? lh_n l) = false) as ->
      by (destruct Hg; apply orb_false_iff; rewrite !Z.leb_gt; lia).
    rewrite (proj2 (Z.ltb_ge _ _)) by done.
    mrun (inbio_ret _ (mk_ls l b) _ _ (buf_at_ret _ _ _ Hb)). rewrite (proj1 Hm), Nat2Z.id, Hbn, Hslot, from_opt_bind.
    rewrite decide_True by (destruct Hj as [Hj%lookup_lt_Some|[-> _]]; lia).
    rewrite ret_bind.
    rewrite (on_disk_i32 n) by done.
    mrun (modlog_ret (set_lh (if Z.of_nat j =? Z.of_nat (length L) then Z.of_nat (length L) + 1 else Z.of_nat (length L))
      (<[j := n]> (lh_block l))) (mk_ls l b)).
    replace (set_lh _ _ l) with l' by (unfold l'; by rewrite (proj1 Hm)).
    exact (inbio_ret _ (mk_ls l' b) _ _ R).
  - split; cbn [lg bio]; try done.
    + apply geom_lh; [done|]. rewrite length_insert. apply Hg.
    + apply header_lh, absorb_header; try done. rewrite <- (proj1 Hm). lia.
    + replace (list_to_set (absorb n L)) with ({[n]} ∪ list_to_set L : gset Z); [done|].
      unfold absorb. case_decide; [set_solver|]. rewrite list_to_set_app_L. set_solver.
    + by rewrite D'.
    + by rewrite D'.
Qed.

(** ** Crashes *)

(** A reboot: recovery runs to its end, or crashes after some of its writes
    and the machine reboots again. *)
Inductive recovery (D : gmap Z block) : log_state -> Prop :=
| recovery_done s : recover D = Ret s tt -> recovery D s
| recovery_crash s k s' : recover D = Ret s tt ->
    recovery (apply_writes D (take k (trace (bio s)))) s' -> recovery D s'.

Lemma recovery_rest l D F s :
  log_geom l -> recovery D s -> recoverable l D F ->
  log_inv s ∅ [] /\ (forall m, ~ in_log l m -> blk (bio s) m = F m) /\
  lstart (lg s) = lstart l /\ lsize (lg s) = lsize l /\ outstanding (lg s) = 0 /\ committing (lg s) = 0.
Proof.
  intros Hg. induction 1 as [D s R|D s k s' R Hr IH]; intros Hrec;
    destruct (recover_recoverable l D F Hg Hrec) as (s1 & R1 & I1 & E1 & E2 & B1 & Hk);
    rewrite R1 in R; injection R as ->.
  - destruct (recover_idle l D F s Hg Hrec R1) as [Ho Hc]. exact (conj I1 (conj B1 (conj E1 (conj E2 (conj Ho Hc))))).
  - apply IH, Hk.
Qed.

Lemma recovery_sound l D F s :
  log_geom l -> recovery D s -> recoverable l D F ->
  log_inv s ∅ [] /\ forall m, ~ in_log l m -> blk (bio s) m = F m.
Proof. intros Hg Hr Hrec. destruct (recovery_rest l D F s Hg Hr Hrec) as (H1 & H2 & _). exact (conj H1 H2). Qed.

Lemma log_inv_counts l l' b held L :
  lstart l' = lstart l -> lsize l' = lsize l -> ldev l' = ldev l -> lh_n l' = lh_n l ->
  lh_block l' = lh_block l -> log_inv (mk_ls l b) held L -> log_inv (mk_ls l' b) held L.
Proof.
  destruct l, l'. simpl. intros -> -> -> -> -> [[] [] Hm Hb Hd Hs]. split; [by split|by split|done..].
Qed.

Lemma bio_inv_woken b held P c : bio_inv b held P -> bio_inv (add_woken c b) held P.
Proof. intros []. split; try done. by apply driver_ok_woken. Qed.

Lemma recoverable_ext l l' D F : lstart l' = lstart l -> lsize l' = lsize l -> recoverable l D F -> recoverable l' D F.
Proof.
  intros E1 E2 (HD & Hsb & L & Hd & [H1 H2 H3] & HF). unfold recoverable, sb_ok, in_log, content in *.
  rewrite E1, E2. split; [done|]. split; [done|]. exists L. split; [done|]. split; [|done].
  split; [done| |by rewrite E2]. eapply Forall_impl; [exact H2|]. unfold in_log. by rewrite E1, E2.
Qed.

(** The end of the last operation, with the disk that each prefix of its
    writes leaves. *)
Lemma end_op_last s L :
  log_inv s ∅ L -> outstanding (lg s) = 1 -> committing (lg s) = 0 ->
  exists s' W, end_op s = Ret s' tt /\ log_inv s' ∅ [] /\ outstanding (lg s') = 0 /\ committing (lg s') = 0 /\
    lstart (lg s') = lstart (lg s) /\ lsize (lg s') = lsize (lg s) /\
    (forall m, ~ in_log (lg s) m -> blk (bio s') m = blk (bio s) m) /\
    dsk (bio s') = apply_writes (dsk (bio s)) W /\ trace (bio s') = trace (bio s) ++ W /\
    forall k, recoverable (lg s) (apply_writes (dsk (bio s)) (take k W))
      (if decide (k <= length L)%nat then disk_read (dsk (bio s)) else blk (bio s)).
Proof.
  destruct s as [l b]. cbn [lg bio]. intros Hinv Ho Hc.
  set (l1 := set_committing 1 (set_outstanding 0 l)).
  assert (log_inv (mk_ls l1 b) ∅ L) as Hinv1 by (by apply (log_inv_counts l)).
  destruct (commit_recoverable _ _ Hinv1) as (b' & W & R & I' & B' & D' & T' & Hk).
  set (l2 := set_committing 0 (lg (mk_ls (set_lh 0 (lh_block l1) l1) b'))).
  exists (mk_ls l2 (add_woken ChLog b')), W. split_and!; try done.
  - unfold end_op. mrun (getlog_ret (mk_ls l b)). cbn [lg]. rewrite Ho. change (1 - 1) with 0.
    mrun (modlog_ret (set_outstanding 0) (mk_ls l b)). mrun (getlog_ret (mk_ls (set_outstanding 0 l) b)).
    cbn [lg bio set_outstanding committing outstanding]. rewrite Hc. cbn [negb Z.eqb].
    mrun (modlog_ret (set_committing 1) (mk_ls (set_outstanding 0 l) b)).
    mrun R. done.
  - apply (log_inv_counts (set_lh 0 (lh_block l1) l1)); try done.
    destruct I'. split; try done. by apply bio_inv_woken.
  - intros k. by apply (recoverable_ext l1).
Qed.

(** ** Theorems *)

(** C2: group commit is atomic with respect to crashes.  When the last
    outstanding operation ends, [end_op] returns, the log is empty and the
    file system's blocks are what the cache held.  If the machine stops after
    the first [k] disk writes of the commit, recovery returns, and every
    reboot, even one whose recovery crashes any number of times, ends with the
    home blocks as they were before the transaction when [k] is at most the
    number of logged blocks, and with all of the transaction otherwise. *)
Theorem end_op_crash_atomic s L :
  log_inv s ∅ L -> outstanding (lg s) = 1 -> committing (lg s) = 0 ->
  exists s' W, end_op s = Ret s' tt /\ log_inv s' ∅ [] /\ outstanding (lg s') = 0 /\ committing (lg s') = 0 /\
    (forall m, ~ in_log (lg s) m -> blk (bio s') m = blk (bio s) m) /\
    trace (bio s') = trace (bio s) ++ W /\
    forall k, let D := apply_writes (dsk (bio s)) (take k W) in
      (exists r, recover D = Ret r tt) /\
      forall r, recovery D r -> log_inv r ∅ [] /\
        forall m, ~ in_log (lg s) m ->
          blk (bio r) m = if decide (k <= length L)%nat then disk_read (dsk (bio s)) m else blk (bio s) m.
Proof.
  intros Hinv Ho Hc. destruct (end_op_last s L Hinv Ho Hc) as (s' & W & R & I' & Ho' & Hc' & _ & _ & B' & _ & T' & Hk).
  exists s', W. split_and!; try done. intros k. specialize (Hk k). cbv zeta.
  set (D := apply_writes (dsk (bio s)) (take k W)) in *. clearbody D.
  destruct (recover_recoverable (lg s) D _ (li_geom _ _ _ Hinv) Hk) as (r & Hr & _). split; [by exists r|].
  intros r' Hr'. destruct (recovery_sound (lg s) D _ r' (li_geom _ _ _ Hinv) Hr' Hk) as [Hi Hb].
  split; [done|]. intros m Hm. rewrite Hb by done. by case_decide.
Qed.

(** [log_write] on a held buffer of a home block, inside an operation and
    with room in the log, returns; it records the block number once however
    often the block is written, pins the buffer, and writes nothing to disk. *)
Theorem log_write_absorbs s held L n i :
  log_inv s held L -> held !! n = Some i -> on_disk n -> ~ in_log (lg s) n -> n <> 1 ->
  1 <= outstanding (lg s) -> lh_n (lg s) < lsize (lg s) - 1 ->
  exists s', log_write i s = Ret s' tt /\ log_inv s' held (if decide (n ∈ L) then L else L ++ [n]) /\
    (forall m, blk (bio s') m = blk (bio s) m) /\ trace (bio s') = trace (bio s).
Proof.
  intros. destruct (log_write_law s held L n i) as (s' & R & I' & B' & _ & T' & _); try done.
  by exists s'.
Qed.

(** ** Log space

    Operations in progress, each with the number of blocks it may still log:
    [begin_op] starts an operation with [MAXOPBLOCKS], each [log_write] of an
    operation uses one, any of them may end. *)
Definition budget := list nat.
Inductive op_step : log_state * budget -> log_state * budget -> Prop :=
| op_begin s s' ops : begin_op s = Ret s' tt ->
    op_step (s, ops) (s', Z.to_nat MAXOPBLOCKS :: ops)
| op_write s s' i ops1 c ops2 : log_write i s = Ret s' tt ->
    op_step (s, ops1 ++ S c :: ops2) (s', ops1 ++ c :: ops2)
| op_end s s' ops1 c ops2 : end_op s = Ret s' tt ->
    op_step (s, ops1 ++ c :: ops2) (s', ops1 ++ ops2).

Record space_inv (st : log_state * budget) : Prop := {
  sp_out : outstanding (lg st.1) = Z.of_nat (length st.2);
  sp_commit : committing (lg st.1) = 0;
  sp_n : 0 <= lh_n (lg st.1);
  sp_each : Forall (fun c => c <= Z.to_nat MAXOPBLOCKS)%nat st.2;
  sp_sum : lh_n (lg st.1) + Z.of_nat (sum_list st.2) <= Z.of_nat LOGSIZE
}.

Definition keeps_log {A} (m : M log_state A) : Prop :=
  forall s s' a, m s = Ret s' a -> lg s' = lg s.

Lemma keeps_bind {A B} (m : M log_state A) (k : A -> M log_state B) :
  keeps_log m -> (forall a, keeps_log (k a)) -> keeps_log (bind m k).
Proof.
  intros Hm Hk s s' a. unfold bind. destruct (m s) as [s1 x| | |] eqn:E; try done.
  intros Hr. rewrite (Hk x _ _ _ Hr). by eapply Hm.
Qed.

Lemma keeps_inbio {A} (m : M bio_state A) : keeps_log (inbio m).
Proof. intros s s' a. unfold inbio, zoom. destruct (m (bio s)); try done. by intros [= <- <-]. Qed.

Lemma keeps_write_head : keeps_log write_head.
Proof.
  unfold write_head. apply keeps_bind; [by intros ? ? ? [= <- <-]|]. intros l.
  repeat (apply keeps_bind; [|intros]); try apply keeps_inbio.
  case_decide; [apply keeps_inbio|done].
Qed.

Lemma keeps_for_M lo hi f : (forall i, keeps_log (f i)) -> keeps_log (for_M lo hi f).
Proof.
  intros Hf. unfold for_M. induction (seq lo (hi - lo)) as [|i js IH]; simpl.
  - by intros ? ? ? [= <- <-].
  - by apply keeps_bind.
Qed.

Lemma keeps_from_opt {A} (o : option A) : keeps_log (from_opt o).
Proof. destruct o; [|done]. by intros ? ? ? [= <- <-]. Qed.

Lemma keeps_getlog : keeps_log getlog.
Proof. by intros ? ? ? [= <- <-]. Qed.

Create HintDb keeps.
#[local] Hint Resolve keeps_inbio keeps_for_M keeps_from_opt keeps_getlog keeps_write_head : keeps.

Ltac keeps := repeat (apply keeps_bind; [|intros]); auto with keeps.

Lemma keeps_install : keeps_log install_trans.
Proof. unfold install_trans, install_block. keeps. apply keeps_for_M. intros. keeps. Qed.

Lemma keeps_write_log : keeps_log write_log.
Proof. unfold write_log, write_log_block. keeps. apply keeps_for_M. intros. keeps. Qed.

Lemma commit_resets s s' :
  0 <= lh_n (lg s) -> commit s = Ret s' tt -> lg s' = set_lh 0 (lh_block (lg s)) (lg s).
Proof.
  intros Hn. unfold commit. rewrite (bind_ret _ _ _ _ _ (getlog_ret s)).
  destruct (Z.ltb_spec 0 (lh_n (lg s))); simpl.
  - intros (s1 & [] & H1 & (s2 & [] & H2 & (s3 & [] & H3 & H4)%bind_inv)%bind_inv)%bind_inv.
    rewrite (bind_ret _ _ _ _ _ (modlog_ret _ _)) in H4. apply keeps_write_head in H4. rewrite H4. simpl.
    by rewrite (keeps_install _ _ _ H3), (keeps_write_head _ _ _ H2), (keeps_write_log _ _ _ H1).
  - intros [= <-]. destruct s as [[] ?]. simpl in *. by replace lh_n0 with 0 by lia.
Qed.

(** What a [log_write] that returns does to the counters. *)
Lemma log_write_counts i s s' :
  log_write i s = Ret s' tt ->
  outstanding (lg s') = outstanding (lg s) /\ committing (lg s') = committing (lg s) /\
  lsize (lg s') = lsize (lg s) /\
  (lh_n (lg s') = lh_n (lg s) \/ lh_n (lg s') = lh_n (lg s) + 1).
Proof.
  unfold log_write. rewrite (bind_ret _ _ _ _ _ (getlog_ret s)).
  destruct (_ || _); [done|]. destruct (_ <? _); [done|].
  intros (s1 & c & H1 & (s2 & k & H2 & (s3 & [] & H3 & (s4 & [] & [= <-] & H5)%bind_inv)%bind_inv)%bind_inv)%bind_inv.
  apply keeps_inbio in H1, H5. apply keeps_from_opt in H2.
  assert (lg s3 = lg s2) as E3 by (revert H3; case_decide; [by intros [= <-]|done]).
  rewrite H5. cbn. rewrite E3, H2, H1. split_and!; try done. case_match; auto.
Qed.

(** What an [end_op] that returns does to the counters. *)
Lemma end_op_counts s s' :
  0 <= lh_n (lg s) -> end_op s = Ret s' tt ->
  outstanding (lg s') = outstanding (lg s) - 1 /\ committing (lg s') = 0 /\
  lh_n (lg s') = if outstanding (lg s) =? 1 then 0 else lh_n (lg s).
Proof.
  intros Hn. unfold end_op. rewrite (bind_ret _ _ _ _ _ (getlog_ret s)), (bind_ret _ _ _ _ _ (modlog_ret _ s)).
  rewrite (bind_ret _ _ _ _ _ (getlog_ret _)). cbn [lg set_outstanding outstanding committing].
  destruct (Z.eqb_spec (committing (lg s)) 0) as [Hc|]; [cbn [negb]|done].
  replace (outstanding (lg s) =? 1) with (outstanding (lg s) - 1 =? 0) by (apply eq_true_iff_eq; rewrite !Z.eqb_eq; lia).
  case_match.
  - rewrite (bind_ret _ _ _ _ _ (modlog_ret _ _)). cbn [lg bio].
    intros (s1 & [] & H1%commit_resets & H2)%bind_inv; [|done].
    rewrite (bind_ret _ _ _ _ _ (modlog_ret _ _)) in H2. apply keeps_inbio in H2. rewrite H2. cbn. by rewrite H1.
  - intros H1%keeps_inbio. by rewrite H1.
Qed.

Lemma space_step st st' : op_step st st' -> space_inv st -> space_inv st'.
Proof.
  destruct 1 as [s s' ops R|s s' i ops1 c ops2 R|s s' ops1 c ops2 R]; intros [Ho Hc Hn He Hs]; cbn [fst snd] in *.
  - revert R. unfold begin_op. rewrite (bind_ret _ _ _ _ _ (getlog_ret s)). rewrite Hc. cbn [negb Z.eqb].
    destruct (Z.ltb_spec (Z.of_nat LOGSIZE) (lh_n (lg s) + (outstanding (lg s) + 1) * MAXOPBLOCKS)); [done|]. intros [= <-].
    unfold LOGSIZE in *.
    assert (sum_list ops <= length ops * 10)%nat.
    { clear -He. change (Z.to_nat MAXOPBLOCKS) with 10%nat in He. induction He; simpl; lia. }
    unfold MAXOPBLOCKS in *. change (Z.to_nat 10) with 10%nat in *.
    split; cbn [fst snd lg outstanding committing lh_n set_outstanding length sum_list sum_list_with].
    + lia.
    + done.
    + done.
    + change (Z.to_nat MAXOPBLOCKS) with 10%nat. by constructor.
    + unfold id, LOGSIZE in *. lia.
  - apply log_write_counts in R as (E1 & E2 & E3 & E4). rewrite sum_list_with_app in Hs.
    rewrite length_app in Ho. cbn [sum_list_with length] in *. unfold id in *. apply Forall_app in He as [He1 [He2 He3]%Forall_cons].
    split; cbn; rewrite ?length_app, ?sum_list_with_app; cbn [sum_list_with length]; unfold id in *; [lia|lia|lia| |lia].
    apply Forall_app. split; [done|]. constructor; [lia|done].
  - apply end_op_counts in R as (E1 & E2 & E3); [|done]. rewrite sum_list_with_app in Hs.
    rewrite length_app in Ho. cbn [sum_list_with length] in *. unfold id in *. apply Forall_app in He as [He1 [He2 He3]%Forall_cons].
    rewrite Ho in E3.
    split; cbn; rewrite ?length_app, ?sum_list_with_app; cbn [sum_list_with length]; unfold id in *; [lia|lia| |by apply Forall_app|];
      rewrite E3; case_match; lia.
Qed.

(** C15: the reservation of [begin_op] is enough for the log header.  However
    operations that log at most [MAXOPBLOCKS] blocks each interleave, the
    logged blocks and the unused reservations never exceed [LOGSIZE], so a
    [log_write] within its operation's reservation cannot panic if the log on
    disk has a block for each of them besides its header. *)
Theorem log_space_suffices s0 s ops1 c ops2 i msg :
  rtc op_step (s0, []) (s, ops1 ++ S c :: ops2) ->
  outstanding (lg s0) = 0 -> committing (lg s0) = 0 -> lh_n (lg s0) = 0 ->
  Z.of_nat LOGSIZE + 1 <= lsize (lg s) ->
  log_write i s <> Panic msg.
Proof.
  intros Hr Ho Hc Hn Hsz.
  assert (space_inv (s, ops1 ++ S c :: ops2)) as [Ho' Hc' Hn' He' Hs'].
  { assert (space_inv (s0, [])) as H0 by (split; cbn; lia || constructor).
    revert H0. induction Hr as [|x y z Hxy _ IH]; [done|]. intros H0. apply IH. by eapply space_step. }
  cbn [fst snd] in *. rewrite length_app in Ho'. rewrite sum_list_with_app in Hs'.
  cbn [sum_list_with length] in *. unfold id in *.
  unfold log_write. rewrite (bind_ret _ _ _ _ _ (getlog_ret s)).
  assert ((Z.of_nat LOGSIZE <=? lh_n (lg s)) || (lsize (lg s) - 1 <=? lh_n (lg s)) = false) as ->.
  { apply orb_false_iff. rewrite !Z.leb_gt. unfold LOGSIZE in *. lia. }
  rewrite (proj2 (Z.ltb_ge _ _)) by lia.
  destruct (bufs (bio s) !! i) as [c'|] eqn:Eb.
  - rewrite (bind_ret _ _ _ _ _ (inbio_ret _ s _ _ (buf_at_ret _ _ _ Eb))).
    destruct (log_slot _ _ _ _) as [k|]; [rewrite from_opt_bind|done]. case_decide; [|done].
    rewrite ret_bind, (bind_ret _ _ _ _ _ (modlog_ret _ _)).
    unfold inbio, zoom. cbn [lg bio]. by rewrite (upd_buf_ret _ _ _ _ Eb).
  - unfold bind at 1. unfold inbio, zoom, buf_at, bind, gets. by rewrite Eb.
Qed.
End log_laws.

(** ** Witnesses: the in-memory driver on a disk with a superblock and a log
    of the size mkfs makes *)

#[local] Existing Instance mem_driver.

Definition demo_sb : block := wr32 (wr32 zero_block 12 (Z.of_nat LOGSIZE)) 16 2.
Definition demo_disk : gmap Z block := <[1 := demo_sb]> ∅.
Definition demo_log : log := mk_log 2 (Z.of_nat LOGSIZE) 0 0 ROOTDEV 0 (replicate LOGSIZE 0).

(** Read a block, change it if asked to, and log it. *)
Definition log_block (n : Z) (d : option block) : M log_state unit :=
  let* i := inbio (bread ROOTDEV n) in
  (match d with Some d => inbio (buf_store i d) | None => ret tt end) ;;;
  log_write i ;;;
  inbio (brelse i).

Lemma demo_geom : log_geom demo_log.
Proof. by split. Qed.

Lemma demo_recoverable : recoverable demo_log demo_disk (disk_read demo_disk).
Proof.
  split_and!; [apply disk_ok_insert; [apply disk_ok_empty|by vm_compute]|by vm_compute|].
  exists []. split_and!; [|apply header_nil, demo_geom|done]. by split; vm_compute.
Qed.

Lemma demo_boot : exists s, recover demo_disk = Ret s tt /\ log_inv s ∅ [] /\ lg s = demo_log.
Proof.
  destruct (recover_recoverable demo_log demo_disk _ demo_geom demo_recoverable) as (s & R & Hinv & _).
  exists s. split; [exact R|]. split; [exact Hinv|]. revert R. vm_compute. intros R. by injection R as <-.
Qed.

(** A transaction that changed block 100. *)
Definition sevens : block := replicate BSIZE 7.
Lemma demo_transaction : exists s0 s, recover demo_disk = Ret s0 tt /\
  (begin_op ;;; log_block 100 (Some sevens)) s0 = Ret s tt /\
  log_inv s ∅ [100] /\ outstanding (lg s) = 1 /\ committing (lg s) = 0 /\ lsize (lg s) = 30.
Proof.
  destruct demo_boot as ([l b] & R0 & Hinv & El). cbn in El. subst l. exists (mk_ls demo_log b).
  enough (exists s, (begin_op ;;; log_block 100 (Some sevens)) (mk_ls demo_log b) = Ret s tt /\
    log_inv s ∅ [100] /\ outstanding (lg s) = 1 /\ committing (lg s) = 0 /\ lsize (lg s) = 30) as [s Hs]
    by (exists s; split; [exact R0|exact Hs]).
  clear R0.
  set (l1 := set_outstanding 1 demo_log).
  assert (log_inv (mk_ls l1 b) ∅ []) as Hi1 by (by apply (log_inv_counts demo_log)).
  destruct (bread_law b ∅ ∅ 100) as (b1 & i & R1 & I1 & _ & D1 & _);
    [apply Hinv|by unfold on_disk, FSSIZE|done|left; vm_compute; lia|].
  destruct (buf_store_law b1 _ ∅ 100 i sevens I1 (lookup_insert_eq _ _ _))
    as (b2 & R2 & I2 & _ & _ & D2 & _); [by vm_compute|].
  assert (log_inv (mk_ls l1 b2) (<[100:=i]> ∅) []) as Hi2.
  { destruct Hi1 as [H1 H2 H3 H4 H5 H6]. split; cbn [lg bio] in *; try done; by rewrite D2, D1. }
  destruct (log_write_law (mk_ls l1 b2) _ [] 100 i Hi2 (lookup_insert_eq _ _ _))
    as ([l3 b3] & R3 & I3 & _ & _ & _ & E3 & E4 & _ & E5);
    [by unfold on_disk, FSSIZE|unfold in_log; cbn; unfold LOGSIZE; lia|lia|cbn; lia|cbn; unfold LOGSIZE; lia|].
  destruct (brelse_law b3 _ _ 100 i (li_bio _ _ _ I3) (lookup_insert_eq _ _ _))
    as (b4 & R4 & I4 & _ & D4 & _); [left; set_solver|].
  exists (mk_ls l3 b4). split.
  - mrun (eq_refl : begin_op (mk_ls demo_log b) = Ret (mk_ls l1 b) tt).
    unfold log_block. mrun (inbio_ret _ (mk_ls l1 b) _ _ R1). mrun (inbio_ret _ (mk_ls l1 b1) _ _ R2).
    mrun R3. exact (inbio_ret _ (mk_ls l3 b3) _ _ R4).
  - split; [|split; [exact E3|split; [exact E4|exact E5]]]. rewrite delete_insert_id in I4 by done.
    destruct I3 as [H1 H2 H3 H4 H5 H6]. split; cbn [lg bio] in *; try done; by rewrite D4.
Qed.

Lemma end_op_crash_atomic_witness :
  exists s s' W, log_inv s ∅ [100] /\ end_op s = Ret s' tt /\
    trace (bio s') = trace (bio s) ++ W /\
    forall r, recovery (apply_writes (dsk (bio s)) (take 2 W)) r -> blk (bio r) 100 = blk (bio s) 100.
Proof.
  destruct demo_transaction as (s0 & s & _ & _ & Hinv & Ho & Hc & _).
  destruct (end_op_crash_atomic s [100] Hinv Ho Hc) as (s' & W & R & _ & _ & _ & _ & T & Hk).
  exists s, s', W. split; [exact Hinv|]. split; [exact R|]. split; [exact T|].
  intros r Hr. destruct (Hk 2%nat) as [_ Hall]. destruct (Hall r Hr) as [_ Hm]. rewrite Hm; [reflexivity|].
  intros Hin. destruct (home_elem _ _ 100 (li_header _ _ _ Hinv)) as (_ & Hn & _); [left|]. by apply Hn.
Defined.

Lemma log_write_absorbs_witness :
  exists s i s', log_inv s (<[100 := i]> ∅) [100] /\ log_write i s = Ret s' tt /\
    log_inv s' (<[100 := i]> ∅) [100].
Proof.
  destruct demo_transaction as (s0 & [l b] & _ & _ & Hinv & Ho & Hc & Hs).
  destruct (bread_law b ∅ {[100]} 100) as (b1 & i & R1 & I1 & _ & D1 & _).
  - pose proof (li_bio _ _ _ Hinv) as Hb. cbn in Hb. by rewrite union_empty_r_L in Hb.
  - by unfold on_disk, FSSIZE.
  - done.
  - right. set_solver.
  - assert (log_inv (mk_ls l b1) (<[100 := i]> ∅) [100]) as Hi.
    { destruct Hinv as [H1 H2 H3 H4 H5 H6]. split; cbn [lg bio] in *; try done; by rewrite D1. }
    destruct (home_elem l [100] 100 (li_header _ _ _ Hinv)) as (Hd & Hn & H1); [left|].
    destruct (li_mem _ _ _ Hinv) as [Hm _].
    destruct (log_write_absorbs (mk_ls l b1) (<[100 := i]> ∅) [100] 100 i Hi (lookup_insert_eq _ _ _) Hd Hn H1)
      as (s' & R & I' & _); [cbn in *; lia|cbn in *; lia|].
    exists (mk_ls l b1), i, s'. split; [exact Hi|]. split; [exact R|]. exact I'.
Defined.

(** Three operations that log [MAXOPBLOCKS] distinct blocks each. *)
Definition three_ops : M log_state unit :=
  begin_op ;;; begin_op ;;; begin_op ;;; for_M 100 129 (fun n => log_block (Z.of_nat n) None).

(** The log mkfs makes has [LOGSIZE] blocks, one of them its header, but
    [begin_op] admits operations that log [LOGSIZE] blocks: the last block of
    three operations within their reservation makes [log_write] panic. *)
Theorem reservation_exceeds_log :
  exists s0 s, recover demo_disk = Ret s0 tt /\ three_ops s0 = Ret s tt /\
    outstanding (lg s) = 3 /\ lh_n (lg s) = 29 /\
    log_block 129 None s = Panic "too big a transaction".
Proof. eexists _, _. split; [vm_compute; reflexivity|]. split; [vm_compute; reflexivity|]. by vm_compute. Qed.

Lemma log_space_suffices_witness :
  log_write 0 (mk_ls (mk_log 2 31 1 0 ROOTDEV 0 (replicate LOGSIZE 0)) (binit (boot_bio ∅)))
    <> Panic "too big a transaction".
Proof.
  apply (log_space_suffices (mk_ls (mk_log 2 31 0 0 ROOTDEV 0 (replicate LOGSIZE 0)) (binit (boot_bio ∅)))
           _ [] 9 [] 0).
  - apply rtc_once, (op_begin _ _ []). reflexivity.
  - reflexivity.
  - reflexivity.
  - reflexivity.
  - vm_compute. discriminate.
Defined.
