(* ===== verification/Kalloc.v ===== *)
(** * Kalloc: physical memory and its page allocator (kalloc.c)

    The kernel sees physical memory at [KERNBASE].  Memory is a map from page
    frames to pages of bytes; a kernel pointer is its 32-bit value.  The free
    list of kalloc.c is threaded through the free pages themselves. *)
From stdpp Require Import base numbers list gmap strings.
From Stdlib Require Import ZArith Lia.
From S2P Require Import Prelude Bytes.

Local Open Scope Z_scope.

Definition PGSIZE : Z := 4096.
Definition EXTMEM : Z := 0x100000.
Definition PHYSTOP : Z := 0xE000000.
Definition DEVSPACE : Z := 0xFE000000.
Definition KERNBASE : Z := 0x80000000.
Definition KERNLINK : Z := KERNBASE + EXTMEM.

Definition v2p (a : Z) : Z := u32 (a - KERNBASE).
Definition p2v (a : Z) : Z := u32 (a + KERNBASE).
Definition PGROUNDUP (sz : Z) : Z := Z.land (u32 (sz + PGSIZE - 1)) (u32 (Z.lnot (PGSIZE - 1))).
Definition PGROUNDDOWN (a : Z) : Z := Z.land a (u32 (Z.lnot (PGSIZE - 1))).

(** ** Memory *)

Abbreviation page := (list Z).
Definition zero_page : page := replicate (Z.to_nat PGSIZE) 0.
Abbreviation ram := (gmap Z page).

(** The frame a kernel address lies in, and the page in that frame. *)
Definition frame (a : Z) : Z := v2p a / PGSIZE.
Definition offset (a : Z) : nat := Z.to_nat (a mod PGSIZE).
Definition page_at (m : ram) (f : Z) : page := default zero_page (m !! f).

Definition load32 (a : Z) (m : ram) : Z := rd32 (page_at m (frame a)) (offset a).
Definition store32 (a v : Z) (m : ram) : ram :=
  <[frame a := wr32 (page_at m (frame a)) (offset a) v]> m.

(** [memset(a, c, n)] and [memmove(a, src, n)] inside one page. *)
Definition store_bytes (a : Z) (src : list Z) (m : ram) : ram :=
  <[frame a := memmove_in (page_at m (frame a)) (offset a) src]> m.
Definition mem_set (a c n : Z) (m : ram) : ram := store_bytes a (replicate (Z.to_nat n) (u8 c)) m.

(** ** The allocator *)

(** [kmem], with the memory the free list lives in. *)
Record kmem := mk_kmem { use_lock : Z; freelist : Z; mem : ram }.

Definition set_freelist (p : Z) (s : kmem) : kmem := mk_kmem (use_lock s) p (mem s).
Definition upd_mem (f : ram -> ram) (s : kmem) : kmem := mk_kmem (use_lock s) (freelist s) (f (mem s)).
Definition set_use_lock (u : Z) (s : kmem) : kmem := mk_kmem u (freelist s) (mem s).

Section kalloc.
(** [end]: the first address after the kernel, given by the linker. *)
Context (kend : Z).

Definition kfree (v : Z) : M kmem unit :=
  if negb (v mod PGSIZE =? 0) || (v <? kend) || (PHYSTOP <=? v2p v) then panic "kfree"
  else
    modify (upd_mem (mem_set v 1 PGSIZE)) ;;;
    let* s := get in
    modify (upd_mem (store32 v (freelist s))) ;;;
    modify (set_freelist v).

Definition kalloc : M kmem Z :=
  let* s := get in
  let r := freelist s in
  whenM (negb (r =? 0)) (modify (set_freelist (load32 r (mem s)))) ;;;
  ret r.

#[export] Instance kfree_nb v : NonBlocking (kfree v).
Proof. unfold kfree. apply _. Qed.
#[export] Instance kalloc_nb : NonBlocking kalloc.
Proof. unfold kalloc. apply _. Qed.

(** The loop of [freerange], with an iteration bound. *)
Fixpoint freerange_loop (fuel : nat) (p vend : Z) : M kmem unit :=
  match fuel with
  | O => fault
  | S fuel => if u32 (p + PGSIZE) <=? vend then kfree p ;;; freerange_loop fuel (u32 (p + PGSIZE)) vend
              else ret tt
  end.

(** A range has at most [2 ^ 32 / PGSIZE] pages. *)
Definition max_pages : nat := Z.to_nat (2 ^ 32 / PGSIZE).
Definition freerange (vstart vend : Z) : M kmem unit :=
  freerange_loop (S max_pages) (PGROUNDUP vstart) vend.

Definition kinit1 (vstart vend : Z) : M kmem unit :=
  modify (set_use_lock 0) ;;; freerange vstart vend.
Definition kinit2 (vstart vend : Z) : M kmem unit :=
  freerange vstart vend ;;; modify (set_use_lock 1).
End kalloc.

Arguments max_pages : simpl never.
Arguments zero_page : simpl never.
Arguments PGSIZE : simpl never.

(** ** Addresses and pages *)

Lemma PGSIZE_eq : PGSIZE = 2 ^ 12.
Proof. done. Qed.

Lemma round_mask x : 0 <= x < 2 ^ 32 -> Z.land x (u32 (Z.lnot (PGSIZE - 1))) = x - x mod PGSIZE.
Proof.
  intros Hx. rewrite (Z.div_mod x PGSIZE) at 2 by done.
  replace (PGSIZE * (x / PGSIZE) + x mod PGSIZE - x mod PGSIZE) with (x / PGSIZE * PGSIZE) by lia.
  rewrite PGSIZE_eq, <- Z.shiftr_div_pow2, <- Z.shiftl_mul_pow2 by lia.
  apply Z.bits_inj'. intros n Hn. rewrite Z.land_spec, Z.shiftl_spec by done.
  unfold u32. change (2 ^ 12 - 1) with (Z.ones 12).
  destruct (Z.ltb_spec n 32) as [H32|H32].
  - rewrite Z.mod_pow2_bits_low by lia. rewrite Z.lnot_spec by done. rewrite Z.testbit_ones_nonneg by lia.
    destruct (Z.ltb_spec n 12) as [H12|H12].
    + rewrite andb_false_r. symmetry. apply Z.testbit_neg_r. lia.
    + rewrite andb_true_r. rewrite Z.shiftr_spec by lia. f_equal. lia.
  - assert (Z.testbit x n = false) as ->.
    { rewrite <- (Z.mod_small x (2 ^ 32)) by done. by apply Z.mod_pow2_bits_high. }
    rewrite andb_false_l. symmetry. rewrite Z.shiftr_spec by lia. replace (n - 12 + 12) with n by lia.
    rewrite <- (Z.mod_small x (2 ^ 32)) by done. by apply Z.mod_pow2_bits_high.
Qed.

Lemma PGROUNDDOWN_eq a : 0 <= a < 2 ^ 32 -> PGROUNDDOWN a = a - a mod PGSIZE.
Proof. apply round_mask. Qed.

Lemma PGROUNDUP_eq a : 0 <= a -> a + PGSIZE <= 2 ^ 32 -> PGROUNDUP a = (a + PGSIZE - 1) / PGSIZE * PGSIZE.
Proof.
  intros H0 H1. unfold PGROUNDUP. assert (PGSIZE = 4096) by done.
  rewrite u32_small by (unfold is_u32; lia). rewrite round_mask by lia.
  pose proof (Z.div_mod (a + PGSIZE - 1) PGSIZE). lia.
Qed.

Lemma page_at_insert_eq m f p : page_at (<[f := p]> m) f = p.
Proof. unfold page_at. by rewrite lookup_insert_eq. Qed.

Lemma page_at_insert_ne m f g p : f <> g -> page_at (<[f := p]> m) g = page_at m g.
Proof. intros Hne. unfold page_at. by rewrite lookup_insert_ne. Qed.

(** ** The free list *)

(** Pages [l] are linked from [p] through their first words. *)
Fixpoint chain (m : ram) (p : Z) (l : list Z) : Prop :=
  match l with
  | [] => p = 0
  | q :: l => p = q /\ chain m (load32 q m) l
  end.

Section laws.
Context (kend : Z).

(** A page the allocator may hand out. *)
Definition valid_page (p : Z) : Prop :=
  p mod PGSIZE = 0 /\ kend <= p /\ KERNBASE < p < KERNBASE + PHYSTOP.

Definition mem_ok (m : ram) : Prop := forall f, length (page_at m f) = Z.to_nat PGSIZE.

Record kalloc_inv (s : kmem) (l : list Z) : Prop := {
  ki_chain : chain (mem s) (freelist s) l;
  ki_nodup : NoDup l;
  ki_valid : Forall valid_page l;
  ki_mem : mem_ok (mem s)
}.

Lemma valid_frame p : valid_page p -> frame p * PGSIZE = p - KERNBASE /\ offset p = 0%nat.
Proof.
  intros (Hm & _ & Hp). unfold frame, offset, v2p. rewrite Hm.
  rewrite u32_small by (unfold is_u32, KERNBASE, PHYSTOP in *; lia). split; [|done].
  assert ((p - KERNBASE) mod PGSIZE = 0) as H0.
  { rewrite Zminus_mod, Hm. done. }
  pose proof (Z.div_mod (p - KERNBASE) PGSIZE). rewrite H0 in *. assert (PGSIZE = 4096) by done. lia.
Qed.

Lemma frame_inj p q : valid_page p -> valid_page q -> frame p = frame q -> p = q.
Proof. intros [Hp _]%valid_frame [Hq _]%valid_frame E. rewrite E in Hp. lia. Qed.

Lemma valid_u32 p : valid_page p -> is_u32 p /\ p <> 0.
Proof. intros (_ & _ & ?). unfold is_u32, KERNBASE, PHYSTOP in *. lia. Qed.

Lemma chain_frame m m' p l :
  (forall q, q ∈ l -> load32 q m' = load32 q m) -> chain m p l -> chain m' p l.
Proof.
  revert p. induction l as [|q l IH]; intros p Hl; [done|]. cbn. intros [-> Hc]. split; [done|].
  rewrite Hl by left. apply IH; [|done]. intros x Hx. apply Hl. by right.
Qed.

(** A client that writes only pages outside the free list keeps the invariant. *)
Lemma kalloc_inv_client s m' l :
  kalloc_inv s l -> mem_ok m' ->
  (forall p, p ∈ l -> page_at m' (frame p) = page_at (mem s) (frame p)) ->
  kalloc_inv (mk_kmem (use_lock s) (freelist s) m') l.
Proof.
  intros [H1 H2 H3 H4] Hok Hf. split; [|done|done|done]. cbn.
  eapply chain_frame; [|done]. intros q Hq. unfold load32. by rewrite Hf.
Qed.

Lemma mem_ok_insert m f p : mem_ok m -> length p = Z.to_nat PGSIZE -> mem_ok (<[f := p]> m).
Proof.
  intros Hm Hp g. destruct (decide (f = g)) as [<-|Hne].
  - by rewrite page_at_insert_eq.
  - by rewrite page_at_insert_ne.
Qed.

Lemma mem_ok_store32 m a v : mem_ok m -> mem_ok (store32 a v m).
Proof. intros Hm. apply mem_ok_insert; [done|]. unfold wr32. by rewrite wr_length. Qed.

Lemma mem_ok_store_bytes m a src : mem_ok m -> mem_ok (store_bytes a src m).
Proof. intros Hm. apply mem_ok_insert; [done|]. by rewrite memmove_in_length. Qed.

Lemma load_store32_same m a v :
  mem_ok m -> a mod 4 = 0 -> is_u32 v -> load32 a (store32 a v m) = v.
Proof.
  intros Hm Ha Hv. unfold load32, store32. rewrite page_at_insert_eq. apply rd32_wr32_same; [|done].
  rewrite Hm. unfold offset. assert (PGSIZE = 4096) as E by done.
  pose proof (Z.mod_pos_bound a PGSIZE). assert ((a mod PGSIZE) mod 4 = 0) as H4.
  { rewrite <- Ha. rewrite Z.mod_mod_divide; [done|]. by exists 1024. }
  pose proof (Z.div_mod (a mod PGSIZE) 4). lia.
Qed.

Lemma kalloc_law s p l :
  kalloc_inv s (p :: l) ->
  kalloc s = Ret (set_freelist (load32 p (mem s)) s) p /\ kalloc_inv (set_freelist (load32 p (mem s)) s) l.
Proof.
  intros [[Hf Hc] [_ Hnd]%NoDup_cons [Hp Hv]%Forall_cons Hm]. split.
  - unfold kalloc, get. cbn. rewrite Hf. rewrite (proj2 (Z.eqb_neq _ _)) by (by apply valid_u32). done.
  - by split.
Qed.

Lemma kalloc_empty s : kalloc_inv s [] -> kalloc s = Ret s 0.
Proof. intros [Hf _ _ _]. cbn in Hf. unfold kalloc, get. cbn. by rewrite Hf. Qed.

Lemma kfree_guard v :
  valid_page v -> negb (v mod PGSIZE =? 0) || (v <? kend) || (PHYSTOP <=? v2p v) = false.
Proof.
  intros (Hm & He & Hv). rewrite Hm. cbn. apply orb_false_iff.
  unfold v2p. rewrite u32_small by (unfold is_u32, KERNBASE, PHYSTOP in *; lia).
  rewrite Z.ltb_ge, Z.leb_gt. lia.
Qed.

Lemma kfree_law s v l :
  kalloc_inv s l -> valid_page v -> v ∉ l ->
  exists s', kfree kend v s = Ret s' tt /\ kalloc_inv s' (v :: l) /\ use_lock s' = use_lock s /\
    (forall f, f <> frame v -> page_at (mem s') f = page_at (mem s) f).
Proof.
  intros [Hc Hnd Hv Hm] Hp Hnin. unfold kfree. rewrite kfree_guard by done. cbn [get].
  set (m1 := mem_set v 1 PGSIZE (mem s)). set (m2 := store32 v (freelist s) m1).
  exists (mk_kmem (use_lock s) v m2). split; [done|].
  assert (forall f, f <> frame v -> page_at m2 f = page_at (mem s) f) as Hfr.
  { intros f Hf. unfold m2, store32, m1, mem_set, store_bytes. by rewrite !page_at_insert_ne. }
  assert (mem_ok m1) as Hm1 by (by apply mem_ok_store_bytes).
  split_and!; [split|done|done].
  - cbn. split; [done|]. unfold m2. rewrite load_store32_same.
    + eapply chain_frame; [|done]. intros q Hq. unfold load32. rewrite Hfr; [done|].
      intros Heq. apply frame_inj in Heq as ->; [done| |done]. by eapply (proj1 (Forall_forall _ _) Hv).
    + done.
    + destruct Hp as [Hp0 _]. apply Z.mod_divide; [lia|]. apply Z.mod_divide in Hp0; [|done].
      destruct Hp0 as [k ->]. exists (k * 1024). assert (PGSIZE = 4096) by done. lia.
    + destruct l as [|q l]; cbn in Hc; [by rewrite Hc|]. destruct Hc as [-> _].
      apply Forall_cons in Hv as [Hq _]. by apply valid_u32.
  - by constructor.
  - by constructor.
  - by apply mem_ok_store32.
Qed.

(** The [n] pages from [p] on, last first, as [freerange] pushes them. *)
Fixpoint page_run (n : nat) (p : Z) : list Z :=
  match n with
  | O => []
  | S n => page_run n (p + PGSIZE) ++ [p]
  end.

Lemma page_run_elem n p q :
  q ∈ page_run n p <-> exists i, (i < n)%nat /\ q = p + Z.of_nat i * PGSIZE.
Proof.
  revert p. induction n as [|n IH]; intros p; cbn [page_run].
  - split; [by intros ?%not_elem_of_nil|]. intros (i & Hi & _). lia.
  - rewrite elem_of_app, IH, list_elem_of_singleton. split.
    + intros [(i & Hi & ->)| ->]; [exists (S i)|exists 0%nat]; split; lia.
    + intros ([|i] & Hi & ->); [right; lia|left; exists i; split; lia].
Qed.

Lemma freerange_loop_law n fuel p vend s l :
  (n < fuel)%nat -> kalloc_inv s l -> 0 <= p -> vend < 2 ^ 32 - PGSIZE ->
  p + Z.of_nat n * PGSIZE <= vend < p + Z.of_nat (S n) * PGSIZE ->
  (forall q, q ∈ page_run n p -> valid_page q /\ q ∉ l) ->
  exists s', freerange_loop kend fuel p vend s = Ret s' tt /\ kalloc_inv s' (page_run n p ++ l) /\
    use_lock s' = use_lock s.
Proof.
  revert fuel p s l. induction n as [|n IH]; intros fuel p s l Hf Hinv Hp Hv Hr Hq;
    (destruct fuel as [|fuel]; [lia|]); cbn [freerange_loop page_run];
    rewrite u32_small by (unfold is_u32; unfold PGSIZE in *; lia).
  - rewrite (proj2 (Z.leb_gt _ _)) by (unfold PGSIZE in *; lia). exists s. split_and!; done.
  - rewrite (proj2 (Z.leb_le _ _)) by (unfold PGSIZE in *; lia). cbn [page_run] in Hq.
    destruct (Hq p) as [Hvp Hpl]; [apply elem_of_app; right; by apply list_elem_of_singleton|].
    destruct (kfree_law s p l Hinv Hvp Hpl) as (s1 & R1 & I1 & U1 & _). mrun R1.
    destruct (IH fuel (p + PGSIZE) s1 (p :: l)) as (s2 & R2 & I2 & U2); [lia|done| |done| | |].
    + unfold PGSIZE in *; lia.
    + unfold PGSIZE in *; lia.
    + intros q Hqn. destruct (Hq q) as [? ?]; [by apply elem_of_app; left|]. split; [done|].
      apply not_elem_of_cons. split; [|done]. intros ->. apply page_run_elem in Hqn as (i & _ & Hi).
      unfold PGSIZE in *; lia.
    + exists s2. split_and!; [done| |congruence]. by rewrite <- app_assoc.
Qed.

(** [freerange] of a range of valid pages disjoint from the free list. *)
Lemma freerange_law s l vstart vend :
  kalloc_inv s l -> kend <= vstart -> KERNBASE < vstart <= vend -> vend <= KERNBASE + PHYSTOP ->
  vend mod PGSIZE = 0 -> (forall q, q ∈ l -> q < vstart \/ vend <= q) ->
  exists s' l', freerange kend vstart vend s = Ret s' tt /\ kalloc_inv s' l' /\ use_lock s' = use_lock s /\
    forall q, q ∈ l' <-> q ∈ l \/ (q mod PGSIZE = 0 /\ vstart <= q < vend).
Proof.
  intros Hinv Hk Hvs Hve Ha Hl. assert (PGSIZE = 4096) as E by done. assert (2 ^ 32 = 4294967296) as E2 by done.
  assert (KERNBASE + PHYSTOP = 2382364672) as E3 by done. assert (KERNBASE = 2147483648) as E4 by done.
  unfold freerange. rewrite PGROUNDUP_eq by lia. set (p := (vstart + PGSIZE - 1) / PGSIZE * PGSIZE).
  assert (vstart <= p < vstart + PGSIZE /\ p mod PGSIZE = 0) as [Hp Hpm].
  { unfold p. split; [|by apply Z.mod_mul]. pose proof (Z.div_mod (vstart + PGSIZE - 1) PGSIZE).
    pose proof (Z.mod_pos_bound (vstart + PGSIZE - 1) PGSIZE). lia. }
  apply Z.mod_divide in Hpm as [a Hpa], Ha as [b Hvb]; try done.
  assert (a <= b) by lia. set (n := Z.to_nat (b - a)).
  assert (forall q, q ∈ page_run n p <-> q mod PGSIZE = 0 /\ vstart <= q < vend) as Hrun.
  { intros q. rewrite page_run_elem. split.
    - intros (i & Hi & ->). rewrite Z.mod_add, Hpa, Z.mod_mul by done. lia.
    - intros [[c ->]%Z.mod_divide Hq]; [|done]. exists (Z.to_nat (c - a)). split; lia. }
  destruct (freerange_loop_law n (S max_pages) p vend s l) as (s' & R & I' & U'); try done.
  - unfold n. change max_pages with (Z.to_nat (2 ^ 32 / PGSIZE)). rewrite E, E2.
    change (4294967296 / 4096) with 1048576. lia.
  - lia.
  - lia.
  - unfold n. lia.
  - intros q Hq%Hrun. split; [|intros Hin%Hl; lia]. split; [apply Hq|]. lia.
  - exists s', (page_run n p ++ l). split_and!; try done. intros q. rewrite elem_of_app, Hrun. tauto.
Qed.

(** ** Clients *)

(** What clients of the allocator do: allocate, free a page they hold, and
    write pages they hold. *)
Inductive page_step : kmem * list Z -> kmem * list Z -> Prop :=
| step_kalloc s s' p held : kalloc s = Ret s' p ->
    page_step (s, held) (s', if p =? 0 then held else p :: held)
| step_kfree s s' held1 p held2 : kfree kend p s = Ret s' tt ->
    page_step (s, held1 ++ p :: held2) (s', held1 ++ held2)
| step_write s m' held :
    mem_ok m' ->
    (forall f, page_at m' f <> page_at (mem s) f -> exists p, p ∈ held /\ f = frame p) ->
    page_step (s, held) (mk_kmem (use_lock s) (freelist s) m', held).

(** The pages held and the free pages are those of the start, each once. *)
Definition accounted (l0 : list Z) (st : kmem * list Z) : Prop :=
  exists l, kalloc_inv st.1 l /\ st.2 ++ l ≡ₚ l0.

Lemma page_step_accounted l0 st st' :
  NoDup l0 -> Forall valid_page l0 -> page_step st st' -> accounted l0 st -> accounted l0 st'.
Proof.
  intros Hnd Hval Hst (l & Hinv & Hperm). unfold accounted in *.
  destruct Hst as [s s' p held R|s s' held1 p held2 R|s m' held Hok Hw]; cbn [fst snd] in *.
  - destruct l as [|q l].
    + rewrite (kalloc_empty s Hinv) in R. injection R as <- <-. by exists [].
    + destruct (kalloc_law s q l Hinv) as [R' I']. rewrite R' in R. injection R as <- <-.
      exists l. split; [done|]. apply ki_valid, Forall_cons in Hinv as [[_ Hq]%valid_u32 _].
      rewrite (proj2 (Z.eqb_neq _ _)) by done. rewrite <- Hperm. cbn. by rewrite Permutation_middle.
  - assert (held1 ++ p :: held2 ++ l ≡ₚ l0) as Hp0 by (by rewrite <- Hperm, <- app_assoc).
    assert (NoDup (p :: held1 ++ held2 ++ l)) as [Hpn _]%NoDup_cons.
    { by rewrite <- Permutation_middle in Hp0; rewrite Hp0. }
    assert (valid_page p) as Hp.
    { apply (proj1 (Forall_forall _ _) Hval). rewrite <- Hp0. set_solver. }
    destruct (kfree_law s p l Hinv Hp) as (s1 & R1 & I1 & _); [set_solver|].
    rewrite R1 in R. injection R as <-. exists (p :: l). split; [done|]. rewrite <- Hp0.
    rewrite <- app_assoc. by rewrite Permutation_middle.
  - exists l. split; [|done]. apply kalloc_inv_client; [done|done|]. intros p Hp.
    destruct (decide (page_at m' (frame p) = page_at (mem s) (frame p))) as [|Hne]; [done|].
    apply Hw in Hne as (q & Hq & Hf). exfalso.
    assert (NoDup (held ++ l)) as (_ & Hdis & _)%NoDup_app by (by rewrite Hperm).
    apply (Hdis q Hq). replace q with p; [done|]. apply frame_inj; [| |done].
    + by eapply (proj1 (Forall_forall _ _) (ki_valid _ _ Hinv)).
    + apply (proj1 (Forall_forall _ _) Hval). rewrite <- Hperm. set_solver.
Qed.

(** C13: no page is handed out twice.  Whatever allocations, frees of held pages
    and writes to held pages happen, in any order, the pages clients hold and
    the free list together are exactly the pages of the start, each once. *)
Theorem kalloc_exclusive s0 l0 s held :
  kalloc_inv s0 l0 -> rtc page_step (s0, []) (s, held) ->
  exists l, kalloc_inv s l /\ held ++ l ≡ₚ l0 /\ NoDup (held ++ l).
Proof.
  intros Hinv Hr. pose proof (ki_nodup _ _ Hinv) as Hnd. pose proof (ki_valid _ _ Hinv) as Hval.
  assert (accounted l0 (s, held)) as (l & Hl & Hp).
  { assert (accounted l0 (s0, [])) as H0 by (by exists l0).
    revert H0. induction Hr as [|x y z Hxy _ IH]; [done|]. intros H0. apply IH.
    by eapply page_step_accounted. }
  exists l. split_and!; [done|done|]. by rewrite Hp.
Qed.

(** The two phases of main(): the first 4 megabytes, then the rest. *)
Definition kinit : M kmem unit :=
  kinit1 kend kend (p2v (4 * 1024 * 1024)) ;;;
  kinit2 kend (p2v (4 * 1024 * 1024)) (p2v PHYSTOP).

(** After both phases of initialisation the free list holds every page
    between the end of the kernel and the top of physical memory, each once. *)
Theorem kinit_frees_all m :
  mem_ok m -> KERNBASE < kend <= p2v (4 * 1024 * 1024) ->
  exists s l, kinit (mk_kmem 0 0 m) = Ret s tt /\ kalloc_inv s l /\ use_lock s = 1 /\
    forall p, p ∈ l <-> valid_page p.
Proof.
  intros Hm Hk. change (p2v (4 * 1024 * 1024)) with (KERNBASE + 0x400000) in *. unfold kinit.
  change (p2v (4 * 1024 * 1024)) with (KERNBASE + 0x400000).
  change (p2v PHYSTOP) with (KERNBASE + PHYSTOP).
  assert (kalloc_inv (mk_kmem 0 0 m) []) as I0 by (split; [done|constructor|constructor|done]).
  destruct (freerange_law (mk_kmem 0 0 m) [] kend (KERNBASE + 0x400000)) as (s1 & l1 & R1 & I1 & U1 & L1);
    [done|lia|lia|unfold PHYSTOP; lia|done|by intros q ?%not_elem_of_nil|].
  destruct (freerange_law s1 l1 (KERNBASE + 0x400000) (KERNBASE + PHYSTOP)) as (s2 & l2 & R2 & I2 & U2 & L2);
    [done|lia|unfold KERNBASE, PHYSTOP; lia|done|done| |].
  { intros q [?%not_elem_of_nil|Hq]%L1; [done|]. lia. }
  exists (set_use_lock 1 s2), l2. split_and!; [| |done|].
  - assert (kinit1 kend kend (KERNBASE + 0x400000) (mk_kmem 0 0 m) = Ret s1 tt) as K1 by exact R1.
    mrun K1. unfold kinit2. by mrun R2.
  - destruct I2. by split.
  - intros p. rewrite L2, L1. unfold valid_page. rewrite elem_of_nil. unfold KERNBASE, PHYSTOP in *. lia.
Qed.
End laws.

Lemma max_pages_eq : Z.of_nat max_pages = 2 ^ 20.
Proof. unfold max_pages. rewrite Z2Nat.id; done. Qed.

(** The bound is only ever compared, never counted down to zero. *)
#[global] Opaque max_pages.

(** ** Witnesses: a kernel that ends at 3.5 megabytes *)

Definition demo_end : Z := KERNBASE + 0x380000.

Lemma mem_ok_empty : mem_ok ∅.
Proof. intros f. unfold page_at. rewrite lookup_empty. apply length_replicate. Qed.

Lemma kinit_frees_all_witness :
  exists s l, kinit demo_end (mk_kmem 0 0 ∅) = Ret s tt /\ kalloc_inv demo_end s l /\ use_lock s = 1 /\
    forall p, p ∈ l <-> valid_page demo_end p.
Proof.
  apply (kinit_frees_all demo_end ∅).
  - apply mem_ok_empty.
  - split; [reflexivity|discriminate].
Defined.

(** One free page. *)
Definition demo_kmem : kmem := mk_kmem 0 demo_end (store32 demo_end 0 ∅).

Lemma demo_kalloc : kalloc_inv demo_end demo_kmem [demo_end].
Proof.
  split.
  - split; [done|]. apply load_store32_same; [apply mem_ok_empty|done|done].
  - apply NoDup_singleton.
  - by apply Forall_singleton.
  - apply mem_ok_store32, mem_ok_empty.
Qed.

Lemma kalloc_exclusive_witness :
  exists s l, kalloc demo_kmem = Ret s demo_end /\ kalloc_inv demo_end s l /\
    [demo_end] ++ l ≡ₚ [demo_end] /\ NoDup ([demo_end] ++ l).
Proof.
  destruct (kalloc_law demo_end demo_kmem demo_end [] demo_kalloc) as [R _].
  eexists. destruct (kalloc_exclusive demo_end demo_kmem [demo_end] (set_freelist (load32 demo_end (mem demo_kmem)) demo_kmem) [demo_end])
    as (l & Hl).
  - exact demo_kalloc.
  - apply rtc_once. exact (step_kalloc demo_end _ _ demo_end [] R).
  - exists l. split; [exact R|exact Hl].
Defined.
