(* ===== verification/Vm.v ===== *)
(** * Vm: two-level page tables (vm.c)

    Page directories and page tables are pages of memory, read and written
    through the kernel's view of it, with the x86 entry format.  The theorems
    relate them to the map from virtual pages to entries that they represent:
    what [mappages], [allocuvm], [deallocuvm], [copyuvm] and [copyout] do to
    that map, to user memory and to the free list. *)
From stdpp Require Import base numbers list gmap strings.
From Stdlib Require Import ZArith Lia.
From S2P Require Import Prelude Bytes Kalloc.

Local Open Scope Z_scope.

Definition NPDENTRIES : Z := 1024.
Definition NPTENTRIES : Z := 1024.
Definition PDX (va : Z) : Z := Z.land (Z.shiftr va 22) 0x3FF.
Definition PTX (va : Z) : Z := Z.land (Z.shiftr va 12) 0x3FF.

Definition PTE_P : Z := 0x1.
Definition PTE_W : Z := 0x2.
Definition PTE_U : Z := 0x4.
Definition PTE_ADDR (pte : Z) : Z := Z.land pte (u32 (Z.lnot 0xFFF)).
Definition PTE_FLAGS (pte : Z) : Z := Z.land pte 0xFFF.

Definition ld32 (a : Z) : M kmem Z := gets (fun s => load32 a (mem s)).
Definition st32 (a v : Z) : M kmem unit := modify (upd_mem (store32 a v)).

(** The [n] bytes of memory at the kernel address [a], inside one page. *)
Definition ld_bytes (a n : Z) : M kmem (list Z) :=
  gets (fun s => sub_bytes (page_at (mem s) (frame a)) (offset a) (Z.to_nat n)).
Definition st_bytes (a : Z) (src : list Z) : M kmem unit := modify (upd_mem (store_bytes a src)).
Definition memset_page (a c : Z) : M kmem unit := modify (upd_mem (mem_set a c PGSIZE)).

Section vm.
(** Linker symbols: [end], and [data], where the writable part of the kernel starts. *)
Context (kend kdata : Z).

(** The address of the entry for [va], 0 if there is none and none can be made. *)
Definition walkpgdir (pgdir va : Z) (alloc : bool) : M kmem Z :=
  let pde := u32 (pgdir + 4 * PDX va) in
  let* e := ld32 pde in
  if hasf PTE_P e then ret (u32 (p2v (PTE_ADDR e) + 4 * PTX va))
  else if negb alloc then ret 0
  else
    let* pgtab := kalloc in
    if pgtab =? 0 then ret 0
    else
      memset_page pgtab 0 ;;;
      st32 pde (Z.lor (Z.lor (Z.lor (v2p pgtab) PTE_P) PTE_W) PTE_U) ;;;
      ret (u32 (pgtab + 4 * PTX va)).

#[export] Instance walkpgdir_nb pgdir va alloc : NonBlocking (walkpgdir pgdir va alloc).
Proof. unfold walkpgdir, ld32, st32, memset_page. apply _. Qed.

(** The loop of [mappages]; there are at most [max_pages] virtual pages. *)
Fixpoint map_loop (fuel : nat) (pgdir a last pa perm : Z) : M kmem Z :=
  match fuel with
  | O => fault
  | S fuel =>
      let* pte := walkpgdir pgdir a true in
      if pte =? 0 then ret (-1)
      else
        let* e := ld32 pte in
        if hasf PTE_P e then panic "remap"
        else
          st32 pte (Z.lor (Z.lor pa perm) PTE_P) ;;;
          if a =? last then ret 0
          else map_loop fuel pgdir (u32 (a + PGSIZE)) last (u32 (pa + PGSIZE)) perm
  end.

Definition mappages (pgdir va size pa perm : Z) : M kmem Z :=
  map_loop (S max_pages) pgdir (PGROUNDDOWN va) (PGROUNDDOWN (u32 (va + size - 1))) pa perm.

(** [kmap[]]: virtual start, physical start and end, permissions. *)
Definition kmap : list (Z * Z * Z * Z) :=
  [(KERNBASE, 0, EXTMEM, PTE_W);
   (KERNLINK, v2p KERNLINK, v2p kdata, 0);
   (kdata, v2p kdata, PHYSTOP, PTE_W);
   (DEVSPACE, DEVSPACE, 0, PTE_W)].

Fixpoint map_kernel (pgdir : Z) (ks : list (Z * Z * Z * Z)) : M kmem Z :=
  match ks with
  | [] => ret pgdir
  | (virt, pstart, pend, perm) :: ks =>
      let* r := mappages pgdir virt (u32 (pend - pstart)) pstart perm in
      if r <? 0 then ret 0 else map_kernel pgdir ks
  end.

Definition setupkvm : M kmem Z :=
  let* pgdir := kalloc in
  if pgdir =? 0 then ret 0
  else
    memset_page pgdir 0 ;;;
    if DEVSPACE <? p2v PHYSTOP then panic "PHYSTOP too high"
    else map_kernel pgdir kmap.

Definition inituvm (pgdir : Z) (init : list Z) (sz : Z) : M kmem unit :=
  if PGSIZE <=? sz then panic "inituvm: more than a page"
  else
    let* m := kalloc in
    if m =? 0 then fault
    else
      memset_page m 0 ;;;
      let* _ := mappages pgdir 0 PGSIZE (v2p m) (Z.lor PTE_W PTE_U) in
      st_bytes m (take (Z.to_nat sz) init).

(** The loop of [deallocuvm]; a page table that does not exist is skipped. *)
Fixpoint dealloc_loop (fuel : nat) (pgdir a oldsz : Z) : M kmem unit :=
  match fuel with
  | O => fault
  | S fuel =>
      if a <? oldsz then
        let* pte := walkpgdir pgdir a false in
        if pte =? 0 then dealloc_loop fuel pgdir (u32 (u32 (a + (NPTENTRIES - 1) * PGSIZE) + PGSIZE)) oldsz
        else
          let* e := ld32 pte in
          (if hasf PTE_P e then
             let pa := PTE_ADDR e in
             if pa =? 0 then panic "kfree"
             else kfree kend (p2v pa) ;;; st32 pte 0
           else ret tt) ;;;
          dealloc_loop fuel pgdir (u32 (a + PGSIZE)) oldsz
      else ret tt
  end.

Definition deallocuvm (pgdir oldsz newsz : Z) : M kmem Z :=
  if oldsz <=? newsz then ret oldsz
  else
    dealloc_loop (S max_pages) pgdir (PGROUNDUP newsz) oldsz ;;;
    ret newsz.

#[export] Instance deallocuvm_nb pgdir oldsz newsz : NonBlocking (deallocuvm pgdir oldsz newsz).
Proof.
  unfold deallocuvm. enough (forall fuel a, NonBlocking (dealloc_loop fuel pgdir a oldsz)) by apply _.
  intros fuel. induction fuel as [|fuel IH]; intros a; cbn [dealloc_loop]; unfold ld32, st32; apply _.
Qed.

(** The loop of [allocuvm]; it prints a message when memory runs out. *)
Fixpoint alloc_loop (fuel : nat) (pgdir a oldsz newsz : Z) : M kmem Z :=
  match fuel with
  | O => fault
  | S fuel =>
      if a <? newsz then
        let* m := kalloc in
        if m =? 0 then
          let* _ := deallocuvm pgdir newsz oldsz in
          ret 0
        else
          memset_page m 0 ;;;
          let* _ := mappages pgdir a PGSIZE (v2p m) (Z.lor PTE_W PTE_U) in
          alloc_loop fuel pgdir (u32 (a + PGSIZE)) oldsz newsz
      else ret newsz
  end.

Definition allocuvm (pgdir oldsz newsz : Z) : M kmem Z :=
  if KERNBASE <=? newsz then ret 0
  else if newsz <? oldsz then ret oldsz
  else alloc_loop (S max_pages) pgdir (PGROUNDUP oldsz) oldsz newsz.

Definition free_tables (pgdir : Z) : M kmem unit :=
  for_M 0 (Z.to_nat NPDENTRIES) (fun i =>
    let* e := ld32 (u32 (pgdir + 4 * Z.of_nat i)) in
    whenM (hasf PTE_P e) (kfree kend (p2v (PTE_ADDR e)))).

Definition freevm (pgdir : Z) : M kmem unit :=
  if pgdir =? 0 then panic "freevm: no pgdir"
  else
    let* _ := deallocuvm pgdir KERNBASE 0 in
    free_tables pgdir ;;;
    kfree kend pgdir.

#[export] Instance freevm_nb pgdir : NonBlocking (freevm pgdir).
Proof. unfold freevm, free_tables, ld32. apply _. Qed.

Definition clearpteu (pgdir uva : Z) : M kmem unit :=
  let* pte := walkpgdir pgdir uva false in
  if pte =? 0 then panic "clearpteu"
  else
    let* e := ld32 pte in
    st32 pte (Z.land e (u32 (Z.lnot PTE_U))).

(** The loop of [copyuvm]: [true] when every page was copied, [false] for
    the jump to [bad]. *)
Fixpoint copy_loop (fuel : nat) (pgdir d i sz : Z) : M kmem bool :=
  match fuel with
  | O => fault
  | S fuel =>
      if i <? sz then
        let* pte := walkpgdir pgdir i false in
        if pte =? 0 then panic "copyuvm: pte should exist"
        else
          let* e := ld32 pte in
          if negb (hasf PTE_P e) then panic "copyuvm: page not present"
          else
            let pa := PTE_ADDR e in
            let flags := PTE_FLAGS e in
            let* m := kalloc in
            if m =? 0 then ret false
            else
              let* b := ld_bytes (p2v pa) PGSIZE in
              st_bytes m b ;;;
              let* r := mappages d i PGSIZE (v2p m) flags in
              if r <? 0 then ret false
              else copy_loop fuel pgdir d (u32 (i + PGSIZE)) sz
      else ret true
  end.

Definition copyuvm (pgdir sz : Z) : M kmem Z :=
  let* d := setupkvm in
  if d =? 0 then ret 0
  else
    let* ok := copy_loop (S max_pages) pgdir d 0 sz in
    if ok then ret d
    else freevm d ;;; ret 0.

(** Map user virtual address to kernel address.  The entry is read without
    testing the pointer [walkpgdir] returns. *)
Definition uva2ka (pgdir uva : Z) : M kmem Z :=
  let* pte := walkpgdir pgdir uva false in
  if pte =? 0 then fault
  else
    let* e := ld32 pte in
    if negb (hasf PTE_P e) then ret 0
    else if negb (hasf PTE_U e) then ret 0
    else ret (p2v (PTE_ADDR e)).

(** The loop of [copyout]; [buf] is what remains to be copied, [len] bytes. *)
Fixpoint copyout_loop (fuel : nat) (pgdir va : Z) (buf : list Z) (len : Z) : M kmem Z :=
  match fuel with
  | O => fault
  | S fuel =>
      if 0 <? len then
        let va0 := PGROUNDDOWN va in
        let* pa0 := uva2ka pgdir va0 in
        if pa0 =? 0 then ret (-1)
        else
          let n := u32 (PGSIZE - (va - va0)) in
          let n := if len <? n then len else n in
          st_bytes (u32 (pa0 + (va - va0))) (take (Z.to_nat n) buf) ;;;
          copyout_loop fuel pgdir (u32 (va0 + PGSIZE)) (drop (Z.to_nat n) buf) (u32 (len - n))
      else ret 0
  end.

Definition copyout (pgdir va : Z) (p : list Z) (len : Z) : M kmem Z :=
  copyout_loop (S (S max_pages)) pgdir va p len.
End vm.

(** ** Bit fields *)

Lemma land_3FF x : Z.land x 0x3FF = x mod 1024.
Proof. change 0x3FF with (Z.ones 10). by rewrite Z.land_ones. Qed.

Lemma PDX_eq va : 0 <= va < 2 ^ 32 -> PDX va = va / PGSIZE / 1024.
Proof.
  intros Hva. unfold PDX. rewrite land_3FF, Z.shiftr_div_pow2 by lia.
  rewrite Z.div_div by done. change (PGSIZE * 1024) with (2 ^ 22). apply Z.mod_small.
  split; [apply Z.div_pos; lia|]. apply Z.div_lt_upper_bound; lia.
Qed.

Lemma PTX_eq va : PTX va = (va / PGSIZE) mod 1024.
Proof. unfold PTX. by rewrite land_3FF, Z.shiftr_div_pow2. Qed.

Lemma PDX_range va : 0 <= PDX va < 1024.
Proof. unfold PDX. rewrite land_3FF. apply Z.mod_pos_bound. lia. Qed.

Lemma PTX_range va : 0 <= PTX va < 1024.
Proof. rewrite PTX_eq. apply Z.mod_pos_bound. lia. Qed.

(** An entry is an aligned address and twelve flag bits. *)
Section entries.
Context (pa f : Z) (Hpa : pa mod PGSIZE = 0) (Hr : 0 <= pa < 2 ^ 32) (Hf : 0 <= f < 4096).

Lemma entry_sum : Z.lor pa f = pa + f.
Proof.
  rewrite <- Z.add_lor_land. assert (Z.land pa f = 0) as ->; [|lia].
  apply Z.bits_inj'. intros n Hn. rewrite Z.land_spec, Z.bits_0.
  destruct (Z.ltb_spec n 12) as [Hlt|Hge].
  - apply andb_false_iff. left. apply Z.mod_divide in Hpa as [k ->]; [|done].
    change PGSIZE with (2 ^ 12). rewrite <- Z.shiftl_mul_pow2 by lia. by apply Z.shiftl_spec_low.
  - apply andb_false_iff. right. rewrite <- (Z.mod_small f (2 ^ 12)) by done.
    by apply Z.mod_pow2_bits_high.
Qed.

Lemma entry_addr : PTE_ADDR (Z.lor pa f) = pa.
Proof.
  rewrite entry_sum. unfold PTE_ADDR. change 0xFFF with (PGSIZE - 1).
  apply Z.mod_divide in Hpa as [k Hk]; [|done].
  rewrite round_mask by (rewrite Hk in *; unfold PGSIZE in *; lia).
  rewrite Hk, Z.add_comm, Z_mod_plus_full, Z.mod_small by done. lia.
Qed.

Lemma entry_flags : PTE_FLAGS (Z.lor pa f) = f.
Proof.
  rewrite entry_sum. unfold PTE_FLAGS. change 0xFFF with (Z.ones 12). rewrite Z.land_ones by lia.
  apply Z.mod_divide in Hpa as [k ->]; [|done]. change PGSIZE with (2 ^ 12).
  rewrite Z.add_comm, Z_mod_plus_full. by apply Z.mod_small.
Qed.

Lemma entry_range : is_u32 (Z.lor pa f).
Proof.
  rewrite entry_sum. apply Z.mod_divide in Hpa as [k ->]; [|done]. unfold is_u32, PGSIZE in *. lia.
Qed.
End entries.

(** ** What a page table represents *)

(** Frames of the page directory and of the page tables [tabs], by index. *)
Record pt_inv (kend : Z) (m : ram) (pgdir : Z) (tabs : gmap Z Z) : Prop := {
  pt_dir : valid_page kend pgdir;
  pt_dom : forall i t, tabs !! i = Some t -> 0 <= i < 1024;
  pt_tab : forall i t, tabs !! i = Some t -> valid_page kend t /\ t <> pgdir;
  pt_inj : forall i j t, tabs !! i = Some t -> tabs !! j = Some t -> i = j;
  pt_pde : forall i, 0 <= i < 1024 ->
    load32 (pgdir + 4 * i) m =
      match tabs !! i with Some t => Z.lor (Z.lor (Z.lor (v2p t) PTE_P) PTE_W) PTE_U | None => 0 end
}.

(** The entry for [va]: 0 where there is no table. *)
Definition pte_of (m : ram) (tabs : gmap Z Z) (va : Z) : Z :=
  match tabs !! PDX va with Some t => load32 (t + 4 * PTX va) m | None => 0 end.

(** The pages of the page table itself. *)
Definition pt_pages (pgdir : Z) (tabs : gmap Z Z) (p : Z) : Prop :=
  p = pgdir \/ exists i, tabs !! i = Some p.

Section pt.
Context (kend : Z).
Implicit Types (m : ram) (tabs : gmap Z Z).

Lemma byte_in_page p off :
  valid_page kend p -> 0 <= off < PGSIZE ->
  frame (p + off) = frame p /\ offset (p + off) = Z.to_nat off /\ u32 (p + off) = p + off.
Proof.
  intros Hp Ho. pose proof (valid_frame _ _ Hp) as [Hf _]. destruct Hp as (Hm & _ & Hr).
  apply Z.mod_divide in Hm as [k Hk]; [|done]. unfold frame, offset, v2p in *.
  assert (KERNBASE = 2147483648 /\ PHYSTOP = 234881024 /\ PGSIZE = 4096) as (E1 & E2 & E3) by done.
  assert (2 ^ 32 = 4294967296) as E4 by done. rewrite u32_small in Hf by (unfold is_u32; lia).
  rewrite !u32_small by (unfold is_u32; lia). split_and!; [|f_equal|lia].
  - set (F := (p - KERNBASE) / PGSIZE) in *. replace (p + off - KERNBASE) with (off + F * PGSIZE) by lia.
    rewrite Z.div_add by done. rewrite Z.div_small by done. lia.
  - rewrite Hk, Z.add_comm, Z_mod_plus_full. by apply Z.mod_small.
Qed.

Lemma word_in_page p i :
  valid_page kend p -> 0 <= i < 1024 ->
  frame (p + 4 * i) = frame p /\ offset (p + 4 * i) = Z.to_nat (4 * i) /\
  u32 (p + 4 * i) = p + 4 * i /\ (p + 4 * i) mod 4 = 0.
Proof.
  intros Hp Hi. destruct (byte_in_page p (4 * i) Hp) as (H1 & H2 & H3); [unfold PGSIZE; lia|]. split_and!; try done.
  destruct Hp as (Hm & _). apply Z.mod_divide in Hm as [k ->]; [|done].
  unfold PGSIZE. replace (k * 4096 + 4 * i) with ((k * 1024 + i) * 4) by lia. by apply Z.mod_mul.
Qed.

Lemma load_store_ne p i q j v m :
  valid_page kend p -> valid_page kend q -> 0 <= i < 1024 -> 0 <= j < 1024 -> (p <> q \/ i <> j) ->
  load32 (q + 4 * j) (store32 (p + 4 * i) v m) = load32 (q + 4 * j) m.
Proof.
  intros Hp Hq Hi Hj Hne. destruct (word_in_page p i Hp Hi) as (Fp & Op & _), (word_in_page q j Hq Hj) as (Fq & Oq & _).
  unfold load32, store32. rewrite Fp, Fq, Op, Oq. destruct (decide (p = q)) as [->|Hpq].
  - rewrite page_at_insert_eq. apply rd32_wr32_other. lia.
  - rewrite page_at_insert_ne; [done|]. intros E. apply (frame_inj kend) in E; done.
Qed.

Lemma vpn_index va va' :
  0 <= va < 2 ^ 32 -> 0 <= va' < 2 ^ 32 ->
  va / PGSIZE = va' / PGSIZE <-> PDX va = PDX va' /\ PTX va = PTX va'.
Proof.
  intros H1 H2. rewrite !PDX_eq, !PTX_eq by done. split; [by intros ->|].
  intros [E1 E2]. pose proof (Z.div_mod (va / PGSIZE) 1024). pose proof (Z.div_mod (va' / PGSIZE) 1024). lia.
Qed.

Lemma pt_frame m m' pgdir tabs :
  pt_inv kend m pgdir tabs ->
  (forall p, pt_pages pgdir tabs p -> page_at m' (frame p) = page_at m (frame p)) ->
  pt_inv kend m' pgdir tabs /\ forall va, pte_of m' tabs va = pte_of m tabs va.
Proof.
  intros [H1 H2 H3 H4 H5] Hf. split; [split; try done|].
  - intros i Hi. rewrite <- H5 by done. unfold load32.
    destruct (word_in_page pgdir i H1 Hi) as (-> & _). by rewrite Hf by (by left).
  - intros va. unfold pte_of. destruct (tabs !! PDX va) as [t|] eqn:E; [|done].
    destruct (H3 _ _ E) as [Ht _]. unfold load32.
    destruct (word_in_page t (PTX va) Ht (PTX_range va)) as (-> & _). rewrite Hf; [done|]. right. eauto.
Qed.

(** An allocator and a page table in the same memory. *)
Record vm_ok (s : kmem) (l : list Z) (pgdir : Z) (tabs : gmap Z Z) : Prop := {
  vm_kalloc : kalloc_inv kend s l;
  vm_pt : pt_inv kend (mem s) pgdir tabs;
  vm_sep : forall p, pt_pages pgdir tabs p -> p ∉ l
}.

(** A page table has at most one page per entry of its directory. *)
Lemma pt_pages_count m pgdir tabs : pt_inv kend m pgdir tabs ->
  exists ps, (length ps <= 1025)%nat /\ forall p, pt_pages pgdir tabs p -> p ∈ ps.
Proof.
  intros Hpt. exists (pgdir :: (map_to_list tabs).*2). split.
  - cbn [length]. rewrite length_fmap. assert (length (map_to_list tabs).*1 <= length (seqZ 0 1024))%nat as Hl.
    { apply submseteq_length, NoDup_submseteq; [apply NoDup_fst_map_to_list|].
      intros i Hi. apply list_elem_of_fmap in Hi as ([j t] & -> & Hj%elem_of_map_to_list). apply elem_of_seqZ. apply (pt_dom _ _ _ _ Hpt) in Hj. cbn. lia. }
    rewrite length_fmap, length_seqZ in Hl. lia.
  - intros p [->|[i Hi]]; [left|right]. apply list_elem_of_fmap. exists (i, p). split; [done|]. by apply elem_of_map_to_list.
Qed.

(** The page table took its new pages from the free list, and no other page
    changed. *)
Record grew (pgdir : Z) (s : kmem) (l : list Z) (tabs : gmap Z Z) (s' : kmem) (l' : list Z) (tabs' : gmap Z Z)
  : Prop := {
  gr_new : exists new, l = new ++ l' /\ forall p, pt_pages pgdir tabs' p <-> pt_pages pgdir tabs p \/ p ∈ new;
  gr_frame : forall f, (forall p, pt_pages pgdir tabs' p -> f <> frame p) ->
    page_at (mem s') f = page_at (mem s) f;
  gr_lock : use_lock s' = use_lock s
}.

Lemma grew_refl pgdir s l tabs : grew pgdir s l tabs s l tabs.
Proof. split; [|done|done]. exists []. split; [done|]. intros p. rewrite elem_of_nil. tauto. Qed.

Lemma grew_trans pgdir s1 l1 t1 s2 l2 t2 s3 l3 t3 :
  grew pgdir s1 l1 t1 s2 l2 t2 -> grew pgdir s2 l2 t2 s3 l3 t3 -> grew pgdir s1 l1 t1 s3 l3 t3.
Proof.
  intros [(n1 & E1 & P1) F1 U1] [(n2 & E2 & P2) F2 U2]. split; [|intros f Hf|congruence].
  - exists (n1 ++ n2). split; [by rewrite E1, E2, app_assoc|]. intros p. rewrite P2, P1, elem_of_app. tauto.
  - rewrite F2, F1; [done| |done]. intros p Hp. apply Hf, P2. by left.
Qed.

Lemma pde_present t : valid_page kend t ->
  let e := Z.lor (Z.lor (Z.lor (v2p t) PTE_P) PTE_W) PTE_U in
  hasf PTE_P e = true /\ p2v (PTE_ADDR e) = t.
Proof.
  intros Ht. pose proof (valid_frame _ _ Ht) as [Hf _]. destruct Ht as (Hm & _ & Hr).
  assert (v2p t = t - KERNBASE) as Ev by (apply u32_small; unfold is_u32, KERNBASE, PHYSTOP in *; lia).
  assert (v2p t mod PGSIZE = 0) as Hv by (rewrite Ev, Zminus_mod, Hm; done).
  cbn zeta. rewrite <- !Z.lor_assoc. change (Z.lor PTE_P (Z.lor PTE_W PTE_U)) with 7. split.
  - rewrite hasf_lor. apply orb_true_r.
  - rewrite entry_addr; [|done|rewrite Ev; unfold KERNBASE, PHYSTOP in *; lia|lia].
    rewrite Ev. unfold p2v. rewrite u32_small; [lia|]. unfold is_u32, KERNBASE, PHYSTOP in *. lia.
Qed.

Lemma walk_found s pgdir tabs va t alloc :
  pt_inv kend (mem s) pgdir tabs -> tabs !! PDX va = Some t ->
  walkpgdir pgdir va alloc s = Ret s (t + 4 * PTX va).
Proof.
  intros [H1 H2 H3 H4 H5] Ht. destruct (H3 _ _ Ht) as [Hv _].
  destruct (word_in_page pgdir (PDX va) H1 (PDX_range va)) as (_ & _ & E1 & _).
  destruct (word_in_page t (PTX va) Hv (PTX_range va)) as (_ & _ & E2 & _).
  unfold walkpgdir. rewrite E1. unfold ld32, gets, bind. rewrite H5 by apply PDX_range. rewrite Ht.
  destruct (pde_present t Hv) as [-> ->]. by rewrite E2.
Qed.

Lemma walk_none s pgdir tabs va :
  pt_inv kend (mem s) pgdir tabs -> tabs !! PDX va = None -> walkpgdir pgdir va false s = Ret s 0.
Proof.
  intros [H1 H2 H3 H4 H5] Ht.
  destruct (word_in_page pgdir (PDX va) H1 (PDX_range va)) as (_ & _ & E1 & _).
  unfold walkpgdir. rewrite E1. unfold ld32, gets, bind. rewrite H5 by apply PDX_range. by rewrite Ht.
Qed.

Lemma walk_ptr t va : valid_page kend t -> (t + 4 * PTX va =? 0) = false.
Proof.
  intros (_ & _ & Hr). pose proof (PTX_range va). apply Z.eqb_neq. unfold KERNBASE, PHYSTOP in *. lia.
Qed.

(** Writing a page that is not free. *)
Lemma kalloc_inv_page s l p pg :
  kalloc_inv kend s l -> valid_page kend p -> p ∉ l -> length pg = Z.to_nat PGSIZE ->
  kalloc_inv kend (upd_mem <[frame p := pg]> s) l.
Proof.
  intros Hinv Hp Hnin Hlen. apply (kalloc_inv_client kend s); [done| |].
  - apply mem_ok_insert; [apply Hinv|done].
  - intros q Hq. rewrite page_at_insert_ne; [done|]. intros E. apply (frame_inj kend) in E as ->; [done|done|].
    by eapply (proj1 (Forall_forall _ _) (ki_valid _ _ _ Hinv)).
Qed.

Lemma memset_page_eq m p c :
  mem_ok m -> valid_page kend p -> mem_set p c PGSIZE m = <[frame p := replicate (Z.to_nat PGSIZE) (u8 c)]> m.
Proof.
  intros Hm Hp. unfold mem_set, store_bytes. destruct (valid_frame _ _ Hp) as [_ ->]. f_equal.
  apply memmove_in_full. by rewrite length_replicate, Hm.
Qed.

Lemma rd32_zero o : rd32 zero_page o = 0.
Proof.
  unfold rd32, rd, sub_bytes, zero_page. rewrite drop_replicate, take_replicate.
  induction (_ `min` _)%nat as [|k IH]; cbn [replicate le_val]; lia.
Qed.

Lemma load_zero_page p i m :
  valid_page kend p -> 0 <= i < 1024 -> page_at m (frame p) = zero_page -> load32 (p + 4 * i) m = 0.
Proof.
  intros Hp Hi E. unfold load32. destruct (word_in_page p i Hp Hi) as (-> & _). rewrite E. apply rd32_zero.
Qed.

(** A new table: the state after [walkpgdir] made one. *)
Lemma walk_new_table s t l pgdir tabs va :
  vm_ok s (t :: l) pgdir tabs -> tabs !! PDX va = None ->
  exists s', walkpgdir pgdir va true s = Ret s' (t + 4 * PTX va) /\
    vm_ok s' l pgdir (<[PDX va := t]> tabs) /\
    (forall v, pte_of (mem s') (<[PDX va := t]> tabs) v = pte_of (mem s) tabs v) /\
    grew pgdir s (t :: l) tabs s' l (<[PDX va := t]> tabs).
Proof.
  intros [Hk Hpt Hsep] Ht. pose proof Hpt as [H1 H2 H3 H4 H5].
  destruct (kalloc_law kend s t l Hk) as [R I1]. set (s1 := set_freelist _ s) in *.
  assert (valid_page kend t) as Hv by (apply ki_valid, Forall_cons in Hk; by destruct Hk).
  assert (t ∉ l) as Htl by (apply ki_nodup, NoDup_cons in Hk; by destruct Hk).
  assert (forall p, pt_pages pgdir tabs p -> p <> t /\ p ∉ l) as Hnt by (intros p Hp; apply Hsep in Hp; by apply not_elem_of_cons in Hp).
  pose proof (PDX_range va) as Hd. pose proof (PTX_range va) as Hx.
  destruct (word_in_page pgdir (PDX va) H1 Hd) as (Fd & Od & Ed & Ad).
  destruct (word_in_page t (PTX va) Hv Hx) as (_ & _ & Et & _).
  destruct (Hnt pgdir) as [Hdt Hdl]; [by left|].
  set (m1 := <[frame t := zero_page]> (mem s)).
  set (e := Z.lor (Z.lor (Z.lor (v2p t) PTE_P) PTE_W) PTE_U).
  set (m2 := store32 (pgdir + 4 * PDX va) e m1).
  assert (is_u32 e) as He.
  { unfold e. rewrite <- !Z.lor_assoc. change (Z.lor PTE_P (Z.lor PTE_W PTE_U)) with 7. apply entry_range; [| |lia].
    - destruct Hv as (Hm & _ & Hr). unfold v2p. rewrite u32_small by (unfold is_u32, KERNBASE, PHYSTOP in *; lia).
      by rewrite Zminus_mod, Hm.
    - apply u32_range. }
  assert (forall f, f <> frame t -> f <> frame pgdir -> page_at m2 f = page_at (mem s) f) as Hfr.
  { intros f Hf1 Hf2. unfold m2, store32, m1. rewrite Fd, !page_at_insert_ne by congruence. done. }
  assert (page_at m2 (frame t) = zero_page) as Hzt.
  { unfold m2, store32. rewrite Fd, page_at_insert_ne; [apply page_at_insert_eq|]. intros E. by apply (frame_inj kend) in E. }
  exists (mk_kmem (use_lock s) (load32 t (mem s)) m2).
  assert (forall p, pt_pages pgdir (<[PDX va:=t]> tabs) p <-> pt_pages pgdir tabs p \/ p ∈ [t]) as Hpg.
  { intros p. unfold pt_pages. rewrite list_elem_of_singleton. split.
    - intros [->|[i Hi]]; [tauto|]. apply lookup_insert_Some in Hi as [[<- <-]|[_ Hi]]; eauto.
    - intros [[->|[i Hi]]| ->]; [by left| |right; exists (PDX va); by rewrite lookup_insert_eq].
      right. exists i. rewrite lookup_insert_ne; [done|]. intros <-. congruence. }
  split_and!.
  - unfold walkpgdir. rewrite Ed. unfold ld32, gets, bind at 1. rewrite H5 by done. rewrite Ht. cbn [negb hasf Z.land].
    change (hasf PTE_P 0) with false. cbn iota. mrun R.
    rewrite (proj2 (Z.eqb_neq _ _)) by (by apply (valid_u32 kend)).
    unfold memset_page, st32. rewrite !modify_bind, Et. unfold ret, upd_mem, s1, set_freelist.
    cbn [mem use_lock freelist]. by rewrite memset_page_eq by (done || apply Hk).
  - split.
    + assert (kalloc_inv kend (upd_mem <[frame t := zero_page]> s1) l) as I2
        by (apply kalloc_inv_page; [done..|apply length_replicate]).
      apply (kalloc_inv_page _ l pgdir (wr32 (page_at m1 (frame pgdir)) (offset (pgdir + 4 * PDX va)) e)) in I2; try done.
      * unfold m2, store32. rewrite Fd. exact I2.
      * unfold wr32. rewrite wr_length. apply (ki_mem _ _ _ I2).
    + split; cbn [mem].
      * done.
      * intros i x [[<- <-]|[_ Hi]]%lookup_insert_Some; [done|by eapply H2].
      * intros i x [[<- <-]|[_ Hi]]%lookup_insert_Some; [done|by eapply H3].
      * intros i j x [[<- <-]|[Hne Hi]]%lookup_insert_Some [[<- E]|[Hne' Hj]]%lookup_insert_Some; try done.
        -- exfalso. destruct (Hnt t) as [? _]; [right; eauto|done].
        -- subst. exfalso. destruct (Hnt x) as [? _]; [right; eauto|done].
        -- by eapply H4.
      * intros i Hi. destruct (decide (i = PDX va)) as [->|Hne].
        -- rewrite lookup_insert_eq. unfold m2. apply load_store32_same; [|done|done].
           apply mem_ok_insert; [apply Hk|apply length_replicate].
        -- rewrite lookup_insert_ne by done. unfold m2. rewrite load_store_ne by auto.
           rewrite <- H5 by done. destruct (word_in_page pgdir i H1 Hi) as (Fi & _).
           unfold load32, m1. rewrite Fi, page_at_insert_ne; [done|]. intros E. by apply (frame_inj kend) in E.
    + intros p [Hp|Hp%list_elem_of_singleton]%Hpg; [by apply Hnt|by subst].
  - intros v. unfold pte_of. cbn [mem]. destruct (decide (PDX v = PDX va)) as [E|Hne].
    + rewrite E, lookup_insert_eq, Ht. apply load_zero_page; [done|apply PTX_range|done].
    + rewrite lookup_insert_ne by done. destruct (tabs !! PDX v) as [x|] eqn:Ex; [|done].
      destruct (H3 _ _ Ex) as [Hvx Hxd]. destruct (Hnt x) as [Hxt _]; [right; eauto|].
      destruct (word_in_page x (PTX v) Hvx (PTX_range v)) as (Fx & _). unfold load32. rewrite Fx, Hfr; [done| |];
        intros E; by apply (frame_inj kend) in E.
  - split; [by exists [t]| |done]. intros f Hf. apply Hfr; apply Hf, Hpg; [right; by apply list_elem_of_singleton|left; by left].
Qed.

Lemma walk_fail s pgdir tabs va :
  vm_ok s [] pgdir tabs -> tabs !! PDX va = None -> walkpgdir pgdir va true s = Ret s 0.
Proof.
  intros [Hk Hpt _] Ht. unfold walkpgdir.
  destruct (word_in_page pgdir (PDX va) (pt_dir _ _ _ _ Hpt) (PDX_range va)) as (_ & _ & -> & _).
  unfold ld32, gets, bind at 1. rewrite (pt_pde _ _ _ _ Hpt) by apply PDX_range. rewrite Ht.
  change (hasf PTE_P 0) with false. cbn [negb]. by mrun (kalloc_empty kend s Hk).
Qed.

(** [walkpgdir] with [alloc]: the entry, or 0 when memory is exhausted. *)
Lemma walk_alloc_law s l pgdir tabs va :
  vm_ok s l pgdir tabs ->
  (tabs !! PDX va = None /\ l = [] /\ walkpgdir pgdir va true s = Ret s 0) \/
  exists s' l' tabs' t, walkpgdir pgdir va true s = Ret s' (t + 4 * PTX va) /\
    vm_ok s' l' pgdir tabs' /\ tabs' !! PDX va = Some t /\ valid_page kend t /\
    (length l <= S (length l'))%nat /\
    (forall v, pte_of (mem s') tabs' v = pte_of (mem s) tabs v) /\
    grew pgdir s l tabs s' l' tabs'.
Proof.
  intros Hok. pose proof Hok as [Hk Hpt Hsep]. destruct (tabs !! PDX va) as [t|] eqn:Ht.
  - right. exists s, l, tabs, t. split_and!; auto; [by apply (walk_found _ _ tabs)| |apply grew_refl].
    by apply (pt_tab _ _ _ _ Hpt) in Ht as [? _].
  - destruct l as [|t l].
    + left. split_and!; [done|done|]. by apply (walk_fail s pgdir tabs).
    + right. destruct (walk_new_table s t l pgdir tabs va Hok Ht) as (s' & R & Hok' & Hp & Hg).
      exists s', l, (<[PDX va := t]> tabs), t. split_and!; auto; [by rewrite lookup_insert_eq|].
      apply ki_valid, Forall_cons in Hk. by destruct Hk.
Qed.

(** Assigning an entry. *)
Lemma set_pte_law s l pgdir tabs va t v :
  vm_ok s l pgdir tabs -> 0 <= va < 2 ^ 32 -> tabs !! PDX va = Some t -> is_u32 v ->
  exists s', st32 (t + 4 * PTX va) v s = Ret s' tt /\ vm_ok s' l pgdir tabs /\
    (forall w, 0 <= w < 2 ^ 32 ->
       pte_of (mem s') tabs w = if decide (w / PGSIZE = va / PGSIZE) then v else pte_of (mem s) tabs w) /\
    grew pgdir s l tabs s' l tabs.
Proof.
  intros [Hk Hpt Hsep] Hva Ht Hv. pose proof Hpt as [H1 H2 H3 H4 H5]. destruct (H3 _ _ Ht) as [Hvt Htd].
  pose proof (PTX_range va) as Hx. destruct (word_in_page t (PTX va) Hvt Hx) as (Ft & Ot & _ & At).
  assert (pt_pages pgdir tabs t) as Hpt' by (right; eauto).
  set (m' := store32 (t + 4 * PTX va) v (mem s)). exists (upd_mem (store32 (t + 4 * PTX va) v) s).
  split; [done|]. split_and!.
  - split; [| |done].
    + unfold store32. rewrite Ft. apply (kalloc_inv_page s l t); [done|done|by apply Hsep|].
      unfold wr32. rewrite wr_length. apply Hk.
    + split; cbn [mem upd_mem]; try done. intros i Hi. rewrite load_store_ne by auto. by apply H5.
  - intros w Hw. unfold pte_of. cbn [mem upd_mem]. case_decide as E.
    + apply (vpn_index w va Hw Hva) in E as [-> ->]. rewrite Ht. apply load_store32_same; [apply Hk|done|done].
    + destruct (tabs !! PDX w) as [x|] eqn:Ex; [|done]. destruct (H3 _ _ Ex) as [Hvx _].
      apply load_store_ne; [done|done|done|apply PTX_range|].
      destruct (decide (t = x)) as [->|]; [right|by left]. intros Eq. apply E, vpn_index; [done|done|].
      split; [by eapply H4|done].
  - split; [|intros f Hf; cbn [mem upd_mem]|done].
    + exists []. split; [done|]. intros p. rewrite elem_of_nil. tauto.
    + unfold store32. rewrite Ft, page_at_insert_ne; [done|]. intros E. by apply (Hf t).
Qed.

(** [n] consecutive virtual pages from page [v0] mapped to [pa] on. *)
Definition mapped (F : Z -> Z) (v0 : Z) (n : nat) (pa perm : Z) (w : Z) : Z :=
  if decide (v0 <= w / PGSIZE < v0 + Z.of_nat n)
  then Z.lor (Z.lor (pa + (w / PGSIZE - v0) * PGSIZE) perm) PTE_P else F w.

Lemma pte_value_range pa perm :
  pa mod PGSIZE = 0 -> 0 <= pa < 2 ^ 32 -> 0 <= perm < 4096 -> is_u32 (Z.lor (Z.lor pa perm) PTE_P).
Proof.
  intros H1 H2 H3. rewrite <- Z.lor_assoc. apply entry_range; [done|done|].
  assert (0 <= Z.lor perm PTE_P) by (apply Z.lor_nonneg; unfold PTE_P; lia). split; [done|].
  assert (Z.log2 (Z.lor perm PTE_P) < 12) as Hl.
  { rewrite Z.log2_lor by (unfold PTE_P; lia). apply Z.max_lub_lt; [|done].
    destruct (decide (perm = 0)) as [->|]; [done|]. apply Z.log2_lt_pow2; lia. }
  destruct (decide (Z.lor perm PTE_P = 0)) as [->|]; [lia|]. apply Z.log2_lt_pow2 in Hl; lia.
Qed.

Lemma mapped_0 F v0 pa perm w : mapped F v0 0 pa perm w = F w.
Proof. unfold mapped. by rewrite decide_False by lia. Qed.

Lemma mapped_S F v0 k pa perm w :
  mapped (mapped F v0 1 pa perm) (v0 + 1) k (pa + PGSIZE) perm w = mapped F v0 (S k) pa perm w.
Proof.
  unfold mapped. destruct (decide (v0 + 1 <= w / PGSIZE < v0 + 1 + Z.of_nat k)).
  - rewrite decide_True by lia. do 2 f_equal. lia.
  - destruct (decide (v0 <= w / PGSIZE < v0 + Z.of_nat 1)).
    + rewrite decide_True by lia. do 2 f_equal.
    + by rewrite decide_False by lia.
Qed.

Lemma mapped_ext F G v0 k pa perm w : F w = G w -> mapped F v0 k pa perm w = mapped G v0 k pa perm w.
Proof. unfold mapped. by intros ->. Qed.

(** One iteration of the loop of [mappages]. *)
Lemma map_step s l pgdir tabs v0 pa perm :
  vm_ok s l pgdir tabs -> 0 <= v0 < 2 ^ 20 -> pa mod PGSIZE = 0 -> 0 <= pa < 2 ^ 32 -> 0 <= perm < 4096 ->
  hasf PTE_P (pte_of (mem s) tabs (v0 * PGSIZE)) = false ->
  (l = [] /\ walkpgdir pgdir (v0 * PGSIZE) true s = Ret s 0) \/
  exists s1 pte s2 l2 tabs2, walkpgdir pgdir (v0 * PGSIZE) true s = Ret s1 pte /\ (pte =? 0) = false /\
    hasf PTE_P (load32 pte (mem s1)) = false /\ st32 pte (Z.lor (Z.lor pa perm) PTE_P) s1 = Ret s2 tt /\
    vm_ok s2 l2 pgdir tabs2 /\ grew pgdir s l tabs s2 l2 tabs2 /\ (length l <= S (length l2))%nat /\
    forall w, 0 <= w < 2 ^ 32 -> pte_of (mem s2) tabs2 w = mapped (pte_of (mem s) tabs) v0 1 pa perm w.
Proof.
  intros Hok Hv0 Hpa Hpr Hperm Hno.
  assert (0 <= v0 * PGSIZE < 2 ^ 32) as Hva by (unfold PGSIZE; lia).
  destruct (walk_alloc_law s l pgdir tabs (v0 * PGSIZE) Hok)
    as [(_ & Hl & R)|(s1 & l1 & tabs1 & t & R & Hok1 & Ht & Hvt & Hl1 & Hp1 & Hg1)]; [by left|right].
  destruct (set_pte_law s1 l1 pgdir tabs1 (v0 * PGSIZE) t (Z.lor (Z.lor pa perm) PTE_P))
    as (s2 & R2 & Hok2 & Hp2 & Hg2); [done|done|done|by apply pte_value_range|].
  exists s1, (t + 4 * PTX (v0 * PGSIZE)), s2, l1, tabs1. split_and!; auto.
  - by apply walk_ptr.
  - rewrite <- Hno, <- Hp1. unfold pte_of. by rewrite Ht.
  - by eapply grew_trans.
  - intros w Hw. rewrite Hp2, Hp1 by done. unfold mapped. rewrite Z.div_mul by done.
    destruct (decide (w / PGSIZE = v0)) as [->|].
    + rewrite decide_True by lia. do 2 f_equal. lia.
    + by rewrite decide_False by lia.
Qed.

Lemma map_loop_law n fuel s l pgdir tabs v0 pa perm :
  (n < fuel)%nat -> vm_ok s l pgdir tabs -> 0 <= v0 -> v0 + Z.of_nat n < 2 ^ 20 ->
  pa mod PGSIZE = 0 -> 0 <= pa -> pa + Z.of_nat (S n) * PGSIZE <= 2 ^ 32 -> 0 <= perm < 4096 ->
  (forall i, 0 <= i <= Z.of_nat n -> hasf PTE_P (pte_of (mem s) tabs ((v0 + i) * PGSIZE)) = false) ->
  exists s' l' tabs' k r, map_loop fuel pgdir (v0 * PGSIZE) ((v0 + Z.of_nat n) * PGSIZE) pa perm s = Ret s' r /\
    (r = 0 /\ k = S n \/ r = -1 /\ (k <= n)%nat /\ l' = []) /\ (length l <= length l' + k)%nat /\
    vm_ok s' l' pgdir tabs' /\ grew pgdir s l tabs s' l' tabs' /\
    forall w, 0 <= w < 2 ^ 32 ->
      pte_of (mem s') tabs' w = mapped (pte_of (mem s) tabs) v0 k pa perm w.
Proof.
  assert (PGSIZE = 4096) as E by done. assert (2 ^ 20 = 1048576) as E20 by done.
  assert (2 ^ 32 = 4294967296) as E32 by done.
  revert fuel s l tabs v0 pa. induction n as [|n IH]; intros fuel s l tabs v0 pa Hf Hok Hv0 Hn Hpa Hp0 Hpr Hperm Hno;
    (destruct fuel as [|fuel]; [lia|]); cbn [map_loop];
    (destruct (map_step s l pgdir tabs v0 pa perm)
      as [[-> R]|(s1 & pte & s2 & l2 & tabs2 & R & Hpte & Hnp & R2 & Hok2 & Hg2 & Hl2 & Hp2)];
     [done|lia|done|lia|done|by rewrite <- (Hno 0) by lia; rewrite Z.add_0_r| |]); mrun R.
  - exists s, [], tabs, 0%nat, (-1). split_and!; auto; [apply grew_refl|]. intros w _. by rewrite mapped_0.
  - rewrite Hpte. unfold ld32. rewrite gets_bind, Hnp. mrun R2. rewrite Z.add_0_r, Z.eqb_refl.
    exists s2, l2, tabs2, 1%nat, 0. split_and!; auto. lia.
  - exists s, [], tabs, 0%nat, (-1). split_and!; auto; [right; split_and!; [done|lia|done]|apply grew_refl|].
    intros w _. by rewrite mapped_0.
  - rewrite Hpte. unfold ld32. rewrite gets_bind, Hnp. mrun R2. rewrite (proj2 (Z.eqb_neq _ _)) by lia.
    rewrite !u32_small by (unfold is_u32; lia).
    replace (v0 * PGSIZE + PGSIZE) with ((v0 + 1) * PGSIZE) by lia.
    replace (v0 + Z.of_nat (S n)) with (v0 + 1 + Z.of_nat n) by lia.
    destruct (IH fuel s2 l2 tabs2 (v0 + 1) (pa + PGSIZE)) as (s3 & l3 & tabs3 & k & r & R3 & Hr & Hl3 & Hok3 & Hg3 & Hp3);
      [lia|done|lia|lia|by rewrite <- Zplus_mod_idemp_l, Hpa|lia|lia|done| |].
    { intros i Hi. rewrite Hp2 by lia. unfold mapped. rewrite Z.div_mul, decide_False by lia.
      replace (v0 + 1 + i) with (v0 + (1 + i)) by lia. apply Hno. lia. }
    exists s3, l3, tabs3, (S k), r. split_and!; [done| |lia|done|by eapply grew_trans|].
    + destruct Hr as [[-> ->]|(-> & Hk & ->)]; [by left|right; split_and!; [done|lia|done]].
    + intros w Hw. rewrite Hp3 by done. rewrite <- mapped_S. apply mapped_ext. by apply Hp2.
Qed.
End pt.

(** [mappages] of a range that does not wrap: all of its pages are mapped, or
    memory ran out and a prefix of them is. *)
Lemma mappages_law kend n s l pgdir tabs va size pa perm :
  vm_ok kend s l pgdir tabs -> 0 <= va -> 1 <= size -> va + size <= 2 ^ 32 ->
  (va + size - 1) / PGSIZE = va / PGSIZE + Z.of_nat n ->
  pa mod PGSIZE = 0 -> 0 <= pa -> pa + Z.of_nat (S n) * PGSIZE <= 2 ^ 32 -> 0 <= perm < 4096 ->
  (forall i, 0 <= i <= Z.of_nat n -> hasf PTE_P (pte_of (mem s) tabs ((va / PGSIZE + i) * PGSIZE)) = false) ->
  exists s' l' tabs' k r, mappages pgdir va size pa perm s = Ret s' r /\
    (r = 0 /\ k = S n \/ r = -1 /\ (k <= n)%nat /\ l' = []) /\ (length l <= length l' + k)%nat /\
    vm_ok kend s' l' pgdir tabs' /\ grew pgdir s l tabs s' l' tabs' /\
    forall w, 0 <= w < 2 ^ 32 ->
      pte_of (mem s') tabs' w = mapped (pte_of (mem s) tabs) (va / PGSIZE) k pa perm w.
Proof.
  assert (PGSIZE = 4096) as E by done. assert (2 ^ 32 = 4294967296) as E32 by done.
  intros Hok Hva Hsz Hend Hn Hpa Hp0 Hpr Hperm Hno. unfold mappages.
  rewrite !u32_small by (unfold is_u32; lia). rewrite !PGROUNDDOWN_eq by lia.
  pose proof (Z.div_mod va PGSIZE ltac:(done)) as D1. pose proof (Z.div_mod (va + size - 1) PGSIZE ltac:(done)) as D2.
  replace (va - va mod PGSIZE) with (va / PGSIZE * PGSIZE) by lia.
  replace (va + size - 1 - (va + size - 1) mod PGSIZE) with ((va / PGSIZE + Z.of_nat n) * PGSIZE) by lia.
  assert (0 <= va / PGSIZE) by (by apply Z.div_pos).
  assert (va / PGSIZE + Z.of_nat n < 2 ^ 20).
  { rewrite <- Hn. apply Z.div_lt_upper_bound; [done|]. change (PGSIZE * 2 ^ 20) with (2 ^ 32). lia. }
  apply map_loop_law; try done.
  pose proof max_pages_eq. lia.
Qed.

(** ** The kernel's part of every page table *)

Section kernel_part.
Context (kend kdata : Z).
Context (Hdata : kdata mod PGSIZE = 0) (Hdr : KERNLINK < kdata < KERNBASE + PHYSTOP).

Definition kpte (w : Z) : Z :=
  let pg := w / PGSIZE * PGSIZE in
  if decide (KERNBASE <= w < KERNLINK) then Z.lor (Z.lor (pg - KERNBASE) PTE_W) PTE_P
  else if decide (KERNLINK <= w < kdata) then Z.lor (Z.lor (pg - KERNBASE) 0) PTE_P
  else if decide (kdata <= w < KERNBASE + PHYSTOP) then Z.lor (Z.lor (pg - KERNBASE) PTE_W) PTE_P
  else if decide (DEVSPACE <= w) then Z.lor (Z.lor pg PTE_W) PTE_P
  else 0.

(** A range of [kmap] of [n + 1] pages from page [v0]. *)
Record krange (k : Z * Z * Z * Z) (v0 : Z) (n : nat) : Prop := {
  kr_virt : k.1.1.1 = v0 * PGSIZE;
  kr_size : u32 (k.1.2 - k.1.1.2) = Z.of_nat (S n) * PGSIZE;
  kr_phys : k.1.1.2 mod PGSIZE = 0 /\ 0 <= k.1.1.2 /\ k.1.1.2 + Z.of_nat (S n) * PGSIZE <= 2 ^ 32;
  kr_perm : 0 <= k.2 < 4096;
  kr_v0 : 0 <= v0 /\ v0 + Z.of_nat n < 2 ^ 20
}.

Lemma map_krange s l pgdir tabs k v0 n :
  vm_ok kend s l pgdir tabs -> krange k v0 n ->
  (forall w, 0 <= w < 2 ^ 32 -> v0 <= w / PGSIZE <= v0 + Z.of_nat n -> pte_of (mem s) tabs w = 0) ->
  exists s' l' tabs' r, mappages pgdir k.1.1.1 (u32 (k.1.2 - k.1.1.2)) k.1.1.2 k.2 s = Ret s' r /\
    vm_ok kend s' l' pgdir tabs' /\ grew pgdir s l tabs s' l' tabs' /\
    (r = -1 /\ l' = [] \/ r = 0 /\ forall w, 0 <= w < 2 ^ 32 ->
       pte_of (mem s') tabs' w = mapped (pte_of (mem s) tabs) v0 (S n) k.1.1.2 k.2 w).
Proof.
  intros Hok [Hv Hs (Hp1 & Hp2 & Hp3) Hperm [Hv1 Hv2]] Hz. assert (PGSIZE = 4096) as E by done.
  rewrite Hs, Hv.
  destruct (mappages_law kend n s l pgdir tabs (v0 * PGSIZE) (Z.of_nat (S n) * PGSIZE) k.1.1.2 k.2)
    as (s' & l' & tabs' & j & r & R & Hr & _ & Hok' & Hg & Hp); try done.
  - lia.
  - lia.
  - lia.
  - rewrite Z.div_mul by done. symmetry. apply (Z.div_unique _ _ _ (PGSIZE - 1)); lia.
  - intros i Hi. rewrite Z.div_mul by done. rewrite Hz; [done|lia|]. rewrite Z.div_mul by done. lia.
  - exists s', l', tabs', r. split_and!; try done. destruct Hr as [[-> ->]|(-> & _ & ->)]; [right|by left].
    split; [done|]. intros w Hw. rewrite Hp by done. by rewrite Z.div_mul by done.
Qed.

Definition overlay (F : Z -> Z) (ks : list ((Z * Z * Z * Z) * Z * nat)) : Z -> Z :=
  foldl (fun F '(k, v0, n) => mapped F v0 (S n) k.1.1.2 k.2) F ks.

Lemma overlay_ext F G ks w : F w = G w -> overlay F ks w = overlay G ks w.
Proof.
  revert F G. induction ks as [|[[k v0] n] ks IH]; intros F G E; [done|]. cbn. apply IH. by apply mapped_ext.
Qed.

(** The ranges do not overlap. *)
Fixpoint disjoint_ranges (ks : list ((Z * Z * Z * Z) * Z * nat)) : Prop :=
  match ks with
  | [] => True
  | (_, v0, n) :: ks =>
      Forall (fun '(_, v1, m) => v0 + Z.of_nat n < v1 \/ v1 + Z.of_nat m < v0) ks /\ disjoint_ranges ks
  end.

Lemma map_kernel_law ks s l pgdir tabs :
  vm_ok kend s l pgdir tabs -> Forall (fun '(k, v0, n) => krange k v0 n) ks -> disjoint_ranges ks ->
  Forall (fun '(_, v0, n) => forall w, 0 <= w < 2 ^ 32 -> v0 <= w / PGSIZE <= v0 + Z.of_nat n ->
    pte_of (mem s) tabs w = 0) ks ->
  exists s' l' tabs' r, map_kernel pgdir (ks.*1.*1) s = Ret s' r /\
    vm_ok kend s' l' pgdir tabs' /\ grew pgdir s l tabs s' l' tabs' /\
    (r = 0 /\ l' = [] \/ r = pgdir /\ forall w, 0 <= w < 2 ^ 32 ->
       pte_of (mem s') tabs' w = overlay (pte_of (mem s) tabs) ks w).
Proof.
  revert s l tabs. induction ks as [|[[k v0] n] ks IH]; intros s l tabs Hok Hk Hd Hz.
  - exists s, l, tabs, pgdir. split_and!; [done|done|apply grew_refl|by right].
  - apply Forall_cons in Hk as [Hk Hks], Hz as [Hz Hzs]. destruct Hd as [Hd Hds]. cbn [fmap list_fmap map_kernel].
    destruct (map_krange s l pgdir tabs k v0 n Hok Hk Hz) as (s1 & l1 & tabs1 & r & R & Hok1 & Hg1 & Hr).
    destruct k as [[[virt ps] pe] perm]. cbn [fst snd] in *. mrun R.
    destruct Hr as [[-> ->]|[-> Hp]]; [exists s1, [], tabs1, 0; split_and!; auto|]. cbn [Z.ltb Z.compare].
    destruct (IH s1 l1 tabs1) as (s2 & l2 & tabs2 & r & R2 & Hok2 & Hg2 & Hr2); [done|done|done| |].
    { apply Forall_forall. intros [[k1 v1] m] Hin w Hw Hv. rewrite Hp by done.
      pose proof (proj1 (Forall_forall _ _) Hd _ Hin) as Hd1. pose proof (proj1 (Forall_forall _ _) Hzs _ Hin) as Hz1.
      cbn in Hd1, Hz1. unfold mapped. rewrite decide_False by lia. by apply Hz1. }
    exists s2, l2, tabs2, r. split_and!; [done|done|by eapply grew_trans|].
    destruct Hr2 as [[-> ->]|[-> Hp2]]; [by left|right]. split; [done|]. intros w Hw. rewrite Hp2 by done. cbn.
    by apply overlay_ext, Hp.
Qed.

(** The ranges of [kmap], with their first page and length. *)
Definition kranges : list ((Z * Z * Z * Z) * Z * nat) :=
  let d := kdata / PGSIZE in
  zip (zip (kmap kdata) [KERNBASE / PGSIZE; KERNLINK / PGSIZE; d; DEVSPACE / PGSIZE])
      [255%nat; Z.to_nat (d - KERNLINK / PGSIZE - 1);
       Z.to_nat ((KERNBASE + PHYSTOP) / PGSIZE - d - 1); Z.to_nat 8191].

Lemma kdata_page : exists d, kdata = d * PGSIZE /\ kdata / PGSIZE = d /\ 524544 < d < 581632.
Proof.
  apply Z.mod_divide in Hdata as [d ->]; [|done]. exists d. rewrite Z.div_mul by done.
  unfold KERNLINK, KERNBASE, PHYSTOP, EXTMEM, PGSIZE in *. lia.
Qed.

Lemma kranges_ok : Forall (fun '(k, v0, n) => krange k v0 n) kranges /\ disjoint_ranges kranges /\
  kranges.*1.*1 = kmap kdata.
Proof.
  destruct kdata_page as (d & E & Ed & Hd). unfold kranges. rewrite Ed.
  change (KERNBASE / PGSIZE) with 524288. change (KERNLINK / PGSIZE) with 524544.
  change (DEVSPACE / PGSIZE) with 1040384. change ((KERNBASE + PHYSTOP) / PGSIZE) with 581632.
  assert (v2p kdata = (d - 524288) * PGSIZE) as Ev.
  { unfold v2p. rewrite E, u32_small; unfold is_u32, KERNBASE, PGSIZE; lia. }
  split_and!; [|cbn [kmap zip zip_with disjoint_ranges]; rewrite ?Forall_cons, ?Forall_nil; lia|done].
  cbn [kmap zip zip_with]. rewrite Ev. change (v2p KERNLINK) with (256 * PGSIZE).
  repeat (apply Forall_cons; split); [..|done]; split; cbn [fst snd];
    rewrite ?E; try (unfold PTE_W; lia); try (split_and!; [by apply Z.mod_mul|unfold PGSIZE; lia..]); try done.
  - rewrite u32_small; unfold is_u32, PGSIZE; lia.
  - rewrite u32_small; unfold is_u32, PGSIZE, PHYSTOP; lia.
Qed.

Lemma overlay_kpte w : 0 <= w < 2 ^ 32 -> overlay (fun _ => 0) kranges w = kpte w.
Proof.
  intros Hw. destruct kdata_page as (d & E & Ed & Hd). unfold kranges, kpte. rewrite Ed.
  change (KERNBASE / PGSIZE) with 524288. change (KERNLINK / PGSIZE) with 524544.
  change (DEVSPACE / PGSIZE) with 1040384. change ((KERNBASE + PHYSTOP) / PGSIZE) with 581632.
  assert (v2p kdata = (d - 524288) * PGSIZE) as Ev.
  { unfold v2p. rewrite E, u32_small; unfold is_u32, KERNBASE, PGSIZE; lia. }
  cbn [kmap zip zip_with overlay foldl]. unfold mapped. cbn [fst snd]. rewrite Ev.
  change (v2p KERNLINK) with (256 * PGSIZE).
  assert (KERNBASE = 524288 * PGSIZE) as -> by done. assert (KERNLINK = 524544 * PGSIZE) as -> by done.
  assert (DEVSPACE = 1040384 * PGSIZE) as -> by done. assert (PHYSTOP = 57344 * PGSIZE) as -> by done. rewrite E.
  pose proof (Z.div_mod w PGSIZE ltac:(done)) as Dw. pose proof (Z.mod_pos_bound w PGSIZE ltac:(done)) as Mw.
  set (v := w / PGSIZE) in *. assert (PGSIZE = 4096) as EP by done. rewrite !EP in *.
  repeat (case_decide; try lia); do 2 f_equal; lia.
Qed.

(** An empty page directory. *)
Lemma empty_pgdir s d l :
  kalloc_inv kend s (d :: l) ->
  exists s', kalloc s = Ret s' d /\
    vm_ok kend (upd_mem (mem_set d 0 PGSIZE) s') l d ∅ /\
    (forall f, f <> frame d -> page_at (mem (upd_mem (mem_set d 0 PGSIZE) s')) f = page_at (mem s) f) /\
    use_lock s' = use_lock s.
Proof.
  intros Hk. destruct (kalloc_law kend s d l Hk) as [R I1]. eexists. split; [exact R|].
  set (s1 := set_freelist _ s) in *.
  assert (valid_page kend d) as Hv by (apply ki_valid, Forall_cons in Hk; by destruct Hk).
  assert (d ∉ l) as Hdl by (apply ki_nodup, NoDup_cons in Hk; by destruct Hk).
  assert (upd_mem (mem_set d 0 PGSIZE) s1 = upd_mem <[frame d := zero_page]> s1) as ->.
  { unfold upd_mem. by rewrite (memset_page_eq kend) by (done || apply Hk). }
  split_and!; [|intros f Hf; cbn; by rewrite page_at_insert_ne|done]. split.
  - apply kalloc_inv_page; [done..|apply length_replicate].
  - split; try done. intros i Hi. rewrite lookup_empty. apply (load_zero_page kend); [done|done|].
    cbn. apply page_at_insert_eq.
  - intros p [->|[i Hi]]; [done|]. by rewrite lookup_empty in Hi.
Qed.

(** [setupkvm]: a page table with the kernel's mappings and nothing else, or 0
    when memory ran out. *)
Lemma setupkvm_law s l :
  kalloc_inv kend s l ->
  exists s' r l' new, setupkvm kdata s = Ret s' r /\ l = new ++ l' /\ kalloc_inv kend s' l' /\
    (forall f, (forall p, p ∈ l -> f <> frame p) -> page_at (mem s') f = page_at (mem s) f) /\
    (r = 0 /\ (length l <= 1025)%nat \/ exists tabs, (forall p, pt_pages r tabs p <-> p ∈ new) /\
       vm_ok kend s' l' r tabs /\ forall w, 0 <= w < 2 ^ 32 -> pte_of (mem s') tabs w = kpte w).
Proof.
  intros Hk. unfold setupkvm. destruct l as [|d l].
  { mrun (kalloc_empty kend s Hk). exists s, 0, [], []. split_and!; auto. left. cbn. split; [done|lia]. }
  destruct (empty_pgdir s d l Hk) as (s1 & R1 & Hok1 & Hf1 & _). mrun R1.
  rewrite (proj2 (Z.eqb_neq _ _)) by (apply ki_valid, Forall_cons in Hk as [Hv _]; by apply (valid_u32 kend)).
  unfold memset_page. rewrite modify_bind. set (s2 := upd_mem _ s1) in *.
  change (DEVSPACE <? p2v PHYSTOP) with false. cbn iota.
  destruct kranges_ok as (H1 & H2 & H3).
  destruct (map_kernel_law kranges s2 l d ∅ Hok1 H1 H2) as (s3 & l3 & tabs3 & r & R3 & Hok3 & Hg3 & Hr).
  { apply Forall_forall. intros [[k v0] n] _ w _ _. unfold pte_of. by rewrite lookup_empty. }
  rewrite H3 in R3. destruct Hg3 as [(new & El & Hnew) Hfr _].
  assert (forall p, pt_pages d tabs3 p <-> p ∈ d :: new) as Hpg.
  { intros p. rewrite Hnew, elem_of_cons. unfold pt_pages. setoid_rewrite lookup_empty. naive_solver. }
  exists s3, r, l3, (d :: new). split_and!; [done|by rewrite El|apply Hok3| |].
  - intros f Hf. rewrite Hfr, Hf1; [done|by apply Hf; left|]. intros p [->|Hp]%Hpg%elem_of_cons; apply Hf; [left|].
    right. rewrite El. apply elem_of_app. by left.
  - destruct Hr as [[-> ->]|[-> Hp]]; [left|right].
    + split; [done|]. rewrite El, app_nil_r in *. destruct (pt_pages_count kend _ _ _ (vm_pt _ _ _ _ _ Hok3)) as (ps & Hl & Hps).
      etrans; [|exact Hl]. apply submseteq_length, NoDup_submseteq; [apply (ki_nodup _ _ _ Hk)|]. intros p Hp. by apply Hps, Hpg.
    + exists tabs3. split_and!; [done|done|].
      intros w Hw. rewrite Hp by done. rewrite <- overlay_kpte by done. apply overlay_ext. unfold pte_of. by rewrite lookup_empty.
Qed.
End kernel_part.

(** ** User memory *)

Section user_part.
Context (kend kdata : Z).

(** The entries of an address space with the user pages [U], in order and
    with their flags, and the kernel part [K]. *)
Definition upte (K : Z -> Z) (U : list (Z * Z)) (w : Z) : Z :=
  if decide (w < KERNBASE)
  then match U !! Z.to_nat (w / PGSIZE) with Some (p, f) => Z.lor (v2p p) f | None => 0 end
  else K w.

Record uspace (K : Z -> Z) (s : kmem) (l : list Z) (pgdir : Z) (tabs : gmap Z Z) (U : list (Z * Z)) : Prop := {
  us_vm : vm_ok kend s l pgdir tabs;
  us_pte : forall w, 0 <= w < 2 ^ 32 -> pte_of (mem s) tabs w = upte K U w;
  us_len : Z.of_nat (length U) <= KERNBASE / PGSIZE;
  us_page : Forall (fun '(p, f) => valid_page kend p /\ 0 <= f < 4096 /\ hasf PTE_P f = true) U;
  us_nodup : NoDup U.*1;
  us_sep : forall p, p ∈ U.*1 -> (p ∉ l) /\ ~ pt_pages pgdir tabs p
}.

Arguments us_vm {K} s l pgdir tabs U _.
Arguments us_pte {K} s l pgdir tabs U _.
Arguments us_len {K} s l pgdir tabs U _.
Arguments us_page {K} s l pgdir tabs U _.
Arguments us_nodup {K} s l pgdir tabs U _.
Arguments us_sep {K} s l pgdir tabs U _.

(** What the process sees: the contents of its pages. *)
Definition ucontent (s : kmem) (U : list (Z * Z)) : list page :=
  (fun pf => page_at (mem s) (frame pf.1)) <$> U.

Lemma uspace_valid {K} s l pgdir tabs U p : uspace K s l pgdir tabs U -> p ∈ U.*1 -> valid_page kend p.
Proof.
  intros H ([q f] & -> & Hin)%list_elem_of_fmap. by apply (proj1 (Forall_forall _ _) (us_page _ _ _ _ _ H)) in Hin as [? _].
Qed.

Lemma v2p_valid p : valid_page kend p -> v2p p = p - KERNBASE /\ v2p p mod PGSIZE = 0 /\ 0 < v2p p < PHYSTOP /\ p2v (v2p p) = p.
Proof.
  intros (Hm & _ & Hr). assert (v2p p = p - KERNBASE) as ->.
  { apply u32_small. unfold is_u32, KERNBASE, PHYSTOP in *. lia. }
  split_and!; [done|by rewrite Zminus_mod, Hm|lia|lia|].
  unfold p2v. rewrite u32_small; [lia|]. unfold is_u32, KERNBASE, PHYSTOP in *. lia.
Qed.

(** Growth of the page table leaves foreign pages alone. *)
Lemma grew_foreign pgdir s l tabs s' l' tabs' p :
  grew pgdir s l tabs s' l' tabs' -> vm_ok kend s l pgdir tabs -> vm_ok kend s' l' pgdir tabs' ->
  valid_page kend p -> p ∉ l -> ~ pt_pages pgdir tabs p ->
  (p ∉ l') /\ ~ pt_pages pgdir tabs' p /\ page_at (mem s') (frame p) = page_at (mem s) (frame p).
Proof.
  intros [(new & El & Hn) Hf _] Hok Hok' Hv Hl Hp.
  assert (~ pt_pages pgdir tabs' p) as Hp'.
  { rewrite Hn. intros [?|Hin]; [done|]. apply Hl. rewrite El. apply elem_of_app. by left. }
  split_and!; [|done|].
  - intros Hin. apply Hl. rewrite El. apply elem_of_app. by right.
  - apply Hf. intros q Hq E. apply (frame_inj kend) in E as ->; [done|done|].
    destruct (vm_pt _ _ _ _ _ Hok') as [Hd _ Ht _ _]. destruct Hq as [->|[i Hi]]; [done|]. by apply Ht in Hi as [? _].
Qed.

(** Mapping one more page at the end of the user part. *)
Lemma map_one {K} s l pgdir tabs U p f :
  uspace K s l pgdir tabs U -> valid_page kend p -> p ∉ l -> ~ pt_pages pgdir tabs p -> p ∉ U.*1 ->
  Z.of_nat (length U) < KERNBASE / PGSIZE -> 0 <= f < 4096 -> Z.lor f PTE_P < 4096 ->
  exists s' l' tabs' r, mappages pgdir (Z.of_nat (length U) * PGSIZE) PGSIZE (v2p p) f s = Ret s' r /\
    grew pgdir s l tabs s' l' tabs' /\ (length l <= S (length l'))%nat /\
    (r = 0 /\ uspace K s' l' pgdir tabs' (U ++ [(p, Z.lor f PTE_P)]) \/
     r = -1 /\ l = [] /\ uspace K s' l' pgdir tabs' U) /\
    (forall q, valid_page kend q -> q ∉ l -> ~ pt_pages pgdir tabs q ->
       page_at (mem s') (frame q) = page_at (mem s) (frame q)).
Proof.
  intros Hus Hv Hpl Hpp HpU Hlen Hf Hf'. pose proof Hus as [Hok Hpte HL Hpg Hnd Hsep].
  destruct (v2p_valid p Hv) as (_ & Hvm & Hvr & _).
  assert (KERNBASE / PGSIZE = 524288) as EK by done. assert (PGSIZE = 4096) as EP by done.
  assert (2 ^ 32 = 4294967296) as E32 by done. assert (PHYSTOP = 234881024) as EPh by done.
  assert (KERNBASE = 2147483648) as EKB by done.
  destruct (mappages_law kend 0 s l pgdir tabs (Z.of_nat (length U) * PGSIZE) PGSIZE (v2p p) f)
    as (s' & l' & tabs' & k & r & R & Hr & Hll & Hok' & Hg & Hp); try done; try lia.
  { rewrite Z.div_mul by done. symmetry. apply (Z.div_unique _ _ _ (PGSIZE - 1)); lia. }
  { intros i Hi. replace i with 0 by lia. rewrite Z.div_mul, Z.add_0_r by done.
    rewrite Hpte by lia. unfold upte. rewrite decide_True by lia. rewrite Z.div_mul, Nat2Z.id by done.
    by rewrite lookup_ge_None_2. }
  assert (forall q, q ∈ U.*1 -> (q ∉ l') /\ ~ pt_pages pgdir tabs' q) as Hsep'.
  { intros q Hq. destruct (Hsep q Hq) as [H1 H2].
    destruct (grew_foreign _ _ _ _ _ _ _ q Hg Hok Hok') as (? & ? & _); try done. by eapply uspace_valid. }
  exists s', l', tabs', r. split_and!; [done|done|lia| |].
  - destruct Hr as [[-> ->]|(-> & Hk & ->)]; [left|right].
    + split; [done|]. split; try done.
      * intros w Hw. rewrite Hp by done. unfold mapped, upte. rewrite Z.div_mul by done.
        pose proof (Z.div_mod w PGSIZE ltac:(done)) as Dw. pose proof (Z.mod_pos_bound w PGSIZE ltac:(done)) as Mw.
        assert (0 <= w / PGSIZE) by (apply Z.div_pos; lia).
        destruct (decide (w / PGSIZE = Z.of_nat (length U))) as [Ew|Hne].
        -- rewrite !decide_True by lia. rewrite Ew, Nat2Z.id, lookup_app_r, Nat.sub_diag by done. cbn.
           rewrite Z.sub_diag, Z.mul_0_l, Z.add_0_r. by rewrite Z.lor_assoc.
        -- rewrite decide_False by lia. rewrite Hpte by done. unfold upte. case_decide; [|done].
           destruct (decide (w / PGSIZE < Z.of_nat (length U))).
           ++ by rewrite lookup_app_l by lia.
           ++ rewrite !lookup_ge_None_2; [done|rewrite length_app; cbn; lia|lia].
      * rewrite length_app. cbn. lia.
      * apply Forall_app. split; [done|]. apply Forall_singleton. split_and!; [done| |done|].
        -- apply Z.lor_nonneg. unfold PTE_P. lia.
        -- rewrite hasf_lor. apply orb_true_r.
      * rewrite fmap_app. apply NoDup_app. split_and!; [done| |apply NoDup_singleton].
        intros q Hq ->%list_elem_of_singleton. done.
      * intros q. rewrite fmap_app, elem_of_app. intros [Hq| ->%list_elem_of_singleton]; [by apply Hsep'|].
        destruct (grew_foreign _ _ _ _ _ _ _ p Hg Hok Hok') as (? & ? & _); done.
    + split_and!; [done|destruct l; cbn in Hll; [done|lia]|]. split; try done. intros w Hw. rewrite Hp by done.
      assert (k = 0%nat) as -> by lia. rewrite mapped_0. by apply Hpte.
  - intros q H1 H2 H3. by destruct (grew_foreign _ _ _ _ _ _ _ q Hg Hok Hok') as (_ & _ & ?).
Qed.

(** The pages of an address space. *)
Definition owned (pgdir : Z) (tabs : gmap Z Z) (U : list (Z * Z)) (p : Z) : Prop :=
  pt_pages pgdir tabs p \/ p ∈ U.*1.

(** An address space that grew: its new pages came from the free list, and
    the pages it had keep their contents, as do those of others. *)
Record ugrew (pgdir : Z) (s : kmem) (l : list Z) (tabs : gmap Z Z) (U : list (Z * Z))
    (s' : kmem) (l' : list Z) (tabs' : gmap Z Z) (U' : list (Z * Z)) : Prop := {
  ug_new : exists used, l = used ++ l' /\ forall p, owned pgdir tabs' U' p <-> owned pgdir tabs U p \/ p ∈ used;
  ug_pt : forall p, pt_pages pgdir tabs' p -> pt_pages pgdir tabs p \/ p ∈ l;
  ug_frame : forall q, valid_page kend q -> q ∉ l -> ~ pt_pages pgdir tabs q ->
    page_at (mem s') (frame q) = page_at (mem s) (frame q)
}.

Lemma ugrew_refl pgdir s l tabs U : ugrew pgdir s l tabs U s l tabs U.
Proof. split; [|auto|done]. exists []. split; [done|]. intros p. rewrite elem_of_nil. tauto. Qed.

Lemma ugrew_trans pgdir s1 l1 t1 U1 s2 l2 t2 U2 s3 l3 t3 U3 :
  ugrew pgdir s1 l1 t1 U1 s2 l2 t2 U2 -> ugrew pgdir s2 l2 t2 U2 s3 l3 t3 U3 ->
  ugrew pgdir s1 l1 t1 U1 s3 l3 t3 U3.
Proof.
  intros [(n1 & E1 & P1) T1 F1] [(n2 & E2 & P2) T2 F2]. split.
  - exists (n1 ++ n2). split; [by rewrite E1, E2, app_assoc|]. intros p. rewrite P2, P1, elem_of_app. tauto.
  - intros p [Hp|Hp]%T2; [by apply T1|]. right. rewrite E1. apply elem_of_app. by right.
  - intros q Hq Hl Hp. rewrite F2, F1; try done.
    + intros Hin. apply Hl. rewrite E1. apply elem_of_app. by right.
    + intros [?|?]%T1; done.
Qed.

(** Taking a page off the free list and filling it. *)
Lemma take_page {K} s p l pgdir tabs U pg :
  uspace K s (p :: l) pgdir tabs U -> length pg = Z.to_nat PGSIZE ->
  exists s1, kalloc s = Ret s1 p /\ mem s1 = mem s /\
    uspace K (upd_mem <[frame p := pg]> s1) l pgdir tabs U /\
    valid_page kend p /\ (p ∉ l) /\ ~ pt_pages pgdir tabs p /\ (p ∉ U.*1) /\
    (forall q, valid_page kend q -> q <> p ->
       page_at (mem (upd_mem <[frame p := pg]> s1)) (frame q) = page_at (mem s) (frame q)).
Proof.
  intros [[Hk Hpt Hs] Hpte HL Hpg Hnd Hsep] Hlen. destruct (kalloc_law kend s p l Hk) as [R I1].
  set (s1 := set_freelist _ s) in *. exists s1.
  assert (valid_page kend p) as Hv by (apply ki_valid, Forall_cons in Hk; by destruct Hk).
  assert (p ∉ l) as Hpl by (apply ki_nodup, NoDup_cons in Hk; by destruct Hk).
  assert (~ pt_pages pgdir tabs p) as Hpp by (intros Hin%Hs; apply Hin; left).
  assert (p ∉ U.*1) as HpU by (intros Hin; apply Hsep in Hin as [Hin _]; apply Hin; left).
  assert (forall q, valid_page kend q -> q <> p ->
       page_at (mem (upd_mem <[frame p := pg]> s1)) (frame q) = page_at (mem s) (frame q)) as Hfr.
  { intros q Hq Hne. cbn. rewrite page_at_insert_ne; [done|]. intros E. by apply (frame_inj kend) in E. }
  destruct (pt_frame kend (mem s) (mem (upd_mem <[frame p := pg]> s1)) pgdir tabs Hpt) as [Hpt' Hpte'].
  { intros q Hq. apply Hfr; [|by intros ->]. destruct Hpt as [Hd _ Ht _ _].
    destruct Hq as [->|[j Hj]]; [done|]. by apply Ht in Hj as [? _]. }
  split_and!; try done. split; try done.
  - split; [by apply kalloc_inv_page|done|]. intros q Hq Hin. apply (Hs q Hq). by right.
  - intros w Hw. rewrite Hpte'. by apply Hpte.
  - intros q Hq. destruct (Hsep q Hq) as [H1 H2]. split; [|done]. intros Hin. apply H1. by right.
Qed.

(** Taking a page and mapping it. *)
Lemma add_page_ugrew s s2 s3 p f l l3 pgdir tabs tabs3 U :
  grew pgdir s2 l tabs s3 l3 tabs3 ->
  (forall q, valid_page kend q -> q <> p -> page_at (mem s2) (frame q) = page_at (mem s) (frame q)) ->
  (forall q, valid_page kend q -> q ∉ l -> ~ pt_pages pgdir tabs q ->
     page_at (mem s3) (frame q) = page_at (mem s2) (frame q)) ->
  ugrew pgdir s (p :: l) tabs U s3 l3 tabs3 (U ++ [(p, f)]).
Proof.
  intros [(used & -> & Hused) _ _] H1 H2. split.
  - exists (p :: used). split; [done|]. intros q. unfold owned. rewrite Hused, fmap_app, elem_of_app, elem_of_cons.
    cbn. rewrite list_elem_of_singleton. tauto.
  - intros q [?|?]%Hused; [by left|right]. right. apply elem_of_app. by left.
  - intros q Hq [Hqp Hql]%not_elem_of_cons Hpt. rewrite H2, H1 by done. done.
Qed.

Lemma flags_user : 0 <= Z.lor PTE_W PTE_U < 4096 /\ Z.lor (Z.lor PTE_W PTE_U) PTE_P < 4096.
Proof. by vm_compute. Qed.

(** The loop of [allocuvm] with two free pages for every page to add: each
    page may need a new page table. *)
Lemma alloc_loop_law {K} k fuel s l pgdir tabs U oldsz newsz :
  (k < fuel)%nat -> uspace K s l pgdir tabs U -> (2 * k <= length l)%nat ->
  Z.of_nat (length U) * PGSIZE < newsz + PGSIZE ->
  newsz < KERNBASE -> (Z.of_nat (length U + k) - 1) * PGSIZE < newsz <= Z.of_nat (length U + k) * PGSIZE ->
  exists s' l' tabs' new, alloc_loop kend fuel pgdir (Z.of_nat (length U) * PGSIZE) oldsz newsz s = Ret s' newsz /\
    uspace K s' l' pgdir tabs' (U ++ new) /\ length new = k /\
    Forall (fun pf => pf.2 = Z.lor (Z.lor PTE_W PTE_U) PTE_P) new /\
    ucontent s' new = replicate k zero_page /\ ugrew pgdir s l tabs U s' l' tabs' (U ++ new).
Proof.
  assert (PGSIZE = 4096) as EP by done. assert (KERNBASE = 2147483648) as EKB by done.
  assert (KERNBASE / PGSIZE = 524288) as EK by done. assert (2 ^ 32 = 4294967296) as E32 by done.
  revert fuel s l tabs U. induction k as [|k IH]; intros fuel s l tabs U Hf Hus Hl Hn Hk Hr;
    (destruct fuel as [|fuel]; [lia|]); cbn [alloc_loop].
  - rewrite (proj2 (Z.ltb_ge _ _)) by lia. exists s, l, tabs, []. rewrite app_nil_r.
    split_and!; try done. apply ugrew_refl.
  - rewrite (proj2 (Z.ltb_lt _ _)) by lia. destruct l as [|p l]; [cbn in Hl; lia|].
    destruct (take_page s p l pgdir tabs U zero_page Hus (length_replicate _ _))
      as (s1 & R1 & M1 & Hus1 & Hv & Hpl & Hpp & HpU & Hf1).
    mrun R1. rewrite (proj2 (Z.eqb_neq _ _)) by (by apply (valid_u32 kend)).
    unfold memset_page. rewrite modify_bind.
    assert (upd_mem (mem_set p 0 PGSIZE) s1 = upd_mem <[frame p := zero_page]> s1) as ->.
    { unfold upd_mem. rewrite (memset_page_eq kend), M1; [done| |done]. rewrite M1. apply (us_vm _ _ _ _ _ Hus). }
    set (s2 := upd_mem _ s1) in *.
    destruct (map_one (K:=K) s2 l pgdir tabs U p (Z.lor PTE_W PTE_U)) as (s3 & l3 & tabs3 & r & R3 & Hg3 & Hl3 & Hr3 & Hf3);
      try done; [lia|apply flags_user..|].
    mrun R3. destruct Hr3 as [[-> Hus3]|(_ & -> & _)]; [|cbn in Hl; lia].
    pose proof (add_page_ugrew s s2 s3 p (Z.lor (Z.lor PTE_W PTE_U) PTE_P) l l3 pgdir tabs tabs3 U Hg3 Hf1 Hf3) as Hug.
    set (U1 := U ++ [(p, Z.lor (Z.lor PTE_W PTE_U) PTE_P)]) in *.
    assert (length U1 = S (length U)) as HU1 by (unfold U1; rewrite length_app; cbn; lia).
    rewrite u32_small by (unfold is_u32; lia).
    replace (Z.of_nat (length U) * PGSIZE + PGSIZE) with (Z.of_nat (length U1) * PGSIZE) by lia.
    destruct (IH fuel s3 l3 tabs3 U1) as (s4 & l4 & tabs4 & new & R4 & Hus4 & Hlen & Hfl & Hc & Hug4);
      [lia|done|cbn in Hl; lia|lia|done|lia|].
    exists s4, l4, tabs4, ((p, Z.lor (Z.lor PTE_W PTE_U) PTE_P) :: new).
    unfold U1 in *. rewrite <- app_assoc in *. split_and!; [done|done|cbn; lia|by constructor| |by eapply ugrew_trans].
    cbn. f_equal; [|done]. destruct (us_sep _ _ _ _ _ Hus3 p) as [H1 H2].
    { rewrite fmap_app. apply elem_of_app. right. by apply list_elem_of_singleton. }
    rewrite (ug_frame _ _ _ _ _ _ _ _ _ Hug4) by done. rewrite Hf3 by done. apply page_at_insert_eq.
Qed.

(** [sz] bytes of user memory fill the pages [U]. *)
Definition covers (U : list (Z * Z)) (sz : Z) : Prop :=
  (Z.of_nat (length U) - 1) * PGSIZE < sz <= Z.of_nat (length U) * PGSIZE.

Lemma covers_roundup U sz : covers U sz -> 0 <= sz <= KERNBASE -> PGROUNDUP sz = Z.of_nat (length U) * PGSIZE.
Proof.
  unfold covers. intros Hc Hsz. assert (PGSIZE = 4096) as EP by done. assert (KERNBASE = 2147483648) as EKB by done.
  rewrite PGROUNDUP_eq by lia. f_equal. symmetry.
  apply (Z.div_unique _ _ _ (sz + PGSIZE - 1 - Z.of_nat (length U) * PGSIZE)); lia.
Qed.

(** ** Deallocation *)

(** Address spaces in the middle of [deallocuvm]: pages [n] to [i - 1] are gone. *)
Record holed (K : Z -> Z) (s : kmem) (l : list Z) (pgdir : Z) (tabs : gmap Z Z) (U : list (Z * Z)) (n i : nat) : Prop := {
  ho_vm : vm_ok kend s l pgdir tabs;
  ho_pte : forall w, 0 <= w < 2 ^ 32 -> pte_of (mem s) tabs w =
    if decide (Z.of_nat n <= w / PGSIZE < Z.of_nat i) then 0 else upte K U w;
  ho_sep : forall j p f, (j < n \/ i <= j)%nat -> U !! j = Some (p, f) -> (p ∉ l) /\ ~ pt_pages pgdir tabs p
}.

Arguments ho_vm {K} s l pgdir tabs U n i _.
Arguments ho_pte {K} s l pgdir tabs U n i _.
Arguments ho_sep {K} s l pgdir tabs U n i _.

(** Nothing is mapped from page [v] on. *)
Lemma dealloc_tail fuel v s l pgdir tabs oldsz :
  vm_ok kend s l pgdir tabs -> 0 <= v -> oldsz <= KERNBASE -> oldsz <= (v + Z.of_nat fuel) * PGSIZE ->
  (forall w, v * PGSIZE <= w < oldsz -> hasf PTE_P (pte_of (mem s) tabs w) = false) ->
  dealloc_loop kend (S fuel) pgdir (v * PGSIZE) oldsz s = Ret s tt.
Proof.
  intros Hok. assert (PGSIZE = 4096) as EP by done. assert (KERNBASE = 2147483648) as EKB by done.
  assert (2 ^ 32 = 4294967296) as E32 by done. assert (NPTENTRIES = 1024) as EN by done.
  revert v. induction fuel as [|fuel IH]; intros v Hv Ho Hf Hno; cbn [dealloc_loop].
  { by rewrite (proj2 (Z.ltb_ge _ _)) by lia. }
  destruct (Z.ltb_spec (v * PGSIZE) oldsz) as [Hlt|Hge]; [|done].
  destruct (tabs !! PDX (v * PGSIZE)) as [t|] eqn:Ht.
  - mrun (walk_found kend s pgdir tabs (v * PGSIZE) t false (vm_pt _ _ _ _ _ Hok) Ht).
    destruct (pt_tab _ _ _ _ (vm_pt _ _ _ _ _ Hok) _ _ Ht) as [Hvt _]. rewrite (walk_ptr kend t _ Hvt).
    unfold ld32. rewrite gets_bind. specialize (Hno (v * PGSIZE) ltac:(lia)) as Hnp. unfold pte_of in Hnp.
    rewrite Ht in Hnp. rewrite Hnp, ret_bind, u32_small by (unfold is_u32; lia).
    replace (v * PGSIZE + PGSIZE) with ((v + 1) * PGSIZE) by lia. apply IH; [lia|done|lia|].
    intros w Hw. apply Hno. lia.
  - mrun (walk_none kend s pgdir tabs (v * PGSIZE) (vm_pt _ _ _ _ _ Hok) Ht). cbn [Z.eqb].
    rewrite (u32_small (v * PGSIZE + _)) by (unfold is_u32; lia). rewrite u32_small by (unfold is_u32; lia).
    replace (v * PGSIZE + (NPTENTRIES - 1) * PGSIZE + PGSIZE) with ((v + 1024) * PGSIZE) by lia.
    apply IH; [lia|done|lia|]. intros w Hw. apply Hno. lia.
Qed.

(** Freeing page [i]. *)
Lemma free_one {K} s l pgdir tabs U n i p f :
  holed K s l pgdir tabs U n i -> (n <= i)%nat -> U !! i = Some (p, f) -> NoDup U.*1 ->
  Z.of_nat (length U) <= KERNBASE / PGSIZE ->
  Forall (fun '(p, f) => valid_page kend p /\ 0 <= f < 4096 /\ hasf PTE_P f = true) U ->
  exists pte s1 s2, walkpgdir pgdir (Z.of_nat i * PGSIZE) false s = Ret s pte /\ (pte =? 0) = false /\
    hasf PTE_P (load32 pte (mem s)) = true /\ PTE_ADDR (load32 pte (mem s)) = v2p p /\ v2p p <> 0 /\ p2v (v2p p) = p /\
    kfree kend p s = Ret s1 tt /\ st32 pte 0 s1 = Ret s2 tt /\ holed K s2 (p :: l) pgdir tabs U n (S i) /\
    (forall q, valid_page kend q -> q <> p -> ~ pt_pages pgdir tabs q ->
       page_at (mem s2) (frame q) = page_at (mem s) (frame q)).
Proof.
  intros [Hok Hpte Hsep] Hni Hi Hnd HL HU. assert (PGSIZE = 4096) as EP by done.
  assert (KERNBASE / PGSIZE = 524288) as EK by done. assert (2 ^ 32 = 4294967296) as E32 by done.
  assert (KERNBASE = 2147483648) as EKB by done.
  pose proof (lookup_lt_Some _ _ _ Hi) as Hlt. set (va := Z.of_nat i * PGSIZE).
  assert (0 <= va < 2 ^ 32) as Hva by (unfold va; lia).
  pose proof (proj1 (Forall_lookup _ _) HU _ _ Hi) as (Hv & Hf & HfP).
  destruct (v2p_valid p Hv) as (_ & Hvm & Hvr & Hpv).
  assert (pte_of (mem s) tabs va = Z.lor (v2p p) f) as Hval.
  { rewrite Hpte by done. unfold va. rewrite Z.div_mul, decide_False by lia. unfold upte.
    rewrite decide_True, Z.div_mul, Nat2Z.id by lia. by rewrite Hi. }
  destruct (tabs !! PDX va) as [t|] eqn:Ht; [|exfalso].
  2:{ unfold pte_of in Hval. rewrite Ht in Hval. rewrite entry_sum in Hval by (done || (unfold PHYSTOP in *; lia)). lia. }
  assert (load32 (t + 4 * PTX va) (mem s) = Z.lor (v2p p) f) as Hld by (unfold pte_of in Hval; by rewrite Ht in Hval).
  destruct (Hsep i p f ltac:(lia) Hi) as [Hpl Hpp].
  destruct (kfree_law kend s p l (vm_kalloc _ _ _ _ _ Hok) Hv Hpl) as (s1 & R1 & I1 & _ & F1).
  assert (forall q, pt_pages pgdir tabs q -> valid_page kend q /\ q <> p) as Hptp.
  { intros q Hq. split; [|by intros ->]. destruct (vm_pt _ _ _ _ _ Hok) as [Hd _ Htb _ _].
    destruct Hq as [->|[j Hj]]; [done|]. by apply Htb in Hj as [? _]. }
  destruct (pt_frame kend (mem s) (mem s1) pgdir tabs (vm_pt _ _ _ _ _ Hok)) as [Hpt1 Hpte1].
  { intros q [Hq1 Hq2]%Hptp. apply F1. intros E. by apply (frame_inj kend) in E. }
  assert (vm_ok kend s1 (p :: l) pgdir tabs) as Hok1.
  { split; [done|done|]. intros q Hq. destruct (Hptp q Hq). apply not_elem_of_cons. split; [done|].
    by apply (vm_sep _ _ _ _ _ Hok). }
  destruct (set_pte_law kend s1 (p :: l) pgdir tabs va t 0 Hok1 Hva Ht) as (s2 & R2 & Hok2 & Hp2 & Hg2); [done|].
  destruct (pt_tab _ _ _ _ (vm_pt _ _ _ _ _ Hok) _ _ Ht) as [Hvt _].
  exists (t + 4 * PTX va), s1, s2. split_and!; try done.
  - apply (walk_found kend s pgdir tabs); [apply Hok|done].
  - by apply (walk_ptr kend).
  - rewrite Hld, hasf_lor, HfP. apply orb_true_r.
  - rewrite Hld. apply entry_addr; [done|unfold PHYSTOP in *; lia|done].
  - lia.
  - split; [done| |].
    + intros w Hw. rewrite Hp2, Hpte1, Hpte by done. unfold va. rewrite Z.div_mul by done.
      repeat case_decide; try done; lia.
    + intros j q g Hj Hq. destruct (Hsep j q g ltac:(lia) Hq) as [H1 H2]. split; [|done].
      apply not_elem_of_cons. split; [|done]. intros ->.
      assert (j = i); [|lia]. eapply (NoDup_lookup U.*1); [done|..]; by rewrite list_lookup_fmap, ?Hq, ?Hi.
  - intros q Hq Hne Hnp. rewrite (gr_frame _ _ _ _ _ _ _ Hg2).
    + apply F1. intros E. by apply (frame_inj kend) in E.
    + intros r Hr E. destruct (Hptp r Hr) as [Hr1 _]. apply (frame_inj kend) in E as ->; done.
Qed.

(** The loop frees the pages from [i] on and then finds nothing more. *)
Lemma dealloc_loop_law {K} k fuel s l pgdir tabs U n i oldsz :
  holed K s l pgdir tabs U n i -> (n <= i)%nat -> (i + k = length U)%nat -> NoDup U.*1 ->
  Z.of_nat (length U) <= KERNBASE / PGSIZE ->
  Forall (fun '(p, f) => valid_page kend p /\ 0 <= f < 4096 /\ hasf PTE_P f = true) U ->
  oldsz <= KERNBASE -> (Z.of_nat (length U) - 1) * PGSIZE < oldsz ->
  oldsz <= (Z.of_nat i + Z.of_nat fuel) * PGSIZE ->
  exists s', dealloc_loop kend (S fuel) pgdir (Z.of_nat i * PGSIZE) oldsz s = Ret s' tt /\
    holed K s' (reverse (drop i U).*1 ++ l) pgdir tabs U n (length U) /\
    (forall q, valid_page kend q -> q ∉ (drop i U).*1 -> ~ pt_pages pgdir tabs q ->
       page_at (mem s') (frame q) = page_at (mem s) (frame q)).
Proof.
  assert (PGSIZE = 4096) as EP by done. assert (KERNBASE = 2147483648) as EKB by done.
  assert (KERNBASE / PGSIZE = 524288) as EK by done. assert (2 ^ 32 = 4294967296) as E32 by done.
  revert fuel s l i. induction k as [|k IH]; intros fuel s l i Hho Hni Hik Hnd HL HU Ho1 Ho2 Hf.
  - assert (i = length U) as -> by lia. rewrite drop_ge by done. cbn. exists s. split_and!; try done.
    apply (dealloc_tail fuel _ s l pgdir tabs); try done; [apply Hho|lia|].
    intros w Hw. rewrite (ho_pte _ _ _ _ _ _ _ Hho) by lia. case_decide; [done|]. unfold upte.
    rewrite decide_True, lookup_ge_None_2; [done| |lia].
    enough (Z.of_nat (length U) <= w / PGSIZE) by lia. apply Z.div_le_lower_bound; lia.
  - destruct (lookup_lt_is_Some_2 U i ltac:(lia)) as [[p f] Hi].
    destruct (free_one (K:=K) s l pgdir tabs U n i p f) as (pte & s1 & s2 & R & Hnz & HP & HA & Hv0 & Hpv & R1 & R2 & Ho' & Hfr); try done.
    destruct fuel as [|fuel]; [lia|].
    cbn [dealloc_loop]. rewrite (proj2 (Z.ltb_lt _ _)) by lia. mrun R. rewrite Hnz. unfold ld32. rewrite gets_bind.
    rewrite HP, HA, (proj2 (Z.eqb_neq _ _)), Hpv by done.
    rewrite (bind_ret _ _ _ s2 tt) by (by mrun R1). rewrite u32_small by (unfold is_u32; lia).
    replace (Z.of_nat i * PGSIZE + PGSIZE) with (Z.of_nat (S i) * PGSIZE) by lia.
    destruct (IH fuel s2 (p :: l) (S i)) as (s3 & R3 & Ho3 & Hf3); try done; try lia.
    exists s3. rewrite (drop_S _ _ _ Hi). split_and!; [done| |].
    + by rewrite fmap_cons, reverse_cons, <- app_assoc.
    + intros q Hq [Hqp Hqn]%not_elem_of_cons Hpt. rewrite Hf3, Hfr by done. done.
Qed.

Lemma uspace_holed {K} s l pgdir tabs U n : uspace K s l pgdir tabs U -> holed K s l pgdir tabs U n n.
Proof.
  intros [Hok Hpte _ _ _ Hsep]. split; [done| |].
  - intros w Hw. rewrite decide_False by lia. by apply Hpte.
  - intros j p f _ Hj. apply Hsep. apply list_elem_of_fmap. exists (p, f). split; [done|]. by eapply list_elem_of_lookup_2.
Qed.

Lemma holed_uspace {K} s l pgdir tabs U n :
  holed K s l pgdir tabs U n (length U) -> (n <= length U)%nat -> NoDup U.*1 ->
  Z.of_nat (length U) <= KERNBASE / PGSIZE ->
  Forall (fun '(p, f) => valid_page kend p /\ 0 <= f < 4096 /\ hasf PTE_P f = true) U ->
  uspace K s l pgdir tabs (take n U).
Proof.
  intros [Hok Hpte Hsep] Hn Hnd HL HU. split; [done| | |by apply Forall_take| |].
  - intros w Hw. rewrite Hpte by done. unfold upte. assert (0 <= w / PGSIZE) by (apply Z.div_pos; [lia|done]).
    destruct (decide (w < KERNBASE)) as [Hk|Hk].
    + rewrite lookup_take. case_decide as Hd.
      * by rewrite decide_False by lia.
      * case_decide; [done|]. rewrite lookup_ge_None_2 by lia. done.
    + rewrite decide_False; [done|]. intros Hd.
      assert (KERNBASE / PGSIZE <= w / PGSIZE); [apply Z.div_le_mono; [done|lia]|lia].
  - rewrite length_take. lia.
  - rewrite fmap_take. eapply sublist_NoDup; [done|apply sublist_take].
  - intros p (pf & -> & (j & Hj)%list_elem_of_lookup)%list_elem_of_fmap. rewrite lookup_take in Hj.
    case_decide; [|done]. destruct pf as [p f]. apply (Hsep j p f); [lia|done].
Qed.

(** [deallocuvm] shrinks the address space to the pages of [newsz] and gives
    the others back. *)
Lemma deallocuvm_law {K} s l pgdir tabs U n oldsz newsz :
  uspace K s l pgdir tabs U -> (n <= length U)%nat -> 0 <= newsz < oldsz -> oldsz <= KERNBASE ->
  covers (take n U) newsz -> (Z.of_nat (length U) - 1) * PGSIZE < oldsz ->
  exists s', deallocuvm kend pgdir oldsz newsz s = Ret s' newsz /\
    uspace K s' (reverse (drop n U).*1 ++ l) pgdir tabs (take n U) /\
    (forall q, valid_page kend q -> q ∉ (drop n U).*1 -> ~ pt_pages pgdir tabs q ->
       page_at (mem s') (frame q) = page_at (mem s) (frame q)).
Proof.
  intros Hus Hn Hsz Ho Hc Hu. assert (KERNBASE = 2147483648) as EKB by done. assert (PGSIZE = 4096) as EP by done.
  pose proof (uspace_holed _ _ _ _ _ n Hus) as Hho. destruct Hus as [Hok Hpte HL HU Hnd Hsep].
  unfold deallocuvm. rewrite (proj2 (Z.leb_gt _ _)) by lia. rewrite (covers_roundup _ _ Hc) by lia.
  rewrite length_take, Nat.min_l by done.
  destruct (dealloc_loop_law (K:=K) (length U - n) max_pages s l pgdir tabs U n n oldsz)
    as (s' & R & Ho' & Hf'); try done; try lia.
  { pose proof max_pages_eq. lia. }
  exists s'. mrun R. split_and!; [done| |done]. by apply holed_uspace.
Qed.

(** ** Freeing an address space *)

(** The loop over the page directory. *)
Lemma free_tables_law s l pgdir tabs :
  vm_ok kend s l pgdir tabs ->
  exists s' l', free_tables kend pgdir s = Ret s' tt /\ kalloc_inv kend s' l' /\
    (forall p, p ∈ l' <-> p ∈ l \/ exists i, tabs !! i = Some p) /\
    (forall q, valid_page kend q -> (forall i, tabs !! i <> Some q) -> page_at (mem s') (frame q) = page_at (mem s) (frame q)).
Proof.
  intros [Hk Hpt Hsep]. pose proof Hpt as [Hd Hdom Htab Hinj Hpde]. unfold free_tables.
  destruct (for_M_ind (fun k s1 => exists l1, kalloc_inv kend s1 l1 /\
      (forall p, p ∈ l1 <-> p ∈ l \/ exists i, i < Z.of_nat k /\ tabs !! i = Some p) /\
      (forall q, valid_page kend q -> (forall i, tabs !! i <> Some q) -> page_at (mem s1) (frame q) = page_at (mem s) (frame q)))
    0 (Z.to_nat NPDENTRIES) (fun i =>
      let* e := ld32 (u32 (pgdir + 4 * Z.of_nat i)) in
      whenM (hasf PTE_P e) (kfree kend (p2v (PTE_ADDR e)))) s) as (s' & R & l' & Hk' & Hl' & Hf').
  - lia.
  - exists l. split_and!; [done| |done]. intros p. split; [by left|]. intros [?|(i & Hi & Ht)]; [done|].
    apply Hdom in Ht. lia.
  - change (Z.to_nat NPDENTRIES) with 1024%nat. intros k s1 Hkk (l1 & Hk1 & Hl1 & Hf1).
    destruct (word_in_page kend pgdir (Z.of_nat k) Hd ltac:(lia)) as (Fd & _ & Eu & _).
    unfold ld32. rewrite Eu, gets_bind.
    assert (load32 (pgdir + 4 * Z.of_nat k) (mem s1) = load32 (pgdir + 4 * Z.of_nat k) (mem s)) as ->.
    { unfold load32. rewrite Fd, Hf1; [done|done|]. intros i Hi. by apply Htab in Hi as [_ ?]. }
    rewrite Hpde by lia. destruct (tabs !! Z.of_nat k) as [t|] eqn:Ht.
    + destruct (Htab _ _ Ht) as [Hvt _]. destruct (pde_present kend t Hvt) as [-> ->]. cbn [whenM].
      assert (t ∉ l1) as Htl.
      { rewrite Hl1. intros [Hin|(i & Hi & Hit)]; [apply (Hsep t); [right; eauto|done]|].
        pose proof (Hinj _ _ _ Ht Hit). lia. }
      destruct (kfree_law kend s1 t l1 Hk1 Hvt Htl) as (s2 & R2 & Hk2 & _ & Hf2). exists s2. split; [done|].
      exists (t :: l1). split_and!; [done| |].
      * intros p. rewrite elem_of_cons, Hl1. split.
        -- intros [->|[?|(i & Hi & Hit)]]; [right; exists (Z.of_nat k); split; [lia|done]|by left|].
           right. exists i. split; [lia|done].
        -- intros [?|(i & Hi & Hit)]; [right; by left|]. destruct (decide (i = Z.of_nat k)) as [->|].
           ++ left. congruence.
           ++ right; right. exists i. split; [lia|done].
      * intros q Hq Hnt. rewrite Hf2; [by apply Hf1|]. intros E. apply (frame_inj kend) in E as ->; [|done|done].
        by apply (Hnt (Z.of_nat k)).
    + change (hasf PTE_P 0) with false. cbn [whenM]. exists s1. split; [done|]. exists l1. split_and!; [done| |done].
      intros p. rewrite Hl1. split; (intros [?|(i & Hi & Hit)]; [by left|right; exists i; split; [|done]]); [lia|].
      destruct (decide (i = Z.of_nat k)) as [->|]; [congruence|lia].
  - exists s', l'. split_and!; [done|done| |done]. intros p. rewrite Hl'. split; (intros [?|(i & Hi)]; [by left|right]).
    + exists i. apply Hi.
    + exists i. split; [|done]. apply Hdom in Hi. change (Z.of_nat (Z.to_nat NPDENTRIES)) with 1024. lia.
Qed.

Lemma freevm_law {K} s l pgdir tabs U :
  uspace K s l pgdir tabs U ->
  exists s' l', freevm kend pgdir s = Ret s' tt /\ kalloc_inv kend s' l' /\
    (forall p, p ∈ l' <-> p ∈ l \/ owned pgdir tabs U p) /\
    (forall q, valid_page kend q -> ~ owned pgdir tabs U q -> page_at (mem s') (frame q) = page_at (mem s) (frame q)).
Proof.
  intros Hus. pose proof Hus as [Hok _ HL _ Hnd _]. pose proof (vm_pt _ _ _ _ _ Hok) as Hpt.
  assert (KERNBASE = 2147483648) as EKB by done. assert (PGSIZE = 4096) as EP by done.
  assert (KERNBASE / PGSIZE = 524288) as EK by done.
  destruct (deallocuvm_law (K:=K) s l pgdir tabs U 0 KERNBASE 0) as (s1 & R1 & Hus1 & Hf1);
    [done|lia|lia|lia|unfold covers; rewrite take_0; cbn; lia|lia|].
  rewrite take_0, drop_0 in *. unfold freevm.
  rewrite (proj2 (Z.eqb_neq _ _)) by (apply (valid_u32 kend), Hpt). mrun R1.
  destruct (free_tables_law s1 _ pgdir tabs (us_vm _ _ _ _ _ Hus1)) as (s2 & l2 & R2 & Hk2 & Hl2 & Hf2). mrun R2.
  assert (pgdir ∉ l2) as Hpl.
  { rewrite Hl2. intros [Hin|[i Hi]]; [|by apply (pt_tab _ _ _ _ Hpt) in Hi as [_ ?]].
    apply (vm_sep _ _ _ _ _ (us_vm _ _ _ _ _ Hus1) pgdir); [by left|done]. }
  destruct (kfree_law kend s2 pgdir l2 Hk2 (pt_dir _ _ _ _ Hpt) Hpl) as (s3 & R3 & Hk3 & _ & Hf3).
  exists s3, (pgdir :: l2). split_and!; [done|done| |].
  - intros p. rewrite elem_of_cons, Hl2, elem_of_app, elem_of_reverse. unfold owned, pt_pages. tauto.
  - intros q Hq Ho. unfold owned, pt_pages in Ho. rewrite Hf3, Hf2, Hf1; try done; [naive_solver..|].
    intros E. apply (frame_inj kend) in E; [|done|apply Hpt]. naive_solver.
Qed.

(** ** Copying an address space *)

Lemma uspace_transfer {K} s l s' l' pgdir tabs U :
  uspace K s l pgdir tabs U -> kalloc_inv kend s' l' ->
  (forall p, owned pgdir tabs U p -> p ∉ l') ->
  (forall p, pt_pages pgdir tabs p -> page_at (mem s') (frame p) = page_at (mem s) (frame p)) ->
  uspace K s' l' pgdir tabs U.
Proof.
  intros [Hok Hpte HL HU Hnd Hsep] Hk Hl Hf.
  destruct (pt_frame kend _ (mem s') _ _ (vm_pt _ _ _ _ _ Hok) Hf) as [Hpt' Hpte']. split; try done.
  - split; [done|done|]. intros p Hp. apply Hl. by left.
  - intros w Hw. rewrite Hpte'. by apply Hpte.
  - intros p Hp. split; [apply Hl; by right|]. by apply Hsep.
Qed.

Lemma owned_valid {K} s l pgdir tabs U p : uspace K s l pgdir tabs U -> owned pgdir tabs U p -> valid_page kend p /\ (p ∉ l).
Proof.
  intros Hus [Hp|Hp].
  - split; [|by apply (vm_sep _ _ _ _ _ (us_vm _ _ _ _ _ Hus))].
    destruct (vm_pt _ _ _ _ _ (us_vm _ _ _ _ _ Hus)) as [Hd _ Ht _ _]. destruct Hp as [->|[i Hi]]; [done|]. by apply Ht in Hi as [? _].
  - split; [by eapply uspace_valid|]. by apply (us_sep _ _ _ _ _ Hus) in Hp as [? _].
Qed.

Lemma ucontent_ext s s' U :
  (forall p, p ∈ U.*1 -> page_at (mem s') (frame p) = page_at (mem s) (frame p)) -> ucontent s' U = ucontent s U.
Proof.
  intros H. unfold ucontent. apply list_fmap_ext. intros j [p f] Hj. apply H. apply list_elem_of_fmap.
  exists (p, f). split; [done|]. by eapply list_elem_of_lookup_2.
Qed.

Lemma lor_P f : 0 <= f -> hasf PTE_P f = true -> Z.lor f PTE_P = f.
Proof.
  intros Hf H. apply Z.bits_inj'. intros n Hn. rewrite Z.lor_spec. unfold PTE_P.
  change 1 with (2 ^ 0). rewrite Z.pow2_bits_eqb by lia. destruct (Z.eqb_spec 0 n) as [<-|]; [|by rewrite orb_false_r].
  rewrite orb_true_r. symmetry. unfold hasf, PTE_P in H.
  destruct (Z.testbit f 0) eqn:E; [done|]. exfalso. apply negb_true_iff, Z.eqb_neq in H. apply H.
  change 1 with (Z.ones 1). rewrite Z.land_ones by lia. change (2 ^ 1) with 2. rewrite Zmod_odd.
  rewrite <- Z.bit0_odd, E. done.
Qed.

(** Reading the entry of a user page. *)
Lemma walk_user {K} s l pgdir tabs U i p f :
  uspace K s l pgdir tabs U -> U !! i = Some (p, f) ->
  exists pte, walkpgdir pgdir (Z.of_nat i * PGSIZE) false s = Ret s pte /\ (pte =? 0) = false /\
    load32 pte (mem s) = Z.lor (v2p p) f /\ hasf PTE_P (Z.lor (v2p p) f) = true /\
    PTE_ADDR (Z.lor (v2p p) f) = v2p p /\ PTE_FLAGS (Z.lor (v2p p) f) = f /\ p2v (v2p p) = p.
Proof.
  intros [Hok Hpte HL HU Hnd Hsep] Hi. pose proof (proj1 (Forall_lookup _ _) HU _ _ Hi) as (Hv & Hf & HfP).
  destruct (v2p_valid p Hv) as (_ & Hvm & Hvr & Hpv). pose proof (lookup_lt_Some _ _ _ Hi) as Hlt.
  assert (KERNBASE = 2147483648) as EKB by done. assert (PGSIZE = 4096) as EP by done.
  assert (KERNBASE / PGSIZE = 524288) as EK by done. assert (PHYSTOP = 234881024) as EPh by done.
  set (va := Z.of_nat i * PGSIZE). assert (pte_of (mem s) tabs va = Z.lor (v2p p) f) as Hval.
  { rewrite Hpte by (unfold va; lia). unfold upte, va. rewrite decide_True, Z.div_mul, Nat2Z.id by lia. by rewrite Hi. }
  destruct (tabs !! PDX va) as [t|] eqn:Ht.
  - destruct (pt_tab _ _ _ _ (vm_pt _ _ _ _ _ Hok) _ _ Ht) as [Hvt _].
    exists (t + 4 * PTX va). split_and!; [apply (walk_found kend s pgdir tabs); [apply Hok|done]|by apply (walk_ptr kend)| | | | |done].
    + unfold pte_of in Hval. by rewrite Ht in Hval.
    + rewrite hasf_lor, HfP. apply orb_true_r.
    + apply entry_addr; [done|lia|done].
    + apply entry_flags; done || lia.
  - exfalso. unfold pte_of in Hval. rewrite Ht, entry_sum in Hval by (done || lia). lia.
Qed.

(** Parent and child in the same memory, the child with the first pages copied. *)
Record copying (K : Z -> Z) (s : kmem) (l : list Z) (pgdir : Z) (tabs : gmap Z Z) (U : list (Z * Z))
    (d : Z) (dtabs : gmap Z Z) (D : list (Z * Z)) : Prop := {
  co_parent : uspace K s l pgdir tabs U;
  co_child : uspace (kpte kdata) s l d dtabs D;
  co_disj : forall p, owned pgdir tabs U p -> ~ owned d dtabs D p;
  co_flags : D.*2 = take (length D) U.*2;
  co_content : ucontent s D = take (length D) (ucontent s U)
}.

Arguments co_parent {K} s l pgdir tabs U d dtabs D _.
Arguments co_child {K} s l pgdir tabs U d dtabs D _.

(** Copying one page. *)
Lemma copy_one {K} s m l pgdir tabs U d dtabs D p f :
  copying K s (m :: l) pgdir tabs U d dtabs D -> U !! length D = Some (p, f) ->
  exists s1 s3 l3 dtabs3 r, kalloc s = Ret s1 m /\ (m =? 0) = false /\
    mappages d (Z.of_nat (length D) * PGSIZE) PGSIZE (v2p m) f
      (upd_mem (store_bytes m (sub_bytes (page_at (mem s1) (frame p)) (offset p) (Z.to_nat PGSIZE))) s1) = Ret s3 r /\
    (forall q, owned pgdir tabs U q -> page_at (mem s3) (frame q) = page_at (mem s) (frame q)) /\
    (exists used, l = used ++ l3 /\ forall p, pt_pages d dtabs3 p <-> pt_pages d dtabs p \/ p ∈ used) /\
    (r = 0 /\ copying K s3 l3 pgdir tabs U d dtabs3 (D ++ [(m, f)]) \/
     r = -1 /\ l = [] /\ copying K s3 l3 pgdir tabs U d dtabs3 D).
Proof.
  intros [Hpa Hch Hdis Hfl Hco] Hi. pose proof (lookup_lt_Some _ _ _ Hi) as Hlt.
  pose proof (proj1 (Forall_lookup _ _) (us_page _ _ _ _ _ Hpa) _ _ Hi) as (Hv & Hf & HfP).
  assert (owned pgdir tabs U p) as Hop.
  { right. apply list_elem_of_fmap. exists (p, f). split; [done|]. by eapply list_elem_of_lookup_2. }
  pose proof (ki_mem _ _ _ (vm_kalloc _ _ _ _ _ (us_vm _ _ _ _ _ Hpa))) as Hmok.
  set (b := page_at (mem s) (frame p)).
  destruct (take_page s m l d dtabs D b Hch) as (s1 & R1 & M1 & Hus1 & Hvm & Hml & Hmp & HmD & Hf1); [apply Hmok|].
  set (s2 := upd_mem <[frame m := b]> s1) in *.
  assert (upd_mem (store_bytes m (sub_bytes (page_at (mem s1) (frame p)) (offset p) (Z.to_nat PGSIZE))) s1 = s2) as Es2.
  { unfold s2, upd_mem, store_bytes. destruct (valid_frame _ _ Hvm) as [_ ->], (valid_frame _ _ Hv) as [_ ->].
    rewrite M1. fold b. assert (sub_bytes b 0 (Z.to_nat PGSIZE) = b) as ->.
    { unfold sub_bytes. rewrite drop_0. apply take_ge. by unfold b; rewrite Hmok. }
    by rewrite memmove_in_full by (unfold b; by rewrite !Hmok). }
  destruct (map_one (K:=kpte kdata) s2 l d dtabs D m f) as (s3 & l3 & dtabs3 & r & R3 & Hg3 & _ & Hr3 & Hf3); try done.
  { pose proof (us_len _ _ _ _ _ Hpa). lia. } { rewrite lor_P; [lia|lia|done]. }
  assert (forall q, owned pgdir tabs U q -> valid_page kend q /\ q <> m /\ (q ∉ l) /\ ~ pt_pages d dtabs q) as Hoq.
  { intros q Hq. destruct (owned_valid _ _ _ _ _ _ Hpa Hq) as [Hvq [Hqm Hql]%not_elem_of_cons]. split_and!; try done.
    intros Hin. apply (Hdis q Hq). by left. }
  assert (forall q, owned pgdir tabs U q -> page_at (mem s3) (frame q) = page_at (mem s) (frame q)) as HfU.
  { intros q Hq. destruct (Hoq q Hq) as (? & ? & ? & ?). by rewrite Hf3, Hf1. }
  pose proof (gr_new _ _ _ _ _ _ _ Hg3) as (used & El & Hused).
  assert (kalloc_inv kend s3 l3 -> uspace K s3 l3 pgdir tabs U) as HU3.
  { intros Hk3. apply (uspace_transfer s (m :: l)); [done|done| |].
    - intros q Hq. destruct (Hoq q Hq) as (_ & _ & Hql & _). intros Hin. apply Hql. rewrite El. apply elem_of_app. by right.
    - intros q Hq. apply HfU. by left. }
  assert (forall q, q ∈ D.*1 -> page_at (mem s3) (frame q) = page_at (mem s) (frame q)) as HfD.
  { intros q Hq. destruct (us_sep _ _ _ _ _ Hch q Hq) as [[Hqm Hql]%not_elem_of_cons Hqp].
    assert (valid_page kend q) by (by eapply (uspace_valid s)). by rewrite Hf3, Hf1. }
  assert (ucontent s3 D = take (length D) (ucontent s3 U)) as HcD.
  { rewrite (ucontent_ext s s3 D) by done. rewrite (ucontent_ext s s3 U); [done|]. intros q Hq. apply HfU. by right. }
  assert (forall q, owned pgdir tabs U q -> ~ (pt_pages d dtabs3 q \/ q ∈ D.*1 \/ q = m)) as Hdis3.
  { intros q Hq. destruct (Hoq q Hq) as (_ & Hqm & Hql & Hqp). rewrite Hused. intros [[?|Hin]|[Hin| ->]]; try done.
    - apply Hql. rewrite El. apply elem_of_app. by left.
    - apply (Hdis q Hq). by right. }
  exists s1, s3, l3, dtabs3, r. rewrite Es2.
  split_and!; [done|by apply Z.eqb_neq; apply (valid_u32 kend)|done|done|by exists used|].
  destruct Hr3 as [[-> Hus3]|(-> & -> & Hus3)]; [left; split; [done|]|right; split; [done|]; split; [done|]].
  - rewrite lor_P in Hus3 by (done || lia). split.
    + apply HU3, (us_vm _ _ _ _ _ Hus3).
    + done.
    + intros q Hq. unfold owned. rewrite fmap_app, elem_of_app. cbn. rewrite list_elem_of_singleton. by apply Hdis3.
    + rewrite fmap_app, length_app. cbn. rewrite Nat.add_1_r.
      rewrite (take_S_r _ _ f) by (by rewrite list_lookup_fmap, Hi). by rewrite Hfl.
    + unfold ucontent at 1. rewrite fmap_app, length_app. cbn. rewrite Nat.add_1_r.
      rewrite (take_S_r _ _ (page_at (mem s3) (frame p))).
      * f_equal; [exact HcD|]. f_equal. rewrite Hf3 by done. unfold s2. cbn. rewrite page_at_insert_eq. by rewrite HfU.
      * unfold ucontent. by rewrite list_lookup_fmap, Hi.
  - split; [apply HU3, (us_vm _ _ _ _ _ Hus3)|done| |done|done].
    intros q Hq [?|?]; apply (Hdis3 q Hq); auto.
Qed.

Lemma copy_loop_law {K} k fuel s l pgdir tabs U d dtabs D sz :
  (k < fuel)%nat -> (length D + k = length U)%nat -> copying K s l pgdir tabs U d dtabs D ->
  covers U sz -> sz <= KERNBASE ->
  exists s' l' dtabs' D' ok, copy_loop fuel pgdir d (Z.of_nat (length D) * PGSIZE) sz s = Ret s' ok /\
    copying K s' l' pgdir tabs U d dtabs' D' /\ (ok = true -> length D' = length U) /\
    (forall q, owned pgdir tabs U q -> page_at (mem s') (frame q) = page_at (mem s) (frame q)) /\
    (forall q, owned d dtabs D q -> owned d dtabs' D' q) /\
    (ok = false -> exists lost, (length D' + length lost <= length U)%nat /\ forall q, q ∈ l -> owned d dtabs' D' q \/ q ∈ lost).
Proof.
  assert (PGSIZE = 4096) as EP by done. assert (KERNBASE = 2147483648) as EKB by done.
  assert (2 ^ 32 = 4294967296) as E32 by done. assert (KERNBASE / PGSIZE = 524288) as EK by done.
  revert fuel s l dtabs D. induction k as [|k IH]; intros fuel s l dtabs D Hf Hk Hco Hc Hsz;
    (destruct fuel as [|fuel]; [lia|]); cbn [copy_loop]; unfold covers in Hc.
  - rewrite (proj2 (Z.ltb_ge _ _)) by lia. exists s, l, dtabs, D, true. split_and!; try done. lia.
  - rewrite (proj2 (Z.ltb_lt _ _)) by lia. destruct (lookup_lt_is_Some_2 U (length D) ltac:(lia)) as [[p f] Hi].
    destruct (walk_user s l pgdir tabs U (length D) p f (co_parent _ _ _ _ _ _ _ _ Hco) Hi)
      as (pte & R & Hnz & Hld & HP & HA & HFl & Hpv).
    mrun R. rewrite Hnz. unfold ld32. rewrite gets_bind, Hld, HP, HA, HFl, Hpv. cbn [negb].
    pose proof (co_parent _ _ _ _ _ _ _ _ Hco) as Hpa.
    destruct l as [|m l].
    + mrun (kalloc_empty kend s (vm_kalloc _ _ _ _ _ (us_vm _ _ _ _ _ Hpa))). cbn [Z.eqb].
      exists s, [], dtabs, D, false. split_and!; try done. intros _. exists []. split; [cbn; lia|]. by intros q ?%not_elem_of_nil.
    + destruct (copy_one s m l pgdir tabs U d dtabs D p f Hco Hi)
        as (s1 & s3 & l3 & dtabs3 & r & R1 & Hm & R3 & Hfr & (used & El & Hused) & Hr).
      mrun R1. rewrite Hm. unfold ld_bytes, st_bytes. rewrite gets_bind, modify_bind. mrun R3.
      destruct Hr as [[-> Hco3]|(-> & -> & Hco3)]; cbn [Z.ltb Z.compare].
      * pose proof (us_len _ _ _ _ _ Hpa). rewrite u32_small by (unfold is_u32; lia).
        replace (Z.of_nat (length D) * PGSIZE + PGSIZE) with (Z.of_nat (length (D ++ [(m, f)])) * PGSIZE)
          by (rewrite length_app; cbn; lia).
        destruct (IH fuel s3 l3 dtabs3 (D ++ [(m, f)])) as (s4 & l4 & dtabs4 & D4 & ok & R4 & Hco4 & Hok & Hfr4 & Hown & Hlost);
          [lia|rewrite length_app; cbn; lia|done|done|done|].
        assert (forall q, pt_pages d dtabs3 q \/ q ∈ D.*1 \/ q = m -> owned d dtabs4 D4 q) as Hin.
        { intros q Hq. apply Hown. unfold owned. rewrite fmap_app, elem_of_app. cbn. rewrite list_elem_of_singleton. tauto. }
        exists s4, l4, dtabs4, D4, ok. split_and!; try done.
        -- intros q Hq. by rewrite Hfr4, Hfr.
        -- intros q [Hq|Hq]; apply Hin; [left; apply Hused; by left|by right; left].
        -- intros Eok. destruct (Hlost Eok) as (lost & Hl & Hq). exists lost. split; [done|].
           intros q [->|Hl0]%elem_of_cons; [left; apply Hin; tauto|]. rewrite El, elem_of_app in Hl0.
           destruct Hl0 as [Hu|Hl0]; [left; apply Hin; left; apply Hused; by right|by apply Hq].
      * exists s3, l3, dtabs3, D, false. split_and!; try done.
        -- intros q [Hq|Hq]; [left; apply Hused; by left|by right].
        -- intros _. exists [m]. split; [cbn; lia|]. intros q Hq. by right.
Qed.

(** ** Writing user memory *)

Definition umem (s : kmem) (U : list (Z * Z)) : list Z := concat (ucontent s U).

(** Storing bytes into user page [i]. *)
Lemma store_user {K} s l pgdir tabs U i p f off src :
  uspace K s l pgdir tabs U -> U !! i = Some (p, f) -> 0 <= off < PGSIZE -> off + Z.of_nat (length src) <= PGSIZE ->
  uspace K (upd_mem (store_bytes (p + off) src) s) l pgdir tabs U /\
  ucontent (upd_mem (store_bytes (p + off) src) s) U =
    <[i := memmove_in (page_at (mem s) (frame p)) (Z.to_nat off) src]> (ucontent s U) /\
  (forall q, valid_page kend q -> q <> p ->
     page_at (mem (upd_mem (store_bytes (p + off) src) s)) (frame q) = page_at (mem s) (frame q)).
Proof.
  intros Hus Hi Ho Hlen. pose proof Hus as [Hok Hpte HL HU Hnd Hsep].
  pose proof (proj1 (Forall_lookup _ _) HU _ _ Hi) as (Hv & Hf & _).
  assert (p ∈ U.*1) as HpU by (apply list_elem_of_fmap; exists (p, f); split; [done|by eapply list_elem_of_lookup_2]).
  destruct (Hsep p HpU) as [Hpl Hpp]. destruct (byte_in_page kend p off Hv Ho) as (Fp & Op & _).
  assert (store_bytes (p + off) src (mem s) =
    <[frame p := memmove_in (page_at (mem s) (frame p)) (Z.to_nat off) src]> (mem s)) as E
    by (unfold store_bytes; by rewrite Fp, Op).
  assert (forall q, valid_page kend q -> q <> p ->
     page_at (mem (upd_mem (store_bytes (p + off) src) s)) (frame q) = page_at (mem s) (frame q)) as Hfr.
  { intros q Hq Hne. cbn. rewrite E, page_at_insert_ne; [done|]. intros Eq. by apply (frame_inj kend) in Eq. }
  split_and!; [| |done].
  - apply (uspace_transfer s l); [done| | |].
    + unfold upd_mem. rewrite E. apply kalloc_inv_page; [apply Hok|done|done|].
      rewrite memmove_in_length. apply (ki_mem _ _ _ (vm_kalloc _ _ _ _ _ Hok)).
    + intros q Hq. by apply (owned_valid _ _ _ _ _ _ Hus) in Hq as [_ ?].
    + intros q Hq. apply Hfr; [|by intros ->]. by apply (owned_valid _ _ _ _ _ q Hus); left.
  - unfold ucontent. apply list_eq. intros j. rewrite list_lookup_fmap.
    destruct (decide (j = i)) as [->|Hne].
    + rewrite Hi, list_lookup_insert_eq by (rewrite length_fmap; by eapply lookup_lt_Some). cbn. by rewrite E, page_at_insert_eq.
    + rewrite list_lookup_insert_ne, list_lookup_fmap by done. destruct (U !! j) as [[q g]|] eqn:Hj; [|done]. cbn [fmap option_fmap option_map fst]. f_equal.
      apply Hfr.
      * by pose proof (proj1 (Forall_lookup _ _) HU _ _ Hj) as (? & _).
      * intros ->. apply Hne. eapply (NoDup_lookup U.*1); [done|..]; by rewrite list_lookup_fmap, ?Hj, ?Hi.
Qed.

(** [copyout] into pages the user may access writes exactly the bytes. *)
Lemma copyout_loop_law {K} fuel s l pgdir tabs U va buf :
  uspace K s l pgdir tabs U -> 0 <= va -> va + Z.of_nat (length buf) <= Z.of_nat (length U) * PGSIZE ->
  va mod PGSIZE + Z.of_nat (length buf) <= Z.of_nat fuel * PGSIZE ->
  (forall i p f, va / PGSIZE <= Z.of_nat i -> Z.of_nat i * PGSIZE < va + Z.of_nat (length buf) ->
     U !! i = Some (p, f) -> hasf PTE_U f = true) ->
  exists s', copyout_loop (S fuel) pgdir va buf (Z.of_nat (length buf)) s = Ret s' 0 /\
    uspace K s' l pgdir tabs U /\ umem s' U = memmove_in (umem s U) (Z.to_nat va) buf /\
    (forall q, valid_page kend q -> q ∉ U.*1 -> page_at (mem s') (frame q) = page_at (mem s) (frame q)).
Proof.
  assert (PGSIZE = 4096) as EP by done. assert (KERNBASE = 2147483648) as EKB by done.
  assert (2 ^ 32 = 4294967296) as E32 by done. assert (KERNBASE / PGSIZE = 524288) as EK by done.
  revert s va buf. induction fuel as [|fuel IH]; intros s va buf Hus Hva Hend Hfu HPU.
  { pose proof (Z.mod_pos_bound va PGSIZE ltac:(done)). destruct buf; [|cbn in *; lia].
    exists s. split_and!; done. }
  pose proof (us_len _ _ _ _ _ Hus) as HL. pose proof (Z.div_mod va PGSIZE ltac:(done)) as Dv.
  pose proof (Z.mod_pos_bound va PGSIZE ltac:(done)) as Mv. assert (0 <= va / PGSIZE) by (apply Z.div_pos; lia).
  cbn [copyout_loop]. destruct (Z.ltb_spec 0 (Z.of_nat (length buf))) as [Hpos|Hz].
  2:{ destruct buf; [|cbn in *; lia]. exists s. split_and!; try done. }
  rewrite PGROUNDDOWN_eq by lia. set (i := Z.to_nat (va / PGSIZE)). set (off := va mod PGSIZE) in *.
  replace (va - off) with (Z.of_nat i * PGSIZE) by lia. replace (va - Z.of_nat i * PGSIZE) with off by lia.
  destruct (lookup_lt_is_Some_2 U i ltac:(lia)) as [[p f] Hi].
  destruct (walk_user s l pgdir tabs U i p f Hus Hi) as (pte & R & Hnz & Hld & HP & HA & _ & Hpv).
  assert (valid_page kend p) as Hv by (by pose proof (proj1 (Forall_lookup _ _) (us_page _ _ _ _ _ Hus) _ _ Hi) as (? & _)).
  assert (hasf PTE_U (Z.lor (v2p p) f) = true) as HU by (rewrite hasf_lor, (HPU i p f) by (lia || done); apply orb_true_r).
  assert (uva2ka pgdir (Z.of_nat i * PGSIZE) s = Ret s p) as Ru.
  { unfold uva2ka. mrun R. rewrite Hnz. unfold ld32. by rewrite gets_bind, Hld, HP, HU, HA, Hpv. }
  mrun Ru. rewrite (proj2 (Z.eqb_neq _ _)) by (by apply (valid_u32 kend)).
  rewrite (u32_small (PGSIZE - off)) by (unfold is_u32; lia).
  set (n := if Z.of_nat (length buf) <? PGSIZE - off then Z.of_nat (length buf) else PGSIZE - off).
  assert (n = Z.min (Z.of_nat (length buf)) (PGSIZE - off)) as Hn
    by (unfold n; destruct (Z.ltb_spec (Z.of_nat (length buf)) (PGSIZE - off)); lia).
  clearbody n. set (c := take (Z.to_nat n) buf). assert (length c = Z.to_nat n) as Hlc by (unfold c; rewrite length_take; lia).
  destruct (byte_in_page kend p off Hv ltac:(lia)) as (_ & _ & ->). unfold st_bytes. rewrite modify_bind.
  destruct (store_user s l pgdir tabs U i p f off c Hus Hi ltac:(lia) ltac:(lia)) as (Hus1 & Hc1 & Hf1).
  set (s1 := upd_mem _ s) in *. rewrite !u32_small by (unfold is_u32; lia).
  assert (length (drop (Z.to_nat n) buf) = (length buf - Z.to_nat n)%nat) as Hld'' by apply length_drop.
  replace (Z.of_nat (length buf) - n) with (Z.of_nat (length (drop (Z.to_nat n) buf))) by lia.
  replace (Z.of_nat i * PGSIZE + PGSIZE) with (Z.of_nat (S i) * PGSIZE) by lia.
  destruct (IH s1 (Z.of_nat (S i) * PGSIZE) (drop (Z.to_nat n) buf)) as (s2 & R2 & Hus2 & Hm2 & Hf2);
    [done|lia|lia|rewrite Z.mod_mul by done; lia| |].
  { intros j q g. rewrite Z.div_mul by done. intros H1 H2. apply HPU; lia. }
  exists s2. split_and!; [done|done| |].
  - rewrite Hm2. unfold umem. rewrite Hc1.
    rewrite (memmove_in_concat (Z.to_nat PGSIZE)) by
      (first [lia|unfold ucontent; by rewrite list_lookup_fmap, Hi|
       apply Forall_fmap, Forall_true; intros x; apply (ki_mem _ _ _ (vm_kalloc _ _ _ _ _ (us_vm _ _ _ _ _ Hus)))]).
    replace (i * Z.to_nat PGSIZE + Z.to_nat off)%nat with (Z.to_nat va) by lia.
    destruct (decide (n = Z.of_nat (length buf))) as [->|Hne].
    + rewrite drop_ge by lia. unfold c. rewrite take_ge by lia. done.
    + replace (Z.to_nat (Z.of_nat (S i) * PGSIZE)) with (Z.to_nat va + length c)%nat by lia.
      rewrite memmove_in_app. unfold c. by rewrite take_drop.
  - intros q Hq HqU. rewrite Hf2, Hf1; try done. intros ->. apply HqU. apply list_elem_of_fmap. exists (p, f).
    split; [done|by eapply list_elem_of_lookup_2].
Qed.

Context (Hdata : kdata mod PGSIZE = 0) (Hdr : KERNLINK < kdata < KERNBASE + PHYSTOP).

(** A fresh page table beside an address space. *)
Lemma setupkvm_beside {K} s l pgdir tabs U :
  uspace K s l pgdir tabs U ->
  exists s' l' d, setupkvm kdata s = Ret s' d /\ (forall p, p ∈ l' -> p ∈ l) /\
    uspace K s' l' pgdir tabs U /\ ucontent s' U = ucontent s U /\
    (d = 0 /\ (length l <= 1025)%nat \/
     exists dtabs, copying K s' l' pgdir tabs U d dtabs [] /\ forall p, p ∈ l -> owned d dtabs [] p \/ p ∈ l').
Proof.
  intros Hus. destruct (setupkvm_law kend kdata Hdata Hdr s l (vm_kalloc _ _ _ _ _ (us_vm _ _ _ _ _ Hus)))
    as (s' & d & l' & new & R & -> & Hk & Hf & Hd).
  assert (forall p, owned pgdir tabs U p -> page_at (mem s') (frame p) = page_at (mem s) (frame p)) as Hfo.
  { intros p [Hv Hp]%(owned_valid _ _ _ _ _ _ Hus). apply Hf. intros q Hq E.
    apply (frame_inj kend) in E as ->; [done|done|].
    by apply (proj1 (Forall_forall _ _) (ki_valid _ _ _ (vm_kalloc _ _ _ _ _ (us_vm _ _ _ _ _ Hus)))). }
  assert (uspace K s' l' pgdir tabs U) as Hus'.
  { apply (uspace_transfer s (new ++ l')); [done|done| |].
    - intros p [_ Hp]%(owned_valid _ _ _ _ _ _ Hus) Hin. apply Hp, elem_of_app. by right.
    - intros p Hp. apply Hfo. by left. }
  exists s', l', d. split_and!; [done|intros p Hp; apply elem_of_app; by right|done| |].
  - apply ucontent_ext. intros p Hp. apply Hfo. by right.
  - destruct Hd as [[-> ?]|(dtabs & Hpg & Hok & Hkp)]; [by left|right]. exists dtabs.
    split; [|intros p [Hp|Hp]%elem_of_app; [left; left; by apply Hpg|by right]]. split; try done.
    + split; [done| |by vm_compute|constructor|constructor|by intros p ?%not_elem_of_nil].
      intros w Hw. rewrite Hkp by done. unfold upte. destruct (decide (w < KERNBASE)); [|done]. unfold kpte, KERNLINK, DEVSPACE, KERNBASE, EXTMEM in *.
      rewrite !decide_False by lia. by rewrite lookup_nil.
    + intros p Hp [Hd|Hd%not_elem_of_nil]; [|done]. apply Hpg in Hd.
      apply (owned_valid _ _ _ _ _ _ Hus) in Hp as [_ Hp]. apply Hp, elem_of_app. by left.
Qed.

Lemma copyuvm_law {K} s l pgdir tabs U sz :
  uspace K s l pgdir tabs U -> covers U sz -> sz <= KERNBASE ->
  exists s' l' d, copyuvm kend kdata pgdir sz s = Ret s' d /\
    uspace K s' l' pgdir tabs U /\ ucontent s' U = ucontent s U /\
    (d = 0 /\ (length l <= 1025 + length U)%nat \/ exists dtabs D, uspace (kpte kdata) s' l' d dtabs D /\ D.*2 = U.*2 /\ ucontent s' D = ucontent s U /\
       forall p, owned pgdir tabs U p -> ~ owned d dtabs D p).
Proof.
  intros Hus Hc Hsz. destruct (setupkvm_beside s l pgdir tabs U Hus) as (s1 & l1 & d & R1 & _ & Hus1 & Hc1 & Hd).
  unfold copyuvm. mrun R1. destruct Hd as [[-> Hl]|(dtabs & Hco & Hin)].
  { exists s1, l1, 0. cbn [Z.eqb]. split_and!; [done|done|done|left]. split; [done|lia]. }
  pose proof (co_child _ _ _ _ _ _ _ _ Hco) as Hch.
  rewrite (proj2 (Z.eqb_neq _ _)) by (apply (valid_u32 kend), (vm_pt _ _ _ _ _ (us_vm _ _ _ _ _ Hch))).
  assert (KERNBASE / PGSIZE = 524288) as EK by done. pose proof (us_len _ _ _ _ _ Hus1) as HL.
  destruct (copy_loop_law (K:=K) (length U) (S max_pages) s1 l1 pgdir tabs U d dtabs [] sz)
    as (s2 & l2 & dtabs2 & D & ok & R2 & Hco2 & Hok & Hfr & Hown & Hlost); try done.
  { pose proof max_pages_eq. lia. }
  mrun R2. pose proof Hco2 as [Hpa Hch2 Hdis Hfl Hcon].
  assert (ucontent s2 U = ucontent s U) as HcU by (rewrite <- Hc1; apply ucontent_ext; intros p Hp; apply Hfr; by right).
  destruct ok.
  - exists s2, l2, d. split_and!; [done|done|done|right]. exists dtabs2, D. rewrite (Hok eq_refl) in *. split_and!; try done.
    + by rewrite Hfl, take_ge by (by rewrite length_fmap).
    + rewrite Hcon, take_ge; [done|]. unfold ucontent. by rewrite length_fmap.
  - destruct (freevm_law s2 l2 d dtabs2 D Hch2) as (s3 & l3 & R3 & Hk3 & Hl3 & Hf3). mrun R3.
    exists s3, l3, 0. split_and!; [done| | |left; split; [done|]].
    + apply (uspace_transfer s2 l2); [done|done| |].
      * intros p Hp [Hi3|Ho]%Hl3; [|by apply (Hdis p Hp)]. by apply (owned_valid _ _ _ _ _ _ Hpa) in Hp as [_ ?].
      * intros p Hp. apply Hf3; [|apply Hdis; by left]. by apply (owned_valid _ _ _ _ _ p Hpa); left.
    + rewrite <- HcU. apply ucontent_ext. intros p Hp. apply Hf3; [|apply Hdis; by right].
      by apply (owned_valid _ _ _ _ _ p Hpa); right.
    + destruct (Hlost eq_refl) as (lost & Hl & Hq). destruct (pt_pages_count kend _ _ _ (vm_pt _ _ _ _ _ (us_vm _ _ _ _ _ Hch2))) as (ps & Hps & Hpin).
      assert (length l <= length (ps ++ D.*1 ++ lost))%nat as Hle; [|rewrite !length_app, length_fmap in Hle; lia].
      apply submseteq_length, NoDup_submseteq; [apply (ki_nodup _ _ _ (vm_kalloc _ _ _ _ _ (us_vm _ _ _ _ _ Hus)))|].
      intros p Hp. rewrite !elem_of_app. assert (owned d dtabs2 D p \/ p ∈ lost) as [[Ho|Ho]|Ho]; [|by left; apply Hpin|tauto..].
      destruct (Hin p Hp) as [Ho|Hp1]; [left; by apply Hown|by apply Hq].
Qed.

(** ** Theorems *)

Lemma lor_clear x y : hasf PTE_U x = false -> hasf PTE_U y = false -> hasf PTE_U (Z.lor x y) = false.
Proof. intros H1 H2. by rewrite hasf_lor, H1, H2. Qed.

Lemma page_no_flags v : hasf PTE_U (v * PGSIZE) = false.
Proof.
  unfold hasf, PTE_U. apply negb_false_iff, Z.eqb_eq. change PGSIZE with (2 ^ 12). rewrite <- Z.shiftl_mul_pow2 by lia.
  apply Z.bits_inj'. intros n Hn. rewrite Z.land_spec, Z.bits_0. change 4 with (2 ^ 2). rewrite Z.pow2_bits_eqb by lia.
  destruct (Z.eqb_spec 2 n) as [<-|]; [|by rewrite andb_false_r]. by rewrite Z.shiftl_spec_low.
Qed.

Lemma kpte_no_user w : hasf PTE_U (kpte kdata w) = false.
Proof.
  unfold kpte. change KERNBASE with (524288 * PGSIZE). rewrite <- !Z.mul_sub_distr_r.
  repeat case_decide; try done; repeat apply lor_clear; try done; apply page_no_flags.
Qed.

(** [setupkvm] never panics; the page table it returns maps exactly the
    kernel: every address has the entry the memory layout assigns it, user
    addresses are unmapped, and no kernel page is accessible to user code. *)
Theorem setupkvm_kernel_map s l :
  kalloc_inv kend s l ->
  exists s' r l', setupkvm kdata s = Ret s' r /\ kalloc_inv kend s' l' /\
    (r = 0 \/ exists tabs, vm_ok kend s' l' r tabs /\
       forall w, 0 <= w < 2 ^ 32 -> pte_of (mem s') tabs w = kpte kdata w /\
         hasf PTE_U (pte_of (mem s') tabs w) = false /\ (w < KERNBASE -> pte_of (mem s') tabs w = 0)).
Proof.
  intros Hk. destruct (setupkvm_law kend kdata Hdata Hdr s l Hk) as (s' & r & l' & new & R & _ & Hk' & _ & Hr).
  exists s', r, l'. split_and!; [done|done|]. destruct Hr as [[-> _]|(tabs & _ & Hok & Hp)]; [by left|right].
  exists tabs. split; [done|]. intros w Hw. rewrite Hp by done. split_and!; [done|apply kpte_no_user|].
  intros Hlt. unfold kpte, KERNLINK, DEVSPACE, KERNBASE, EXTMEM in *. by rewrite !decide_False by lia.
Qed.

(** [allocuvm] grows an address space: with two free pages for every page
    to add (one may be a page table) it returns the new size, appends zeroed,
    user-writable pages that nothing else uses, and keeps the contents of
    the pages it had. *)
Theorem allocuvm_grows K s l pgdir tabs U k oldsz newsz :
  uspace K s l pgdir tabs U -> covers U oldsz -> 0 <= oldsz <= newsz -> newsz < KERNBASE ->
  (2 * k <= length l)%nat ->
  (Z.of_nat (length U + k) - 1) * PGSIZE < newsz <= Z.of_nat (length U + k) * PGSIZE ->
  exists s' l' tabs' new, allocuvm kend pgdir oldsz newsz s = Ret s' newsz /\
    uspace K s' l' pgdir tabs' (U ++ new) /\ covers (U ++ new) newsz /\ length new = k /\
    Forall (fun pf => pf.2 = Z.lor (Z.lor PTE_W PTE_U) PTE_P) new /\
    ucontent s' (U ++ new) = ucontent s U ++ replicate k zero_page.
Proof.
  intros Hus Hc Ho Hn Hl Hk. unfold allocuvm. rewrite (proj2 (Z.leb_gt _ _)), (proj2 (Z.ltb_ge _ _)) by lia.
  rewrite (covers_roundup U) by (done || lia). pose proof (us_len _ _ _ _ _ Hus) as HL.
  assert (PGSIZE = 4096) as EP by done. assert (KERNBASE = 2147483648) as EKB by done.
  destruct (alloc_loop_law (K:=K) k (S max_pages) s l pgdir tabs U oldsz newsz)
    as (s' & l' & tabs' & new & R & Hus' & Hlen & Hfl & Hco & Hug); try done.
  - pose proof max_pages_eq. lia.
  - unfold covers in Hc. lia.
  - exists s', l', tabs', new. split_and!; try done.
    + unfold covers. rewrite length_app. lia.
    + unfold ucontent in *. rewrite fmap_app. f_equal; [|done]. apply (ucontent_ext s s' U).
      intros p Hp. destruct (us_sep _ _ _ _ _ Hus p Hp) as [H1 H2].
      apply (ug_frame _ _ _ _ _ _ _ _ _ Hug); [by eapply (uspace_valid s)|done|done].
Qed.

(** [deallocuvm] shrinks an address space to the pages of the new size and
    puts each of the others on the free list once; what remains mapped keeps
    its contents. *)
Theorem deallocuvm_shrinks K s l pgdir tabs U n oldsz newsz :
  uspace K s l pgdir tabs U -> (n <= length U)%nat -> 0 <= newsz < oldsz -> oldsz <= KERNBASE ->
  covers (take n U) newsz -> covers U oldsz ->
  exists s', deallocuvm kend pgdir oldsz newsz s = Ret s' newsz /\
    uspace K s' (reverse (drop n U).*1 ++ l) pgdir tabs (take n U) /\
    ucontent s' (take n U) = ucontent s (take n U).
Proof.
  intros Hus Hn Hsz Ho Hc Hc'. destruct (deallocuvm_law (K:=K) s l pgdir tabs U n oldsz newsz)
    as (s' & R & Hus' & Hf); try done; [apply Hc'|].
  exists s'. split_and!; try done. apply ucontent_ext. intros p Hp.
  apply Hf; [by eapply (uspace_valid s')| |by apply (us_sep _ _ _ _ _ Hus')].
  intros Hin. destruct (us_sep _ _ _ _ _ Hus' p Hp) as [Hpl _]. apply Hpl, elem_of_app. left. by apply elem_of_reverse.
Qed.

(** C14: [freevm] gives back every page of the address space, user pages, page
    tables and directory, and leaves all other pages alone. *)
Theorem freevm_frees_all K s l pgdir tabs U :
  uspace K s l pgdir tabs U ->
  exists s' l', freevm kend pgdir s = Ret s' tt /\ kalloc_inv kend s' l' /\
    (forall p, p ∈ l' <-> p ∈ l \/ owned pgdir tabs U p) /\
    (forall q, valid_page kend q -> ~ owned pgdir tabs U q -> page_at (mem s') (frame q) = page_at (mem s) (frame q)).
Proof. apply freevm_law. Qed.

(** C11: [copyuvm] never panics on an address space whose size matches its
    pages, and fails only when memory runs out: with more free pages than the
    user pages, a page directory and 1024 page tables take, it returns a
    child.  The child has the same contents and permissions in pages of its
    own, below the kernel map; the parent is unchanged in any case. *)
Theorem copyuvm_copies K s l pgdir tabs U sz :
  uspace K s l pgdir tabs U -> covers U sz -> sz <= KERNBASE ->
  exists s' l' d, copyuvm kend kdata pgdir sz s = Ret s' d /\
    uspace K s' l' pgdir tabs U /\ ucontent s' U = ucontent s U /\
    (d = 0 /\ (length l <= 1025 + length U)%nat \/ exists dtabs D, uspace (kpte kdata) s' l' d dtabs D /\ D.*2 = U.*2 /\ ucontent s' D = ucontent s U /\
       forall p, owned pgdir tabs U p -> ~ owned d dtabs D p).
Proof. apply copyuvm_law. Qed.

(** [copyout] to user pages the process may access succeeds and changes
    exactly the bytes of the range, across page boundaries. *)
Theorem copyout_writes K s l pgdir tabs U va buf :
  uspace K s l pgdir tabs U -> 0 <= va -> va + Z.of_nat (length buf) <= Z.of_nat (length U) * PGSIZE ->
  (forall i p f, va / PGSIZE <= Z.of_nat i -> Z.of_nat i * PGSIZE < va + Z.of_nat (length buf) ->
     U !! i = Some (p, f) -> hasf PTE_U f = true) ->
  exists s', copyout pgdir va buf (Z.of_nat (length buf)) s = Ret s' 0 /\
    uspace K s' l pgdir tabs U /\ umem s' U = memmove_in (umem s U) (Z.to_nat va) buf.
Proof.
  clear Hdata Hdr. intros Hus Hva He HU. destruct (copyout_loop_law (K:=K) (S max_pages) s l pgdir tabs U va buf) as (s' & R & H1 & H2 & _); try done.
  - pose proof (us_len _ _ _ _ _ Hus). pose proof max_pages_eq. pose proof (Z.mod_pos_bound va PGSIZE ltac:(done)).
    assert (KERNBASE / PGSIZE = 524288) by done. assert (PGSIZE = 4096) as EP by done. rewrite EP in *. lia.
  - by exists s'.
Qed.

(** [allocuvm] ignores a failed [mappages]: when the last free page becomes
    the user page and none is left for its page table, it reports success
    with the page unmapped and lost. *)
Theorem allocuvm_ignores_mappages K s p pgdir tabs :
  uspace K s [p] pgdir tabs [] -> tabs !! 0 = None ->
  exists s', allocuvm kend pgdir 0 PGSIZE s = Ret s' PGSIZE /\
    kalloc_inv kend s' [] /\ pte_of (mem s') tabs 0 = 0 /\ ~ owned pgdir tabs [] p.
Proof.
  intros Hus Ht. destruct (take_page s p [] pgdir tabs [] zero_page Hus (length_replicate _ _))
    as (s1 & R1 & M1 & Hus1 & Hv & _ & Hpp & _ & _).
  set (s2 := upd_mem _ s1) in *. pose proof (us_vm _ _ _ _ _ Hus1) as Hok.
  pose proof (walk_fail kend s2 pgdir tabs 0 Hok Ht) as Rw.
  exists s2. split_and!; [|apply Hok|by rewrite (us_pte _ _ _ _ _ Hus1)|intros [?|?%not_elem_of_nil]; done].
  unfold allocuvm. change (KERNBASE <=? PGSIZE) with false. change (PGSIZE <? 0) with false. change (PGROUNDUP 0) with 0.
  destruct max_pages as [|m] eqn:Em; [by pose proof max_pages_eq as E; rewrite Em in E|].
  cbn [alloc_loop]. change (0 <? PGSIZE) with true. cbn iota. mrun R1.
  rewrite (proj2 (Z.eqb_neq _ _)) by (by apply (valid_u32 kend)). unfold memset_page. rewrite modify_bind.
  assert (upd_mem (mem_set p 0 PGSIZE) s1 = s2) as ->.
  { unfold s2, upd_mem. rewrite (memset_page_eq kend), M1; [done| |done]. rewrite M1. apply (us_vm _ _ _ _ _ Hus). }
  rewrite (bind_ret _ _ _ s2 (-1)).
  - change (u32 (0 + PGSIZE)) with PGSIZE. by rewrite Z.ltb_irrefl.
  - unfold mappages. change (PGROUNDDOWN 0) with 0. cbn [map_loop]. by mrun Rw.
Qed.
End user_part.

(** ** Witnesses: a few free pages after a small kernel *)

Definition demo_data : Z := KERNLINK + 0x80000.
Definition demo_page (i : Z) : Z := demo_end + i * PGSIZE.
Definition no_kernel (w : Z) : Z := 0.

Lemma demo_page_valid i : 0 <= i < 50000 -> valid_page demo_end (demo_page i).
Proof.
  intros Hi. unfold valid_page, demo_page. rewrite Z.mod_add by done. split; [done|].
  unfold demo_end, KERNBASE, PHYSTOP, PGSIZE. lia.
Qed.

Lemma demo_page_inj i j : demo_page i = demo_page j -> i = j.
Proof. unfold demo_page, PGSIZE. lia. Qed.

Lemma demo_free n : Z.of_nat n < 50000 ->
  exists s l, kalloc_inv demo_end s l /\ length l = n /\ forall p, p ∈ l -> exists i, p = demo_page i /\ 0 <= i < Z.of_nat n.
Proof.
  induction n as [|n IH]; intros Hn.
  - exists (mk_kmem 0 0 ∅), []. split_and!; [|done|by intros p ?%not_elem_of_nil].
    split; [done|constructor|constructor|apply mem_ok_empty].
  - destruct IH as (s & l & Hk & Hl & Hp); [lia|].
    destruct (kfree_law demo_end s (demo_page (Z.of_nat n)) l Hk) as (s' & _ & Hk' & _).
    + apply demo_page_valid. lia.
    + intros (i & Hi%demo_page_inj & Hr)%Hp. lia.
    + exists s', (demo_page (Z.of_nat n) :: l). split_and!; [done|cbn; lia|].
      intros p [->|(i & -> & Hi)%Hp]%elem_of_cons; [exists (Z.of_nat n)|exists i]; split; (done || lia).
Qed.

(** An empty address space and five free pages. *)
Lemma demo_uspace n : Z.of_nat n < 40000 ->
  exists s l d, uspace demo_end no_kernel s l d ∅ [] /\ length l = n.
Proof.
  intros Hn. destruct (demo_free (S n)) as (s & l & Hk & Hl & _); [lia|]. destruct l as [|d l]; [done|].
  destruct (empty_pgdir demo_end s d l Hk) as (s1 & _ & Hok & _). eexists _, l, d. split; [|cbn in Hl; lia].
  split; [exact Hok| |by vm_compute|constructor|constructor|by intros p ?%not_elem_of_nil].
  intros w Hw. unfold pte_of, upte. rewrite lookup_empty. by case_decide.
Qed.

(** An address space of one page, and about [n] free pages. *)
Lemma demo_pages n : 5 <= Z.of_nat n < 40000 -> exists s l d tabs U,
  uspace demo_end no_kernel s l d tabs U /\ length U = 1%nat /\ covers U PGSIZE /\
  (forall i p f, U !! i = Some (p, f) -> hasf PTE_U f = true) /\ (n <= 1026 + length l)%nat.
Proof.
  intros Hn. destruct (demo_uspace n) as (s & l & d & Hus & Hl); [lia|].
  destruct (alloc_loop_law demo_end (K:=no_kernel) 1 2 s l d ∅ [] 0 PGSIZE)
    as (s' & l' & tabs' & new & _ & Hus' & Hlen & Hfl & _ & [(used & El & Hu) _ _]); [lia|done|lia|done|done|done|].
  exists s', l', d, tabs', new. split_and!; [done|done|unfold covers; rewrite Hlen; done| |].
  - intros i p f Hi. pose proof (proj1 (Forall_lookup _ _) Hfl _ _ Hi) as E. cbn in E. by rewrite E.
  - destruct (pt_pages_count demo_end _ _ _ (vm_pt _ _ _ _ _ (us_vm _ _ _ _ _ _ _ Hus'))) as (ps & Hps & Hin).
    assert (length used <= length (ps ++ new.*1))%nat as Hle.
    { apply submseteq_length, NoDup_submseteq.
      - pose proof (ki_nodup _ _ _ (vm_kalloc _ _ _ _ _ (us_vm _ _ _ _ _ _ _ Hus))) as Hnd. rewrite El in Hnd. by apply NoDup_app in Hnd as [? _].
      - intros p Hp. apply elem_of_app. destruct (proj2 (Hu p) (or_intror Hp)) as [Ho|Ho]; [left; by apply Hin|by right]. }
    rewrite length_app, length_fmap in Hle. rewrite El, length_app in Hl. lia.
Qed.

Lemma demo_one_page : exists s l d tabs U,
  uspace demo_end no_kernel s l d tabs U /\ length U = 1%nat /\ covers U PGSIZE /\
  forall i p f, U !! i = Some (p, f) -> hasf PTE_U f = true.
Proof. destruct (demo_pages 5) as (s & l & d & tabs & U & H1 & H2 & H3 & H4 & _); [lia|]. by exists s, l, d, tabs, U. Qed.

Lemma setupkvm_kernel_map_witness :
  exists s l s' r l', kalloc_inv demo_end s l /\ setupkvm demo_data s = Ret s' r /\ kalloc_inv demo_end s' l'.
Proof.
  destruct (demo_free 5) as (s & l & Hk & _); [lia|].
  destruct (setupkvm_kernel_map demo_end demo_data eq_refl ltac:(split; reflexivity) s l Hk) as (s' & r & l' & R & Hk' & _).
  exists s, l, s', r, l'. split; [exact Hk|]. split; [exact R|exact Hk'].
Defined.

Lemma allocuvm_grows_witness :
  exists s d s' l' tabs' new, allocuvm demo_end d 0 (2 * PGSIZE) s = Ret s' (2 * PGSIZE) /\
    uspace demo_end no_kernel s' l' d tabs' new /\ length new = 2%nat.
Proof.
  destruct (demo_uspace 5) as (s & l & d & Hus & Hl); [lia|].
  destruct (allocuvm_grows demo_end no_kernel s l d ∅ [] 2 0 (2 * PGSIZE)) as (s' & l' & tabs' & new & R & Hus' & _ & Hn & _).
  - exact Hus.
  - split; [reflexivity|discriminate].
  - split; discriminate.
  - reflexivity.
  - lia.
  - split; [reflexivity|discriminate].
  - exists s, d, s', l', tabs', new. split; [exact R|]. split; [exact Hus'|exact Hn].
Defined.

Lemma deallocuvm_shrinks_witness :
  exists s d s' l' tabs, deallocuvm demo_end d PGSIZE 0 s = Ret s' 0 /\ uspace demo_end no_kernel s' l' d tabs [].
Proof.
  destruct demo_one_page as (s & l & d & tabs & U & Hus & Hl & Hc & _).
  destruct (deallocuvm_shrinks demo_end no_kernel s l d tabs U 0 PGSIZE 0) as (s' & R & Hus' & _).
  - exact Hus.
  - lia.
  - split; [discriminate|reflexivity].
  - discriminate.
  - split; [reflexivity|discriminate].
  - exact Hc.
  - eexists s, d, s', _, tabs. split; [exact R|exact Hus'].
Defined.

Lemma freevm_frees_all_witness :
  exists s d s' l', freevm demo_end d s = Ret s' tt /\ kalloc_inv demo_end s' l' /\ d ∈ l'.
Proof.
  destruct demo_one_page as (s & l & d & tabs & U & Hus & _).
  destruct (freevm_frees_all demo_end no_kernel s l d tabs U Hus) as (s' & l' & R & Hk & Hl & _).
  exists s, d, s', l'. split; [exact R|]. split; [exact Hk|]. apply Hl. right. left. by left.
Defined.

Lemma copyuvm_copies_witness :
  exists s l d tabs U s' l' c dtabs D, uspace demo_end no_kernel s l d tabs U /\ copyuvm demo_end demo_data d PGSIZE s = Ret s' c /\
    c <> 0 /\ uspace demo_end (kpte demo_data) s' l' c dtabs D /\ ucontent s' D = ucontent s U.
Proof.
  destruct (demo_pages (Z.to_nat 4000)) as (s & l & d & tabs & U & Hus & HU & Hc & _ & Hl); [lia|].
  destruct (copyuvm_copies demo_end demo_data eq_refl ltac:(split; reflexivity) no_kernel s l d tabs U PGSIZE Hus Hc)
    as (s' & l' & c & R & _ & _ & [[_ Hs]|(dtabs & D & Hch & _ & Hcon & _)]).
  - discriminate.
  - exfalso. lia.
  - exists s, l, d, tabs, U, s', l', c, dtabs, D. split; [exact Hus|]. split; [exact R|]. split; [|split; [exact Hch|exact Hcon]].
    apply (valid_u32 demo_end). exact (pt_dir _ _ _ _ (vm_pt _ _ _ _ _ (us_vm _ _ _ _ _ _ _ Hch))).
Defined.

Lemma copyout_writes_witness :
  exists s d U s', copyout d 100 [1; 2; 3] 3 s = Ret s' 0 /\ umem s' U = memmove_in (umem s U) 100 [1; 2; 3].
Proof.
  destruct demo_one_page as (s & l & d & tabs & U & Hus & Hl & Hc & HU).
  destruct (copyout_writes demo_end no_kernel s l d tabs U 100 [1; 2; 3] Hus) as (s' & R & _ & Hm).
  - discriminate.
  - rewrite Hl. discriminate.
  - intros i p f _ _ Hi. exact (HU i p f Hi).
  - exists s, d, U, s'. split; [exact R|exact Hm].
Defined.

Lemma allocuvm_ignores_mappages_witness :
  exists s d p s', allocuvm demo_end d 0 PGSIZE s = Ret s' PGSIZE /\
    kalloc_inv demo_end s' [] /\ pte_of (mem s') ∅ 0 = 0 /\ ~ owned d ∅ [] p.
Proof.
  destruct (demo_uspace 1) as (s & l & d & Hus & Hl); [lia|]. destruct l as [|p [|]]; try discriminate.
  destruct (allocuvm_ignores_mappages demo_end no_kernel s p d ∅ Hus (lookup_empty _)) as (s' & H').
  exists s, d, p, s'. exact H'.
Defined.
