(* ===== verification/Proc.v ===== *)
(** * Proc: the process table and the lottery scheduler (proc.c)

    The table, [allocproc], the lottery of [scheduler], [yield], [sleep],
    [wakeup], [kill], [wait] and the part of [exit] that hands over children.
    The theorems say which process a draw selects, that draws are proportional
    to tickets, and that the table stays well formed: distinct pids, no child
    of a dead parent, every zombie reaped by its parent. *)
From stdpp Require Import base numbers list gmap strings.
From Stdlib Require Import ZArith Lia.
From S2P Require Import Prelude Bytes Rand Kalloc Vm.

Local Open Scope Z_scope.

Definition NPROC : nat := 64.
Definition KSTACKSIZE : Z := 4096.
Definition NOFILE : nat := 16.
Definition INIT_TICKETS : Z := 10.

Inductive procstate := UNUSED | EMBRYO | SLEEPING | RUNNABLE | RUNNING | ZOMBIE.
#[global] Instance procstate_eq_dec : EqDecision procstate.
Proof. solve_decision. Defined.

(** [struct proc].  [parent] and the processes of the table are indices of
    [ptable.proc]; [ofile] and [cwd] are indices of the file and inode tables;
    [pgdir], [kstack], [tf] and [context] are kernel addresses. *)
Record proc := mk_proc {
  sz : Z;
  pgdir : Z;
  kstack : Z;
  pstate : procstate;
  pid : Z;
  parent : option nat;
  tf : Z;
  context : Z;
  pchan : option chan;
  killed : Z;
  ofile : list (option nat);
  cwd : option nat;
  pname : list Z;
  tickets : Z
}.

Definition set_state (st : procstate) (p : proc) : proc :=
  mk_proc (sz p) (pgdir p) (kstack p) st (pid p) (parent p) (tf p) (context p) (pchan p) (killed p)
    (ofile p) (cwd p) (pname p) (tickets p).
Definition set_pchan (c : option chan) (p : proc) : proc :=
  mk_proc (sz p) (pgdir p) (kstack p) (pstate p) (pid p) (parent p) (tf p) (context p) c (killed p)
    (ofile p) (cwd p) (pname p) (tickets p).
Definition set_killed (k : Z) (p : proc) : proc :=
  mk_proc (sz p) (pgdir p) (kstack p) (pstate p) (pid p) (parent p) (tf p) (context p) (pchan p) k
    (ofile p) (cwd p) (pname p) (tickets p).
Definition set_parent (q : option nat) (p : proc) : proc :=
  mk_proc (sz p) (pgdir p) (kstack p) (pstate p) (pid p) q (tf p) (context p) (pchan p) (killed p)
    (ofile p) (cwd p) (pname p) (tickets p).
Definition set_pid (n : Z) (p : proc) : proc :=
  mk_proc (sz p) (pgdir p) (kstack p) (pstate p) n (parent p) (tf p) (context p) (pchan p) (killed p)
    (ofile p) (cwd p) (pname p) (tickets p).
Definition set_tickets (n : Z) (p : proc) : proc :=
  mk_proc (sz p) (pgdir p) (kstack p) (pstate p) (pid p) (parent p) (tf p) (context p) (pchan p) (killed p)
    (ofile p) (cwd p) (pname p) n.
Definition set_kstack (a : Z) (p : proc) : proc :=
  mk_proc (sz p) (pgdir p) a (pstate p) (pid p) (parent p) (tf p) (context p) (pchan p) (killed p)
    (ofile p) (cwd p) (pname p) (tickets p).
Definition set_frames (t c : Z) (p : proc) : proc :=
  mk_proc (sz p) (pgdir p) (kstack p) (pstate p) (pid p) (parent p) t c (pchan p) (killed p)
    (ofile p) (cwd p) (pname p) (tickets p).
Definition set_vm (s d : Z) (p : proc) : proc :=
  mk_proc s d (kstack p) (pstate p) (pid p) (parent p) (tf p) (context p) (pchan p) (killed p)
    (ofile p) (cwd p) (pname p) (tickets p).
Definition set_name (n : list Z) (p : proc) : proc :=
  mk_proc (sz p) (pgdir p) (kstack p) (pstate p) (pid p) (parent p) (tf p) (context p) (pchan p) (killed p)
    (ofile p) (cwd p) n (tickets p).
Definition set_files (fs : list (option nat)) (d : option nat) (p : proc) : proc :=
  mk_proc (sz p) (pgdir p) (kstack p) (pstate p) (pid p) (parent p) (tf p) (context p) (pchan p) (killed p)
    fs d (pname p) (tickets p).

(** [ptable] and the other globals of proc.c, with the memory under them. *)
Record psys := mk_psys {
  ptable : list proc;
  nextpid : Z;
  total_tickets : Z;
  initproc : option nat;
  prng : rng;
  km : kmem
}.
Definition upd_ptable (f : list proc -> list proc) (s : psys) : psys :=
  mk_psys (f (ptable s)) (nextpid s) (total_tickets s) (initproc s) (prng s) (km s).
Definition set_nextpid (n : Z) (s : psys) : psys :=
  mk_psys (ptable s) n (total_tickets s) (initproc s) (prng s) (km s).
Definition set_lottery (t : Z) (r : rng) (s : psys) : psys :=
  mk_psys (ptable s) (nextpid s) t (initproc s) r (km s).
Definition set_km (k : kmem) (s : psys) : psys :=
  mk_psys (ptable s) (nextpid s) (total_tickets s) (initproc s) (prng s) k.
Definition inkm {A} (m : M kmem A) : M psys A := zoom km set_km m.

Definition proc_at (i : nat) : M psys proc := let* ps := gets ptable in from_opt (ps !! i).
Definition upd_proc (i : nat) (f : proc -> proc) : M psys unit :=
  let* p := proc_at i in modify (upd_ptable <[i := f p]>).

(** ** Allocation *)

Definition sizeof_trapframe : Z := 76.
Definition sizeof_context : Z := 20.

Section entry_points.
(** The addresses of [trapret] and [forkret], and [end]. *)
Context (trapret forkret kend : Z).

Definition allocproc : M psys (option nat) :=
  let* ps := gets ptable in
  match list_find (fun p => pstate p = UNUSED) ps with
  | None => ret None
  | Some (i, _) =>
      let* n := gets nextpid in
      upd_proc i (fun p => set_tickets INIT_TICKETS (set_pid n (set_state EMBRYO p))) ;;;
      modify (set_nextpid (i32 (n + 1))) ;;;
      let* k := inkm kalloc in
      upd_proc i (set_kstack k) ;;;
      if k =? 0 then
        upd_proc i (set_state UNUSED) ;;;
        ret None
      else
        let sp := u32 (k + KSTACKSIZE - sizeof_trapframe) in
        let tf := sp in
        let sp := u32 (sp - 4) in
        inkm (st32 sp trapret) ;;;
        let sp := u32 (sp - sizeof_context) in
        upd_proc i (set_frames tf sp) ;;;
        inkm (st_bytes sp (replicate (Z.to_nat sizeof_context) 0)) ;;;
        inkm (st32 (u32 (sp + 16)) forkret) ;;;
        ret (Some i)
  end.

(** ** Sleep, wakeup, kill *)

(** [wakeup1] on the table: [wakeup] is the same with the lock.  A null
    channel is [None]. *)
Definition wakeup1 (c : option chan) (ps : list proc) : list proc :=
  (fun p => if decide (pstate p = SLEEPING /\ pchan p = c) then set_state RUNNABLE p else p) <$> ps.
Definition wakeup (c : chan) : M psys unit := modify (upd_ptable (wakeup1 (Some c))).

(** Going to sleep, up to [sched]; and the part after it returns. *)
Definition sleep_enter (cur : nat) (c : chan) : M psys unit :=
  upd_proc cur (fun p => set_state SLEEPING (set_pchan (Some c) p)).
Definition sleep_leave (cur : nat) : M psys unit := upd_proc cur (set_pchan None).

Definition yield (cur : nat) : M psys unit := upd_proc cur (set_state RUNNABLE).

Definition kill (n : Z) : M psys Z :=
  let* ps := gets ptable in
  match list_find (fun p => pid p = n) ps with
  | None => ret (-1)
  | Some (i, p) =>
      upd_proc i (fun p =>
        let p := set_killed 1 p in
        if decide (pstate p = SLEEPING) then set_state RUNNABLE p else p) ;;;
      ret 0
  end.

(** ** Exit and wait *)

(** The end of [exit], with the table locked: wake the parent, pass children
    to init, become a zombie. *)
Definition adopt_entry (cur : nat) (init : option nat) (i : nat) (ps : list proc) : list proc :=
  match ps !! i with
  | Some p =>
      if decide (parent p = Some cur) then
        let ps := <[i := set_parent init p]> ps in
        if decide (pstate p = ZOMBIE) then wakeup1 (ChProc <$> init) ps else ps
      else ps
  | None => ps
  end.
Definition adopt (cur : nat) (init : option nat) (ps : list proc) : list proc :=
  for_range 0 (length ps) (adopt_entry cur init) ps.

Definition exit_tail (cur : nat) : M psys unit :=
  let* p := proc_at cur in
  modify (upd_ptable (wakeup1 (ChProc <$> parent p))) ;;;
  let* s := get in
  modify (upd_ptable (adopt cur (initproc s))) ;;;
  upd_proc cur (set_state ZOMBIE).

(** The scan of [wait]: the first zombie child, and whether there are children. *)
Definition zombie_child (cur : nat) (ps : list proc) : option (nat * proc) :=
  list_find (fun p => parent p = Some cur /\ pstate p = ZOMBIE) ps.
Definition havekids (cur : nat) (ps : list proc) : bool :=
  bool_decide (Exists (fun p => parent p = Some cur) ps).

Definition wait (cur : nat) : M psys Z :=
  let* ps := gets ptable in
  match zombie_child cur ps with
  | Some (i, p) =>
      inkm (kfree kend (kstack p)) ;;;
      upd_proc i (set_kstack 0) ;;;
      inkm (freevm kend (pgdir p)) ;;;
      upd_proc i (fun p => set_killed 0 (set_name (<[0%nat := 0]> (pname p))
        (set_parent None (set_pid 0 (set_state UNUSED p))))) ;;;
      ret (pid p)
  | None =>
      let* p := proc_at cur in
      if negb (havekids cur ps) || negb (killed p =? 0) then ret (-1)
      else
        sleep_enter cur (ChProc cur) ;;;
        sleep_on (ChProc cur)
  end.
End entry_points.

(** ** The scheduler *)

(** [total_tickets += p->tickets] over the whole table. *)
Definition count_tickets (ps : list proc) : Z := foldl (fun t p => i32 (t + tickets p)) 0 ps.

(** The walk over the table: skip processes that are not runnable, skip
    processes whose tickets do not reach the drawn number. *)
Fixpoint pick (i : nat) (ps : list proc) (sum rand_num : Z) : option nat :=
  match ps with
  | [] => None
  | p :: ps =>
      if negb (bool_decide (pstate p = RUNNABLE)) then pick (S i) ps sum rand_num
      else if u32 (tickets p + sum) <=? rand_num then pick (S i) ps (i32 (sum + tickets p)) rand_num
      else Some i
  end.

Definition draw_ticket (total x : Z) : Z := if 0 <? total then x mod total else 0.

(** One round of the loop of [scheduler], up to the switch to the process it
    returns.  [fuel] bounds the rejected draws of [random_at_most]. *)
Definition schedule (fuel : nat) : M psys (option nat) :=
  let* s := get in
  let total := count_tickets (ptable s) in
  let* (r, x) := from_opt (random_at_most fuel 982343221 (prng s)) in
  modify (set_lottery total r) ;;;
  match pick 0 (ptable s) 0 (draw_ticket total x) with
  | None => ret None
  | Some i =>
      let* p := proc_at i in
      if pgdir p =? 0 then panic "switchuvm: no pgdir"
      else
        upd_proc i (set_state RUNNING) ;;;
        ret (Some i)
  end.

(** ** The lottery *)

Definition tickets_sum (ps : list proc) : Z := foldr (fun p t => tickets p + t) 0 ps.
Definition runnable_sum (ps : list proc) : Z :=
  foldr (fun p t => (if decide (pstate p = RUNNABLE) then tickets p else 0) + t) 0 ps.

(** Ticket numbers are not negative and do not overflow. *)
Definition lottery_ok (ps : list proc) : Prop :=
  Forall (fun p => 0 <= tickets p) ps /\ tickets_sum ps < 2 ^ 31.

Lemma runnable_le ps : Forall (fun p => 0 <= tickets p) ps -> 0 <= runnable_sum ps <= tickets_sum ps.
Proof. induction 1 as [|p ps Hp _ IH]; simpl; [lia|]. case_decide; lia. Qed.

Lemma runnable_sum_app ps qs : runnable_sum (ps ++ qs) = runnable_sum ps + runnable_sum qs.
Proof. induction ps as [|p ps IH]; simpl; [done|]. rewrite IH. lia. Qed.

Lemma count_tickets_eq ps : lottery_ok ps -> count_tickets ps = tickets_sum ps.
Proof.
  intros [Hpos Hlt]. unfold count_tickets.
  enough (forall t, 0 <= t -> t + tickets_sum ps < 2 ^ 31 ->
    foldl (fun t p => i32 (t + tickets p)) t ps = t + tickets_sum ps) as H by (by rewrite H by lia).
  clear Hlt. induction Hpos as [|p ps Hp Hpos IH]; intros t Ht Hb; simpl in *; [lia|].
  pose proof (runnable_le ps Hpos). rewrite i32_small by lia. rewrite IH by lia. lia.
Qed.

(** The process a number selects: the ticket numbers of the runnable processes
    are handed out in table order. *)
Definition winner (ps : list proc) (r : Z) (i : nat) : Prop :=
  exists p, ps !! i = Some p /\ pstate p = RUNNABLE /\
    runnable_sum (take i ps) <= r < runnable_sum (take i ps) + tickets p.

Lemma pick_from ps k sum r :
  Forall (fun p => 0 <= tickets p) ps -> 0 <= sum <= r -> sum + runnable_sum ps < 2 ^ 31 ->
  match pick k ps sum r with
  | Some j => exists i, j = (k + i)%nat /\ winner ps (r - sum) i
  | None => sum + runnable_sum ps <= r
  end.
Proof.
  intros Hpos. revert k sum. induction Hpos as [|p ps Hp Hpos IH]; intros k sum Hs Hb; simpl in *; [lia|].
  pose proof (runnable_le ps Hpos) as Hrs.
  destruct (decide (pstate p = RUNNABLE)) as [Hrun|Hnr].
  - rewrite bool_decide_true by done. cbn [negb].
    rewrite u32_small by (unfold is_u32; lia). destruct (Z.leb_spec (tickets p + sum) r) as [Hle|Hgt].
    + rewrite i32_small by lia. specialize (IH (S k) (sum + tickets p) ltac:(lia) ltac:(lia)).
      destruct (pick (S k) ps (sum + tickets p) r) as [j|]; [|lia].
      destruct IH as (i & -> & q & Hi & Hq & Hlo). exists (S i). split; [lia|]. exists q. simpl.
      rewrite decide_True by done. split_and!; [done|done|lia|lia].
    + exists 0%nat. split; [lia|]. exists p. simpl. split_and!; [done|done|lia|lia].
  - rewrite bool_decide_false by done. cbn [negb]. specialize (IH (S k) sum Hs ltac:(lia)).
    destruct (pick (S k) ps sum r) as [j|]; [|lia].
    destruct IH as (i & -> & q & Hi & Hq & Hlo). exists (S i). split; [lia|]. exists q. simpl.
    rewrite decide_False by done. split_and!; [done|done|lia|lia].
Qed.

Lemma runnable_sum_take ps i p :
  ps !! i = Some p -> pstate p = RUNNABLE -> runnable_sum (take (S i) ps) = runnable_sum (take i ps) + tickets p.
Proof.
  intros Hi Hp. rewrite (take_S_r _ _ _ Hi), runnable_sum_app. simpl. rewrite decide_True by done. lia.
Qed.

Lemma runnable_sum_take_mono ps i j :
  Forall (fun p => 0 <= tickets p) ps -> (i <= j)%nat -> runnable_sum (take i ps) <= runnable_sum (take j ps).
Proof.
  intros Hpos Hij. replace j with (i + (j - i))%nat by lia. rewrite <- (take_drop i (take (i + (j - i)) ps)).
  rewrite take_take, Nat.min_l, runnable_sum_app by lia.
  assert (0 <= runnable_sum (drop i (take (i + (j - i)) ps))); [|lia].
  apply runnable_le, Forall_drop, Forall_take, Hpos.
Qed.

Lemma winner_unique ps r i j :
  Forall (fun p => 0 <= tickets p) ps -> winner ps r i -> winner ps r j -> i = j.
Proof.
  intros Hpos (p & Hp & Hrp & Hi) (q & Hq & Hrq & Hj).
  pose proof (runnable_sum_take _ _ _ Hp Hrp). pose proof (runnable_sum_take _ _ _ Hq Hrq).
  destruct (decide (i < j)%nat).
  { pose proof (runnable_sum_take_mono ps (S i) j Hpos ltac:(lia)). lia. }
  destruct (decide (j < i)%nat); [|lia].
  pose proof (runnable_sum_take_mono ps (S j) i Hpos ltac:(lia)). lia.
Qed.

Lemma winner_below ps r i : Forall (fun p => 0 <= tickets p) ps -> winner ps r i -> r < runnable_sum ps.
Proof.
  intros Hpos (p & Hp & Hrp & Hi). pose proof (runnable_sum_take _ _ _ Hp Hrp) as HS.
  pose proof (runnable_sum_take_mono ps (S i) (length ps) Hpos) as HM. rewrite firstn_all in HM.
  apply lookup_lt_Some in Hp. specialize (HM ltac:(lia)). lia.
Qed.

Lemma pick_winner ps r i : lottery_ok ps -> 0 <= r -> pick 0 ps 0 r = Some i <-> winner ps r i.
Proof.
  intros [Hpos Hlt] Hr. pose proof (runnable_le ps Hpos).
  pose proof (pick_from ps 0 0 r Hpos ltac:(lia) ltac:(lia)) as Hp. rewrite Z.sub_0_r in Hp. split.
  - intros Heq. rewrite Heq in Hp. destruct Hp as (j & -> & Hw). done.
  - intros Hw. destruct (pick 0 ps 0 r) as [j|].
    + destruct Hp as (j' & -> & Hw'). f_equal. simpl. by eapply winner_unique.
    + apply winner_below in Hw; [lia|done].
Qed.

Lemma pick_nobody ps r : lottery_ok ps -> 0 <= r -> pick 0 ps 0 r = None <-> runnable_sum ps <= r.
Proof.
  intros [Hpos Hlt] Hr. pose proof (runnable_le ps Hpos).
  pose proof (pick_from ps 0 0 r Hpos ltac:(lia) ltac:(lia)) as Hp. rewrite Z.sub_0_r in Hp. split.
  - intros Heq. rewrite Heq in Hp. lia.
  - intros Hle. destruct (pick 0 ps 0 r) as [j|]; [|done].
    destruct Hp as (j' & -> & Hw'). apply winner_below in Hw'; [lia|done].
Qed.

(** ** Counting draws *)

Definition count (P : Z -> Prop) `{!forall x, Decision (P x)} (n : Z) : Z :=
  Z.of_nat (length (filter P (seqZ 0 n))).

Section counting.
Context (P : Z -> Prop) `{HD : !forall x, Decision (P x)}.

Lemma filter_seqZ_all a n : (forall x, a <= x < a + n -> P x) -> length (filter P (seqZ a n)) = Z.to_nat n.
Proof.
  intros H. rewrite <- (length_seqZ a n). f_equal.
  assert (Forall P (seqZ a n)) as HF by (apply Forall_forall; intros x Hx%elem_of_seqZ; apply H; lia).
  induction HF as [|x l Hx _ IH]; [done|]. by rewrite filter_cons_True, IH.
Qed.
Lemma filter_seqZ_none a n : (forall x, a <= x < a + n -> ~ P x) -> length (filter P (seqZ a n)) = 0%nat.
Proof.
  intros H.
  assert (Forall (fun x => ~ P x) (seqZ a n)) as HF by (apply Forall_forall; intros x Hx%elem_of_seqZ; apply H; lia).
  induction HF as [|x l Hx _ IH]; [done|]. by rewrite filter_cons_False.
Qed.
Lemma filter_seqZ_app b n m : 0 <= n -> 0 <= m ->
  length (filter P (seqZ b (n + m))) = (length (filter P (seqZ b n)) + length (filter P (seqZ (b + n) m)))%nat.
Proof. intros Hn Hm. by rewrite seqZ_app, filter_app, length_app by lia. Qed.

Lemma filter_seqZ_interval b n a t :
  b <= a -> 0 <= t -> a + t <= b + n -> (forall x, b <= x < b + n -> P x <-> a <= x < a + t) ->
  length (filter P (seqZ b n)) = Z.to_nat t.
Proof.
  intros Ha Ht Hn HP. replace n with ((a - b) + (t + (b + n - (a + t)))) by lia.
  rewrite filter_seqZ_app, filter_seqZ_app by lia.
  rewrite filter_seqZ_none, filter_seqZ_all, filter_seqZ_none; [lia|..]; intros x Hx; rewrite HP by lia; lia.
Qed.
Lemma count_interval a t n :
  0 <= a -> 0 <= t -> a + t <= n -> (forall x, 0 <= x < n -> P x <-> a <= x < a + t) -> count P n = t.
Proof.
  intros Ha Ht Hn HP. unfold count. rewrite (filter_seqZ_interval 0 n a t); try done; lia.
Qed.

(** Numbers whose remainder falls in an interval: one interval in every block
    of [T], and at most one in the last, incomplete block. *)
Context (T a t : Z) (HT : 0 < T) (Ha : 0 <= a) (Ht : 0 <= t) (Hat : a + t <= T).
Context (HP : forall x, 0 <= x -> P x <-> a <= x mod T < a + t).

Lemma mod_block (q : Z) : 0 <= q -> length (filter P (seqZ (q * T) T)) = Z.to_nat t.
Proof.
  intros Hq. apply (filter_seqZ_interval _ _ (q * T + a)); try lia.
  intros x Hx. rewrite HP by nia. assert (x mod T = x - q * T) as ->; [|lia].
  rewrite <- (Z.mod_small (x - q * T) T) by lia. by rewrite <- (Z_mod_plus_full (x - q * T) q T), Z.sub_add.
Qed.
Lemma mod_blocks (q : nat) : count P (Z.of_nat q * T) = Z.of_nat q * t.
Proof.
  induction q as [|q IH]; [done|]. unfold count in *. rewrite Nat2Z.inj_succ, Z.mul_succ_l, filter_seqZ_app by nia.
  rewrite Z.add_0_l, mod_block by lia. lia.
Qed.
Lemma count_mod n : 0 <= n -> n / T * t <= count P n <= (n / T + 1) * t.
Proof.
  intros Hn. pose proof (Z.div_mod n T ltac:(lia)) as Hdm. pose proof (Z.mod_pos_bound n T HT) as Hm.
  assert (0 <= n / T) as Hq by (apply Z.div_pos; lia).
  pose proof (mod_blocks (Z.to_nat (n / T))) as HB. rewrite Z2Nat.id in HB by lia. unfold count in *.
  rewrite Hdm at 2 3. rewrite (Z.mul_comm T), filter_seqZ_app, Nat2Z.inj_add, HB, Z.add_0_l by nia.
  pose proof (mod_block (n / T) Hq) as Hblk. replace T with (n mod T + (T - n mod T)) in Hblk at 3 by lia.
  rewrite filter_seqZ_app in Hblk by lia. lia.
Qed.
End counting.

(** ** What the lottery guarantees *)

Lemma pick_interval ps i p :
  lottery_ok ps -> ps !! i = Some p -> pstate p = RUNNABLE ->
  exists a, 0 <= a /\ 0 <= tickets p /\ a + tickets p <= runnable_sum ps /\
    forall r, 0 <= r -> pick 0 ps 0 r = Some i <-> a <= r < a + tickets p.
Proof.
  intros Hok Hi Hp. pose proof Hok as [Hpos Hlt]. exists (runnable_sum (take i ps)).
  pose proof (runnable_sum_take ps i p Hi Hp) as HS.
  pose proof (proj1 (Forall_lookup _ _) Hpos _ _ Hi) as Htk. cbv beta in Htk.
  pose proof (runnable_sum_take_mono ps 0 i Hpos ltac:(lia)) as H0.
  pose proof (runnable_sum_take_mono ps (S i) (length ps) Hpos) as HM. rewrite firstn_all in HM.
  specialize (HM (lookup_lt_Some _ _ _ Hi)). split_and!; [done|done|lia|].
  intros x Hx. rewrite pick_winner by done. split.
  - intros (q & Hq & _ & ?). rewrite Hi in Hq. by injection Hq as <-.
  - intros ?. by exists p.
Qed.

(** C12: the lottery is proportional: of the ticket numbers below the total the
    scheduler counts, a runnable process is selected by exactly as many as it
    holds tickets.  The numbers that select nobody are as many as the tickets
    of the processes that are not runnable, so with only runnable ticket
    holders every draw selects a process. *)
Theorem lottery_proportional ps i p :
  lottery_ok ps -> ps !! i = Some p -> pstate p = RUNNABLE ->
  count (fun r => pick 0 ps 0 r = Some i) (count_tickets ps) = tickets p /\
  count (fun r => pick 0 ps 0 r = None) (count_tickets ps) = tickets_sum ps - runnable_sum ps.
Proof.
  intros Hok Hi Hp. pose proof (runnable_le ps (proj1 Hok)) as Hle. rewrite count_tickets_eq by done.
  destruct (pick_interval ps i p Hok Hi Hp) as (a & Ha & Ht & Hat & Hpick). split.
  - apply count_interval with (a := a); [done|done|lia|]. intros x Hx. apply Hpick. lia.
  - apply count_interval with (a := runnable_sum ps); [lia|lia|lia|].
    intros x Hx. rewrite pick_nobody by (done || lia). lia.
Qed.

(** The bias of taking the random number modulo the total is at most one
    draw per ticket: of the 982343222 values [random_at_most] can return, the
    number that lead to a runnable process lies between its tickets times the
    number of whole blocks and its tickets times one more. *)
Theorem lottery_draw_bounds ps i p :
  lottery_ok ps -> ps !! i = Some p -> pstate p = RUNNABLE -> 0 < count_tickets ps ->
  let q := 982343222 / count_tickets ps in
  q * tickets p <=
    count (fun x => pick 0 ps 0 (draw_ticket (count_tickets ps) x) = Some i) 982343222 <= (q + 1) * tickets p.
Proof.
  intros Hok Hi Hp HT q. subst q. pose proof (runnable_le ps (proj1 Hok)) as Hle.
  rewrite count_tickets_eq in * by done.
  destruct (pick_interval ps i p Hok Hi Hp) as (a & Ha & Ht & Hat & Hpick).
  apply (count_mod _ (tickets_sum ps) a (tickets p)); [done|done|done|lia| |lia].
  intros x Hx. unfold draw_ticket. rewrite (proj2 (Z.ltb_lt _ _)) by done.
  pose proof (Z.mod_pos_bound x (tickets_sum ps) HT). apply Hpick. lia.
Qed.

(** A round of the scheduler changes the state of at most one process, from
    RUNNABLE to RUNNING, and that one holds the drawn ticket.  It selects
    nobody only when the drawn number is beyond the runnable tickets. *)
Theorem schedule_runs_winner fuel s r x :
  lottery_ok (ptable s) -> Forall (fun p => pstate p = RUNNABLE -> pgdir p <> 0) (ptable s) ->
  random_at_most fuel 982343221 (prng s) = Some (r, x) -> 0 <= x ->
  exists s' res, schedule fuel s = Ret s' res /\ nextpid s' = nextpid s /\ km s' = km s /\ prng s' = r /\
    let draw := draw_ticket (count_tickets (ptable s)) x in
    match res with
    | Some i => exists p, ptable s !! i = Some p /\ winner (ptable s) draw i /\
        ptable s' = <[i := set_state RUNNING p]> (ptable s)
    | None => ptable s' = ptable s /\ runnable_sum (ptable s) <= draw
    end.
Proof.
  intros Hok Hpg Hr Hx. set (draw := draw_ticket _ x).
  assert (0 <= draw) as Hd.
  { subst draw. unfold draw_ticket. destruct (0 <? _) eqn:E; [|done]. apply Z.ltb_lt in E. apply Z.mod_pos_bound, E. }
  assert (schedule fuel s = (match pick 0 (ptable s) 0 draw with
    | None => ret None
    | Some i => let* p := proc_at i in
      if pgdir p =? 0 then panic "switchuvm: no pgdir" else upd_proc i (set_state RUNNING) ;;; ret (Some i)
    end) (set_lottery (count_tickets (ptable s)) r s)) as ->.
  { unfold schedule, bind, get, from_opt, modify, ret. rewrite Hr. done. }
  destruct (pick 0 (ptable s) 0 draw) as [i|] eqn:Ep.
  - apply pick_winner in Ep; [|done|done]. pose proof Ep as (p & Hi & Hrun & _).
    pose proof (proj1 (Forall_lookup _ _) Hpg _ _ Hi Hrun) as Hnz.
    unfold upd_proc, proc_at, bind, gets, from_opt, modify, ret. cbn [ptable set_lottery]. rewrite Hi.
    rewrite (proj2 (Z.eqb_neq _ _)) by done. cbn [ptable set_lottery]. rewrite Hi.
    eexists _, (Some i). split_and!; [done|done|done|done|]. by exists p.
  - apply pick_nobody in Ep; [|done|done]. eexists _, None. done.
Qed.

(** ** The process table as a transition system

    Every section of proc.c that holds [ptable.lock] is one step.  The steps
    of [fork] around the copying of memory and files are [fork_undo],
    [fork_link] and [fork_run]. *)

Definition fork_undo (kend : Z) (i : nat) : M psys unit :=
  let* p := proc_at i in
  inkm (kfree kend (kstack p)) ;;;
  upd_proc i (set_kstack 0) ;;;
  upd_proc i (set_state UNUSED).
Definition fork_link (i cur : nat) : M psys unit :=
  let* p := proc_at cur in
  upd_proc i (fun np => set_parent (Some cur) (set_vm (sz p) (pgdir np) np)).
Definition fork_run (i : nat) : M psys unit := upd_proc i (set_state RUNNABLE).

Definition alive (p : proc) : Prop :=
  pstate p = SLEEPING \/ pstate p = RUNNABLE \/ pstate p = RUNNING.

(** Two entries that differ in nothing the table invariant speaks about, except
    that a process may have been woken, or moved between RUNNABLE and RUNNING. *)
Definition benign (p p' : proc) : Prop :=
  pid p' = pid p /\ parent p' = parent p /\
  (pstate p' = pstate p \/ alive p /\ (pstate p' = RUNNABLE \/ pstate p' = RUNNING)) /\
  (pstate p' = SLEEPING -> pchan p' = pchan p).

Section steps.
Context (trapret forkret kend : Z).

Definition running (s : psys) (i : nat) : Prop :=
  exists p, ptable s !! i = Some p /\ pstate p = RUNNING.
Definition embryo (s : psys) (i : nat) (q : option nat) : Prop :=
  exists p, ptable s !! i = Some p /\ pstate p = EMBRYO /\ parent p = q.

Inductive pstep (s : psys) : psys -> Prop :=
| st_alloc s' r : nextpid s < 2 ^ 31 - 1 -> allocproc trapret forkret s = Ret s' r -> pstep s s'
| st_undo i s' : embryo s i None -> fork_undo kend i s = Ret s' tt -> pstep s s'
| st_link i cur s' : embryo s i None -> running s cur -> fork_link i cur s = Ret s' tt -> pstep s s'
| st_run i q s' : embryo s i (Some q) -> fork_run i s = Ret s' tt -> pstep s s'
| st_schedule fuel s' r : schedule fuel s = Ret s' r -> pstep s s'
| st_yield cur s' : running s cur -> yield cur s = Ret s' tt -> pstep s s'
| st_sleep cur c s' : running s cur -> (forall k, c <> ChProc k) -> sleep_enter cur c s = Ret s' tt -> pstep s s'
| st_awake cur s' : running s cur -> sleep_leave cur s = Ret s' tt -> pstep s s'
| st_wakeup c s' : wakeup c s = Ret s' tt -> pstep s s'
| st_kill n s' r : kill n s = Ret s' r -> pstep s s'
| st_exit cur s' : running s cur -> initproc s <> Some cur -> exit_tail cur s = Ret s' tt -> pstep s s'
| st_wait cur s' r : running s cur -> wait kend cur s = Ret s' r -> pstep s s'
| st_wait_sleep cur c s' : running s cur -> wait kend cur s = Sleep c s' -> pstep s s'
| st_other cur p p' k : ptable s !! cur = Some p -> pstate p = RUNNING -> benign p p' ->
    pstep s (mk_psys (<[cur := p']> (ptable s)) (nextpid s) (total_tickets s) (initproc s) (prng s) k).
End steps.

(** The invariant of the table: pids are positive, below [nextpid] and
    distinct; the first process never dies and has no parent; parents are alive
    and not their own children; whoever is not the first process has a parent; a sleeper has a channel; and a process
    that sleeps in [wait] has no zombie child. *)
Record table_inv (ps : list proc) (init : nat) (np : Z) : Prop := {
  ti_pid : forall i p, ps !! i = Some p -> pstate p <> UNUSED -> 0 < pid p < np;
  ti_uniq : forall i j p q, ps !! i = Some p -> ps !! j = Some q ->
    pstate p <> UNUSED -> pstate q <> UNUSED -> pid p = pid q -> i = j;
  ti_init : exists p, ps !! init = Some p /\ alive p;
  ti_parent : forall i p j, ps !! i = Some p -> parent p = Some j ->
    pstate p <> UNUSED /\ exists q, ps !! j = Some q /\ alive q;
  ti_orphan : forall i p, ps !! i = Some p -> alive p \/ pstate p = ZOMBIE -> i = init \/ exists j, parent p = Some j;
  ti_root : forall p, ps !! init = Some p -> parent p = None;
  ti_self : forall i p, ps !! i = Some p -> parent p <> Some i;
  ti_sleep : forall i p, ps !! i = Some p -> pstate p = SLEEPING -> pchan p <> None;
  ti_wait : forall j q k, ps !! j = Some q -> pstate q = SLEEPING -> pchan q = Some (ChProc k) ->
    k = j /\ forall i p, ps !! i = Some p -> parent p = Some j -> pstate p <> ZOMBIE
}.
Definition psys_inv (s : psys) : Prop :=
  exists init, initproc s = Some init /\ table_inv (ptable s) init (nextpid s).

Lemma benign_refl p : benign p p.
Proof. unfold benign. auto. Qed.

Lemma benign_alive p p' : benign p p' -> alive p -> alive p'.
Proof. unfold benign, alive. intros (_ & _ & [->|[_ ?]] & _); tauto. Qed.

Lemma benign_dead p p' st : benign p p' -> st = UNUSED \/ st = EMBRYO \/ st = ZOMBIE -> pstate p' = st <-> pstate p = st.
Proof.
  unfold benign, alive. intros (_ & _ & [->|[Ha Hr]] & _) Hst; [done|].
  split; intros Heq; rewrite Heq in *; destruct Hst as [->|[->| ->]]; naive_solver.
Qed.
Lemma benign_sleep p p' : benign p p' -> pstate p' = SLEEPING -> pstate p = SLEEPING /\ pchan p = pchan p'.
Proof. unfold benign. intros (_ & _ & [H|[_ [H|H]]] & Hc) Hs; [|congruence..]. split; [congruence|]. symmetry; auto. Qed.

Lemma table_inv_benign ps ps' init np :
  table_inv ps init np -> Forall2 benign ps ps' -> table_inv ps' init np.
Proof.
  intros HI HF.
  assert (forall i p', ps' !! i = Some p' -> exists p, ps !! i = Some p /\ benign p p') as Hl.
  { intros i p' Hp'. by destruct (Forall2_lookup_r _ _ _ _ _ HF Hp') as (p & ? & ?); exists p. }
  assert (forall i p, ps !! i = Some p -> exists p', ps' !! i = Some p' /\ benign p p') as Hr.
  { intros i p Hp. by destruct (Forall2_lookup_l _ _ _ _ _ HF Hp) as (p' & ? & ?); exists p'. }
  split.
  - intros i p' Hi Hu. destruct (Hl _ _ Hi) as (p & Hp & Hb).
    rewrite (proj1 Hb). apply (ti_pid _ _ _ HI i p Hp). by rewrite <- (benign_dead p p') by auto.
  - intros i j p' q' Hi Hj Hu Hv Heq. destruct (Hl _ _ Hi) as (p & Hp & Hb), (Hl _ _ Hj) as (q & Hq & Hc).
    rewrite (proj1 Hb), (proj1 Hc) in Heq.
    rewrite (benign_dead p p') in Hu by auto. rewrite (benign_dead q q') in Hv by auto.
    by apply (ti_uniq _ _ _ HI i j p q).
  - destruct (ti_init _ _ _ HI) as (p & Hp & Ha). destruct (Hr _ _ Hp) as (p' & Hp' & Hb).
    exists p'. split; [done|]. by eapply benign_alive.
  - intros i p' j Hi Hj. destruct (Hl _ _ Hi) as (p & Hp & Hb). rewrite (proj1 (proj2 Hb)) in Hj.
    destruct (ti_parent _ _ _ HI i p j Hp Hj) as (Hu & q & Hq & Ha). split.
    { by rewrite (benign_dead p p') by auto. }
    destruct (Hr _ _ Hq) as (q' & Hq' & Hc). exists q'. split; [done|]. by eapply benign_alive.
  - intros i p' Hi Ha. destruct (Hl _ _ Hi) as (p & Hp & Hb). rewrite (proj1 (proj2 Hb)).
    apply (ti_orphan _ _ _ HI i p Hp). rewrite (benign_dead p p') in Ha by auto.
    destruct Ha as [Ha|?]; [left|by right]. destruct Hb as (_ & _ & [Heq|[? _]] & _); [|done].
    unfold alive in *. by rewrite Heq in Ha.
  - intros p' Hi. destruct (Hl _ _ Hi) as (p & Hp & Hb). rewrite (proj1 (proj2 Hb)). by apply (ti_root _ _ _ HI).
  - intros i p' Hi. destruct (Hl _ _ Hi) as (p & Hp & Hb). rewrite (proj1 (proj2 Hb)). by apply (ti_self _ _ _ HI).
  - intros i p' Hi Hs. destruct (Hl _ _ Hi) as (p & Hp & Hb). destruct (benign_sleep _ _ Hb Hs) as [Hs' <-].
    by apply (ti_sleep _ _ _ HI i p).
  - intros j q' k Hj Hs Hc. destruct (Hl _ _ Hj) as (q & Hq & Hb). destruct (benign_sleep _ _ Hb Hs) as [Hs' Hch].
    rewrite <- Hch in Hc. destruct (ti_wait _ _ _ HI j q k Hq Hs' Hc) as [-> Hz]. split; [done|].
    intros i p' Hi Hpar. destruct (Hl _ _ Hi) as (p & Hp & Hb'). rewrite (benign_dead p p') by auto.
    apply (Hz i p Hp). by rewrite <- (proj1 (proj2 Hb')).
Qed.

(** *** Effects of the operations on the table *)

Lemma upd_proc_ret i f s p :
  ptable s !! i = Some p -> upd_proc i f s = Ret (upd_ptable <[i := f p]> s) tt.
Proof. intros Hi. unfold upd_proc, proc_at, bind, gets, from_opt, modify, ret. by rewrite Hi. Qed.
Lemma upd_proc_inv i f s s' u :
  upd_proc i f s = Ret s' u -> exists p, ptable s !! i = Some p /\ s' = upd_ptable <[i := f p]> s.
Proof.
  unfold upd_proc, proc_at, bind, gets, from_opt, modify, ret, fault. destruct (ptable s !! i) as [p|]; [|done].
  intros [= <- _]. by exists p.
Qed.
Lemma proc_at_ret i s p : ptable s !! i = Some p -> proc_at i s = Ret s p.
Proof. intros Hi. unfold proc_at, bind, gets, from_opt, ret. by rewrite Hi. Qed.
Lemma proc_at_inv i s s' p : proc_at i s = Ret s' p -> s' = s /\ ptable s !! i = Some p.
Proof.
  unfold proc_at, bind, gets, from_opt, modify, ret, fault. destruct (ptable s !! i) as [q|]; [|done].
  by intros [= <- <-].
Qed.
Lemma inkm_ret {A} (m : M kmem A) s k (a : A) : m (km s) = Ret k a -> inkm m s = Ret (set_km k s) a.
Proof. apply zoom_ret. Qed.
Lemma inkm_inv {A} (m : M kmem A) s s' (a : A) :
  inkm m s = Ret s' a -> exists k, s' = set_km k s /\ m (km s) = Ret k a.
Proof. unfold inkm, zoom. destruct (m (km s)) as [k b| | |]; [|done..]. intros [= <- <-]. by exists k. Qed.

Ltac inv_bind H :=
  let s1 := fresh "s" in let a := fresh "a" in
  apply bind_inv in H; destruct H as (s1 & a & ? & H).
Ltac inv_upd H :=
  apply upd_proc_inv in H; let p := fresh "p" in let Hp := fresh "Hp" in destruct H as (p & Hp & ->).

(** [s1] is [s] with entry [i] in state [st], its pid and parent as given. *)
Definition entry_is (s : psys) (i : nat) (st : procstate) (n : Z) (q : option nat) (np : Z) (s1 : psys) : Prop :=
  initproc s1 = initproc s /\ nextpid s1 = np /\
  exists p, ptable s1 = <[i := p]> (ptable s) /\ pstate p = st /\ pid p = n /\ parent p = q.

Lemma entry_is_km s i st n q np s1 k : entry_is s i st n q np s1 -> entry_is s i st n q np (set_km k s1).
Proof. intros (? & ? & H). split_and!; [done|done|exact H]. Qed.

Lemma entry_is_upd s i st n q np s1 st' n' q' f s2 u :
  entry_is s i st n q np s1 -> upd_proc i f s1 = Ret s2 u ->
  (forall p, pstate p = st -> pid p = n -> parent p = q ->
     pstate (f p) = st' /\ pid (f p) = n' /\ parent (f p) = q') ->
  entry_is s i st' n' q' np s2.
Proof.
  intros (Hin & Hnp & p & Hpt & Hst & Hn & Hq) Hu Hf. inv_upd Hu. split_and!; [done|done|].
  rewrite Hpt in Hp. apply list_lookup_insert_Some in Hp as [(_ & -> & _)|[? _]]; [|done].
  exists (f p0). cbn [upd_ptable ptable]. rewrite Hpt, list_insert_insert_eq. split; [done|]. by apply Hf.
Qed.

Ltac entry_step HE H :=
  let E1 := fresh in let E2 := fresh in let E3 := fresh in
  eapply entry_is_upd in HE; [|exact H|intros ? E1 E2 E3; cbn; rewrite ?E1, ?E2, ?E3; repeat split; reflexivity]; clear H.

Lemma allocproc_effect trapret forkret s s' r :
  allocproc trapret forkret s = Ret s' r ->
  s' = s /\ r = None \/
  exists i p st, ptable s !! i = Some p /\ pstate p = UNUSED /\ (st = EMBRYO /\ r = Some i \/ st = UNUSED /\ r = None) /\
    entry_is s i st (nextpid s) (parent p) (i32 (nextpid s + 1)) s'.
Proof.
  unfold allocproc. intros H. rewrite gets_bind in H.
  destruct (list_find (fun p => pstate p = UNUSED) (ptable s)) as [[i p]|] eqn:Ef; [|by injection H as <- <-; left].
  apply list_find_Some in Ef as (Hi & Hu & _). right. exists i, p.
  rewrite gets_bind in H. inv_bind H. inv_upd H0. rewrite Hi in Hp. injection Hp as <-.
  rewrite modify_bind in H.
  match type of H with _ ?s1 = _ =>
    assert (entry_is s i EMBRYO (nextpid s) (parent p) (i32 (nextpid s + 1)) s1) as HE by
      (split_and!; [done|done|]; eexists; split; [done|]; done) end.
  inv_bind H. apply inkm_inv in H0 as (k & -> & _). apply (entry_is_km _ _ _ _ _ _ _ k) in HE.
  inv_bind H. entry_step HE H0.
  destruct (a0 =? 0).
  - inv_bind H. entry_step HE H0.
    injection H as <- <-. exists UNUSED. split_and!; [done|done|auto|done].
  - inv_bind H. apply inkm_inv in H0 as (k1 & -> & _). apply (entry_is_km _ _ _ _ _ _ _ k1) in HE.
    inv_bind H. entry_step HE H0.
    inv_bind H. apply inkm_inv in H0 as (k2 & -> & _). apply (entry_is_km _ _ _ _ _ _ _ k2) in HE.
    inv_bind H. apply inkm_inv in H0 as (k3 & -> & _). apply (entry_is_km _ _ _ _ _ _ _ k3) in HE.
    injection H as <- <-. exists EMBRYO. split_and!; [done|done|auto|done].
Qed.

(** *** Preservation, operation by operation *)

Lemma alive_not p : alive p -> pstate p <> UNUSED /\ pstate p <> EMBRYO /\ pstate p <> ZOMBIE.
Proof. unfold alive. intros [->|[->| ->]]; done. Qed.

(** Replacing one entry: every operation but [exit] and [wakeup] does only that. *)
Record replaces (ps : list proc) (init i : nat) (np np' : Z) (p p' : proc) : Prop := {
  rp_pid : pstate p' = UNUSED \/ (pid p' = pid p /\ pstate p <> UNUSED) \/ np <= pid p' < np';
  rp_alive : alive p -> alive p';
  rp_parent : forall j, parent p' = Some j -> pstate p' <> UNUSED /\ exists q, ps !! j = Some q /\ alive q;
  rp_orphan : alive p' \/ pstate p' = ZOMBIE -> i = init \/ exists j, parent p' = Some j;
  rp_root : i = init -> parent p' = None;
  rp_self : parent p' <> Some i;
  rp_sleep : pstate p' = SLEEPING -> pchan p' <> None /\ forall k, pchan p' = Some (ChProc k) ->
    k = i /\ forall m q, ps !! m = Some q -> parent q = Some i -> pstate q <> ZOMBIE;
  rp_zombie : pstate p' = ZOMBIE -> pstate p = ZOMBIE /\ parent p' = parent p
}.

Lemma nextpid_pos ps init np : table_inv ps init np -> 0 < np.
Proof.
  intros HI. destruct (ti_init _ _ _ HI) as (q & Hq & Ha).
  pose proof (ti_pid _ _ _ HI _ _ Hq (proj1 (alive_not _ Ha))). lia.
Qed.

Lemma table_inv_insert ps init np np' i p p' :
  table_inv ps init np -> np <= np' -> ps !! i = Some p -> replaces ps init i np np' p p' ->
  table_inv (<[i := p']> ps) init np'.
Proof.
  intros HI Hnp Hi HR. pose proof (nextpid_pos _ _ _ HI) as Hpos.
  assert (forall j q, <[i := p']> ps !! j = Some q -> j = i /\ q = p' \/ j <> i /\ ps !! j = Some q) as Hl.
  { intros j q [(<- & <- & _)|[? ?]]%list_lookup_insert_Some; auto. }
  assert (forall j q, ps !! j = Some q -> alive q -> exists q', <[i := p']> ps !! j = Some q' /\ alive q') as Hr.
  { intros j q Hq Ha. destruct (decide (i = j)) as [<-|Hne]; [|by exists q; rewrite list_lookup_insert_ne].
    rewrite Hi in Hq. injection Hq as <-. exists p'. split; [|by apply (rp_alive _ _ _ _ _ _ _ HR)].
    apply list_lookup_insert_eq. by eapply lookup_lt_Some. }
  assert (forall j q, ps !! j = Some q -> j <> i -> pstate q <> UNUSED -> pstate p' <> UNUSED -> pid p' <> pid q) as Hpid.
  { intros j q Hq Hne Hu Hu' Heq. destruct (rp_pid _ _ _ _ _ _ _ HR) as [?|[[Hs Hu2]|?]]; [done| |].
    - apply Hne. apply (ti_uniq _ _ _ HI j i q p); [done|done|done|done|congruence].
    - pose proof (ti_pid _ _ _ HI j q Hq Hu). lia. }
  split.
  - intros j q [[-> ->]|[Hne Hq]]%Hl Hu.
    + destruct (rp_pid _ _ _ _ _ _ _ HR) as [?|[[-> Hu2]|?]]; [done| |lia].
      pose proof (ti_pid _ _ _ HI i p Hi Hu2). lia.
    + pose proof (ti_pid _ _ _ HI j q Hq Hu). lia.
  - intros j k q1 q2 [[-> ->]|[Hne Hq]]%Hl [[-> ->]|[Hne' Hq']]%Hl Hu1 Hu2 Heq; [done|..].
    + exfalso. by apply (Hpid k q2).
    + exfalso. by apply (Hpid j q1).
    + by apply (ti_uniq _ _ _ HI j k q1 q2).
  - destruct (ti_init _ _ _ HI) as (q & Hq & Ha). by apply (Hr init q).
  - intros j q k [[-> ->]|[Hne Hq]]%Hl Hk.
    + destruct (rp_parent _ _ _ _ _ _ _ HR k Hk) as (Hu & q & Hq & Ha). split; [done|]. by apply (Hr k q).
    + destruct (ti_parent _ _ _ HI j q k Hq Hk) as (Hu & q' & Hq' & Ha). split; [done|]. by apply (Hr k q').
  - intros j q [[-> ->]|[Hne Hq]]%Hl Ha; [by apply (rp_orphan _ _ _ _ _ _ _ HR)|]. by apply (ti_orphan _ _ _ HI).
  - intros q [[-> ->]|[Hne Hq]]%Hl; [by apply (rp_root _ _ _ _ _ _ _ HR)|]. by apply (ti_root _ _ _ HI).
  - intros j q [[-> ->]|[Hne Hq]]%Hl; [by apply (rp_self _ _ _ _ _ _ _ HR)|]. by apply (ti_self _ _ _ HI).
  - intros j q [[-> ->]|[Hne Hq]]%Hl Ha; [by apply (rp_sleep _ _ _ _ _ _ _ HR)|]. by apply (ti_sleep _ _ _ HI j q).
  - intros j q k Hq Ha Hc.
    assert (k = j /\ forall m q, ps !! m = Some q -> parent q = Some j -> pstate q <> ZOMBIE) as [-> Hz].
    { apply Hl in Hq as [[-> ->]|[Hne Hq]]; [by apply (rp_sleep _ _ _ _ _ _ _ HR)|].
      by apply (ti_wait _ _ _ HI j q k). }
    split; [done|]. intros m q' [[-> ->]|[Hne' Hq']]%Hl Hk; [|by apply (Hz m q')].
    intros [Hzp Hpar]%(rp_zombie _ _ _ _ _ _ _ HR). apply (Hz i p); [done|congruence|done].
Qed.

Lemma psys_inv_insert s s' i p p' :
  psys_inv s -> initproc s' = initproc s -> nextpid s <= nextpid s' -> ptable s !! i = Some p ->
  ptable s' = <[i := p']> (ptable s) ->
  (forall init, initproc s = Some init -> table_inv (ptable s) init (nextpid s) ->
     replaces (ptable s) init i (nextpid s) (nextpid s') p p') ->
  psys_inv s'.
Proof.
  intros (init & Hinit & HI) Hin Hnp Hi Hps HR. exists init. rewrite Hin, Hps. split; [done|].
  eapply table_inv_insert; eauto.
Qed.

Lemma psys_inv_benign s s' :
  psys_inv s -> initproc s' = initproc s -> nextpid s' = nextpid s ->
  Forall2 benign (ptable s) (ptable s') -> psys_inv s'.
Proof.
  intros (init & Hinit & HI) Hin Hnp HF. exists init. rewrite Hin, Hnp. split; [done|].
  by eapply table_inv_benign.
Qed.

Lemma benign_insert ps i p p' : ps !! i = Some p -> benign p p' -> Forall2 benign ps (<[i := p']> ps).
Proof.
  intros Hi Hb. apply Forall2_same_length_lookup_2; [by rewrite length_insert|].
  intros j q q' Hq [(<- & <- & _)|[? Hq']]%list_lookup_insert_Some.
  - rewrite Hi in Hq. by injection Hq as <-.
  - rewrite Hq in Hq'. injection Hq' as <-. apply benign_refl.
Qed.

Lemma unused_no_parent ps init np i p :
  table_inv ps init np -> ps !! i = Some p -> pstate p = UNUSED -> parent p = None.
Proof.
  intros HI Hi Hu. destruct (parent p) as [j|] eqn:Hp; [|done].
  destruct (ti_parent _ _ _ HI i p j Hi Hp) as [? _]. done.
Qed.

Lemma allocproc_inv trapret forkret s s' r :
  psys_inv s -> nextpid s < 2 ^ 31 - 1 -> allocproc trapret forkret s = Ret s' r -> psys_inv s'.
Proof.
  intros HI Hov H. destruct (allocproc_effect _ _ _ _ _ H) as [[-> _]|(i & p & st & Hi & Hu & Hst & Hin & Hnp & p' & Hpt & E1 & E2 & E3)]; [done|].
  assert (0 < nextpid s) as Hpos by (destruct HI as (? & _ & HI); by eapply nextpid_pos).
  rewrite i32_small in Hnp by lia.
  apply (psys_inv_insert s s' i p p'); [done|done|lia|done|done|]. intros init Hinit HT.
  pose proof (unused_no_parent _ _ _ _ _ HT Hi Hu) as Hnopar. rewrite Hnopar in E3.
  assert (pstate p' = EMBRYO \/ pstate p' = UNUSED) as Hst' by (destruct Hst as [[-> _]|[-> _]]; auto).
  split; unfold alive.
  - right; right. lia.
  - rewrite Hu. naive_solver.
  - congruence.
  - destruct Hst' as [-> | ->]; naive_solver.
  - done.
  - congruence.
  - destruct Hst' as [-> | ->]; naive_solver.
  - destruct Hst' as [-> | ->]; naive_solver.
Qed.

Lemma fork_undo_inv kend i s s' :
  psys_inv s -> embryo s i None -> fork_undo kend i s = Ret s' tt -> psys_inv s'.
Proof.
  intros HI (p & Hi & He & Hpar) H. unfold fork_undo in H. inv_bind H.
  apply proc_at_inv in H0 as [-> Hp]. rewrite Hi in Hp. injection Hp as <-.
  inv_bind H. apply inkm_inv in H0 as (k & -> & _). inv_bind H. inv_upd H0. inv_upd H.
  cbn in Hp, Hp0. rewrite Hi in Hp. injection Hp as <-.
  rewrite list_lookup_insert_eq in Hp0 by (by eapply lookup_lt_Some). injection Hp0 as <-.
  eapply (psys_inv_insert s _ i p); [done|done|cbn; lia|done|cbn; by rewrite list_insert_insert_eq|].
  intros init Hinit HT. split; unfold alive; cbn; try (rewrite He; naive_solver); try naive_solver.
Qed.

Lemma fork_link_inv i cur s s' :
  psys_inv s -> embryo s i None -> running s cur -> fork_link i cur s = Ret s' tt -> psys_inv s'.
Proof.
  intros HI (p & Hi & He & Hpar) (c & Hc & Hrun) H. unfold fork_link in H. inv_bind H.
  apply proc_at_inv in H0 as [-> Hp]. inv_upd H. rewrite Hi in Hp0. injection Hp0 as <-.
  eapply (psys_inv_insert s _ i p); [done|done|cbn; lia|done|reflexivity|].
  intros init Hinit HT. pose proof (ti_init _ _ _ HT) as (q & Hq & (_ & Hqa & _)%alive_not).
  assert (i <> init) by (intros ->; congruence). assert (i <> cur) by (intros ->; congruence).
  split; unfold alive in *; cbn; rewrite ?He; naive_solver.
Qed.

Lemma fork_run_inv i q s s' :
  psys_inv s -> embryo s i (Some q) -> fork_run i s = Ret s' tt -> psys_inv s'.
Proof.
  intros HI (p & Hi & He & Hpar) H. unfold fork_run in H. inv_upd H. rewrite Hi in Hp. injection Hp as <-.
  eapply (psys_inv_insert s _ i p); [done|done|cbn; lia|done|reflexivity|].
  intros init Hinit HT. pose proof (ti_parent _ _ _ HT i p q Hi Hpar) as (_ & q' & ?).
  pose proof (ti_root _ _ _ HT) as Hroot. pose proof (ti_self _ _ _ HT i p Hi) as Hself.
  split; unfold alive in *; cbn; rewrite ?He; naive_solver.
Qed.

Lemma wakeup1_benign c ps : Forall2 benign ps (wakeup1 c ps).
Proof.
  unfold wakeup1. apply Forall2_fmap_r. apply Forall_Forall2_diag, Forall_true. intros p.
  unfold compose. case_decide as Hs; [|apply benign_refl]. unfold benign, alive; cbn. destruct Hs as [Hs _]. naive_solver.
Qed.

Lemma pick_runnable k ps sum r i :
  pick k ps sum r = Some i -> exists j q, i = (k + j)%nat /\ ps !! j = Some q /\ pstate q = RUNNABLE.
Proof.
  revert k sum. induction ps as [|p ps IH]; intros k sum; simpl; [done|].
  assert (forall sum, pick (S k) ps sum r = Some i ->
    exists j q, i = (k + j)%nat /\ (p :: ps) !! j = Some q /\ pstate q = RUNNABLE) as Hrec.
  { intros sum' (j & q & -> & Hj & Hq)%IH. exists (S j), q. split; [lia|done]. }
  case_bool_decide as Hr; cbn [negb]; [|apply Hrec]. destruct (_ <=? r); [apply Hrec|].
  intros [= <-]. exists 0%nat, p. split; [lia|done].
Qed.

Lemma kill_inv n s s' r : psys_inv s -> kill n s = Ret s' r -> psys_inv s'.
Proof.
  intros HI H. unfold kill in H. rewrite gets_bind in H.
  destruct (list_find (fun p => pid p = n) (ptable s)) as [[i p]|] eqn:Ef; [|by injection H as <- _].
  apply list_find_Some in Ef as (Hi & _ & _). inv_bind H. inv_upd H0. injection H as <- _.
  rewrite Hi in Hp. injection Hp as <-.
  apply (psys_inv_benign s); [done|done|done|]. cbn [ptable upd_ptable]. apply (benign_insert _ _ p); [done|].
  case_decide as Hs; unfold benign, alive; cbn in *; naive_solver.
Qed.

Lemma schedule_inv fuel s s' r : psys_inv s -> schedule fuel s = Ret s' r -> psys_inv s'.
Proof.
  intros HI H. unfold schedule in H. inv_bind H. unfold get in H0. injection H0 as <- <-.
  inv_bind H. destruct a as [r' x]. unfold from_opt in H0.
  destruct (random_at_most _ _ _) as [[r1 x1]|]; [|done]. injection H0 as <- -> ->. rewrite modify_bind in H.
  destruct (pick 0 (ptable s) 0 _) as [i|] eqn:Ep.
  2: { injection H as <- _. apply (psys_inv_benign s); [done|done|done|]. cbn. apply Forall_Forall2_diag, Forall_true, benign_refl. }
  inv_bind H. apply proc_at_inv in H0 as [-> Hp]. destruct (_ =? 0); [done|].
  inv_bind H. inv_upd H0. injection H as <- _. cbn in Hp, Hp0. rewrite Hp in Hp0. injection Hp0 as <-.
  apply (psys_inv_benign s); [done|done|done|]. cbn [ptable upd_ptable set_lottery].
  apply (benign_insert _ _ a); [done|].
  unfold benign, alive; cbn. apply pick_runnable in Ep as (j & q & -> & Hq & Hrun). cbn in Hp. rewrite Hp in Hq.
  injection Hq as <-. naive_solver.
Qed.

Lemma benign_running p p' :
  pstate p = RUNNING -> pid p' = pid p -> parent p' = parent p -> pstate p' = RUNNABLE \/ pstate p' = RUNNING -> benign p p'.
Proof.
  intros Hr Hp Hq Hs. split_and!; [done|done|right; split; [unfold alive; auto|done]|]. destruct Hs; congruence.
Qed.

Lemma running_only s i f s' u (HI : psys_inv s) :
  running s i -> upd_proc i f s = Ret s' u -> (forall p, pstate p = RUNNING -> benign p (f p)) -> psys_inv s'.
Proof.
  intros (p & Hi & Hr) H Hf. inv_upd H. rewrite Hi in Hp. injection Hp as <-.
  apply (psys_inv_benign s); [done|done|done|]. cbn [ptable upd_ptable]. eapply benign_insert; eauto.
Qed.

Lemma sleep_enter_inv cur c s s' u :
  psys_inv s -> running s cur ->
  (forall k, c = ChProc k -> k = cur /\ forall m q, ptable s !! m = Some q -> parent q = Some cur -> pstate q <> ZOMBIE) ->
  sleep_enter cur c s = Ret s' u -> psys_inv s'.
Proof.
  intros HI (p & Hi & Hr) Hc H. unfold sleep_enter in H. inv_upd H. rewrite Hi in Hp. injection Hp as <-.
  eapply (psys_inv_insert s _ cur p); [done|done|cbn; lia|done|reflexivity|].
  intros init Hinit HT. pose proof (ti_parent _ _ _ HT cur p) as Hpar.
  pose proof (ti_orphan _ _ _ HT cur p Hi) as Horph. pose proof (ti_root _ _ _ HT) as Hroot.
  pose proof (ti_self _ _ _ HT cur p Hi) as Hself. split; unfold alive in *; cbn; rewrite ?Hr in *; naive_solver.
Qed.

Lemma zombie_child_none cur ps :
  zombie_child cur ps = None -> forall m q, ps !! m = Some q -> parent q = Some cur -> pstate q <> ZOMBIE.
Proof.
  intros Hz m q Hm Hp Hq. apply list_find_None in Hz. apply (proj1 (Forall_lookup _ _) Hz m q Hm). done.
Qed.

Lemma wait_sleep_inv kend cur c s s' :
  psys_inv s -> running s cur -> wait kend cur s = Sleep c s' -> psys_inv s'.
Proof.
  intros HI Hrun H. unfold wait in H. rewrite gets_bind in H.
  destruct (zombie_child cur (ptable s)) as [[i p]|] eqn:Ez.
  { exfalso. revert H. match goal with |- ?m s = _ -> _ => assert (NonBlocking m) as Hnb end; [|apply Hnb].
    unfold inkm, upd_proc, proc_at. apply _. }
  pose proof Hrun as (p & Hi & Hr). rewrite (bind_ret _ _ _ _ _ (proc_at_ret _ _ _ Hi)) in H.
  destruct (_ || _); [done|]. unfold sleep_enter in H. rewrite (bind_ret _ _ _ _ _ (upd_proc_ret _ _ _ _ Hi)) in H.
  injection H as _ <-. apply (sleep_enter_inv cur (ChProc cur) s _ tt); [done|done| |exact (upd_proc_ret _ _ _ _ Hi)].
  intros k [= <-]. split; [done|]. by apply zombie_child_none.
Qed.

Lemma wait_inv kend cur s s' r :
  psys_inv s -> wait kend cur s = Ret s' r -> psys_inv s'.
Proof.
  intros HI H. unfold wait in H. rewrite gets_bind in H.
  destruct (zombie_child cur (ptable s)) as [[i p]|] eqn:Ez.
  - apply list_find_Some in Ez as (Hi & [Hpar Hz] & _).
    inv_bind H. apply inkm_inv in H0 as (k & -> & _). inv_bind H. inv_upd H0. cbn in Hp. rewrite Hi in Hp.
    injection Hp as <-. inv_bind H. apply inkm_inv in H0 as (k' & -> & _). inv_bind H. inv_upd H0.
    cbn in Hp. rewrite list_lookup_insert_eq in Hp by (by eapply lookup_lt_Some). injection Hp as <-.
    injection H as <- _.
    eapply (psys_inv_insert s _ i p); [done|done|cbn; lia|done|cbn; by rewrite list_insert_insert_eq|].
    intros init Hinit HT. split; unfold alive; cbn; rewrite ?Hz; naive_solver.
  - inv_bind H. apply proc_at_inv in H0 as [-> Hp]. destruct (_ || _); [by injection H as <- _|].
    inv_bind H. done.
Qed.

(** What one turn of the loop of [adopt] does to the entries. *)
Lemma adopt_entry_spec cur init i ps j p :
  ps !! j = Some p -> exists p', adopt_entry cur init i ps !! j = Some p' /\
    pid p' = pid p /\ pchan p' = pchan p /\
    parent p' = (if decide (j = i /\ parent p = Some cur) then init else parent p) /\
    (pstate p' = pstate p \/ pstate p = SLEEPING /\ pstate p' = RUNNABLE) /\
    (forall z, ps !! i = Some z -> parent z = Some cur -> pstate z = ZOMBIE ->
       pstate p' = SLEEPING -> pchan p' <> ChProc <$> init).
Proof.
  intros Hj. unfold adopt_entry. destruct (ps !! i) as [z|] eqn:Hi.
  2: { exists p. rewrite decide_False by naive_solver. split_and!; auto; naive_solver. }
  destruct (decide (parent z = Some cur)) as [Hc|Hc].
  2: { exists p. rewrite decide_False by naive_solver. split_and!; auto; naive_solver. }
  set (p1 := if decide (j = i) then set_parent init p else p).
  assert (<[i := set_parent init z]> ps !! j = Some p1) as Hl.
  { subst p1. destruct (decide (j = i)) as [->|Hne]; [|by rewrite list_lookup_insert_ne].
    rewrite Hj in Hi. injection Hi as <-. apply list_lookup_insert_eq. by eapply lookup_lt_Some. }
  assert (pid p1 = pid p /\ pchan p1 = pchan p /\ pstate p1 = pstate p /\
    parent p1 = (if decide (j = i /\ parent p = Some cur) then init else parent p)) as (B1 & B2 & B3 & B4).
  { subst p1. destruct (decide (j = i)) as [->|Hne].
    - rewrite Hj in Hi. injection Hi as <-. by rewrite decide_True.
    - by rewrite decide_False by naive_solver. }
  clearbody p1. destruct (decide (pstate z = ZOMBIE)) as [Hz|Hz].
  2: { exists p1. rewrite Hl. split_and!; auto; naive_solver. }
  eexists. unfold wakeup1. rewrite list_lookup_fmap, Hl. split; [reflexivity|].
  destruct (decide (pstate p1 = SLEEPING /\ _)) as [Hs|Hs]; cbn [pid pchan parent pstate set_state]; rewrite ?B1, ?B2, ?B3, ?B4;
    split_and!; auto.
  - right. split; [rewrite <- B3; apply Hs|done].
  - intros _ _ _ _ Hsl Hch. apply Hs. by rewrite B2, B3.
Qed.

Lemma adopt_entry_length cur init i ps : length (adopt_entry cur init i ps) = length ps.
Proof.
  unfold adopt_entry, wakeup1. destruct (ps !! i); [|done].
  repeat case_decide; by rewrite ?length_fmap, ?length_insert.
Qed.

(** What [adopt] has done after the entries below [n]. *)
Definition adopted (cur : nat) (init : option nat) (ps : list proc) (n : nat) (ps' : list proc) : Prop :=
  length ps' = length ps /\
  forall j p, ps !! j = Some p -> exists p', ps' !! j = Some p' /\
    pid p' = pid p /\ pchan p' = pchan p /\
    parent p' = (if decide ((j < n)%nat /\ parent p = Some cur) then init else parent p) /\
    (pstate p' = pstate p \/ pstate p = SLEEPING /\ pstate p' = RUNNABLE) /\
    (forall k z, (k < n)%nat -> ps !! k = Some z -> parent z = Some cur -> pstate z = ZOMBIE ->
       pstate p' = SLEEPING -> pchan p' <> ChProc <$> init).

Lemma adopt_spec cur init ps : adopted cur init ps (length ps) (adopt cur init ps).
Proof.
  unfold adopt. apply for_range_ind; [lia| |].
  - split; [done|]. intros j p Hj. exists p. rewrite decide_False by lia. split_and!; auto; lia.
  - intros n ps1 [_ Hn] [Hlen Hps]. split; [by rewrite adopt_entry_length|].
    intros j p Hj. destruct (Hps j p Hj) as (p1 & Hp1 & A1 & A2 & A3 & A4 & A5).
    destruct (adopt_entry_spec cur init n ps1 j p1 Hp1) as (p2 & Hp2 & B1 & B2 & B3 & B4 & B5).
    destruct (lookup_lt_is_Some_2 ps n ltac:(lia)) as [z Hz].
    destruct (Hps n z Hz) as (z1 & Hz1 & _ & _ & Z3 & Z4 & _). rewrite decide_False in Z3 by lia.
    exists p2. split_and!; [done|congruence|congruence| | |].
    + rewrite B3. destruct (decide (j = n)) as [->|Hne].
      * rewrite decide_False in A3 by lia. rewrite A3. apply decide_ext. split; intros [? ?]; split; done || lia.
      * rewrite decide_False, A3 by (intros [? _]; done). apply decide_ext. split; intros [? ?]; split; done || lia.
    + destruct A4 as [E|[? E]], B4 as [E'|[? E']]; [left; congruence|right; split; congruence..].
    + intros k z' Hk Hk' Hpar Hzz Hs Hc. destruct (decide (k = n)) as [->|Hkn].
      * rewrite Hk' in Hz. injection Hz as ->. apply (B5 z1); try congruence.
        destruct Z4 as [?|[? _]]; congruence.
      * apply (A5 k z'); try done; [lia| |congruence]. destruct B4 as [?|[? ?]]; congruence.
Qed.

Lemma wakeup1_lookup c ps j q :
  ps !! j = Some q -> exists q', wakeup1 c ps !! j = Some q' /\ pid q' = pid q /\ pchan q' = pchan q /\
    parent q' = parent q /\ (pstate q' = pstate q \/ pstate q = SLEEPING /\ pstate q' = RUNNABLE) /\
    (pstate q' = SLEEPING -> pchan q' <> c).
Proof.
  intros Hj. eexists. unfold wakeup1. rewrite list_lookup_fmap, Hj. split; [reflexivity|].
  case_decide as Hs; cbn; split_and!; try done; auto.
  right. split; [apply Hs|done].
Qed.

Lemma exit_tail_effect cur s s' :
  exit_tail cur s = Ret s' tt -> initproc s <> Some cur ->
  initproc s' = initproc s /\ nextpid s' = nextpid s /\ length (ptable s') = length (ptable s) /\
  exists p, ptable s !! cur = Some p /\
  forall j q, ptable s !! j = Some q -> exists q', ptable s' !! j = Some q' /\ pid q' = pid q /\ pchan q' = pchan q /\
    parent q' = (if decide (parent q = Some cur) then initproc s else parent q) /\
    (if decide (j = cur) then pstate q' = ZOMBIE else
       (pstate q' = pstate q \/ pstate q = SLEEPING /\ pstate q' = RUNNABLE)) /\
    (pstate q' = SLEEPING -> pchan q' <> ChProc <$> parent p /\
       (pchan q' = ChProc <$> initproc s ->
        forall k z, ptable s !! k = Some z -> parent z = Some cur -> pstate z <> ZOMBIE)).
Proof.
  unfold exit_tail. intros H Hinit. inv_bind H. apply proc_at_inv in H0 as [-> Hp]. rewrite modify_bind in H.
  inv_bind H. injection H0 as <- <-. rewrite modify_bind in H. inv_upd H.
  cbn [ptable initproc nextpid upd_ptable] in *. set (ps1 := wakeup1 _ _) in *.
  destruct (adopt_spec cur (initproc s) ps1) as [Hlen Had].
  assert (length ps1 = length (ptable s)) as Hl1 by (unfold ps1, wakeup1; apply length_fmap).
  split_and!; [done|done|by rewrite length_insert, Hlen, Hl1|]. exists a. split; [done|].
  intros j q Hq. destruct (wakeup1_lookup (ChProc <$> parent a) _ j q Hq) as (q1 & Hq1 & A1 & A2 & A3 & A4 & A5).
  destruct (Had j q1 Hq1) as (q2 & Hq2 & B1 & B2 & B3 & B4 & B5).
  assert ((j < length ps1)%nat) as Hj by (by eapply lookup_lt_Some).
  assert (parent q2 = if decide (parent q = Some cur) then initproc s else parent q) as B3'.
  { rewrite B3, A3. apply decide_ext. tauto. }
  destruct (decide (j = cur)) as [->|Hne].
  - rewrite Hq2 in Hp0. injection Hp0 as <-.
    exists (set_state ZOMBIE q2). rewrite list_lookup_insert_eq by lia. cbn. split_and!; congruence || done.
  - exists q2. rewrite list_lookup_insert_ne by done. split_and!; try congruence || done.
    + destruct A4 as [?|[? ?]], B4 as [?|[? ?]]; [left; congruence|right; split; congruence..].
    + intros Hs. assert (pstate q1 = SLEEPING) as Hs1 by (destruct B4 as [?|[? ?]]; congruence).
      split; [rewrite B2; by apply A5|]. intros Hc k z Hk Hz Hzz.
      destruct (wakeup1_lookup (ChProc <$> parent a) _ k z Hk) as (z1 & Hz1 & _ & _ & Z3 & Z4 & _).
      apply (B5 k z1); [by eapply lookup_lt_Some| | | | |]; try done; [congruence|].
      destruct Z4 as [?|[? _]]; congruence.
Qed.

Lemma exit_inv cur s s' :
  psys_inv s -> running s cur -> initproc s <> Some cur -> exit_tail cur s = Ret s' tt -> psys_inv s'.
Proof.
  intros (init & Hinit & HI) (c & Hc & Hrun) Hne H.
  destruct (exit_tail_effect _ _ _ H Hne) as (Hin & Hnp & Hlen & p & Hp & Heff).
  rewrite Hc in Hp. injection Hp as <-. exists init. rewrite Hin, Hnp. split; [done|]. rewrite Hinit in *.
  assert (init <> cur) as Hic by congruence.
  assert (forall j q', ptable s' !! j = Some q' -> exists q, ptable s !! j = Some q) as Hl.
  { intros j q' Hq%lookup_lt_Some. apply lookup_lt_is_Some. lia. }
  assert (forall j q, ptable s !! j = Some q -> alive q -> j <> cur -> exists q', ptable s' !! j = Some q' /\ alive q') as Hr.
  { intros j q Hq Ha Hj. destruct (Heff j q Hq) as (q' & Hq' & _ & _ & _ & E & _). rewrite decide_False in E by done.
    exists q'. split; [done|]. unfold alive in *. destruct E as [->|[_ ->]]; auto. }
  assert (forall j q q', ptable s !! j = Some q -> ptable s' !! j = Some q' -> pid q' = pid q /\
     (pstate q' = UNUSED <-> pstate q = UNUSED)) as Hsame.
  { intros j q q' Hq Hq'. destruct (Heff j q Hq) as (q2 & Hq2 & E1 & _ & _ & E & _).
    rewrite Hq' in Hq2. injection Hq2 as <-. split; [done|]. destruct (decide (j = cur)) as [->|].
    - rewrite Hc in Hq. injection Hq as <-. rewrite E, Hrun. done.
    - destruct E as [->|[-> ->]]; done. }
  split.
  - intros j q' Hq' Hu. destruct (Hl _ _ Hq') as (q & Hq). destruct (Hsame j q q' Hq Hq') as [-> Hiff].
    apply (ti_pid _ _ _ HI j q Hq). tauto.
  - intros j k q1' q2' Hq1' Hq2' Hu1 Hu2. destruct (Hl _ _ Hq1') as (q1 & Hq1), (Hl _ _ Hq2') as (q2 & Hq2).
    destruct (Hsame j q1 q1' Hq1 Hq1') as [-> ?], (Hsame k q2 q2' Hq2 Hq2') as [-> ?].
    apply (ti_uniq _ _ _ HI j k q1 q2 Hq1 Hq2); tauto.
  - destruct (ti_init _ _ _ HI) as (q & Hq & Ha). by apply (Hr init q).
  - intros j q' k Hq' Hk. destruct (Hl _ _ Hq') as (q & Hq).
    destruct (Heff j q Hq) as (q2 & Hq2 & _ & _ & E & _). rewrite Hq' in Hq2. injection Hq2 as <-.
    rewrite (proj2 (Hsame j q q' Hq Hq')). rewrite E in Hk. destruct (decide (parent q = Some cur)) as [Hpc|Hpc].
    + injection Hk as <-. split; [by apply (ti_parent _ _ _ HI j q cur)|].
      destruct (ti_init _ _ _ HI) as (z & Hz & Ha). by apply (Hr init z).
    + destruct (ti_parent _ _ _ HI j q k Hq Hk) as (Hu & z & Hz & Ha). split; [done|].
      apply (Hr k z Hz Ha). congruence.
  - intros j q' Hq' Ha. destruct (Hl _ _ Hq') as (q & Hq).
    destruct (Heff j q Hq) as (q2 & Hq2 & _ & _ & E & Es & _). rewrite Hq' in Hq2. injection Hq2 as <-.
    assert (alive q \/ pstate q = ZOMBIE) as Ha'.
    { destruct (decide (j = cur)) as [->|]; [rewrite Hc in Hq; injection Hq as <-; left; unfold alive; auto|].
      unfold alive in *. destruct Es as [<-|[-> _]]; tauto. }
    destruct (ti_orphan _ _ _ HI j q Hq Ha') as [->|[k Hk]]; [by left|right].
    rewrite E. case_decide; [by exists init|by exists k].
  - intros q' Hq'. destruct (Hl _ _ Hq') as (q & Hq). destruct (Heff init q Hq) as (q2 & Hq2 & _ & _ & E & _).
    rewrite Hq' in Hq2. injection Hq2 as <-. rewrite E, (ti_root _ _ _ HI q Hq). done.
  - intros j q' Hq'. destruct (Hl _ _ Hq') as (q & Hq). destruct (Heff j q Hq) as (q2 & Hq2 & _ & _ & E & _).
    rewrite Hq' in Hq2. injection Hq2 as <-. rewrite E. case_decide as Hpc; [|by apply (ti_self _ _ _ HI)].
    intros [= <-]. rewrite (ti_root _ _ _ HI q Hq) in Hpc. done.
  - intros j q' Hq' Hs. destruct (Hl _ _ Hq') as (q & Hq).
    destruct (Heff j q Hq) as (q2 & Hq2 & _ & Ec & E & Es & _). rewrite Hq' in Hq2. injection Hq2 as <-.
    rewrite Ec. apply (ti_sleep _ _ _ HI j q Hq). destruct (decide (j = cur)); [congruence|].
    destruct Es as [?|[? ?]]; congruence.
  - intros j q' k Hq' Hs Hch. destruct (Hl _ _ Hq') as (q & Hq).
    destruct (Heff j q Hq) as (q2 & Hq2 & _ & Ec & E & Es & Ew). rewrite Hq' in Hq2. injection Hq2 as <-.
    destruct (Ew Hs) as [Hnotpar Hinitw]. rewrite Ec in Hch, Hnotpar, Hinitw.
    assert (pstate q = SLEEPING) as Hqs.
    { destruct (decide (j = cur)); [congruence|]. destruct Es as [?|[? ?]]; congruence. }
    destruct (ti_wait _ _ _ HI j q k Hq Hqs Hch) as [-> Hz]. split; [done|].
    intros i p' Hp' Hpar Hzz. destruct (Hl _ _ Hp') as (p & Hp).
    destruct (Heff i p Hp) as (p2 & Hp2 & _ & _ & F & Fs & _). rewrite Hp' in Hp2. injection Hp2 as <-.
    rewrite Hpar in F. destruct (decide (i = cur)) as [->|Hicur].
    + rewrite Hc in Hp. injection Hp as <-. pose proof (ti_self _ _ _ HI cur c Hc) as Hself.
      rewrite decide_False in F by done. apply Hnotpar. by rewrite <- F, Hch.
    + assert (pstate p = ZOMBIE) as Hpz by (destruct Fs as [?|[? ?]]; congruence).
      case_decide as Hpc; [|by apply (Hz i p)]. injection F as <-.
      by apply (Hinitw Hch i p).
Qed.

Lemma pstep_preserves trapret forkret kend s s1 :
  psys_inv s -> pstep trapret forkret kend s s1 -> psys_inv s1.
Proof.
  intros HI Hstep.
  inversion Hstep; subst; clear Hstep.
  - by eapply allocproc_inv.
  - by eapply fork_undo_inv.
  - by eapply fork_link_inv.
  - by eapply fork_run_inv.
  - by eapply schedule_inv.
  - apply (running_only s cur (set_state RUNNABLE) s1 tt); auto. intros p Hp. apply benign_running; auto.
  - eapply sleep_enter_inv; eauto. naive_solver.
  - apply (running_only s cur (set_pchan None) s1 tt); auto. intros p Hp. apply benign_running; auto.
  - unfold wakeup, modify in H. injection H as <-. apply (psys_inv_benign s); [done..|apply wakeup1_benign].
  - by eapply kill_inv.
  - by eapply exit_inv.
  - by eapply wait_inv.
  - by eapply wait_sleep_inv.
  - apply (psys_inv_benign s); [done..|]. cbn. by eapply benign_insert.
Qed.

Lemma steps_preserve trapret forkret kend s s' :
  psys_inv s -> rtc (pstep trapret forkret kend) s s' -> psys_inv s'.
Proof. intros HI Hst. revert HI. induction Hst; eauto using pstep_preserves. Qed.

(** The table after [userinit]: one process, the others unused. *)
Definition booted (s : psys) : Prop :=
  exists i p, initproc s = Some i /\ ptable s !! i = Some p /\ pstate p = RUNNABLE /\ parent p = None /\
    0 < pid p < nextpid s /\
    forall j q, j <> i -> ptable s !! j = Some q -> pstate q = UNUSED /\ parent q = None.

Lemma booted_inv s : booted s -> psys_inv s.
Proof.
  intros (i & p & Hinit & Hi & Hr & Hpar & Hpid & Hrest). exists i. split; [done|].
  assert (forall j q, ptable s !! j = Some q -> pstate q <> UNUSED -> j = i /\ q = p) as Honly.
  { intros j q Hj Hu. destruct (decide (j = i)) as [->|Hne]; [split; congruence|].
    by destruct (Hrest j q Hne Hj). }
  assert (forall j q, ptable s !! j = Some q -> parent q = None) as Hnone.
  { intros j q Hj. destruct (decide (j = i)) as [->|Hne]; [congruence|]. by destruct (Hrest j q Hne Hj). }
  split.
  - intros j q Hj Hu. by destruct (Honly j q Hj Hu) as [-> ->].
  - intros j k q1 q2 H1 H2 Hu1 Hu2 _. destruct (Honly j q1 H1 Hu1), (Honly k q2 H2 Hu2). congruence.
  - exists p. unfold alive. auto.
  - intros j q k Hj Hk. rewrite (Hnone j q Hj) in Hk. done.
  - intros j q Hj Ha. left. apply (Honly j q Hj). unfold alive in Ha. intros E. rewrite E in Ha. naive_solver.
  - intros q Hq. by apply (Hnone i).
  - intros j q Hq. by rewrite (Hnone j q Hq).
  - intros j q Hj Hs. destruct (Honly j q Hj) as [-> ->]; congruence.
  - intros j q k Hj Hs. destruct (Honly j q Hj) as [-> ->]; congruence.
Qed.

(** ** What the operations guarantee *)

(** C5: the process table stays well formed under every interleaving of the
    operations of proc.c from boot on: pids are positive and distinct, parents
    are alive, every live or zombie process but the first has a parent, and
    nobody sleeps in [wait] while it has a zombie child. *)
Theorem table_invariant trapret forkret kend s s' :
  booted s -> rtc (pstep trapret forkret kend) s s' -> psys_inv s'.
Proof. intros HB. apply steps_preserve. by apply booted_inv. Qed.

(** No zombie is lost: in every reachable state each zombie has a live
    parent, and that parent is not asleep in [wait], so it will find it. *)
Theorem zombie_has_reaper trapret forkret kend s s' i p :
  booted s -> rtc (pstep trapret forkret kend) s s' -> ptable s' !! i = Some p -> pstate p = ZOMBIE ->
  exists j q, parent p = Some j /\ ptable s' !! j = Some q /\ alive q /\
    ~ (pstate q = SLEEPING /\ pchan q = Some (ChProc j)) /\ zombie_child j (ptable s') <> None.
Proof.
  intros HB Hst Hi Hz. apply booted_inv in HB. destruct (steps_preserve _ _ _ _ _ HB Hst) as (init & Hinit & HI).
  destruct (ti_orphan _ _ _ HI i p Hi) as [->|[j Hj]]; [by right| |].
  - destruct (ti_init _ _ _ HI) as (q & Hq & Ha). apply alive_not in Ha. naive_solver.
  - destruct (ti_parent _ _ _ HI i p j Hi Hj) as (_ & q & Hq & Ha). exists j, q. split_and!; [done|done|done| |].
    + intros [Hs Hc]. destruct (ti_wait _ _ _ HI j q j Hq Hs Hc) as [_ Hnz]. by apply (Hnz i p).
    + intros Hnone. by apply (zombie_child_none _ _ Hnone i p).
Qed.

(** The kernel stack page [allocproc] prepares. *)
Definition stack_page (trapret forkret : Z) (pg : page) : page :=
  wr32 (memmove_in (wr32 pg 4016 trapret) 3996 (replicate 20 0)) 4012 forkret.

Lemma stack_writes trapret forkret kend a m :
  valid_page kend a ->
  store32 (a + 4012) forkret (store_bytes (a + 3996) (replicate (Z.to_nat sizeof_context) 0) (store32 (a + 4016) trapret m))
  = <[frame a := stack_page trapret forkret (page_at m (frame a))]> m.
Proof.
  intros Ha. unfold store32, store_bytes, stack_page, sizeof_context.
  destruct (byte_in_page kend a 4012 Ha) as (-> & -> & _); [unfold PGSIZE; lia|].
  destruct (byte_in_page kend a 4016 Ha) as (-> & -> & _); [unfold PGSIZE; lia|].
  destruct (byte_in_page kend a 3996 Ha) as (-> & -> & _); [unfold PGSIZE; lia|].
  rewrite !page_at_insert_eq, !insert_insert_eq. done.
Qed.

Lemma allocproc_law trapret forkret kend s i p a l :
  list_find (fun p => pstate p = UNUSED) (ptable s) = Some (i, p) -> kalloc_inv kend (km s) (a :: l) ->
  exists s' p', allocproc trapret forkret s = Ret s' (Some i) /\
    ptable s' = <[i := p']> (ptable s) /\ nextpid s' = i32 (nextpid s + 1) /\
    pstate p' = EMBRYO /\ pid p' = nextpid s /\ tickets p' = INIT_TICKETS /\ kstack p' = a /\
    tf p' = a + 4020 /\ context p' = a + 3996 /\ killed p' = killed p /\ parent p' = parent p /\
    kalloc_inv kend (km s') l /\
    page_at (mem (km s')) (frame a) = stack_page trapret forkret (page_at (mem (km s)) (frame a)).
Proof.
  intros Hf Hk. pose proof (proj1 (list_find_Some _ _ _ _) Hf) as (Hi & _ & _).
  destruct (kalloc_law _ _ _ _ Hk) as [R Hk']. pose proof (ki_valid _ _ _ Hk) as [Ha _]%Forall_cons.
  pose proof (ki_nodup _ _ _ Hk) as [Hnin _]%NoDup_cons. pose proof (valid_u32 _ _ Ha) as [_ Hnz].
  assert (forall off, 0 <= off < 4096 -> frame (a + off) = frame a /\ offset (a + off) = Z.to_nat off /\ u32 (a + off) = a + off) as Hb.
  { intros off Ho. by apply (byte_in_page kend). }
  assert (i < length (ptable s))%nat as Hlt by (by eapply lookup_lt_Some).
  unfold allocproc. rewrite gets_bind, Hf, gets_bind. mrun (upd_proc_ret i (fun p => set_tickets INIT_TICKETS (set_pid (nextpid s) (set_state EMBRYO p))) s p Hi).
  rewrite modify_bind. erewrite bind_ret by (apply inkm_ret; exact R).
  erewrite bind_ret by (apply upd_proc_ret; cbn; by apply list_lookup_insert_eq). cbv beta.
  rewrite (proj2 (Z.eqb_neq _ _)) by done. cbv zeta.
  assert (u32 (a + KSTACKSIZE - sizeof_trapframe) = a + 4020) as ->.
  { unfold KSTACKSIZE, sizeof_trapframe. rewrite <- (proj2 (proj2 (Hb 4020 ltac:(lia)))). f_equal. lia. }
  assert (u32 (a + 4020 - 4) = a + 4016) as ->.
  { rewrite <- (proj2 (proj2 (Hb 4016 ltac:(lia)))). f_equal. lia. }
  assert (u32 (a + 4016 - sizeof_context) = a + 3996) as ->.
  { unfold sizeof_context. rewrite <- (proj2 (proj2 (Hb 3996 ltac:(lia)))). f_equal. lia. }
  assert (u32 (a + 3996 + 16) = a + 4012) as ->.
  { rewrite <- (proj2 (proj2 (Hb 4012 ltac:(lia)))). f_equal. lia. }
  erewrite bind_ret by reflexivity.
  erewrite bind_ret by (apply upd_proc_ret; cbn; rewrite list_insert_insert_eq; by apply list_lookup_insert_eq). cbv beta.
  erewrite bind_ret by reflexivity. erewrite bind_ret by reflexivity.
  eexists _, _. split; [reflexivity|]. cbn [ptable upd_ptable set_km set_nextpid nextpid].
  rewrite !list_insert_insert_eq. cbn [km upd_ptable set_km set_nextpid].
  unfold upd_mem, set_freelist. cbn [mem freelist use_lock].
  rewrite (stack_writes _ _ kend) by done. split_and!; try reflexivity; [|apply page_at_insert_eq].
  apply (kalloc_inv_client _ (set_freelist (load32 a (mem (km s))) (km s))); [done| |].
  - apply mem_ok_insert; [apply Hk|]. unfold stack_page, wr32. rewrite wr_length, memmove_in_length, wr_length. apply Hk.
  - intros q Hq. rewrite page_at_insert_ne; [done|]. intros E.
    apply (frame_inj kend) in E; [by subst|done|]. pose proof (ki_valid _ _ _ Hk') as Hv.
    rewrite Forall_forall in Hv. by apply Hv.
Qed.

(** [allocproc] takes the first unused entry, gives it the next pid and ten
    tickets, and a kernel stack on which the first switch to it runs [forkret]
    and then returns to [trapret]; the rest of the free list is untouched. *)
Theorem allocproc_new trapret forkret kend s i p a l :
  is_u32 trapret -> is_u32 forkret ->
  list_find (fun p => pstate p = UNUSED) (ptable s) = Some (i, p) -> kalloc_inv kend (km s) (a :: l) ->
  exists s' p', allocproc trapret forkret s = Ret s' (Some i) /\
    ptable s' = <[i := p']> (ptable s) /\ nextpid s' = i32 (nextpid s + 1) /\ kalloc_inv kend (km s') l /\
    pstate p' = EMBRYO /\ pid p' = nextpid s /\ tickets p' = INIT_TICKETS /\ kstack p' = a /\
    load32 (context p' + 16) (mem (km s')) = forkret /\
    load32 (context p' + sizeof_context) (mem (km s')) = trapret /\
    tf p' = context p' + sizeof_context + 4 /\ tf p' + sizeof_trapframe = a + KSTACKSIZE.
Proof.
  intros Ht Hfr Hf Hk. pose proof (ki_valid _ _ _ Hk) as [Ha _]%Forall_cons.
  assert (length (page_at (mem (km s)) (frame a)) = 4096%nat) as Hlen by apply Hk.
  destruct (allocproc_law trapret forkret kend s i p a l Hf Hk)
    as (s' & p' & R & Hpt & Hnp & E1 & E2 & E3 & E4 & E5 & E6 & _ & _ & Hk' & Hpg).
  exists s', p'. unfold load32. rewrite E6, E5.
  replace (a + 3996 + 16) with (a + 4012) by lia. replace (a + 3996 + sizeof_context) with (a + 4016) by done || (unfold sizeof_context; lia).
  destruct (byte_in_page kend a 4012 Ha) as (-> & -> & _); [unfold PGSIZE; lia|].
  destruct (byte_in_page kend a 4016 Ha) as (-> & -> & _); [unfold PGSIZE; lia|].
  rewrite Hpg. unfold stack_page. change (Z.to_nat 4012) with 4012%nat. change (Z.to_nat 4016) with 4016%nat.
  split_and!; try done.
  - apply rd32_wr32_same; [|done]. unfold wr32. rewrite memmove_in_length, wr_length. lia.
  - rewrite rd32_wr32_other by lia. unfold rd32, rd. rewrite sub_memmove_other by (rewrite length_replicate; lia).
    apply rd32_wr32_same; [lia|done].
  - lia.
  - unfold sizeof_trapframe, KSTACKSIZE. lia.
Qed.

(** [kill] does not look at the state of the entry it marks.  An unused entry
    has pid 0, so killing pid 0 succeeds, marks the entry, and the next process
    allocated there starts out killed. *)
Theorem kill_zero_poisons trapret forkret kend s i p a l :
  list_find (fun p => pstate p = UNUSED) (ptable s) = Some (i, p) ->
  list_find (fun p => pid p = 0) (ptable s) = Some (i, p) -> kalloc_inv kend (km s) (a :: l) ->
  exists s1 s2 p2, kill 0 s = Ret s1 0 /\ allocproc trapret forkret s1 = Ret s2 (Some i) /\
    ptable s2 !! i = Some p2 /\ pstate p2 = EMBRYO /\ killed p2 = 1.
Proof.
  intros Hf Hz Hk. pose proof (proj1 (list_find_Some _ _ _ _) Hf) as (Hi & Hu & Hbefore).
  assert (i < length (ptable s))%nat as Hlt by (by eapply lookup_lt_Some).
  assert (kill 0 s = Ret (upd_ptable <[i := set_killed 1 p]> s) 0) as R1.
  { unfold kill. rewrite gets_bind, Hz. rewrite (bind_ret _ _ _ _ _ (upd_proc_ret _ _ _ _ Hi)). cbv zeta.
    rewrite decide_False by (cbn; congruence). done. }
  destruct (allocproc_law trapret forkret kend (upd_ptable <[i := set_killed 1 p]> s) i (set_killed 1 p) a l)
    as (s2 & p2 & R2 & Hpt & _ & E1 & _ & _ & _ & _ & _ & Ekill & _); [|done|].
  { apply list_find_Some. cbn. rewrite list_lookup_insert_eq by done. split_and!; [done|done|].
    intros j y Hj Hji. rewrite list_lookup_insert_ne in Hj by lia. by apply (Hbefore j). }
  exists (upd_ptable <[i := set_killed 1 p]> s), s2, p2. split_and!; try done.
  rewrite Hpt. cbn. rewrite list_insert_insert_eq. by apply list_lookup_insert_eq.
Qed.

(** [wait] returns the pid of a zombie child, makes its entry unused, and
    gives its kernel stack and every page of its address space back to the
    allocator; a process without children gets -1, and one with only live
    children goes to sleep. *)
Theorem wait_outcomes kend cur s p :
  ptable s !! cur = Some p ->
  match zombie_child cur (ptable s) with
  | Some (i, q) => forall K l tabs U, uspace kend K (km s) l (pgdir q) tabs U -> valid_page kend (kstack q) ->
      kstack q ∉ l -> ~ owned (pgdir q) tabs U (kstack q) ->
      exists s' q' l', wait kend cur s = Ret s' (pid q) /\ ptable s' = <[i := q']> (ptable s) /\
        pstate q' = UNUSED /\ pid q' = 0 /\ parent q' = None /\ killed q' = 0 /\
        kalloc_inv kend (km s') l' /\
        forall a, a ∈ l' <-> a ∈ l \/ a = kstack q \/ owned (pgdir q) tabs U a
  | None => if havekids cur (ptable s) && (killed p =? 0)
      then wait kend cur s =
        Sleep (ChProc cur) (upd_ptable <[cur := set_state SLEEPING (set_pchan (Some (ChProc cur)) p)]> s)
      else wait kend cur s = Ret s (-1)
  end.
Proof.
  intros Hp. unfold wait. rewrite gets_bind. destruct (zombie_child cur (ptable s)) as [[i q]|] eqn:Ez.
  - intros K l tabs U Hus Hks Hnl Hno. apply list_find_Some in Ez as (Hi & _ & _).
    assert (i < length (ptable s))%nat as Hlt by (by eapply lookup_lt_Some).
    destruct (kfree_law kend (km s) (kstack q) l) as (k1 & R1 & Hk1 & _ & Hf1); [apply Hus|done|done|].
    assert (uspace kend K k1 (kstack q :: l) (pgdir q) tabs U) as Hus1.
    { apply (uspace_transfer kend (km s) l); [done|done| |].
      - intros b Hb [->|Hbl]%elem_of_cons; [done|]. by apply (owned_valid kend) with (1 := Hus) in Hb as [_ ?].
      - intros b Hb. apply Hf1. intros E. apply (frame_inj kend) in E; [|by apply (owned_valid kend _ _ _ _ _ _ Hus); left|done].
        subst. apply Hno. by left. }
    destruct (freevm_law kend k1 _ _ _ _ Hus1) as (k2 & l2 & R2 & Hk2 & Hl2 & _).
    erewrite bind_ret by (apply inkm_ret; exact R1).
    erewrite bind_ret by (apply upd_proc_ret; exact Hi). erewrite bind_ret by (apply inkm_ret; exact R2).
    erewrite bind_ret by (apply upd_proc_ret; cbn; by apply list_lookup_insert_eq).
    eexists _, _, l2. split; [reflexivity|]. cbn [ptable upd_ptable set_km]. rewrite list_insert_insert_eq.
    split_and!; [reflexivity|done|done|done|done|done|]. intros b. rewrite Hl2, elem_of_cons. tauto.
  - rewrite (bind_ret _ _ _ _ _ (proc_at_ret _ _ _ Hp)).
    destruct (havekids cur (ptable s)), (killed p =? 0); try done. cbn [negb orb andb].
    unfold sleep_enter. rewrite (bind_ret _ _ _ _ _ (upd_proc_ret _ _ _ _ Hp)). done.
Qed.

(** ** Witnesses *)

Definition demo_proc (st : procstate) (n : Z) (q : option nat) (t : Z) : proc :=
  mk_proc 4096 1 0 st n q 0 0 None 0 [] None [0] t.
Definition demo_procs : list proc :=
  [demo_proc RUNNABLE 1 None 10; demo_proc SLEEPING 2 (Some 0%nat) 20; demo_proc RUNNABLE 3 (Some 0%nat) 30].
Definition demo_psys (ps : list proc) : psys := mk_psys ps 4 0 (Some 0%nat) rng_boot demo_kmem.

Lemma demo_lottery_ok : lottery_ok demo_procs.
Proof. split; [by repeat constructor|by vm_compute]. Qed.

Lemma lottery_proportional_witness :
  count (fun r => pick 0 demo_procs 0 r = Some 2%nat) 60 = 30 /\ count (fun r => pick 0 demo_procs 0 r = None) 60 = 20.
Proof.
  apply (lottery_proportional demo_procs 2 (demo_proc RUNNABLE 3 (Some 0%nat) 30)); [apply demo_lottery_ok|done|done].
Defined.

Lemma lottery_draw_bounds_witness :
  16372387 * 30 <= count (fun x => pick 0 demo_procs 0 (draw_ticket 60 x) = Some 2%nat) 982343222 <= 16372388 * 30.
Proof.
  apply (lottery_draw_bounds demo_procs 2 (demo_proc RUNNABLE 3 (Some 0%nat) 30)); [apply demo_lottery_ok|done|done|done].
Defined.

Lemma schedule_runs_winner_witness :
  exists r x s' res, random_at_most 10 982343221 rng_boot = Some (r, x) /\
    schedule 10 (demo_psys demo_procs) = Ret s' res /\ prng s' = r.
Proof.
  assert (match random_at_most 10 982343221 rng_boot with Some (_, x) => 0 <=? x | None => false end = true) as Hx.
  { vm_compute. reflexivity. }
  destruct (random_at_most 10 982343221 rng_boot) as [[r x]|] eqn:E; [|discriminate].
  destruct (schedule_runs_winner 10 (demo_psys demo_procs) r x) as (s' & res & R & _ & _ & Hr & _).
  - exact demo_lottery_ok.
  - by repeat constructor.
  - exact E.
  - by apply Z.leb_le.
  - exists r, x, s', res. split; [reflexivity|]. split; [exact R|exact Hr].
Defined.

(** A run from boot: the first process is scheduled, forks, waits; the child
    is scheduled and exits. *)
Definition result {A} (s : psys) (o : outcome psys A) : psys :=
  match o with Ret s' _ => s' | Sleep _ s' => s' | _ => s end.
Definition run0 : psys := demo_psys [demo_proc RUNNABLE 1 None 10; demo_proc UNUSED 0 None 0].
Definition run1 : psys := result run0 (schedule 10 run0).
Definition run2 : psys := result run1 (allocproc 1 2 run1).
Definition run3 : psys := result run2 (fork_link 1 0 run2).
Definition run4 : psys := result run3 (fork_run 1 run3).
Definition run5 : psys := result run4 (wait demo_end 0 run4).
Definition run6 : psys := result run5 (schedule 10 run5).
Definition run7 : psys := result run6 (exit_tail 1 run6).

Lemma run_booted : booted run0.
Proof.
  exists 0%nat, (demo_proc RUNNABLE 1 None 10). split_and!; [done|done|done|done|done|done|].
  intros [|[|j]] q Hne Hq; [done| |done]. injection Hq as <-. done.
Qed.

Lemma run_steps : rtc (pstep 1 2 demo_end) run0 run7.
Proof.
  apply (rtc_l _ _ run1). { apply (st_schedule _ _ _ _ 10 _ (Some 0%nat)). vm_compute. reflexivity. }
  apply (rtc_l _ _ run2). { apply (st_alloc _ _ _ _ _ (Some 1%nat)); vm_compute; reflexivity. }
  apply (rtc_l _ _ run3).
  { apply (st_link _ _ _ _ 1 0); [eexists; split_and!; vm_compute; reflexivity|eexists; split; vm_compute; reflexivity|].
    vm_compute. reflexivity. }
  apply (rtc_l _ _ run4).
  { apply (st_run _ _ _ _ 1 0); [eexists; split_and!; vm_compute; reflexivity|]. vm_compute. reflexivity. }
  apply (rtc_l _ _ run5).
  { apply (st_wait_sleep _ _ _ _ 0 (ChProc 0)); [eexists; split; vm_compute; reflexivity|]. vm_compute. reflexivity. }
  apply (rtc_l _ _ run6). { apply (st_schedule _ _ _ _ 10 _ (Some 1%nat)). vm_compute. reflexivity. }
  apply (rtc_l _ _ run7); [|apply rtc_refl].
  apply (st_exit _ _ _ _ 1); [eexists; split; vm_compute; reflexivity|vm_compute; discriminate|]. vm_compute. reflexivity.
Qed.

Lemma table_invariant_witness : psys_inv run7.
Proof. apply (table_invariant 1 2 demo_end run0); [apply run_booted|apply run_steps]. Defined.

Lemma zombie_has_reaper_witness : exists i p j, ptable run7 !! i = Some p /\ pstate p = ZOMBIE /\ parent p = Some j /\
  zombie_child j (ptable run7) <> None.
Proof.
  destruct (ptable run7 !! 1%nat) as [p|] eqn:Hp; [|vm_compute in Hp; discriminate].
  assert (pstate p = ZOMBIE) as Hz.
  { assert (Some (pstate p) = Some ZOMBIE) as E; [|by injection E].
    transitivity (pstate <$> ptable run7 !! 1%nat); [by rewrite Hp|vm_compute; reflexivity]. }
  destruct (zombie_has_reaper 1 2 demo_end run0 run7 1 p) as (j & q & Hj & _ & _ & _ & Hzc);
    [apply run_booted|apply run_steps|exact Hp|exact Hz|].
  exists 1%nat, p, j. split_and!; [exact Hp|exact Hz|exact Hj|exact Hzc].
Defined.

Lemma allocproc_new_witness : exists s' p', allocproc 1 2 run0 = Ret s' (Some 1%nat) /\ pstate p' = EMBRYO.
Proof.
  destruct (allocproc_new 1 2 demo_end run0 1 (demo_proc UNUSED 0 None 0) demo_end [])
    as (s' & p' & R & _ & _ & _ & E & _); [done|done|reflexivity|exact demo_kalloc|].
  exists s', p'. split; [exact R|exact E].
Defined.

Lemma kill_zero_poisons_witness : exists s1 s2 p2, kill 0 run0 = Ret s1 0 /\
  allocproc 1 2 s1 = Ret s2 (Some 1%nat) /\ ptable s2 !! 1%nat = Some p2 /\ killed p2 = 1.
Proof.
  destruct (kill_zero_poisons 1 2 demo_end run0 1 (demo_proc UNUSED 0 None 0) demo_end [])
    as (s1 & s2 & p2 & R1 & R2 & Hp & _ & Hk); [reflexivity|reflexivity|exact demo_kalloc|].
  exists s1, s2, p2. split_and!; [exact R1|exact R2|exact Hp|exact Hk].
Defined.

Lemma demo_stack : exists k l d a, uspace demo_end no_kernel k l d ∅ [] /\ valid_page demo_end a /\ (a ∉ l) /\
  ~ owned d ∅ [] a.
Proof.
  destruct (demo_uspace 5) as (k & l & d & Hus & Hl); [lia|]. destruct l as [|a l]; [done|].
  assert (kalloc_inv demo_end k (a :: l)) as Hk by apply Hus.
  pose proof (ki_nodup _ _ _ Hk) as [Hnin _]%NoDup_cons. pose proof (ki_valid _ _ _ Hk) as [Ha _]%Forall_cons.
  exists (set_freelist (load32 a (mem k)) k), l, d, a. split_and!; [|exact Ha|exact Hnin|].
  - apply (uspace_transfer demo_end k (a :: l)); [exact Hus|by apply (kalloc_law demo_end)| |done].
    intros b [_ Hb]%(owned_valid demo_end _ _ _ _ _ _ Hus). intros Hbl. apply Hb. by right.
  - intros [_ Hb]%(owned_valid demo_end _ _ _ _ _ _ Hus). apply Hb. by left.
Qed.

Lemma wait_outcomes_witness : exists s s', wait demo_end 0 s = Ret s' 7 /\ pstate <$> ptable s' !! 1%nat = Some UNUSED.
Proof.
  destruct demo_stack as (k & l & d & a & Hus & Ha & Hnin & Hno).
  set (z := mk_proc 4096 d a ZOMBIE 7 (Some 0%nat) 0 0 None 0 [] None [0] 10).
  set (s := mk_psys [demo_proc RUNNING 1 None 10; z] 8 0 (Some 0%nat) rng_boot k).
  destruct (wait_outcomes demo_end 0 s (demo_proc RUNNING 1 None 10) eq_refl no_kernel l ∅ [])
    as (s' & q' & l' & R & Hpt & Hu & _); [exact Hus|exact Ha|exact Hnin|exact Hno|].
  exists s, s'. split; [exact R|]. rewrite Hpt. cbn. by rewrite Hu.
Defined.
