(* ===== verification/StringC.v ===== *)
(** * StringC: the memory and string functions of string.c and ulib.c

    Functions that write take the array they write to; [memmove], whose source
    and destination may overlap, works on one array and two indices.  A string
    argument is the list of bytes from its pointer on; running off the end of a
    list is [None].  The theorems give closed forms: [memmove] is right for
    every overlap, [memset] with its word-wise case fills bytes, and [strncmp]
    decides equality of the zero-padded names that directories store. *)
From stdpp Require Import base numbers list gmap.
From Stdlib Require Import ZArith Lia.
From S2P Require Import Prelude Bytes.

Local Open Scope Z_scope.

(** ** string.c *)

Definition store_at (m : list Z) (i : nat) (v : Z) : option (list Z) :=
  if decide (i < length m)%nat then Some (<[i := v]> m) else None.

(** [stosb] and [stosl]: [cnt] stores of a byte or of a word. *)
Fixpoint stosb (m : list Z) (d : nat) (c : Z) (cnt : nat) : option (list Z) :=
  match cnt with
  | O => Some m
  | S cnt => m ← store_at m d (u8 c); stosb m (S d) c cnt
  end.
Fixpoint stosl (m : list Z) (d : nat) (w : Z) (cnt : nat) : option (list Z) :=
  match cnt with
  | O => Some m
  | S cnt => if decide (d + 4 <= length m)%nat then stosl (wr32 m d w) (d + 4) w cnt else None
  end.

(** The array starts at a word boundary, so the alignment is that of the index. *)
Definition memset (m : list Z) (dst : nat) (c : Z) (n : nat) : option (list Z) :=
  if decide (dst mod 4 = 0 /\ n mod 4 = 0)%nat then
    let c := Z.land c 0xFF in
    stosl m dst (u32 (Z.lor (Z.lor (Z.lor (Z.shiftl c 24) (Z.shiftl c 16)) (Z.shiftl c 8)) c)) (n / 4)
  else stosb m dst c n.

Fixpoint memcmp (s1 s2 : list Z) (n : nat) {struct n} : option Z :=
  match n with
  | O => Some 0
  | S n => match s1, s2 with
           | a :: s1, b :: s2 => if negb (a =? b) then Some (a - b) else memcmp s1 s2 n
           | _, _ => None
           end
  end.

(** [*--d = *--s], [n] times, from [d + n] and [s + n] down. *)
Fixpoint move_down (m : list Z) (d s n : nat) : option (list Z) :=
  match n with
  | O => Some m
  | S n => c ← m !! (s + n)%nat; m ← store_at m (d + n) c; move_down m d s n
  end.
(** [*d++ = *s++], [n] times. *)
Fixpoint move_up (m : list Z) (d s n : nat) : option (list Z) :=
  match n with
  | O => Some m
  | S n => c ← m !! s; m ← store_at m d c; move_up m (S d) (S s) n
  end.
Definition memmove (m : list Z) (d s n : nat) : option (list Z) :=
  if decide (s < d /\ d < s + n)%nat then move_down m d s n else move_up m d s n.
Definition memcpy (m : list Z) (d s n : nat) : option (list Z) := memmove m d s n.

Fixpoint strncmp (p q : list Z) (n : nat) {struct n} : option Z :=
  match n with
  | O => Some 0
  | S n => match p, q with
           | a :: p, b :: q => if negb (a =? 0) && (a =? b) then strncmp p q n else Some (u8 a - u8 b)
           | _, _ => None
           end
  end.

(** The [n] bytes [strncpy] writes. *)
Fixpoint strncpy (t : list Z) (n : nat) {struct n} : option (list Z) :=
  match n with
  | O => Some []
  | S n => match t with
           | c :: t => if c =? 0 then Some (c :: replicate n 0)
                       else s ← strncpy t n; Some (c :: s)
           | [] => None
           end
  end.

(** [safestrcpy] into the array [s] at index [i]. *)
Fixpoint safestrcpy_loop (s : list Z) (i : nat) (t : list Z) (n : nat) {struct n} : option (list Z) :=
  match n with
  | O => store_at s i 0
  | S n => match t with
           | c :: t => s ← store_at s i c; if c =? 0 then store_at s (S i) 0 else safestrcpy_loop s (S i) t n
           | [] => None
           end
  end.
Definition safestrcpy (s : list Z) (t : list Z) (n : Z) : option (list Z) :=
  if n <=? 0 then Some s else safestrcpy_loop s 0 t (Z.to_nat (n - 1)).

Fixpoint strlen (s : list Z) : option Z :=
  match s with
  | [] => None
  | c :: s => if c =? 0 then Some 0 else n ← strlen s; Some (n + 1)
  end.

(** ** ulib.c *)

Module Ulib.
Fixpoint strcmp (p q : list Z) : option Z :=
  match p, q with
  | a :: p, b :: q => if negb (a =? 0) && (a =? b) then strcmp p q else Some (u8 a - u8 b)
  | _, _ => None
  end.

(** The bytes [strcpy] writes. *)
Fixpoint strcpy (t : list Z) : option (list Z) :=
  match t with
  | [] => None
  | c :: t => if c =? 0 then Some [c] else s ← strcpy t; Some (c :: s)
  end.

Definition memset (m : list Z) (dst : nat) (c : Z) (n : nat) : option (list Z) := stosb m dst c n.

(** The index of the byte found; [Some None] is the null pointer. *)
Fixpoint strchr (s : list Z) (c : Z) : option (option nat) :=
  match s with
  | [] => None
  | a :: s => if a =? 0 then Some None else if a =? c then Some (Some O) else
                r ← strchr s c; Some (option_map S r)
  end.

(** [gets] over the bytes [read(0, &c, 1)] delivers: [None] is end of input.
    The result is the string stored, without its terminator, and the rest of
    the input. *)
Fixpoint gets_loop (i : nat) (fuel : nat) (max : Z) (inp : list Z) : list Z * list Z :=
  match fuel with
  | O => ([], inp)
  | S fuel =>
      if Z.of_nat i + 1 <? max then
        match inp with
        | [] => ([], [])
        | c :: inp =>
            if (c =? 10) || (c =? 13) then ([c], inp)
            else let (l, inp) := gets_loop (S i) fuel max inp in (c :: l, inp)
        end
      else ([], inp)
  end.
Definition gets (max : Z) (inp : list Z) : list Z * list Z := gets_loop 0 (Z.to_nat max) max inp.

Fixpoint atoi_loop (s : list Z) (n : Z) : option Z :=
  match s with
  | [] => None
  | c :: s => if (48 <=? c) && (c <=? 57) then atoi_loop s (i32 (n * 10 + c - 48)) else Some n
  end.
Definition atoi (s : list Z) : option Z := atoi_loop s 0.

(** [memmove] of the user library always copies upwards. *)
Definition memmove (m : list Z) (d s : nat) (n : Z) : option (list Z) := move_up m d s (Z.to_nat n).
End Ulib.

(** ** Moving memory *)

Lemma store_at_Some m i v : (i < length m)%nat -> store_at m i v = Some (<[i := v]> m).
Proof. intros. unfold store_at. by rewrite decide_True. Qed.

Lemma sub_bytes_cons b off n x :
  b !! off = Some x -> sub_bytes b off (S n) = x :: sub_bytes b (S off) n.
Proof. intros Hx. unfold sub_bytes. by rewrite (drop_S _ _ _ Hx). Qed.

Lemma sub_bytes_snoc b off n x :
  b !! (off + n)%nat = Some x -> sub_bytes b off (S n) = sub_bytes b off n ++ [x].
Proof. intros Hx. unfold sub_bytes. apply take_S_r. by rewrite lookup_drop. Qed.

Lemma sub_bytes_insert_out b off n i x :
  (i < off \/ off + n <= i)%nat -> sub_bytes (<[i := x]> b) off n = sub_bytes b off n.
Proof.
  intros H. apply list_eq. intros j. destruct (decide (j < n)%nat).
  - rewrite !sub_bytes_lookup, list_lookup_insert_ne by lia. done.
  - unfold sub_bytes. by rewrite !lookup_take_ge by lia.
Qed.

Lemma move_up_spec m d s n :
  (d <= s \/ s + n <= d)%nat -> (d + n <= length m)%nat -> (s + n <= length m)%nat ->
  move_up m d s n = Some (memmove_in m d (sub_bytes m s n)).
Proof.
  revert m d s. induction n as [|n IH]; intros m d s Hov Hd Hs; [done|].
  destruct (lookup_lt_is_Some_2 m s ltac:(lia)) as [x Hx]. cbn [move_up]. rewrite Hx. cbn [mbind option_bind].
  rewrite store_at_Some by lia. cbn [mbind option_bind]. rewrite IH by (rewrite ?length_insert; lia).
  rewrite (sub_bytes_cons _ _ _ _ Hx), sub_bytes_insert_out by lia.
  unfold memmove_in. cbn [list_inserts]. by rewrite list_insert_inserts_lt by lia.
Qed.

Lemma insert_inserts_ge (l k : list Z) i j x :
  (i + length k <= j)%nat -> <[j := x]> (list_inserts i k l) = list_inserts i k (<[j := x]> l).
Proof.
  revert i. induction k as [|y k IH]; intros i Hj; simpl in *; [done|].
  rewrite list_insert_insert_ne, IH by lia. done.
Qed.

Lemma move_down_spec m d s n :
  (s <= d)%nat -> (d + n <= length m)%nat ->
  move_down m d s n = Some (memmove_in m d (sub_bytes m s n)).
Proof.
  revert m. induction n as [|n IH]; intros m Hov Hd; [done|].
  destruct (lookup_lt_is_Some_2 m (s + n)%nat ltac:(lia)) as [x Hx]. cbn [move_down]. rewrite Hx. cbn [mbind option_bind].
  rewrite store_at_Some by lia. cbn [mbind option_bind]. rewrite IH by (rewrite ?length_insert; lia).
  rewrite (sub_bytes_snoc _ _ _ _ Hx), sub_bytes_insert_out by lia.
  unfold memmove_in. f_equal. rewrite list_inserts_app_l. cbn [list_inserts].
  assert (length (sub_bytes m s n) = n) as Hlen by (apply sub_bytes_length; lia).
  rewrite Hlen, (Nat.add_comm n d), insert_inserts_ge by lia. done.
Qed.

(** [memmove] copies correctly whatever the overlap: the destination gets
    the bytes the source had before the call, and nothing else changes. *)
Theorem memmove_overlap m d s n :
  (d + n <= length m)%nat -> (s + n <= length m)%nat ->
  memmove m d s n = Some (memmove_in m d (sub_bytes m s n)).
Proof.
  intros Hd Hs. unfold memmove. case_decide; [apply move_down_spec; lia|apply move_up_spec; lia].
Qed.

(** The user library's version is only right when it does not overlap upwards. *)
Lemma ulib_memmove_up m d s n :
  (d <= s \/ s + n <= d)%nat -> (d + n <= length m)%nat -> (s + n <= length m)%nat ->
  Ulib.memmove m d s (Z.of_nat n) = Some (memmove_in m d (sub_bytes m s n)).
Proof. intros. unfold Ulib.memmove. rewrite Nat2Z.id. by apply move_up_spec. Qed.

Lemma stosb_spec m d c n :
  (d + n <= length m)%nat -> stosb m d c n = Some (memmove_in m d (replicate n (u8 c))).
Proof.
  revert m d. induction n as [|n IH]; intros m d Hd; [done|]. cbn [stosb].
  rewrite store_at_Some by lia. cbn [mbind option_bind]. rewrite IH by (rewrite ?length_insert; lia).
  cbn [replicate]. unfold memmove_in. cbn [list_inserts]. by rewrite list_insert_inserts_lt by lia.
Qed.

Lemma memmove_in_join m d a b :
  memmove_in (memmove_in m d a) (d + length a) b = memmove_in m d (a ++ b).
Proof. unfold memmove_in. rewrite list_inserts_app_l. by rewrite Nat.add_comm. Qed.

Lemma memset_word c :
  0 <= c < 256 ->
  le_bytes 4 (u32 (Z.lor (Z.lor (Z.lor (Z.shiftl c 24) (Z.shiftl c 16)) (Z.shiftl c 8)) c)) = replicate 4 c.
Proof.
  intros Hc.
  assert (Forall (fun c => le_bytes 4 (u32 (Z.lor (Z.lor (Z.lor (Z.shiftl c 24) (Z.shiftl c 16)) (Z.shiftl c 8)) c))
    = replicate 4 c) (seqZ 0 256)) as HF.
  { apply (bool_decide_unpack _). vm_compute. exact I. }
  rewrite Forall_forall in HF. apply HF. apply elem_of_seqZ. lia.
Qed.

Lemma stosl_spec m d c w k :
  (d + 4 * k <= length m)%nat -> le_bytes 4 w = replicate 4 c ->
  stosl m d w k = Some (memmove_in m d (replicate (4 * k) c)).
Proof.
  intros Hd Hw. revert m d Hd. induction k as [|k IH]; intros m d Hd; [done|]. cbn [stosl].
  rewrite decide_True by lia. rewrite IH by (unfold wr32; rewrite ?wr_length; lia).
  unfold wr32, wr. rewrite Hw. f_equal.
  replace (replicate (4 * S k) c) with (replicate 4 c ++ replicate (4 * k) c)
    by (rewrite <- replicate_add; f_equal; lia).
  rewrite <- memmove_in_join. by rewrite length_replicate.
Qed.

(** [memset] fills the range with the low byte of [c], also in the case
    where it stores whole words. *)
Theorem memset_fills m d c n :
  (d + n <= length m)%nat -> memset m d c n = Some (memmove_in m d (replicate n (u8 c))).
Proof.
  intros Hd. unfold memset. case_decide as Ha; [|by apply stosb_spec].
  destruct Ha as [_ Hn]. assert (n = 4 * (n / 4))%nat as Hq by (apply Nat.Div0.div_exact; done).
  assert (Z.land c 0xFF = u8 c) as Hc by (change 0xFF with (Z.ones 8); by rewrite Z.land_ones).
  rewrite Hc. rewrite (stosl_spec _ _ (u8 c)); [|lia|].
  - by rewrite <- Hq.
  - apply memset_word. unfold u8. apply Z.mod_pos_bound. lia.
Qed.

(** ** Zero-padded names *)

(** The string at [p], cut or padded with zeros to [n] bytes. *)
Fixpoint pad (n : nat) (p : list Z) : list Z :=
  match n with
  | O => []
  | S n => match p with
           | [] => replicate (S n) 0
           | c :: p => if c =? 0 then replicate (S n) 0 else c :: pad n p
           end
  end.

(** [n] bytes can be read, or a terminator comes first. *)
Definition readable (n : nat) (p : list Z) : Prop := (n <= length p)%nat \/ 0 ∈ p.

Lemma readable_cons n c p : readable (S n) (c :: p) -> c <> 0 -> readable n p.
Proof. intros [Hl|Hz] Hc; [left; simpl in Hl; lia|right]. by apply elem_of_cons in Hz as [<-|Hz]. Qed.

Lemma readable_nil n : ~ readable (S n) [].
Proof. intros [Hl|Hz]; [simpl in Hl; lia|by apply not_elem_of_nil in Hz]. Qed.

Lemma pad_length n p : length (pad n p) = n.
Proof.
  revert p. induction n as [|n IH]; intros p; [done|]. destruct p as [|c p]; cbn [pad]; [apply length_replicate|].
  destruct (c =? 0); [apply length_replicate|]. cbn. by rewrite IH.
Qed.

Lemma pad_bytes n q : byte_list q -> byte_list (pad n q).
Proof.
  revert q. induction n as [|n IH]; intros q Bq; [constructor|].
  destruct q as [|c q]; cbn [pad]; [by apply Forall_replicate|]. apply Forall_cons in Bq as [Bc Bq].
  destruct (c =? 0); [by apply Forall_replicate|]. constructor; [done|]. by apply IH.
Qed.

Lemma pad_pad n p : pad n (pad n p) = pad n p.
Proof.
  revert p. induction n as [|n IH]; intros p; [done|]. destruct p as [|c p]; cbn [pad]; [done|].
  destruct (c =? 0) eqn:Hc; cbn [replicate]; [done|]. by rewrite Hc, IH.
Qed.

Lemma strncpy_pad t n : readable n t -> strncpy t n = Some (pad n t).
Proof.
  revert t. induction n as [|n IH]; intros t Hr; [done|]. destruct t as [|c t]; [by apply readable_nil in Hr|].
  cbn [strncpy pad]. destruct (c =? 0) eqn:Hc; [apply Z.eqb_eq in Hc; by rewrite Hc|].
  apply Z.eqb_neq in Hc. rewrite IH by (by eapply readable_cons). done.
Qed.

Lemma u8_byte a : 0 <= a < 256 -> u8 a = a.
Proof. intros. by apply Z.mod_small. Qed.

Lemma strncmp_total p q n : readable n p -> readable n q -> byte_list p -> byte_list q ->
  exists r, strncmp p q n = Some r /\ (r = 0 <-> pad n p = pad n q).
Proof.
  revert p q. induction n as [|n IH]; intros p q Hp Hq Bp Bq; [by exists 0|].
  destruct p as [|a p]; [by apply readable_nil in Hp|]. destruct q as [|b q]; [by apply readable_nil in Hq|].
  apply Forall_cons in Bp as [Ba Bp]. apply Forall_cons in Bq as [Bb Bq]. cbn [strncmp pad].
  destruct (Z.eqb_spec a 0) as [->|Ha]; cbn [negb andb].
  - exists (u8 0 - u8 b). split; [done|]. rewrite !u8_byte by done. destruct (Z.eqb_spec b 0) as [->|Hb]; [done|].
    cbn [replicate]. split; [lia|]. intros [= ? _]. lia.
  - destruct (Z.eqb_spec a b) as [<-|Hab].
    + rewrite (proj2 (Z.eqb_neq a 0)) by done.
      destruct (IH p q) as (r & Hr & Hiff); [by eapply readable_cons|by eapply readable_cons|done|done|].
      exists r. split; [done|]. rewrite Hiff. split; [by intros ->|by intros [= ?]].
    + exists (u8 a - u8 b). split; [done|]. rewrite !u8_byte by done. destruct (Z.eqb_spec b 0) as [->|Hb].
      * cbn [replicate]. split; [lia|]. intros [= ? _]. lia.
      * split; [lia|]. intros [= ? _]. lia.
Qed.

(** [strncmp] returns 0 exactly for strings whose zero-padded prefixes of
    [n] bytes agree, and [strncpy] stores exactly that padded prefix, so a name
    copied into a directory entry compares equal to itself and to nothing else. *)
Theorem strncmp_strncpy p q n :
  readable n p -> readable n q -> byte_list p -> byte_list q ->
  exists d r, strncpy q n = Some d /\ length d = n /\ strncmp p d n = Some r /\ (r = 0 <-> pad n p = pad n q).
Proof.
  intros Hp Hq Bp Bq. exists (pad n q).
  assert (byte_list (pad n q)) as Bd by (by apply pad_bytes).
  destruct (strncmp_total p (pad n q) n) as (r & Hr & Hiff); [done|left; by rewrite pad_length|done|done|].
  exists r. rewrite pad_pad in Hiff. split_and!; [by apply strncpy_pad|apply pad_length|done|done..].
Qed.

(** [safestrcpy] leaves a terminated string in the first [n] bytes. *)
Lemma safestrcpy_terminates s t n :
  0 < n <= Z.of_nat (length s) -> readable (Z.to_nat n) t ->
  exists s' k, safestrcpy s t n = Some s' /\ length s' = length s /\ (k < Z.to_nat n)%nat /\ s' !! k = Some 0 /\
    take k s' = take k t.
Proof.
  intros Hn Ht. unfold safestrcpy. rewrite (proj2 (Z.leb_gt _ _)) by lia.
  assert (forall m i s t, (i + m < length s)%nat -> readable (S m) t ->
    exists s' k, safestrcpy_loop s i t m = Some s' /\ length s' = length s /\ (k <= m)%nat /\ s' !! (i + k)%nat = Some 0 /\
      sub_bytes s' i k = take k t /\ take i s' = take i s) as HL.
  { clear. induction m as [|m IH]; intros i s t Hi Hr.
    - exists (<[i := 0]> s), 0%nat. cbn [safestrcpy_loop]. rewrite store_at_Some by lia.
      rewrite length_insert, Nat.add_0_r, list_lookup_insert_eq, take_insert_ge by lia. done.
    - destruct t as [|c t]; [by apply readable_nil in Hr|]. cbn [safestrcpy_loop].
      rewrite store_at_Some by lia. cbn [mbind option_bind]. destruct (Z.eqb_spec c 0) as [->|Hc].
      + rewrite store_at_Some by (rewrite length_insert; lia). eexists _, 0%nat. split; [reflexivity|].
        rewrite !length_insert, Nat.add_0_r. split_and!; [done|lia| |done|].
        * rewrite list_lookup_insert_ne, list_lookup_insert_eq by lia. done.
        * rewrite !take_insert_ge by lia. done.
      + destruct (IH (S i) (<[i := c]> s) t) as (s' & k & E & Hl & Hk & Hz & Hs & Ht').
        { rewrite length_insert. lia. } { by eapply readable_cons. }
        rewrite length_insert in Hl.
        exists s', (S k). split_and!; [done|done|lia|by rewrite Nat.add_succ_r| |].
        * assert (s' !! i = Some c) as Hc'.
          { rewrite <- (lookup_take_lt s' (S i)) by lia. rewrite Ht', lookup_take_lt by lia.
            apply list_lookup_insert_eq. lia. }
          rewrite (sub_bytes_cons _ _ _ _ Hc'). cbn. by rewrite Hs.
        * apply (f_equal (take i)) in Ht'. rewrite !take_take, !Nat.min_l in Ht' by lia.
          rewrite Ht', take_insert_ge by lia. done. }
  destruct (HL (Z.to_nat (n - 1)) 0%nat s t) as (s' & k & E & Hl & Hk & Hz & Hs & _); [lia| |].
  - by replace (S (Z.to_nat (n - 1))) with (Z.to_nat n) by lia.
  - exists s', k. split_and!; [done|done|lia|done|exact Hs].
Qed.

(** ** Witnesses *)

Lemma memmove_overlap_witness : memmove [1; 2; 3; 4; 5] 1 0 3 = Some [1; 1; 2; 3; 5].
Proof. refine (memmove_overlap [1; 2; 3; 4; 5] 1 0 3 _ _); simpl; lia. Defined.

Lemma memset_fills_witness : memset [9; 9; 9; 9; 9] 0 263 4 = Some [7; 7; 7; 7; 9].
Proof. refine (memset_fills [9; 9; 9; 9; 9] 0 263 4 _); simpl; lia. Defined.

Lemma strncmp_strncpy_witness :
  exists d r, strncpy [97; 98; 0] 4 = Some d /\ strncmp [97; 98; 0; 1] d 4 = Some r /\ r = 0.
Proof.
  destruct (strncmp_strncpy [97; 98; 0; 1] [97; 98; 0] 4) as (d & r & E1 & _ & E2 & Hr).
  - left. simpl. lia.
  - right. set_solver.
  - by repeat constructor.
  - by repeat constructor.
  - exists d, r. split; [exact E1|]. split; [exact E2|]. by apply Hr.
Defined.
