(* ===== verification/Fs.v ===== *)
(** * Fs: blocks, inodes, directories and paths (fs.c)

    The layers of fs.c on top of the log: the bitmap allocator, the inode
    cache and the inodes on disk, file contents through [bmap], directories,
    and path lookup.  Disk blocks are read and written with the operations of
    Bio and Log, field by field as the C structs lie in them. *)
From stdpp Require Import base numbers list gmap strings.
From Stdlib Require Import ZArith Lia.
From S2P Require Import Prelude Bytes StringC Buf Bio Log.

Local Open Scope Z_scope.

(** ** Data *)

Definition ROOTINO : Z := 1.
Definition NDIRECT : nat := 12.
Definition NINDIRECT : nat := 128.
Definition MAXFILE : Z := 140.
Definition IPB : Z := 8.
Definition BPB : Z := 4096.
Definition DIRSIZ : nat := 14.
Definition NINODE : nat := 50.
Definition NDEV : Z := 10.
Definition T_DIR : Z := 1.
Definition T_FILE : Z := 2.
Definition T_DEV : Z := 3.
Definition I_BUSY : Z := 1.
Definition I_VALID : Z := 2.
Definition sizeof_dinode : nat := 64.
Definition sizeof_dirent : Z := 16.
Definition BSIZEz : Z := 512.

Definition IBLOCK (i : Z) (sb : superblock) : Z := u32 (i / IPB + sb_inodestart sb).
Definition BBLOCK (b : Z) (sb : superblock) : Z := u32 (b / BPB + sb_bmapstart sb).

(** [struct inode]. *)
Record inode := mk_inode {
  idev : Z;
  inum : Z;
  iref : Z;
  iflags : Z;
  itype : Z;
  imajor : Z;
  iminor : Z;
  inlink : Z;
  isize : Z;
  addrs : list Z
}.
Definition set_id (d n r f : Z) (ip : inode) : inode :=
  mk_inode d n r f (itype ip) (imajor ip) (iminor ip) (inlink ip) (isize ip) (addrs ip).
Definition set_ref (r : Z) (ip : inode) : inode :=
  mk_inode (idev ip) (inum ip) r (iflags ip) (itype ip) (imajor ip) (iminor ip) (inlink ip) (isize ip) (addrs ip).
Definition set_iflags (f : Z) (ip : inode) : inode :=
  mk_inode (idev ip) (inum ip) (iref ip) f (itype ip) (imajor ip) (iminor ip) (inlink ip) (isize ip) (addrs ip).
Definition set_meta (t ma mi nl sz : Z) (a : list Z) (ip : inode) : inode :=
  mk_inode (idev ip) (inum ip) (iref ip) (iflags ip) t ma mi nl sz a.
Definition set_itype (t : Z) (ip : inode) : inode :=
  set_meta t (imajor ip) (iminor ip) (inlink ip) (isize ip) (addrs ip) ip.
Definition set_dev (ma mi nl : Z) (ip : inode) : inode :=
  set_meta (itype ip) ma mi nl (isize ip) (addrs ip) ip.
Definition set_nlink (nl : Z) (ip : inode) : inode :=
  set_meta (itype ip) (imajor ip) (iminor ip) nl (isize ip) (addrs ip) ip.
Definition set_isize (sz : Z) (ip : inode) : inode :=
  set_meta (itype ip) (imajor ip) (iminor ip) (inlink ip) sz (addrs ip) ip.
Definition set_addrs (a : list Z) (ip : inode) : inode :=
  set_meta (itype ip) (imajor ip) (iminor ip) (inlink ip) (isize ip) a ip.

(** [sb], [icache], and the log with the disk below. *)
Record fs_state := mk_fs { fsb : superblock; icache : list inode; fls : log_state }.

Definition inlog {A} (m : M log_state A) : M fs_state A :=
  zoom fls (fun l s => mk_fs (fsb s) (icache s) l) m.
Definition inbuf {A} (m : M bio_state A) : M fs_state A := inlog (inbio m).
Definition getsb : M fs_state superblock := gets fsb.
Definition setsb (sb : superblock) : M fs_state unit := modify (fun s => mk_fs sb (icache s) (fls s)).
Definition inode_at (i : nat) : M fs_state inode := let* c := gets icache in from_opt (c !! i).
Definition upd_inode (i : nat) (f : inode -> inode) : M fs_state unit :=
  let* ip := inode_at i in
  modify (fun s => mk_fs (fsb s) (<[i := f ip]> (icache s)) (fls s)).
Definition wakeup_inode (i : nat) : M fs_state unit := inbuf (modify (add_woken (ChInode i))).

Section fs.
Context `{BlockDriver}.

(** ** Blocks *)

Definition bzero (d bno : Z) : M fs_state unit :=
  let* bp := inbuf (bread d (u32 bno)) in
  inbuf (buf_store bp (replicate BSIZE 0)) ;;;
  inlog (log_write bp) ;;;
  inbuf (brelse bp).

(** [bp->data[bi/8] & m] with [m = 1 << (bi % 8)]. *)
Definition bitmask (bi : nat) : Z := Z.shiftl 1 (Z.of_nat (bi mod 8)).
Definition bit_at (d : block) (bi : nat) : bool := hasf (bitmask bi) (d !!! (bi / 8)%nat).
Definition set_bit (d : block) (bi : nat) : block := <[(bi / 8)%nat := Z.lor (d !!! (bi / 8)%nat) (bitmask bi)]> d.
Definition clear_bit (d : block) (bi : nat) : block :=
  <[(bi / 8)%nat := Z.land (d !!! (bi / 8)%nat) (Z.lnot (bitmask bi))]> d.

(** The inner loop of [balloc]: the first free bit from [bi] on. *)
Fixpoint free_bit (fuel bi : nat) (d : block) (b size : Z) : option nat :=
  match fuel with
  | O => None
  | S fuel => if (Z.of_nat bi <? BPB) && (b + Z.of_nat bi <? size)
              then if bit_at d bi then free_bit fuel (S bi) d b size else Some bi
              else None
  end.

(** Allocate a zeroed disk block. *)
Fixpoint balloc_loop (fuel : nat) (d b : Z) : M fs_state Z :=
  match fuel with
  | O => fault
  | S fuel =>
      let* sb := getsb in
      if b <? sb_size sb then
        let* bp := inbuf (bread d (BBLOCK b sb)) in
        let* c := inbuf (buf_data bp) in
        match free_bit (Z.to_nat BPB) 0 c b (sb_size sb) with
        | Some bi =>
            inbuf (buf_store bp (set_bit c bi)) ;;;
            inlog (log_write bp) ;;;
            inbuf (brelse bp) ;;;
            bzero d (b + Z.of_nat bi) ;;;
            ret (u32 (b + Z.of_nat bi))
        | None =>
            inbuf (brelse bp) ;;;
            balloc_loop fuel d (b + BPB)
        end
      else panic "balloc: out of blocks"
  end.
Definition balloc (d : Z) : M fs_state Z :=
  let* sb := getsb in
  balloc_loop (S (Z.to_nat (sb_size sb))) d 0.

Definition bfree (d b : Z) : M fs_state unit :=
  let* sb := inbuf (readsb d) in
  setsb sb ;;;
  let* bp := inbuf (bread d (BBLOCK b sb)) in
  let bi := Z.to_nat (b mod BPB) in
  let* c := inbuf (buf_data bp) in
  if negb (bit_at c bi) then panic "freeing free block"
  else
    inbuf (buf_store bp (clear_bit c bi)) ;;;
    inlog (log_write bp) ;;;
    inbuf (brelse bp).

(** ** Inodes *)

Definition iinit (d : Z) : M fs_state unit :=
  let* sb := inbuf (readsb d) in
  setsb sb.

(** The offset of [dip], the dinode of number [inum], in its block. *)
Definition dinode_off (n : Z) : nat := (Z.to_nat (n mod IPB) * sizeof_dinode)%nat.

Definition iget (d n : Z) : M fs_state nat :=
  let* c := gets icache in
  match list_find (fun ip => 0 < iref ip /\ idev ip = d /\ inum ip = n) c with
  | Some (i, ip) =>
      upd_inode i (set_ref (i32 (iref ip + 1))) ;;;
      ret i
  | None =>
      match list_find (fun ip => iref ip = 0) c with
      | None => panic "iget: no inodes"
      | Some (i, _) =>
          upd_inode i (set_id d n 1 0) ;;;
          ret i
      end
  end.

Fixpoint ialloc_loop (fuel : nat) (d type n : Z) : M fs_state nat :=
  match fuel with
  | O => fault
  | S fuel =>
      let* sb := getsb in
      if n <? sb_ninodes sb then
        let* bp := inbuf (bread d (IBLOCK n sb)) in
        let* c := inbuf (buf_data bp) in
        let o := dinode_off n in
        if i16 (rd16 c o) =? 0 then
          inbuf (buf_store bp (wr16 (memmove_in c o (replicate sizeof_dinode 0)) o type)) ;;;
          inlog (log_write bp) ;;;
          inbuf (brelse bp) ;;;
          iget d n
        else
          inbuf (brelse bp) ;;;
          ialloc_loop fuel d type (n + 1)
      else panic "ialloc: no inodes"
  end.
Definition ialloc (d type : Z) : M fs_state nat :=
  let* sb := getsb in
  ialloc_loop (S (Z.to_nat (sb_ninodes sb))) d type 1.

(** The fields of a dinode at offset [o] of a block. *)
Definition enc_addrs (a : list Z) : list Z := a ≫= le_bytes 4.
Definition enc_dinode (c : block) (o : nat) (ip : inode) : block :=
  let c := wr16 c o (itype ip) in
  let c := wr16 c (o + 2) (imajor ip) in
  let c := wr16 c (o + 4) (iminor ip) in
  let c := wr16 c (o + 6) (inlink ip) in
  let c := wr32 c (o + 8) (isize ip) in
  memmove_in c (o + 12) (enc_addrs (addrs ip)).
Definition dec_addrs (c : block) (o : nat) : list Z := (fun j => rd32 c (o + 4 * j)) <$> seq 0 (S NDIRECT).
Definition dec_dinode (c : block) (o : nat) (ip : inode) : inode :=
  set_meta (i16 (rd16 c o)) (i16 (rd16 c (o + 2))) (i16 (rd16 c (o + 4))) (i16 (rd16 c (o + 6)))
    (rd32 c (o + 8)) (dec_addrs c (o + 12)) ip.

Definition iupdate (i : nat) : M fs_state unit :=
  let* ip := inode_at i in
  let* sb := getsb in
  let* bp := inbuf (bread (idev ip) (IBLOCK (inum ip) sb)) in
  let* c := inbuf (buf_data bp) in
  inbuf (buf_store bp (enc_dinode c (dinode_off (inum ip)) ip)) ;;;
  inlog (log_write bp) ;;;
  inbuf (brelse bp).

Definition idup (i : nat) : M fs_state nat :=
  upd_inode i (fun ip => set_ref (i32 (iref ip + 1)) ip) ;;;
  ret i.

(** One pass of the loop of [ilock]: it sleeps while the inode is busy. *)
Definition ilock (i : nat) : M fs_state unit :=
  let* ip := inode_at i in
  if iref ip <? 1 then panic "ilock"
  else if hasf I_BUSY (iflags ip) then sleep_on (ChInode i)
  else
    upd_inode i (fun ip => set_iflags (Z.lor (iflags ip) I_BUSY) ip) ;;;
    if negb (hasf I_VALID (iflags ip)) then
      let* sb := getsb in
      let* bp := inbuf (bread (idev ip) (IBLOCK (inum ip) sb)) in
      let* c := inbuf (buf_data bp) in
      upd_inode i (dec_dinode c (dinode_off (inum ip))) ;;;
      inbuf (brelse bp) ;;;
      upd_inode i (fun ip => set_iflags (Z.lor (iflags ip) I_VALID) ip) ;;;
      let* ip := inode_at i in
      if itype ip =? 0 then panic "ilock: no type" else ret tt
    else ret tt.

Definition iunlock (i : nat) : M fs_state unit :=
  let* ip := inode_at i in
  if negb (hasf I_BUSY (iflags ip)) || (iref ip <? 1) then panic "iunlock"
  else
    upd_inode i (fun ip => set_iflags (Z.land (iflags ip) (Z.lnot I_BUSY)) ip) ;;;
    wakeup_inode i.

(** ** Inode content *)

(** The entry [bn] of the indirect block [addr], allocated if there is none. *)
Definition bmap_entry (d addr : Z) (bn : nat) : M fs_state Z :=
  let* bp := inbuf (bread d addr) in
  let* c := inbuf (buf_data bp) in
  let addr := rd32 c (4 * bn) in
  let* addr :=
    (if addr =? 0 then
       let* addr := balloc d in
       let* c := inbuf (buf_data bp) in
       inbuf (buf_store bp (wr32 c (4 * bn) addr)) ;;;
       inlog (log_write bp) ;;;
       ret addr
     else ret addr) in
  inbuf (brelse bp) ;;;
  ret addr.

Definition bmap (i : nat) (bn : Z) : M fs_state Z :=
  let* ip := inode_at i in
  if bn <? Z.of_nat NDIRECT then
    let* addr := from_opt (addrs ip !! Z.to_nat bn) in
    if addr =? 0 then
      let* addr := balloc (idev ip) in
      upd_inode i (fun ip => set_addrs (<[Z.to_nat bn := addr]> (addrs ip)) ip) ;;;
      ret addr
    else ret addr
  else
    let bn := bn - Z.of_nat NDIRECT in
    if bn <? Z.of_nat NINDIRECT then
      let* addr := from_opt (addrs ip !! NDIRECT) in
      let* addr :=
        (if addr =? 0 then
           let* addr := balloc (idev ip) in
           upd_inode i (fun ip => set_addrs (<[NDIRECT := addr]> (addrs ip)) ip) ;;;
           ret addr
         else ret addr) in
      bmap_entry (idev ip) addr (Z.to_nat bn)
    else panic "bmap: out of range".

Definition itrunc (i : nat) : M fs_state unit :=
  for_M 0 NDIRECT (fun j =>
    let* ip := inode_at i in
    let* a := from_opt (addrs ip !! j) in
    whenM (negb (a =? 0))
      (bfree (idev ip) a ;;;
       upd_inode i (fun ip => set_addrs (<[j := 0]> (addrs ip)) ip))) ;;;
  (let* ip := inode_at i in
   let* a := from_opt (addrs ip !! NDIRECT) in
   whenM (negb (a =? 0))
     (let* bp := inbuf (bread (idev ip) a) in
      for_M 0 NINDIRECT (fun j =>
        let* c := inbuf (buf_data bp) in
        let a := rd32 c (4 * j) in
        whenM (negb (a =? 0)) (bfree (idev ip) a)) ;;;
      inbuf (brelse bp) ;;;
      bfree (idev ip) a ;;;
      upd_inode i (fun ip => set_addrs (<[NDIRECT := 0]> (addrs ip)) ip))) ;;;
  upd_inode i (set_isize 0) ;;;
  iupdate i.

(** Drop a reference; the last one of an unlinked inode frees it on disk. *)
Definition iput (i : nat) : M fs_state unit :=
  let* ip := inode_at i in
  whenM ((iref ip =? 1) && hasf I_VALID (iflags ip) && (inlink ip =? 0))
    (if hasf I_BUSY (iflags ip) then panic "iput busy"
     else
       upd_inode i (fun ip => set_iflags (Z.lor (iflags ip) I_BUSY) ip) ;;;
       itrunc i ;;;
       upd_inode i (set_itype 0) ;;;
       iupdate i ;;;
       upd_inode i (set_iflags 0) ;;;
       wakeup_inode i) ;;;
  upd_inode i (fun ip => set_ref (i32 (iref ip - 1)) ip).

Definition iunlockput (i : nat) : M fs_state unit :=
  iunlock i ;;; iput i.

(** [struct stat], as [stati] fills it. *)
Record stat := mk_stat { st_type : Z; st_dev : Z; st_ino : Z; st_nlink : Z; st_size : Z }.
Definition stati (i : nat) : M fs_state stat :=
  let* ip := inode_at i in
  ret (mk_stat (itype ip) (i32 (idev ip)) (inum ip) (inlink ip) (isize ip)).

(** [devsw]: the device functions, null or not.  A read gives its result and
    the bytes it stored. *)
Record devops := mk_devops {
  dread : option (nat -> Z -> M fs_state (Z * list Z));
  dwrite : option (nat -> list Z -> Z -> M fs_state Z)
}.
Context (devsw : list devops).

Definition dev_read (ma : Z) : option (nat -> Z -> M fs_state (Z * list Z)) :=
  if (ma <? 0) || (NDEV <=? ma) then None else devsw !! Z.to_nat ma ≫= dread.
Definition dev_write (ma : Z) : option (nat -> list Z -> Z -> M fs_state Z) :=
  if (ma <? 0) || (NDEV <=? ma) then None else devsw !! Z.to_nat ma ≫= dwrite.

(** The loop of [readi]: [n] bytes are left to read from [off] on. *)
Fixpoint readi_loop (fuel i : nat) (off n : Z) : M fs_state (list Z) :=
  match fuel with
  | O => fault
  | S fuel =>
      if 0 <? n then
        let* ip := inode_at i in
        let* addr := bmap i (off / BSIZEz) in
        let* bp := inbuf (bread (idev ip) addr) in
        let m := Z.min n (BSIZEz - off mod BSIZEz) in
        let* c := inbuf (buf_data bp) in
        inbuf (brelse bp) ;;;
        let* rest := readi_loop fuel i (u32 (off + m)) (n - m) in
        ret (sub_bytes c (Z.to_nat (off mod BSIZEz)) (Z.to_nat m) ++ rest)
      else ret []
  end.

(** The result of [readi] and the bytes it stored at [dst]. *)
Definition readi (i : nat) (off n : Z) : M fs_state (Z * list Z) :=
  let* ip := inode_at i in
  if itype ip =? T_DEV then
    match dev_read (imajor ip) with
    | None => ret (-1, [])
    | Some f => f i n
    end
  else if (isize ip <? off) || (u32 (off + n) <? off) then ret (-1, [])
  else
    let n := if isize ip <? u32 (off + n) then u32 (isize ip - off) else n in
    let* l := readi_loop (S (Z.to_nat n)) i off n in
    ret (i32 n, l).

(** The loop of [writei]: [src] is left to be written at [off]; the new value
    of [off] is returned. *)
Fixpoint writei_loop (fuel i : nat) (src : list Z) (off n : Z) : M fs_state Z :=
  match fuel with
  | O => fault
  | S fuel =>
      if 0 <? n then
        let* ip := inode_at i in
        let* addr := bmap i (off / BSIZEz) in
        let* bp := inbuf (bread (idev ip) addr) in
        let m := Z.min n (BSIZEz - off mod BSIZEz) in
        let* c := inbuf (buf_data bp) in
        if decide (length src < Z.to_nat m)%nat then fault
        else
          inbuf (buf_store bp (memmove_in c (Z.to_nat (off mod BSIZEz)) (take (Z.to_nat m) src))) ;;;
          inlog (log_write bp) ;;;
          inbuf (brelse bp) ;;;
          writei_loop fuel i (drop (Z.to_nat m) src) (u32 (off + m)) (n - m)
      else ret off
  end.

Definition writei (i : nat) (src : list Z) (off n : Z) : M fs_state Z :=
  let* ip := inode_at i in
  if itype ip =? T_DEV then
    match dev_write (imajor ip) with
    | None => ret (-1)
    | Some f => f i src n
    end
  else if (isize ip <? off) || (u32 (off + n) <? off) then ret (-1)
  else if MAXFILE * BSIZEz <? u32 (off + n) then ret (-1)
  else
    let* off := writei_loop (S (Z.to_nat n)) i src off n in
    let* ip := inode_at i in
    whenM ((0 <? n) && (isize ip <? off))
      (upd_inode i (set_isize off) ;;; iupdate i) ;;;
    ret (i32 n).

(** ** Directories *)

Definition namecmp (s t : list Z) : option Z := strncmp s t DIRSIZ.

(** [struct dirent]: [inum] in two bytes, then the name. *)
Definition de_inum (de : list Z) : Z := rd16 de 0.
Definition de_name (de : list Z) : list Z := drop 2 de.
Definition mk_dirent (n : Z) (name : list Z) : list Z := le_bytes 2 n ++ name.

(** Reads one entry; the message is that of both loops that do. *)
Definition read_dirent (i : nat) (off : Z) : M fs_state (list Z) :=
  let* (r, de) := readi i off sizeof_dirent in
  if negb (u32 r =? sizeof_dirent) then panic "dirlink read" else ret de.

(** The inode found and the offset of its entry. *)
Fixpoint dirlookup_loop (fuel i : nat) (name : list Z) (off : Z) : M fs_state (option (nat * Z)) :=
  match fuel with
  | O => fault
  | S fuel =>
      let* dp := inode_at i in
      if off <? isize dp then
        let* de := read_dirent i off in
        if de_inum de =? 0 then dirlookup_loop fuel i name (u32 (off + sizeof_dirent))
        else
          let* c := from_opt (namecmp name (de_name de)) in
          if c =? 0 then
            let* ip := iget (idev dp) (de_inum de) in
            ret (Some (ip, off))
          else dirlookup_loop fuel i name (u32 (off + sizeof_dirent))
      else ret None
  end.
Definition dirlookup (i : nat) (name : list Z) : M fs_state (option (nat * Z)) :=
  let* dp := inode_at i in
  if negb (itype dp =? T_DIR) then panic "dirlookup not DIR"
  else dirlookup_loop (S (Z.to_nat (isize dp))) i name 0.

(** The first unused entry, or the end of the directory. *)
Fixpoint empty_slot (fuel i : nat) (off : Z) : M fs_state Z :=
  match fuel with
  | O => fault
  | S fuel =>
      let* dp := inode_at i in
      if off <? isize dp then
        let* de := read_dirent i off in
        if de_inum de =? 0 then ret off else empty_slot fuel i (i32 (off + sizeof_dirent))
      else ret off
  end.

Definition dirlink (i : nat) (name : list Z) (n : Z) : M fs_state Z :=
  let* r := dirlookup i name in
  match r with
  | Some (ip, _) =>
      iput ip ;;;
      ret (-1)
  | None =>
      let* dp := inode_at i in
      let* off := empty_slot (S (Z.to_nat (isize dp))) i 0 in
      let* nm := from_opt (strncpy name DIRSIZ) in
      let* r := writei i (mk_dirent (u16 n) nm) (u32 off) sizeof_dirent in
      if negb (u32 r =? sizeof_dirent) then panic "dirlink" else ret 0
  end.

(** ** Paths

    A path is the list of its bytes; its end reads as the terminator. *)

Definition ch (p : list Z) : Z := default 0 (head p).
Definition SLASH : Z := 47.

Fixpoint skip_slashes (p : list Z) : list Z :=
  match p with
  | c :: q => if c =? SLASH then skip_slashes q else p
  | [] => p
  end.
(** The bytes up to the next slash or the end, and what follows. *)
Fixpoint path_elem (p : list Z) : list Z * list Z :=
  match p with
  | c :: q => if (c =? SLASH) || (c =? 0) then ([], p) else let (e, r) := path_elem q in (c :: e, r)
  | [] => ([], [])
  end.
Definition skipelem (path name : list Z) : option (list Z * list Z) :=
  let path := skip_slashes path in
  if ch path =? 0 then None
  else
    let (s, path) := path_elem path in
    let name := if decide (DIRSIZ <= length s)%nat then memmove_in name 0 (take DIRSIZ s)
                else memmove_in name 0 (s ++ [0]) in
    Some (skip_slashes path, name).

(** The inode found and the last element copied to [name]. *)
Fixpoint namex_loop (fuel i : nat) (path : list Z) (parent : bool) (name : list Z) : M fs_state (option nat * list Z) :=
  match fuel with
  | O => fault
  | S fuel =>
      match skipelem path name with
      | None =>
          if parent then iput i ;;; ret (None, name)
          else ret (Some i, name)
      | Some (path, name) =>
          ilock i ;;;
          let* ip := inode_at i in
          if negb (itype ip =? T_DIR) then iunlockput i ;;; ret (None, name)
          else if parent && (ch path =? 0) then iunlock i ;;; ret (Some i, name)
          else
            let* r := dirlookup i name in
            match r with
            | None => iunlockput i ;;; ret (None, name)
            | Some (next, _) =>
                iunlockput i ;;;
                namex_loop fuel next path parent name
            end
      end
  end.
Definition namex (cwd : nat) (path : list Z) (parent : bool) (name : list Z) : M fs_state (option nat * list Z) :=
  let* i := (if ch path =? SLASH then iget ROOTDEV ROOTINO else idup cwd) in
  namex_loop (S (length path)) i path parent name.

Definition namei (cwd : nat) (path : list Z) (name : list Z) : M fs_state (option nat) :=
  let* (r, _) := namex cwd path false name in ret r.
Definition nameiparent (cwd : nat) (path name : list Z) : M fs_state (option nat * list Z) :=
  namex cwd path true name.
End fs.
