(* ===== verification/FsBlock.v ===== *)
(** * FsBlock: what fs.c relies on from the log, and the block allocator

    Inside a transaction a client of the log sees a map [V] from block numbers
    to contents.  [tx] ties that view to the buffer cache and the log; its laws
    say how each of [bread], [log_write] and [brelse] changes it.  On top of
    them: [balloc] returns the first free block, zeroed and marked, and [bfree]
    undoes it. *)
From stdpp Require Import base numbers list gmap strings.
From Stdlib Require Import ZArith Lia.
From S2P Require Import Prelude Bytes StringC Buf Bio Log Fs.

Local Open Scope Z_scope.

(** ** The view of a transaction *)

(** What stays fixed inside a transaction: the disk, the history of its
    writes, the counters of the log and its place on the disk. *)
Record txc := mk_txc {
  c_dsk : gmap Z block; c_trace : list (Z * block); c_out : Z; c_com : Z; c_start : Z; c_size : Z
}.

Definition vset (V : Z -> block) (n : Z) (d : block) : Z -> block := fun m => if decide (m = n) then d else V m.

Lemma vset_eq V n d : vset V n d n = d.
Proof. unfold vset. by rewrite decide_True. Qed.
Lemma vset_ne V n m d : m <> n -> vset V n d m = V m.
Proof. intros. unfold vset. by rewrite decide_False. Qed.

Section tx.
Context `{BlockDriver}.

(** The log state [l] of a transaction: the client holds the buffers [held],
    has logged the blocks [L] and sees the contents [V]. *)
Record tx (c : txc) (l : log_state) (held : gmap Z nat) (L : list Z) (V : Z -> block) : Prop := {
  tx_log : log_inv l held L;
  tx_view : forall n, blk (bio l) n = V n;
  tx_const : mk_txc (dsk (bio l)) (trace (bio l)) (outstanding (lg l)) (committing (lg l)) (lstart (lg l)) (lsize (lg l)) = c
}.

(** A block of the file system proper: neither superblock nor log. *)
Definition home (c : txc) (n : Z) : Prop := on_disk n /\ ~ (c_start c <= n < c_start c + c_size c) /\ n <> 1.

Lemma tx_length c l held L V n : tx c l held L V -> length (V n) = BSIZE.
Proof. intros HT. rewrite <- (tx_view _ _ _ _ _ HT). eapply blk_length, li_bio, HT. Qed.

Lemma tx_fits c l held L V : tx c l held L V -> (length L < LOGSIZE)%nat /\ Z.of_nat (length L) < c_size c.
Proof.
  intros HT. pose proof (tx_log _ _ _ _ _ HT) as [Hg Hh _ _ _ _]. pose proof (tx_const _ _ _ _ _ HT) as <-.
  destruct Hg, Hh. cbn. unfold LOGSIZE in *. lia.
Qed.

Lemma tx_clean c l held L V n :
  tx c l held L V -> n ∉ L -> held !! n = None -> V n = disk_read (c_dsk c) n.
Proof.
  intros HT Hn Hh. rewrite <- (tx_view _ _ _ _ _ HT), <- (tx_const _ _ _ _ _ HT). cbn.
  eapply blk_clean; [apply HT|set_solver|done].
Qed.

Lemma log_inv_bio l b held held' L :
  log_inv l held L -> bio_inv b held' (list_to_set L) -> dsk b = dsk (bio l) -> log_inv (mk_ls (lg l) b) held' L.
Proof. intros [H1 H2 H3 H4 H5 H6] Hb Hd. split; cbn; try done; by rewrite Hd. Qed.

Lemma tx_bread c l held L V n :
  tx c l held L V -> on_disk n -> held !! n = None -> (size held + length L < NBUF)%nat ->
  exists l' bp, inbio (bread ROOTDEV n) l = Ret l' bp /\ tx c l' (<[n := bp]> held) L V.
Proof.
  intros HT Hn Hh Hroom. pose proof HT as [HL Hv Hc].
  destruct (bread_law (bio l) held (list_to_set L) n) as (b & bp & R & I & B & D & T); [apply HL|done|done| |].
  { left. rewrite size_union_alt. pose proof (subseteq_size (list_to_set L ∖ dom held) (list_to_set L : gset Z) ltac:(set_solver)).
    pose proof (size_list_to_set (C := gset Z) L (hdr_nodup _ _ (li_header _ _ _ HL))). rewrite size_dom. lia. }
  exists (mk_ls (lg l) b), bp. split; [exact (inbio_ret _ _ _ _ R)|].
  split; [by eapply log_inv_bio|intros m; cbn; by rewrite B|cbn; by rewrite D, T].
Qed.

Lemma tx_data c l held L V n bp :
  tx c l held L V -> held !! n = Some bp -> inbio (buf_data bp) l = Ret l (V n).
Proof.
  intros HT Hh. rewrite <- (tx_view _ _ _ _ _ HT).
  rewrite (inbio_ret _ _ _ _ (buf_data_law (bio l) held (list_to_set L) n bp (li_bio _ _ _ (tx_log _ _ _ _ _ HT)) Hh)).
  by destruct l.
Qed.

Lemma tx_store c l held L V n bp d :
  tx c l held L V -> held !! n = Some bp -> length d = BSIZE ->
  exists l', inbio (buf_store bp d) l = Ret l' tt /\ tx c l' held L (vset V n d).
Proof.
  intros HT Hh Hd. pose proof HT as [HL Hv Hc].
  destruct (buf_store_law (bio l) held (list_to_set L) n bp d) as (b & R & I & B & O & D & T); [apply HL|done|done|].
  exists (mk_ls (lg l) b). split; [exact (inbio_ret _ _ _ _ R)|].
  split; [by eapply log_inv_bio| |cbn; by rewrite D, T].
  intros m. cbn. destruct (decide (m = n)) as [->|Hne]; [by rewrite B, vset_eq|by rewrite O, vset_ne by done].
Qed.

Lemma tx_log_write c l held L V n bp :
  tx c l held L V -> 1 <= c_out c -> held !! n = Some bp -> home c n -> Z.of_nat (length L) < c_size c - 1 ->
  exists l', log_write bp l = Ret l' tt /\ tx c l' held (absorb n L) V.
Proof.
  intros HT Hout Hh (Hd & Hl & H1) Hsz. pose proof HT as [HL Hv Hc]. subst c. cbn in *.
  destruct (log_write_law l held L n bp) as (l' & R & I & B & D & T & E1 & E2 & E3 & E4); try done.
  { by rewrite (proj1 (li_mem _ _ _ HL)). }
  exists l'. split; [done|]. split; [done|intros m; by rewrite B|by rewrite D, T, E1, E2, E3, E4].
Qed.

Lemma tx_brelse c l held L V n bp :
  tx c l held L V -> held !! n = Some bp -> (n ∈ L \/ V n = disk_read (c_dsk c) n) ->
  exists l', inbio (brelse bp) l = Ret l' tt /\ tx c l' (delete n held) L V.
Proof.
  intros HT Hh Hcl. pose proof HT as [HL Hv Hc].
  destruct (brelse_law (bio l) held (list_to_set L) n bp) as (b & R & I & B & D & T); [apply HL|done| |].
  { destruct Hcl as [?|Hcl]; [left; set_solver|right]. subst c. by rewrite Hv. }
  exists (mk_ls (lg l) b). split; [exact (inbio_ret _ _ _ _ R)|].
  split; [by eapply log_inv_bio|intros m; cbn; by rewrite B|cbn; by rewrite D, T].
Qed.

Lemma absorb_in n L : n ∈ absorb n L.
Proof. unfold absorb. case_decide; [done|]. apply elem_of_app. right. by left. Qed.
Lemma absorb_length n L : (length (absorb n L) <= S (length L))%nat.
Proof. unfold absorb. case_decide; [lia|]. rewrite length_app. simpl. lia. Qed.
Lemma absorb_mono n m L : m ∈ L -> m ∈ absorb n L.
Proof. unfold absorb. case_decide; [done|]. intros. apply elem_of_app. by left. Qed.

(** Reading a block: [bread], look at the data, [brelse]. *)
Lemma tx_read c l held L V n :
  tx c l held L V -> on_disk n -> held !! n = None -> (size held + length L < NBUF)%nat ->
  exists l1 bp l', inbio (bread ROOTDEV n) l = Ret l1 bp /\ inbio (buf_data bp) l1 = Ret l1 (V n) /\
    inbio (brelse bp) l1 = Ret l' tt /\ tx c l' held L V.
Proof.
  intros HT Hn Hh Hroom. destruct (tx_bread _ _ _ _ _ n HT Hn Hh Hroom) as (l1 & bp & R1 & HT1).
  destruct (tx_brelse _ _ _ _ _ n bp HT1 (lookup_insert_eq _ _ _)) as (l2 & R2 & HT2).
  { destruct (decide (n ∈ L)) as [?|Hnl]; [by left|right; exact (tx_clean _ _ _ _ _ n HT Hnl Hh)]. }
  exists l1, bp, l2. rewrite delete_insert_id in HT2 by done.
  split_and!; [done|by eapply tx_data, lookup_insert_eq|done|done].
Qed.

(** Changing a block: [bread], store, [log_write], [brelse]. *)
Lemma tx_update c l held L V n d :
  tx c l held L V -> 1 <= c_out c -> home c n -> held !! n = None -> (size held + length L < NBUF)%nat ->
  Z.of_nat (length L) < c_size c - 1 -> length d = BSIZE ->
  exists l1 bp l2 l3 l', inbio (bread ROOTDEV n) l = Ret l1 bp /\ inbio (buf_data bp) l1 = Ret l1 (V n) /\
    inbio (buf_store bp d) l1 = Ret l2 tt /\ log_write bp l2 = Ret l3 tt /\ inbio (brelse bp) l3 = Ret l' tt /\
    tx c l' held (absorb n L) (vset V n d).
Proof.
  intros HT Hout Hn Hh Hroom Hsz Hd. destruct (tx_bread _ _ _ _ _ n HT (proj1 Hn) Hh Hroom) as (l1 & bp & R1 & HT1).
  destruct (tx_store _ _ _ _ _ n bp d HT1 (lookup_insert_eq _ _ _) Hd) as (l2 & R2 & HT2).
  destruct (tx_log_write _ _ _ _ _ n bp HT2 Hout (lookup_insert_eq _ _ _) Hn Hsz) as (l3 & R3 & HT3).
  destruct (tx_brelse _ _ _ _ _ n bp HT3 (lookup_insert_eq _ _ _)) as (l4 & R4 & HT4); [left; apply absorb_in|].
  rewrite delete_insert_id in HT4 by done.
  exists l1, bp, l2, l3, l4. split_and!; try done. by eapply tx_data, lookup_insert_eq.
Qed.

(** The view may be replaced by an equal one. *)
Lemma tx_ext c l held L V V' : tx c l held L V -> (forall n, V n = V' n) -> tx c l held L V'.
Proof. intros [H1 H2 H3] HV. split; try done. intros n. by rewrite H2, HV. Qed.
End tx.

(** A state of the file system with another log under it. *)
Definition at_log (s : fs_state) (l : log_state) : fs_state := mk_fs (fsb s) (icache s) l.

Lemma inlog_ret {A} (m : M log_state A) s l a : m (fls s) = Ret l a -> inlog m s = Ret (at_log s l) a.
Proof. intros R. unfold inlog. by rewrite (zoom_ret _ _ _ _ _ _ R). Qed.
Lemma inbuf_ret {A} (m : M bio_state A) s l a : inbio m (fls s) = Ret l a -> inbuf m s = Ret (at_log s l) a.
Proof. apply inlog_ret. Qed.
Lemma getsb_ret s : getsb s = Ret s (fsb s).
Proof. done. Qed.

(** One computation on the log inside the file system. *)
Ltac lrun R := erewrite bind_ret by (apply inlog_ret; exact R).

(** ** Bits of the bitmap *)

Lemma bitmask_testbit i j : (j < 8)%nat -> Z.testbit (bitmask i) (Z.of_nat j) = bool_decide (i mod 8 = j)%nat.
Proof.
  intros Hj. unfold bitmask. rewrite Z.shiftl_1_l, Z.pow2_bits_eqb by lia.
  case_bool_decide as Hd; [apply Z.eqb_eq; lia|apply Z.eqb_neq; lia].
Qed.

Lemma hasf_bitmask i x : hasf (bitmask i) x = Z.testbit x (Z.of_nat (i mod 8)).
Proof.
  unfold hasf, bitmask. rewrite Z.shiftl_1_l. set (k := Z.of_nat (i mod 8)). assert (0 <= k) by lia.
  destruct (Z.testbit x k) eqn:E.
  - apply negb_true_iff, Z.eqb_neq. intros H0.
    assert (Z.testbit (Z.land x (2 ^ k)) k = false) as H1 by (by rewrite H0, Z.bits_0).
    rewrite Z.land_spec, E, Z.pow2_bits_true in H1 by done. done.
  - apply negb_false_iff, Z.eqb_eq. apply Z.bits_inj'. intros n Hn. rewrite Z.land_spec, Z.bits_0.
    rewrite Z.pow2_bits_eqb by done. destruct (Z.eqb_spec k n) as [<-|]; [by rewrite E|apply andb_false_r].
Qed.

Lemma bit_at_eq d i : bit_at d i = Z.testbit (d !!! (i / 8)%nat) (Z.of_nat (i mod 8)).
Proof. apply hasf_bitmask. Qed.

Lemma bit_same i j : (i / 8 = j / 8)%nat -> (i mod 8 = j mod 8)%nat -> i = j.
Proof. intros H1 H2. rewrite (Nat.div_mod_eq i 8), (Nat.div_mod_eq j 8). lia. Qed.

Lemma bit_set_bit d i j : (i / 8 < length d)%nat -> bit_at (set_bit d i) j = bool_decide (i = j) || bit_at d j.
Proof.
  intros Hi. rewrite !bit_at_eq. unfold set_bit. destruct (decide (i / 8 = j / 8)%nat) as [E|E].
  - rewrite <- E, list_lookup_total_insert_eq by done. rewrite Z.lor_spec.
    assert (j mod 8 < 8)%nat by (apply Nat.mod_upper_bound; lia).
    rewrite bitmask_testbit by done. rewrite orb_comm. f_equal. apply bool_decide_ext.
    split; [by apply bit_same|by intros ->].
  - rewrite list_lookup_total_insert_ne by done. rewrite bool_decide_false by (intros ->; done). done.
Qed.

Lemma bit_clear_bit d i j :
  (i / 8 < length d)%nat -> bit_at (clear_bit d i) j = negb (bool_decide (i = j)) && bit_at d j.
Proof.
  intros Hi. rewrite !bit_at_eq. unfold clear_bit. destruct (decide (i / 8 = j / 8)%nat) as [E|E].
  - rewrite <- E, list_lookup_total_insert_eq by done. rewrite Z.land_spec, Z.lnot_spec by lia.
    assert (j mod 8 < 8)%nat by (apply Nat.mod_upper_bound; lia).
    rewrite bitmask_testbit by done. rewrite andb_comm. f_equal. f_equal. apply bool_decide_ext.
    split; [by apply bit_same|by intros ->].
  - rewrite list_lookup_total_insert_ne by done. rewrite bool_decide_false by (intros ->; done). done.
Qed.

Lemma set_bit_length d i : length (set_bit d i) = length d.
Proof. apply length_insert. Qed.
Lemma clear_bit_length d i : length (clear_bit d i) = length d.
Proof. apply length_insert. Qed.

(** The inner loop of [balloc] finds the first clear bit. *)
Lemma free_bit_first fuel bi d b size k :
  (bi <= k < bi + fuel)%nat -> Z.of_nat k < BPB -> b + Z.of_nat k < size -> bit_at d k = false ->
  (forall j, (bi <= j < k)%nat -> bit_at d j = true) -> free_bit fuel bi d b size = Some k.
Proof.
  revert bi. induction fuel as [|fuel IH]; intros bi Hk H1 H2 Hf Hb; [lia|]. cbn [free_bit].
  rewrite (proj2 (Z.ltb_lt _ _)), (proj2 (Z.ltb_lt _ _)) by lia. cbn [andb].
  destruct (decide (bi = k)) as [->|Hne]; [by rewrite Hf|]. rewrite Hb by lia. apply IH; try done; [lia|].
  intros j Hj. apply Hb. lia.
Qed.

(** ** The layout of the disk *)

Record fs_geom (c : txc) (sb : superblock) : Prop := {
  fg_disk : sb_decode (disk_read (c_dsk c) 1) = sb;
  fg_start : 2 <= c_start c;
  fg_log : c_start c + c_size c <= sb_inodestart sb;
  fg_logsize : 1 <= c_size c;
  fg_ninodes : 1 < sb_ninodes sb;
  fg_inodes : sb_inodestart sb + (sb_ninodes sb - 1) / IPB < sb_bmapstart sb;
  fg_bmap : sb_bmapstart sb < sb_size sb;
  fg_size : sb_size sb <= FSSIZE
}.

(** [FSSIZE] blocks need one bitmap block; the data blocks come after it. *)
Definition is_data (sb : superblock) (b : Z) : Prop := sb_bmapstart sb < b < sb_size sb.
Definition used (sb : superblock) (V : Z -> block) (b : Z) : bool := bit_at (V (sb_bmapstart sb)) (Z.to_nat b).
Definition meta_used (sb : superblock) (V : Z -> block) : Prop :=
  forall b, 0 <= b <= sb_bmapstart sb -> used sb V b = true.

(** The view after block [b] was marked used, or free. *)
Definition mark (sb : superblock) (V : Z -> block) (b : Z) : Z -> block :=
  vset V (sb_bmapstart sb) (set_bit (V (sb_bmapstart sb)) (Z.to_nat b)).
Definition unmark (sb : superblock) (V : Z -> block) (b : Z) : Z -> block :=
  vset V (sb_bmapstart sb) (clear_bit (V (sb_bmapstart sb)) (Z.to_nat b)).

Section geom.
Context {c : txc} {sb : superblock} (HG : fs_geom c sb).

Lemma inodestart_pos : 0 < sb_inodestart sb.
Proof. destruct HG. lia. Qed.

Lemma bmap_home : home c (sb_bmapstart sb).
Proof.
  destruct HG. assert (0 <= (sb_ninodes sb - 1) / IPB) by (apply Z.div_pos; unfold IPB; lia).
  unfold home, on_disk. split_and!; lia.
Qed.
Lemma data_home b : is_data sb b -> home c b.
Proof.
  intros Hb. destruct HG. assert (0 <= (sb_ninodes sb - 1) / IPB) by (apply Z.div_pos; unfold IPB; lia).
  unfold is_data in Hb. unfold home, on_disk. split_and!; lia.
Qed.
Lemma data_ne_bmap b : is_data sb b -> b <> sb_bmapstart sb.
Proof. unfold is_data. lia. Qed.
Lemma bblock_eq b : 0 <= b < sb_size sb -> BBLOCK b sb = sb_bmapstart sb.
Proof.
  intros Hb. pose proof bmap_home as [Hd _]. destruct HG. unfold BBLOCK, BPB, FSSIZE, on_disk in *.
  rewrite Z.div_small by lia. rewrite Z.add_0_l. apply u32_small. unfold is_u32, FSSIZE in *. lia.
Qed.
Lemma bit_fits b (d : block) : 0 <= b < sb_size sb -> length d = BSIZE -> (Z.to_nat b / 8 < length d)%nat.
Proof.
  intros Hb Hd. destruct HG. unfold BSIZE, FSSIZE in *. rewrite Hd. apply Nat.Div0.div_lt_upper_bound. lia.
Qed.
Lemma inode_home n : 0 <= n < sb_ninodes sb ->
  home c (IBLOCK n sb) /\ IBLOCK n sb = sb_inodestart sb + n / IPB /\ sb_inodestart sb <= IBLOCK n sb < sb_bmapstart sb.
Proof.
  intros Hn. pose proof bmap_home as [Hd _]. destruct HG.
  assert (0 <= n / IPB <= (sb_ninodes sb - 1) / IPB).
  { split; [apply Z.div_pos; unfold IPB; lia|apply Z.div_le_mono; unfold IPB; lia]. }
  unfold IBLOCK. rewrite u32_small by (unfold is_u32, on_disk, FSSIZE in *; lia).
  unfold home, on_disk in *. split_and!; lia.
Qed.
End geom.

Lemma used_mark sb V b b' : (Z.to_nat b / 8 < length (V (sb_bmapstart sb)))%nat -> 0 <= b -> 0 <= b' ->
  used sb (mark sb V b) b' = bool_decide (b = b') || used sb V b'.
Proof.
  intros Hl Hb Hb'. unfold used, mark. rewrite vset_eq, bit_set_bit by done. f_equal. apply bool_decide_ext. lia.
Qed.
Lemma used_unmark sb V b b' : (Z.to_nat b / 8 < length (V (sb_bmapstart sb)))%nat -> 0 <= b -> 0 <= b' ->
  used sb (unmark sb V b) b' = negb (bool_decide (b = b')) && used sb V b'.
Proof.
  intros Hl Hb Hb'. unfold used, unmark. rewrite vset_eq, bit_clear_bit by done. do 2 f_equal. apply bool_decide_ext. lia.
Qed.
Lemma used_vset sb V n d b : n <> sb_bmapstart sb -> used sb (vset V n d) b = used sb V b.
Proof. intros Hn. unfold used. by rewrite vset_ne. Qed.

Section blocks.
Context `{BlockDriver} {c : txc} {sb : superblock} (HG : fs_geom c sb) (Hout : 1 <= c_out c).

Lemma bzero_law s held L V b :
  tx c (fls s) held L V -> home c b -> held !! b = None -> (size held + length L < NBUF)%nat ->
  Z.of_nat (length L) < c_size c - 1 ->
  exists l', bzero ROOTDEV b s = Ret (at_log s l') tt /\ tx c l' held (absorb b L) (vset V b zero_block).
Proof.
  intros HT Hb Hh Hroom Hsz.
  destruct (tx_update c (fls s) held L V b zero_block) as (l1 & bp & l2 & l3 & l4 & R1 & R2 & R3 & R4 & R5 & HT');
    [done|done|done|done|done|done|apply length_replicate|].
  exists l4. split; [|done]. unfold bzero. rewrite on_disk_u32 by apply Hb. lrun R1. lrun R3. lrun R4. exact (inlog_ret _ _ _ _ R5).
Qed.

Lemma inbio_bind_log {A B} (m : M bio_state A) (k : A -> M bio_state B) l :
  inbio (bind m k) l = bind (inbio m) (fun a => inbio (k a)) l.
Proof. unfold inbio, zoom, bind. by destruct (m (bio l)). Qed.

(** The first free block, if the bitmap has one. *)
Definition first_free (V : Z -> block) (b : Z) : Prop :=
  is_data sb b /\ used sb V b = false /\ forall b', 0 <= b' < b -> used sb V b' = true.

Lemma balloc_law s held L V b :
  tx c (fls s) held L V -> fsb s = sb -> first_free V b -> held !! sb_bmapstart sb = None -> held !! b = None ->
  (size held + S (length L) < NBUF)%nat -> Z.of_nat (length L) + 2 <= c_size c - 1 ->
  exists l', balloc ROOTDEV s = Ret (at_log s l') b /\
    tx c l' held (absorb b (absorb (sb_bmapstart sb) L)) (vset (mark sb V b) b zero_block).
Proof.
  intros HT Hsb (Hb & Hfree & Hbelow) Hh1 Hh2 Hroom Hsz.
  pose proof (data_home HG b Hb) as Hhome. pose proof (bmap_home HG) as Hbm. set (bm := sb_bmapstart sb) in *.
  assert (0 <= b < sb_size sb) as Hb0 by (destruct Hbm as [[? ?] _]; unfold is_data in Hb; lia).
  pose proof (absorb_length bm L) as Hal.
  destruct (tx_update c (fls s) held L V bm (set_bit (V bm) (Z.to_nat b)))
    as (l1 & bp & l2 & l3 & l4 & R1 & R2 & R3 & R4 & R5 & HT1); [done|done|done|done|lia|lia| |].
  { rewrite set_bit_length. by eapply tx_length. }
  destruct (bzero_law (at_log s l4) held (absorb bm L) (mark sb V b) b) as (l5 & R6 & HT2);
    [done|done|done|lia|lia|].
  exists l5. split; [|done]. unfold balloc. mrun (getsb_ret s). rewrite Hsb.
  cbn [balloc_loop]. mrun (getsb_ret s). rewrite Hsb.
  rewrite (proj2 (Z.ltb_lt _ _)) by lia. rewrite (bblock_eq HG 0) by lia. fold bm. lrun R1. lrun R2.
  rewrite (free_bit_first _ _ _ _ _ (Z.to_nat b)).
  - lrun R3. lrun R4. lrun R5. rewrite Z2Nat.id, Z.add_0_l by lia. mrun R6.
    unfold ret. by rewrite on_disk_u32 by apply Hhome.
  - destruct HG. unfold BPB, FSSIZE in *. lia.
  - destruct HG. unfold BPB, FSSIZE in *. lia.
  - lia.
  - exact Hfree.
  - intros j Hj. rewrite <- (Nat2Z.id j). apply Hbelow. lia.
Qed.

Lemma readsb_tx s held L V :
  tx c (fls s) held L V -> held !! 1 = None -> (size held + length L < NBUF)%nat ->
  exists l', inbuf (readsb ROOTDEV) s = Ret (at_log s l') sb /\ tx c l' held L V.
Proof.
  intros HT Hh Hroom.
  destruct (tx_read c (fls s) held L V 1) as (l1 & bp & l2 & R1 & R2 & R3 & HT'); [done|by unfold on_disk, FSSIZE|done|done|].
  exists l2. split; [|done]. assert (1 ∉ L) as H1.
  { intros H1. pose proof (hdr_home _ _ (li_header _ _ _ (tx_log _ _ _ _ _ HT))) as HF.
    rewrite Forall_forall in HF. by destruct (HF 1 H1) as (_ & _ & ?). }
  rewrite (tx_clean _ _ _ _ _ 1 HT H1 Hh) in R2.
  apply inbuf_ret. unfold readsb. rewrite inbio_bind_log. mrun R1. rewrite inbio_bind_log. mrun R2.
  rewrite inbio_bind_log. mrun R3. rewrite (fg_disk _ _ HG). unfold inbio, zoom. cbn. by destruct l2.
Qed.

Lemma bfree_law s held L V b :
  tx c (fls s) held L V -> fsb s = sb -> is_data sb b -> used sb V b = true ->
  held !! 1 = None -> held !! sb_bmapstart sb = None ->
  (size held + length L < NBUF)%nat -> Z.of_nat (length L) < c_size c - 1 ->
  exists l', bfree ROOTDEV b s = Ret (at_log s l') tt /\ tx c l' held (absorb (sb_bmapstart sb) L) (unmark sb V b).
Proof.
  intros HT Hsb Hb Hused Hh1 Hh2 Hroom Hsz. pose proof (bmap_home HG) as Hbm. set (bm := sb_bmapstart sb) in *.
  assert (0 <= b < sb_size sb) as Hb0 by (destruct Hbm as [[? ?] _]; unfold is_data in Hb; lia).
  destruct (readsb_tx s held L V) as (l0 & R0 & HT0); [done|done|done|].
  destruct (tx_update c l0 held L V bm (clear_bit (V bm) (Z.to_nat b)))
    as (l1 & bp & l2 & l3 & l4 & R1 & R2 & R3 & R4 & R5 & HT1); [done|done|done|done|lia|lia| |].
  { rewrite clear_bit_length. by eapply tx_length. }
  exists l4. split; [|done]. unfold bfree. mrun R0. erewrite bind_ret by reflexivity.
  rewrite (bblock_eq HG b) by done. fold bm. destruct s as [sb' ic l]. cbn in Hsb. subst sb'.
  lrun R1. lrun R2. assert (b mod BPB = b) as -> by (apply Z.mod_small; destruct HG; unfold BPB, FSSIZE in *; lia).
  unfold used in Hused. fold bm in Hused. rewrite Hused. cbn [negb]. lrun R3. lrun R4. exact (inlog_ret _ _ _ _ R5).
Qed.

(** Freeing a block that is free is caught. *)
Lemma bfree_free_panics s held L V b :
  tx c (fls s) held L V -> is_data sb b -> used sb V b = false ->
  held !! 1 = None -> held !! sb_bmapstart sb = None -> (size held + length L < NBUF)%nat ->
  bfree ROOTDEV b s = Panic "freeing free block".
Proof.
  intros HT Hb Hused Hh1 Hh2 Hroom. pose proof (bmap_home HG) as Hbm.
  assert (0 <= b < sb_size sb) as Hb0 by (destruct Hbm as [[? ?] _]; unfold is_data in Hb; lia).
  destruct (readsb_tx s held L V) as (l0 & R0 & HT0); [done|done|done|].
  destruct (tx_bread c l0 held L V (sb_bmapstart sb)) as (l1 & bp & R1 & HT1); [done|apply Hbm|done|done|].
  pose proof (tx_data _ _ _ _ _ _ _ HT1 (lookup_insert_eq _ _ _)) as R2.
  unfold bfree. mrun R0. erewrite bind_ret by reflexivity. rewrite (bblock_eq HG b) by done.
  lrun R1. lrun R2. assert (b mod BPB = b) as -> by (apply Z.mod_small; destruct HG; unfold BPB, FSSIZE in *; lia).
  unfold used in Hused. rewrite Hused. done.
Qed.

(** With every block in use [balloc] panics. *)
Lemma balloc_full_panics s L V :
  tx c (fls s) ∅ L V -> fsb s = sb -> (forall b, 0 <= b < sb_size sb -> used sb V b = true) ->
  balloc ROOTDEV s = Panic "balloc: out of blocks".
Proof.
  intros HT Hsb Hall. pose proof (bmap_home HG) as Hbm. pose proof (tx_fits _ _ _ _ _ HT) as [HL _].
  assert (0 < sb_size sb) by (destruct Hbm as [[? ?] _]; destruct HG; lia).
  destruct (tx_read c (fls s) ∅ L V (sb_bmapstart sb)) as (l1 & bp & l2 & R1 & R2 & R3 & HT');
    [done|apply Hbm|done|rewrite map_size_empty; unfold LOGSIZE, NBUF in *; lia|].
  unfold balloc. mrun (getsb_ret s). rewrite Hsb.
  destruct (Z.to_nat (sb_size sb)) as [|k] eqn:Ek; [lia|].
  cbn [balloc_loop]. mrun (getsb_ret s). rewrite Hsb.
  rewrite (proj2 (Z.ltb_lt 0 _)) by lia. rewrite (bblock_eq HG 0) by lia. lrun R1. lrun R2.
  assert (forall fuel bi, free_bit fuel bi (V (sb_bmapstart sb)) 0 (sb_size sb) = None) as ->.
  { induction fuel as [|fuel IH]; intros bi; cbn [free_bit]; [done|].
    destruct (_ && _) eqn:E; [|done]. apply andb_true_iff in E as [_ E%Z.ltb_lt].
    specialize (Hall (Z.of_nat bi) ltac:(lia)). unfold used in Hall. rewrite Nat2Z.id in Hall. rewrite Hall. apply IH. }
  lrun R3. mrun (getsb_ret (at_log (at_log (at_log s l1) l1) l2)). cbn [fsb at_log]. rewrite Hsb.
  rewrite (proj2 (Z.ltb_ge _ _)); [done|]. destruct HG. unfold BPB, FSSIZE in *. lia.
Qed.
End blocks.

(** ** A small file system for the witnesses: superblock, log, inodes 32-33, a
    bitmap in block 35 and a file of one block, 36 *)

#[local] Existing Instance mem_driver.

Definition demo_super : superblock := mk_sb 100 64 16 30 2 32 35.
Definition demo_super_block : block :=
  wr32 (wr32 (wr32 (wr32 (wr32 (wr32 (wr32 zero_block 0 100) 4 64) 8 16) 12 30) 16 2) 20 32) 24 35.
Definition demo_bitmap : block := [255; 255; 255; 255; 31] ++ replicate 507 0.
Definition demo_text : block := [104; 101; 108; 108; 111] ++ replicate 507 0.
Definition demo_image : gmap Z block := <[1 := demo_super_block]> (<[35 := demo_bitmap]> (<[36 := demo_text]> ∅)).

Lemma demo_image_recoverable : recoverable demo_log demo_image (disk_read demo_image).
Proof.
  split_and!; [repeat (apply disk_ok_insert; [|by vm_compute]); apply disk_ok_empty|by vm_compute|].
  exists []. split_and!; [|apply header_nil, demo_geom|done]. by split; vm_compute.
Qed.

Lemma demo_tx : exists c l V, tx c l ∅ [] V /\ fs_geom c demo_super /\ c_size c = 30 /\ 1 <= c_out c /\
  V 1 = demo_super_block /\ V 35 = demo_bitmap /\ V 36 = demo_text.
Proof.
  destruct (recover_recoverable demo_log demo_image _ demo_geom demo_image_recoverable) as ([l b] & _ & Hinv & E1 & E2 & HV & _).
  cbn [lg bio] in *.
  set (l1 := set_outstanding 1 l).
  assert (log_inv (mk_ls l1 b) ∅ []) as Hi1 by (by apply (log_inv_counts l)).
  exists (mk_txc (dsk b) (trace b) 1 (committing l) (lstart l) (lsize l)), (mk_ls l1 b), (blk b).
  assert (tx (mk_txc (dsk b) (trace b) 1 (committing l) (lstart l) (lsize l)) (mk_ls l1 b) ∅ [] (blk b)) as HT by (by split).
  assert (forall n, ~ in_log demo_log n -> blk b n = disk_read demo_image n) as HV' by exact HV.
  assert (blk b 1 = demo_super_block) as Hb1 by (rewrite HV' by (unfold in_log; cbn; lia); done).
  split_and!; [done| |done|done|done|rewrite HV' by (unfold in_log, demo_log, LOGSIZE; cbn; lia); done..].
  pose proof (tx_clean _ _ _ _ _ 1 HT ltac:(set_solver) eq_refl) as Hd. cbn in Hd. rewrite Hb1 in Hd.
  split; cbn [c_dsk c_start c_size]; rewrite ?E1, ?E2; try (by vm_compute).
  rewrite <- Hd. by vm_compute.
Qed.
