(* ===== verification/FsFile.v ===== *)
(** * FsFile: the contents of files

    [bmap], [readi] and [writei] of fs.c against an abstract file, a list of
    bytes: [readi] returns a segment of it and changes nothing, [writei]
    overwrites a segment, extending the file at its end, and neither touches a
    block of another file. *)
From stdpp Require Import base numbers list gmap strings.
From Stdlib Require Import ZArith Lia.
From S2P Require Import Prelude Bytes StringC Buf Bio Log Fs FsBlock.

Local Open Scope Z_scope.

Definition NBLK : nat := 140.

(** The number of the [k]-th block of a file, 0 if there is none. *)
Definition fblk (V : Z -> block) (ip : inode) (k : nat) : Z :=
  if decide (k < NDIRECT)%nat then addrs ip !!! k
  else if decide (addrs ip !!! NDIRECT = 0) then 0
  else rd32 (V (addrs ip !!! NDIRECT)) (4 * (k - NDIRECT)).

(** The blocks of one file: data blocks marked used, all different. *)
Record mapping_ok (sb : superblock) (V : Z -> block) (F : nat -> Z) (ind : Z) : Prop := {
  mo_data : forall k, (k < NBLK)%nat -> F k <> 0 -> is_data sb (F k) /\ used sb V (F k) = true;
  mo_ind : ind <> 0 -> is_data sb ind /\ used sb V ind = true;
  mo_inj : forall j k, (j < NBLK)%nat -> (k < NBLK)%nat -> F j <> 0 -> F j = F k -> j = k;
  mo_ne : forall k, (k < NBLK)%nat -> F k <> 0 -> F k <> ind
}.

Record file_ok (sb : superblock) (V : Z -> block) (ip : inode) : Prop := {
  fo_len : length (addrs ip) = S NDIRECT;
  fo_size : 0 <= isize ip <= MAXFILE * BSIZEz;
  fo_dev : idev ip = ROOTDEV;
  fo_type : itype ip <> T_DEV;
  fo_map : mapping_ok sb V (fblk V ip) (addrs ip !!! NDIRECT);
  fo_mapped : forall k, Z.of_nat k * BSIZEz < isize ip -> fblk V ip k <> 0
}.

(** The bytes of the file. *)
Definition fbyte (V : Z -> block) (ip : inode) (o : nat) : Z := V (fblk V ip (o / BSIZE)) !!! (o mod BSIZE)%nat.
Definition content (V : Z -> block) (ip : inode) : list Z := fbyte V ip <$> seq 0 (Z.to_nat (isize ip)).

Definition owns (V : Z -> block) (ip : inode) (n : Z) : Prop :=
  n <> 0 /\ (n = addrs ip !!! NDIRECT \/ exists k, (k < NBLK)%nat /\ fblk V ip k = n).

(** What an operation on the file [ip] may change: blocks of the file, blocks
    that were free, and the bitmap, where blocks only become used. *)
Record extends (sb : superblock) (V : Z -> block) (ip : inode) (V' : Z -> block) (ip' : inode) : Prop := {
  ex_used : forall b, 0 <= b -> used sb V b = true -> used sb V' b = true;
  ex_frame : forall n, n <> sb_bmapstart sb -> ~ owns V ip n -> (is_data sb n -> used sb V n = true) -> V' n = V n;
  ex_owns : forall n, owns V ip n -> owns V' ip' n;
  ex_new : forall n, owns V' ip' n -> owns V ip n \/ (is_data sb n /\ used sb V n = false)
}.

Lemma extends_refl sb V ip : extends sb V ip V ip.
Proof. split; auto. Qed.

Lemma extends_trans sb V1 i1 V2 i2 V3 i3 :
  extends sb V1 i1 V2 i2 -> extends sb V2 i2 V3 i3 -> (forall n, is_data sb n -> 0 <= n) -> extends sb V1 i1 V3 i3.
Proof.
  intros E1 E2 Hpos. split.
  - intros b Hb Hu. apply (ex_used _ _ _ _ _ E2); [done|]. by apply (ex_used _ _ _ _ _ E1).
  - intros n Hbm Ho Hd. rewrite (ex_frame _ _ _ _ _ E2), (ex_frame _ _ _ _ _ E1); try done.
    + intros [Ho'|[Hn Hu]]%(ex_new _ _ _ _ _ E1); [done|]. rewrite Hd in Hu; done.
    + intros Hn. apply (ex_used _ _ _ _ _ E1); auto.
  - intros n Hn. by apply (ex_owns _ _ _ _ _ E2), (ex_owns _ _ _ _ _ E1).
  - intros n [Hn|[Hd Hu]]%(ex_new _ _ _ _ _ E2).
    + by apply (ex_new _ _ _ _ _ E1).
    + right. split; [done|]. destruct (used sb V1 n) eqn:E; [|done].
      rewrite (ex_used _ _ _ _ _ E1) in Hu; auto; done.
Qed.

(** A file whose blocks have not changed. *)
Lemma file_frame sb V V' ip : file_ok sb V ip -> (forall n, owns V ip n -> V' n = V n) ->
  (forall b, is_data sb b -> used sb V b = true -> used sb V' b = true) ->
  file_ok sb V' ip /\ (forall k, fblk V' ip k = fblk V ip k) /\
  (forall o, (o / BSIZE < NBLK)%nat -> fblk V ip (o / BSIZE) <> 0 -> fbyte V' ip o = fbyte V ip o).
Proof.
  intros HF Ho Hu.
  assert (forall k, fblk V' ip k = fblk V ip k) as Hb.
  { intros k. unfold fblk. destruct (decide (k < NDIRECT)%nat); [done|]. destruct (decide (addrs ip !!! NDIRECT = 0)); [done|].
    rewrite Ho; [done|]. split; [done|by left]. }
  split_and!; [|done|].
  - destruct HF as [H1 H2 H3 H4 [G1 G2 G3 G4] H6]. split; try done; [|intros k Hk; rewrite Hb; auto].
    split; intros *; rewrite ?Hb; auto.
    + intros Hk Hnz. destruct (G1 k Hk Hnz). auto.
    + intros Hnz. destruct (G2 Hnz). auto.
  - intros o Hk Hnz. unfold fbyte. rewrite Hb, Ho; [done|]. split; [done|right]. by exists (o / BSIZE)%nat.
Qed.

Lemma owns_same V V' ip n : (forall k, fblk V' ip k = fblk V ip k) -> owns V' ip n <-> owns V ip n.
Proof. intros Hb. unfold owns. by setoid_rewrite Hb. Qed.

Lemma owns_data {sb} V ip n : file_ok sb V ip -> owns V ip n -> is_data sb n /\ used sb V n = true.
Proof.
  intros HF [Hnz [->|(k & Hk & <-)]]; [by apply (mo_ind _ _ _ _ (fo_map _ _ _ HF))|by apply (mo_data _ _ _ _ (fo_map _ _ _ HF))].
Qed.

Lemma content_same sb V V' ip : file_ok sb V ip ->
  (forall o, (o / BSIZE < NBLK)%nat -> fblk V ip (o / BSIZE) <> 0 -> fbyte V' ip o = fbyte V ip o) -> content V' ip = content V ip.
Proof.
  intros HF Hb. unfold content. apply list_fmap_ext. intros _ o Ho%list_elem_of_lookup_2%elem_of_seq.
  pose proof (fo_size _ _ _ HF). pose proof (Nat.div_mod_eq o BSIZE). apply Hb.
  - apply Nat.Div0.div_lt_upper_bound. unfold NBLK, BSIZE, MAXFILE, BSIZEz in *. lia.
  - apply (fo_mapped _ _ _ HF). unfold BSIZE, BSIZEz in *. lia.
Qed.

(** An operation on one file leaves the files that share no block with it. *)
Lemma extends_other sb V ip V' ip' jp : file_ok sb V jp -> extends sb V ip V' ip' -> (forall n, owns V ip n -> ~ owns V jp n) ->
  (forall n, is_data sb n -> 0 <= n /\ n <> sb_bmapstart sb) -> (forall n, owns V jp n -> V' n = V n) /\
  (forall b, is_data sb b -> used sb V b = true -> used sb V' b = true).
Proof.
  intros HF He Hdj Hd. split.
  - intros n Hn. assert (is_data sb n /\ used sb V n = true) as [Hdn Hu].
    { destruct Hn as [Hnz [->|(k & Hk & <-)]]; [by apply (mo_ind _ _ _ _ (fo_map _ _ _ HF))|by apply (mo_data _ _ _ _ (fo_map _ _ _ HF))]. }
    apply (ex_frame _ _ _ _ _ He); [by apply Hd|by intros ?%Hdj|done].
  - intros b Hb. apply (ex_used _ _ _ _ _ He). by apply Hd.
Qed.

(** The number of free data blocks. *)
Definition data_blocks (sb : superblock) : list Z := seqZ (sb_bmapstart sb + 1) (sb_size sb - sb_bmapstart sb - 1).
Definition nfree (sb : superblock) (V : Z -> block) : nat :=
  length (filter (fun b => used sb V b = false) (data_blocks sb)).

Lemma data_blocks_elem sb b : b ∈ data_blocks sb <-> is_data sb b.
Proof. unfold data_blocks, is_data. rewrite elem_of_seqZ. lia. Qed.

Lemma nfree_ext sb V V' : V (sb_bmapstart sb) = V' (sb_bmapstart sb) -> nfree sb V = nfree sb V'.
Proof. intros E. unfold nfree, used. by rewrite E. Qed.

Lemma least_nat (P : nat -> bool) n : P n = true -> exists m, (m <= n)%nat /\ P m = true /\ forall k, (k < m)%nat -> P k = false.
Proof.
  induction (lt_wf n) as [n _ IH]. intros Hn.
  destruct (decide (Forall (fun k => P k = false) (seq 0 n))) as [Hall|Hex].
  - exists n. split_and!; [done|done|]. intros k Hk. rewrite Forall_forall in Hall. apply Hall, elem_of_seq. lia.
  - apply not_Forall_Exists in Hex; [|apply _]. apply Exists_exists in Hex as (k & Hk%elem_of_seq & Pk).
    destruct (IH k) as (m & Hm & ?); [lia|by apply not_false_is_true|]. exists m. split; [lia|done].
Qed.

Lemma filter_length_ext (l : list Z) (P Q : Z -> Prop) `{!forall x, Decision (P x)} `{!forall x, Decision (Q x)} :
  (forall x, x ∈ l -> P x <-> Q x) -> length (filter P l) = length (filter Q l).
Proof.
  induction l as [|x l IH]; intros Hiff; [done|].
  assert (P x <-> Q x) as Hx by (apply Hiff; by left). specialize (IH ltac:(intros y Hy; apply Hiff; by right)).
  destruct (decide (P x)) as [HP|HP].
  - rewrite (filter_cons_True P), (filter_cons_True Q) by tauto. cbn. by rewrite IH.
  - rewrite (filter_cons_False P), (filter_cons_False Q) by tauto. done.
Qed.

Section alloc.
Implicit Types V : Z -> block.
Context {c : txc} {sb : superblock} (HG : fs_geom c sb).

Lemma data_pos n : is_data sb n -> 0 < n.
Proof. intros Hn. pose proof (bmap_home HG) as [[? ?] _]. unfold is_data in Hn. lia. Qed.

(** If a data block is free, there is a first one. *)
Lemma first_free_exists V : (1 <= nfree sb V)%nat -> meta_used sb V -> exists b, first_free (sb := sb) V b.
Proof.
  intros Hn Hm. unfold nfree in Hn.
  destruct (filter (fun b => used sb V b = false) (data_blocks sb)) as [|b0 l] eqn:E; [simpl in Hn; lia|].
  assert (b0 ∈ filter (fun b => used sb V b = false) (data_blocks sb)) as Hb0 by (rewrite E; by left).
  apply list_elem_of_filter in Hb0 as [Hu Hd%data_blocks_elem]. pose proof (data_pos _ Hd).
  destruct (least_nat (fun k => negb (used sb V (Z.of_nat k))) (Z.to_nat b0)) as (m & Hle & Hm' & Hbelow).
  { rewrite Z2Nat.id by lia. by rewrite Hu. }
  exists (Z.of_nat m). apply negb_true_iff in Hm'. split_and!; [|done|].
  - unfold is_data in *. split; [|lia]. destruct (decide (Z.of_nat m <= sb_bmapstart sb)); [|lia].
    rewrite Hm in Hm' by lia. done.
  - intros b' Hb'. specialize (Hbelow (Z.to_nat b') ltac:(lia)). rewrite Z2Nat.id in Hbelow by lia.
    by apply negb_false_iff in Hbelow.
Qed.

Lemma bitmap_len V : (forall n, length (V n) = BSIZE) -> forall b, 0 <= b < sb_size sb ->
  (Z.to_nat b / 8 < length (V (sb_bmapstart sb)))%nat.
Proof. intros HV b Hb. by apply (bit_fits HG). Qed.

Lemma used_alloc V b b' d : (forall n, length (V n) = BSIZE) -> is_data sb b -> 0 <= b' ->
  used sb (vset (mark sb V b) b d) b' = bool_decide (b = b') || used sb V b'.
Proof.
  intros HV Hb Hb'. pose proof (data_pos _ Hb). rewrite used_vset by (apply data_ne_bmap; done).
  apply used_mark; [|lia|done]. apply bitmap_len; [done|]. unfold is_data in Hb. lia.
Qed.

Lemma filter_one_less (l : list Z) (P Q : Z -> Prop) `{!forall x, Decision (P x)} `{!forall x, Decision (Q x)} b :
  NoDup l -> b ∈ l -> P b -> ~ Q b -> (forall x, x ∈ l -> x <> b -> P x <-> Q x) ->
  length (filter P l) = S (length (filter Q l)).
Proof.
  intros Hnd Hin HPb HQb Hiff. induction Hnd as [|x l Hx Hnd IH]; [by apply not_elem_of_nil in Hin|].
  destruct (decide (x = b)) as [->|Hne].
  - rewrite filter_cons_True, filter_cons_False by done. cbn. f_equal.
    apply filter_length_ext. intros y Hy. apply Hiff; [by right|]. intros ->. done.
  - apply elem_of_cons in Hin as [->|Hin]; [done|].
    assert (P x <-> Q x) as Hxy by (apply Hiff; [by left|done]).
    specialize (IH Hin ltac:(intros y Hy; apply Hiff; by right)).
    destruct (decide (P x)) as [HP|HP].
    + rewrite (filter_cons_True P), (filter_cons_True Q) by tauto. cbn. by rewrite IH.
    + rewrite (filter_cons_False P), (filter_cons_False Q) by tauto. done.
Qed.

Lemma nfree_alloc V b d : (forall n, length (V n) = BSIZE) -> is_data sb b -> used sb V b = false ->
  nfree sb V = S (nfree sb (vset (mark sb V b) b d)).
Proof.
  intros HV Hb Hu. apply (filter_one_less _ _ _ b).
  - apply NoDup_seqZ.
  - by apply data_blocks_elem.
  - done.
  - rewrite used_alloc by (done || by apply Z.lt_le_incl, data_pos). by rewrite bool_decide_true.
  - intros x Hx%data_blocks_elem Hne. rewrite used_alloc by (done || by apply Z.lt_le_incl, data_pos).
    by rewrite bool_decide_false.
Qed.
End alloc.

(** ** Attaching blocks to a file *)

Section attach.
Context {c : txc} {sb : superblock} (HG : fs_geom c sb).
Implicit Types V : Z -> block.

(** [V'] is [V] with the free data block [b] marked used. *)
Definition marked (V V' : Z -> block) (b : Z) : Prop :=
  is_data sb b /\ used sb V b = false /\
  forall b', 0 <= b' -> used sb V' b' = bool_decide (b = b') || used sb V b'.

Lemma marked_ne V V' b n : marked V V' b -> used sb V n = true -> n <> b.
Proof. intros (_ & Hu & _) Hn ->. congruence. Qed.

Lemma marked_used V V' b n : marked V V' b -> 0 <= n -> used sb V n = true -> used sb V' n = true.
Proof. intros (_ & _ & Hm) Hn Hu. rewrite Hm, Hu by done. apply orb_true_r. Qed.

Lemma mapping_attach V V' F F' ind b k :
  mapping_ok sb V F ind -> marked V V' b -> F k = 0 ->
  (forall j, (j < NBLK)%nat -> F' j = if decide (j = k) then b else F j) -> mapping_ok sb V' F' ind.
Proof.
  intros HM Hm Hk HF. pose proof Hm as (Hb & Hu & Hused).
  assert (forall j, (j < NBLK)%nat -> F j <> 0 -> F j <> b) as Hne.
  { intros j Hj Hnz. eapply marked_ne; [done|]. by apply (mo_data _ _ _ _ HM). }
  split.
  - intros j Hj. rewrite HF by done. case_decide as E; intros Hnz.
    + split; [done|]. rewrite Hused by (apply Z.lt_le_incl, (data_pos HG), Hb). by rewrite bool_decide_true.
    + destruct (mo_data _ _ _ _ HM j Hj Hnz) as [Hd Hs]. split; [done|].
      eapply marked_used; [done|apply Z.lt_le_incl, (data_pos HG), Hd|done].
  - intros Hnz. destruct (mo_ind _ _ _ _ HM Hnz) as [Hd Hs]. split; [done|].
    eapply marked_used; [done|apply Z.lt_le_incl, (data_pos HG), Hd|done].
  - intros j1 j2 Hj1 Hj2. rewrite !HF by done. repeat case_decide; subst; try done.
    + intros _ Heq. exfalso. apply (Hne j2 Hj2); [|done]. rewrite <- Heq. pose proof (data_pos HG b Hb). lia.
    + intros Hnz Heq. exfalso. by apply (Hne j1 Hj1).
    + apply (mo_inj _ _ _ _ HM); done.
  - intros j Hj. rewrite HF by done. case_decide as E; intros Hnz; [|by apply (mo_ne _ _ _ _ HM)].
    destruct (decide (ind = 0)) as [->|Hi]; [done|]. intros ->. apply (marked_ne V V' ind ind); [done|by apply (mo_ind _ _ _ _ HM)|done].
Qed.

Lemma mapping_attach_ind V V' F F' b :
  mapping_ok sb V F 0 -> marked V V' b -> (forall j, (j < NBLK)%nat -> F' j = F j) -> mapping_ok sb V' F' b.
Proof.
  intros HM Hm HF. pose proof Hm as (Hb & Hu & Hused). split.
  - intros j Hj. rewrite HF by done. intros Hnz. destruct (mo_data _ _ _ _ HM j Hj Hnz) as [Hd Hs]. split; [done|].
    eapply marked_used; [done|apply Z.lt_le_incl, (data_pos HG), Hd|done].
  - intros _. split; [done|]. rewrite Hused by (apply Z.lt_le_incl, (data_pos HG), Hb). by rewrite bool_decide_true.
  - intros j1 j2 Hj1 Hj2. rewrite !HF by done. by apply (mo_inj _ _ _ _ HM).
  - intros j Hj. rewrite HF by done. intros Hnz. eapply marked_ne; [done|]. by apply (mo_data _ _ _ _ HM).
Qed.

(** The effect of [bmap] for block [k], which becomes block [a] of the disk;
    at most [f] free blocks were used. *)
Record bmapped (f : nat) V (ip : inode) (k : nat) V' (ip' : inode) (a : Z) : Prop := {
  bm_ok : file_ok sb V' ip';
  bm_blk : fblk V' ip' k = a;
  bm_nz : a <> 0;
  bm_old : forall j, (j < NBLK)%nat -> fblk V ip j <> 0 ->
    fblk V' ip' j = fblk V ip j /\ V' (fblk V ip j) = V (fblk V ip j);
  bm_ext : extends sb V ip V' ip';
  bm_meta : ip' = set_addrs (addrs ip') ip;
  bm_ind : addrs ip !!! NDIRECT <> 0 -> addrs ip' !!! NDIRECT = addrs ip !!! NDIRECT;
  bm_free : (nfree sb V <= nfree sb V' + f)%nat;
  bm_only : forall j, (j < NBLK)%nat -> j <> k -> fblk V' ip' j = fblk V ip j;
  bm_hit : fblk V ip k <> 0 -> addrs ip' = addrs ip
}.

(** What holds of a file holds with its blocks under other names for the same
    mapping. *)
Lemma file_ok_remap V V' ip a :
  file_ok sb V ip -> length a = S NDIRECT -> mapping_ok sb V' (fblk V' (set_addrs a ip)) (a !!! NDIRECT) ->
  (forall j, (j < NBLK)%nat -> fblk V ip j <> 0 -> fblk V' (set_addrs a ip) j <> 0) ->
  file_ok sb V' (set_addrs a ip).
Proof.
  intros [H1 H2 H3 H4 H5 H6] Hl HM Hnz. split; cbn; try done.
  intros k Hk. apply Hnz; [|by apply H6]. unfold MAXFILE, BSIZEz, NBLK in *. lia.
Qed.

Lemma rd32_zero_block j : rd32 zero_block j = 0.
Proof.
  unfold rd32, rd, sub_bytes, zero_block. rewrite drop_replicate, take_replicate.
  induction (Nat.min 4 (BSIZE - j)) as [|n IH]; [done|]. cbn [replicate le_val]. by rewrite IH.
Qed.

Definition alloc_view V (b : Z) : Z -> block := vset (mark sb V b) b zero_block.

Lemma alloc_marked V b : (forall n, length (V n) = BSIZE) -> is_data sb b -> used sb V b = false -> marked V (alloc_view V b) b.
Proof. intros HV Hb Hu. split_and!; [done|done|]. intros b' Hb'. by apply (used_alloc HG). Qed.

Lemma alloc_other V b n : n <> b -> n <> sb_bmapstart sb -> alloc_view V b n = V n.
Proof. intros H1 H2. unfold alloc_view, mark. by rewrite !vset_ne. Qed.

Lemma alloc_zero V b : alloc_view V b b = zero_block.
Proof. apply vset_eq. Qed.

Lemma fo_u32 V ip : file_ok sb V ip -> addrs ip !!! NDIRECT <> 0 -> is_data sb (addrs ip !!! NDIRECT) /\
  used sb V (addrs ip !!! NDIRECT) = true.
Proof. intros HF. apply (mo_ind _ _ _ _ (fo_map _ _ _ HF)). Qed.

(** A new block [b] that becomes block [k] of the file, through the inode or
    through its indirect block. *)
Lemma attach_block V V' ip a b k :
  file_ok sb V ip -> marked V V' b -> (k < NBLK)%nat -> fblk V ip k = 0 ->
  length a = S NDIRECT -> a !!! NDIRECT = addrs ip !!! NDIRECT ->
  (forall n, n <> sb_bmapstart sb -> n <> b -> (n = addrs ip !!! NDIRECT -> n = 0) -> V' n = V n) ->
  (forall j, (j < NBLK)%nat -> fblk V' (set_addrs a ip) j = if decide (j = k) then b else fblk V ip j) ->
  (nfree sb V <= nfree sb V' + 1)%nat ->
  bmapped 1 V ip k V' (set_addrs a ip) b.
Proof.
  intros HF Hm Hk H0 Hla Ha HV Hblk Hfree. pose proof Hm as (Hb & Hu & Hused). pose proof (data_pos HG b Hb) as Hbpos.
  assert (mapping_ok sb V' (fblk V' (set_addrs a ip)) (a !!! NDIRECT)) as HM'.
  { rewrite Ha. eapply mapping_attach; [apply HF|done|done|done]. }
  assert (forall j, (j < NBLK)%nat -> fblk V ip j <> 0 -> fblk V' (set_addrs a ip) j = fblk V ip j) as Hsame.
  { intros j Hj Hnz. rewrite Hblk by done. rewrite decide_False; [done|]. intros ->. done. }
  split; try done.
  - apply (file_ok_remap V); try done. intros j Hj Hnz. by rewrite Hsame.
  - rewrite Hblk by done. by rewrite decide_True.
  - lia.
  - intros j Hj Hnz. split; [by apply Hsame|].
    destruct (mo_data _ _ _ _ (fo_map _ _ _ HF) j Hj Hnz) as [Hd Hs]. apply HV.
    + by apply data_ne_bmap.
    + by eapply marked_ne.
    + intros E. exfalso. by apply (mo_ne _ _ _ _ (fo_map _ _ _ HF) j Hj Hnz).
  - split.
    + intros b' Hb' Hs. by eapply marked_used.
    + intros n Hbm Hno Hd. apply HV; [done| |].
      * intros ->. rewrite Hd in Hu; done.
      * intros E. destruct (decide (n = 0)); [done|]. exfalso. apply Hno. split; [done|by left].
    + intros n [Hnz Hor]. split; [done|]. destruct Hor as [->|(j & Hj & <-)]; [left; cbn; by rewrite Ha|right].
      exists j. split; [done|]. by apply Hsame.
    + intros n [Hnz Hor]. destruct Hor as [->|(j & Hj & Hj')].
      * left. split; [done|]. left. by cbn; rewrite Ha.
      * rewrite Hblk in Hj' by done. case_decide; [right; by subst|left]. split; [done|]. right. by exists j.
  - intros j Hj Hne. rewrite Hblk by done. by rewrite decide_False.
Qed.

Lemma attach_direct V ip b k :
  file_ok sb V ip -> (forall n, length (V n) = BSIZE) -> (k < NDIRECT)%nat -> addrs ip !!! k = 0 ->
  is_data sb b -> used sb V b = false ->
  bmapped 1 V ip k (alloc_view V b) (set_addrs (<[k := b]> (addrs ip)) ip) b.
Proof.
  intros HF HV Hk H0 Hb Hu. pose proof (fo_len _ _ _ HF) as Hlen. unfold NDIRECT in *.
  assert (<[k := b]> (addrs ip) !!! 12%nat = addrs ip !!! 12%nat) as Ha
    by (rewrite list_lookup_total_insert_ne by lia; done).
  apply attach_block; try done.
  - by apply alloc_marked.
  - unfold NBLK. lia.
  - unfold fblk, NDIRECT. by rewrite decide_True.
  - by rewrite length_insert.
  - intros n H1 H2 _. by apply alloc_other.
  - intros j Hj. unfold fblk, NDIRECT. cbn [set_addrs set_meta addrs]. rewrite Ha.
    destruct (decide (j < 12)%nat) as [Hd|Hd].
    + destruct (decide (j = k)) as [->|Hne]; [by rewrite list_lookup_total_insert_eq by lia|].
      by rewrite list_lookup_total_insert_ne.
    + rewrite (decide_False (P := j = k)) by lia. case_decide as Hi; [done|].
      destruct (fo_u32 V ip HF Hi) as [Hdi Hsi]. rewrite alloc_other; [done| |by apply data_ne_bmap].
      intros E. unfold NDIRECT in Hsi. rewrite E in Hsi. congruence.
  - rewrite (nfree_alloc HG V b zero_block) by done. unfold alloc_view. lia.
Qed.

Lemma attach_entry V ip b k :
  file_ok sb V ip -> (forall n, length (V n) = BSIZE) -> (NDIRECT <= k < NBLK)%nat ->
  addrs ip !!! NDIRECT <> 0 -> fblk V ip k = 0 -> is_data sb b -> used sb V b = false ->
  bmapped 1 V ip k
    (vset (alloc_view V b) (addrs ip !!! NDIRECT) (wr32 (V (addrs ip !!! NDIRECT)) (4 * (k - NDIRECT)) b)) ip b.
Proof.
  intros HF HV Hk Hi H0 Hb Hu. pose proof (fo_len _ _ _ HF) as Hlen.
  destruct (fo_u32 V ip HF Hi) as [Hdi Hsi]. set (ind := addrs ip !!! NDIRECT) in *.
  assert (ind <> b) as Hne by (intros E; rewrite E in Hsi; congruence).
  assert (ip = set_addrs (addrs ip) ip) as Hid by (by destruct ip).
  rewrite Hid at 2. apply attach_block; try done.
  - split_and!; [done|done|]. intros b' Hb'. rewrite used_vset by (by apply data_ne_bmap). by apply (used_alloc HG).
  - lia.
  - intros n H1 H2 H3. rewrite vset_ne; [by apply alloc_other|]. intros ->. by apply Hi, H3.
  - intros j Hj. rewrite <- Hid. unfold fblk. fold ind. destruct (decide (j < NDIRECT)%nat) as [Hd|Hd].
    + rewrite (decide_False (P := j = k)) by lia. done.
    + rewrite (decide_False (P := ind = 0)) by done. rewrite vset_eq. destruct (decide (j = k)) as [->|Hjk].
      * apply rd32_wr32_same; [rewrite HV; unfold BSIZE, NBLK, NDIRECT in *; lia|].
        pose proof (data_home HG b Hb) as [[? ?] _]. unfold is_u32, FSSIZE in *. lia.
      * rewrite (decide_False (P := ind = 0)) by done. apply rd32_wr32_other. lia.
  - rewrite (nfree_alloc HG V b zero_block) by done. fold (alloc_view V b).
    rewrite (nfree_ext sb (alloc_view V b) (vset (alloc_view V b) ind (wr32 (V ind) (4 * (k - NDIRECT)) b))).
    + lia.
    + symmetry. apply vset_ne. intros E. by apply (data_ne_bmap _ Hdi).
Qed.

(** A new, empty indirect block. *)
Lemma attach_ind V ip b :
  file_ok sb V ip -> (forall n, length (V n) = BSIZE) -> addrs ip !!! NDIRECT = 0 ->
  is_data sb b -> used sb V b = false ->
  let ip1 := set_addrs (<[NDIRECT := b]> (addrs ip)) ip in
  file_ok sb (alloc_view V b) ip1 /\ (forall j, (j < NBLK)%nat -> fblk (alloc_view V b) ip1 j = fblk V ip j) /\
  (forall j, (j < NBLK)%nat -> fblk V ip j <> 0 -> alloc_view V b (fblk V ip j) = V (fblk V ip j)) /\
  extends sb V ip (alloc_view V b) ip1 /\ nfree sb V = S (nfree sb (alloc_view V b)).
Proof.
  intros HF HV Hi Hb Hu ip1. pose proof (fo_len _ _ _ HF) as Hlen. pose proof (data_pos HG b Hb) as Hbpos.
  pose proof (alloc_marked V b HV Hb Hu) as Hm.
  assert (<[NDIRECT := b]> (addrs ip) !!! NDIRECT = b) as Hl by (apply list_lookup_total_insert_eq; lia).
  assert (forall j, (j < NBLK)%nat -> fblk (alloc_view V b) ip1 j = fblk V ip j) as Hblk.
  { intros j Hj. unfold fblk, ip1. cbn [set_addrs set_meta addrs]. rewrite Hi, Hl. case_decide.
    - by rewrite list_lookup_total_insert_ne by lia.
    - rewrite decide_False by lia. rewrite alloc_zero, rd32_zero_block. by rewrite decide_True. }
  assert (forall n, n <> sb_bmapstart sb -> n <> b -> alloc_view V b n = V n) as HV' by (intros; by apply alloc_other).
  pose proof (fo_map _ _ _ HF) as HM. rewrite Hi in HM. split_and!; [|done| | |by apply (nfree_alloc HG)].
  - apply (file_ok_remap V); [done|by rewrite length_insert| |by intros j Hj ?; rewrite Hblk].
    rewrite Hl. by eapply mapping_attach_ind.
  - intros j Hj Hnz. destruct (mo_data _ _ _ _ HM j Hj Hnz) as [Hd Hs]. apply HV'; [by apply data_ne_bmap|by eapply marked_ne].
  - split.
    + intros b' Hb' Hs. by eapply marked_used.
    + intros n Hbm Hno Hd. apply HV'; [done|]. intros ->. rewrite Hd in Hu; done.
    + intros n [Hnz [->|(j & Hj & <-)]]; [congruence|]. split; [done|]. right. exists j. split; [done|]. by apply Hblk.
    + intros n [Hnz [->|(j & Hj & <-)]].
      * right. unfold ip1. cbn [set_addrs set_meta addrs]. by rewrite Hl.
      * left. rewrite Hblk in * by done. split; [done|]. right. by exists j.
Qed.

(** A block mapped after the indirect block was allocated. *)
Lemma bmapped_after_ind V ip b k V2 ip2 a :
  file_ok sb V ip -> (forall n, length (V n) = BSIZE) -> addrs ip !!! NDIRECT = 0 -> is_data sb b -> used sb V b = false ->
  (NDIRECT <= k)%nat -> bmapped 1 (alloc_view V b) (set_addrs (<[NDIRECT := b]> (addrs ip)) ip) k V2 ip2 a -> bmapped 2 V ip k V2 ip2 a.
Proof.
  intros HF HV Hi0 Hb Hu Hk HB. destruct (attach_ind V ip b) as (HF1 & Hblk1 & Hdata1 & He1 & Hn1); try done.
  destruct HB as [B1 B2 B3 B4 B5 B6 B7 B8 B9 _]. split; try done.
  - intros j Hj Hnz. destruct (B4 j Hj) as [E1 E2]; [by rewrite Hblk1|]. rewrite Hblk1 in E1, E2 by done.
    split; [done|]. by rewrite E2, Hdata1.
  - eapply extends_trans; [done|done|]. intros n Hn. apply Z.lt_le_incl, (data_pos HG), Hn.
  - lia.
  - intros j Hj Hne. by rewrite B9, Hblk1.
  - unfold fblk. rewrite decide_False by lia. by rewrite decide_True.
Qed.
End attach.

(** ** [bmap] *)

(** A state with another entry in the inode cache and another log. *)
Definition with_ip (s : fs_state) (i : nat) (ip : inode) (l : log_state) : fs_state :=
  mk_fs (fsb s) (<[i := ip]> (icache s)) l.

Lemma inode_at_ret s i ip : icache s !! i = Some ip -> inode_at i s = Ret s ip.
Proof. intros Hi. unfold inode_at. rewrite gets_bind, Hi. done. Qed.
Lemma upd_inode_ret s i ip f : icache s !! i = Some ip -> upd_inode i f s = Ret (with_ip s i (f ip) (fls s)) tt.
Proof. intros Hi. unfold upd_inode. mrun (inode_at_ret _ _ _ Hi). done. Qed.
Lemma with_ip_lookup s i ip ip' l : icache s !! i = Some ip -> icache (with_ip s i ip' l) !! i = Some ip'.
Proof. intros Hi. apply list_lookup_insert_eq. by eapply lookup_lt_Some. Qed.
Lemma with_ip_same s i ip l : icache s !! i = Some ip -> with_ip s i ip l = at_log s l.
Proof. intros Hi. unfold with_ip, at_log. f_equal. by apply list_insert_id. Qed.
Lemma with_ip_twice s i ip ip' l l' : with_ip (with_ip s i ip l) i ip' l' = with_ip s i ip' l'.
Proof. unfold with_ip. cbn. by rewrite list_insert_insert_eq. Qed.
Lemma at_log_id s : at_log s (fls s) = s.
Proof. by destruct s. Qed.
Lemma at_log_twice s l l' : at_log (at_log s l) l' = at_log s l'.
Proof. done. Qed.

Section bmap.
Context `{BlockDriver} {c : txc} {sb : superblock} (HG : fs_geom c sb) (Hout : 1 <= c_out c).
Implicit Types (V : Z -> block) (L : list Z).

Lemma bmap_entry_mapped s L V addr bn :
  tx c (fls s) ∅ L V -> is_data sb addr -> rd32 (V addr) (4 * bn) <> 0 ->
  exists l', bmap_entry ROOTDEV addr bn s = Ret (at_log s l') (rd32 (V addr) (4 * bn)) /\ tx c l' ∅ L V.
Proof.
  intros HT Hd Hnz. pose proof (tx_fits _ _ _ _ _ HT) as [HL _].
  destruct (tx_read c (fls s) ∅ L V addr) as (l1 & bp & l2 & R1 & R2 & R3 & HT');
    [done|apply (data_home HG), Hd|done|rewrite map_size_empty; unfold LOGSIZE, NBUF in *; lia|].
  exists l2. split; [|done]. unfold bmap_entry. lrun R1. lrun R2. rewrite (proj2 (Z.eqb_neq _ _)) by done.
  rewrite ret_bind. lrun R3. done.
Qed.

Lemma bmap_entry_new s L V addr bn b :
  tx c (fls s) ∅ L V -> fsb s = sb -> is_data sb addr -> used sb V addr = true -> rd32 (V addr) (4 * bn) = 0 ->
  first_free (sb := sb) V b -> Z.of_nat (length L) + 3 <= c_size c - 1 ->
  exists l', bmap_entry ROOTDEV addr bn s = Ret (at_log s l') b /\
    tx c l' ∅ (absorb addr (absorb b (absorb (sb_bmapstart sb) L)))
      (vset (alloc_view (sb := sb) V b) addr (wr32 (V addr) (4 * bn) b)).
Proof.
  intros HT Hsb Hd Hu H0 Hff Hroom. pose proof (tx_fits _ _ _ _ _ HT) as [HL Hfit].
  pose proof (data_home HG _ Hd) as Hhome. pose proof (data_ne_bmap _ Hd) as Hnb.
  assert (c_size c <= 30) as Hsz.
  { pose proof (tx_log _ _ _ _ _ HT) as [Hg _ _ _ _ _]. rewrite <- (tx_const _ _ _ _ _ HT). destruct Hg. unfold LOGSIZE in *. cbn. lia. }
  assert (addr <> b) as Hab by (intros ->; destruct Hff as (_ & ? & _); congruence).
  destruct (tx_bread c (fls s) ∅ L V addr) as (l1 & bp & R1 & HT1);
    [done|apply Hhome|done|rewrite map_size_empty; unfold LOGSIZE, NBUF in *; lia|].
  pose proof (tx_data _ _ _ _ _ _ _ HT1 (lookup_insert_eq _ _ _)) as R2.
  destruct (balloc_law HG Hout (at_log s l1) (<[addr := bp]> ∅) L V b) as (l2 & R3 & HT2);
    [done|done|done|by rewrite lookup_insert_ne|by rewrite lookup_insert_ne| |lia|].
  { rewrite map_size_insert_None, map_size_empty by done. unfold NBUF. lia. }
  fold (alloc_view (sb := sb) V b) in HT2.
  pose proof (tx_data _ _ _ _ _ _ _ HT2 (lookup_insert_eq _ _ _)) as R4. rewrite alloc_other in R4 by done.
  set (L2 := absorb b (absorb (sb_bmapstart sb) L)) in *.
  assert (length L2 <= S (S (length L)))%nat as HL2.
  { unfold L2. pose proof (absorb_length b (absorb (sb_bmapstart sb) L)). pose proof (absorb_length (sb_bmapstart sb) L). lia. }
  destruct (tx_store _ _ _ _ _ addr bp (wr32 (V addr) (4 * bn) b) HT2 (lookup_insert_eq _ _ _)) as (l3 & R5 & HT3).
  { unfold wr32. rewrite wr_length. by eapply tx_length. }
  destruct (tx_log_write _ _ _ _ _ addr bp HT3 Hout (lookup_insert_eq _ _ _) Hhome) as (l4 & R6 & HT4); [lia|].
  destruct (tx_brelse _ _ _ _ _ addr bp HT4 (lookup_insert_eq _ _ _)) as (l5 & R7 & HT5); [left; apply absorb_in|].
  rewrite delete_insert_id in HT5 by done. exists l5. split; [|done].
  unfold bmap_entry. lrun R1. lrun R2. rewrite H0. cbn [Z.eqb].
  erewrite bind_ret. 2: { mrun R3. lrun R4. lrun R5. lrun R6. reflexivity. }
  lrun R7. done.
Qed.

Lemma fo_addr V ip k : file_ok sb V ip -> (k <= NDIRECT)%nat -> addrs ip !! k = Some (addrs ip !!! k).
Proof. intros HF Hk. apply list_lookup_lookup_total_lt. rewrite (fo_len _ _ _ HF). lia. Qed.

(** A mapped block is found without changing anything. *)
Lemma bmap_mapped s i ip L V k :
  tx c (fls s) ∅ L V -> icache s !! i = Some ip -> file_ok sb V ip -> (k < NBLK)%nat -> fblk V ip k <> 0 ->
  exists l', bmap i (Z.of_nat k) s = Ret (at_log s l') (fblk V ip k) /\ tx c l' ∅ L V.
Proof.
  intros HT Hi HF Hk Hnz. unfold bmap. mrun (inode_at_ret _ _ _ Hi). unfold fblk in *.
  destruct (decide (k < NDIRECT)%nat) as [Hd|Hd].
  - rewrite (proj2 (Z.ltb_lt _ _)) by lia. rewrite Nat2Z.id, (fo_addr _ _ _ HF) by lia. rewrite from_opt_bind.
    rewrite (proj2 (Z.eqb_neq _ _)) by done. exists (fls s). by rewrite at_log_id.
  - rewrite (proj2 (Z.ltb_ge _ _)) by lia. rewrite (proj2 (Z.ltb_lt _ _)) by (unfold NBLK, NDIRECT, NINDIRECT in *; lia).
    destruct (decide (addrs ip !!! NDIRECT = 0)) as [|Hind]; [done|].
    rewrite (fo_addr _ _ _ HF) by lia. rewrite from_opt_bind.
    rewrite (proj2 (Z.eqb_neq _ _)) by done. rewrite ret_bind, (fo_dev _ _ _ HF).
    replace (Z.to_nat (Z.of_nat k - Z.of_nat NDIRECT)) with (k - NDIRECT)%nat by lia.
    destruct (bmap_entry_mapped s L V (addrs ip !!! NDIRECT) (k - NDIRECT)) as (l' & R & HT'); [done| |done|].
    + by apply (fo_u32 V).
    + exists l'. rewrite R. done.
Qed.

Lemma meta_extends V ip V' ip' : meta_used sb V -> extends sb V ip V' ip' -> meta_used sb V'.
Proof. intros Hm He b Hb. apply (ex_used _ _ _ _ _ He); [lia|]. by apply Hm. Qed.

Lemma bmapped_refl V ip k : file_ok sb V ip -> (k < NBLK)%nat -> fblk V ip k <> 0 -> bmapped (sb := sb) 2 V ip k V ip (fblk V ip k).
Proof. intros HF Hk Hnz. split; auto; [apply extends_refl|by destruct ip|lia]. Qed.

Lemma bmapped_weaken V ip k V' ip' a : bmapped (sb := sb) 1 V ip k V' ip' a -> bmapped (sb := sb) 2 V ip k V' ip' a.
Proof. intros [B1 B2 B3 B4 B5 B6 B7 B8]. split; try done. lia. Qed.


(** An entry of the indirect block is allocated. *)
(** The indirect block of a file, if it has one. *)
Definition inds (ip : inode) : list Z := if decide (addrs ip !!! NDIRECT = 0) then [] else [addrs ip !!! NDIRECT].

Lemma inds_in ip : addrs ip !!! NDIRECT <> 0 -> addrs ip !!! NDIRECT ∈ inds ip.
Proof. intros Hn. unfold inds. rewrite decide_False by done. by apply list_elem_of_singleton. Qed.

(** The blocks a computation added to the transaction. *)
Definition logs (L L' B : list Z) : Prop := forall n, n ∈ L' -> n ∈ L \/ n ∈ B.

Lemma logs_absorb n L L' B : logs L L' B -> n ∈ B -> logs L (absorb n L') B.
Proof.
  intros HL Hn m. unfold absorb. case_decide; [apply HL|]. rewrite elem_of_app, list_elem_of_singleton.
  intros [?| ->]; [by apply HL|by right].
Qed.

Lemma logs_refl L B : logs L L B.
Proof. by left. Qed.

Lemma logs_trans L1 L2 L3 B1 B2 : logs L1 L2 B1 -> logs L2 L3 B2 -> logs L1 L3 (B1 ++ B2).
Proof. intros H1 H2 n Hn. rewrite elem_of_app. destruct (H2 n Hn) as [Hn'|]; [destruct (H1 n Hn')|]; auto. Qed.

Lemma logs_weaken L L' B B' : logs L L' B -> (forall n, n ∈ B -> n ∈ B') -> logs L L' B'.
Proof. intros HL HB n Hn. destruct (HL n Hn); auto. Qed.

Lemma bmap_new_entry s i ip L V k :
  tx c (fls s) ∅ L V -> fsb s = sb -> icache s !! i = Some ip -> file_ok sb V ip -> (NDIRECT <= k < NBLK)%nat ->
  addrs ip !!! NDIRECT <> 0 -> fblk V ip k = 0 -> meta_used sb V -> (1 <= nfree sb V)%nat ->
  Z.of_nat (length L) + 3 <= c_size c - 1 ->
  exists l' L' V' a, bmap_entry ROOTDEV (addrs ip !!! NDIRECT) (k - NDIRECT) s = Ret (at_log s l') a /\
    tx c l' ∅ L' V' /\ logs L L' (sb_bmapstart sb :: a :: inds ip) /\ bmapped (sb := sb) 1 V ip k V' ip a.
Proof.
  intros HT Hsb Hi HF Hk Hind H0 Hm Hfree Hroom. destruct (first_free_exists HG V Hfree Hm) as (b & Hff).
  destruct (fo_u32 V ip HF Hind) as [Hd Hu].
  assert (rd32 (V (addrs ip !!! NDIRECT)) (4 * (k - NDIRECT)) = 0) as Hrd.
  { unfold fblk in H0. rewrite decide_False, decide_False in H0 by (done || lia). done. }
  destruct (bmap_entry_new s L V (addrs ip !!! NDIRECT) (k - NDIRECT) b) as (l' & R & HT'); try done.
  eexists l', _, _, b. split_and!; [exact R|exact HT'|pose proof (inds_in _ Hind); repeat apply logs_absorb; [apply logs_refl|set_solver..]|].
  apply (attach_entry HG); try done; try apply Hff. intros n. by eapply tx_length.
Qed.

(** [bmap] finds block [k] of the file, or allocates it, and what it needs on
    the way to it. *)
Lemma bmap_law s i ip L V k :
  tx c (fls s) ∅ L V -> fsb s = sb -> icache s !! i = Some ip -> file_ok sb V ip -> (k < NBLK)%nat ->
  meta_used sb V -> (2 <= nfree sb V)%nat -> Z.of_nat (length L) + 5 <= c_size c - 1 ->
  exists l' L' V' ip' a, bmap i (Z.of_nat k) s = Ret (with_ip s i ip' l') a /\
    tx c l' ∅ L' V' /\ logs L L' (sb_bmapstart sb :: a :: inds ip') /\ bmapped (sb := sb) 2 V ip k V' ip' a.
Proof.
  intros HT Hsb Hi HF Hk Hm Hfree Hroom. pose proof (fun n => tx_length _ _ _ _ _ n HT) as HV.
  destruct (decide (fblk V ip k = 0)) as [H0|Hnz].
  2: { destruct (bmap_mapped s i ip L V k) as (l' & R & HT'); try done.
    exists l', L, V, ip, (fblk V ip k). rewrite with_ip_same by done. split_and!; try done; [apply logs_refl|by apply bmapped_refl]. }
  unfold bmap. mrun (inode_at_ret _ _ _ Hi). rewrite (fo_dev _ _ _ HF).
  assert (c_size c <= 30) as Hsz.
  { pose proof (tx_log _ _ _ _ _ HT) as [Hg _ _ _ _ _]. rewrite <- (tx_const _ _ _ _ _ HT). destruct Hg. unfold LOGSIZE in *. cbn. lia. }
  destruct (first_free_exists HG V) as (b & Hff); [lia|done|]. pose proof Hff as (Hb & Hu & _).
  destruct (balloc_law HG Hout s ∅ L V b) as (l1 & R1 & HT1);
    [done|done|done|done|done|rewrite map_size_empty; unfold NBUF; lia|lia|].
  pose proof (absorb_length b (absorb (sb_bmapstart sb) L)) as HL1. pose proof (absorb_length (sb_bmapstart sb) L) as HL0.
  destruct (decide (k < NDIRECT)%nat) as [Hd|Hd].
  - rewrite (proj2 (Z.ltb_lt _ _)) by lia. rewrite Nat2Z.id, (fo_addr _ _ _ HF) by lia. rewrite from_opt_bind.
    assert (addrs ip !!! k = 0) as Hk0 by (unfold fblk in H0; by rewrite decide_True in H0).
    rewrite Hk0. cbn [Z.eqb]. mrun R1. erewrite bind_ret by (by apply upd_inode_ret).
    exists l1. eexists _, _, _, b. split_and!; [reflexivity|exact HT1|repeat apply logs_absorb; [apply logs_refl|set_solver..]|]. apply bmapped_weaken. by apply (attach_direct HG).
  - rewrite (proj2 (Z.ltb_ge _ _)) by lia. rewrite (proj2 (Z.ltb_lt _ _)) by (unfold NBLK, NDIRECT, NINDIRECT in *; lia).
    rewrite (fo_addr _ _ _ HF) by lia. rewrite from_opt_bind.
    replace (Z.to_nat (Z.of_nat k - Z.of_nat NDIRECT)) with (k - NDIRECT)%nat by lia.
    destruct (Z.eqb_spec (addrs ip !!! NDIRECT) 0) as [Hi0|Hi0].
    + destruct (attach_ind HG V ip b) as (HF1 & Hblk1 & Hdata1 & He1 & Hn1); try done.
      set (ip1 := set_addrs (<[NDIRECT := b]> (addrs ip)) ip) in *.
      assert (addrs ip1 !!! NDIRECT = b) as Hip1.
      { apply list_lookup_total_insert_eq. rewrite (fo_len _ _ _ HF). lia. }
      destruct (bmap_new_entry (with_ip s i ip1 l1) i ip1 (absorb b (absorb (sb_bmapstart sb) L)) (alloc_view (sb := sb) V b) k) as (l2 & L2 & V2 & a & R2 & HT2 & HL2 & HB);
        [exact HT1|done|by eapply with_ip_lookup|done|lia|rewrite Hip1; pose proof (data_pos HG b Hb); lia|
         by rewrite Hblk1|by eapply meta_extends|lia|lia|].
      exists l2, L2, V2, ip1, a. rewrite Hip1 in R2. assert (addrs ip1 !!! NDIRECT ∈ inds ip1) as Hin1.
      { apply inds_in. rewrite Hip1. pose proof (data_pos HG b Hb). lia. }
      rewrite Hip1 in Hin1. split_and!; [|done| |].
      * erewrite bind_ret. 2: { mrun R1. erewrite bind_ret by (by apply upd_inode_ret). reflexivity. }
        exact R2.
      * eapply logs_weaken; [eapply logs_trans; [|exact HL2]; apply logs_absorb with (B := [b; sb_bmapstart sb]); [apply logs_absorb; [apply logs_refl|]|]|]; set_solver.
      * apply (bmapped_after_ind HG V ip b); done || lia.
    + rewrite ret_bind. destruct (bmap_new_entry s i ip L V k) as (l2 & L2 & V2 & a & R2 & HT2 & HL2 & HB); try done; [lia|lia|lia|].
      exists l2, L2, V2, ip, a. rewrite R2, with_ip_same by done. split_and!; try done. by apply bmapped_weaken.
Qed.
End bmap.

(** ** [readi] *)

Lemma fbyte_chunk V ip (off m : nat) :
  length (V (fblk V ip (off / BSIZE))) = BSIZE -> (off mod BSIZE + m <= BSIZE)%nat ->
  sub_bytes (V (fblk V ip (off / BSIZE))) (off mod BSIZE) m = fbyte V ip <$> seq off m.
Proof.
  intros HV Hm. apply list_eq. intros j. destruct (decide (j < m)%nat) as [Hj|Hj].
  - rewrite sub_bytes_lookup by done. rewrite list_lookup_fmap, lookup_seq_lt by done. cbn. unfold fbyte.
    assert ((off + j) / BSIZE = off / BSIZE /\ (off + j) mod BSIZE = off mod BSIZE + j)%nat as [-> ->].
    { unfold BSIZE in *. pose proof (Nat.div_mod_eq off 512) as E. split.
      - symmetry. apply (Nat.div_unique _ _ _ (off mod 512 + j)%nat); lia.
      - symmetry. apply (Nat.mod_unique _ _ (off / 512)%nat); lia. }
    apply list_lookup_lookup_total_lt. lia.
  - rewrite lookup_ge_None_2 by (unfold sub_bytes; rewrite length_take; lia).
    by rewrite lookup_ge_None_2 by (rewrite length_fmap, length_seq; lia).
Qed.

Section rw.
Context `{BlockDriver} {c : txc} {sb : superblock} (HG : fs_geom c sb) (Hout : 1 <= c_out c).
Implicit Types (V : Z -> block) (L : list Z).

Lemma block_index off : 0 <= off -> Z.of_nat (Z.to_nat off / BSIZE) = off / BSIZEz /\
  Z.to_nat (off mod BSIZEz) = (Z.to_nat off mod BSIZE)%nat.
Proof.
  intros Ho. unfold BSIZE, BSIZEz. rewrite Nat2Z.inj_div, Z2Nat.id by done. split; [done|].
  rewrite Z2Nat.inj_mod by lia. done.
Qed.

Lemma readi_loop_law fuel s i ip L V off n :
  tx c (fls s) ∅ L V -> icache s !! i = Some ip -> file_ok sb V ip ->
  0 <= off -> 0 <= n -> off + n <= isize ip -> (Z.to_nat n < fuel)%nat ->
  exists l', readi_loop fuel i off n s = Ret (at_log s l') (fbyte V ip <$> seq (Z.to_nat off) (Z.to_nat n)) /\ tx c l' ∅ L V.
Proof.
  intros HT Hi HF. revert s off n HT Hi. induction fuel as [|fuel IH]; intros s off n HT Hi Ho Hn Hend Hfuel; [lia|].
  cbn [readi_loop]. destruct (Z.ltb_spec 0 n) as [Hpos|Hz].
  2: { assert (n = 0) as -> by lia. exists (fls s). by rewrite at_log_id. }
  pose proof (fo_size _ _ _ HF) as Hsize. destruct (block_index off Ho) as [Hk Hmod].
  set (k := (Z.to_nat off / BSIZE)%nat) in *. set (m := Z.min n (BSIZEz - off mod BSIZEz)).
  assert (0 <= off mod BSIZEz < BSIZEz) as Hmb by (apply Z.mod_pos_bound; unfold BSIZEz; lia).
  assert (off = BSIZEz * (off / BSIZEz) + off mod BSIZEz) as Hdm by (apply Z.div_mod; unfold BSIZEz; lia).
  assert (1 <= m <= n) as Hm by lia.
  assert (fblk V ip k <> 0) as Hnz by (apply (fo_mapped _ _ _ HF); unfold BSIZEz in *; lia).
  assert (k < NBLK)%nat as Hkb by (unfold MAXFILE, BSIZEz, NBLK in *; lia).
  mrun (inode_at_ret _ _ _ Hi). rewrite <- Hk.
  destruct (bmap_mapped HG s i ip L V k) as (l1 & R1 & HT1); try done. mrun R1. rewrite (fo_dev _ _ _ HF).
  destruct (mo_data _ _ _ _ (fo_map _ _ _ HF) k Hkb Hnz) as [Hd _]. pose proof (tx_fits _ _ _ _ _ HT) as [HL _].
  destruct (tx_read c l1 ∅ L V (fblk V ip k)) as (l2 & bp & l3 & R2 & R3 & R4 & HT3);
    [done|apply (data_home HG), Hd|done|rewrite map_size_empty; unfold LOGSIZE, NBUF in *; lia|].
  lrun R2. lrun R3. lrun R4. fold m.
  assert (u32 (off + m) = off + m) as -> by (apply u32_small; unfold is_u32, MAXFILE, BSIZEz in *; lia).
  destruct (IH (at_log s l3) (off + m) (n - m)) as (l4 & R5 & HT5); [done|done|lia|lia|lia|lia|].
  rewrite !at_log_twice. mrun R5. exists l4. split; [|done]. unfold ret. f_equal.
  rewrite Hmod. unfold k. rewrite fbyte_chunk.
  - rewrite <- fmap_app. f_equal. replace (Z.to_nat (off + m)) with (Z.to_nat off + Z.to_nat m)%nat by lia.
    rewrite <- seq_app. f_equal. lia.
  - by eapply tx_length.
  - unfold BSIZE, BSIZEz in *. lia.
Qed.

Lemma content_length V ip : length (content V ip) = Z.to_nat (isize ip).
Proof. unfold content. by rewrite length_fmap, length_seq. Qed.

Lemma content_sub V ip off n : (off + n <= Z.to_nat (isize ip))%nat ->
  sub_bytes (content V ip) off n = fbyte V ip <$> seq off n.
Proof.
  intros Hn. unfold content, sub_bytes. rewrite <- fmap_drop, <- fmap_take. f_equal.
  apply list_eq. intros j. destruct (decide (j < n)%nat).
  - rewrite lookup_take_lt, lookup_drop, !lookup_seq_lt by lia. f_equal.
  - rewrite !lookup_ge_None_2; [done|rewrite length_seq; lia|rewrite length_take; lia].
Qed.

Lemma readi_law devsw s i ip L V off n :
  tx c (fls s) ∅ L V -> icache s !! i = Some ip -> file_ok sb V ip -> is_u32 off -> is_u32 n ->
  if decide (off <= isize ip /\ off + n < 2 ^ 32)
  then exists l', let m := Z.min n (isize ip - off) in
    readi devsw i off n s = Ret (at_log s l') (m, sub_bytes (content V ip) (Z.to_nat off) (Z.to_nat m)) /\ tx c l' ∅ L V
  else readi devsw i off n s = Ret s (-1, []).
Proof.
  intros HT Hi HF Ho Hn. unfold readi. mrun (inode_at_ret _ _ _ Hi).
  rewrite (proj2 (Z.eqb_neq _ _)) by apply (fo_type _ _ _ HF). pose proof (fo_size _ _ _ HF) as Hsize.
  unfold is_u32 in *. case_decide as Hok.
  - rewrite (proj2 (Z.ltb_ge (isize ip) off)) by lia. rewrite u32_small by (unfold is_u32; lia).
    rewrite (proj2 (Z.ltb_ge (off + n) off)) by lia. cbn [orb].
    set (m := Z.min n (isize ip - off)).
    assert ((if isize ip <? off + n then u32 (isize ip - off) else n) = m) as ->.
    { destruct (Z.ltb_spec (isize ip) (off + n)); [|lia]. rewrite u32_small; [lia|]. unfold is_u32, MAXFILE, BSIZEz in *. lia. }
    destruct (readi_loop_law (S (Z.to_nat m)) s i ip L V off m) as (l' & R & HT'); try done; try lia.
    exists l'. split; [|done]. mrun R. unfold ret. rewrite content_sub by lia.
    rewrite i32_small; [done|]. unfold MAXFILE, BSIZEz in *. lia.
  - destruct (Z.ltb_spec (isize ip) off); [done|]. rewrite (proj2 (Z.ltb_lt _ _)); [done|].
    unfold u32. rewrite <- (Z_mod_plus_full _ (-1)), Z.mod_small by lia. lia.
Qed.

(** C21: [readi] refines reading a segment of a list of bytes: it returns as many
    of the [n] bytes from [off] on as the file has, exactly those bytes, and
    changes neither the file nor any other block; an offset beyond the end or
    an overflowing range is an error. *)
Theorem readi_refines devsw s i ip L V off n :
  tx c (fls s) ∅ L V -> icache s !! i = Some ip -> file_ok sb V ip -> is_u32 off -> is_u32 n ->
  if decide (off <= isize ip /\ off + n < 2 ^ 32)
  then exists l', let m := Z.min n (isize ip - off) in
    readi devsw i off n s = Ret (at_log s l') (m, sub_bytes (content V ip) (Z.to_nat off) (Z.to_nat m)) /\ tx c l' ∅ L V
  else readi devsw i off n s = Ret s (-1, []).
Proof. apply readi_law. Qed.

(** ** [writei] *)

Lemma data_write V ip k a d :
  file_ok sb V ip -> (k < NBLK)%nat -> fblk V ip k = a -> a <> 0 ->
  file_ok sb (vset V a d) ip /\ (forall j, fblk (vset V a d) ip j = fblk V ip j) /\
  extends sb V ip (vset V a d) ip /\ nfree sb (vset V a d) = nfree sb V.
Proof.
  intros HF Hk Ha Hnz. pose proof (fo_map _ _ _ HF) as HM. subst a.
  destruct (mo_data _ _ _ _ HM k Hk Hnz) as [Hd Hu]. pose proof (data_ne_bmap _ Hd) as Hbm.
  pose proof (mo_ne _ _ _ _ HM k Hk Hnz) as Hind.
  assert (forall j, fblk (vset V (fblk V ip k) d) ip j = fblk V ip j) as Hblk.
  { intros j. set (a := fblk V ip k) in *. unfold fblk. destruct (decide (j < NDIRECT)%nat); [done|].
    destruct (decide (addrs ip !!! NDIRECT = 0)); [done|]. by rewrite vset_ne. }
  assert (forall n, owns (vset V (fblk V ip k) d) ip n <-> owns V ip n) as Ho.
  { intros n. unfold owns. setoid_rewrite Hblk. done. }
  split_and!; [|done| |by apply nfree_ext; rewrite vset_ne].
  - destruct HF as [H1 H2 H3 H4 H5 H6]. split; try done; [|intros j Hj; rewrite Hblk; auto].
    destruct H5 as [G1 G2 G3 G4]. split; intros *; rewrite ?Hblk, ?used_vset by done; auto.
  - split; intros n; rewrite ?used_vset, ?Ho by done; auto. intros _ Hn _. rewrite vset_ne; [done|].
    intros ->. apply Hn. split; [done|]. right. by exists k.
Qed.

(** [src] was stored at [off] of the file, whose size field is still to be set. *)
Record wrote V (ip : inode) (off : nat) (src : list Z) V' (ip' : inode) : Prop := {
  wr_ok : file_ok sb V' ip';
  wr_in : forall j, (j < length src)%nat -> fblk V' ip' ((off + j) / BSIZE) <> 0 /\ fbyte V' ip' (off + j) = src !!! j;
  wr_out : forall o, (o / BSIZE < NBLK)%nat -> fblk V ip (o / BSIZE) <> 0 -> (o < off \/ off + length src <= o)%nat ->
    fbyte V' ip' o = fbyte V ip o;
  wr_keep : forall k, (k < NBLK)%nat -> fblk V ip k <> 0 -> fblk V' ip' k <> 0;
  wr_ext : extends sb V ip V' ip';
  wr_meta : ip' = set_addrs (addrs ip') ip;
  wr_hit : (forall j, (j < length src)%nat -> fblk V ip ((off + j) / BSIZE) <> 0) -> addrs ip' = addrs ip
}.

Lemma wrote_nil V ip off : file_ok sb V ip -> wrote V ip off [] V ip.
Proof. intros HF. split; try done; [cbn; lia|apply extends_refl|by destruct ip]. Qed.

Lemma wrote_app V ip off s1 V1 ip1 s2 V2 ip2 :
  (off + length s1 + length s2 <= NBLK * BSIZE)%nat ->
  wrote V ip off s1 V1 ip1 -> wrote V1 ip1 (off + length s1) s2 V2 ip2 -> wrote V ip off (s1 ++ s2) V2 ip2.
Proof.
  intros Hb [A1 A2 A3 A4 A5 A6 A7] [B1 B2 B3 B4 B5 B6 B7].
  assert (forall o, (o < NBLK * BSIZE)%nat -> (o / BSIZE < NBLK)%nat) as Hdiv.
  { intros o Ho. apply Nat.Div0.div_lt_upper_bound. unfold BSIZE in *. lia. }
  split; try done.
  - intros j. rewrite length_app. intros Hj. destruct (decide (j < length s1)%nat) as [Hj1|Hj1].
    + destruct (A2 j Hj1) as [E1 E2]. rewrite lookup_total_app_l by done. split; [apply B4; [apply Hdiv; lia|done]|].
      rewrite B3; [done|apply Hdiv; lia|done|lia].
    + rewrite lookup_total_app_r by lia. destruct (B2 (j - length s1)%nat) as [E1 E2]; [lia|].
      replace (off + length s1 + (j - length s1))%nat with (off + j)%nat in * by lia. done.
  - intros o Ho Hnz. rewrite length_app. intros Hr. rewrite B3; [apply A3; [done..|lia]|done|by apply A4|lia].
  - intros k Hk Hnz. apply B4; [done|]. by apply A4.
  - eapply extends_trans; [done|done|]. intros n Hn. apply Z.lt_le_incl, (data_pos HG), Hn.
  - rewrite B6, A6. by destruct ip.
  - rewrite length_app. intros Hj. rewrite B7, A7; [done| |].
    + intros j ?. apply Hj. lia.
    + intros j ?. rewrite <- Nat.add_assoc. apply A4; [apply Hdiv; lia|apply Hj; lia].
Qed.

Lemma block_split off j : (off mod BSIZE + j < BSIZE)%nat ->
  ((off + j) / BSIZE = off / BSIZE /\ (off + j) mod BSIZE = off mod BSIZE + j)%nat.
Proof.
  intros Hj. unfold BSIZE in *. pose proof (Nat.div_mod_eq off 512) as E. split.
  - symmetry. apply (Nat.div_unique _ _ _ (off mod 512 + j)%nat); lia.
  - symmetry. apply (Nat.mod_unique _ _ (off / 512)%nat); lia.
Qed.

(** One round of the loop: [bmap] and the store of a chunk into the block. *)
Lemma wrote_chunk f V ip V1 ip1 a off src :
  (forall n, length (V1 n) = BSIZE) ->
  (off / BSIZE < NBLK)%nat -> (off mod BSIZE + length src <= BSIZE)%nat ->
  src <> [] -> bmapped (sb := sb) f V ip (off / BSIZE) V1 ip1 a ->
  wrote V ip off src (vset V1 a (memmove_in (V1 a) (off mod BSIZE) src)) ip1.
Proof.
  intros HV Hk Hlen Hne HB. set (d := memmove_in _ _ _).
  destruct (data_write V1 ip1 _ a d (bm_ok _ _ _ _ _ _ _ HB) Hk (bm_blk _ _ _ _ _ _ _ HB) (bm_nz _ _ _ _ _ _ _ HB))
    as (HF & Hblk & He & Hn).
  assert (forall o, fbyte (vset V1 a d) ip1 o = if decide (fblk V1 ip1 (o / BSIZE) = a) then d !!! (o mod BSIZE)%nat else fbyte V1 ip1 o) as Hbyte.
  { intros o. unfold fbyte. rewrite Hblk. case_decide as Ha; [by rewrite Ha, vset_eq|by rewrite vset_ne]. }
  pose proof (fo_map _ _ _ (bm_ok _ _ _ _ _ _ _ HB)) as HM. split; try done.
  - intros j Hj. destruct (block_split off j) as [E1 E2]; [lia|]. rewrite Hblk, E1, (bm_blk _ _ _ _ _ _ _ HB).
    split; [by apply (bm_nz _ _ _ _ _ _ _ HB)|]. rewrite Hbyte, E1, decide_True by apply (bm_blk _ _ _ _ _ _ _ HB).
    rewrite E2. apply list_lookup_total_correct. unfold d, memmove_in. rewrite list_lookup_inserts by (rewrite ?HV; lia).
    replace (off mod BSIZE + j - off mod BSIZE)%nat with j by lia. by apply list_lookup_lookup_total_lt.
  - intros o Ho Hnz Hr. destruct (bm_old _ _ _ _ _ _ _ HB _ Ho Hnz) as [E1 E2].
    assert (fbyte V1 ip1 o = fbyte V ip o) as Eb by (unfold fbyte; by rewrite E1, E2).
    rewrite Hbyte. case_decide as Ha; [|done]. rewrite <- Eb. unfold fbyte. rewrite Ha.
    assert (o / BSIZE = off / BSIZE)%nat as Eo.
    { apply (mo_inj _ _ _ _ HM); try done; [by rewrite Ha; apply (bm_nz _ _ _ _ _ _ _ HB)|by rewrite Ha, (bm_blk _ _ _ _ _ _ _ HB)]. }
    unfold d, memmove_in. rewrite !list_lookup_total_alt. f_equal.
    pose proof (Nat.div_mod_eq o BSIZE). pose proof (Nat.div_mod_eq off BSIZE). rewrite Eo in *.
    destruct Hr; [apply list_lookup_inserts_lt; lia|apply list_lookup_inserts_ge; lia].
  - intros k Hk' Hnz. rewrite Hblk. by rewrite (proj1 (bm_old _ _ _ _ _ _ _ HB k Hk' Hnz)).
  - eapply extends_trans; [apply (bm_ext _ _ _ _ _ _ _ HB)|done|]. intros n Hn'. apply Z.lt_le_incl, (data_pos HG), Hn'.
  - apply (bm_meta _ _ _ _ _ _ _ HB).
  - intros Hj. apply (bm_hit _ _ _ _ _ _ _ HB). rewrite <- (Nat.add_0_r off). apply Hj. destruct src; [done|cbn; lia].
Qed.

(** [balloc] returns the first free block, zeroed and marked used, and
    changes no other block and no other bit of the bitmap; it panics exactly
    when no data block is free. *)
Theorem balloc_first_free s L V :
  tx c (fls s) ∅ L V -> fsb s = sb -> meta_used sb V -> Z.of_nat (length L) + 2 <= c_size c - 1 ->
  if decide (Exists (fun b => used sb V b = false) (data_blocks sb)) then
    exists l' L' V' b, balloc ROOTDEV s = Ret (at_log s l') b /\ tx c l' ∅ L' V' /\
      is_data sb b /\ used sb V b = false /\ V' b = replicate BSIZE 0 /\
      (forall b', is_data sb b' -> b' < b -> used sb V b' = true) /\
      (forall b', 0 <= b' -> used sb V' b' = bool_decide (b = b') || used sb V b') /\
      (forall n, n <> b -> n <> sb_bmapstart sb -> V' n = V n)
  else balloc ROOTDEV s = Panic "balloc: out of blocks".
Proof.
  intros HT Hsb Hm Hroom. pose proof (fun n => tx_length _ _ _ _ _ n HT) as HV. pose proof (tx_fits _ _ _ _ _ HT) as [HL _].
  case_decide as Hex.
  - assert (1 <= nfree sb V)%nat as Hnf.
    { apply Exists_exists in Hex as (b & Hb & Hu). unfold nfree.
      destruct (filter _ _) eqn:E; [|cbn; lia]. assert (b ∈ ([] : list Z)) as HX; [|set_solver].
      rewrite <- E. by apply list_elem_of_filter. }
    destruct (first_free_exists HG V Hnf Hm) as (b & Hff). pose proof Hff as (Hb & Hu & Hlow).
    assert (c_size c <= 30) as Hsz.
    { pose proof (tx_log _ _ _ _ _ HT) as [Hg _ _ _ _ _]. rewrite <- (tx_const _ _ _ _ _ HT). destruct Hg. unfold LOGSIZE in *. cbn. lia. }
    destruct (balloc_law HG Hout s ∅ L V b) as (l1 & R1 & HT1);
      [done|done|done|done|done|rewrite map_size_empty; unfold NBUF; lia|lia|].
    fold (alloc_view (sb := sb) V b) in HT1. eexists l1, _, _, b. split_and!; [exact R1|exact HT1|done|done|apply alloc_zero| | |].
    + intros b' Hb' Hlt. pose proof (data_pos HG b' Hb'). apply Hlow. lia.
    + apply (alloc_marked HG V b); done.
    + intros n H1 H2. by apply alloc_other.
  - apply (balloc_full_panics HG s L V HT Hsb). intros b Hb.
    destruct (used sb V b) eqn:E; [done|]. destruct (decide (b <= sb_bmapstart sb)) as [Hle|Hgt].
    + rewrite Hm in E by lia. done.
    + exfalso. apply Hex, Exists_exists. exists b. rewrite data_blocks_elem. unfold is_data. split; [lia|done].
Qed.
End rw.

(** ** Witnesses *)

#[local] Existing Instance mem_driver.

Definition demo_inode : inode := mk_inode ROOTDEV 1 1 (Z.lor I_BUSY I_VALID) T_FILE 0 0 1 5 (36 :: replicate NDIRECT 0).
Definition demo_cache : list inode :=
  demo_inode :: replicate 49 (mk_inode 0 0 0 0 0 0 0 0 0 (replicate (S NDIRECT) 0)).

Lemma demo_fblk V k : fblk V demo_inode k = if decide (k = 0%nat) then 36 else 0.
Proof.
  unfold fblk. destruct (decide (k < NDIRECT)%nat) as [Hk|Hk].
  - destruct k; [done|]. unfold demo_inode. cbn [addrs]. rewrite (lookup_total_cons_ne_0 (A := Z)) by done. cbn [Nat.pred].
    apply lookup_total_replicate_2. lia.
  - rewrite (decide_False (P := k = 0%nat)) by (unfold NDIRECT in Hk; lia). by rewrite decide_True.
Qed.

Lemma demo_used V : V 35 = demo_bitmap -> forall b, 0 <= b <= 36 -> used demo_super V b = true.
Proof.
  intros E b Hb. unfold used. cbn [sb_bmapstart demo_super]. rewrite E.
  assert (Forall (fun b => bit_at demo_bitmap b = true) (seq 0 37)) as HF by (apply (bool_decide_unpack _); vm_compute; exact I).
  rewrite Forall_forall in HF. apply HF. apply elem_of_seq. lia.
Qed.

Lemma demo_file_ok V : V 35 = demo_bitmap -> file_ok demo_super V demo_inode.
Proof.
  intros E. split; try done.
  - split.
    + intros k _. rewrite demo_fblk. case_decide; [|done]. intros _. split; [by unfold is_data|by apply demo_used].
    + done.
    + intros j k _ _. rewrite !demo_fblk. do 2 case_decide; congruence.
    + intros k _. rewrite demo_fblk. case_decide; done.
  - intros k Hk. rewrite demo_fblk. rewrite decide_True; [done|]. cbn in Hk. unfold BSIZEz in Hk. lia.
Qed.

Lemma demo_content V : V 36 = demo_text -> content V demo_inode = [104; 101; 108; 108; 111].
Proof.
  intros Htx. unfold content. cbn [isize demo_inode].
  change (seq 0 (Z.to_nat 5)) with [0; 1; 2; 3; 4]%nat. cbn [fmap list_fmap]. unfold fbyte. rewrite !demo_fblk.
  change (0 / BSIZE)%nat with 0%nat. change (1 / BSIZE)%nat with 0%nat. change (2 / BSIZE)%nat with 0%nat.
  change (3 / BSIZE)%nat with 0%nat. change (4 / BSIZE)%nat with 0%nat. rewrite decide_True, Htx by done. by vm_compute.
Qed.

Lemma readi_refines_witness : exists c s l', fs_geom c demo_super /\ icache s !! 0%nat = Some demo_inode /\
  readi [] 0 1 100 s = Ret (at_log s l') (4, [101; 108; 108; 111]).
Proof.
  destruct demo_tx as (c & l & V & HT & HG & Hs & Ho & _ & Hbm & Htx). exists c, (mk_fs demo_super demo_cache l).
  pose proof (readi_refines HG [] (mk_fs demo_super demo_cache l) 0 demo_inode [] V 1 100 HT eq_refl
    (demo_file_ok V Hbm) ltac:(by vm_compute) ltac:(by vm_compute)) as Hr.
  rewrite decide_True in Hr by (cbn; lia). destruct Hr as (l' & R & _). exists l'. split; [done|]. split; [done|].
  etransitivity; [exact R|]. by rewrite demo_content.
Defined.

Lemma balloc_first_free_witness : exists c s l' L' V', fs_geom c demo_super /\
  balloc ROOTDEV s = Ret (at_log s l') 37 /\ tx c l' ∅ L' V' /\ used demo_super V' 37 = true.
Proof.
  destruct demo_tx as (c & l & V & HT & HG & Hs & Ho & _ & Hbm & Htx). exists c, (mk_fs demo_super demo_cache l).
  pose proof (balloc_first_free HG Ho (mk_fs demo_super demo_cache l) [] V HT eq_refl) as Hr.
  assert (used demo_super V 37 = false) as H37 by (unfold used; cbn [sb_bmapstart demo_super]; rewrite Hbm; by vm_compute).
  rewrite decide_True in Hr by (apply Exists_exists; exists 37; split; [apply data_blocks_elem; by unfold is_data|done]).
  destruct Hr as (l' & L' & V' & b & R & HT' & Hb & Hu & _ & Hlow & Hu' & _).
  - intros b Hb. apply demo_used; [done|]. cbn in Hb. lia.
  - rewrite Hs. cbn. lia.
  - assert (b = 37) as ->.
    { destruct (decide (b < 37)) as [Hlt|Hge].
      - unfold is_data in Hb. cbn in Hb. rewrite demo_used in Hu by (done || lia). done.
      - destruct (decide (37 < b)) as [Hgt|]; [|lia]. rewrite (Hlow 37) in H37; [done|by unfold is_data|done]. }
    exists l', L', V'. split; [done|]. split; [done|]. split; [done|]. rewrite Hu' by lia. done.
Defined.
