(* ===== verification/FsWrite.v ===== *)
(** * FsWrite: writing files and inodes

    [iupdate], [ilock] and [writei] of fs.c: an inode written to its dinode is
    read back, [writei] overwrites a segment of a file's bytes and extends the
    file at its end, and the blocks one call adds to the transaction. *)
From stdpp Require Import base numbers list gmap strings.
From Stdlib Require Import ZArith Lia.
From S2P Require Import Prelude Bytes StringC Buf Bio Log Fs FsBlock FsFile.

Local Open Scope Z_scope.

(** The cached inode that was just stored. *)
Ltac look := cbn; apply list_lookup_insert_eq; rewrite ?length_insert; by eapply lookup_lt_Some.

(** ** Dinodes *)

Lemma enc_dinode_length b o ip : length (enc_dinode b o ip) = length b.
Proof. unfold enc_dinode, wr16, wr32. by rewrite memmove_in_length, !wr_length. Qed.

Lemma enc_addrs_length a : length (enc_addrs a) = (4 * length a)%nat.
Proof. unfold enc_addrs. induction a as [|x a IH]; cbn [mbind list_bind length]; [done|]. rewrite length_app, le_bytes_length, IH. lia. Qed.

Lemma enc_addrs_sub a j x : a !! j = Some x -> sub_bytes (enc_addrs a) (4 * j) 4 = le_bytes 4 x.
Proof.
  unfold enc_addrs. revert j. induction a as [|y a IH]; intros [|j] Hj; try done; cbn [mbind list_bind].
  - cbn in Hj. simplify_eq. unfold sub_bytes. rewrite drop_0, take_app_length'; [done|]. symmetry. apply le_bytes_length.
  - cbn in Hj. rewrite <- (IH j Hj). unfold sub_bytes. f_equal.
    rewrite drop_app_ge by (rewrite le_bytes_length; lia). rewrite le_bytes_length. f_equal. lia.
Qed.

Lemma sub_sub b o n o' m : (o' + m <= n)%nat -> sub_bytes (sub_bytes b o n) o' m = sub_bytes b (o + o') m.
Proof.
  intros Hm. unfold sub_bytes. rewrite skipn_firstn_comm, firstn_firstn, Nat.min_l by lia.
  by rewrite drop_drop.
Qed.

Lemma dec_addrs_enc b o a : length a = S NDIRECT -> Forall is_u32 a -> (o + 4 * S NDIRECT <= length b)%nat ->
  dec_addrs (memmove_in b o (enc_addrs a)) o = a.
Proof.
  intros Ha Hu Ho. unfold dec_addrs. apply list_eq. intros j. rewrite list_lookup_fmap.
  destruct (decide (j < S NDIRECT)%nat) as [Hj|Hj].
  - rewrite lookup_seq_lt by done. cbn [fmap option_fmap option_map]. destruct (lookup_lt_is_Some_2 a j) as [x Hx]; [lia|].
    rewrite Hx. f_equal. cbn [Nat.add]. unfold rd32, rd. rewrite <- (sub_sub _ o (4 * S NDIRECT)) by lia.
    rewrite <- Ha at 1. rewrite <- enc_addrs_length.
    rewrite sub_memmove_same by (rewrite enc_addrs_length; lia). rewrite (enc_addrs_sub _ _ _ Hx).
    rewrite le_val_bytes. apply Z.mod_small. rewrite Forall_lookup in Hu. exact (Hu _ _ Hx).
  - rewrite !lookup_ge_None_2 by (rewrite ?length_seq; lia). done.
Qed.

Definition is_i16 (x : Z) : Prop := - 2 ^ 15 <= x < 2 ^ 15.

Lemma i16_mod x : is_i16 x -> i16 (x mod 256 ^ Z.of_nat 2) = x.
Proof.
  unfold is_i16, i16. intros Hx. replace (256 ^ Z.of_nat 2) with (2 ^ 16) by done.
  rewrite Zplus_mod_idemp_l. rewrite Z.mod_small; lia.
Qed.

(** The fields have the ranges of the C types. *)
Record inode_typed (ip : inode) : Prop := {
  it_type : is_i16 (itype ip);
  it_major : is_i16 (imajor ip);
  it_minor : is_i16 (iminor ip);
  it_nlink : is_i16 (inlink ip);
  it_size : is_u32 (isize ip);
  it_len : length (addrs ip) = S NDIRECT;
  it_addrs : Forall is_u32 (addrs ip)
}.

Lemma dec_enc_dinode b o ip ip0 : inode_typed ip -> (o + sizeof_dinode <= length b)%nat ->
  dec_dinode (enc_dinode b o ip) o ip0 =
    set_meta (itype ip) (imajor ip) (iminor ip) (inlink ip) (isize ip) (addrs ip) ip0.
Proof.
  intros [H1 H2 H3 H4 H5 H6 H7] Ho. unfold sizeof_dinode in Ho. unfold dec_dinode, enc_dinode.
  rewrite dec_addrs_enc; [|done|done|unfold wr16, wr32; rewrite !wr_length; unfold NDIRECT; lia].
  assert (forall m b' o', (o' + m <= o + 12)%nat -> rd m (memmove_in b' (o + 12) (enc_addrs (addrs ip))) o' = rd m b' o') as Hrd.
  { intros m b' o' Ho'. unfold rd. f_equal. apply sub_memmove_other. lia. }
  unfold rd16, rd32, wr16, wr32. rewrite !Hrd by lia.
  repeat first [rewrite rd_wr_same by (rewrite ?wr_length; lia) | rewrite rd_wr_other by lia].
  rewrite !i16_mod by done. f_equal. apply Z.mod_small. exact H5.
Qed.

Lemma dec_dinode_ext b b' o ip : (forall o' m, (o <= o' /\ o' + m <= o + sizeof_dinode)%nat -> sub_bytes b' o' m = sub_bytes b o' m) ->
  dec_dinode b' o ip = dec_dinode b o ip.
Proof.
  intros H. assert (forall m o', (o <= o' /\ o' + m <= o + sizeof_dinode)%nat -> rd m b' o' = rd m b o') as Hr.
  { intros m o' Ho. unfold rd. by rewrite H. }
  unfold sizeof_dinode in Hr. unfold dec_dinode, dec_addrs, rd16, rd32. rewrite !Hr by lia. f_equal. apply list_fmap_ext.
  intros _ j Hj%list_elem_of_lookup_2%elem_of_seq. unfold NDIRECT in Hj. apply Hr. lia.
Qed.

(** Another dinode of the block is left alone. *)
Lemma dec_enc_other b o o' ip ip0 : length (addrs ip) = S NDIRECT ->
  (o' + sizeof_dinode <= o \/ o + sizeof_dinode <= o')%nat -> dec_dinode (enc_dinode b o ip) o' ip0 = dec_dinode b o' ip0.
Proof.
  intros Hl Ho. unfold sizeof_dinode in Ho. apply dec_dinode_ext. intros p m Hp. unfold sizeof_dinode in Hp. unfold enc_dinode, wr16, wr32, wr.
  rewrite !sub_memmove_other; [done|rewrite ?le_bytes_length, ?enc_addrs_length, ?Hl; unfold NDIRECT; lia..].
Qed.

Section write.
Context `{BlockDriver} {c : txc} {sb : superblock} (HG : fs_geom c sb) (Hout : 1 <= c_out c).
Implicit Types (V : Z -> block) (L : list Z).

Lemma tx_room l held L V : tx c l held L V -> c_size c <= 30.
Proof.
  intros HT. pose proof (tx_log _ _ _ _ _ HT) as [Hg _ _ _ _ _]. rewrite <- (tx_const _ _ _ _ _ HT).
  destruct Hg. unfold LOGSIZE in *. cbn. lia.
Qed.

Lemma dinode_fits n (b : block) : 0 <= n -> length b = BSIZE -> (dinode_off n + sizeof_dinode <= length b)%nat.
Proof.
  intros Hn ->. unfold dinode_off, sizeof_dinode, BSIZE, IPB. pose proof (Z.mod_pos_bound n 8). lia.
Qed.

Definition inode_view V (ip : inode) : Z -> block :=
  vset V (IBLOCK (inum ip) sb) (enc_dinode (V (IBLOCK (inum ip) sb)) (dinode_off (inum ip)) ip).

(** What the disk says of inode [n], in an entry that has the fields of [x]
    otherwise; [stored] inodes are as on disk. *)
Definition dinode_at V (n : Z) (x : inode) : inode := dec_dinode (V (IBLOCK n sb)) (dinode_off n) x.
Definition stored V (ip : inode) : Prop := dinode_at V (inum ip) ip = ip.

Lemma dinode_view_other V ip n x : length (addrs ip) = S NDIRECT -> 0 <= n < sb_ninodes sb -> 0 <= inum ip < sb_ninodes sb ->
  n <> inum ip -> dinode_at (inode_view V ip) n x = dinode_at V n x.
Proof.
  intros Hl Hn Hi Hne. unfold inode_view, dinode_at. destruct (inode_home HG n Hn) as (_ & En & _).
  destruct (inode_home HG (inum ip) Hi) as (_ & Ei & _). destruct (decide (IBLOCK n sb = IBLOCK (inum ip) sb)) as [E|E]; [|by rewrite vset_ne].
  rewrite E, vset_eq. apply dec_enc_other; [done|]. rewrite En, Ei in E. unfold dinode_off, sizeof_dinode, IPB in *.
  pose proof (Z.div_mod n 8 ltac:(lia)). pose proof (Z.div_mod (inum ip) 8 ltac:(lia)).
  pose proof (Z.mod_pos_bound n 8 ltac:(lia)). pose proof (Z.mod_pos_bound (inum ip) 8 ltac:(lia)). lia.
Qed.

Lemma inode_view_stored V ip : (forall n, length (V n) = BSIZE) -> inode_typed ip -> 0 <= inum ip -> stored (inode_view V ip) ip.
Proof.
  intros HV Ht Hi. unfold stored, dinode_at, inode_view. rewrite vset_eq, dec_enc_dinode; [by destruct ip|done|by apply dinode_fits].
Qed.

Lemma iupdate_law s i ip L V :
  tx c (fls s) ∅ L V -> fsb s = sb -> icache s !! i = Some ip -> idev ip = ROOTDEV -> 0 <= inum ip < sb_ninodes sb ->
  Z.of_nat (length L) < c_size c - 1 ->
  exists l', iupdate i s = Ret (at_log s l') tt /\ tx c l' ∅ (absorb (IBLOCK (inum ip) sb) L) (inode_view V ip).
Proof.
  intros HT Hsb Hi Hdev Hn Hroom. destruct (inode_home HG _ Hn) as (Hhome & _). pose proof (tx_room _ _ _ _ HT) as Hsz.
  set (nb := IBLOCK (inum ip) sb) in *.
  destruct (tx_update c (fls s) ∅ L V nb (enc_dinode (V nb) (dinode_off (inum ip)) ip))
    as (l1 & bp & l2 & l3 & l4 & R1 & R2 & R3 & R4 & R5 & HT');
    [done|done|done|done|rewrite map_size_empty; unfold NBUF; lia|done|rewrite enc_dinode_length; by eapply tx_length|].
  exists l4. split; [|done]. unfold iupdate. mrun (inode_at_ret _ _ _ Hi). rewrite Hdev.
  mrun (getsb_ret s). rewrite Hsb. fold nb. lrun R1. lrun R2. lrun R3. lrun R4. exact (inbuf_ret _ (at_log s l3) _ _ R5).
Qed.

(** Locking an inode that has not been read yet reads its dinode. *)
Lemma ilock_fresh s i ip L V :
  tx c (fls s) ∅ L V -> fsb s = sb -> icache s !! i = Some ip -> idev ip = ROOTDEV -> 0 <= inum ip < sb_ninodes sb ->
  0 < iref ip -> iflags ip = 0 ->
  let ip' := set_iflags (Z.lor I_BUSY I_VALID) (dec_dinode (V (IBLOCK (inum ip) sb)) (dinode_off (inum ip)) ip) in
  itype ip' <> 0 ->
  exists l', ilock i s = Ret (with_ip s i ip' l') tt /\ tx c l' ∅ L V.
Proof.
  intros HT Hsb Hi Hdev Hn Href Hfl ip' Htype. destruct (inode_home HG _ Hn) as (Hhome & _).
  pose proof (tx_fits _ _ _ _ _ HT) as [HL _]. set (nb := IBLOCK (inum ip) sb) in *.
  destruct (tx_read c (fls s) ∅ L V nb) as (l1 & bp & l2 & R1 & R2 & R3 & HT');
    [done|apply Hhome|done|rewrite map_size_empty; unfold LOGSIZE, NBUF in *; lia|].
  exists l2. split; [|done]. unfold ilock. mrun (inode_at_ret _ _ _ Hi).
  rewrite (proj2 (Z.ltb_ge _ _)) by lia. rewrite Hfl. change (hasf I_BUSY 0) with false. change (hasf I_VALID 0) with false.
  cbn [negb]. erewrite bind_ret by (by apply upd_inode_ret). cbn [negb]. rewrite Hdev.
  mrun (getsb_ret (with_ip s i (set_iflags (Z.lor (iflags ip) I_BUSY) ip) (fls s))). cbn [fsb with_ip]. rewrite Hsb. fold nb.
  lrun R1. lrun R2. erewrite bind_ret by (apply upd_inode_ret; look).
  lrun R3. erewrite bind_ret by (apply upd_inode_ret; look).
  erewrite bind_ret by (apply inode_at_ret; look).
  cbn [itype set_iflags]. rewrite (proj2 (Z.eqb_neq _ _)) by exact Htype. unfold ret. f_equal.
  unfold with_ip, at_log. cbn. f_equal. rewrite !list_insert_insert_eq. f_equal. unfold ip'. rewrite Hfl. done.
Qed.

(** An inode that [iupdate] wrote to its dinode is read back unchanged by
    the [ilock] of a cache entry for the same inode that is not valid yet. *)
Theorem iupdate_ilock_roundtrip s i ip L V :
  tx c (fls s) ∅ L V -> fsb s = sb -> icache s !! i = Some ip -> idev ip = ROOTDEV -> 0 <= inum ip < sb_ninodes sb ->
  inode_typed ip -> itype ip <> 0 -> Z.of_nat (length L) < c_size c - 1 ->
  exists s', iupdate i s = Ret s' tt /\
  forall s'' j jp, fsb s'' = sb -> fls s'' = fls s' -> icache s'' !! j = Some jp ->
    idev jp = ROOTDEV -> inum jp = inum ip -> 0 < iref jp -> iflags jp = 0 ->
    exists s3, ilock j s'' = Ret s3 tt /\
      icache s3 !! j = Some (set_id (idev jp) (inum jp) (iref jp) (Z.lor I_BUSY I_VALID) ip).
Proof.
  intros HT Hsb Hi Hdev Hn Hty Ht0 Hroom.
  destruct (iupdate_law s i ip L V HT Hsb Hi Hdev Hn Hroom) as (l' & R & HT').
  eexists. split; [exact R|]. intros s'' j jp Hsb' Hl Hj Hjd Hjn Hjr Hjf.
  assert (dec_dinode (inode_view V ip (IBLOCK (inum jp) sb)) (dinode_off (inum jp)) jp =
          set_meta (itype ip) (imajor ip) (iminor ip) (inlink ip) (isize ip) (addrs ip) jp) as Hdec.
  { rewrite Hjn. unfold inode_view. rewrite vset_eq. apply dec_enc_dinode; [done|].
    apply dinode_fits; [lia|]. by eapply tx_length. }
  cbn [fls at_log] in Hl. rewrite <- Hl in HT'.
  destruct (ilock_fresh s'' j jp _ _ HT' Hsb' Hj Hjd) as (l2 & R2 & _); [lia|done|done|by rewrite Hdec|].
  eexists. split; [exact R2|]. rewrite (with_ip_lookup _ _ _ _ _ Hj). by rewrite Hdec.
Qed.

(** ** [writei] *)

Lemma logs_length L L' B : NoDup L' -> logs L L' B -> (length L' <= length L + length B)%nat.
Proof.
  intros HN HL. rewrite <- length_app. apply submseteq_length, NoDup_submseteq; [done|].
  intros n Hn. rewrite elem_of_app. by apply HL.
Qed.

Lemma tx_nodup l held L V : tx c l held L V -> NoDup L.
Proof. intros HT. destruct (tx_log _ _ _ _ _ HT) as [_ [HN _ _] _ _ _ _]. done. Qed.

Lemma inds_mono f V ip k V' ip' a : bmapped (sb := sb) f V ip k V' ip' a -> forall n, n ∈ inds ip -> n ∈ inds ip'.
Proof.
  intros HB n. unfold inds at 1. case_decide as Hi; [set_solver|]. rewrite list_elem_of_singleton. intros ->.
  rewrite <- (bm_ind _ _ _ _ _ _ _ HB Hi). apply inds_in. by rewrite (bm_ind _ _ _ _ _ _ _ HB Hi).
Qed.

Lemma inds_length ip : (length (inds ip) <= 1)%nat.
Proof. unfold inds. case_decide; cbn; lia. Qed.

(** [R] bounds the number of blocks the write touches; [L0] is the transaction
    before it, [D] the file blocks written so far. *)
Lemma writei_loop_law L0 fuel R s i ip L V src off D :
  tx c (fls s) ∅ L V -> fsb s = sb -> icache s !! i = Some ip -> file_ok sb V ip -> meta_used sb V ->
  (2 * R <= nfree sb V)%nat -> 0 <= off -> off + Z.of_nat (length src) <= MAXFILE * BSIZEz ->
  (src <> [] -> off mod BSIZEz + Z.of_nat (length src) <= BSIZEz * Z.of_nat R) ->
  logs L0 L (sb_bmapstart sb :: inds ip ++ D) -> Z.of_nat (length L0 + length D + R) + 8 <= c_size c - 1 ->
  (length src < fuel)%nat ->
  exists l' L' V' ip' D', writei_loop fuel i src off (Z.of_nat (length src)) s = Ret (with_ip s i ip' l') (off + Z.of_nat (length src)) /\
    tx c l' ∅ L' V' /\ logs L0 L' (sb_bmapstart sb :: inds ip' ++ D') /\ (length D' <= length D + R)%nat /\
    wrote (sb := sb) V ip (Z.to_nat off) src V' ip' /\ meta_used sb V' /\ (nfree sb V <= nfree sb V' + 2 * R)%nat.
Proof.
  revert R s ip L V src off D. induction fuel as [|fuel IH]; intros R s ip L V src off D HT Hsb Hi HF Hm Hfree Ho Hend HR HL Hroom Hfuel; [lia|].
  cbn [writei_loop]. set (n := Z.of_nat (length src)) in *. destruct (Z.ltb_spec 0 n) as [Hpos|Hz].
  2: { assert (src = []) as -> by (destruct src; [done|cbn in *; lia]).
    exists (fls s), L, V, ip, D. rewrite with_ip_same, at_log_id by done. replace (off + n) with off by lia.
    split_and!; try done; [lia|by apply wrote_nil|lia]. }
  assert (src <> []) as Hne by (intros ->; cbn in *; lia). specialize (HR Hne).
  destruct (block_index off Ho) as [Hk Hmod]. set (k := (Z.to_nat off / BSIZE)%nat) in *.
  set (m := Z.min n (BSIZEz - off mod BSIZEz)).
  assert (0 <= off mod BSIZEz < BSIZEz) as Hmb by (apply Z.mod_pos_bound; unfold BSIZEz; lia).
  assert (off = BSIZEz * (off / BSIZEz) + off mod BSIZEz) as Hdm by (apply Z.div_mod; unfold BSIZEz; lia).
  assert (1 <= m <= n) as Hmr by lia.
  assert (k < NBLK)%nat as Hkb by (unfold MAXFILE, BSIZEz, NBLK in *; lia).
  assert (1 <= R)%nat as HR1 by (unfold BSIZEz in *; lia).
  pose proof (logs_length _ _ _ (tx_nodup _ _ _ _ HT) HL) as HLl. cbn [length] in HLl. rewrite length_app in HLl.
  pose proof (inds_length ip) as Hil.
  mrun (inode_at_ret _ _ _ Hi). rewrite <- Hk.
  destruct (bmap_law HG Hout s i ip L V k) as (l1 & L1 & V1 & ip1 & a & R1 & HT1 & HL1 & HB); try done; [lia|lia|].
  mrun R1. rewrite (fo_dev _ _ _ HF). pose proof (bm_ok _ _ _ _ _ _ _ HB) as HF1. pose proof (bm_nz _ _ _ _ _ _ _ HB) as Hnz.
  pose proof (bm_blk _ _ _ _ _ _ _ HB) as Hblk.
  destruct (mo_data _ _ _ _ (fo_map _ _ _ HF1) k Hkb) as [Hd _]; [by rewrite Hblk|]. rewrite Hblk in Hd.
  assert (logs L0 L1 (sb_bmapstart sb :: inds ip1 ++ (a :: D))) as HL1'.
  { eapply logs_weaken; [exact (logs_trans _ _ _ _ _ HL HL1)|]. pose proof (inds_mono _ _ _ _ _ _ _ HB). set_solver. }
  pose proof (logs_length _ _ _ (tx_nodup _ _ _ _ HT1) HL1') as HLl1. cbn [length] in HLl1. rewrite length_app in HLl1. cbn [length] in HLl1.
  pose proof (inds_length ip1) as Hil1. pose proof (tx_room _ _ _ _ HT) as Hsz.
  set (o := Z.to_nat (off mod BSIZEz)). set (ch := take (Z.to_nat m) src).
  assert (length ch = Z.to_nat m) as Hch by (unfold ch; rewrite length_take; lia).
  destruct (tx_update c l1 ∅ L1 V1 a (memmove_in (V1 a) o ch)) as (l2 & bp & l3 & l4 & l5 & S1 & S2 & S3 & S4 & S5 & HT2);
    [done|done|by apply (data_home HG)|done|rewrite map_size_empty; unfold NBUF; lia|lia|rewrite memmove_in_length; by eapply tx_length|].
  lrun S1. lrun S2. fold m. rewrite decide_False by lia. fold o ch. lrun S3. lrun S4. lrun S5.
  set (V2 := vset V1 a _) in *.
  assert (wrote (sb := sb) V ip (Z.to_nat off) ch V2 ip1) as HW.
  { unfold V2, o. rewrite Hmod. eapply (wrote_chunk HG); [intros x; by eapply tx_length|done| | |exact HB].
    2: { intros E. rewrite E in Hch. cbn in Hch. lia. }
    rewrite Hch, <- Hmod. unfold BSIZE, BSIZEz in *. lia. }
  assert (nfree sb V2 = nfree sb V1) as Hfree2.
  { apply nfree_ext. unfold V2. rewrite vset_ne; [done|]. intros E. by apply (data_ne_bmap _ Hd). }
  pose proof (bm_free _ _ _ _ _ _ _ HB) as Hfree1.
  assert (u32 (off + m) = off + m) as -> by (apply u32_small; unfold is_u32, MAXFILE, BSIZEz in *; lia).
  assert (length (drop (Z.to_nat m) src) = Z.to_nat (n - m)) as Hdl by (rewrite length_drop; lia).
  destruct (IH (pred R) (with_ip s i ip1 l5) ip1 (absorb a L1) V2 (drop (Z.to_nat m) src) (off + m) (a :: D))
    as (l6 & L6 & V6 & ip6 & D6 & R6 & HT6 & HL6 & HD6 & HW6 & Hm6 & Hf6).
  - done.
  - done.
  - by eapply with_ip_lookup.
  - apply (wr_ok _ _ _ _ _ _ HW).
  - eapply meta_extends; [exact Hm|]. apply (wr_ext _ _ _ _ _ _ HW).
  - lia.
  - lia.
  - lia.
  - intros Hne'. assert (n - m <> 0) as Hnm by (intros E; rewrite E in Hdl; by apply Hne', nil_length_inv).
    assert (m = BSIZEz - off mod BSIZEz) as Em by lia.
    replace (off + m) with ((off / BSIZEz + 1) * BSIZEz) by (rewrite Em; lia).
    rewrite Z_mod_mult, Hdl. unfold BSIZEz in *. lia.
  - apply logs_absorb; [exact HL1'|set_solver].
  - cbn [length]. lia.
  - lia.
  - exists l6, L6, V6, ip6, D6. rewrite Hdl, Z2Nat.id in R6 by lia. rewrite with_ip_twice in R6. split_and!; try done.
    + etransitivity; [exact R6|]. f_equal. lia.
    + cbn [length] in HD6. lia.
    + rewrite <- (take_drop (Z.to_nat m) src). eapply (wrote_app HG); [|exact HW|].
      * fold ch. unfold NBLK, BSIZE, MAXFILE, BSIZEz in *. lia.
      * fold ch. rewrite Hch. replace (Z.to_nat off + Z.to_nat m)%nat with (Z.to_nat (off + m)) by lia. exact HW6.
    + lia.
Qed.

(** What [writei] does to the bytes of a file. *)
Definition overwrite (l : list Z) (off : nat) (src : list Z) : list Z := take off l ++ src ++ drop (off + length src) l.

Lemma overwrite_lookup l off src o : (off <= length l)%nat ->
  overwrite l off src !! o =
    if decide (off <= o < off + length src)%nat then src !! (o - off)%nat else l !! o.
Proof.
  intros Ho. unfold overwrite. destruct (decide (o < off)%nat) as [H1|H1].
  { rewrite decide_False by lia. rewrite lookup_app_l by (rewrite length_take; lia). by rewrite lookup_take_lt. }
  rewrite lookup_app_r by (rewrite length_take; lia). rewrite length_take, Nat.min_l by done.
  case_decide as H2; [by rewrite lookup_app_l by lia|].
  rewrite lookup_app_r by lia. rewrite lookup_drop. f_equal. lia.
Qed.

(** The size field set after the bytes were stored. *)
Lemma wrote_content V ip off src V' ip' sz :
  file_ok sb V ip -> wrote (sb := sb) V ip off src V' ip' -> (off <= Z.to_nat (isize ip))%nat ->
  (off + length src <= NBLK * BSIZE)%nat ->
  sz = Z.max (isize ip) (if decide (src = []) then 0 else Z.of_nat (off + length src)) ->
  file_ok sb V' (set_isize sz ip') /\ content V' (set_isize sz ip') = overwrite (content V ip) off src.
Proof.
  intros HF HW Ho Hend Hsz. pose proof (fo_size _ _ _ HF) as Hs.
  assert (forall o, (o < NBLK * BSIZE)%nat -> (o / BSIZE < NBLK)%nat) as Hdiv.
  { intros o Ho'. apply Nat.Div0.div_lt_upper_bound. unfold BSIZE in *. lia. }
  assert (Z.to_nat sz = Nat.max (Z.to_nat (isize ip)) (off + length src)) as Hnat.
  { subst sz. case_decide as E; [rewrite E; cbn [length]; lia|lia]. }
  assert (0 <= sz) as Hsz0 by (rewrite Hsz; apply Z.max_le_iff; lia). clear Hsz.
  split.
  - destruct (wr_ok _ _ _ _ _ _ HW) as [H1 H2 H3 H4 H5 H6]. split; try done.
    + cbn. unfold NBLK, BSIZE, MAXFILE, BSIZEz in *. lia.
    + cbn [isize set_isize set_meta]. intros k Hk. change (fblk V' ip' k <> 0).
      destruct (decide (Z.of_nat k * BSIZEz < isize ip)) as [Hk1|Hk1].
      { apply (wr_keep _ _ _ _ _ _ HW); [unfold MAXFILE, BSIZEz, NBLK in *; lia|by apply (fo_mapped _ _ _ HF)]. }
      destruct (wr_in _ _ _ _ _ _ HW (k * BSIZE - off)%nat) as [E _]; [unfold BSIZE, BSIZEz in *; lia|].
      replace (off + (k * BSIZE - off))%nat with (k * BSIZE)%nat in E by (unfold BSIZE, BSIZEz in *; lia).
      rewrite Nat.div_mul in E by done. done.
  - apply list_eq. intros o. rewrite overwrite_lookup by (by rewrite content_length).
    unfold content at 1. cbn [isize set_isize set_meta]. change (fbyte V' (set_isize sz ip')) with (fbyte V' ip').
    rewrite list_lookup_fmap. destruct (decide (o < Z.to_nat sz)%nat) as [Hos|Hos].
    + rewrite lookup_seq_lt by done. cbn [fmap option_fmap option_map Nat.add]. case_decide as Hin.
      * destruct (wr_in _ _ _ _ _ _ HW (o - off)%nat) as [_ E]; [lia|].
        replace (off + (o - off))%nat with o in E by lia. rewrite E. symmetry. apply list_lookup_lookup_total_lt. lia.
      * unfold content. rewrite list_lookup_fmap, lookup_seq_lt by lia. cbn [fmap option_fmap option_map Nat.add]. f_equal.
        apply (wr_out _ _ _ _ _ _ HW); [apply Hdiv; unfold NBLK, BSIZE, MAXFILE, BSIZEz in *; lia| |lia].
        apply (fo_mapped _ _ _ HF). pose proof (Nat.div_mod_eq o BSIZE). unfold BSIZE, BSIZEz in *. lia.
    + rewrite lookup_ge_None_2 by (rewrite length_seq; lia). case_decide; [lia|].
      symmetry. apply lookup_ge_None_2. rewrite content_length. lia.
Qed.

(** The dinodes lie outside the files. *)
Lemma file_inode_view V ip jp : file_ok sb V jp -> 0 <= inum ip < sb_ninodes sb ->
  file_ok sb (inode_view V ip) jp /\ content (inode_view V ip) jp = content V jp /\
  forall b, used sb (inode_view V ip) b = used sb V b.
Proof.
  intros HF Hn. destruct (inode_home HG _ Hn) as (_ & _ & Hb). unfold inode_view. set (nb := IBLOCK (inum ip) sb) in *. clearbody nb.
  set (d := enc_dinode _ _ _). clearbody d.
  assert (forall b, used sb (vset V nb d) b = used sb V b) as Hu by (intros b; apply used_vset; lia).
  pose proof (fo_map _ _ _ HF) as HM.
  assert (forall k, fblk (vset V nb d) jp k = fblk V jp k) as Hblk.
  { intros k. unfold fblk. destruct (decide (k < NDIRECT)%nat); [done|].
    destruct (decide (addrs jp !!! NDIRECT = 0)) as [|Hi]; [done|].
    destruct (mo_ind _ _ _ _ HM Hi) as [Hd _]. unfold is_data in Hd. rewrite vset_ne by lia. done. }
  split_and!; [| |done].
  - destruct HF as [H1 H2 H3 H4 H5 H6]. split; try done; [|intros j Hj; rewrite Hblk; auto].
    destruct H5 as [G1 G2 G3 G4]. split; intros *; rewrite ?Hblk, ?Hu by done; auto.
  - unfold content. apply list_fmap_ext. intros j o Hj. apply lookup_seq in Hj as [-> Hj]. unfold fbyte. rewrite Hblk.
    pose proof (fo_size _ _ _ HF). rewrite vset_ne; [done|]. intros E.
    assert (fblk V jp (j / BSIZE) <> 0) as Hnz.
    { apply (fo_mapped _ _ _ HF). pose proof (Nat.div_mod_eq j BSIZE). unfold BSIZE, BSIZEz in *. lia. }
    destruct (mo_data _ _ _ _ HM (j / BSIZE)%nat) as [Hd _]; [|done|unfold is_data in Hd; cbn [Nat.add] in E; lia].
    apply Nat.Div0.div_lt_upper_bound. unfold NBLK, BSIZE, MAXFILE, BSIZEz in *. lia.
Qed.

Lemma set_isize_same ip : set_isize (isize ip) ip = ip.
Proof. by destruct ip. Qed.

Lemma wrote_inum V ip off src V' ip' : wrote (sb := sb) V ip off src V' ip' ->
  isize ip' = isize ip /\ inum ip' = inum ip /\ idev ip' = idev ip /\ itype ip' = itype ip.
Proof. intros HW. rewrite (wr_meta _ _ _ _ _ _ HW). done. Qed.

Lemma writei_rejected s (ip : inode) (src : list Z) off (m : M fs_state Z) :
  let n := Z.of_nat (length src) in
  is_u32 off -> is_u32 n -> ~ (off <= isize ip /\ off + n <= MAXFILE * BSIZEz) ->
  (if (isize ip <? off) || (u32 (off + n) <? off) then ret (-1)
   else if MAXFILE * BSIZEz <? u32 (off + n) then ret (-1) else m) s = Ret s (-1).
Proof.
  intros n Ho Hn Hbad. unfold is_u32 in *. destruct (Z.ltb_spec (isize ip) off) as [|Hle]; [done|]. cbn [orb].
  destruct (decide (off + n < 2 ^ 32)) as [Hov|Hov].
  - rewrite u32_small by (unfold is_u32; lia). rewrite (proj2 (Z.ltb_ge _ _)) by lia.
    by rewrite (proj2 (Z.ltb_lt _ _)) by lia.
  - rewrite (proj2 (Z.ltb_lt (u32 (off + n)) off)); [done|].
    unfold u32. rewrite <- (Z_mod_plus_full _ (-1)), Z.mod_small by lia. lia.
Qed.

Lemma file_addrs_typed V ip : file_ok sb V ip -> Forall is_u32 (addrs ip).
Proof.
  intros HF. apply Forall_lookup. intros j x Hj. pose proof (lookup_lt_Some _ _ _ Hj) as Hlt. rewrite (fo_len _ _ _ HF) in Hlt.
  assert (x = addrs ip !!! j) as -> by (symmetry; by apply list_lookup_total_correct).
  assert (forall a, is_data sb a -> is_u32 a) as Hd by (intros a [[? ?] _]%(data_home HG); unfold is_u32, FSSIZE in *; lia).
  destruct (decide (addrs ip !!! j = 0)) as [->|Hnz]; [by unfold is_u32|]. apply Hd. pose proof (fo_map _ _ _ HF) as HM.
  destruct (decide (j = NDIRECT)) as [->|Hne]; [by apply (mo_ind _ _ _ _ HM)|].
  assert (fblk V ip j = addrs ip !!! j) as E by (unfold fblk; rewrite decide_True by lia; done).
  rewrite <- E. apply (mo_data _ _ _ _ HM); [unfold NBLK, NDIRECT in *; lia|by rewrite E].
Qed.

(** What a write of [src] at [off] does to the file system: to the file, to
    the other files and dinodes, and to the free blocks. *)
Record file_written V (ip : inode) (off : nat) (src : list Z) V' (ip' : inode) : Prop := {
  fw_ok : file_ok sb V' ip';
  fw_content : content V' ip' = overwrite (content V ip) off src;
  fw_fields : ip' = set_isize (isize ip') (set_addrs (addrs ip') ip);
  fw_stored : (forall n, length (V' n) = BSIZE) -> inode_typed ip -> isize ip < isize ip' \/ stored V ip -> inode_typed ip' /\ stored V' ip';
  fw_dinodes : forall n x, 0 <= n < sb_ninodes sb -> n <> inum ip -> dinode_at V' n x = dinode_at V n x;
  fw_used : forall b, 0 <= b -> used sb V b = true -> used sb V' b = true;
  fw_new : forall n, owns V' ip' n -> owns V ip n \/ (is_data sb n /\ used sb V n = false);
  fw_frame : forall b, b <> sb_bmapstart sb -> b <> IBLOCK (inum ip) sb -> ~ owns V ip b ->
    (is_data sb b -> used sb V b = true) -> V' b = V b
}.

Lemma inode_block_frame V ip V' ip' n : extends sb V ip V' ip' -> file_ok sb V ip -> 0 <= n < sb_ninodes sb ->
  V' (IBLOCK n sb) = V (IBLOCK n sb).
Proof.
  intros HE HF Hn. destruct (inode_home HG n Hn) as (_ & _ & Hb).
  assert (~ is_data sb (IBLOCK n sb)) as Hnd by (unfold is_data; lia).
  apply (ex_frame _ _ _ _ _ HE); [lia| |done]. intros [Hd _]%(owns_data _ _ _ HF). done.
Qed.

(** The write stays within the file: the inode does not change. *)
Lemma written_within V ip off src V' ip' :
  file_ok sb V ip -> 0 <= inum ip < sb_ninodes sb -> wrote (sb := sb) V ip off src V' ip' ->
  (off + length src <= Z.to_nat (isize ip) \/ src = [] /\ off <= Z.to_nat (isize ip))%nat ->
  file_written V ip off src V' ip'.
Proof.
  intros HF Hn HW Hend. pose proof (fo_size _ _ _ HF) as Hs. pose proof (wr_ext _ _ _ _ _ _ HW) as HE.
  assert (off + length src <= Z.to_nat (isize ip))%nat as Hle by (destruct Hend as [?|[-> ?]]; cbn; lia).
  destruct (wrote_inum _ _ _ _ _ _ HW) as (Es & _).
  destruct (wrote_content V ip off src V' ip' (isize ip')) as [HF' HC'];
    [done|done|lia|unfold NBLK, BSIZE, MAXFILE, BSIZEz in *; lia|rewrite Es; case_decide; lia|].
  rewrite set_isize_same in HF', HC'.
  assert (ip' = ip) as Eip.
  { rewrite (wr_meta _ _ _ _ _ _ HW), (wr_hit _ _ _ _ _ _ HW); [by destruct ip|]. intros j Hj. apply (fo_mapped _ _ _ HF).
    pose proof (Nat.div_mod_eq (off + j) BSIZE). unfold BSIZE, BSIZEz in *. lia. }
  split; try done.
  - rewrite Es. rewrite (wr_meta _ _ _ _ _ _ HW) at 1. by rewrite <- (set_isize_same (set_addrs _ _)).
  - intros _ Ht [Hg|Hst]; [rewrite Eip in Hg; lia|]. rewrite Eip. split; [done|]. unfold stored, dinode_at in *. by rewrite (inode_block_frame V ip V' ip').
  - intros n x Hr _. unfold dinode_at. by rewrite (inode_block_frame V ip V' ip').
  - apply (ex_used _ _ _ _ _ HE).
  - apply (ex_new _ _ _ _ _ HE).
  - intros b Hb1 _. by apply (ex_frame _ _ _ _ _ HE).
Qed.

(** The write ends beyond the file: [iupdate] stores the new size and blocks. *)
Lemma written_beyond V ip off src V1 ip1 :
  file_ok sb V ip -> 0 <= inum ip < sb_ninodes sb -> wrote (sb := sb) V ip off src V1 ip1 ->
  (off <= Z.to_nat (isize ip) < off + length src)%nat -> (off + length src <= NBLK * BSIZE)%nat ->
  let ip2 := set_isize (Z.of_nat (off + length src)) ip1 in
  file_ok sb V1 ip2 /\ file_written V ip off src (inode_view V1 ip2) ip2.
Proof.
  intros HF Hn HW Ho Hend ip2. pose proof (wr_ext _ _ _ _ _ _ HW) as HE.
  destruct (wrote_inum _ _ _ _ _ _ HW) as (Es & En & Ed & _). assert (inum ip2 = inum ip) as En2 by exact En.
  assert (src <> []) as Hne by (intros ->; cbn in Ho; lia).
  destruct (wrote_content V ip off src V1 ip1 (Z.of_nat (off + length src))) as [HF1 HC1];
    [done|done|lia|done|rewrite decide_False by done; lia|]. fold ip2 in HF1, HC1.
  destruct (file_inode_view V1 ip2 ip2 HF1) as (HF2 & HC2 & Hu2); [by rewrite En2|]. split; [done|].
  destruct (inode_home HG _ Hn) as (_ & _ & Hib).
  destruct (file_frame sb V1 (inode_view V1 ip2) ip2 HF1) as (_ & Hblk & _).
  { intros b [Hd _]%(owns_data _ _ _ HF1). unfold inode_view. apply vset_ne. rewrite En2. unfold is_data in Hd. lia. }
  { intros b _ Hu. by rewrite Hu2. }
  split; try done.
  - by rewrite HC2.
  - unfold ip2. rewrite (wr_meta _ _ _ _ _ _ HW) at 1. done.
  - intros Hlen Ht _. assert (inode_typed ip2) as Ht2.
    { destruct Ht as [T1 T2 T3 T4 _ _ _]. pose proof (wr_meta _ _ _ _ _ _ HW) as E.
      apply (f_equal itype) in E as E1. apply (f_equal imajor) in E as E2. apply (f_equal iminor) in E as E3. apply (f_equal inlink) in E as E4.
      split; [change (is_i16 (itype ip1)); by rewrite E1|change (is_i16 (imajor ip1)); by rewrite E2|change (is_i16 (iminor ip1)); by rewrite E3|
        change (is_i16 (inlink ip1)); by rewrite E4| |apply (fo_len _ _ _ HF1)|apply (file_addrs_typed V1 ip2 HF1)].
      pose proof (fo_size _ _ _ HF1) as Hs2. unfold is_u32, MAXFILE, BSIZEz in *. lia. }
    split; [done|]. unfold stored, dinode_at, inode_view. rewrite vset_eq. rewrite dec_enc_dinode; [by destruct ip2|done|].
    apply dinode_fits; [lia|]. rewrite <- (enc_dinode_length _ (dinode_off (inum ip2)) ip2). specialize (Hlen (IBLOCK (inum ip2) sb)).
    unfold inode_view in Hlen. by rewrite vset_eq in Hlen.
  - intros n x Hr Hni. rewrite dinode_view_other; [|apply (fo_len _ _ _ HF1)|done|by rewrite En2|by rewrite En2].
    unfold dinode_at. by rewrite (inode_block_frame V ip V1 ip1).
  - intros b Hb Hu. rewrite Hu2. by apply (ex_used _ _ _ _ _ HE).
  - intros n [Hnz Hor]. apply (ex_new _ _ _ _ _ HE). split; [done|]. destruct Hor as [->|(k & Hk & E)]; [by left|right].
    exists k. split; [done|]. rewrite <- E, Hblk. done.
  - intros b Hb1 Hb2 Ho1 Hu1. unfold inode_view. rewrite vset_ne by (by rewrite En2). by apply (ex_frame _ _ _ _ _ HE).
Qed.

Lemma writei_written devsw s i ip L V src off R :
  tx c (fls s) ∅ L V -> fsb s = sb -> icache s !! i = Some ip -> file_ok sb V ip -> 0 <= inum ip < sb_ninodes sb ->
  meta_used sb V -> (2 * R <= nfree sb V)%nat ->
  off mod BSIZEz + Z.of_nat (length src) <= BSIZEz * Z.of_nat R -> Z.of_nat (length L + R) + 8 <= c_size c - 1 ->
  0 <= off <= isize ip -> off + Z.of_nat (length src) <= MAXFILE * BSIZEz ->
  exists l' L' V' ip', writei devsw i src off (Z.of_nat (length src)) s = Ret (with_ip s i ip' l') (Z.of_nat (length src)) /\
    tx c l' ∅ L' V' /\ (length L' <= length L + R + 3)%nat /\ file_written V ip (Z.to_nat off) src V' ip' /\
    meta_used sb V' /\ (nfree sb V <= nfree sb V' + 2 * R)%nat.
Proof.
  intros HT Hsb Hi HF Hin Hm Hfree HR Hroom Hoff Hend. set (n := Z.of_nat (length src)) in *. unfold writei. mrun (inode_at_ret _ _ _ Hi).
  rewrite (proj2 (Z.eqb_neq _ _)) by apply (fo_type _ _ _ HF). pose proof (fo_size _ _ _ HF) as Hsize.
  rewrite (proj2 (Z.ltb_ge (isize ip) off)) by lia.
  rewrite u32_small by (unfold is_u32, MAXFILE, BSIZEz in *; lia).
  rewrite (proj2 (Z.ltb_ge (off + n) off)), (proj2 (Z.ltb_ge _ (off + n))) by lia. cbn [orb].
  destruct (writei_loop_law L (S (Z.to_nat n)) R s i ip L V src off []) as (l1 & L1 & V1 & ip1 & D & R1 & HT1 & HL1 & HD & HW & Hm1 & Hf1);
    [done..|lia|done|intros _; done|apply logs_refl|cbn [length]; lia|lia|].
  fold n in R1. mrun R1. erewrite bind_ret by (apply inode_at_ret; look).
  destruct (wrote_inum _ _ _ _ _ _ HW) as (Es & En & Ed & _). cbn [length] in HD.
  pose proof (logs_length _ _ _ (tx_nodup _ _ _ _ HT1) HL1) as HLl. cbn [length] in HLl. rewrite length_app in HLl.
  pose proof (inds_length ip1) as Hil. rewrite i32_small by (unfold MAXFILE, BSIZEz in *; lia).
  destruct (decide (0 < n /\ isize ip < off + n)) as [[Hpos Hgrow]|Hno].
  - rewrite Es, (proj2 (Z.ltb_lt 0 n)), (proj2 (Z.ltb_lt _ (off + n))) by done. cbn [andb whenM].
    destruct (written_beyond V ip (Z.to_nat off) src V1 ip1) as [HF1 HFW]; [done|done|done|lia|unfold NBLK, BSIZE, MAXFILE, BSIZEz in *; lia|].
    replace (Z.of_nat (Z.to_nat off + length src)) with (off + n) in * by lia. set (ip2 := set_isize (off + n) ip1) in *.
    destruct (iupdate_law (with_ip s i ip2 l1) i ip2 L1 V1) as (l2 & R2 & HT2); [exact HT1|done|by eapply with_ip_lookup| | |lia|].
    { cbn. rewrite Ed. apply (fo_dev _ _ _ HF). } { cbn. by rewrite En. }
    destruct (file_inode_view V1 ip2 ip2 HF1) as (_ & _ & Hu2); [cbn; by rewrite En|].
    exists l2. eexists _, _, ip2. split_and!; [|exact HT2| |exact HFW| |].
    + erewrite bind_ret. 2: { erewrite bind_ret by (apply upd_inode_ret; look). rewrite with_ip_twice. exact R2. }
      done.
    + pose proof (absorb_length (IBLOCK (inum ip2) sb) L1). lia.
    + intros b Hb. rewrite Hu2. by apply Hm1.
    + rewrite (nfree_ext sb (inode_view V1 ip2) V1); [done|]. unfold inode_view. apply vset_ne.
      destruct (inode_home HG _ Hin) as (_ & _ & Hib). cbn. rewrite En. lia.
  - assert ((0 <? n) && (isize ip1 <? off + n) = false) as ->.
    { rewrite Es. destruct (Z.ltb_spec 0 n), (Z.ltb_spec (isize ip) (off + n)); cbn; lia || done. }
    exists l1, L1, V1, ip1. cbn [whenM]. rewrite ret_bind. split_and!; try done; [lia|]. apply written_within; try done.
    destruct src; [right; split; [done|lia]|left; cbn [length] in *; lia].
Qed.

(** The size after a write. *)
Lemma written_size V V' ip ip' off src : file_ok sb V ip -> file_written V ip off src V' ip' ->
  Z.of_nat off <= isize ip -> Z.max (isize ip) (Z.of_nat (off + length src)) = isize ip'.
Proof.
  intros HF HW Ho. pose proof (f_equal (@length Z) (fw_content _ _ _ _ _ _ HW)) as E. rewrite content_length in E.
  unfold overwrite in E. rewrite !length_app, length_take, length_drop, content_length in E.
  pose proof (fo_size _ _ _ HF). pose proof (fo_size _ _ _ (fw_ok _ _ _ _ _ _ HW)). lia.
Qed.

Lemma writei_law devsw s i ip L V src off R :
  tx c (fls s) ∅ L V -> fsb s = sb -> icache s !! i = Some ip -> file_ok sb V ip -> 0 <= inum ip < sb_ninodes sb ->
  meta_used sb V -> (2 * R <= nfree sb V)%nat ->
  off mod BSIZEz + Z.of_nat (length src) <= BSIZEz * Z.of_nat R -> Z.of_nat (length L + R) + 8 <= c_size c - 1 ->
  is_u32 off -> is_u32 (Z.of_nat (length src)) ->
  let n := Z.of_nat (length src) in
  if decide (off <= isize ip /\ off + n <= MAXFILE * BSIZEz)
  then exists l' L' V' ip', writei devsw i src off n s = Ret (with_ip s i ip' l') n /\ tx c l' ∅ L' V' /\
    file_ok sb V' ip' /\ content V' ip' = overwrite (content V ip) (Z.to_nat off) src /\
    ip' = set_isize (isize ip') (set_addrs (addrs ip') ip) /\ (length L' <= length L + R + 3)%nat /\
    (inode_typed ip -> isize ip < off + n \/ stored V ip -> stored V' ip') /\
    (forall m x, 0 <= m < sb_ninodes sb -> m <> inum ip -> dinode_at V' m x = dinode_at V m x) /\
    (forall b, b <> sb_bmapstart sb -> b <> IBLOCK (inum ip) sb -> ~ owns V ip b -> (is_data sb b -> used sb V b = true) ->
      V' b = V b)
  else writei devsw i src off n s = Ret s (-1).
Proof.
  intros HT Hsb Hi HF Hin Hm Hfree HR Hroom Ho Hn n. pose proof (fo_size _ _ _ HF) as Hsize. case_decide as Hok.
  - destruct (writei_written devsw s i ip L V src off R) as (l' & L' & V' & ip' & R1 & HT1 & HL1 & HW & _);
      [done..|unfold is_u32 in *; lia|lia|]. exists l', L', V', ip'. pose proof (written_size V V' ip ip' _ src HF HW ltac:(unfold is_u32 in *; lia)) as Hsz. destruct HW as [W1 W2 W3 W4 W5 _ _ W8].
    split_and!; try done. intros Ht Hor. apply W4; [intros m; by eapply tx_length|done|]. destruct Hor as [Hg|Hst]; [left|by right].
    unfold n in Hg. lia.
  - unfold writei. mrun (inode_at_ret _ _ _ Hi). rewrite (proj2 (Z.eqb_neq _ _)) by apply (fo_type _ _ _ HF).
    exact (writei_rejected s ip src off _ Ho Hn Hok).
Qed.

(** C20: [writei] refines overwriting a segment of a list of bytes. At an offset
    within the file and an end within the largest file it returns [n], the
    file's bytes become the old ones with [src] stored at [off] (extended at the
    end), and the inode on disk is the one in memory, if the file grew or it was
    so before.  The inodes of other files on disk, and every block that
    belongs to another file, the block of the inode and the bitmap apart, keep
    their contents; a write of [R] blocks adds at most [R + 3] blocks to the
    transaction.  Anywhere else it fails and changes nothing. *)
Theorem writei_refines devsw s i ip L V src off R :
  tx c (fls s) ∅ L V -> fsb s = sb -> icache s !! i = Some ip -> file_ok sb V ip -> 0 <= inum ip < sb_ninodes sb ->
  meta_used sb V -> (2 * R <= nfree sb V)%nat ->
  off mod BSIZEz + Z.of_nat (length src) <= BSIZEz * Z.of_nat R -> Z.of_nat (length L + R) + 8 <= c_size c - 1 ->
  is_u32 off -> is_u32 (Z.of_nat (length src)) ->
  let n := Z.of_nat (length src) in
  if decide (off <= isize ip /\ off + n <= MAXFILE * BSIZEz)
  then exists l' L' V' ip', writei devsw i src off n s = Ret (with_ip s i ip' l') n /\ tx c l' ∅ L' V' /\
    file_ok sb V' ip' /\ content V' ip' = overwrite (content V ip) (Z.to_nat off) src /\
    ip' = set_isize (isize ip') (set_addrs (addrs ip') ip) /\ (length L' <= length L + R + 3)%nat /\
    (inode_typed ip -> isize ip < off + n \/ stored V ip -> stored V' ip') /\
    (forall m x, 0 <= m < sb_ninodes sb -> m <> inum ip -> dinode_at V' m x = dinode_at V m x) /\
    (forall b, b <> sb_bmapstart sb -> b <> IBLOCK (inum ip) sb -> ~ owns V ip b -> (is_data sb b -> used sb V b = true) ->
      V' b = V b)
  else writei devsw i src off n s = Ret s (-1).
Proof. apply writei_law. Qed.
End write.

(** ** Witnesses *)

#[local] Existing Instance mem_driver.

Lemma demo_meta V : V 35 = demo_bitmap -> meta_used demo_super V.
Proof. intros E b Hb. apply demo_used; [done|]. cbn in Hb. lia. Qed.

Lemma demo_nfree V : V 35 = demo_bitmap -> nfree demo_super V = 63%nat.
Proof.
  intros E. rewrite (nfree_ext demo_super V (fun _ => demo_bitmap)) by done. by vm_compute.
Qed.

Lemma demo_inode_typed : inode_typed demo_inode.
Proof.
  split; unfold is_i16, is_u32; cbn [itype imajor iminor inlink isize addrs demo_inode]; unfold T_FILE; try lia; [done|].
  unfold NDIRECT. cbn [replicate]. repeat (constructor; [lia|]). constructor.
Qed.

(** "hello" with "LP!!" stored at offset 3. *)
Lemma writei_refines_witness : exists c s l' L' V' ip', fs_geom c demo_super /\
  writei [] 0 [76; 80; 33; 33] 3 4 s = Ret (with_ip s 0 ip' l') 4 /\ tx c l' ∅ L' V' /\
  isize ip' = 7 /\ content V' ip' = [104; 101; 108; 76; 80; 33; 33] /\ stored (sb := demo_super) V' ip'.
Proof.
  destruct demo_tx as (c & l & V & HT & HG & Hs & Ho & _ & Hbm & Htx). exists c, (mk_fs demo_super demo_cache l).
  pose proof (writei_refines HG Ho [] (mk_fs demo_super demo_cache l) 0 demo_inode [] V [76; 80; 33; 33] 3 1 HT eq_refl eq_refl
    (demo_file_ok V Hbm) ltac:(by vm_compute) (demo_meta V Hbm)) as Hr.
  rewrite (demo_nfree V Hbm) in Hr. specialize (Hr ltac:(lia) ltac:(by vm_compute) ltac:(rewrite Hs; cbn; lia) ltac:(by vm_compute) ltac:(by vm_compute)).
  rewrite decide_True in Hr by (cbn; unfold MAXFILE, BSIZEz; lia).
  destruct Hr as (l' & L' & V' & ip' & R & HT' & HF' & HC & _ & _ & Hst & _). exists l', L', V', ip'. split; [done|]. split; [exact R|].
  split; [done|].
  assert (content V' ip' = [104; 101; 108; 76; 80; 33; 33]) as HC'.
  { rewrite HC. unfold content. cbn [isize demo_inode]. change (seq 0 (Z.to_nat 5)) with [0; 1; 2; 3; 4]%nat. cbn [fmap list_fmap]. unfold fbyte. rewrite !demo_fblk.
    change (0 / BSIZE)%nat with 0%nat. change (1 / BSIZE)%nat with 0%nat. change (2 / BSIZE)%nat with 0%nat.
    change (3 / BSIZE)%nat with 0%nat. change (4 / BSIZE)%nat with 0%nat. rewrite decide_True, Htx by done. by vm_compute. }
  split; [|split; [done|exact (Hst demo_inode_typed (or_introl eq_refl))]]. pose proof (content_length V' ip') as Hl. rewrite HC' in Hl. cbn in Hl.
  pose proof (fo_size _ _ _ HF'). lia.
Defined.

Lemma iupdate_ilock_roundtrip_witness : exists c s s' s3, fs_geom c demo_super /\ iupdate 0 s = Ret s' tt /\
  ilock 0 (mk_fs demo_super [mk_inode ROOTDEV 1 1 0 0 0 0 0 0 []] (fls s')) = Ret s3 tt /\
  icache s3 !! 0%nat = Some demo_inode.
Proof.
  destruct demo_tx as (c & l & V & HT & HG & Hs & Ho & _). exists c, (mk_fs demo_super demo_cache l).
  destruct (iupdate_ilock_roundtrip HG Ho (mk_fs demo_super demo_cache l) 0 demo_inode [] V) as (s' & R & Hr);
    [exact HT|reflexivity|reflexivity|reflexivity|cbn; lia|exact demo_inode_typed|discriminate|rewrite Hs; cbn; lia|].
  exists s'. destruct (Hr (mk_fs demo_super [mk_inode ROOTDEV 1 1 0 0 0 0 0 0 []] (fls s')) 0%nat (mk_inode ROOTDEV 1 1 0 0 0 0 0 0 []))
    as (s3 & R3 & Hs3); [reflexivity..|].
  exists s3. split; [exact HG|]. split; [exact R|]. split; [exact R3|]. exact Hs3.
Defined.
