(* ===== verification/FsTypes.v ===== *)
(** * FsTypes: the types of the file system's data

    The C types bound every field: a block has 512 bytes, a block number 32
    bits, a link count 16, an inode 13 block addresses.  The model works on
    integers and lists, so the bounds are an invariant: every function of
    fs.c and log.c keeps them, whatever it is called for and whatever is on
    the disk.  [keeps] is a small logic of invariants for the monad of the
    kernel. *)
From stdpp Require Import base numbers list gmap strings.
From Stdlib Require Import ZArith Lia.
From S2P Require Import Prelude Bytes StringC Buf Bio Log Fs FsWrite.

Local Open Scope Z_scope.

(** ** Invariants of computations *)

(** [m] keeps [I], also when it goes to sleep, and its results are in [P]. *)
Definition keeps {S A} (I : S -> Prop) (P : A -> Prop) (m : M S A) : Prop :=
  forall s, I s -> match m s with
                   | Ret s' a => I s' /\ P a
                   | Sleep _ s' => I s'
                   | Panic _ | Fault => True
                   end.
Abbreviation any := (fun _ => True).

Create HintDb keeps.

Section rules.
Context {S : Type} (I : S -> Prop).

Lemma kept_ret {A} (P : A -> Prop) a : P a -> keeps I P (ret a).
Proof. by intros Ha s Hs. Qed.
Lemma kept_weaken {A} (P Q : A -> Prop) m : keeps I P m -> (forall a, P a -> Q a) -> keeps I Q m.
Proof. intros Hm Hpq s Hs. specialize (Hm s Hs). destruct (m s); [|done..]. destruct Hm. auto. Qed.
Lemma kept_bind {A B} (P : A -> Prop) (Q : B -> Prop) m k :
  keeps I P m -> (forall a, P a -> keeps I Q (k a)) -> keeps I Q (bind m k).
Proof.
  intros Hm Hk s Hs. unfold bind. specialize (Hm s Hs). destruct (m s) as [s' a| | |]; try done.
  destruct Hm as [Hs' Ha]. exact (Hk a Ha s' Hs').
Qed.
Lemma kept_gets {A} (P : A -> Prop) (f : S -> A) : (forall s, I s -> P (f s)) -> keeps I P (gets f).
Proof. intros Hf s Hs. split; auto. Qed.
Lemma kept_modify (f : S -> S) : (forall s, I s -> I (f s)) -> keeps I any (modify f).
Proof. intros Hf s Hs. split; auto. Qed.
Lemma kept_panic {A} (P : A -> Prop) msg : keeps I P (panic msg).
Proof. done. Qed.
Lemma kept_fault {A} (P : A -> Prop) : keeps I P fault.
Proof. done. Qed.
Lemma kept_sleep {A} (P : A -> Prop) c : keeps I P (sleep_on c).
Proof. by intros s. Qed.
Lemma kept_from_opt {A} (P : A -> Prop) o : (forall a, o = Some a -> P a) -> keeps I P (from_opt o).
Proof. intros Ho s Hs. destruct o; [|done]. split; auto. Qed.
Lemma kept_if {A} (P : A -> Prop) (b : bool) m m' :
  (b = true -> keeps I P m) -> (b = false -> keeps I P m') -> keeps I P (if b then m else m').
Proof. destruct b; auto. Qed.
Lemma kept_decide {A} (P : A -> Prop) (Q : Prop) `{Decision Q} m m' :
  (Q -> keeps I P m) -> (~ Q -> keeps I P m') -> keeps I P (if decide Q then m else m').
Proof. intros. case_decide; auto. Qed.
Lemma kept_when b m : keeps I any m -> keeps I any (whenM b m).
Proof. intros Hm. apply kept_if; [done|]. intros _. by apply kept_ret. Qed.
Lemma kept_for lo hi f : (forall i, keeps I any (f i)) -> keeps I any (for_M lo hi f).
Proof.
  intros Hf. unfold for_M. induction (seq lo (hi - lo)) as [|i l IH]; simpl; [by apply kept_ret|].
  eapply kept_bind; [apply Hf|]. intros _ _. exact IH.
Qed.
End rules.

Lemma kept_zoom {S T A} (I : S -> Prop) (J : T -> Prop) (P : A -> Prop) g p (m : M T A) :
  keeps J P m -> (forall s, I s -> J (g s)) -> (forall t s, I s -> J t -> I (p t s)) -> keeps I P (zoom g p m).
Proof.
  intros Hm Hg Hp s Hs. unfold zoom. specialize (Hm (g s) (Hg s Hs)). destruct (m (g s)) as [t a| |c t|]; try done.
  - destruct Hm. auto.
  - auto.
Qed.

(** One step of a computation: the rule for its head, then what is known of its calls. *)
Ltac kstep :=
  match goal with
  | |- keeps _ _ (bind _ _) => eapply kept_bind; [|let a := fresh "a" in let Ha := fresh "Ha" in intros a Ha]
  | |- keeps _ _ (ret _) => apply kept_ret
  | |- keeps _ _ (panic _) => apply kept_panic
  | |- keeps _ _ fault => apply kept_fault
  | |- keeps _ _ (sleep_on _) => apply kept_sleep
  | |- keeps _ _ (whenM _ _) => apply kept_when
  | |- keeps _ _ (for_M _ _ _) => apply kept_for; intros ?
  | |- keeps _ _ (if decide _ then _ else _) => apply kept_decide; intros ?
  | |- keeps _ _ (if _ then _ else _) => apply kept_if; intros ?
  | |- keeps _ _ _ => solve [eauto 6 with keeps]
  | |- True => exact Logic.I
  end.
Ltac ksteps := repeat kstep.

(** ** The types *)

Definition is_i32 (x : Z) : Prop := - 2 ^ 31 <= x < 2 ^ 31.

Definition block_typed (b : block) : Prop := length b = BSIZE /\ byte_list b.

Definition buf_typed (b : buf) : Prop := is_u32 (dev b) /\ is_u32 (blockno b) /\ block_typed (data b).

Definition bio_typed (s : bio_state) : Prop :=
  Forall buf_typed (bufs s) /\ map_Forall (fun _ => block_typed) (dsk s) /\ Forall (fun w => is_u32 (fst w) /\ block_typed (snd w)) (trace s).

Record log_typed (l : log) : Prop := {
  lt_start : is_i32 (lstart l);
  lt_size : is_i32 (lsize l);
  lt_dev : is_u32 (ldev l);
  lt_n : is_i32 (lh_n l);
  lt_len : length (lh_block l) = LOGSIZE;
  lt_block : Forall is_i32 (lh_block l)
}.

Definition sb_typed (sb : superblock) : Prop :=
  Forall is_u32 [sb_size sb; sb_nblocks sb; sb_ninodes sb; sb_nlog sb; sb_logstart sb; sb_inodestart sb; sb_bmapstart sb].

Definition icache_entry (ip : inode) : Prop := inode_typed ip /\ is_u32 (idev ip) /\ is_u32 (inum ip) /\ is_i32 (iref ip).

Definition ls_typed (s : log_state) : Prop := log_typed (lg s) /\ bio_typed (bio s).
Definition fs_typed (s : fs_state) : Prop := sb_typed (fsb s) /\ Forall icache_entry (icache s) /\ ls_typed (fls s).

(** ** Blocks and fields *)

Lemma block_memmove b o src : block_typed b -> byte_list src -> block_typed (memmove_in b o src).
Proof. intros [Hl Hb] Hs. split; [by rewrite memmove_in_length|by apply byte_list_memmove]. Qed.
Lemma block_wr n b o v : block_typed b -> block_typed (wr n b o v).
Proof. intros Hb. apply block_memmove; [done|apply le_bytes_byte]. Qed.
Lemma block_zero : block_typed (replicate BSIZE 0).
Proof. split; [apply length_replicate|]. apply Forall_replicate. lia. Qed.
Lemma i32_typed x : is_i32 (i32 x).
Proof. apply i32_range. Qed.
Lemma i16_typed x : is_i16 (i16 x).
Proof. unfold is_i16, i16. pose proof (Z.mod_pos_bound (x + 2 ^ 15) (2 ^ 16) ltac:(lia)). lia. Qed.
Lemma block_rd32 b o : block_typed b -> is_u32 (rd32 b o).
Proof. intros [_ Hb]. by apply rd32_range. Qed.
Lemma rd16_u32 b o : byte_list b -> is_u32 (rd16 b o).
Proof.
  intros Hb. unfold rd16, rd, is_u32. pose proof (le_val_range _ (byte_list_sub b o 2 Hb)) as Hr.
  assert (256 ^ Z.of_nat (length (sub_bytes b o 2)) <= 256 ^ 2).
  { apply Z.pow_le_mono_r; [lia|]. unfold sub_bytes. rewrite length_take. lia. }
  lia.
Qed.
Lemma byte_at b k : byte_list b -> 0 <= b !!! k < 256.
Proof.
  intros Hb. rewrite list_lookup_total_alt. destruct (b !! k) as [x|] eqn:E; [|cbn; lia].
  exact (proj1 (Forall_lookup _ _) Hb _ _ E).
Qed.
Lemma byte_lor x y : 0 <= x < 256 -> 0 <= y < 256 -> 0 <= Z.lor x y < 256.
Proof.
  intros Hx Hy. assert (0 <= Z.lor x y) by (apply Z.lor_nonneg; lia). split; [done|]. change 256 with (2 ^ 8).
  destruct (Z.eq_dec (Z.lor x y) 0) as [->|]; [done|]. apply Z.log2_lt_pow2; [lia|].
  rewrite Z.log2_lor by lia. apply Z.max_lub_lt.
  - destruct (Z.eq_dec x 0) as [->|]; [done|]. apply Z.log2_lt_pow2; lia.
  - destruct (Z.eq_dec y 0) as [->|]; [done|]. apply Z.log2_lt_pow2; lia.
Qed.
Lemma byte_land x y : 0 <= x < 256 -> 0 <= Z.land x y < 256.
Proof.
  intros Hx. assert (Z.land x (Z.ones 8) = x) as E by (rewrite Z.land_ones by lia; by apply Z.mod_small).
  rewrite <- E, <- Z.land_assoc, (Z.land_comm (Z.ones 8)), Z.land_assoc, Z.land_ones by lia. apply Z.mod_pos_bound. lia.
Qed.
Lemma bitmask_byte bi : 0 <= bitmask bi < 256.
Proof.
  unfold bitmask. rewrite Z.shiftl_1_l. pose proof (Nat.mod_upper_bound bi 8 ltac:(lia)).
  assert (2 ^ Z.of_nat (bi mod 8) <= 2 ^ 7) by (apply Z.pow_le_mono_r; lia). lia.
Qed.
Lemma block_put b k v : block_typed b -> 0 <= v < 256 -> block_typed (<[k := v]> b).
Proof. intros [Hl Hb] Hv. split; [by rewrite length_insert|]. by apply Forall_insert. Qed.
Lemma block_set_bit b bi : block_typed b -> block_typed (set_bit b bi).
Proof. intros Hb. apply block_put; [done|]. apply byte_lor; [apply byte_at, Hb|apply bitmask_byte]. Qed.
Lemma block_clear_bit b bi : block_typed b -> block_typed (clear_bit b bi).
Proof. intros Hb. apply block_put; [done|]. apply byte_land, byte_at, Hb. Qed.
#[export] Hint Resolve block_memmove block_wr block_zero block_set_bit block_clear_bit block_rd32 u32_range i32_typed i16_typed : keeps.

(** ** The buffer cache *)

(** What the driver has to promise. *)
Class TypedDriver `{BlockDriver} : Prop := iderw_typed : forall i, keeps bio_typed any (iderw i).

Lemma buf_at_typed i : keeps bio_typed buf_typed (buf_at i).
Proof.
  unfold buf_at. eapply kept_bind; [by apply (kept_gets _ (Forall buf_typed)); intros s (H & _)|]. intros bs Hbs.
  apply kept_from_opt. intros b Hb. exact (proj1 (Forall_lookup _ _) Hbs _ _ Hb).
Qed.
Lemma upd_buf_typed i f : (forall b, buf_typed b -> buf_typed (f b)) -> keeps bio_typed any (upd_buf i f).
Proof.
  intros Hf. unfold upd_buf. eapply kept_bind; [apply buf_at_typed|]. intros b Hb. apply kept_modify.
  intros s (H1 & H2 & H3). split; [|done]. cbn. apply Forall_insert; auto.
Qed.
Lemma woken_typed c : keeps bio_typed any (modify (add_woken c)).
Proof. by apply kept_modify. Qed.
#[export] Hint Resolve buf_at_typed woken_typed : keeps.
#[export] Hint Extern 2 (keeps bio_typed _ (upd_buf _ _)) => apply upd_buf_typed; intros ? (?&?&?) : keeps.
#[export] Hint Extern 1 (buf_typed _) => split; [|split] : keeps.

Lemma disk_read_typed d n : map_Forall (fun _ => block_typed) d -> block_typed (disk_read d n).
Proof. intros Hd. unfold disk_read. destruct (d !! n) as [b|] eqn:E; [exact (Hd _ _ E)|apply block_zero]. Qed.

(** The driver of memide.c. *)
Lemma memide_typed size i : keeps bio_typed any (Memide.iderw size i).
Proof.
  unfold Memide.iderw. kstep; [apply buf_at_typed|]. do 4 (kstep; [kstep|]). kstep.
  - apply kept_if; intros _.
    + kstep; [kstep|]. apply kept_modify. intros s (Hs1 & Hs2 & Hs3). destruct Ha as (_ & Hn & Hd). split; [done|]. split; cbn.
      * by apply map_Forall_insert_2.
      * apply Forall_app. split; [done|]. by apply Forall_singleton.
    + eapply (kept_bind _ (map_Forall (fun _ => block_typed))); [by apply kept_gets; intros s (_ & Hs & _)|]. intros d Hd.
      apply upd_buf_typed. intros b (? & ? & ?). split; [done|]. split; [done|]. by apply disk_read_typed.
  - kstep.
Qed.
#[export] Instance memide_driver_typed : TypedDriver (H := mem_driver).
Proof. intros i. apply memide_typed. Qed.

Section typed.
Context `{TypedDriver}.

Lemma buf_data_typed i : keeps bio_typed block_typed (buf_data i).
Proof. unfold buf_data. kstep; [apply buf_at_typed|]. kstep. apply Ha. Qed.
Lemma buf_store_typed i d : block_typed d -> keeps bio_typed any (buf_store i d).
Proof. intros Hd. apply upd_buf_typed. by intros b (? & ? & _). Qed.
Lemma iderw_keeps i : keeps bio_typed any (iderw i).
Proof. apply iderw_typed. Qed.
Hint Resolve buf_data_typed buf_store_typed iderw_keeps : keeps.

Lemma bget_typed d n : is_u32 d -> is_u32 n -> keeps bio_typed any (bget d n).
Proof.
  intros Hd Hn. unfold bget. kstep; [by apply (kept_gets _ any)|]. kstep; [kstep|]. kstep; [by apply (kept_from_opt _ any)|].
  destruct a1 as [i|].
  - ksteps.
  - kstep; [by apply (kept_from_opt _ any)|]. destruct a1 as [i|]; ksteps.
Qed.
Hint Resolve bget_typed : keeps.
Lemma bread_typed d n : is_u32 d -> is_u32 n -> keeps bio_typed any (bread d n).
Proof. intros Hd Hn. unfold bread. ksteps. Qed.
Lemma bwrite_typed i : keeps bio_typed any (bwrite i).
Proof. unfold bwrite. ksteps. Qed.
Lemma brelse_typed i : keeps bio_typed any (brelse i).
Proof. unfold brelse, move_to_front. ksteps. Qed.
Hint Resolve bread_typed bwrite_typed brelse_typed : keeps.

(** ** The log *)

Lemma readsb_typed d : is_u32 d -> keeps bio_typed sb_typed (readsb d).
Proof.
  intros Hd. unfold readsb. kstep; [apply bread_typed; [done|by vm_compute]|]. kstep; [kstep|]. kstep; [kstep|]. kstep.
  unfold sb_typed, sb_decode. repeat constructor; by apply block_rd32.
Qed.
Lemma inbio_typed {A} (P : A -> Prop) m : keeps bio_typed P m -> keeps ls_typed P (inbio m).
Proof. intros Hm. apply (kept_zoom _ bio_typed); [done|by intros s []|by intros t s []]. Qed.
Lemma getlog_typed : keeps ls_typed log_typed getlog.
Proof. by apply kept_gets; intros s []. Qed.
Lemma modlog_typed f : (forall l, log_typed l -> log_typed (f l)) -> keeps ls_typed any (modlog f).
Proof. intros Hf. apply kept_modify. intros s []. split; [by apply Hf|done]. Qed.
Lemma set_lh_typed n bl l : is_i32 n -> length bl = LOGSIZE -> Forall is_i32 bl -> log_typed l -> log_typed (set_lh n bl l).
Proof. intros ? ? ? []. by split. Qed.
Lemma set_outstanding_typed o l : log_typed l -> log_typed (set_outstanding o l).
Proof. intros []. by split. Qed.
Lemma set_committing_typed c l : log_typed l -> log_typed (set_committing c l).
Proof. intros []. by split. Qed.
Hint Resolve readsb_typed getlog_typed modlog_typed set_outstanding_typed set_committing_typed lt_dev : keeps.
Hint Extern 1 (keeps ls_typed _ (inbio _)) => apply inbio_typed : keeps.

Lemma logged_block l k : keeps ls_typed any (from_opt (lh_block l !! k)).
Proof. by apply kept_from_opt. Qed.
Hint Resolve logged_block : keeps.

Lemma install_block_typed k : keeps ls_typed any (install_block k).
Proof. unfold install_block. ksteps. Qed.
Lemma write_log_block_typed k : keeps ls_typed any (write_log_block k).
Proof. unfold write_log_block. ksteps. Qed.
Hint Resolve install_block_typed write_log_block_typed : keeps.
Lemma install_trans_typed : keeps ls_typed any install_trans.
Proof. unfold install_trans. ksteps. Qed.
Lemma write_log_typed : keeps ls_typed any write_log.
Proof. unfold write_log. ksteps. Qed.

Lemma read_blocks_typed n i b bl bl' : read_blocks n i b bl = Some bl' -> Forall is_i32 bl -> length bl' = length bl /\ Forall is_i32 bl'.
Proof.
  revert i bl. induction n as [|n IH]; intros i bl; cbn [read_blocks]; [by intros [= ->]|].
  case_decide; [|done]. intros R Hbl. destruct (IH _ _ R) as [E F].
  - apply Forall_insert; [done|apply i32_typed].
  - by rewrite E, length_insert.
Qed.
Lemma read_head_typed : keeps ls_typed any read_head.
Proof.
  unfold read_head. kstep; [kstep|]. kstep; [kstep|]. kstep; [kstep|].
  eapply (kept_bind _ (fun bl => length bl = LOGSIZE /\ Forall is_i32 bl)).
  - apply kept_from_opt. intros bl R. destruct Ha as [? ? ? ? Hlen Hbl]. destruct (read_blocks_typed _ _ _ _ _ R Hbl) as [E F]. split; [congruence|done].
  - intros bl [Hl Hbl]. kstep; [|kstep]. apply modlog_typed. intros l. apply set_lh_typed; [apply i32_typed|done|done].
Qed.
Lemma enc_head_typed b n bl : block_typed b -> block_typed (enc_head b n bl).
Proof.
  intros Hb. unfold enc_head, for_range. assert (block_typed (wr32 b 0 n)) as Hb0 by by apply block_wr.
  revert Hb0. generalize (wr32 b 0 n). induction (seq 0 (Z.to_nat n - 0)) as [|i l IH]; [done|]. intros b1 Hb1. cbn [foldl]. apply IH. by apply block_wr.
Qed.
Hint Resolve install_trans_typed write_log_typed read_head_typed enc_head_typed : keeps.
Lemma write_head_typed : keeps ls_typed any write_head.
Proof. unfold write_head. ksteps. Qed.
Lemma clear_head_typed : keeps ls_typed any (modlog (fun l => set_lh 0 (lh_block l) l)).
Proof. apply modlog_typed. intros l Hl. destruct (Hl). by apply set_lh_typed. Qed.
Hint Resolve write_head_typed clear_head_typed : keeps.
Lemma initlog_typed d : is_u32 d -> keeps ls_typed any (initlog d).
Proof.
  intros Hd. unfold initlog, recover_from_log. kstep; [kstep|]. kstep; [kstep|]. kstep; [|ksteps].
  apply modlog_typed. intros l []. split; cbn; auto using i32_typed.
Qed.
Lemma commit_typed : keeps ls_typed any commit.
Proof. unfold commit. ksteps. Qed.
Hint Resolve commit_typed : keeps.
Lemma begin_op_typed : keeps ls_typed any begin_op.
Proof. unfold begin_op. ksteps. Qed.
Lemma wakeup_log_typed : keeps ls_typed any wakeup_log.
Proof. apply inbio_typed, woken_typed. Qed.
Hint Resolve wakeup_log_typed : keeps.
Lemma end_op_typed : keeps ls_typed any end_op.
Proof. unfold end_op. ksteps. Qed.
Lemma log_write_typed i : keeps ls_typed any (log_write i).
Proof.
  unfold log_write. kstep; [kstep|]. kstep; [kstep|]. kstep; [kstep|]. kstep; [kstep|]. kstep; [by apply (kept_from_opt _ any)|].
  apply (kept_bind _ any); [ksteps|intros _ _]. kstep; [|ksteps]. apply modlog_typed. intros l. destruct Ha as [? ? ? Hn Hlen Hbl]. apply set_lh_typed.
  - apply orb_false_iff in H1 as [Hlt%Z.leb_gt _]. unfold is_i32, LOGSIZE in *. destruct (Z.of_nat a1 =? lh_n a); lia.
  - by rewrite length_insert.
  - apply Forall_insert; [done|apply i32_typed].
Qed.
Hint Resolve begin_op_typed end_op_typed log_write_typed initlog_typed : keeps.

(** ** Inodes *)

Lemma inlog_typed {A} (P : A -> Prop) m : keeps ls_typed P m -> keeps fs_typed P (inlog m).
Proof. intros Hm. apply (kept_zoom _ ls_typed); [done|by intros s (_ & _ & ?)|by intros t s (? & ? & _)]. Qed.
Lemma inbuf_typed {A} (P : A -> Prop) m : keeps bio_typed P m -> keeps fs_typed P (inbuf m).
Proof. intros Hm. by apply inlog_typed, inbio_typed. Qed.
Lemma getsb_typed : keeps fs_typed sb_typed getsb.
Proof. by apply kept_gets; intros s []. Qed.
Lemma setsb_typed sb : sb_typed sb -> keeps fs_typed any (setsb sb).
Proof. intros Hsb. apply kept_modify. by intros s []. Qed.
Lemma inode_at_typed i : keeps fs_typed icache_entry (inode_at i).
Proof.
  unfold inode_at. eapply kept_bind; [by apply (kept_gets _ (Forall icache_entry)); intros s (_ & Hs & _)|]. intros c Hc.
  apply kept_from_opt. intros ip Hip. exact (proj1 (Forall_lookup _ _) Hc _ _ Hip).
Qed.
Lemma upd_inode_typed i f : (forall ip, icache_entry ip -> icache_entry (f ip)) -> keeps fs_typed any (upd_inode i f).
Proof.
  intros Hf. unfold upd_inode. eapply kept_bind; [apply inode_at_typed|]. intros ip Hip. apply kept_modify.
  intros s (? & Hc & ?). split; [done|]. split; [|done]. cbn. apply Forall_insert; auto.
Qed.
Lemma wakeup_inode_typed i : keeps fs_typed any (wakeup_inode i).
Proof. apply inbuf_typed, woken_typed. Qed.

Lemma ientry_id d n r f ip : is_u32 d -> is_u32 n -> is_i32 r -> icache_entry ip -> icache_entry (set_id d n r f ip).
Proof. intros ? ? ? ([] & ? & ? & ?). split; [by split|done]. Qed.
Lemma ientry_ref r ip : is_i32 r -> icache_entry ip -> icache_entry (set_ref r ip).
Proof. intros ? ([] & ? & ? & ?). split; [by split|done]. Qed.
Lemma ientry_flags f ip : icache_entry ip -> icache_entry (set_iflags f ip).
Proof. intros ([] & ? & ? & ?). split; [by split|done]. Qed.
Lemma ientry_dev ma mi nl ip : is_i16 ma -> is_i16 mi -> is_i16 nl -> icache_entry ip -> icache_entry (set_dev ma mi nl ip).
Proof. intros ? ? ? ([] & ? & ? & ?). split; [by split|done]. Qed.
Lemma ientry_nlink nl ip : is_i16 nl -> icache_entry ip -> icache_entry (set_nlink nl ip).
Proof. intros ? ([] & ? & ? & ?). split; [by split|done]. Qed.
Lemma ientry_type ip : icache_entry ip -> icache_entry (set_itype 0 ip).
Proof. intros ([] & ? & ? & ?). split; [by split|done]. Qed.
Lemma ientry_size sz ip : is_u32 sz -> icache_entry ip -> icache_entry (set_isize sz ip).
Proof. intros ? ([] & ? & ? & ?). split; [by split|done]. Qed.
Lemma ientry_addr k a ip : is_u32 a -> icache_entry ip -> icache_entry (set_addrs (<[k := a]> (addrs ip)) ip).
Proof. intros ? ([] & ? & ? & ?). split; [split; try done; cbn; [by rewrite length_insert|by apply Forall_insert]|done]. Qed.
Lemma ientry_dec c o ip : block_typed c -> icache_entry ip -> icache_entry (dec_dinode c o ip).
Proof.
  intros Hc (_ & ? & ? & ?). split; [|done]. split; cbn; auto using i16_typed, block_rd32.
  repeat constructor; by apply block_rd32.
Qed.
Lemma enc_dinode_typed c o ip : block_typed c -> block_typed (enc_dinode c o ip).
Proof.
  intros Hc. unfold enc_dinode. apply block_memmove; [by repeat apply block_wr|]. unfold enc_addrs.
  induction (addrs ip) as [|a l IH]; [constructor|]. change (byte_list (le_bytes 4 a ++ (l ≫= le_bytes 4))). apply Forall_app. split; [apply le_bytes_byte|exact IH].
Qed.
Lemma ientry_idev ip : icache_entry ip -> is_u32 (idev ip).
Proof. by intros (_ & ? & _). Qed.
Lemma iblock_typed n sb : is_u32 (IBLOCK n sb).
Proof. apply u32_range. Qed.
Lemma bblock_typed n sb : is_u32 (BBLOCK n sb).
Proof. apply u32_range. Qed.
Hint Resolve getsb_typed setsb_typed inode_at_typed wakeup_inode_typed ientry_id ientry_ref ientry_flags ientry_dev ientry_nlink ientry_type ientry_size ientry_addr
  ientry_dec enc_dinode_typed ientry_idev iblock_typed bblock_typed : keeps.
Hint Extern 1 (keeps fs_typed _ (inlog _)) => apply inlog_typed : keeps.
Hint Extern 1 (keeps fs_typed _ (inbuf _)) => apply inbuf_typed : keeps.
Hint Extern 1 (keeps fs_typed _ (upd_inode _ _)) => apply upd_inode_typed; intros ? ? : keeps.

Lemma bzero_typed d n : is_u32 d -> keeps fs_typed any (bzero d n).
Proof. intros Hd. unfold bzero. ksteps. Qed.
Hint Resolve bzero_typed : keeps.
Lemma balloc_loop_typed fuel d b : is_u32 d -> keeps fs_typed is_u32 (balloc_loop fuel d b).
Proof.
  intros Hd. revert b. induction fuel as [|fuel IH]; intros b; cbn [balloc_loop]; [kstep|]. kstep; [kstep|]. kstep; [|kstep].
  kstep; [kstep|]. kstep; [kstep|]. destruct (free_bit _ _ _ _ _) as [bi|]; ksteps; apply u32_range.
Qed.
Hint Resolve balloc_loop_typed : keeps.
Lemma balloc_typed d : is_u32 d -> keeps fs_typed is_u32 (balloc d).
Proof. intros Hd. unfold balloc. ksteps. Qed.
Lemma bfree_typed d b : is_u32 d -> keeps fs_typed any (bfree d b).
Proof. intros Hd. unfold bfree. ksteps. Qed.
Lemma iinit_typed d : is_u32 d -> keeps fs_typed any (iinit d).
Proof. intros Hd. unfold iinit. ksteps. Qed.
Hint Resolve balloc_typed bfree_typed : keeps.
Lemma iget_typed d n : is_u32 d -> is_u32 n -> keeps fs_typed any (iget d n).
Proof.
  intros Hd Hn. unfold iget. kstep; [by apply (kept_gets _ any)|]. destruct (list_find _ a) as [[i ip]|]; [ksteps|].
  destruct (list_find _ a) as [[i ip]|]; ksteps. apply upd_inode_typed. intros ip' ?. by apply ientry_id.
Qed.
Hint Resolve iget_typed : keeps.

Lemma sb_ninodes_typed sb : sb_typed sb -> is_u32 (sb_ninodes sb).
Proof. intros Hsb. exact (proj1 (Forall_lookup _ _) Hsb 2%nat _ eq_refl). Qed.
Lemma ialloc_loop_typed fuel d type n : is_u32 d -> 0 <= n -> keeps fs_typed any (ialloc_loop fuel d type n).
Proof.
  intros Hd. revert n. induction fuel as [|fuel IH]; intros n Hn; cbn [ialloc_loop]; [kstep|]. kstep; [kstep|]. kstep; [|kstep].
  kstep; [kstep|]. kstep; [kstep|]. cbv zeta. kstep.
  - kstep; [apply inbuf_typed, buf_store_typed, block_wr, block_memmove; [done|apply Forall_replicate; lia]|]. ksteps.
    apply iget_typed; [done|]. apply Z.ltb_lt in H1. pose proof (sb_ninodes_typed _ Ha) as Hi. unfold is_u32 in *. lia.
  - kstep; [kstep|]. apply IH. lia.
Qed.
Lemma ialloc_typed d type : is_u32 d -> keeps fs_typed any (ialloc d type).
Proof. intros Hd. unfold ialloc. kstep; [kstep|]. by apply ialloc_loop_typed. Qed.
Lemma iupdate_typed i : keeps fs_typed any (iupdate i).
Proof. unfold iupdate. ksteps. Qed.
Lemma idup_typed i : keeps fs_typed any (idup i).
Proof. unfold idup. ksteps. Qed.
Hint Resolve iupdate_typed : keeps.
Lemma ilock_typed i : keeps fs_typed any (ilock i).
Proof. unfold ilock. ksteps. Qed.
Lemma iunlock_typed i : keeps fs_typed any (iunlock i).
Proof. unfold iunlock. ksteps. Qed.
Lemma bmap_entry_typed d addr bn : is_u32 d -> is_u32 addr -> keeps fs_typed is_u32 (bmap_entry d addr bn).
Proof.
  intros Hd Hadr. unfold bmap_entry. kstep; [kstep|]. kstep; [kstep|]. cbv zeta. apply (kept_bind _ is_u32).
  - ksteps; [done|]. by apply block_rd32.
  - intros x Hx. ksteps. done.
Qed.
Hint Resolve ilock_typed iunlock_typed idup_typed bmap_entry_typed : keeps.
Lemma addr_typed ip k : icache_entry ip -> keeps fs_typed is_u32 (from_opt (addrs ip !! k)).
Proof. intros ([] & _). apply kept_from_opt. intros a Ea. by eapply Forall_lookup. Qed.
Hint Resolve addr_typed : keeps.
Lemma bmap_typed i bn : keeps fs_typed is_u32 (bmap i bn).
Proof.
  unfold bmap. kstep; [kstep|]. kstep; [ksteps; done|]. cbv zeta. kstep; [|kstep]. kstep; [kstep|]. apply (kept_bind _ is_u32); [ksteps; done|].
  intros x Hx. ksteps.
Qed.
Hint Resolve bmap_typed : keeps.
Lemma u32_zero : is_u32 0.
Proof. by vm_compute. Qed.
Hint Resolve u32_zero : keeps.
Lemma itrunc_typed i : keeps fs_typed any (itrunc i).
Proof. unfold itrunc. ksteps. Qed.
Hint Resolve itrunc_typed : keeps.
Lemma iput_typed i : keeps fs_typed any (iput i).
Proof. unfold iput. ksteps. Qed.
Hint Resolve iput_typed : keeps.
Lemma iunlockput_typed i : keeps fs_typed any (iunlockput i).
Proof. unfold iunlockput. ksteps. Qed.
Hint Resolve iunlockput_typed : keeps.

(** What [stati] gives fits [struct stat]. *)
Definition stat_typed (st : stat) : Prop := is_i16 (st_type st) /\ is_i32 (st_dev st) /\ is_u32 (st_ino st) /\ is_i16 (st_nlink st) /\ is_u32 (st_size st).
Lemma stati_typed i : keeps fs_typed stat_typed (stati i).
Proof. unfold stati. kstep; [kstep|]. kstep. destruct Ha as ([] & ? & ? & ?). split; [done|]. split; [apply i32_typed|done]. Qed.

(** ** Contents, directories and paths *)

(** What the devices have to promise. *)
Definition dev_typed (d : devops) : Prop :=
  (forall f, dread d = Some f -> forall i n, keeps fs_typed (fun r => is_i32 (fst r) /\ byte_list (snd r)) (f i n)) /\
  (forall f, dwrite d = Some f -> forall i src n, keeps fs_typed is_i32 (f i src n)).
Context (devsw : list devops) (Hdev : Forall dev_typed devsw).

Lemma dev_read_typed ma f : dev_read devsw ma = Some f -> forall i n, keeps fs_typed (fun r => is_i32 (fst r) /\ byte_list (snd r)) (f i n).
Proof.
  unfold dev_read. destruct (_ || _); [done|]. intros (d & Ed & Ef)%bind_Some. by apply (proj1 (Forall_lookup _ _) Hdev _ _ Ed).
Qed.
Lemma dev_write_typed ma f : dev_write devsw ma = Some f -> forall i src n, keeps fs_typed is_i32 (f i src n).
Proof.
  unfold dev_write. destruct (_ || _); [done|]. intros (d & Ed & Ef)%bind_Some. by apply (proj1 (Forall_lookup _ _) Hdev _ _ Ed).
Qed.

Lemma readi_loop_typed fuel i off n : keeps fs_typed byte_list (readi_loop fuel i off n).
Proof.
  revert off n. induction fuel as [|fuel IH]; intros off n; cbn [readi_loop]; [kstep|]. kstep; [|kstep; constructor].
  kstep; [kstep|]. kstep; [kstep|]. kstep; [kstep|]. cbv zeta. kstep; [kstep|]. kstep; [kstep|]. kstep; [apply IH|]. kstep.
  apply Forall_app. split; [|done]. apply byte_list_sub, Ha2.
Qed.
Lemma readi_typed i off n : keeps fs_typed (fun r => is_i32 (fst r) /\ byte_list (snd r)) (readi devsw i off n).
Proof.
  unfold readi. kstep; [kstep|]. kstep.
  - destruct (dev_read devsw _) as [f|] eqn:E; [by eapply dev_read_typed|]. kstep. split; [|constructor]. by vm_compute.
  - kstep; [kstep; split; [|constructor]; by vm_compute|]. cbv zeta. kstep; [apply readi_loop_typed|]. kstep. split; [apply i32_typed|done].
Qed.
Lemma writei_loop_typed fuel i src off n : byte_list src -> is_u32 off -> keeps fs_typed is_u32 (writei_loop fuel i src off n).
Proof.
  revert src off n. induction fuel as [|fuel IH]; intros src off n Hsrc Hoff; cbn [writei_loop]; [kstep|]. kstep; [|by kstep].
  kstep; [kstep|]. kstep; [kstep|]. kstep; [kstep|]. cbv zeta. kstep; [kstep|]. kstep; [kstep|].
  kstep; [apply inbuf_typed, buf_store_typed, block_memmove; [done|by apply Forall_take]|]. kstep; [kstep|]. kstep; [kstep|].
  apply IH; [by apply Forall_drop|apply u32_range].
Qed.
Lemma writei_typed i src off n : byte_list src -> is_u32 off -> keeps fs_typed is_i32 (writei devsw i src off n).
Proof.
  intros Hsrc Hoff. unfold writei. kstep; [kstep|]. kstep.
  - destruct (dev_write devsw _) as [f|] eqn:E; [by eapply dev_write_typed|]. kstep. by vm_compute.
  - kstep; [kstep; by vm_compute|]. kstep; [kstep; by vm_compute|]. kstep; [by apply writei_loop_typed|]. ksteps. apply i32_typed.
Qed.
Hint Resolve readi_typed : keeps.

Lemma read_dirent_typed i off : keeps fs_typed byte_list (read_dirent devsw i off).
Proof. unfold read_dirent. kstep; [kstep|]. destruct a as [r de]. kstep; [kstep|]. kstep. apply Ha. Qed.
Hint Resolve read_dirent_typed : keeps.
Lemma dirlookup_loop_typed fuel i name off : keeps fs_typed any (dirlookup_loop devsw fuel i name off).
Proof.
  revert off. induction fuel as [|fuel IH]; intros off; cbn [dirlookup_loop]; [kstep|]. kstep; [kstep|]. kstep; [|by kstep].
  kstep; [kstep|]. kstep; [apply IH|]. kstep; [by apply (kept_from_opt _ any)|]. kstep; [|apply IH].
  kstep; [apply iget_typed; [by apply ientry_idev|by apply rd16_u32]|by kstep].
Qed.
Hint Resolve dirlookup_loop_typed : keeps.
Lemma dirlookup_typed i name : keeps fs_typed any (dirlookup devsw i name).
Proof. unfold dirlookup. ksteps. Qed.
Lemma empty_slot_typed fuel i off : keeps fs_typed any (empty_slot devsw fuel i off).
Proof.
  revert off. induction fuel as [|fuel IH]; intros off; cbn [empty_slot]; [kstep|]. kstep; [kstep|]. kstep; [|by kstep].
  kstep; [kstep|]. kstep; [by kstep|apply IH].
Qed.
Hint Resolve dirlookup_typed empty_slot_typed : keeps.
Lemma strncpy_bytes t n l : byte_list t -> strncpy t n = Some l -> byte_list l.
Proof.
  revert t l. induction n as [|n IH]; intros t l Ht; cbn [strncpy]; [by intros [= <-]; constructor|]. destruct t as [|c t]; [done|].
  apply Forall_cons in Ht as [Hc Ht]. destruct (c =? 0).
  - intros [= <-]. constructor; [done|]. apply Forall_replicate. lia.
  - intros (s & Es & [= <-])%bind_Some. constructor; [done|]. by eapply IH.
Qed.
Lemma dirlink_typed i name n : byte_list name -> keeps fs_typed is_i32 (dirlink devsw i name n).
Proof.
  intros Hname. unfold dirlink. kstep; [kstep|]. destruct a as [[ip off]|]; [kstep; [kstep|]; kstep; by vm_compute|].
  kstep; [kstep|]. kstep; [kstep|]. eapply (kept_bind _ byte_list); [apply kept_from_opt; intros l; by apply strncpy_bytes|]. intros nm Hnm.
  kstep; [apply writei_typed; [apply Forall_app; split; [apply le_bytes_byte|done]|apply u32_range]|]. kstep; kstep. by vm_compute.
Qed.

Lemma skip_slashes_bytes p : byte_list p -> byte_list (skip_slashes p).
Proof. induction 1 as [|c p Hc Hp IH]; cbn; [constructor|]. destruct (c =? SLASH); [done|by constructor]. Qed.
Lemma path_elem_bytes p : byte_list p -> byte_list (fst (path_elem p)) /\ byte_list (snd (path_elem p)).
Proof.
  induction 1 as [|c p Hc Hp [IH1 IH2]]; cbn; [split; constructor|]. destruct (_ || _); [split; cbn; by constructor|].
  destruct (path_elem p) as [e r]. split; [by constructor|done].
Qed.
Lemma skipelem_bytes p name p' name' : byte_list p -> byte_list name -> skipelem p name = Some (p', name') -> byte_list p' /\ byte_list name'.
Proof.
  intros Hp Hn. unfold skipelem. destruct (_ =? 0); [done|]. destruct (path_elem_bytes _ (skip_slashes_bytes _ Hp)) as [H1 H2].
  destruct (path_elem _) as [e r]. cbn in H1, H2. intros [= <- <-]. split; [by apply skip_slashes_bytes|].
  case_decide; apply byte_list_memmove; try done; [by apply Forall_take|]. apply Forall_app. split; [done|]. by apply Forall_singleton.
Qed.
Lemma namex_loop_typed fuel i path parent name : byte_list path -> byte_list name ->
  keeps fs_typed (fun r => byte_list (snd r)) (namex_loop devsw fuel i path parent name).
Proof.
  revert i path name. induction fuel as [|fuel IH]; intros i path name Hp Hn; cbn [namex_loop]; [kstep|].
  destruct (skipelem path name) as [[p' name']|] eqn:E; [|ksteps; done].
  destruct (skipelem_bytes _ _ _ _ Hp Hn E) as [Hp' Hn']. kstep; [kstep|]. kstep; [kstep|]. kstep; [ksteps; done|]. kstep; [ksteps; done|].
  kstep; [kstep|]. destruct a1 as [[next o]|]; [|ksteps; done]. kstep; [kstep|]. by apply IH.
Qed.
Lemma namex_typed cwd path parent name : byte_list path -> byte_list name ->
  keeps fs_typed (fun r => byte_list (snd r)) (namex devsw cwd path parent name).
Proof.
  intros Hp Hn. unfold namex. apply (kept_bind _ any); [|intros i _; by apply namex_loop_typed].
  kstep; [by apply iget_typed|apply idup_typed].
Qed.

(** ** Any sequence of calls *)

(** What the rest of the kernel calls, and the assignments of sysfile.c to a locked inode. *)
Inductive fs_call :=
| Initlog | Iinit | BeginOp | EndOp
| Ialloc (type : Z) | Idup (i : nat) | Ilock (i : nat) | Iunlock (i : nat) | Iput (i : nat) | Iupdate (i : nat)
| SetNlink (i : nat) (d : Z) | SetDev (i : nat) (major minor : Z)
| Stati (i : nat) | Readi (i : nat) (off n : Z) | Writei (i : nat) (src : list Z) (off n : Z)
| Dirlookup (i : nat) (name : list Z) | Dirlink (i : nat) (name : list Z) (n : Z)
| Namex (cwd : nat) (path : list Z) (parent : bool) (name : list Z).

Definition exec_call (c : fs_call) : M fs_state unit :=
  match c with
  | Initlog => inlog (initlog ROOTDEV)
  | Iinit => iinit ROOTDEV
  | BeginOp => inlog begin_op
  | EndOp => inlog end_op
  | Ialloc type => ialloc ROOTDEV type ;;; ret tt
  | Idup i => idup i ;;; ret tt
  | Ilock i => ilock i
  | Iunlock i => iunlock i
  | Iput i => iput i
  | Iupdate i => iupdate i
  | SetNlink i d => upd_inode i (fun ip => set_nlink (i16 (inlink ip + d)) ip)
  | SetDev i major minor => upd_inode i (set_dev major minor 1)
  | Stati i => stati i ;;; ret tt
  | Readi i off n => readi devsw i off n ;;; ret tt
  | Writei i src off n => writei devsw i src off n ;;; ret tt
  | Dirlookup i name => dirlookup devsw i name ;;; ret tt
  | Dirlink i name n => dirlink devsw i name n ;;; ret tt
  | Namex cwd path parent name => namex devsw cwd path parent name ;;; ret tt
  end.

(** The arguments have their C types. *)
Definition call_typed (c : fs_call) : Prop :=
  match c with
  | SetDev _ major minor => is_i16 major /\ is_i16 minor
  | Writei _ src off _ => byte_list src /\ is_u32 off
  | Dirlink _ name _ => byte_list name
  | Namex _ path _ name => byte_list path /\ byte_list name
  | _ => True
  end.

Lemma exec_call_typed c : call_typed c -> keeps fs_typed any (exec_call c).
Proof.
  destruct c; cbn [call_typed exec_call]; intros Hc; try (kstep; [|by kstep]);
    eauto using inlog_typed, initlog_typed, iinit_typed, begin_op_typed, end_op_typed, ialloc_typed, idup_typed, ilock_typed, iunlock_typed, iput_typed,
      iupdate_typed, stati_typed, readi_typed, dirlookup_typed, dirlink_typed.
  - by apply inlog_typed, initlog_typed.
  - by apply iinit_typed.
  - by apply ialloc_typed.
  - apply upd_inode_typed. intros ip. apply ientry_nlink, i16_typed.
  - destruct Hc. apply upd_inode_typed. intros ip. by apply ientry_dev.
  - destruct Hc. by apply writei_typed.
  - destruct Hc. by apply namex_typed.
Qed.

Definition fs_step (s s' : fs_state) : Prop :=
  exists c, call_typed c /\ (exec_call c s = Ret s' tt \/ exists ch, exec_call c s = Sleep ch s').

Lemma fs_step_typed s s' : fs_step s s' -> fs_typed s -> fs_typed s'.
Proof.
  intros (c & Hc & [R|[ch R]]) Hs; pose proof (exec_call_typed c Hc s Hs) as K; rewrite R in K; [apply K|done].
Qed.

(** The kernel's data before the first call. *)
Definition boot_inode : inode := mk_inode 0 0 0 0 0 0 0 0 0 (replicate (S NDIRECT) 0).
Definition boot_fs (D : gmap Z block) : fs_state := mk_fs (mk_sb 0 0 0 0 0 0 0) (replicate NINODE boot_inode) (boot_log D).

Lemma binit_typed s : bio_typed s -> bio_typed (binit s).
Proof.
  intros (Hb & Hd & Ht). split; [|done]. unfold binit, upd_bufs. cbn [bufs]. assert (forall l f i, Forall buf_typed l -> (forall b, buf_typed b -> buf_typed (f b)) -> Forall buf_typed (alter f i l)) as A
    by (intros l f i Hl Hf; apply Forall_alter; auto).
  apply (for_range_ind (fun _ => Forall buf_typed)); [unfold NBUF; lia|by apply A|]. intros i bs _ Hbs. unfold binit_link.
  apply A; [|by intros b (? & ? & ?)]. apply A; [|by intros b (? & ? & ?)]. apply A; [done|]. intros b (? & ? & ?). by split.
Qed.

Lemma boot_fs_typed D : map_Forall (fun _ => block_typed) D -> fs_typed (boot_fs D).
Proof.
  intros HD. split; [by repeat constructor|]. split.
  - apply Forall_replicate. split; [|by vm_compute].
    split; [by vm_compute|by vm_compute|by vm_compute|by vm_compute|by vm_compute|reflexivity|apply (Forall_replicate is_u32 (S NDIRECT) 0), u32_zero].
  - split; [split; [by vm_compute|by vm_compute|by vm_compute|by vm_compute|reflexivity|apply (Forall_replicate is_i32 LOGSIZE 0); by vm_compute]|]. apply binit_typed. split; [|split; [exact HD|constructor]].
    apply Forall_replicate. split; [by vm_compute|]. split; [by vm_compute|]. apply block_zero.
Qed.

(** Whatever calls are made with arguments of their C types, and whatever
    512-byte blocks are on the disk, all data of the file system keeps its
    types: blocks in the cache, on the disk and written to it have 512 bytes,
    block and inode numbers and sizes have 32 bits, link counts and the other
    short fields of an inode 16 with a sign, an inode has 13 addresses and the
    log header [LOGSIZE].  So every field that [iupdate] stores fits the
    field of the dinode, [stati] gives a [struct stat], and [readi] bytes. *)
Theorem fs_data_typed D s : map_Forall (fun _ => block_typed) D -> rtc fs_step (boot_fs D) s ->
  fs_typed s /\
  (forall i s' st, stati i s = Ret s' st -> stat_typed st) /\
  (forall i off n s' r l, readi devsw i off n s = Ret s' (r, l) -> is_i32 r /\ byte_list l).
Proof.
  intros HD Hr. assert (fs_typed s) as Hs.
  { apply (rtc_ind_r (fun s => fs_typed s) (boot_fs D)) in Hr; [done|by apply boot_fs_typed|]. intros s1 s2 _ Hstep Hs1. by eapply fs_step_typed. }
  split; [done|]. split.
  - intros i s' st R. pose proof (stati_typed i s Hs) as K. rewrite R in K. apply K.
  - intros i off n s' r l R. pose proof (readi_typed i off n s Hs) as K. rewrite R in K. apply K.
Qed.
End typed.

Definition after (c : fs_call) (s : fs_state) : fs_state :=
  match @exec_call mem_driver [] c s with Ret s' _ => s' | _ => s end.
Definition ex_state : fs_state := after BeginOp (after Iinit (after Initlog (boot_fs ∅))).

Lemma fs_data_typed_witness : rtc (@fs_step mem_driver []) (boot_fs ∅) ex_state /\ fs_typed ex_state /\ outstanding (lg (fls ex_state)) = 1.
Proof.
  assert (rtc (@fs_step mem_driver []) (boot_fs ∅) ex_state) as R.
  { eapply rtc_l; [exists Initlog; split; [exact Logic.I|left; vm_compute; reflexivity]|].
    eapply rtc_l; [exists Iinit; split; [exact Logic.I|left; vm_compute; reflexivity]|].
    apply rtc_once. exists BeginOp. split; [exact Logic.I|left; vm_compute; reflexivity]. }
  split; [exact R|]. split; [|vm_compute; reflexivity].
  exact (proj1 (@fs_data_typed mem_driver memide_driver_typed [] (Forall_nil_2 _) ∅ ex_state (map_Forall_empty _) R)).
Defined.
