(* ===== verification/FsDir.v ===== *)
(** * FsDir: directories and paths (fs.c)

    A directory is a file of 16-byte entries.  Its abstract value is the
    function from names, padded to [DIRSIZ] bytes, to inode numbers.
    [dirlookup] reads that function, [dirlink] extends it at one point, and
    [skipelem] splits a path into the names to look up. *)
From stdpp Require Import base numbers list gmap strings.
From Stdlib Require Import ZArith Lia.
From S2P Require Import Prelude Bytes StringC Buf Bio Log Fs FsBlock FsFile FsWrite.

Local Open Scope Z_scope.

(** ** Entries *)

Definition dirent_at (d : list Z) (j : nat) : list Z := sub_bytes d (16 * j) 16.
Definition ents (d : list Z) : list (list Z) := dirent_at d <$> seq 0 (length d / 16).

(** The entry is used and has the name. *)
Definition matches (name de : list Z) : bool :=
  negb (de_inum de =? 0) && bool_decide (pad DIRSIZ name = pad DIRSIZ (de_name de)).

(** The first entry with the name, its index counted from [j]. *)
Fixpoint dir_find (name : list Z) (es : list (list Z)) (j : nat) : option (nat * Z) :=
  match es with
  | [] => None
  | de :: es => if matches name de then Some (j, de_inum de) else dir_find name es (S j)
  end.

(** The directory as a function from names to inode numbers. *)
Definition dir_inum (d name : list Z) : option Z := snd <$> dir_find name (ents d) 0.

(** The first unused entry, or the end. *)
Fixpoint free_ent (es : list (list Z)) (j : nat) : nat :=
  match es with
  | [] => j
  | de :: es => if de_inum de =? 0 then j else free_ent es (S j)
  end.

Record dir_ok (sb : superblock) (V : Z -> block) (ip : inode) : Prop := {
  do_file : file_ok sb V ip;
  do_type : itype ip = T_DIR;
  do_size : isize ip mod 16 = 0;
  do_bytes : byte_list (content V ip)
}.

Definition name_ok (name : list Z) : Prop := readable DIRSIZ name /\ byte_list name.

Lemma dir_find_app name a b j :
  dir_find name (a ++ b) j = match dir_find name a j with Some r => Some r | None => dir_find name b (j + length a) end.
Proof.
  revert j. induction a as [|de a IH]; intros j; cbn [app dir_find length]; [by rewrite Nat.add_0_r|].
  destruct (matches name de); [done|]. by rewrite IH, Nat.add_succ_r.
Qed.

Lemma dir_find_shift name es j j' : snd <$> dir_find name es j = snd <$> dir_find name es j'.
Proof. revert j j'. induction es as [|de es IH]; intros j j'; cbn [dir_find]; [done|]. by destruct (matches name de). Qed.

Lemma dir_find_name name name' es j : pad DIRSIZ name = pad DIRSIZ name' -> dir_find name es j = dir_find name' es j.
Proof. intros E. revert j. induction es as [|de es IH]; intros j; cbn [dir_find]; [done|]. unfold matches. by rewrite E, IH. Qed.

Lemma free_ent_range es j : (j <= free_ent es j <= j + length es)%nat.
Proof.
  revert j. induction es as [|de es IH]; intros j; cbn [free_ent length]; [lia|].
  destruct (de_inum de =? 0); [lia|]. specialize (IH (S j)). lia.
Qed.

Lemma free_ent_unused es j de : es !! (free_ent es j - j)%nat = Some de -> de_inum de = 0.
Proof.
  revert j. induction es as [|e es IH]; intros j; cbn [free_ent]; [done|].
  destruct (Z.eqb_spec (de_inum e) 0) as [E|E]; [rewrite Nat.sub_diag; by intros [= <-]|].
  pose proof (free_ent_range es (S j)). replace (free_ent es (S j) - j)%nat with (S (free_ent es (S j) - S j)) by lia.
  cbn. apply IH.
Qed.

Lemma ents_length d : length (ents d) = (length d / 16)%nat.
Proof. unfold ents. by rewrite length_fmap, length_seq. Qed.

Lemma ents_lookup d j : (j < length d / 16)%nat -> ents d !! j = Some (dirent_at d j).
Proof. intros Hj. unfold ents. rewrite list_lookup_fmap, lookup_seq_lt by done. done. Qed.

Lemma dirent_length d j : (j < length d / 16)%nat -> length (dirent_at d j) = 16%nat.
Proof. intros Hj. apply sub_bytes_length. pose proof (Nat.div_mod_eq (length d) 16). lia. Qed.

Lemma entry_matches name de : name_ok name -> length de = 16%nat -> byte_list de ->
  exists r, namecmp name (de_name de) = Some r /\ (r =? 0) = bool_decide (pad DIRSIZ name = pad DIRSIZ (de_name de)).
Proof.
  intros [Hr Hb] Hl Hd. destruct (strncmp_total name (de_name de) DIRSIZ) as (r & E & Hiff);
    [done|left; unfold de_name; rewrite length_drop; unfold DIRSIZ; lia|done|by apply Forall_drop|].
  exists r. split; [exact E|]. apply eq_true_iff_eq. rewrite Z.eqb_eq, bool_decide_eq_true. done.
Qed.

(** ** A new entry *)

Lemma mk_dirent_fields n name : 0 <= n < 2 ^ 16 ->
  de_inum (mk_dirent n name) = n /\ de_name (mk_dirent n name) = name.
Proof.
  intros Hn. unfold mk_dirent, de_inum, de_name, rd16, rd. split.
  - unfold sub_bytes. rewrite drop_0, take_app_length' by (by rewrite le_bytes_length).
    rewrite le_val_bytes. apply Z.mod_small. exact Hn.
  - apply drop_app_length'. by rewrite le_bytes_length.
Qed.

Lemma ents_app a b k : length a = (16 * k)%nat -> ents (a ++ b) = ents a ++ ents b.
Proof.
  intros Ha. unfold ents. rewrite length_app, Ha, (Nat.mul_comm 16 k), Nat.add_comm, Nat.div_add, Nat.add_comm by lia.
  rewrite Nat.div_mul, seq_app, fmap_app by lia. f_equal.
  - apply list_fmap_ext. intros _ j Hj%list_elem_of_lookup_2%elem_of_seq. unfold dirent_at, sub_bytes.
    rewrite drop_app_le by lia. rewrite take_app_le; [done|]. rewrite length_drop. lia.
  - rewrite Nat.add_0_l, <- (Nat.add_0_r k) at 1. rewrite <- fmap_add_seq, <- list_fmap_compose.
    apply list_fmap_ext. intros _ j _. unfold dirent_at, sub_bytes. cbn.
    f_equal. rewrite drop_app_ge by lia. f_equal. lia.
Qed.

Lemma ents_one de : length de = 16%nat -> ents de = [de].
Proof.
  intros Hl. unfold ents. rewrite Hl. cbn. unfold dirent_at, sub_bytes. f_equal. rewrite drop_0. apply take_ge. lia.
Qed.

(** Writing an entry replaces it in the list, or adds it at the end. *)
Lemma ents_overwrite d k de : (length d mod 16 = 0)%nat -> (k <= length d / 16)%nat -> length de = 16%nat ->
  ents (overwrite d (16 * k) de) = take k (ents d) ++ de :: drop (S k) (ents d).
Proof.
  intros Hm Hk Hde. pose proof (Nat.div_mod_eq (length d) 16) as Hd. rewrite Hm, Nat.add_0_r in Hd. unfold overwrite. rewrite Hde.
  assert (Ht : length (take (16 * k) d) = (16 * k)%nat) by (rewrite length_take; lia).
  rewrite (ents_app _ _ k), (ents_app de _ 1), (ents_one de) by (done || lia). cbn [app].
  assert (E : ents d = ents (take (16 * k) d) ++ ents (drop (16 * k) d)) by (by rewrite <- (ents_app _ _ k), take_drop).
  assert (Hek : length (ents (take (16 * k) d)) = k) by (rewrite ents_length, Ht, Nat.mul_comm, Nat.div_mul; lia).
  rewrite E, take_app_length' by done. f_equal. f_equal.
  rewrite drop_app_ge by lia. replace (S k - length (ents (take (16 * k) d)))%nat with 1%nat by lia.
  destruct (decide (length d = 16 * k)%nat) as [E0|E0]; [by rewrite !drop_ge by (rewrite ?ents_length, ?length_drop; (lia || rewrite E0, Nat.sub_diag; cbn; lia))|].
  rewrite <- (take_drop 16 (drop (16 * k) d)) at 1. rewrite (ents_app _ _ 1), (ents_one (take 16 _)) by (rewrite length_take, length_drop; lia).
  by rewrite drop_drop.
Qed.

Lemma overwrite_length d k de : (length d mod 16 = 0)%nat -> (k <= length d / 16)%nat -> length de = 16%nat ->
  (length (overwrite d (16 * k) de) mod 16 = 0 /\ length d <= length (overwrite d (16 * k) de))%nat.
Proof.
  intros Hm Hk Hde. pose proof (Nat.div_mod_eq (length d) 16) as Hd. unfold overwrite.
  rewrite !length_app, length_take, length_drop, Hde. split; [|lia].
  destruct (decide (k = length d / 16)%nat) as [->|Hne].
  - replace (_ + _)%nat with ((length d / 16 + 1) * 16)%nat by lia. apply Nat.Div0.mod_mul.
  - by replace (_ + _)%nat with (length d) by lia.
Qed.

(** The function after a new entry for a name that was not there. *)
Lemma dir_inum_insert d k name n nm :
  (length d mod 16 = 0)%nat -> k = free_ent (ents d) 0 -> dir_inum d name = None -> 0 < n < 2 ^ 16 ->
  dir_inum (overwrite d (16 * k) (mk_dirent n (pad DIRSIZ name))) nm =
    if decide (pad DIRSIZ nm = pad DIRSIZ name) then Some n else dir_inum d nm.
Proof.
  intros Hm -> Hno Hn. set (k := free_ent (ents d) 0). pose proof (free_ent_range (ents d) 0) as Hk. fold k in Hk.
  rewrite ents_length in Hk. set (de := mk_dirent n (pad DIRSIZ name)).
  assert (Hde : length de = 16%nat) by (unfold de, mk_dirent; by rewrite length_app, le_bytes_length, pad_length).
  destruct (mk_dirent_fields n (pad DIRSIZ name) ltac:(lia)) as [Hi Hnm].
  assert (Hmat : matches nm de = bool_decide (pad DIRSIZ nm = pad DIRSIZ name)).
  { unfold matches, de. rewrite Hi, Hnm, pad_pad, (proj2 (Z.eqb_neq n 0)) by lia. done. }
  unfold dir_inum in *. rewrite ents_overwrite by (done || lia).
  assert (Hskip : forall x j, snd <$> dir_find x (drop k (ents d)) j = snd <$> dir_find x (drop (S k) (ents d)) (S j)).
  { intros x j. destruct (ents d !! k) as [e|] eqn:Ee.
    - rewrite (drop_S _ _ _ Ee). cbn [dir_find]. unfold matches.
      rewrite (free_ent_unused (ents d) 0 e) by (by rewrite Nat.sub_0_r). done.
    - apply lookup_ge_None in Ee. by rewrite !drop_ge by lia. }
  rewrite <- (take_drop k (ents d)), dir_find_app in Hno.
  assert (dir_find nm (ents d) 0 = dir_find nm (take k (ents d) ++ drop k (ents d)) 0) as -> by (by rewrite take_drop).
  rewrite !dir_find_app. cbn [dir_find]. rewrite Hmat. case_decide as E.
  - rewrite bool_decide_eq_true_2 by done. rewrite (dir_find_name nm name) by done.
    destruct (dir_find name (take k (ents d)) 0) as [r|]; [done|]. cbn [fmap option_fmap option_map snd]. unfold de. by rewrite Hi.
  - rewrite bool_decide_eq_false_2 by done. destruct (dir_find nm (take k (ents d)) 0) as [r|]; [done|]. by rewrite Hskip.
Qed.

(** ** The operations *)

Section dir.
Context `{BlockDriver} {c : txc} {sb : superblock} (HG : fs_geom c sb) (devsw : list devops).

Lemma read_dirent_law s i ip L V j :
  tx c (fls s) ∅ L V -> icache s !! i = Some ip -> dir_ok sb V ip -> (j < length (content V ip) / 16)%nat ->
  exists l', read_dirent devsw i (16 * Z.of_nat j) s = Ret (at_log s l') (dirent_at (content V ip) j) /\ tx c l' ∅ L V.
Proof.
  intros HT Hi HD Hj. pose proof (content_length V ip) as Hl. pose proof (fo_size _ _ _ (do_file _ _ _ HD)) as Hs.
  unfold MAXFILE, BSIZEz in Hs. pose proof (Nat.div_mod_eq (length (content V ip)) 16) as Hdm.
  pose proof (readi_law HG devsw s i ip L V (16 * Z.of_nat j) sizeof_dirent HT Hi (do_file _ _ _ HD)) as HR.
  unfold sizeof_dirent, is_u32 in *. specialize (HR ltac:(lia) ltac:(lia)). rewrite decide_True in HR by lia.
  destruct HR as (l' & R & HT'). exists l'. split; [|done]. unfold read_dirent. unfold sizeof_dirent.
  rewrite Z.min_l in R by lia. mrun R. unfold u32. rewrite Z.mod_small by lia. cbn [negb Z.eqb Pos.eqb].
  unfold ret, dirent_at. do 2 f_equal. lia.
Qed.

Lemma dirlookup_loop_law fuel s i ip L V name j :
  tx c (fls s) ∅ L V -> icache s !! i = Some ip -> dir_ok sb V ip -> name_ok name ->
  (j <= length (content V ip) / 16)%nat -> (length (content V ip) / 16 - j < fuel)%nat ->
  exists l', tx c l' ∅ L V /\
    dirlookup_loop devsw fuel i name (16 * Z.of_nat j) s =
      match dir_find name (drop j (ents (content V ip))) j with
      | None => Ret (at_log s l') None
      | Some (k, n) => (let* next := iget (idev ip) n in ret (Some (next, 16 * Z.of_nat k))) (at_log s l')
      end.
Proof.
  revert s j. induction fuel as [|fuel IH]; intros s j HT Hi HD HN Hj Hf; [lia|]. cbn [dirlookup_loop].
  mrun (inode_at_ret _ _ _ Hi). pose proof (content_length V ip) as Hl. pose proof (do_size _ _ _ HD) as Hm.
  pose proof (fo_size _ _ _ (do_file _ _ _ HD)) as Hs. unfold MAXFILE, BSIZEz in Hs.
  assert (Hdiv : Z.of_nat (length (content V ip) / 16) * 16 = isize ip).
  { rewrite Hl, Nat2Z.inj_div, Z2Nat.id by lia. pose proof (Z.div_mod (isize ip) 16). lia. }
  set (d := content V ip) in *. destruct (decide (j = length d / 16)%nat) as [->|Hne].
  { rewrite (proj2 (Z.ltb_ge _ _)), drop_ge by (rewrite ?ents_length; lia). exists (fls s). by rewrite at_log_id. }
  rewrite (proj2 (Z.ltb_lt _ _)) by lia. destruct (read_dirent_law s i ip L V j) as (l1 & R1 & HT1); [done..|fold d; lia|].
  fold d in R1. mrun R1. rewrite (drop_S (ents d) (dirent_at d j) j) by (apply ents_lookup; lia). cbn [dir_find]. unfold matches.
  assert (u32 (16 * Z.of_nat j + sizeof_dirent) = 16 * Z.of_nat (S j)) as ->.
  { unfold sizeof_dirent. rewrite u32_small by (unfold is_u32; lia). lia. }
  destruct (IH (at_log s l1) (S j)) as (l2 & HT2 & R2); [done..|fold d; lia|fold d; lia|]. fold d in R2. rewrite at_log_twice in R2.
  destruct (Z.eqb_spec (de_inum (dirent_at d j)) 0) as [E|E]; cbn [negb andb]; [exists l2; by rewrite R2|].
  destruct (entry_matches name (dirent_at d j)) as (r & Er & Hr); [done|apply dirent_length; lia|apply byte_list_sub, (do_bytes _ _ _ HD)|].
  rewrite Er, from_opt_bind, Hr. case_bool_decide; [by exists l1|]. exists l2. by rewrite R2.
Qed.

Lemma dir_entries V ip : dir_ok sb V ip -> Z.of_nat (length (content V ip) / 16) * 16 = isize ip /\ (length (content V ip) mod 16 = 0)%nat.
Proof.
  intros HD. pose proof (fo_size _ _ _ (do_file _ _ _ HD)) as Hs. pose proof (do_size _ _ _ HD) as Hm. rewrite content_length.
  pose proof (Z.div_mod (isize ip) 16). split; [rewrite Nat2Z.inj_div, Z2Nat.id by lia; lia|].
  apply Nat2Z.inj. rewrite Nat2Z.inj_mod, Z2Nat.id by lia. exact Hm.
Qed.

Lemma dirlookup_law s i ip L V name :
  tx c (fls s) ∅ L V -> icache s !! i = Some ip -> dir_ok sb V ip -> name_ok name ->
  exists l', tx c l' ∅ L V /\
    dirlookup devsw i name s =
      match dir_find name (ents (content V ip)) 0 with
      | None => Ret (at_log s l') None
      | Some (k, n) => (let* next := iget (idev ip) n in ret (Some (next, 16 * Z.of_nat k))) (at_log s l')
      end.
Proof.
  intros HT Hi HD HN. unfold dirlookup. mrun (inode_at_ret _ _ _ Hi). rewrite (do_type _ _ _ HD). cbn [negb Z.eqb Pos.eqb].
  destruct (dir_entries V ip HD) as [Hd _]. pose proof (fo_size _ _ _ (do_file _ _ _ HD)).
  destruct (dirlookup_loop_law (S (Z.to_nat (isize ip))) s i ip L V name 0) as (l' & HT' & R); [done..|lia|lia|].
  exists l'. split; [done|]. exact R.
Qed.

Lemma empty_slot_law fuel s i ip L V j :
  tx c (fls s) ∅ L V -> icache s !! i = Some ip -> dir_ok sb V ip ->
  (j <= length (content V ip) / 16)%nat -> (length (content V ip) / 16 - j < fuel)%nat ->
  exists l', tx c l' ∅ L V /\
    empty_slot devsw fuel i (16 * Z.of_nat j) s = Ret (at_log s l') (16 * Z.of_nat (free_ent (drop j (ents (content V ip))) j)).
Proof.
  revert s j. induction fuel as [|fuel IH]; intros s j HT Hi HD Hj Hf; [lia|]. cbn [empty_slot].
  mrun (inode_at_ret _ _ _ Hi). destruct (dir_entries V ip HD) as [Hd _].
  pose proof (fo_size _ _ _ (do_file _ _ _ HD)) as Hs. unfold MAXFILE, BSIZEz in Hs.
  set (d := content V ip) in *. destruct (decide (j = length d / 16)%nat) as [->|Hne].
  { rewrite (proj2 (Z.ltb_ge _ _)), drop_ge by (rewrite ?ents_length; lia). exists (fls s). by rewrite at_log_id. }
  rewrite (proj2 (Z.ltb_lt _ _)) by lia. destruct (read_dirent_law s i ip L V j) as (l1 & R1 & HT1); [done..|fold d; lia|].
  fold d in R1. mrun R1. rewrite (drop_S (ents d) (dirent_at d j) j) by (apply ents_lookup; lia). cbn [free_ent].
  destruct (Z.eqb_spec (de_inum (dirent_at d j)) 0) as [E|E]; [by exists l1|].
  replace (i32 (16 * Z.of_nat j + sizeof_dirent)) with (16 * Z.of_nat (S j)) by (unfold sizeof_dirent; rewrite i32_small; lia).
  destruct (IH (at_log s l1) (S j)) as (l2 & HT2 & R2); [done..|fold d; lia|fold d; lia|]. fold d in R2. rewrite at_log_twice in R2.
  by exists l2.
Qed.

(** What [dirlookup] does from [s], when the name stands for [o]: the inode is
    got from the cache, or there is none; nothing is written. *)
Definition looks_up (s : fs_state) (i : nat) (ip : inode) (L : list Z) (V : Z -> block) (name : list Z) (o : option Z) : Prop :=
  exists l' off, tx c l' ∅ L V /\
    dirlookup devsw i name s =
      match o with
      | None => Ret (at_log s l') None
      | Some n => (let* next := iget (idev ip) n in ret (Some (next, off))) (at_log s l')
      end.

Lemma dirlookup_reads s i ip L V name :
  tx c (fls s) ∅ L V -> icache s !! i = Some ip -> dir_ok sb V ip -> name_ok name ->
  looks_up s i ip L V name (dir_inum (content V ip) name).
Proof.
  intros HT Hi HD HN. destruct (dirlookup_law s i ip L V name HT Hi HD HN) as (l' & HT' & R). unfold dir_inum.
  destruct (dir_find name (ents (content V ip)) 0) as [[k n]|]; [exists l', (16 * Z.of_nat k)|exists l', 0]; done.
Qed.

Lemma dirlink_law (Hout : 1 <= c_out c) s i ip L V name n :
  tx c (fls s) ∅ L V -> fsb s = sb -> icache s !! i = Some ip -> dir_ok sb V ip -> 0 <= inum ip < sb_ninodes sb ->
  meta_used sb V -> (2 <= nfree sb V)%nat -> Z.of_nat (length L) + 9 <= c_size c - 1 ->
  isize ip + 16 <= MAXFILE * BSIZEz -> name_ok name -> 0 < n < 2 ^ 16 -> dir_inum (content V ip) name = None ->
  exists l' L' V' ip', dirlink devsw i name n s = Ret (with_ip s i ip' l') 0 /\ tx c l' ∅ L' V' /\ dir_ok sb V' ip' /\
    (forall nm, dir_inum (content V' ip') nm =
       if decide (pad DIRSIZ nm = pad DIRSIZ name) then Some n else dir_inum (content V ip) nm) /\
    ip' = set_isize (isize ip') (set_addrs (addrs ip') ip) /\
    (forall b, b <> sb_bmapstart sb -> b <> IBLOCK (inum ip) sb -> ~ owns V ip b -> (is_data sb b -> used sb V b = true) ->
      V' b = V b).
Proof.
  intros HT Hsb Hi HD Hin Hm Hfree Hroom Hmax HN Hn Hno. unfold dirlink.
  destruct (dirlookup_law s i ip L V name HT Hi HD HN) as (l1 & HT1 & R1). unfold dir_inum in Hno.
  destruct (dir_find name (ents (content V ip)) 0) eqn:Ef; [done|]. mrun R1.
  erewrite bind_ret by (apply inode_at_ret; exact Hi). destruct (dir_entries V ip HD) as [Hd Hd16].
  pose proof (fo_size _ _ _ (do_file _ _ _ HD)) as Hs. set (d := content V ip) in *.
  destruct (empty_slot_law (S (Z.to_nat (isize ip))) (at_log s l1) i ip L V 0) as (l2 & HT2 & R2); [done..|lia|fold d; lia|].
  fold d in R2. rewrite at_log_twice, drop_0 in R2. mrun R2. set (k := free_ent (ents d) 0) in *.
  pose proof (free_ent_range (ents d) 0) as Hk. fold k in Hk. rewrite ents_length in Hk.
  rewrite (strncpy_pad _ _ (proj1 HN)), from_opt_bind. unfold u16. rewrite (Z.mod_small n) by lia.
  set (de := mk_dirent n (pad DIRSIZ name)).
  assert (Hde : length de = 16%nat) by (unfold de, mk_dirent; by rewrite length_app, le_bytes_length, pad_length).
  unfold MAXFILE, BSIZEz in *. rewrite u32_small by (unfold is_u32; lia).
  pose proof (writei_law HG Hout devsw (at_log s l2) i ip L V de (16 * Z.of_nat k) 1 HT2 Hsb Hi (do_file _ _ _ HD) Hin Hm) as HW.
  rewrite Hde in HW. cbv zeta in HW. rewrite decide_True in HW by (unfold MAXFILE, BSIZEz; lia).
  destruct HW as (l' & L' & V' & ip' & R & HT' & HF' & HC' & Hip' & _ & _ & _ & Hfr);
    [lia|unfold BSIZEz; pose proof (Z.div_mod (16 * Z.of_nat k) 512); pose proof (Z.mod_pos_bound (16 * Z.of_nat k) 512); lia
    |lia|unfold is_u32; lia|unfold is_u32; lia|].
  exists l', L', V', ip'. split; [mrun R; unfold u32, sizeof_dirent; rewrite Z.mod_small by lia; done|]. split; [exact HT'|].
  assert (HC : content V' ip' = overwrite d (16 * k) de) by (rewrite HC'; do 2 f_equal; lia).
  split; [|split; [|split; [exact Hip'|exact Hfr]]].
  - split; [exact HF'|by rewrite Hip', <- (do_type _ _ _ HD)| |].
    + rewrite <- (Z2Nat.id (isize ip')), <- (content_length V' ip'), HC by apply (fo_size _ _ _ HF').
      destruct (overwrite_length d k de Hd16 ltac:(lia) Hde) as [E _]. change 16 with (Z.of_nat 16). by rewrite <- Nat2Z.inj_mod, E.
    + rewrite HC. unfold overwrite. apply Forall_app. split; [by apply Forall_take, (do_bytes _ _ _ HD)|].
      apply Forall_app. split; [|by apply Forall_drop, (do_bytes _ _ _ HD)].
      apply Forall_app. split; [apply le_bytes_byte|apply pad_bytes, (proj2 HN)].
  - intros nm. rewrite HC. apply dir_inum_insert; [done|done| |done]. unfold dir_inum. by rewrite Ef.
Qed.

(** C24: a directory is a map from names to inode numbers, [dirlink] inserts into
    it and [dirlookup] reads it.  After [dirlink] of a name that was not
    there, [dirlookup] of any name finds the new number for names that agree
    with it in their first [DIRSIZ] bytes, and for all others what it found
    before; the entry may be one that was unlinked or a new one at the end, in
    a block allocated for it, and blocks of other files keep their contents. *)
Theorem dirlink_dirlookup (Hout : 1 <= c_out c) s i ip L V name n :
  tx c (fls s) ∅ L V -> fsb s = sb -> icache s !! i = Some ip -> dir_ok sb V ip -> 0 <= inum ip < sb_ninodes sb ->
  meta_used sb V -> (2 <= nfree sb V)%nat -> Z.of_nat (length L) + 9 <= c_size c - 1 ->
  isize ip + 16 <= MAXFILE * BSIZEz -> name_ok name -> 0 < n < 2 ^ 16 -> dir_inum (content V ip) name = None ->
  exists l' L' V' ip', let s' := with_ip s i ip' l' in
    dirlink devsw i name n s = Ret s' 0 /\ dir_ok sb V' ip' /\
    (forall nm, name_ok nm -> looks_up s' i ip' L' V' nm
       (if decide (pad DIRSIZ nm = pad DIRSIZ name) then Some n else dir_inum (content V ip) nm)) /\
    (forall b, b <> sb_bmapstart sb -> b <> IBLOCK (inum ip) sb -> ~ owns V ip b -> (is_data sb b -> used sb V b = true) ->
      V' b = V b).
Proof.
  intros HT Hsb Hi HD Hin Hm Hfree Hroom Hmax HN Hn Hno.
  destruct (dirlink_law Hout s i ip L V name n) as (l' & L' & V' & ip' & R & HT' & HD' & HI & _ & Hfr); [done..|].
  exists l', L', V', ip'. split; [exact R|]. split; [exact HD'|]. split; [|exact Hfr]. intros nm HNm. rewrite <- HI.
  apply dirlookup_reads; [exact HT'|by eapply with_ip_lookup|done|done].
Qed.
End dir.

(** ** Paths *)

(** The names of a path: what is between the slashes. *)
Definition plain (c : Z) : Prop := c <> SLASH /\ c <> 0.
Definition element (e : list Z) : Prop := e <> [] /\ Forall plain e.

(** What [skipelem] leaves in [name], a buffer of [DIRSIZ] bytes. *)
Definition stored_name (name e : list Z) : list Z :=
  if decide (DIRSIZ <= length e)%nat then take DIRSIZ e else e ++ [0] ++ drop (S (length e)) name.

(** Slashes, one or more. *)
Definition slashes (n : nat) : list Z := replicate n SLASH.

Lemma skip_slashes_app n p : ch p <> SLASH -> skip_slashes (slashes n ++ p) = p.
Proof.
  intros Hp. induction n as [|n IH]; [|exact IH]. cbn [slashes replicate app]. destruct p as [|x p]; [done|].
  cbn [skip_slashes]. by rewrite (proj2 (Z.eqb_neq _ _)).
Qed.

Lemma path_elem_app e p : Forall plain e -> ch p = SLASH \/ ch p = 0 -> path_elem (e ++ p) = (e, p).
Proof.
  intros He Hp. induction He as [|x e [Hx H0] _ IH]; cbn [app path_elem].
  - destruct p as [|x p]; [done|]. cbn [path_elem]. destruct Hp as [Hp|Hp]; cbn in Hp; rewrite Hp; done.
  - rewrite (proj2 (Z.eqb_neq _ _)), (proj2 (Z.eqb_neq _ _)) by done. cbn [orb]. by rewrite IH.
Qed.

Lemma memmove_in_start (b src : list Z) : (length src <= length b)%nat -> memmove_in b 0 src = src ++ drop (length src) b.
Proof.
  intros Hl. rewrite <- (take_drop (length src) b) at 1.
  by rewrite memmove_in_prefix, memmove_in_full by (rewrite length_take; cbn; lia).
Qed.

(** [skipelem] takes the first element off a path with any number of slashes
    around it, cut to [DIRSIZ] bytes. *)
Theorem skipelem_law n e m rest name : element e -> length name = DIRSIZ ->
  ch rest <> SLASH -> (rest = [] \/ m <> 0%nat) ->
  skipelem (slashes n ++ e ++ slashes m ++ rest) name = Some (rest, stored_name name e).
Proof.
  intros [He HF] Hname Hrest Hm. unfold skipelem.
  assert (He0 : plain (ch (e ++ slashes m ++ rest))) by (destruct e; [done|by apply Forall_cons in HF as [? _]]).
  rewrite skip_slashes_app by apply He0. rewrite (proj2 (Z.eqb_neq _ 0)) by apply He0.
  rewrite path_elem_app; [|done|]. 2: { destruct Hm as [->|Hm]; destruct m; cbn; auto; done. }
  rewrite skip_slashes_app by done. do 2 f_equal. unfold stored_name. case_decide as Hl.
  - rewrite memmove_in_start by (rewrite length_take; lia). rewrite drop_ge, app_nil_r by (rewrite length_take; lia). done.
  - rewrite memmove_in_start by (rewrite length_app; cbn; lia). rewrite length_app, Nat.add_1_r. by rewrite <- app_assoc.
Qed.

(** Names are compared by their padded form, which the buffer keeps. *)
Theorem stored_name_pad name e : Forall plain e -> pad DIRSIZ (stored_name name e) = pad DIRSIZ e.
Proof.
  intros He. unfold stored_name.
  assert (forall n rest, (length e < n)%nat -> pad n (e ++ 0 :: rest) = pad n e) as Hpad.
  { intros n rest. revert n. induction He as [|x e [_ Hx] _ IH]; intros n Hn; (destruct n as [|n]; [lia|]); cbn [app pad].
    - done.
    - rewrite (proj2 (Z.eqb_neq x 0)) by done. f_equal. apply IH. cbn in Hn. lia. }
  assert (forall n, pad n (take n e) = pad n e) as Htake.
  { intros n. revert n. clear. induction e as [|x e IH]; intros n; (destruct n as [|n]; [done|]); cbn [take pad]; [done|].
    by rewrite IH. }
  case_decide; [apply Htake|]. apply Hpad. lia.
Qed.

(** ** An empty directory *)

#[local] Existing Instance mem_driver.

Definition demo_dir : inode := mk_inode ROOTDEV 1 1 (Z.lor I_BUSY I_VALID) T_DIR 0 0 1 0 (replicate (S NDIRECT) 0).
Definition demo_name : list Z := [102; 111; 111; 0].

Lemma demo_dir_fblk V k : fblk V demo_dir k = 0.
Proof.
  unfold fblk. case_decide; [|done]. unfold demo_dir. cbn [addrs]. apply lookup_total_replicate_2. lia.
Qed.

Lemma demo_dir_ok V : dir_ok demo_super V demo_dir.
Proof.
  split; [|done|done|constructor]. split; try done; [|cbn; unfold BSIZEz; lia].
  split; [|done| |]; intros k; intros; rewrite ?demo_dir_fblk in *; done.
Qed.

Lemma dirlink_dirlookup_witness : exists c s l' L' V' ip', fs_geom c demo_super /\
  dirlink [] 0 demo_name 7 s = Ret (with_ip s 0 ip' l') 0 /\
  looks_up (c := c) [] (with_ip s 0 ip' l') 0 ip' L' V' demo_name (Some 7).
Proof.
  destruct demo_tx as (c & l & V & HT & HG & Hs & Ho & _ & Hbm & _). exists c, (mk_fs demo_super [demo_dir] l).
  assert (name_ok demo_name) as HN by (split; [right; apply (bool_decide_unpack _); by vm_compute|repeat constructor; lia]).
  destruct (dirlink_dirlookup HG [] Ho (mk_fs demo_super [demo_dir] l) 0 demo_dir [] V demo_name 7 HT eq_refl eq_refl
    (demo_dir_ok V)) as (l' & L' & V' & ip' & R & _ & HL & _);
    [by vm_compute|by apply demo_meta|rewrite (demo_nfree V Hbm); lia|rewrite Hs; cbn; lia|by vm_compute|exact HN|lia|done|].
  exists l', L', V', ip'. split; [done|]. split; [exact R|]. exact (HL demo_name HN).
Defined.
