(* ===== verification/Mkfs.v ===== *)
(** * Mkfs: the file system builder (mkfs.c)

    mkfs lays out a disk image: superblock, log, dinodes, bitmap and data.  It
    hands out inode and block numbers in order and marks the blocks in the
    bitmap at the end.  The theorems show that the image is a file system as
    fs.c understands it: its geometry, an empty log, a bitmap with exactly the
    allocated blocks, a root directory that maps each name to its inode, and
    inodes whose contents are the files'.

    The image is an array of blocks of a given length: reading past its end
    makes mkfs exit.  A file given on the command line is its name and what
    the reads of it return, or nothing if it cannot be opened. *)
From stdpp Require Import base numbers list gmap strings.
From Stdlib Require Import ZArith Lia.
From S2P Require Import Prelude Bytes StringC Buf Bio Log Fs FsBlock FsFile FsWrite FsDir.

Local Open Scope Z_scope.

Definition NINODES : Z := 200.
Definition nbitmap : Z := FSSIZE / (BSIZEz * 8) + 1.
Definition ninodeblocks : Z := NINODES / IPB + 1.
Definition nlog : Z := Z.of_nat LOGSIZE.
Definition nmeta : Z := 2 + nlog + ninodeblocks + nbitmap.
Definition nblocks : Z := FSSIZE - nmeta.

(** The values as the image's reader sees them. *)
Definition xshort (x : Z) : Z := le_val (le_bytes 2 x).
Definition xint (x : Z) : Z := le_val (le_bytes 4 x).

Record mkfs := mk_mkfs {
  img : gmap Z block;
  len : Z;
  msb : superblock;
  freeinode : Z;
  freeblock : Z
}.
Definition set_img (i : gmap Z block) (n : Z) (s : mkfs) : mkfs := mk_mkfs i n (msb s) (freeinode s) (freeblock s).
Definition set_msb (b : superblock) (s : mkfs) : mkfs := mk_mkfs (img s) (len s) b (freeinode s) (freeblock s).
Definition set_freeinode (n : Z) (s : mkfs) : mkfs := mk_mkfs (img s) (len s) (msb s) n (freeblock s).
Definition set_freeblock (n : Z) (s : mkfs) : mkfs := mk_mkfs (img s) (len s) (msb s) (freeinode s) n.

(** [exit(1)] after a message, and a failed [assert]. *)
Definition exit1 {A} (msg : string) : M mkfs A := panic msg.
Definition assert (b : bool) : M mkfs unit := if b then ret tt else panic "assert".

(** The block at which [lseek] puts the file. *)
Definition seek (sec : Z) : Z := u32 (sec * BSIZEz) / BSIZEz.

Definition wsect (sec : Z) (buf : block) : M mkfs unit :=
  modify (fun s => set_img (<[seek sec := buf]> (img s)) (Z.max (len s) (seek sec + 1)) s).

Definition rsect (sec : Z) : M mkfs block :=
  let* s := get in
  if seek sec <? len s then ret (disk_read (img s) (seek sec)) else exit1 "read".

(** The local [din], before it is assigned; the number is that of the inode. *)
Definition din0 (n : Z) : inode := mk_inode ROOTDEV n 0 0 0 0 0 0 0 (replicate (S NDIRECT) 0).

Definition winode (n : Z) (ip : inode) : M mkfs unit :=
  let* s := get in
  let bn := IBLOCK n (msb s) in
  let* buf := rsect bn in
  wsect bn (enc_dinode buf (dinode_off n) ip).

Definition rinode (n : Z) : M mkfs inode :=
  let* s := get in
  let bn := IBLOCK n (msb s) in
  let* buf := rsect bn in
  ret (dec_dinode buf (dinode_off n) (din0 n)).

Definition ialloc (type : Z) : M mkfs Z :=
  let* n := gets freeinode in
  modify (set_freeinode (u32 (n + 1))) ;;;
  winode n (set_meta (i16 (xshort type)) 0 0 (i16 (xshort 1)) (xint 0) (replicate (S NDIRECT) 0) (din0 n)) ;;;
  ret n.

(** The bits of the blocks below [used]. *)
Fixpoint set_bits (used : nat) : block :=
  match used with
  | O => replicate BSIZE 0
  | S i => set_bit (set_bits i) i
  end.
Definition balloc (used : Z) : M mkfs unit :=
  assert (used <? BSIZEz * 8) ;;;
  let* s := get in
  wsect (sb_bmapstart (msb s)) (set_bits (Z.to_nat used)).

(** [freeblock++]. *)
Definition next_block : M mkfs Z :=
  let* b := gets freeblock in
  modify (set_freeblock (u32 (b + 1))) ;;;
  ret b.

(** Entry [j] of the indirect block [ind]. *)
Definition entry_for (ind : Z) (j : nat) : M mkfs Z :=
  let* indirect := rsect ind in
  let* indirect := (if rd32 indirect (4 * j) =? 0 then
                      let* b := next_block in
                      let indirect := wr32 indirect (4 * j) (xint b) in
                      wsect ind indirect ;;;
                      ret indirect
                    else ret indirect) in
  ret (xint (rd32 indirect (4 * j))).

(** The block [x] that holds block [fbn] of the file, with the dinode. *)
Definition block_for (fbn : nat) (din : inode) : M mkfs (inode * Z) :=
  if decide (fbn < NDIRECT)%nat then
    let* din := (if xint (addrs din !!! fbn) =? 0 then
                   let* b := next_block in ret (set_addrs (<[fbn := xint b]> (addrs din)) din)
                 else ret din) in
    ret (din, xint (addrs din !!! fbn))
  else
    let* din := (if xint (addrs din !!! NDIRECT) =? 0 then
                   let* b := next_block in ret (set_addrs (<[NDIRECT := xint b]> (addrs din)) din)
                 else ret din) in
    let* x := entry_for (xint (addrs din !!! NDIRECT)) (fbn - NDIRECT) in
    ret (din, x).

(** The loop of [iappend]: each round stores at least one byte. *)
Fixpoint iappend_loop (fuel : nat) (p : list Z) (off n : Z) (din : inode) : M mkfs (Z * inode) :=
  match fuel with
  | O => fault
  | S fuel =>
      if 0 <? n then
        let fbn := off / BSIZEz in
        assert (fbn <? MAXFILE) ;;;
        let* r := block_for (Z.to_nat fbn) din in
        let '(din, x) := r in
        let n1 := Z.min n ((fbn + 1) * BSIZEz - off) in
        let* buf := rsect x in
        wsect x (memmove_in buf (Z.to_nat (off - fbn * BSIZEz)) (take (Z.to_nat n1) p)) ;;;
        iappend_loop fuel (drop (Z.to_nat n1) p) (u32 (off + n1)) (n - n1) din
      else ret (off, din)
  end.

Definition iappend (n : Z) (p : list Z) : M mkfs unit :=
  let* din := rinode n in
  let* r := iappend_loop (S (length p)) p (xint (isize din)) (Z.of_nat (length p)) din in
  let '(off, din) := r in
  winode n (set_isize (xint off) din).

(** [struct dirent] with a zeroed name, and [strncpy] into it. *)
Definition dirent (n : Z) (name : list Z) : list Z := mk_dirent (xshort n) (pad DIRSIZ name).

Record arg := mk_arg { aname : list Z; areads : option (list (list Z)) }.

(** Skip leading _ in name when writing to file system. *)
Definition skip_underscore (name : list Z) : list Z :=
  match name with
  | c :: l => if c =? 95 then l else name
  | [] => []
  end.

Fixpoint append_reads (n : Z) (l : list (list Z)) : M mkfs unit :=
  match l with
  | [] => ret tt
  | c :: l => iappend n c ;;; append_reads n l
  end.

(** The body of the loop on the arguments. *)
Definition add_file (rootino : Z) (a : arg) : M mkfs unit :=
  assert (negb (bool_decide (47 ∈ aname a))) ;;;
  match areads a with
  | None => exit1 "open"
  | Some l =>
      let* n := ialloc T_FILE in
      iappend rootino (dirent n (skip_underscore (aname a))) ;;;
      append_reads n l
  end.
Fixpoint add_files (rootino : Z) (l : list arg) : M mkfs unit :=
  match l with
  | [] => ret tt
  | a :: l => add_file rootino a ;;; add_files rootino l
  end.

Fixpoint zero_blocks (fuel : nat) (i : Z) : M mkfs unit :=
  match fuel with
  | O => ret tt
  | S fuel => wsect i zero_block ;;; zero_blocks fuel (i + 1)
  end.

Definition super : superblock :=
  mk_sb (xint FSSIZE) (xint nblocks) (xint NINODES) (xint nlog) (xint 2) (xint (2 + nlog)) (xint (2 + nlog + ninodeblocks)).
Definition super_bytes (b : superblock) : list Z :=
  le_bytes 4 (sb_size b) ++ le_bytes 4 (sb_nblocks b) ++ le_bytes 4 (sb_ninodes b) ++ le_bytes 4 (sb_nlog b) ++
  le_bytes 4 (sb_logstart b) ++ le_bytes 4 (sb_inodestart b) ++ le_bytes 4 (sb_bmapstart b).

(** The superblock and the empty image. *)
Definition start_image : M mkfs unit :=
  modify (set_msb super) ;;;
  modify (set_freeblock nmeta) ;;;
  zero_blocks (Z.to_nat FSSIZE) 0 ;;;
  wsect 1 (memmove_in zero_block 0 (super_bytes super)).

(** Fix size of root inode dir, and write the bitmap. *)
Definition finish (rootino : Z) : M mkfs unit :=
  let* din := rinode rootino in
  let off := (xint (isize din) / BSIZEz + 1) * BSIZEz in
  winode rootino (set_isize (xint (u32 off)) din) ;;;
  let* s := get in
  balloc (i32 (freeblock s)).

Definition main (args : list arg) : M mkfs unit :=
  start_image ;;;
  let* rootino := ialloc T_DIR in
  assert (rootino =? ROOTINO) ;;;
  iappend rootino (dirent rootino [46]) ;;;
  iappend rootino (dirent rootino [46; 46]) ;;;
  add_files rootino args ;;;
  finish rootino.

(** The image file was just truncated. *)
Definition mkfs0 : mkfs := mk_mkfs ∅ 0 (mk_sb 0 0 0 0 0 0 0) 1 0.

(** ** The image as a view of the disk

    The view of an image that is being built has in it the bitmap that mkfs
    will write: the blocks handed out so far are the used ones. *)

Definition super_block : block := memmove_in zero_block 0 (super_bytes super).
Definition c0 : txc := mk_txc {[1 := super_block]} [] 0 0 2 nlog.

Lemma super_geom d : disk_read d 1 = super_block -> fs_geom (mk_txc d [] 0 0 2 nlog) super.
Proof. intros E. split; cbn [c_dsk c_start c_size]; rewrite ?E; by vm_compute. Qed.
Lemma c0_geom : fs_geom c0 super.
Proof. by apply super_geom. Qed.

Record mview (s : mkfs) (V : Z -> block) : Prop := {
  mv_img : forall n, n <> sb_bmapstart super -> V n = disk_read (img s) n;
  mv_bits : V (sb_bmapstart super) = set_bits (Z.to_nat (freeblock s));
  mv_len : len s = FSSIZE;
  mv_sb : msb s = super;
  mv_size : forall n, length (V n) = BSIZE;
  mv_free : nmeta <= freeblock s <= FSSIZE;
  mv_zero : forall n, freeblock s <= n -> V n = zero_block
}.

Lemma set_bits_length u : length (set_bits u) = BSIZE.
Proof. induction u as [|u IH]; cbn [set_bits]; [apply length_replicate|]. unfold set_bit. by rewrite length_insert. Qed.

Lemma set_bits_spec u b : (u <= 4096)%nat -> (b < 4096)%nat -> bit_at (set_bits u) b = bool_decide (b < u)%nat.
Proof.
  intros Hu Hb. induction u as [|u IH]; cbn [set_bits].
  - unfold bit_at. rewrite bool_decide_eq_false_2 by lia. rewrite lookup_total_replicate_2; [done|].
    apply Nat.Div0.div_lt_upper_bound. unfold BSIZE. lia.
  - rewrite bit_set_bit; [|rewrite set_bits_length; apply Nat.Div0.div_lt_upper_bound; unfold BSIZE; lia].
    rewrite IH by lia. apply eq_true_iff_eq. rewrite orb_true_iff, !bool_decide_eq_true. lia.
Qed.

Lemma mv_used s V b : mview s V -> 0 <= b < FSSIZE -> used super V b = bool_decide (b < freeblock s).
Proof.
  intros HV Hb. pose proof (mv_free _ _ HV) as Hf. unfold used. rewrite (mv_bits _ _ HV), set_bits_spec by (unfold FSSIZE in *; lia).
  apply bool_decide_ext. unfold nmeta, nlog in Hf. lia.
Qed.

Lemma seek_id n : 0 <= n < FSSIZE -> seek n = n.
Proof.
  intros Hn. unfold seek, FSSIZE in *. rewrite u32_small by (unfold is_u32, BSIZEz; lia). apply Z.div_mul. done.
Qed.

Lemma rsect_run s V n : mview s V -> 0 <= n < FSSIZE -> n <> sb_bmapstart super -> rsect n s = Ret s (V n).
Proof.
  intros HV Hn Hb. unfold rsect. mrun (eq_refl (get s)). rewrite seek_id, (mv_len _ _ HV) by done.
  rewrite (proj2 (Z.ltb_lt _ _)) by lia. by rewrite (mv_img _ _ HV).
Qed.

(** The state with one block written. *)
Definition put (n : Z) (d : block) (s : mkfs) : mkfs := set_img (<[n := d]> (img s)) (len s) s.

Lemma wsect_run s V n d : mview s V -> 0 <= n < freeblock s -> n <> sb_bmapstart super -> length d = BSIZE ->
  wsect n d s = Ret (put n d s) tt /\ mview (put n d s) (vset V n d).
Proof.
  intros HV Hn Hb Hd. pose proof (mv_free _ _ HV) as Hf. pose proof (mv_len _ _ HV) as Hl. split.
  - unfold wsect, put, modify. rewrite seek_id by lia. do 3 f_equal. lia.
  - destruct HV as [H1 H2 H3 H4 H5 H6 H7]. split; cbn; try done.
    + intros m Hm. unfold vset. case_decide as E; [subst; unfold disk_read; by rewrite lookup_insert_eq|].
      unfold disk_read. rewrite lookup_insert_ne by done. by apply H1.
    + by rewrite vset_ne.
    + intros m. unfold vset. by case_decide.
    + intros m Hm. rewrite vset_ne by lia. by apply H7.
Qed.

Definition more (s : mkfs) : mkfs := set_freeblock (freeblock s + 1) s.

Lemma next_block_run s V : mview s V -> freeblock s < FSSIZE ->
  next_block s = Ret (more s) (freeblock s) /\ mview (more s) (alloc_view (sb := super) V (freeblock s)) /\
  is_data super (freeblock s) /\ used super V (freeblock s) = false.
Proof.
  intros HV Hlt. pose proof (mv_free _ _ HV) as Hf. pose proof HV as [H1 H2 H3 H4 H5 H6 H7].
  assert (sb_bmapstart super = 58) as E58 by done. assert (nmeta = 59) as E59 by done.
  assert (Z.to_nat (freeblock s + 1) = S (Z.to_nat (freeblock s))) as EF by lia.
  assert (is_data super (freeblock s)) as Hd.
  { unfold is_data. split; [lia|]. change (sb_size super) with FSSIZE. lia. }
  split_and!; [|split; cbn [more set_freeblock img len msb freeblock]; try done|done|].
  - unfold next_block. rewrite gets_bind, modify_bind, u32_small by (unfold is_u32, FSSIZE in *; lia). done.
  - intros n Hn. rewrite <- H1 by done. unfold alloc_view, mark, vset. repeat case_decide; try done. subst. by rewrite H7.
  - rewrite EF. cbn [set_bits]. unfold alloc_view, mark. rewrite vset_ne by lia. by rewrite vset_eq, H2.
  - intros n. unfold alloc_view, mark, vset. repeat case_decide; [done|unfold set_bit; by rewrite length_insert|done].
  - lia.
  - intros n Hn. unfold alloc_view, mark. rewrite !vset_ne by lia. apply H7. lia.
  - rewrite (mv_used s V) by (done || lia). apply bool_decide_eq_false_2. lia.
Qed.

(** ** Files while they grow

    A file of [off] bytes has exactly the blocks it needs, and its last block
    is zero after the end. *)
Definition tight (V : Z -> block) (ip : inode) (off : nat) : Prop :=
  (forall k, (k < NBLK)%nat -> fblk V ip k <> 0 <-> (k * BSIZE < off)%nat) /\
  (addrs ip !!! NDIRECT <> 0 <-> (NDIRECT * BSIZE < off)%nat).
Definition zero_tail (V : Z -> block) (ip : inode) (off : nat) : Prop :=
  forall o, (off <= o)%nat -> (o / BSIZE < NBLK)%nat -> fblk V ip (o / BSIZE) <> 0 -> fbyte V ip o = 0.
(** The number of blocks of a file of [off] bytes, the indirect block included. *)
Definition nblk (off : nat) : Z := Z.of_nat ((off + 511) / BSIZE) + (if decide (NDIRECT * BSIZE < off)%nat then 1 else 0).

Lemma nblk_step off : nblk (S off) =
  nblk off + (if decide (off mod BSIZE = 0)%nat then 1 else 0) + (if decide (off = NDIRECT * BSIZE)%nat then 1 else 0).
Proof.
  unfold nblk, BSIZE, NDIRECT. pose proof (Nat.div_mod_eq off 512) as E.
  assert ((S off + 511) / 512 = S (off / 512))%nat as -> by (replace (S off + 511)%nat with (off + 1 * 512)%nat by lia; rewrite Nat.div_add; lia).
  destruct (decide (off mod 512 = 0)%nat) as [H0|H0].
  - replace (off + 511)%nat with (511 + (off / 512) * 512)%nat by lia. rewrite Nat.div_add by lia. change (511 / 512)%nat with 0%nat.
    repeat case_decide; lia.
  - pose proof (Nat.mod_upper_bound off 512). replace (off + 511)%nat with (off mod 512 + 511 + (off / 512) * 512)%nat by lia.
    rewrite Nat.div_add by lia. assert ((off mod 512 + 511) / 512 = 1)%nat as ->.
    { symmetry. apply (Nat.div_unique _ _ _ (off mod 512 - 1)); lia. }
    repeat case_decide; subst; try lia.
Qed.

Lemma xint_id n : is_u32 n -> xint n = n.
Proof. intros Hn. unfold xint. rewrite le_val_bytes. by apply Z.mod_small. Qed.

Lemma data_small n : is_data super n -> 0 < n < FSSIZE.
Proof. unfold is_data. change (sb_size super) with FSSIZE. change (sb_bmapstart super) with 58. lia. Qed.
Lemma fblk_small V ip k : file_ok super V ip -> (k < NBLK)%nat -> 0 <= fblk V ip k < FSSIZE.
Proof.
  intros HF Hk. destruct (decide (fblk V ip k = 0)) as [->|Hnz]; [by unfold FSSIZE|].
  destruct (mo_data _ _ _ _ (fo_map _ _ _ HF) k Hk Hnz) as [Hd%data_small _]. lia.
Qed.
Lemma small_u32 n : 0 <= n < FSSIZE -> is_u32 n.
Proof. unfold is_u32, FSSIZE. lia. Qed.
Lemma addr_small V ip k : file_ok super V ip -> (k <= NDIRECT)%nat -> 0 <= addrs ip !!! k < FSSIZE.
Proof.
  intros HF Hk. destruct (decide (k < NDIRECT)%nat) as [Hd|Hd].
  - assert (fblk V ip k = addrs ip !!! k) as <- by (unfold fblk; by rewrite decide_True). apply fblk_small; [done|]. unfold NBLK, NDIRECT in *. lia.
  - replace k with NDIRECT by lia. destruct (decide (addrs ip !!! NDIRECT = 0)) as [->|Hnz]; [by unfold FSSIZE|].
    destruct (mo_ind _ _ _ _ (fo_map _ _ _ HF) Hnz) as [Hd'%data_small _]. lia.
Qed.

Lemma tight_step f V ip off V' ip' a : tight V ip off -> (off / BSIZE < NBLK)%nat ->
  bmapped (sb := super) f V ip (off / BSIZE) V' ip' a ->
  (addrs ip' !!! NDIRECT <> 0 <-> addrs ip !!! NDIRECT <> 0 \/ (NDIRECT <= off / BSIZE)%nat) -> tight V' ip' (S off).
Proof.
  intros [T1 T2] Hk HB Hi. pose proof (Nat.div_mod_eq off BSIZE) as E. pose proof (Nat.mod_upper_bound off BSIZE ltac:(done)).
  unfold tight, BSIZE, NDIRECT in *. split.
  - intros j Hj. destruct (decide (j = off / 512)%nat) as [->|Hne].
    + rewrite (bm_blk _ _ _ _ _ _ _ HB). split; [lia|]. intros _. apply (bm_nz _ _ _ _ _ _ _ HB).
    + rewrite (bm_only _ _ _ _ _ _ _ HB), T1 by done. lia.
  - rewrite Hi, T2. lia.
Qed.

(** The block of an entry of the indirect block. *)
Lemma ind_entry V ip k : file_ok super V ip -> (NDIRECT <= k < NBLK)%nat -> addrs ip !!! NDIRECT <> 0 ->
  rd32 (V (addrs ip !!! NDIRECT)) (4 * (k - NDIRECT)) = fblk V ip k.
Proof. intros HF Hk Hnz. unfold fblk. by rewrite decide_False, decide_False by (done || lia). Qed.

Lemma entry_for_law s V ip k : mview s V -> file_ok super V ip -> (NDIRECT <= k < NBLK)%nat -> addrs ip !!! NDIRECT <> 0 ->
  (fblk V ip k = 0 -> freeblock s < FSSIZE) -> exists s' V' a,
  entry_for (addrs ip !!! NDIRECT) (k - NDIRECT) s = Ret s' a /\ mview s' V' /\ bmapped (sb := super) 1 V ip k V' ip a /\
  freeblock s' = freeblock s + (if decide (fblk V ip k = 0) then 1 else 0) /\ freeinode s' = freeinode s /\
  (fblk V ip k = 0 -> V' a = zero_block).
Proof.
  intros HV HF Hk Hi Hroom. pose proof (ind_entry V ip k HF Hk Hi) as He. destruct (mo_ind _ _ _ _ (fo_map _ _ _ HF) Hi) as [Hd Hu].
  pose proof (data_small _ Hd) as Hs. pose proof (data_ne_bmap _ Hd) as Hb. set (ind := addrs ip !!! NDIRECT) in *.
  unfold entry_for. mrun (rsect_run s V ind HV ltac:(lia) Hb). rewrite He.
  destruct (Z.eqb_spec (fblk V ip k) 0) as [H0|Hnz].
  - specialize (Hroom H0). destruct (next_block_run s V HV Hroom) as (R1 & HV1 & Hd1 & Hu1).
    rewrite (mv_used s V ind HV) in Hu by lia. apply bool_decide_eq_true in Hu.
    set (w := wr32 (V ind) (4 * (k - NDIRECT)) (xint (freeblock s))). pose proof (mv_size _ _ HV ind) as Hl.
    destruct (wsect_run (more s) _ ind w HV1) as [R2 HV2]; [cbn [more set_freeblock freeblock]; lia|done|unfold w, wr32; by rewrite wr_length|].
    erewrite bind_ret by (mrun R1; fold w; mrun R2; reflexivity). pose proof (data_small _ Hd1) as Hs1.
    assert (rd32 w (4 * (k - NDIRECT)) = freeblock s) as Er.
    { unfold w. rewrite xint_id by (apply small_u32; lia). apply rd32_wr32_same; [|apply small_u32; lia].
      rewrite Hl. unfold NBLK, NDIRECT, BSIZE in *. lia. }
    rewrite Er, xint_id by (apply small_u32; lia). rewrite decide_True by done. eexists _, _, (freeblock s). split_and!; [reflexivity|exact HV2| |done|done|].
    + unfold w. rewrite xint_id by (apply small_u32; lia). apply (attach_entry c0_geom); try done. apply (mv_size _ _ HV).
    + intros _. rewrite vset_ne by lia. apply alloc_zero.
  - rewrite ret_bind, He, xint_id by (apply small_u32, fblk_small; [done|lia]). rewrite decide_False by done.
    exists s, V, (fblk V ip k). split_and!; try done; [|lia]. split; auto; [apply extends_refl|by destruct ip|lia].
Qed.

(** The file with room for one byte more. *)
Definition grown (s : mkfs) V ip off (s' : mkfs) V' ip' a : Prop :=
  block_for (off / BSIZE) ip s = Ret s' (ip', a) /\ mview s' V' /\ bmapped (sb := super) 2 V ip (off / BSIZE) V' ip' a /\
  tight V' ip' (S off) /\ freeblock s' = freeblock s + nblk (S off) - nblk off /\ freeinode s' = freeinode s /\
  (fblk V ip (off / BSIZE) = 0 -> V' a = zero_block).

Lemma block_for_direct s V ip off : mview s V -> file_ok super V ip -> tight V ip off -> (off / BSIZE < NBLK)%nat ->
  freeblock s + nblk (S off) - nblk off <= FSSIZE -> (off / BSIZE < NDIRECT)%nat -> exists s' V' ip' a, grown s V ip off s' V' ip' a.
Proof.
  intros HV HF HT Hk Hroom Hd. pose proof HT as [T1 T2]. specialize (T1 _ Hk). unfold grown. rewrite nblk_step in *.
  pose proof (Nat.div_mod_eq off BSIZE) as E. pose proof (Nat.mod_upper_bound off BSIZE ltac:(done)) as Em.
  set (k := (off / BSIZE)%nat) in *. unfold block_for.
  assert (fblk V ip k = 0 <-> (off mod BSIZE = 0)%nat) as H0 by (unfold BSIZE in *; destruct (decide (fblk V ip k = 0)); lia).
  rewrite decide_True by done.
  assert (fblk V ip k = addrs ip !!! k) as Ef by (unfold fblk; by rewrite decide_True).
  rewrite xint_id by (apply small_u32, (addr_small V); [done|lia]). rewrite <- Ef.
  assert (off <> NDIRECT * BSIZE)%nat as Hne by (intros ->; unfold BSIZE, NDIRECT in *; lia). rewrite (decide_False (P := off = _)) in * by done.
  destruct (Z.eqb_spec (fblk V ip k) 0) as [Hz|Hnz].
  - rewrite (decide_True (P := (off mod BSIZE = 0)%nat)) in * by tauto.
    destruct (next_block_run s V HV) as (R1 & HV1 & Hd1 & Hu1); [lia|]. pose proof (data_small _ Hd1) as Hs1.
    erewrite bind_ret by (mrun R1; reflexivity). rewrite !xint_id by (apply small_u32; lia).
    cbn [addrs set_addrs set_meta]. rewrite list_lookup_total_insert_eq by (rewrite (fo_len _ _ _ HF); lia).
    rewrite xint_id by (apply small_u32; lia).
    pose proof (attach_direct c0_geom V ip (freeblock s) k HF (mv_size _ _ HV) Hd ltac:(by rewrite <- Ef) Hd1 Hu1) as HB.
    eexists _, _, _, _. split_and!; [reflexivity|exact HV1|apply bmapped_weaken, HB| |cbn; lia|done|intros _; apply alloc_zero].
    eapply tight_step; [exact HT|done|exact HB|]. cbn [addrs set_addrs set_meta]. rewrite list_lookup_total_insert_ne by lia.
    fold k. intuition lia.
  - rewrite (decide_False (P := (off mod BSIZE = 0)%nat)) in * by tauto. rewrite ret_bind, <- Ef, xint_id by (apply small_u32, fblk_small; done).
    eexists _, V, ip, _. pose proof (bmapped_refl V ip k HF Hk Hnz) as HB.
    split_and!; [reflexivity|done|exact HB| |lia|done|done]. eapply tight_step; [exact HT|done|exact HB|]. fold k. intuition lia.
Qed.

Lemma block_for_indirect s V ip off : mview s V -> file_ok super V ip -> tight V ip off -> (off / BSIZE < NBLK)%nat ->
  freeblock s + nblk (S off) - nblk off <= FSSIZE -> ~ (off / BSIZE < NDIRECT)%nat -> exists s' V' ip' a, grown s V ip off s' V' ip' a.
Proof.
  intros HV HF HT Hk Hroom Hd. pose proof HT as [T1 T2]. specialize (T1 _ Hk). unfold grown. rewrite nblk_step in *.
  pose proof (Nat.div_mod_eq off BSIZE) as E. pose proof (Nat.mod_upper_bound off BSIZE ltac:(done)) as Em.
  set (k := (off / BSIZE)%nat) in *. unfold block_for.
  assert (fblk V ip k = 0 <-> (off mod BSIZE = 0)%nat) as H0 by (unfold BSIZE in *; destruct (decide (fblk V ip k = 0)); lia).
  rewrite decide_False by done.
  rewrite xint_id by (apply small_u32, (addr_small V); [done|lia]).
  destruct (Z.eqb_spec (addrs ip !!! NDIRECT) 0) as [Hi|Hi].
  - assert (off = NDIRECT * BSIZE)%nat as Eo by (unfold BSIZE, NDIRECT in *; lia).
    assert (off mod BSIZE = 0)%nat as Eo' by (by rewrite Eo).
    rewrite (decide_True (P := off = _)), (decide_True (P := (off mod BSIZE = 0)%nat)) in * by done.
    destruct (next_block_run s V HV) as (R1 & HV1 & Hd1 & Hu1); [lia|]. pose proof (data_small _ Hd1) as Hs1.
    erewrite bind_ret by (mrun R1; reflexivity). rewrite (xint_id (freeblock s)) by (apply small_u32; lia).
    set (ip1 := set_addrs (<[NDIRECT := freeblock s]> (addrs ip)) ip).
    destruct (attach_ind c0_geom V ip (freeblock s) HF (mv_size _ _ HV) Hi Hd1 Hu1) as (HF1 & Hb1 & _). fold ip1 in HF1, Hb1.
    assert (addrs ip1 !!! NDIRECT = freeblock s) as Ei by (apply list_lookup_total_insert_eq; rewrite (fo_len _ _ _ HF); lia).
    destruct (entry_for_law (more s) _ ip1 k HV1 HF1) as (s' & V' & a & R & HV' & HB & Hf & Hn & Hz); [lia|lia|cbn [more set_freeblock freeblock]; lia|].
    rewrite xint_id by (apply small_u32; rewrite Ei; lia). mrun R. rewrite Hb1 in Hf, Hz by done.
    rewrite decide_True in Hf by tauto. cbn [more set_freeblock freeblock] in Hf.
    pose proof (bmapped_after_ind c0_geom V ip (freeblock s) k V' ip1 a HF (mv_size _ _ HV) Hi Hd1 Hu1 ltac:(lia) HB) as HB'.
    exists s', V', ip1, a. split_and!; try done; [|lia]. eapply tight_step; [exact HT|done|exact HB'|]. rewrite Ei. fold k. intuition lia.
  - assert (off <> NDIRECT * BSIZE)%nat as Eo by (unfold BSIZE, NDIRECT in *; lia).
    rewrite (decide_False (P := off = _)) in * by done. rewrite ret_bind, xint_id by (apply small_u32, (addr_small V); [done|lia]).
    destruct (entry_for_law s V ip k HV HF) as (s' & V' & a & R & HV' & HB & Hf & Hn & Hz); [lia|done| |].
    { intros Hz%H0. rewrite decide_True in Hroom by done. lia. }
    mrun R. exists s', V', ip, a. split_and!; try done; [by apply bmapped_weaken| |].
    + eapply tight_step; [exact HT|done|exact HB|]. fold k. intuition lia.
    + rewrite Hf. repeat case_decide; try tauto; lia.
Qed.

Lemma block_for_law s V ip off : mview s V -> file_ok super V ip -> tight V ip off -> (off / BSIZE < NBLK)%nat ->
  freeblock s + nblk (S off) - nblk off <= FSSIZE -> exists s' V' ip' a, grown s V ip off s' V' ip' a.
Proof.
  intros HV HF HT Hk Hroom. destruct (decide (off / BSIZE < NDIRECT)%nat); [by apply block_for_direct|by apply block_for_indirect].
Qed.

Lemma same_block off m j : (1 <= m)%nat -> (off mod BSIZE + m <= BSIZE)%nat -> (j * BSIZE < S off <-> j * BSIZE < off + m)%nat.
Proof. intros Hm Hb. unfold BSIZE in *. pose proof (Nat.div_mod_eq off 512). lia. Qed.

Lemma nblk_same off m : (1 <= m)%nat -> (off mod BSIZE + m <= BSIZE)%nat -> nblk (off + m) = nblk (S off).
Proof.
  intros Hm Hb. unfold nblk. f_equal.
  - f_equal. unfold BSIZE in *. pose proof (Nat.div_mod_eq off 512) as E.
    rewrite <- (Nat.div_unique (off + m + 511) 512 (S (off / 512)) (off mod 512 + m - 1)) by lia.
    apply (Nat.div_unique _ _ _ (off mod 512)); lia.
  - pose proof (same_block off m NDIRECT Hm Hb). repeat case_decide; tauto.
Qed.

Lemma tight_same V ip off m : (1 <= m)%nat -> (off mod BSIZE + m <= BSIZE)%nat -> tight V ip (S off) -> tight V ip (off + m).
Proof. intros Hm Hb [T1 T2]. split; [intros k Hk; rewrite T1 by done|rewrite T2]; by apply same_block. Qed.

Lemma nblk_mono a b : (a <= b)%nat -> nblk a <= nblk b.
Proof. induction 1 as [|b _ IH]; [lia|]. rewrite nblk_step. repeat case_decide; lia. Qed.

(** One round of the loop. *)
Lemma chunk_law s V ip off s1 V1 ip1 a ch : grown s V ip off s1 V1 ip1 a -> file_ok super V ip -> zero_tail V ip off ->
  (off / BSIZE < NBLK)%nat -> (1 <= length ch)%nat -> (off mod BSIZE + length ch <= BSIZE)%nat ->
  let d := memmove_in (V1 a) (off mod BSIZE) ch in
  rsect a s1 = Ret s1 (V1 a) /\ wsect a d s1 = Ret (put a d s1) tt /\ mview (put a d s1) (vset V1 a d) /\
  wrote (sb := super) V ip off ch (vset V1 a d) ip1 /\ tight (vset V1 a d) ip1 (off + length ch) /\
  zero_tail (vset V1 a d) ip1 (off + length ch) /\ freeblock s1 = freeblock s + nblk (off + length ch) - nblk off.
Proof.
  intros (R & HV1 & HB & HT1 & Hf & _ & Hz) HF Hzt Hk Hl Hb d. set (k := (off / BSIZE)%nat) in *.
  pose proof (bm_ok _ _ _ _ _ _ _ HB) as HF1. pose proof (bm_blk _ _ _ _ _ _ _ HB) as Ha. pose proof (bm_nz _ _ _ _ _ _ _ HB) as Hnz.
  destruct (mo_data _ _ _ _ (fo_map _ _ _ HF1) k Hk) as [Hd Hu]; [by rewrite Ha|]. rewrite Ha in Hd, Hu.
  pose proof (data_small _ Hd) as Hs. pose proof (data_ne_bmap _ Hd) as Hbm.
  rewrite (mv_used s1 V1 a HV1) in Hu by lia. apply bool_decide_eq_true in Hu.
  destruct (wsect_run s1 V1 a d HV1) as [R2 HV2]; [lia|done|unfold d; rewrite memmove_in_length; apply HV1|].
  destruct (data_write V1 ip1 k a d HF1 Hk Ha Hnz) as (HF2 & Hblk & _ & _).
  assert (tight (vset V1 a d) ip1 (off + length ch)) as HT2.
  { apply (tight_same _ _ _ (length ch)) in HT1 as [T1 T2]; [|done..]. split; [|done]. intros j Hj. by rewrite Hblk, T1. }
  split_and!; [apply rsect_run; [done|lia|done]|done|done| |done| |rewrite nblk_same by done; lia].
  - eapply (wrote_chunk c0_geom); [apply HV1|done|done|by destruct ch; cbn in *; [lia|]|exact HB].
  - intros o Ho Hok Hon. apply HT2 in Hon; [|done]. unfold fbyte. rewrite Hblk.
    pose proof (Nat.div_mod_eq off BSIZE) as E. pose proof (Nat.div_mod_eq o BSIZE) as E'. fold k in E.
    pose proof (Nat.mod_upper_bound o BSIZE ltac:(done)).
    assert (o / BSIZE = k)%nat as Eo by (unfold BSIZE in *; lia). rewrite Eo, Ha, vset_eq. rewrite Eo in E'.
    assert (d !!! (o mod BSIZE)%nat = V1 a !!! (o mod BSIZE)%nat) as ->.
    { unfold d, memmove_in. rewrite !list_lookup_total_alt. f_equal. apply list_lookup_inserts_ge. lia. }
    destruct (decide (fblk V ip k = 0)) as [H0|H0].
    + rewrite (Hz H0). unfold zero_block. by rewrite lookup_total_replicate_2.
    + destruct (bm_old _ _ _ _ _ _ _ HB k Hk H0) as [E1 E2]. rewrite <- Ha, E1, E2, <- Eo. apply (Hzt o); [lia|done|by rewrite Eo].
Qed.

(** The loop: the bytes are at the end of the file, which has the blocks it needs. *)
Lemma iappend_loop_law fuel s V ip off src : mview s V -> file_ok super V ip -> tight V ip off -> zero_tail V ip off ->
  (off + length src <= NBLK * BSIZE)%nat -> freeblock s + nblk (off + length src) - nblk off <= FSSIZE ->
  (length src < fuel)%nat -> exists s' V' ip',
  iappend_loop fuel src (Z.of_nat off) (Z.of_nat (length src)) ip s = Ret s' (Z.of_nat (off + length src), ip') /\
  mview s' V' /\ wrote (sb := super) V ip off src V' ip' /\ tight V' ip' (off + length src) /\
  zero_tail V' ip' (off + length src) /\ freeblock s' = freeblock s + nblk (off + length src) - nblk off /\ freeinode s' = freeinode s.
Proof.
  revert s V ip off src. induction fuel as [|fuel IH]; intros s V ip off src HV HF HT Hzt Hend Hroom Hfuel; [lia|]. cbn [iappend_loop].
  destruct (decide (src = [])) as [->|Hne].
  { cbn [length]. rewrite Nat.add_0_r. exists s, V, ip. split_and!; try done; [by apply wrote_nil|lia]. }
  assert (1 <= length src)%nat as Hl by (destruct src; [done|cbn; lia]). rewrite (proj2 (Z.ltb_lt _ _)) by lia.
  pose proof (Nat.div_mod_eq off BSIZE) as E. pose proof (Nat.mod_upper_bound off BSIZE ltac:(done)) as Em.
  assert (Z.of_nat off / BSIZEz = Z.of_nat (off / BSIZE)) as -> by (by rewrite Nat2Z.inj_div).
  assert (off / BSIZE < NBLK)%nat as Hk by (apply Nat.Div0.div_lt_upper_bound; unfold NBLK, BSIZE in *; lia).
  unfold assert. rewrite (proj2 (Z.ltb_lt _ MAXFILE)) by (unfold MAXFILE, NBLK in *; lia). rewrite ret_bind, Nat2Z.id.
  set (m := Nat.min (length src) (BSIZE - off mod BSIZE)). set (ch := take m src).
  assert (length ch = m) as Hch by (unfold ch; rewrite length_take; lia).
  destruct (block_for_law s V ip off) as (s1 & V1 & ip1 & a & HG1); try done.
  { pose proof (nblk_mono (S off) (off + length src) ltac:(lia)). lia. }
  destruct (chunk_law s V ip off s1 V1 ip1 a ch HG1) as (R2 & R3 & HV2 & HW & HT2 & Hzt2 & Hf2); try done; [lia..|].
  destruct HG1 as (R1 & HV1 & HB & _ & _ & Hn1 & _). mrun R1. cbn beta iota.
  assert (Z.min (Z.of_nat (length src)) ((Z.of_nat (off / BSIZE) + 1) * BSIZEz - Z.of_nat off) = Z.of_nat m) as ->
    by (unfold m, BSIZE, BSIZEz in *; lia).
  assert (Z.to_nat (Z.of_nat off - Z.of_nat (off / BSIZE) * BSIZEz) = off mod BSIZE)%nat as -> by (unfold BSIZE, BSIZEz in *; lia).
  rewrite Nat2Z.id. fold ch. mrun R2. mrun R3. set (s2 := put _ _ _) in *. set (V2 := vset _ _ _) in *. rewrite Hch in *.
  assert (length (drop m src) = length src - m)%nat as Hdl by apply length_drop.
  assert (u32 (Z.of_nat off + Z.of_nat m) = Z.of_nat (off + m)) as ->.
  { rewrite u32_small; [lia|]. unfold is_u32, NBLK, BSIZE in *. lia. }
  replace (Z.of_nat (length src) - Z.of_nat m) with (Z.of_nat (length (drop m src))) by lia.
  destruct (IH s2 V2 ip1 (off + m)%nat (drop m src)) as (s' & V' & ip' & R & HV' & HW' & HT' & Hzt' & Hf' & Hn');
    [done|apply HW|done|done|lia|rewrite Hdl; replace (off + m + (length src - m))%nat with (off + length src)%nat by lia; cbn; lia|lia|].
  rewrite R, Hdl. replace (off + m + (length src - m))%nat with (off + length src)%nat in * by lia.
  rewrite Hdl in *. replace (off + m + (length src - m))%nat with (off + length src)%nat in * by lia.
  exists s', V', ip'. split_and!; try done; [|rewrite Hf'; cbn; lia|by rewrite Hn'].
  rewrite <- (take_drop m src). fold ch. eapply (wrote_app c0_geom); [|exact HW|by rewrite Hch]. rewrite Hch, Hdl. lia.
Qed.

(** ** Inodes *)

Lemma dinode_other V ip n x : length (addrs ip) = S NDIRECT -> 0 <= n < NINODES -> 0 <= inum ip < NINODES -> n <> inum ip ->
  dec_dinode (inode_view (sb := super) V ip (IBLOCK n super)) (dinode_off n) x = dec_dinode (V (IBLOCK n super)) (dinode_off n) x.
Proof. intros Hl Hn Hi Hne. by apply (dinode_view_other c0_geom). Qed.

Lemma dinode_same V ip x : (forall n, length (V n) = BSIZE) -> inode_typed ip -> 0 <= inum ip ->
  dec_dinode (inode_view (sb := super) V ip (IBLOCK (inum ip) super)) (dinode_off (inum ip)) x =
    set_meta (itype ip) (imajor ip) (iminor ip) (inlink ip) (isize ip) (addrs ip) x.
Proof. intros HV Ht Hi. unfold inode_view. rewrite vset_eq. apply dec_enc_dinode; [done|]. by apply dinode_fits. Qed.

Lemma iblock_range n : 0 <= n < NINODES -> 32 <= IBLOCK n super < 58.
Proof. intros Hn. destruct (inode_home c0_geom n Hn) as (_ & _ & H). exact H. Qed.

Lemma winode_run s V ip : mview s V -> 0 <= inum ip < NINODES -> exists s',
  winode (inum ip) ip s = Ret s' tt /\ mview s' (inode_view (sb := super) V ip) /\
  freeblock s' = freeblock s /\ freeinode s' = freeinode s.
Proof.
  intros HV Hn. pose proof (iblock_range _ Hn) as Hb. pose proof (mv_free _ _ HV) as Hf. assert (nmeta = 59) as E59 by done.
  unfold winode. mrun (eq_refl (get s)). rewrite (mv_sb _ _ HV).
  mrun (rsect_run s V (IBLOCK (inum ip) super) HV ltac:(unfold FSSIZE; lia) ltac:(change (sb_bmapstart super) with 58; lia)).
  edestruct (wsect_run s V (IBLOCK (inum ip) super)) as [R HV'];
    [done|lia|change (sb_bmapstart super) with 58; lia|rewrite enc_dinode_length; apply HV|]. rewrite R. eexists. split; [reflexivity|]. done.
Qed.

Lemma rinode_run s V n : mview s V -> 0 <= n < NINODES ->
  rinode n s = Ret s (dec_dinode (V (IBLOCK n super)) (dinode_off n) (din0 n)).
Proof.
  intros HV Hn. pose proof (iblock_range _ Hn) as Hb. unfold rinode. mrun (eq_refl (get s)). rewrite (mv_sb _ _ HV).
  by mrun (rsect_run s V (IBLOCK n super) HV ltac:(unfold FSSIZE; lia) ltac:(change (sb_bmapstart super) with 58; lia)).
Qed.

(** Inode [k + 1] of the image. *)
Record ino_ok (V : Z -> block) (k : nat) (ip : inode) : Prop := {
  io_num : inum ip = Z.of_nat k + 1;
  io_file : file_ok super V ip;
  io_typed : inode_typed ip;
  io_tight : tight V ip (Z.to_nat (isize ip));
  io_tail : zero_tail V ip (Z.to_nat (isize ip));
  io_disk : dec_dinode (V (IBLOCK (inum ip) super)) (dinode_off (inum ip)) (din0 (inum ip)) = ip
}.

Lemma data_not_meta n : is_data super n -> 0 <= n /\ n <> sb_bmapstart super.
Proof. unfold is_data. change (sb_bmapstart super) with 58. lia. Qed.

(** An inode whose blocks and dinode did not change. *)
Lemma ino_frame V V' k ip : ino_ok V k ip -> (forall n, owns V ip n -> V' n = V n) ->
  (forall b, is_data super b -> used super V b = true -> used super V' b = true) ->
  dec_dinode (V' (IBLOCK (inum ip) super)) (dinode_off (inum ip)) (din0 (inum ip)) =
    dec_dinode (V (IBLOCK (inum ip) super)) (dinode_off (inum ip)) (din0 (inum ip)) ->
  ino_ok V' k ip /\ content V' ip = content V ip /\ forall n, owns V' ip n <-> owns V ip n.
Proof.
  intros [H1 H2 H3 [T1 T2] H5 H6] Ho Hu Hd. destruct (file_frame super V V' ip H2 Ho Hu) as (HF & Hb & Hy).
  split_and!; [|by eapply content_same|intros n; by apply owns_same]. split; try done.
  - split; [|done]. intros j Hj. by rewrite Hb, T1.
  - intros o Hle Hj Hnz. rewrite Hb in Hnz. rewrite Hy by done. by apply H5.
  - by rewrite Hd.
Qed.

(** ** The image while it is built *)

Definition total (ips : list inode) : Z := foldr (fun ip t => nblk (Z.to_nat (isize ip)) + t) 0 ips.

Lemma total_insert ips k ip ip' : ips !! k = Some ip ->
  total (<[k := ip']> ips) = total ips - nblk (Z.to_nat (isize ip)) + nblk (Z.to_nat (isize ip')).
Proof.
  revert k. induction ips as [|x ips IH]; intros [|k] Hk; [done|done| |]; cbn in Hk |- *.
  - injection Hk as ->. lia.
  - change (nblk (Z.to_nat (isize x)) + total (<[k := ip']> ips) =
      nblk (Z.to_nat (isize x)) + total ips - nblk (Z.to_nat (isize ip)) + nblk (Z.to_nat (isize ip'))). rewrite (IH k Hk). lia.
Qed.
Lemma total_snoc ips ip : total (ips ++ [ip]) = total ips + nblk (Z.to_nat (isize ip)).
Proof. induction ips as [|x ips IH]; cbn; [lia|]. change (nblk (Z.to_nat (isize x)) + total (ips ++ [ip]) = nblk (Z.to_nat (isize x)) + total ips + nblk (Z.to_nat (isize ip))). lia. Qed.

Record built (s : mkfs) (V : Z -> block) (ips : list inode) : Prop := {
  b_view : mview s V;
  b_next : freeinode s = Z.of_nat (length ips) + 1;
  b_few : Z.of_nat (length ips) < NINODES;
  b_ips : forall k ip, ips !! k = Some ip -> ino_ok V k ip;
  b_disj : forall j k ip jp n, ips !! j = Some ip -> ips !! k = Some jp -> owns V ip n -> owns V jp n -> j = k;
  b_count : freeblock s = nmeta + total ips;
  b_sys : forall n, 0 <= n < sb_inodestart super -> V n = if decide (n = 1) then super_block else zero_block
}.

(** Boot block, superblock, log and dinodes are no data blocks. *)
Lemma extends_meta V ip V' ip' n : file_ok super V ip -> extends super V ip V' ip' -> 0 <= n < 58 -> V' n = V n.
Proof.
  intros HF He Hn. apply (ex_frame _ _ _ _ _ He).
  - change (sb_bmapstart super) with 58. lia.
  - intros [Hd _]%(owns_data _ _ _ HF). unfold is_data in Hd. change (sb_bmapstart super) with 58 in Hd. lia.
  - intros Hd. unfold is_data in Hd. change (sb_bmapstart super) with 58 in Hd. lia.
Qed.

(** The view changes at dinodes only. *)
Lemma inode_view_other V ip n : 0 <= inum ip < NINODES -> (n < 32 \/ 58 <= n) -> inode_view (sb := super) V ip n = V n.
Proof. intros Hi Hn. pose proof (iblock_range _ Hi). unfold inode_view. rewrite vset_ne; [done|]. lia. Qed.
Lemma inode_view_data V ip n : 0 <= inum ip < NINODES -> is_data super n -> inode_view (sb := super) V ip n = V n.
Proof. intros Hi Hn. apply inode_view_other; [done|]. unfold is_data in Hn. change (sb_bmapstart super) with 58 in Hn. lia. Qed.
Lemma inode_view_used V ip b : 0 <= inum ip < NINODES -> used super (inode_view (sb := super) V ip) b = used super V b.
Proof. intros Hi. unfold used. rewrite inode_view_other; [done|done|]. change (sb_bmapstart super) with 58. lia. Qed.

Lemma ino_inum s V ips k ip : built s V ips -> ips !! k = Some ip -> 0 <= inum ip < NINODES.
Proof.
  intros B Hk. rewrite (io_num _ _ _ (b_ips _ _ _ B _ _ Hk)). pose proof (lookup_lt_Some _ _ _ Hk). pose proof (b_few _ _ _ B). lia.
Qed.

(** An inode of another number, after one file was extended and its dinode written. *)
Lemma ino_other s V ips k ip V1 ip1 j jp : built s V ips -> ips !! k = Some ip -> extends super V ip V1 ip1 ->
  inum ip1 = inum ip -> length (addrs ip1) = S NDIRECT -> ips !! j = Some jp -> j <> k ->
  let V2 := inode_view (sb := super) V1 ip1 in
  ino_ok V2 j jp /\ content V2 jp = content V jp /\ forall n, owns V2 jp n <-> owns V jp n.
Proof.
  intros B Hk He Hn Hl Hj Hne V2. pose proof (b_ips _ _ _ B _ _ Hj) as Hjp. pose proof (b_ips _ _ _ B _ _ Hk) as Hip.
  pose proof (ino_inum _ _ _ _ _ B Hk) as Hkn. pose proof (ino_inum _ _ _ _ _ B Hj) as Hjn. rewrite <- Hn in Hkn.
  destruct (extends_other super V ip V1 ip1 jp (io_file _ _ _ Hjp) He) as [Ho Hu]; [|apply data_not_meta|].
  { intros n H1 H2. apply Hne. symmetry. by eapply (b_disj _ _ _ B). }
  apply ino_frame; [done| | |].
  - intros n Hn'. destruct (owns_data _ _ _ (io_file _ _ _ Hjp) Hn') as [Hd _]. unfold V2. rewrite inode_view_data by done. auto.
  - intros b Hb Hub. unfold V2. rewrite inode_view_used by done. auto.
  - unfold V2. rewrite dinode_other; [|done|done|done|].
    + pose proof (iblock_range _ Hjn). by rewrite (extends_meta V ip V1 ip1) by (try lia; done || apply Hip).
    + rewrite Hn, (io_num _ _ _ Hip), (io_num _ _ _ Hjp). lia.
Qed.

(** The inode whose dinode is written. *)
Lemma ino_stored V k ip : inum ip = Z.of_nat k + 1 -> 0 <= inum ip < NINODES -> (forall n, length (V n) = BSIZE) ->
  file_ok super V ip -> inode_typed ip -> tight V ip (Z.to_nat (isize ip)) -> zero_tail V ip (Z.to_nat (isize ip)) ->
  set_meta (itype ip) (imajor ip) (iminor ip) (inlink ip) (isize ip) (addrs ip) (din0 (inum ip)) = ip ->
  let V2 := inode_view (sb := super) V ip in
  ino_ok V2 k ip /\ content V2 ip = content V ip /\ forall n, owns V2 ip n <-> owns V ip n.
Proof.
  intros En Hkn HV HF Ht HT Hz Hid V2. destruct (file_frame super V V2 ip HF) as (HF2 & Hb & Hy).
  - intros n [Hd _]%(owns_data _ _ _ HF). by apply inode_view_data.
  - intros b _. unfold V2. by rewrite inode_view_used.
  - split_and!; [|by eapply content_same|intros n; by apply owns_same]. destruct HT as [T1 T2]. split; try done.
    + split; [|done]. intros j Hj. by rewrite Hb, T1.
    + intros o Ho Hj Hnz. rewrite Hb in Hnz. rewrite Hy by done. by apply Hz.
    + unfold V2. by rewrite dinode_same by (done || lia).
Qed.

(** A file was extended and its dinode is written. *)
Lemma built_store s V ips k ip s1 V1 ip1 : built s V ips -> ips !! k = Some ip -> mview s1 V1 -> extends super V ip V1 ip1 ->
  file_ok super V1 ip1 -> inode_typed ip1 -> tight V1 ip1 (Z.to_nat (isize ip1)) -> zero_tail V1 ip1 (Z.to_nat (isize ip1)) ->
  set_meta (itype ip1) (imajor ip1) (iminor ip1) (inlink ip1) (isize ip1) (addrs ip1) (din0 (inum ip)) = ip1 ->
  freeblock s1 = freeblock s + nblk (Z.to_nat (isize ip1)) - nblk (Z.to_nat (isize ip)) -> freeinode s1 = freeinode s ->
  exists s2, winode (inum ip) ip1 s1 = Ret s2 tt /\ built s2 (inode_view (sb := super) V1 ip1) (<[k := ip1]> ips) /\
    content (inode_view (sb := super) V1 ip1) ip1 = content V1 ip1 /\
    forall j jp, j <> k -> ips !! j = Some jp -> content (inode_view (sb := super) V1 ip1) jp = content V jp.
Proof.
  intros B Hk HV1 He HF Ht HT Hz Hid Hf Hn. pose proof (b_ips _ _ _ B _ _ Hk) as Hip. pose proof (ino_inum _ _ _ _ _ B Hk) as Hkn.
  assert (inum ip1 = inum ip) as En by (by rewrite <- Hid). rewrite <- En in Hkn |- *.
  destruct (winode_run s1 V1 ip1 HV1 Hkn) as (s2 & R & HV2 & Hf2 & Hn2). exists s2. split; [done|].
  pose proof (lookup_lt_Some _ _ _ Hk) as Hlt.
  destruct (ino_stored V1 k ip1) as (H1 & H2 & H3); try done; [rewrite En; apply Hip|apply HV1|by rewrite En|].
  assert (forall j jp, ips !! j = Some jp -> j <> k -> ino_ok (inode_view (sb := super) V1 ip1) j jp /\
    content (inode_view (sb := super) V1 ip1) jp = content V jp /\ forall n, owns (inode_view (sb := super) V1 ip1) jp n <-> owns V jp n) as Hoth.
  { intros j jp Hj Hne. apply (ino_other s V ips k ip V1 ip1 j jp); try done. apply HF. }
  split_and!; [|done|intros j jp Hne Hj; by apply (Hoth j)].
  assert (forall j jp n, ips !! j = Some jp -> j <> k -> owns (inode_view (sb := super) V1 ip1) ip1 n ->
    ~ owns (inode_view (sb := super) V1 ip1) jp n) as Hdj.
  { intros j jp n Hj Hne Ho1%H3 Ho2%(Hoth j jp Hj Hne). destruct (ex_new _ _ _ _ _ He n Ho1) as [Ho|[_ Hu]].
    - apply Hne. by eapply (b_disj _ _ _ B).
    - destruct (owns_data _ _ _ (io_file _ _ _ (b_ips _ _ _ B _ _ Hj)) Ho2). congruence. }
  split; [done|by rewrite length_insert, Hn2, Hn, (b_next _ _ _ B)|rewrite length_insert; apply B| | | |].
  - intros j jp [(<- & <- & _)|[Hne Hj]]%list_lookup_insert_Some; [done|]. by apply Hoth.
  - intros j j' jp jp' n [(<- & <- & _)|[Hne Hj]]%list_lookup_insert_Some [(<- & <- & _)|[Hne' Hj']]%list_lookup_insert_Some Ho Ho'; [done| | |].
    + by destruct (Hdj j' jp' n).
    + by destruct (Hdj j jp n).
    + apply (Hoth j jp Hj (not_eq_sym Hne)) in Ho. apply (Hoth j' jp' Hj' (not_eq_sym Hne')) in Ho'. by eapply (b_disj _ _ _ B).
  - rewrite Hf2, Hf, (total_insert _ _ ip) by done. rewrite (b_count _ _ _ B). lia.
  - intros n Hn'. change (sb_inodestart super) with 32 in Hn'. rewrite inode_view_other by (done || lia).
    rewrite (extends_meta V ip V1 ip1) by (try lia; done || apply Hip). apply B. done.
Qed.

(** ** [iappend] and [ialloc] *)

Lemma addrs_typed V ip : file_ok super V ip -> Forall is_u32 (addrs ip).
Proof.
  intros HF. apply Forall_lookup. intros k x Hx. pose proof (lookup_lt_Some _ _ _ Hx) as Hk. rewrite (fo_len _ _ _ HF) in Hk.
  pose proof (addr_small V ip k HF ltac:(lia)) as Hs. rewrite (list_lookup_total_correct _ _ _ Hx) in Hs. by apply small_u32.
Qed.

(** The bytes are appended to the file; the other files do not change. *)
Lemma iappend_law s V ips k ip src : built s V ips -> ips !! k = Some ip ->
  let off := Z.to_nat (isize ip) in
  (off + length src <= NBLK * BSIZE)%nat -> freeblock s + nblk (off + length src) - nblk off <= FSSIZE ->
  exists s' V' ip', iappend (Z.of_nat k + 1) src s = Ret s' tt /\ built s' V' (<[k := ip']> ips) /\
    content V' ip' = content V ip ++ src /\ isize ip' = isize ip + Z.of_nat (length src) /\ itype ip' = itype ip /\
    inlink ip' = inlink ip /\ forall j jp, j <> k -> ips !! j = Some jp -> content V' jp = content V jp.
Proof.
  intros B Hk off Hend Hroom. pose proof (b_ips _ _ _ B _ _ Hk) as Hip. pose proof (ino_inum _ _ _ _ _ B Hk) as Hn.
  pose proof (b_view _ _ _ B) as HV. pose proof (io_file _ _ _ Hip) as HF. pose proof (fo_size _ _ _ HF) as Hsz.
  assert (Z.of_nat off = isize ip) as Eoff by (unfold off; lia). assert (is_u32 (isize ip)) as Hu by apply Hip.
  unfold iappend. rewrite <- (io_num _ _ _ Hip). mrun (rinode_run s V _ HV Hn). rewrite (io_disk _ _ _ Hip), xint_id, <- Eoff by done.
  destruct (iappend_loop_law (S (length src)) s V ip off src HV HF) as (s1 & V1 & ip1 & R1 & HV1 & HW & HT1 & Hz1 & Hf1 & Hn1);
    [apply Hip|apply Hip|done|done|lia|].
  mrun R1. cbn beta iota. set (sz := Z.of_nat (off + length src)). rewrite (xint_id sz) by (unfold sz, is_u32, NBLK, BSIZE in *; lia).
  set (ip2 := set_isize sz ip1). assert (ip2 = set_isize sz (set_addrs (addrs ip1) ip)) as E2 by (unfold ip2; by rewrite (wr_meta _ _ _ _ _ _ HW) at 1).
  destruct (wrote_content V ip off src V1 ip1 sz HF HW) as [HF2 Hc2]; [done|done|unfold sz; case_decide as Es; [rewrite Es; cbn [length]; lia|lia]|].
  fold ip2 in HF2, Hc2. assert (Z.to_nat (isize ip2) = off + length src)%nat as Esz by (cbn [ip2 set_isize set_meta isize]; unfold sz; lia).
  assert (extends super V ip V1 ip2) as He by (destruct (wr_ext _ _ _ _ _ _ HW) as [X1 X2 X3 X4]; split; done).
  pose proof (io_typed _ _ _ Hip) as [I1 I2 I3 I4 I5 I6 I7]. pose proof (io_disk _ _ _ Hip) as Hid.
  destruct (built_store s V ips k ip s1 V1 ip2 B Hk HV1 He HF2) as (s2 & R2 & B2 & Hc & Hoth);
    [|by rewrite Esz|by rewrite Esz| |rewrite Esz; done|done|].
  { rewrite E2. split; cbn; try done; [unfold sz, is_u32, NBLK, BSIZE in *; lia|apply HF2|]. apply (addrs_typed V1 ip2 HF2). }
  { rewrite E2. rewrite <- Hid at 8. by rewrite <- Hid. }
  exists s2, (inode_view (sb := super) V1 ip2), ip2. split_and!; try done; try (by rewrite E2).
  - rewrite Hc, Hc2. unfold overwrite. rewrite take_ge, drop_ge by (rewrite content_length; lia). by rewrite app_nil_r.
  - cbn [ip2 set_isize set_meta isize]. unfold sz. lia.
Qed.

Definition new_ino (n t : Z) : inode := set_meta t 0 0 1 0 (replicate (S NDIRECT) 0) (din0 n).

Lemma new_fblk V n t k : fblk V (new_ino n t) k = 0.
Proof.
  unfold fblk. change (addrs (new_ino n t)) with (replicate (S NDIRECT) 0).
  destruct (decide (k < NDIRECT)%nat); [apply lookup_total_replicate_2; lia|]. by rewrite lookup_total_replicate_2, decide_True by lia.
Qed.
Lemma new_ind n t : addrs (new_ino n t) !!! NDIRECT = 0.
Proof. change (addrs (new_ino n t)) with (replicate (S NDIRECT) 0). apply lookup_total_replicate_2. lia. Qed.

Lemma new_file_ok V n t : t <> T_DEV -> file_ok super V (new_ino n t).
Proof.
  intros Ht. split; try done.
  - split; intros *; rewrite ?new_fblk, ?new_ind; done.
  - intros k Hk. cbn in Hk. unfold BSIZEz in Hk. lia.
Qed.

Lemma new_owns V n t b : ~ owns V (new_ino n t) b.
Proof. intros [Hb [->|(k & _ & <-)]]; apply Hb; [apply new_ind|apply new_fblk]. Qed.

(** The next inode, with no bytes. *)
Lemma ialloc_law s V ips t : built s V ips -> Z.of_nat (length ips) + 1 < NINODES -> t = T_DIR \/ t = T_FILE ->
  let ip := new_ino (Z.of_nat (length ips) + 1) t in
  exists s' V', ialloc t s = Ret s' (Z.of_nat (length ips) + 1) /\ built s' V' (ips ++ [ip]) /\ freeblock s' = freeblock s /\
    content V' ip = [] /\ forall j jp, ips !! j = Some jp -> content V' jp = content V jp.
Proof.
  intros B Hfew Ht ip. set (n := Z.of_nat (length ips) + 1) in *. pose proof (b_view _ _ _ B) as HV.
  assert (0 <= inum ip < NINODES) as Hn by (cbn; unfold n; lia).
  unfold ialloc. rewrite gets_bind, modify_bind, (b_next _ _ _ B), u32_small by (unfold is_u32, NINODES in *; lia). fold n.
  assert (set_meta (i16 (xshort t)) 0 0 (i16 (xshort 1)) (xint 0) (replicate (S NDIRECT) 0) (din0 n) = ip) as -> by (by destruct Ht; subst t).
  assert (mview (set_freeinode (n + 1) s) V) as HV0 by (by destruct HV; split).
  destruct (winode_run _ V ip HV0 Hn) as (s' & R & HV' & Hf & Hn'). change n with (inum ip) at 2. mrun R.
  assert (file_ok super V ip) as HF by (apply new_file_ok; by destruct Ht; subst t).
  destruct (ino_stored V (length ips) ip) as (H1 & H2 & H3); try done; [apply HV| |split| |].
  { split; [destruct Ht; subst t; by split|by split..|done|by apply (addrs_typed V)]. }
  { intros k Hk. unfold ip. rewrite (new_fblk V n t). cbn. lia. }
  { unfold ip. rewrite (new_ind n t). cbn. lia. }
  { intros o _ _. by rewrite (new_fblk V n t). }
  assert (forall j jp, ips !! j = Some jp -> ino_ok (inode_view (sb := super) V ip) j jp /\
    content (inode_view (sb := super) V ip) jp = content V jp /\ forall b, owns (inode_view (sb := super) V ip) jp b <-> owns V jp b) as Hold.
  { intros j jp Hj. pose proof (b_ips _ _ _ B _ _ Hj) as Hjp. pose proof (lookup_lt_Some _ _ _ Hj). apply ino_frame; [done| | |].
    - intros b [Hd _]%(owns_data _ _ _ (io_file _ _ _ Hjp)). by apply inode_view_data.
    - intros b _. by rewrite inode_view_used.
    - apply dinode_other; [done|by eapply ino_inum|done|]. rewrite (io_num _ _ _ Hjp). cbn. unfold n. lia. }
  exists s', (inode_view (sb := super) V ip). split_and!; [done| |done|by rewrite H2|intros j jp Hj; by apply (Hold j)].
  assert (forall k jp, (ips ++ [ip]) !! k = Some jp -> ips !! k = Some jp \/ (k = length ips /\ jp = ip)) as Hsplit.
  { intros k jp [Hk|[Hge Hk]]%lookup_app_Some; [by left|right]. apply list_lookup_singleton_Some in Hk as [E <-]. split; [lia|done]. }
  split; [done|rewrite Hn', length_app; cbn; unfold n; lia|rewrite length_app; cbn; lia| | | |].
  - intros k jp [Hk|[-> ->]]%Hsplit; [by apply Hold|done].
  - intros j k jp kp b [Hj|[-> ->]]%Hsplit [Hk|[-> ->]]%Hsplit; [|by intros _ ?%H3%new_owns|by intros ?%H3%new_owns|done].
    intros Ho%(Hold j jp Hj) Ho'%(Hold k kp Hk). by eapply (b_disj _ _ _ B).
  - rewrite Hf, total_snoc. cbn [set_freeinode freeblock]. rewrite (b_count _ _ _ B). change (nblk (Z.to_nat (isize ip))) with 0. lia.
  - intros b Hb. change (sb_inodestart super) with 32 in Hb. rewrite inode_view_other by (done || lia). by apply B.
Qed.

(** ** The abstract file system: the type and the bytes of each inode *)

Abbreviation afs := (list (Z * list Z)).
Definition blocks (fs : afs) : Z := nmeta + foldr (fun f t => nblk (length f.2) + t) 0 fs.
Definition abstract (V : Z -> block) (ip : inode) : Z * list Z := (itype ip, content V ip).

(** The image holds the files [fs], inode 1 first. *)
Definition holds (s : mkfs) (fs : afs) : Prop :=
  exists V ips, built s V ips /\ abstract V <$> ips = fs /\ Forall (fun ip => inlink ip = 1) ips.

Lemma blocks_app fs fs' : blocks (fs ++ fs') = blocks fs + blocks fs' - nmeta.
Proof. unfold blocks. induction fs as [|f fs IH]; cbn [app foldr]; lia. Qed.
Lemma blocks_cons f fs : blocks (f :: fs) = blocks fs + nblk (length f.2).
Proof. unfold blocks. cbn. lia. Qed.
Lemma nblk_nonneg n : 0 <= nblk n.
Proof. apply (nblk_mono 0 n). lia. Qed.
Lemma blocks_ge fs : nmeta <= blocks fs.
Proof. induction fs as [|f fs IH]; [unfold blocks; cbn; lia|]. rewrite blocks_cons. pose proof (nblk_nonneg (length f.2)). lia. Qed.
Lemma blocks_insert fs k f f' : fs !! k = Some f -> blocks (<[k := f']> fs) = blocks fs - nblk (length f.2) + nblk (length f'.2).
Proof.
  revert k. induction fs as [|g fs IH]; intros [|k] Hk; [done|done| |]; cbn in Hk.
  - injection Hk as ->. change (<[0%nat := f']> (f :: fs)) with (f' :: fs). rewrite !blocks_cons. lia.
  - change (<[S k := f']> (g :: fs)) with (g :: <[k := f']> fs). rewrite !blocks_cons, (IH k Hk). lia.
Qed.

Lemma built_blocks s V ips : built s V ips -> blocks (abstract V <$> ips) = freeblock s.
Proof.
  intros B. rewrite (b_count _ _ _ B). unfold blocks. f_equal. clear B. induction ips as [|ip ips IH]; [done|].
  cbn [fmap list_fmap foldr total]. rewrite IH. unfold abstract. cbn [snd]. by rewrite content_length.
Qed.

(** [iappend] appends to the bytes of the inode. *)
Lemma iappend_spec s fs k t c src : holds s fs -> fs !! k = Some (t, c) -> (length (c ++ src) <= NBLK * BSIZE)%nat ->
  blocks (<[k := (t, c ++ src)]> fs) <= FSSIZE ->
  exists s', iappend (Z.of_nat k + 1) src s = Ret s' tt /\ holds s' (<[k := (t, c ++ src)]> fs).
Proof.
  intros (V & ips & B & <- & HL) Hk Hl Hb. rewrite list_lookup_fmap in Hk. destruct (ips !! k) as [ip|] eqn:Hi; [|done].
  injection Hk as Ht Hc. rewrite length_app in Hl.
  assert (length c = Z.to_nat (isize ip)) as Ec by (rewrite <- Hc; apply content_length).
  rewrite (blocks_insert _ _ (t, c)) in Hb by (rewrite list_lookup_fmap, Hi; cbn; unfold abstract; by rewrite Ht, Hc).
  rewrite (built_blocks s) in Hb by done. cbn [snd] in Hb. rewrite length_app in Hb.
  destruct (iappend_law s V ips k ip src B Hi) as (s' & V' & ip' & R & B' & Hc' & Hsz & Ht' & Hl' & Hoth); [lia|rewrite Ec in Hb; lia|].
  exists s'. split; [done|]. exists V', (<[k := ip']> ips). split_and!; [done| |].
  - rewrite list_fmap_insert. unfold abstract at 1. rewrite Ht', Hc', Ht, Hc. apply list_eq. intros j.
    destruct (decide (j = k)) as [->|Hne].
    + rewrite !list_lookup_insert_eq; [done|rewrite length_fmap; by eapply lookup_lt_Some..].
    + rewrite !list_lookup_insert_ne, !list_lookup_fmap by done. destruct (ips !! j) as [jp|] eqn:Hj; [|done].
      cbn. unfold abstract. by rewrite (Hoth j jp).
  - apply Forall_insert; [done|]. rewrite Hl'. by eapply (Forall_lookup_1 (fun ip => inlink ip = 1)).
Qed.

Lemma ialloc_spec s fs t : holds s fs -> Z.of_nat (length fs) + 1 < NINODES -> t = T_DIR \/ t = T_FILE ->
  exists s', ialloc t s = Ret s' (Z.of_nat (length fs) + 1) /\ holds s' (fs ++ [(t, [])]).
Proof.
  intros (V & ips & B & <- & HL) Hf Ht. rewrite length_fmap in *.
  destruct (ialloc_law s V ips t B Hf Ht) as (s' & V' & R & B' & _ & Hc & Hold). exists s'. split; [done|].
  eexists V', _. split_and!; [exact B'| |apply Forall_app; split; [done|by apply Forall_singleton]].
  rewrite fmap_app. cbn [fmap list_fmap]. unfold abstract at 2. rewrite Hc. f_equal. apply list_eq. intros j.
  rewrite !list_lookup_fmap. destruct (ips !! j) as [jp|] eqn:Hj; [|done]. cbn. unfold abstract. by rewrite (Hold j jp).
Qed.

Lemma append_reads_spec l s fs k t c : holds s fs -> fs !! k = Some (t, c) -> (length (c ++ concat l) <= NBLK * BSIZE)%nat ->
  blocks (<[k := (t, c ++ concat l)]> fs) <= FSSIZE ->
  exists s', append_reads (Z.of_nat k + 1) l s = Ret s' tt /\ holds s' (<[k := (t, c ++ concat l)]> fs).
Proof.
  revert s fs c. induction l as [|x l IH]; intros s fs c H Hk Hl Hb; cbn [append_reads concat] in *.
  - rewrite app_nil_r in *. rewrite list_insert_id by done. by exists s.
  - rewrite app_assoc in *. pose proof (lookup_lt_Some _ _ _ Hk) as Hlt.
    assert (length (c ++ x) <= length ((c ++ x) ++ concat l))%nat as Hle by (rewrite (length_app (c ++ x)); lia).
    rewrite (blocks_insert _ _ _ _ Hk) in Hb. cbn [snd] in Hb. pose proof (nblk_mono _ _ Hle) as Hm.
    destruct (iappend_spec s fs k t c x H Hk) as (s1 & R1 & H1); [lia|rewrite (blocks_insert _ _ _ _ Hk); cbn [snd]; lia|].
    mrun R1. destruct (IH s1 _ (c ++ x) H1) as (s2 & R2 & H2).
    + by apply list_lookup_insert_eq.
    + done.
    + rewrite list_insert_insert_eq, (blocks_insert _ _ _ _ Hk). cbn [snd]. lia.
    + exists s2. split; [done|]. by rewrite list_insert_insert_eq in H2.
Qed.

(** ** The arguments *)

Definition fname (a : arg) : list Z := skip_underscore (aname a).
Definition fdata (a : arg) : list Z := concat (default [] (areads a)).
Definition arg_ok (a : arg) : Prop := (47 ∉ aname a) /\ areads a <> None /\ (length (fdata a) <= NBLK * BSIZE)%nat.

Definition files (args : list arg) : afs := (fun a => (T_FILE, fdata a)) <$> args.
(** The entries of the files, the first of which has inode [n]. *)
Fixpoint dents (n : Z) (args : list arg) : list Z :=
  match args with
  | [] => []
  | a :: args => dirent n (fname a) ++ dents (n + 1) args
  end.

Lemma dirent_len n name : length (dirent n name) = 16%nat.
Proof. unfold dirent, mk_dirent. by rewrite length_app, le_bytes_length, pad_length. Qed.
Lemma dents_length n args : length (dents n args) = (16 * length args)%nat.
Proof. revert n. induction args as [|a args IH]; intros n; cbn [dents length]; [done|]. rewrite length_app, dirent_len, IH. lia. Qed.

Lemma add_file_spec a s d fs : holds s ((T_DIR, d) :: fs) -> arg_ok a -> Z.of_nat (length fs) + 2 < NINODES ->
  let n := Z.of_nat (length fs) + 2 in
  let d' := d ++ dirent n (fname a) in
  (length d' <= NBLK * BSIZE)%nat -> blocks ((T_DIR, d') :: fs ++ [(T_FILE, fdata a)]) <= FSSIZE ->
  exists s', add_file ROOTINO a s = Ret s' tt /\ holds s' ((T_DIR, d') :: fs ++ [(T_FILE, fdata a)]).
Proof.
  intros H (Hs & Hr & Hl) Hf n d' Hd Hb. unfold add_file, assert. rewrite bool_decide_eq_false_2 by done. cbn [negb]. rewrite ret_bind.
  unfold fdata in *. destruct (areads a) as [l|]; [|done]. cbn [default from_option id] in *.
  destruct (ialloc_spec s _ T_FILE H) as (s1 & R1 & H1); [cbn [length]; lia|by right|]. cbn [length] in R1.
  replace (Z.of_nat (S (length fs)) + 1) with n in R1 by (unfold n; lia). mrun R1.
  rewrite blocks_cons, blocks_app in Hb. cbn [snd] in Hb. fold (fname a).
  assert (blocks [(T_FILE, concat l)] = nmeta + nblk (length (concat l))) as Eb by (unfold blocks; cbn; lia).
  pose proof (nblk_nonneg (length (concat l))).
  destruct (iappend_spec s1 _ 0 T_DIR d (dirent n (fname a)) H1) as (s2 & R2 & H2); [done|done| |].
  { change (<[0%nat := _]> _) with ((T_DIR, d') :: fs ++ [(T_FILE, [])]). rewrite blocks_cons, blocks_app. cbn [snd].
    change (blocks [(T_FILE, [])]) with nmeta. lia. }
  change (Z.of_nat 0 + 1) with ROOTINO in R2. mrun R2. change (<[0%nat := _]> _) with ((T_DIR, d') :: fs ++ [(T_FILE, [])]) in H2.
  assert (forall f : Z * list Z, <[S (length fs) := f]> ((T_DIR, d') :: fs ++ [(T_FILE, [])]) = (T_DIR, d') :: fs ++ [f]) as Hins.
  { intros f. change ((T_DIR, d') :: <[length fs := f]> (fs ++ [(T_FILE, [])]) = (T_DIR, d') :: fs ++ [f]).
    rewrite insert_app_r_alt by lia. by rewrite Nat.sub_diag. }
  destruct (append_reads_spec l s2 _ (S (length fs)) T_FILE [] H2) as (s3 & R3 & H3); [|done| |].
  { change ((fs ++ [(T_FILE, [])]) !! length fs = Some (T_FILE, [])). rewrite lookup_app_r by lia. by rewrite Nat.sub_diag. }
  { rewrite Hins, blocks_cons, blocks_app. cbn [snd app]. lia. }
  rewrite Hins in H3. exists s3. split; [|done]. rewrite <- R3. f_equal. unfold n. lia.
Qed.

Lemma add_files_spec args s d fs : holds s ((T_DIR, d) :: fs) -> Forall arg_ok args ->
  Z.of_nat (length fs + length args) + 1 < NINODES ->
  let d' := d ++ dents (Z.of_nat (length fs) + 2) args in
  (length d' <= NBLK * BSIZE)%nat -> blocks ((T_DIR, d') :: fs ++ files args) <= FSSIZE ->
  exists s', add_files ROOTINO args s = Ret s' tt /\ holds s' ((T_DIR, d') :: fs ++ files args).
Proof.
  revert s d fs. induction args as [|a args IH]; intros s d fs H Ha Hf d' Hd Hb; cbn [add_files dents files fmap list_fmap] in *.
  - unfold d'. rewrite !app_nil_r. by exists s.
  - apply Forall_cons in Ha as [Ha Hargs]. cbn [length] in Hf. rewrite (cons_middle (T_FILE, fdata a)), app_assoc in *.
    set (n := Z.of_nat (length fs) + 2) in *. assert (d' = (d ++ dirent n (fname a)) ++ dents (n + 1) args) as Ed by (unfold d'; by rewrite <- app_assoc).
    clearbody d'. rewrite blocks_cons, blocks_app in Hb. cbn [snd] in Hb.
    pose proof (blocks_ge (files args)) as Hge. unfold files in Hge.
    assert (length (d ++ dirent n (fname a)) <= length d')%nat as Hle by (rewrite Ed, (length_app (d ++ _)); lia).
    pose proof (nblk_mono _ _ Hle) as Hm.
    destruct (add_file_spec a s d fs H Ha) as (s1 & R1 & H1); [lia|fold n; lia|fold n; rewrite blocks_cons; cbn [snd]; lia|].
    mrun R1. fold n in H1.
    assert (Z.of_nat (length (fs ++ [(T_FILE, fdata a)])) + 2 = n + 1) as En by (rewrite length_app; cbn; unfold n; lia).
    destruct (IH s1 _ _ H1 Hargs) as (s2 & R2 & H2); rewrite ?En, <- ?Ed in *.
    + rewrite length_app. cbn. lia.
    + done.
    + rewrite blocks_cons, blocks_app. cbn [snd]. unfold files. lia.
    + by exists s2.
Qed.

(** ** The empty image *)

Lemma zero_blocks_run fuel i s : 0 <= i -> i + Z.of_nat fuel <= FSSIZE -> (forall n, disk_read (img s) n = zero_block) ->
  exists m, zero_blocks fuel i s = Ret (set_img m (Z.max (len s) (if decide (fuel = 0%nat) then len s else i + Z.of_nat fuel)) s) tt /\
    forall n, disk_read m n = zero_block.
Proof.
  revert i s. induction fuel as [|fuel IH]; intros i s Hi Hf Hz; cbn [zero_blocks].
  - exists (img s). split; [|done]. rewrite Z.max_id. by destruct s.
  - unfold wsect. rewrite modify_bind, seek_id by lia. destruct (IH (i + 1) (set_img (<[i := zero_block]> (img s)) (Z.max (len s) (i + 1)) s)) as (m & R & Hm); [lia|lia| |].
    + intros n. cbn. unfold disk_read. destruct (decide (n = i)) as [->|]; [by rewrite lookup_insert_eq|]. rewrite lookup_insert_ne by done. apply Hz.
    + exists m. split; [|done]. rewrite R. unfold set_img. cbn. do 2 f_equal. rewrite (decide_False (P := S fuel = 0%nat)) by done.
      case_decide; lia.
Qed.

(** The image with the superblock and no inode. *)
Lemma start_image_spec : exists s, start_image mkfs0 = Ret s tt /\ holds s [].
Proof.
  unfold start_image. rewrite !modify_bind.
  destruct (zero_blocks_run (Z.to_nat FSSIZE) 0 (set_freeblock nmeta (set_msb super mkfs0))) as (m & R & Hm); [done|done|done|].
  mrun R. eexists. split; [reflexivity|]. set (s := set_img _ _ _).
  exists (fun n => if decide (n = sb_bmapstart super) then set_bits (Z.to_nat nmeta) else disk_read (img s) n), [].
  assert (forall n, disk_read (img s) n = if decide (n = 1) then super_block else zero_block) as Hd.
  { intros n. change (img s) with (<[1 := super_block]> m). unfold disk_read.
    destruct (decide (n = 1)) as [->|Hne]; [by rewrite (lookup_insert_eq m)|]. rewrite (lookup_insert_ne m) by done. apply Hm. }
  split_and!; [|done|done]. split; [|done|done|done|done|done|].
  - split; [intros n Hn; by rewrite decide_False|rewrite decide_True by done; reflexivity|reflexivity|reflexivity| |split; [reflexivity|by vm_compute]|].
    + intros n. destruct (decide (n = sb_bmapstart super)); [apply set_bits_length|]. rewrite Hd.
      destruct (decide (n = 1)); [|apply length_replicate]. unfold super_block. rewrite memmove_in_length. apply length_replicate.
    + intros n Hn. assert (59 <= n) as Hn' by exact Hn. rewrite decide_False by (change (sb_bmapstart super) with 58; lia).
      rewrite Hd. by rewrite decide_False by lia.
  - intros n Hn. change (sb_inodestart super) with 32 in Hn. rewrite decide_False by (change (sb_bmapstart super) with 58; lia). apply Hd.
Qed.

(** The root directory's entries. *)
Definition root_entries (args : list arg) : list Z := dirent 1 [46] ++ dirent 1 [46; 46] ++ dents 2 args.
Definition tree (args : list arg) : afs := (T_DIR, root_entries args) :: files args.

Lemma root_entries_length args : length (root_entries args) = (16 * (length args + 2))%nat.
Proof. unfold root_entries. rewrite !length_app, !dirent_len, dents_length. lia. Qed.

(** [main] up to the size of the root directory. *)
Lemma main_populates args : Forall arg_ok args -> Z.of_nat (length args) + 1 < NINODES -> blocks (tree args) <= FSSIZE ->
  exists s, main args mkfs0 = finish ROOTINO s /\ holds s (tree args).
Proof.
  intros Ha Hn Hb. unfold main. destruct start_image_spec as (s0 & R0 & H0). mrun R0.
  destruct (ialloc_spec s0 [] T_DIR H0) as (s1 & R1 & H1); [done|by left|]. mrun R1. change (Z.of_nat (length ([] : afs)) + 1) with ROOTINO.
  change (assert (ROOTINO =? ROOTINO)) with (ret tt : M mkfs unit). rewrite ret_bind. change (dirent ROOTINO) with (dirent 1).
  unfold tree in Hb. rewrite blocks_cons in Hb. cbn [snd] in Hb. pose proof (blocks_ge (files args)) as Hge.
  pose proof (root_entries_length args) as Hl.
  assert (forall d, (length d <= length (root_entries args))%nat -> blocks [(T_DIR, d)] <= FSSIZE) as Hd.
  { intros d Hle. rewrite blocks_cons. cbn [snd]. pose proof (nblk_mono _ _ Hle). change (blocks []) with nmeta. lia. }
  assert (16 * (length args + 2) <= NBLK * BSIZE)%nat as Hmax by (unfold NINODES, NBLK, BSIZE in *; lia).
  assert (forall d d' : list Z, <[0%nat := (T_DIR, d)]> [(T_DIR, d')] = [(T_DIR, d)]) as Hins by done.
  destruct (iappend_spec s1 _ 0 T_DIR [] (dirent 1 [46]) H1) as (s2 & R2 & H2);
    [done|cbn [app]; rewrite dirent_len; lia|cbn [app]; rewrite Hins; apply Hd; rewrite dirent_len; lia|].
  mrun R2. cbn [app] in H2. rewrite Hins in H2.
  destruct (iappend_spec s2 _ 0 T_DIR (dirent 1 [46]) (dirent 1 [46; 46]) H2) as (s3 & R3 & H3);
    [done|rewrite length_app, !dirent_len; lia|rewrite Hins; apply Hd; rewrite length_app, !dirent_len; lia|].
  mrun R3. rewrite Hins in H3.
  destruct (add_files_spec args s3 _ [] H3 Ha) as (s4 & R4 & H4); [cbn [length]; lia| | |].
  - rewrite <- app_assoc. change (length (root_entries args) <= NBLK * BSIZE)%nat. lia.
  - rewrite <- app_assoc. change (blocks ((T_DIR, root_entries args) :: files args) <= FSSIZE). rewrite blocks_cons. cbn [snd]. lia.
  - mrun R4. rewrite <- app_assoc in H4. by exists s4.
Qed.

(** ** The finished image *)

(** What fs.c needs of an image, with the files [fs] on it: the blocks below
    [top] are the used ones, each inode is in its dinode, and no two files
    share a block. *)
Record image (D : gmap Z block) (fs : afs) (top : Z) : Prop := {
  im_length : forall n, length (disk_read D n) = BSIZE;
  im_super : disk_read D 1 = super_block;
  im_log : forall n, 2 <= n < sb_inodestart super -> disk_read D n = zero_block;
  im_bitmap : forall b, 0 <= b < FSSIZE -> used super (disk_read D) b = bool_decide (b < top);
  im_inodes : exists ips, abstract (disk_read D) <$> ips = fs /\
    (forall k ip, ips !! k = Some ip -> inum ip = Z.of_nat k + 1 /\ file_ok super (disk_read D) ip /\ inlink ip = 1 /\
       dec_dinode (disk_read D (IBLOCK (inum ip) super)) (dinode_off (inum ip)) (din0 (inum ip)) = ip) /\
    (forall j k ip jp n, ips !! j = Some ip -> ips !! k = Some jp -> owns (disk_read D) ip n -> owns (disk_read D) jp n -> j = k)
}.

Lemma view_eq V W ip : (forall n, W n = V n) -> file_ok super V ip ->
  file_ok super W ip /\ abstract W ip = abstract V ip /\ forall n, owns W ip n <-> owns V ip n.
Proof.
  intros E HF. destruct (file_frame super V W ip HF) as (H1 & H2 & H3); [auto|unfold used; by rewrite E|].
  split_and!; [done| |intros n; by apply owns_same]. unfold abstract. f_equal. by eapply content_same.
Qed.

(** The root directory, its size rounded up to a block that it has. *)
Lemma round_root V ip sz : file_ok super V ip -> tight V ip (Z.to_nat (isize ip)) -> zero_tail V ip (Z.to_nat (isize ip)) ->
  sz = (isize ip / BSIZEz + 1) * BSIZEz -> isize ip mod BSIZEz <> 0 ->
  file_ok super V (set_isize sz ip) /\ content V (set_isize sz ip) = content V ip ++ replicate (Z.to_nat (sz - isize ip)) 0.
Proof.
  intros HF [T1 T2] Hz Hsz Hm. pose proof (fo_size _ _ _ HF) as Hs. unfold BSIZEz, MAXFILE in *.
  pose proof (Z.div_mod (isize ip) 512 ltac:(lia)) as E. pose proof (Z.mod_pos_bound (isize ip) 512 ltac:(lia)) as Hb.
  assert (forall k, Z.of_nat k * 512 < sz -> (k < NBLK)%nat /\ fblk V ip k <> 0) as Hmap.
  { intros k Hk. assert (k < NBLK)%nat as Hkb by (unfold NBLK; lia). split; [done|]. apply T1; [done|]. unfold BSIZE. lia. }
  split.
  - destruct HF as [H1 H2 H3 H4 H5 H6]. split; try done; [cbn; unfold MAXFILE, BSIZEz; lia|]. intros k Hk. by apply Hmap.
  - unfold content. cbn [isize set_isize set_meta]. replace (Z.to_nat sz) with (Z.to_nat (isize ip) + Z.to_nat (sz - isize ip))%nat by lia.
    rewrite seq_app, fmap_app. f_equal. apply list_eq. intros j. rewrite list_lookup_fmap.
    destruct (decide (j < Z.to_nat (sz - isize ip))%nat) as [Hj|Hj].
    + rewrite lookup_seq_lt, lookup_replicate_2 by done. cbn [fmap option_fmap option_map]. f_equal.
      change (fbyte V (set_isize sz ip)) with (fbyte V ip). set (o := (_ + _)%nat).
      destruct (Hmap (o / BSIZE)%nat) as [G1 G2]; [|apply Hz; [unfold o; lia|done|done]].
      pose proof (Nat.div_mod_eq o BSIZE). unfold BSIZE, o in *. lia.
    + rewrite !lookup_ge_None_2 by (rewrite ?length_seq, ?length_replicate; lia). done.
Qed.

(** With the bitmap written the image is the view. *)
Lemma balloc_run s V : mview s V -> exists s', balloc (freeblock s) s = Ret s' tt /\ freeblock s' = freeblock s /\
  forall n, disk_read (img s') n = V n.
Proof.
  intros HV. pose proof (mv_free _ _ HV) as Hf. assert (sb_bmapstart super = 58) as E58 by done. unfold balloc, assert, BSIZEz, FSSIZE in *.
  rewrite (proj2 (Z.ltb_lt _ _)) by lia. rewrite ret_bind. mrun (eq_refl (get s)). rewrite (mv_sb _ _ HV). unfold wsect.
  rewrite seek_id by (unfold FSSIZE; lia). eexists. split; [reflexivity|]. split; [done|]. intros n. cbn [img set_img]. unfold disk_read.
  destruct (decide (n = sb_bmapstart super)) as [->|Hne].
  - rewrite (lookup_insert_eq (img s)). symmetry. apply (mv_bits _ _ HV).
  - rewrite (lookup_insert_ne (img s)) by done. symmetry. by apply (mv_img _ _ HV).
Qed.

Lemma image_of D V ips top : (forall n, disk_read D n = V n) -> (forall n, length (V n) = BSIZE) -> V 1 = super_block ->
  (forall n, 2 <= n < sb_inodestart super -> V n = zero_block) ->
  (forall b, 0 <= b < FSSIZE -> used super V b = bool_decide (b < top)) ->
  (forall k ip, ips !! k = Some ip -> inum ip = Z.of_nat k + 1 /\ file_ok super V ip /\ inlink ip = 1 /\
     dec_dinode (V (IBLOCK (inum ip) super)) (dinode_off (inum ip)) (din0 (inum ip)) = ip) ->
  (forall j k ip jp n, ips !! j = Some ip -> ips !! k = Some jp -> owns V ip n -> owns V jp n -> j = k) ->
  image D (abstract V <$> ips) top.
Proof.
  intros HD Hl H1 Hz Hu Hi Hdj. split.
  - intros n. by rewrite HD.
  - by rewrite HD.
  - intros n Hn. by rewrite HD, Hz.
  - intros b Hb. rewrite <- Hu by done. unfold used. by rewrite HD.
  - exists ips. split_and!.
    + apply list_eq. intros k. rewrite !list_lookup_fmap. destruct (ips !! k) as [ip|] eqn:Hk; [|done]. cbn. f_equal.
      apply view_eq; [done|]. by apply (Hi k).
    + intros k ip Hk. destruct (Hi k ip Hk) as (G1 & G2 & G3 & G4). rewrite HD. split_and!; try done. by apply (view_eq V).
    + intros j k ip jp n Hj Hk Ho Ho'. destruct (Hi j ip Hj) as (_ & G & _). destruct (Hi k jp Hk) as (_ & G' & _).
      apply (view_eq V _ ip HD G) in Ho. apply (view_eq V _ jp HD G') in Ho'. by eapply Hdj.
Qed.

(** The root inode with another size written to its dinode. *)
Lemma root_stored s V ip ips ip1 : built s V (ip :: ips) -> Forall (fun ip => inlink ip = 1) (ip :: ips) ->
  file_ok super V ip1 -> ip1 = set_isize (isize ip1) ip -> inode_typed ip1 ->
  let V1 := inode_view (sb := super) V ip1 in
  abstract V1 <$> (ip1 :: ips) = abstract V ip1 :: (abstract V <$> ips) /\
  (forall k jp, (ip1 :: ips) !! k = Some jp -> inum jp = Z.of_nat k + 1 /\ file_ok super V1 jp /\ inlink jp = 1 /\
     dec_dinode (V1 (IBLOCK (inum jp) super)) (dinode_off (inum jp)) (din0 (inum jp)) = jp) /\
  (forall j k jp kp n, (ip1 :: ips) !! j = Some jp -> (ip1 :: ips) !! k = Some kp -> owns V1 jp n -> owns V1 kp n -> j = k).
Proof.
  intros B HL HF1 E Hty V1. pose proof (b_ips _ _ _ B 0%nat ip eq_refl) as [N HF _ _ _ Hdk]. pose proof (b_view _ _ _ B) as HV.
  pose proof (ino_inum _ _ _ 0%nat ip B eq_refl) as Hn. assert (inum ip1 = inum ip) as En by (by rewrite E). rewrite <- En in Hn.
  assert (forall n, owns V ip1 n <-> owns V ip n) as Ho1 by (intros n; by rewrite E).
  destruct (file_frame super V V1 ip1 HF1) as (G1 & G2 & G3);
    [intros n [Hd _]%(owns_data _ _ _ HF1); by apply inode_view_data|intros b _; unfold V1; by rewrite inode_view_used|].
  assert (forall k jp, ips !! k = Some jp -> ino_ok V1 (S k) jp /\ content V1 jp = content V jp /\ forall n, owns V1 jp n <-> owns V jp n) as Hoth.
  { intros k jp Hk. apply (ino_other s V (ip :: ips) 0 ip V ip1); try done; [|by apply HF1].
    destruct (extends_refl super V ip) as [X1 X2 X3 X4]. split; [done|done|intros n ?; by apply Ho1|intros n ?%Ho1; by left]. }
  assert (forall n, owns V1 ip1 n <-> owns V ip n) as Hor by (intros n; by rewrite (owns_same V V1 ip1 n G2)).
  split_and!.
  - cbn [fmap list_fmap]. f_equal; [unfold abstract; f_equal; by eapply content_same|]. apply list_eq. intros k. rewrite !list_lookup_fmap.
    destruct (ips !! k) as [jp|] eqn:Hk; [|done]. cbn. unfold abstract. by rewrite (proj1 (proj2 (Hoth k jp Hk))).
  - intros [|k] jp Hk; cbn in Hk.
    + injection Hk as <-. split_and!; [by rewrite En|done|rewrite E; by apply Forall_cons in HL as [? _]|].
      unfold V1. rewrite dinode_same by (apply HV || done || lia). rewrite En, E. rewrite <- Hdk at 8. by rewrite <- Hdk.
    + destruct (Hoth k jp Hk) as ([I1 I2 _ _ _ I6] & _ & _). split_and!; try done. apply Forall_cons in HL as [_ HL].
      by eapply (Forall_lookup_1 (fun ip => inlink ip = 1)).
  - assert (forall j jp n, (ip1 :: ips) !! j = Some jp -> owns V1 jp n -> exists jp', (ip :: ips) !! j = Some jp' /\ owns V jp' n) as Hback.
    { intros [|j] jp n Hj Ho; cbn in Hj; [injection Hj as <-; exists ip; split; [done|by apply Hor]|].
      exists jp. split; [done|]. by apply (Hoth j jp Hj). }
    intros j k jp kp n Hj Hk Ho Ho'. destruct (Hback j jp n Hj Ho) as (? & ? & ?). destruct (Hback k kp n Hk Ho') as (? & ? & ?).
    by eapply (b_disj _ _ _ B).
Qed.

Lemma finish_spec s d fs : holds s ((T_DIR, d) :: fs) -> Z.of_nat (length d) mod BSIZEz <> 0 ->
  let z := Z.to_nat ((Z.of_nat (length d) / BSIZEz + 1) * BSIZEz - Z.of_nat (length d)) in
  exists s', finish ROOTINO s = Ret s' tt /\ image (img s') ((T_DIR, d ++ replicate z 0) :: fs) (blocks ((T_DIR, d) :: fs)).
Proof.
  intros (V & ips & B & Hfs & HL) Hm z. destruct ips as [|ip ips]; [done|]. cbn [fmap list_fmap] in Hfs. injection Hfs as Ht Hc Hfs.
  assert (blocks ((T_DIR, d) :: fs) = freeblock s) as ->.
  { rewrite <- (built_blocks s V (ip :: ips) B). cbn [fmap list_fmap]. unfold abstract at 1. by rewrite Ht, Hc, Hfs. }
  pose proof (b_ips _ _ _ B 0%nat ip eq_refl) as [N HF Hty HT Hz Hdk]. pose proof (b_view _ _ _ B) as HV.
  pose proof (ino_inum _ _ _ 0%nat ip B eq_refl) as Hn. change (Z.of_nat 0 + 1) with ROOTINO in N. rewrite <- N.
  assert (Z.of_nat (length d) = isize ip) as El by (rewrite <- Hc, content_length; pose proof (fo_size _ _ _ HF); lia).
  rewrite El in *. set (sz := (isize ip / BSIZEz + 1) * BSIZEz) in *.
  destruct (round_root V ip sz HF HT Hz eq_refl Hm) as [HF1 Hc1]. pose proof (fo_size _ _ _ HF1) as Hs1. cbn [isize set_isize set_meta] in Hs1.
  unfold finish. mrun (rinode_run s V _ HV Hn). rewrite Hdk, (xint_id (isize ip)) by apply Hty. fold sz.
  rewrite u32_small, xint_id by (unfold is_u32, MAXFILE, BSIZEz in *; lia).
  set (ip1 := set_isize sz ip) in *. assert (inum ip1 = inum ip) as En by done. rewrite <- En in Hn |- *.
  destruct (winode_run s V ip1 HV Hn) as (s1 & R1 & HV1 & Hf1 & _). mrun R1. mrun (eq_refl (get s1)).
  pose proof (mv_free _ _ HV1) as Hfr. rewrite i32_small by (unfold FSSIZE in Hfr; change nmeta with 59 in *; lia).
  destruct (balloc_run s1 _ HV1) as (s2 & R2 & _ & HD). exists s2. split; [done|].
  assert (inode_typed ip1) as Hty1 by (destruct Hty; split; try done; cbn; unfold is_u32, MAXFILE, BSIZEz in *; lia).
  destruct (root_stored s V ip ips ip1 B HL HF1 eq_refl Hty1) as (Ha & Hi & Hdj).
  assert ((T_DIR, d ++ replicate z 0) :: fs = abstract V ip1 :: (abstract V <$> ips)) as ->.
  { rewrite Hfs. unfold abstract. rewrite Hc1, Hc. unfold z. rewrite ?El. fold sz. f_equal. f_equal. by rewrite <- Ht. }
  rewrite <- Ha. assert (forall n, 0 <= n < 32 -> inode_view (sb := super) V ip1 n = V n) as Hsys by (intros n ?; apply inode_view_other; [done|lia]).
  apply image_of; try done; [apply HV1| | |].
  - rewrite Hsys by lia. rewrite (b_sys _ _ _ B) by done. done.
  - intros n Hn'. change (sb_inodestart super) with 32 in Hn'. rewrite Hsys by lia. rewrite (b_sys _ _ _ B) by (change (sb_inodestart super) with 32; lia).
    by rewrite decide_False by lia.
  - intros b Hb. rewrite (mv_used s1) by done. by rewrite Hf1.
Qed.

(** ** The root directory *)

(** The inode number of a name: the first argument with that name. *)
Fixpoint entry_of (n : Z) (args : list arg) (name : list Z) : option Z :=
  match args with
  | [] => None
  | a :: args => if bool_decide (pad DIRSIZ name = pad DIRSIZ (fname a)) then Some n else entry_of (n + 1) args name
  end.
Definition root_lookup (args : list arg) (name : list Z) : option Z :=
  if bool_decide (pad DIRSIZ name = pad DIRSIZ [46]) then Some ROOTINO
  else if bool_decide (pad DIRSIZ name = pad DIRSIZ [46; 46]) then Some ROOTINO
  else entry_of 2 args name.

Lemma dirent_fields n name : 0 <= n < 2 ^ 16 -> de_inum (dirent n name) = n /\ de_name (dirent n name) = pad DIRSIZ name.
Proof.
  intros Hn. unfold dirent. replace (xshort n) with n; [by apply mk_dirent_fields|].
  unfold xshort. rewrite le_val_bytes. symmetry. by apply Z.mod_small.
Qed.

Lemma dir_inum_cons n nm rest name : 0 < n < 2 ^ 16 ->
  dir_inum (dirent n nm ++ rest) name =
  if bool_decide (pad DIRSIZ name = pad DIRSIZ nm) then Some n else dir_inum rest name.
Proof.
  intros Hn. unfold dir_inum. rewrite (ents_app _ _ 1) by (by rewrite dirent_len).
  assert (ents (dirent n nm) = [dirent n nm]) as ->.
  { unfold ents. rewrite dirent_len. change (seq 0 (16 / 16)) with [0%nat]. cbn [fmap list_fmap]. f_equal. unfold dirent_at, sub_bytes.
    rewrite drop_0. apply take_ge. by rewrite dirent_len. }
  destruct (dirent_fields n nm) as [E1 E2]; [lia|]. cbn [app dir_find]. unfold matches. rewrite E1, E2, pad_pad.
  rewrite (proj2 (Z.eqb_neq _ _)) by lia. cbn [negb andb]. case_bool_decide; [done|]. apply dir_find_shift.
Qed.

Lemma dir_inum_zeros z name : dir_inum (replicate z 0) name = None.
Proof.
  unfold dir_inum. assert (forall es j, Forall (fun de => de_inum de = 0) es -> dir_find name es j = None) as H.
  { induction es as [|de es IH]; intros j Hes; [done|]. apply Forall_cons in Hes as [E Hes]. cbn [dir_find]. unfold matches. rewrite E. by apply IH. }
  rewrite H; [done|]. apply Forall_forall. intros de (j & -> & _)%list_elem_of_fmap. unfold de_inum, rd16, rd, dirent_at, sub_bytes.
  rewrite drop_replicate, take_replicate, drop_replicate, take_replicate. induction (2 `min` _)%nat as [|m IH]; [done|]. cbn [replicate le_val]. by rewrite IH.
Qed.

Lemma dents_lookup args n rest name : 0 < n -> n + Z.of_nat (length args) < 2 ^ 16 -> dir_inum rest name = None ->
  dir_inum (dents n args ++ rest) name = entry_of n args name.
Proof.
  revert n. induction args as [|a args IH]; intros n Hn Hl Hr; cbn [dents entry_of app length] in *; [done|].
  rewrite <- app_assoc, dir_inum_cons by lia. case_bool_decide; [done|]. apply IH; [lia|lia|done].
Qed.

Lemma root_entries_lookup args z name : Z.of_nat (length args) + 1 < NINODES ->
  dir_inum (root_entries args ++ replicate z 0) name = root_lookup args name.
Proof.
  intros Hl. unfold NINODES in Hl. unfold root_entries, root_lookup. rewrite <- !app_assoc, !dir_inum_cons by lia.
  rewrite dents_lookup; [done|lia|lia|apply dir_inum_zeros].
Qed.

(** ** The theorems *)

(** What fits on the disk: names without slashes, files that can be opened
    and are not too large, enough inodes and blocks; and the entries of the
    root directory do not end with a block. *)
Definition args_ok (args : list arg) : Prop :=
  Forall arg_ok args /\ Z.of_nat (length args) + 1 < NINODES /\ blocks (tree args) <= FSSIZE /\
  (Z.of_nat (length args) + 2) mod 32 <> 0.

Lemma mkfs_law args : args_ok args -> exists s z, main args mkfs0 = Ret s tt /\
  image (img s) ((T_DIR, root_entries args ++ replicate z 0) :: files args) (blocks (tree args)).
Proof.
  intros (Ha & Hn & Hb & Hm). destruct (main_populates args Ha Hn Hb) as (s & R & H).
  destruct (finish_spec s _ _ H) as (s' & R' & H').
  - rewrite root_entries_length. unfold BSIZEz. replace (Z.of_nat (16 * (length args + 2))) with (16 * (Z.of_nat (length args) + 2)) by lia.
    change 512 with (16 * 32). rewrite Z.mul_mod_distr_l by lia. lia.
  - eexists s', _. rewrite R. by split.
Qed.

(** C22: for files that [args_ok] admits, which leaves out more files than
    inodes and root directories that fill their blocks exactly, mkfs returns, and the image is a file system: the superblock describes
    the layout that fs.c expects, the log is empty, the bitmap has exactly the
    allocated blocks, every inode number has a dinode whose file has the bytes
    that were read, no two files share a block, and the root directory maps
    each name to the inode of the first file of that name. *)
Theorem mkfs_image args : args_ok args -> exists s d, main args mkfs0 = Ret s tt /\
  image (img s) ((T_DIR, d) :: files args) (blocks (tree args)) /\
  fs_geom (mk_txc (img s) [] 0 0 2 nlog) super /\ forall name, dir_inum d name = root_lookup args name.
Proof.
  intros Ha. destruct (mkfs_law args Ha) as (s & z & R & Him). exists s, (root_entries args ++ replicate z 0).
  split_and!; [done|done|apply super_geom, Him|]. intros name. apply root_entries_lookup, Ha.
Qed.

(** Two files, "_a" of two blocks and "b" of no bytes. *)
Definition ex_args : list arg := [mk_arg [95; 97] (Some [replicate 512 7; [1; 2; 3]]); mk_arg [98] (Some [])].
Lemma ex_args_ok : args_ok ex_args.
Proof.
  split_and!; [|by vm_compute|by vm_compute|by vm_compute].
  apply Forall_cons. split; [|apply Forall_singleton].
  all: split_and!; [apply (bool_decide_unpack _); vm_compute; exact I|discriminate|apply Nat.leb_le; vm_compute; reflexivity].
Qed.

Lemma mkfs_image_witness : exists s d, main ex_args mkfs0 = Ret s tt /\
  image (img s) [(T_DIR, d); (T_FILE, replicate 512 7 ++ [1; 2; 3]); (T_FILE, [])] 62 /\
  dir_inum d [97] = Some 2 /\ dir_inum d [98] = Some 3.
Proof.
  destruct (mkfs_image ex_args ex_args_ok) as (s & d & R & H & _ & Hd). exists s, d. split; [exact R|].
  split; [exact H|]. split; [rewrite Hd; reflexivity|rewrite Hd; reflexivity].
Defined.

(** ** Booting from the image *)

Definition mkfs_log : log := mk_log 2 nlog 0 0 ROOTDEV 0 (replicate LOGSIZE 0).
Lemma mkfs_log_geom : log_geom mkfs_log.
Proof. by split. Qed.

Section boot.
Context `{BlockDriver}.

Lemma image_recoverable D fs top : image D fs top -> recoverable mkfs_log D (disk_read D).
Proof.
  intros Him. split_and!; [exact (im_length _ _ _ Him)| |].
  - unfold sb_ok. rewrite (im_super _ _ _ Him). by vm_compute.
  - exists []. split_and!; [|apply header_nil, mkfs_log_geom|done].
    change (lstart mkfs_log) with 2. rewrite (im_log _ _ _ Him) by (by vm_compute). by split; vm_compute.
Qed.

(** After a boot the first transaction sees the image. *)
Lemma image_boots D fs top : image D fs top -> exists l0 l1 c V, recover D = Ret l0 tt /\ begin_op l0 = Ret l1 tt /\
  tx c l1 ∅ [] V /\ fs_geom c super /\ forall n, 0 <= n < 2 \/ 32 <= n -> V n = disk_read D n.
Proof.
  intros Him. pose proof (image_recoverable D fs top Him) as Hrec.
  destruct (recover_recoverable mkfs_log D _ mkfs_log_geom Hrec) as ([l b] & R & Hinv & E1 & E2 & HV & _).
  destruct (recover_idle mkfs_log D _ _ mkfs_log_geom Hrec R) as [Eo Ec]. cbn [lg bio] in *.
  set (l1 := set_outstanding 1 l). assert (log_inv (mk_ls l1 b) ∅ []) as Hi1 by (by apply (log_inv_counts l)).
  pose proof (li_mem _ _ _ Hinv) as [En _]. cbn in En.
  exists (mk_ls l b), (mk_ls l1 b), (mk_txc (dsk b) (trace b) 1 (committing l) (lstart l) (lsize l)), (blk b).
  assert (tx (mk_txc (dsk b) (trace b) 1 (committing l) (lstart l) (lsize l)) (mk_ls l1 b) ∅ [] (blk b)) as HT by (by split).
  assert (forall n, 0 <= n < 2 \/ 32 <= n -> blk b n = disk_read D n) as HV'.
  { intros n Hn. apply HV. unfold in_log, mkfs_log, nlog, LOGSIZE. cbn. lia. }
  split_and!; [done| |done| |done].
  - unfold begin_op. mrun (getlog_ret (mk_ls l b)). cbn [lg]. rewrite Ec, Eo, En. reflexivity.
  - assert (disk_read (dsk b) 1 = super_block) as Hd.
    { rewrite <- (im_super _ _ _ Him), <- HV' by lia. symmetry.
      exact (tx_clean _ _ _ _ _ 1 HT (not_elem_of_nil _) (lookup_empty _)). }
    destruct (super_geom (dsk b) Hd) as [G1 G2 G3 G4 G5 G6 G7 G8].
    split; cbn [c_dsk c_start c_size] in *; rewrite ?E1, ?E2; assumption.
Qed.

(** C23: the kernel booted from the image finds the files: with any disk driver
    that fulfils its contract, after [initlog] and [begin_op] the [ilock] of
    the inode that the root directory names, and [readi], return the bytes
    that mkfs read. *)
Theorem mkfs_boot_read args k a devsw cache i jp off n : args_ok args -> args !! k = Some a ->
  cache !! i = Some jp -> idev jp = ROOTDEV -> inum jp = Z.of_nat k + 2 -> 0 < iref jp -> iflags jp = 0 ->
  0 <= off <= Z.of_nat (length (fdata a)) -> 0 <= n < 2 ^ 31 ->
  exists s l0 l1 st, main args mkfs0 = Ret s tt /\ recover (img s) = Ret l0 tt /\ begin_op l0 = Ret l1 tt /\
    let m := Z.min n (Z.of_nat (length (fdata a)) - off) in
    (ilock i ;;; readi devsw i off n) (mk_fs super cache l1) =
      Ret st (m, sub_bytes (fdata a) (Z.to_nat off) (Z.to_nat m)).
Proof.
  intros Ha Hk Hi Hdev Hnum Href Hfl Hoff Hn. destruct (mkfs_law args Ha) as (s & z & R & Him).
  destruct (image_boots _ _ _ Him) as (l0 & l1 & c & V & R0 & R1 & HT & HG & HV). exists s, l0, l1.
  destruct (im_inodes _ _ _ Him) as (ips & Hfs & Hips & _).
  assert (exists ip, ips !! S k = Some ip /\ abstract (disk_read (img s)) ip = (T_FILE, fdata a)) as (ip & Hip & Hab).
  { assert ((abstract (disk_read (img s)) <$> ips) !! S k = Some (T_FILE, fdata a)) as E.
    { rewrite Hfs. change (files args !! k = Some (T_FILE, fdata a)). unfold files. by rewrite list_lookup_fmap, Hk. }
    rewrite list_lookup_fmap in E. destruct (ips !! S k) as [ip|]; [|done]. exists ip. split; [done|]. by apply (inj Some) in E. }
  destruct (Hips _ _ Hip) as (Hin & HF & _ & Hdk). injection Hab as Hty Hc.
  assert (inum ip = inum jp) as En by lia. pose proof (lookup_lt_Some _ _ _ Hk) as Hlt. destruct Ha as (_ & Hfew & _).
  assert (0 <= inum jp < NINODES) as Hr by lia. pose proof (iblock_range _ Hr) as Hb.
  set (jp' := set_iflags (Z.lor I_BUSY I_VALID) (dec_dinode (V (IBLOCK (inum jp) super)) (dinode_off (inum jp)) jp)).
  assert (jp' = set_id ROOTDEV (inum jp) (iref jp) (Z.lor I_BUSY I_VALID) ip) as Ej.
  { unfold jp'. rewrite HV by lia. rewrite <- Hdk, <- En. unfold set_id, set_iflags, dec_dinode, set_meta. cbn. by rewrite Hdev, En. }
  destruct (ilock_fresh HG (mk_fs super cache l1) i jp [] V HT eq_refl Hi Hdev Hr Href Hfl) as (l2 & R2 & HT2); [fold jp'; rewrite Ej; cbn; by rewrite Hty|].
  fold jp' in R2. mrun R2. destruct (file_frame super (disk_read (img s)) V ip HF) as (HF' & Hbk & Hy).
  { intros b [Hd _]%(owns_data _ _ _ HF). apply HV. unfold is_data in Hd. change (sb_bmapstart super) with 58 in Hd. lia. }
  { intros b _. unfold used. rewrite HV; [done|]. change (sb_bmapstart super) with 58. lia. }
  assert (file_ok super V jp') as HFj by (rewrite Ej; destruct HF'; by split).
  assert (content V jp' = fdata a) as Hcj by (rewrite Ej, <- Hc; change (content V ip = content (disk_read (img s)) ip); by eapply content_same).
  assert (isize jp' = Z.of_nat (length (fdata a))) as Hsz by (rewrite <- Hcj, content_length; pose proof (fo_size _ _ _ HFj); lia).
  pose proof (readi_law HG devsw (with_ip (mk_fs super cache l1) i jp' l2) i jp' [] V off n HT2) as Hread.
  pose proof (fo_size _ _ _ HFj) as Hmax. unfold MAXFILE, BSIZEz in Hmax.
  rewrite decide_True in Hread by (rewrite Hsz in *; lia). destruct Hread as (l3 & R3 & _);
    [by eapply with_ip_lookup|done|unfold is_u32; lia|unfold is_u32; lia|].
  rewrite Hsz, Hcj in R3. eexists. split_and!; [exact R|exact R0|exact R1|exact R3].
Qed.
End boot.

Definition ex_cache : list inode := [set_id ROOTDEV 2 1 0 (din0 2)].

Lemma mkfs_boot_read_witness : exists s l0 l1 st, main ex_args mkfs0 = Ret s tt /\
  @recover mem_driver (img s) = Ret l0 tt /\ begin_op l0 = Ret l1 tt /\
  (@ilock mem_driver 0 ;;; @readi mem_driver [] 0 511 100) (mk_fs super ex_cache l1) = Ret st (4, [7; 1; 2; 3]).
Proof.
  exact (@mkfs_boot_read mem_driver ex_args 0 (mk_arg [95; 97] (Some [replicate 512 7; [1; 2; 3]])) [] ex_cache 0 (set_id ROOTDEV 2 1 0 (din0 2)) 511 100
    ex_args_ok eq_refl eq_refl eq_refl eq_refl eq_refl eq_refl ltac:(split; by vm_compute) ltac:(lia)).
Defined.

(** ** What mkfs does not check *)

Definition result (m : M mkfs unit) : option mkfs := match m mkfs0 with Ret s _ => Some s | _ => None end.
Definition dinode_of (s : mkfs) (n : Z) : inode := dec_dinode (disk_read (img s) (IBLOCK n super)) (dinode_off n) (din0 n).

(** When the entries of the root directory fill its blocks, the rounding adds
    a whole block to the size, which the directory does not have. *)
Theorem mkfs_root_hole : (fun s => (isize (dinode_of s 1), addrs (dinode_of s 1) !!! 1%nat)) <$>
  result (main (replicate 30 (mk_arg [120] (Some [])))) = Some (1024, 0).
Proof. by vm_compute. Qed.

(** With 207 files the last dinode is in the bitmap's block and is lost. *)
Theorem mkfs_inode_overflow : (fun s => (IBLOCK 208 super =? sb_bmapstart super, itype (dinode_of s 208))) <$>
  result (main (replicate 207 (mk_arg [120] (Some [])))) = Some (true, -1).
Proof. by vm_compute. Qed.
