(* ===== verification/Pipe.v ===== *)
(** * Pipe: the ring buffer of a pipe (pipe.c)

    [pipewrite], [piperead] and the open flags of [pipeclose] on [struct pipe].
    A call that has to sleep is one that stops with the number of bytes it has
    transferred; called again with that number it goes on where it slept.  The
    theorems relate the buffer with its wrapping counters to a bounded queue,
    and show for any interleaving of readers, writers and closes that bytes
    arrive once and in order and that nobody sleeps on a condition that holds. *)
From stdpp Require Import base numbers list gmap strings.
From Stdlib Require Import ZArith Lia.
From S2P Require Import Prelude.

Local Open Scope Z_scope.

Definition PIPESIZE : Z := 512.

Record pipe := mk_pipe {
  pdata : list Z;
  nread : Z;
  nwrite : Z;
  readopen : Z;
  writeopen : Z
}.
Definition set_ends (r w : Z) (p : pipe) : pipe := mk_pipe (pdata p) (nread p) (nwrite p) r w.

(** The pipe and the channels [wakeup] was called on, latest first. *)
Record pst := mk_pst { pp : pipe; pwoken : list chan }.
Definition upd_pipe (f : pipe -> pipe) : M pst unit := modify (fun s => mk_pst (f (pp s)) (pwoken s)).
Definition pwakeup (c : chan) : M pst unit := modify (fun s => mk_pst (pp s) (c :: pwoken s)).

(** [p->data[p->nwrite++ % PIPESIZE] = c] *)
Definition put (c : Z) (p : pipe) : pipe :=
  mk_pipe (<[Z.to_nat (nwrite p mod PIPESIZE) := c]> (pdata p)) (nread p) (u32 (nwrite p + 1)) (readopen p) (writeopen p).
(** [p->data[p->nread++ % PIPESIZE]] *)
Definition next (p : pipe) : Z := pdata p !!! Z.to_nat (nread p mod PIPESIZE).
Definition advance (p : pipe) : pipe :=
  mk_pipe (pdata p) (u32 (nread p + 1)) (nwrite p) (readopen p) (writeopen p).

Definition full (p : pipe) : bool := nwrite p =? u32 (nread p + PIPESIZE).
Definition empty (p : pipe) : bool := nread p =? nwrite p.

(** The value of the call, or the number of bytes after which it sleeps. *)
Inductive answer := Done (r : Z) | Asleep (i : nat).

Section pipe.
(** The address of the pipe and [proc->killed]. *)
Context (a : Z) (killed : bool).

(** [pipewrite] from byte [i] on: [rest] is left of the [n] bytes at [addr]. *)
Fixpoint pipewrite_from (n : Z) (i : nat) (rest : list Z) : M pst answer :=
  match rest with
  | [] => pwakeup (ChPipeRead a) ;;; ret (Done n)
  | c :: rest =>
      let* p := gets pp in
      if full p then
        if (readopen p =? 0) || killed then ret (Done (-1))
        else pwakeup (ChPipeRead a) ;;; ret (Asleep i)
      else upd_pipe (put c) ;;; pipewrite_from n (S i) rest
  end.
Definition pipewrite (addr : list Z) (i : nat) : M pst answer :=
  pipewrite_from (Z.of_nat (length addr)) i (drop i addr).

(** The copy loop of [piperead]: at most [n] bytes. *)
Fixpoint piperead_copy (n : nat) : M pst (list Z) :=
  match n with
  | O => ret []
  | S n =>
      let* p := gets pp in
      if empty p then ret []
      else upd_pipe advance ;;; let* l := piperead_copy n in ret (next p :: l)
  end.
Definition piperead (n : Z) : M pst (answer * list Z) :=
  let* p := gets pp in
  if empty p && negb (writeopen p =? 0) then
    if killed then ret (Done (-1), []) else ret (Asleep 0, [])
  else
    let* l := piperead_copy (Z.to_nat n) in
    pwakeup (ChPipeWrite a) ;;;
    ret (Done (Z.of_nat (length l)), l).

(** [pipeclose]; the result says whether the pipe is to be freed. *)
Definition pipeclose (writable : bool) : M pst bool :=
  (if writable then upd_pipe (fun p => set_ends (readopen p) 0 p) ;;; pwakeup (ChPipeRead a)
   else upd_pipe (fun p => set_ends 0 (writeopen p) p) ;;; pwakeup (ChPipeWrite a)) ;;;
  let* p := gets pp in
  ret ((readopen p =? 0) && (writeopen p =? 0)).
End pipe.

(** What [pipealloc] makes of a page. *)
Definition new_pipe (d : list Z) : pipe := mk_pipe d 0 0 1 1.

(** ** The abstract queue *)

Definition qlen (p : pipe) : Z := u32 (nwrite p - nread p).
Definition slot (p : pipe) (j : nat) : nat := Z.to_nat (u32 (nread p + Z.of_nat j) mod PIPESIZE).
Definition queue (p : pipe) : list Z := (fun j => pdata p !!! slot p j) <$> seq 0 (Z.to_nat (qlen p)).

Record pipe_ok (p : pipe) : Prop := {
  po_len : length (pdata p) = Z.to_nat PIPESIZE;
  po_read : is_u32 (nread p);
  po_write : is_u32 (nwrite p);
  po_fill : qlen p <= PIPESIZE
}.

Lemma u32_mod x : u32 x mod PIPESIZE = x mod PIPESIZE.
Proof. unfold u32, PIPESIZE. apply Z.mod_mod_divide. by exists (2 ^ 23). Qed.

Lemma slot_mod p j : slot p j = Z.to_nat ((nread p + Z.of_nat j) mod PIPESIZE).
Proof. unfold slot. by rewrite u32_mod. Qed.

Lemma slot_inj p i j : Z.of_nat i < PIPESIZE -> Z.of_nat j < PIPESIZE -> slot p i = slot p j -> i = j.
Proof.
  rewrite !slot_mod. unfold PIPESIZE. intros Hi Hj E.
  pose proof (Z.mod_pos_bound (nread p + Z.of_nat i) 512). pose proof (Z.mod_pos_bound (nread p + Z.of_nat j) 512).
  pose proof (Z.div_mod (nread p + Z.of_nat i) 512). pose proof (Z.div_mod (nread p + Z.of_nat j) 512). lia.
Qed.

Lemma queue_length p : length (queue p) = Z.to_nat (qlen p).
Proof. unfold queue. by rewrite length_fmap, length_seq. Qed.

Lemma u32_sub_zero x y : is_u32 x -> is_u32 y -> u32 (x - y) = 0 <-> x = y.
Proof.
  unfold is_u32, u32. intros Hx Hy. split; [|intros ->; by rewrite Z.sub_diag].
  intros E. apply Z.mod_divide in E as [k E]; [|done]. nia.
Qed.

Lemma full_qlen p : pipe_ok p -> full p = bool_decide (qlen p = PIPESIZE).
Proof.
  intros [_ Hr Hw _]. unfold full, qlen, u32, is_u32, PIPESIZE in *.
  apply eq_true_iff_eq. rewrite Z.eqb_eq, bool_decide_eq_true. split.
  - intros ->. rewrite Zminus_mod_idemp_l. replace (nread p + 512 - nread p) with 512 by lia. done.
  - intros E. rewrite <- E, Zplus_mod_idemp_r. replace (nread p + (nwrite p - nread p)) with (nwrite p) by lia.
    symmetry. by apply Z.mod_small.
Qed.

Lemma empty_qlen p : pipe_ok p -> empty p = bool_decide (qlen p = 0).
Proof.
  intros [_ Hr Hw _]. unfold empty, qlen. apply eq_true_iff_eq. rewrite Z.eqb_eq, bool_decide_eq_true, u32_sub_zero by done. done.
Qed.

Lemma put_law p c : pipe_ok p -> qlen p < PIPESIZE -> pipe_ok (put c p) /\ queue (put c p) = queue p ++ [c].
Proof.
  intros HP Hq. pose proof (u32_range (nwrite p - nread p)) as Hr. fold (qlen p) in Hr. destruct HP as [Hl Hr' Hw Hf].
  assert (qlen (put c p) = qlen p + 1) as Hq'.
  { unfold qlen, put. cbn. unfold u32 in *. rewrite Zminus_mod_idemp_l.
    replace (nwrite p + 1 - nread p) with (nwrite p - nread p + 1) by lia.
    rewrite <- Zplus_mod_idemp_l. fold (u32 (nwrite p - nread p)). fold (qlen p). unfold PIPESIZE, is_u32 in *. apply Z.mod_small. lia. }
  assert (slot p (Z.to_nat (qlen p)) = Z.to_nat (nwrite p mod PIPESIZE)) as Hs.
  { rewrite slot_mod, Z2Nat.id by apply Hr. f_equal. unfold qlen.
    rewrite <- Zplus_mod_idemp_r, u32_mod, Zplus_mod_idemp_r. f_equal. lia. }
  split.
  - split; [cbn; by rewrite length_insert|done|apply u32_range|lia].
  - unfold queue. rewrite Hq'. unfold is_u32 in Hr. rewrite Z2Nat.inj_add by lia. change (Z.to_nat 1) with 1%nat.
    rewrite seq_app, fmap_app. cbn [Nat.add seq fmap list_fmap]. f_equal.
    + apply list_fmap_ext. intros i j [-> Hj]%lookup_seq. change (slot (put c p)) with (slot p).
      unfold put. cbn [pdata]. rewrite list_lookup_total_insert_ne; [done|]. rewrite <- Hs. intros E%slot_inj; lia.
    + change (slot (put c p)) with (slot p). rewrite Hs. cbn [pdata put]. f_equal. apply list_lookup_total_insert_eq.
      rewrite Hl. pose proof (Z.mod_pos_bound (nwrite p) PIPESIZE). unfold PIPESIZE in *. lia.
Qed.

Lemma advance_law p : pipe_ok p -> qlen p <> 0 -> pipe_ok (advance p) /\ queue p = next p :: queue (advance p).
Proof.
  intros HP Hq. pose proof (u32_range (nwrite p - nread p)) as Hr. fold (qlen p) in Hr. destruct HP as [Hl Hr' Hw Hf].
  assert (qlen (advance p) = qlen p - 1) as Hq'.
  { unfold qlen, advance. cbn. unfold u32 in *. rewrite Zminus_mod_idemp_r.
    replace (nwrite p - (nread p + 1)) with (nwrite p - nread p - 1) by lia.
    rewrite <- Zminus_mod_idemp_l. fold (u32 (nwrite p - nread p)). fold (qlen p). unfold PIPESIZE, is_u32 in *. apply Z.mod_small. lia. }
  unfold is_u32 in Hr. split.
  - split; [done|apply u32_range|done|lia].
  - unfold queue. rewrite Hq'. replace (Z.to_nat (qlen p)) with (S (Z.to_nat (qlen p - 1))) by lia.
    rewrite <- cons_seq. cbn [fmap list_fmap]. f_equal.
    + unfold next. rewrite slot_mod. do 3 f_equal. lia.
    + rewrite <- fmap_S_seq, <- list_fmap_compose. apply list_fmap_ext. intros i j [-> Hj]%lookup_seq. cbn [compose advance pdata].
      f_equal. rewrite !slot_mod. cbn [nread advance]. f_equal.
      rewrite <- (Zplus_mod_idemp_l (u32 _)), u32_mod, Zplus_mod_idemp_l. f_equal. lia.
Qed.

Lemma qlen_range p : 0 <= qlen p.
Proof. apply u32_range. Qed.

Definition same_ends (p q : pipe) : Prop := readopen q = readopen p /\ writeopen q = writeopen p.

(** [pipewrite] appends what fits; short of the end it fails or sleeps, after
    waking the readers in the latter case only. *)
Lemma pipewrite_from_law a killed n i rest s :
  pipe_ok (pp s) ->
  exists s' ans k, pipewrite_from a killed n i rest s = Ret s' ans /\ pipe_ok (pp s') /\ same_ends (pp s) (pp s') /\
    (k <= length rest)%nat /\ nwrite (pp s') = u32 (nwrite (pp s) + Z.of_nat k) /\
    queue (pp s') = queue (pp s) ++ take k rest /\
    if decide (k = length rest) then ans = Done n /\ pwoken s' = ChPipeRead a :: pwoken s
    else qlen (pp s') = PIPESIZE /\
      if (readopen (pp s) =? 0) || killed then ans = Done (-1) /\ pwoken s' = pwoken s
      else ans = Asleep (i + k) /\ pwoken s' = ChPipeRead a :: pwoken s.
Proof.
  revert i s. induction rest as [|c rest IH]; intros i s HP; cbn [pipewrite_from].
  - eexists _, (Done n), 0%nat. split; [reflexivity|]. cbn. rewrite app_nil_r, Z.add_0_r.
    split_and!; try done. symmetry. apply u32_small, HP.
  - rewrite gets_bind, full_qlen by done. case_bool_decide as Hf.
    + exists (if (readopen (pp s) =? 0) || killed then s else mk_pst (pp s) (ChPipeRead a :: pwoken s)).
      exists (if (readopen (pp s) =? 0) || killed then Done (-1) else Asleep i), 0%nat.
      rewrite decide_False by (cbn; lia). rewrite Nat.add_0_r.
      destruct (_ || _); cbn; rewrite app_nil_r, Z.add_0_r, u32_small by apply HP; split_and!; try done; lia.
    + pose proof (po_fill _ HP) as Hfill. destruct (put_law (pp s) c HP) as [HP' HQ]; [lia|].
      destruct (IH (S i) (mk_pst (put c (pp s)) (pwoken s)) HP') as (s' & ans & k & R & HP2 & [E1 E2] & Hk & Hw & Hq & Hans).
      exists s', ans, (S k). cbn in E1, E2, Hw, Hq, Hans. split; [by rewrite <- R|]. split; [done|]. split; [done|].
      split; [cbn; lia|]. split.
      { rewrite Hw. unfold u32. rewrite Zplus_mod_idemp_l. f_equal. lia. }
      split; [rewrite Hq, HQ, <- app_assoc; done|]. cbn [length].
      destruct (decide (k = length rest)); [rewrite decide_True by lia; done|rewrite decide_False by lia].
      by rewrite Nat.add_succ_r.
Qed.

Lemma piperead_copy_law n s :
  pipe_ok (pp s) ->
  exists s' l, piperead_copy n s = Ret s' l /\ pipe_ok (pp s') /\ same_ends (pp s) (pp s') /\
    nwrite (pp s') = nwrite (pp s) /\ queue (pp s) = l ++ queue (pp s') /\
    length l = Nat.min n (length (queue (pp s))) /\ pwoken s' = pwoken s.
Proof.
  revert s. induction n as [|n IH]; intros s HP; cbn [piperead_copy].
  - exists s, []. done.
  - rewrite gets_bind, empty_qlen by done. case_bool_decide as He.
    + exists s, []. rewrite queue_length, He. split_and!; done.
    + destruct (advance_law (pp s) HP He) as [HP' HQ].
      destruct (IH (mk_pst (advance (pp s)) (pwoken s)) HP') as (s' & l & R & HP2 & [E1 E2] & Hw & Hq & Hl & Hk).
      exists s', (next (pp s) :: l). cbn in *. split.
      { rewrite (bind_ret _ _ _ _ _ R). done. }
      split_and!; try done; [by rewrite HQ, Hq|]. rewrite HQ. cbn. by rewrite Hl.
Qed.

Lemma piperead_law a killed n s :
  pipe_ok (pp s) -> 0 <= n ->
  exists s' ans l, piperead a killed n s = Ret s' (ans, l) /\ pipe_ok (pp s') /\ same_ends (pp s) (pp s') /\
    nwrite (pp s') = nwrite (pp s) /\ queue (pp s) = l ++ queue (pp s') /\
    if decide (queue (pp s) = [] /\ writeopen (pp s) <> 0)
    then s' = s /\ l = [] /\ ans = if killed then Done (-1) else Asleep 0
    else ans = Done (Z.of_nat (length l)) /\ Z.of_nat (length l) = Z.min n (Z.of_nat (length (queue (pp s)))) /\
      pwoken s' = ChPipeWrite a :: pwoken s.
Proof.
  intros HP Hn. unfold piperead. rewrite gets_bind, empty_qlen by done.
  assert (queue (pp s) = [] <-> qlen (pp s) = 0) as Hq0.
  { pose proof (qlen_range (pp s)). rewrite <- length_zero_iff_nil, queue_length. lia. }
  destruct (decide (queue (pp s) = [] /\ writeopen (pp s) <> 0)) as [[H1 H2]|Hno].
  - rewrite bool_decide_true by (by apply Hq0). rewrite (proj2 (Z.eqb_neq _ _)) by done. cbn [andb negb].
    exists s, (if killed then Done (-1) else Asleep 0), []. destruct killed; done.
  - assert (bool_decide (qlen (pp s) = 0) && negb (writeopen (pp s) =? 0) = false) as ->.
    { apply andb_false_iff. case_bool_decide as E; [right|by left]. apply negb_false_iff, Z.eqb_eq.
      destruct (decide (writeopen (pp s) = 0)); [done|]. exfalso. apply Hno. split; [by apply Hq0|done]. }
    destruct (piperead_copy_law (Z.to_nat n) s HP) as (s' & l & R & HP2 & HE & Hw & Hq & Hl & Hk).
    eexists _, _, l. split; [mrun R; reflexivity|]. cbn. split_and!; try done; [rewrite Hl; lia|by rewrite Hk].
Qed.

(** ** Readers and writers

    The pipe, the bytes its writers put in and its readers took out so far,
    and the processes asleep in [piperead] and in [pipewrite]. *)
Record world := mk_world {
  wp : pipe; sent : list Z; recv : list Z; rsleep : gset nat; wsleep : gset nat
}.

(** The sleepers left after the wakeups [wk]. *)
Definition left_asleep (c : chan) (wk : list chan) (T : gset nat) : gset nat := if decide (c ∈ wk) then ∅ else T.
Definition sleeper (t : nat) (ans : answer) : gset nat := match ans with Asleep _ => {[t]} | Done _ => ∅ end.
(** The bytes a call put in. *)
Definition accepted (p p' : pipe) : nat := Z.to_nat (u32 (nwrite p' - nwrite p)).

Section world.
(** [K]: processes may be killed while they write. *)
Context (a : Z) (K : Prop).

Inductive pipe_step : world -> world -> Prop :=
| step_write w t killed addr i s' ans :
    t ∉ (rsleep w ∪ wsleep w) -> writeopen (wp w) <> 0 -> (killed = true -> K) ->
    pipewrite a killed addr i (mk_pst (wp w) []) = Ret s' ans ->
    pipe_step w (mk_world (pp s') (sent w ++ take (accepted (wp w) (pp s')) (drop i addr)) (recv w)
      (left_asleep (ChPipeRead a) (pwoken s') (rsleep w))
      (sleeper t ans ∪ left_asleep (ChPipeWrite a) (pwoken s') (wsleep w)))
| step_read w t killed n s' ans l :
    t ∉ (rsleep w ∪ wsleep w) -> readopen (wp w) <> 0 -> 0 <= n ->
    piperead a killed n (mk_pst (wp w) []) = Ret s' (ans, l) ->
    pipe_step w (mk_world (pp s') (sent w) (recv w ++ l)
      (sleeper t ans ∪ left_asleep (ChPipeRead a) (pwoken s') (rsleep w))
      (left_asleep (ChPipeWrite a) (pwoken s') (wsleep w)))
| step_close w (writable : bool) s' fr :
    (if writable then wsleep w else rsleep w) = ∅ ->
    pipeclose a writable (mk_pst (wp w) []) = Ret s' fr ->
    pipe_step w (mk_world (pp s') (sent w) (recv w)
      (left_asleep (ChPipeRead a) (pwoken s') (rsleep w)) (left_asleep (ChPipeWrite a) (pwoken s') (wsleep w))).

Definition fresh_world (d : list Z) : world := mk_world (new_pipe d) [] [] ∅ ∅.

Record fifo (w : world) : Prop := { ff_ok : pipe_ok (wp w); ff_bytes : recv w ++ queue (wp w) = sent w }.

Lemma fifo_fresh d : length d = Z.to_nat PIPESIZE -> fifo (fresh_world d).
Proof. intros Hd. split; [|done]. by split; cbn. Qed.

Lemma accepted_eq p p' k : pipe_ok p -> pipe_ok p' -> nwrite p' = u32 (nwrite p + Z.of_nat k) ->
  length (queue p') = (length (queue p) + k)%nat -> accepted p p' = k.
Proof.
  intros HP HP' Hw Hl. rewrite !queue_length in Hl. pose proof (po_fill _ HP'). pose proof (qlen_range p'). pose proof (qlen_range p).
  unfold accepted. rewrite Hw. unfold u32, PIPESIZE in *. rewrite Zminus_mod_idemp_l.
  replace (nwrite p + Z.of_nat k - nwrite p) with (Z.of_nat k) by lia. rewrite Z.mod_small; lia.
Qed.

Lemma fifo_step w w' : fifo w -> pipe_step w w' -> fifo w'.
Proof.
  intros [HP HB] Hst. destruct Hst as [w t killed addr i s' ans _ _ _ R|w t killed n s' ans l _ _ Hn R|w writable s' fr _ R].
  - destruct (pipewrite_from_law a killed (Z.of_nat (length addr)) i (drop i addr) (mk_pst (wp w) []) HP)
      as (s2 & ans2 & k & R2 & HP2 & _ & Hk & Hw & Hq & _).
    unfold pipewrite in R. rewrite R2 in R. injection R as -> ->. cbn in Hw, Hq. split; [done|]. cbn [recv wp sent].
    rewrite (accepted_eq _ _ k); [|done|done|done|rewrite Hq, length_app, length_take; lia].
    by rewrite Hq, app_assoc, HB.
  - destruct (piperead_law a killed n (mk_pst (wp w) []) HP Hn) as (s2 & ans2 & l2 & R2 & HP2 & _ & _ & Hq & _).
    rewrite R2 in R. injection R as -> -> ->. split; [done|]. cbn in Hq |- *. by rewrite <- app_assoc, <- Hq.
  - unfold pipeclose in R. destruct writable; cbn in R; injection R as <- _; split; try done; by destruct HP.
Qed.

(** C28: whatever the interleaving of reads, writes and closes by any number of
    processes, killed ones included, the bytes read so far followed by the
    bytes in the pipe are the bytes written so far: nothing is lost,
    duplicated or reordered, and the counters may wrap around. *)
Theorem pipe_fifo d w :
  length d = Z.to_nat PIPESIZE -> rtc pipe_step (fresh_world d) w ->
  pipe_ok (wp w) /\ recv w ++ queue (wp w) = sent w /\ (length (queue (wp w)) <= Z.to_nat PIPESIZE)%nat.
Proof.
  intros Hd Hr. assert (fifo w) as [HP HB].
  { apply (rtc_ind_r _ _ (fifo_fresh d Hd) (fun x y _ Hs H => fifo_step x y H Hs) w Hr). }
  split_and!; [done|done|]. rewrite queue_length. pose proof (po_fill _ HP). lia.
Qed.
End world.

(** ** Sleepers *)

Definition sleep_ok (p : pipe) (rs ws : gset nat) : Prop :=
  (rs <> ∅ -> queue p = [] /\ writeopen p <> 0 /\ readopen p <> 0) /\
  (ws <> ∅ -> qlen p = PIPESIZE /\ readopen p <> 0).

Lemma not_left c wk T : left_asleep c wk T <> ∅ -> (c ∉ wk) /\ T <> ∅.
Proof. unfold left_asleep. case_decide; done. Qed.

Lemma union_ne (A B : gset nat) : (A ∪ B) <> ∅ -> A <> ∅ \/ B <> ∅.
Proof. intros Hne. destruct (decide (A = ∅)) as [->|]; [right|by left]. by rewrite (left_id_L ∅ (∪)) in Hne. Qed.

Lemma sleepers_write a w t addr i s' ans :
  fifo w -> sleep_ok (wp w) (rsleep w) (wsleep w) -> pipewrite a false addr i (mk_pst (wp w) []) = Ret s' ans ->
  sleep_ok (pp s') (left_asleep (ChPipeRead a) (pwoken s') (rsleep w))
    (sleeper t ans ∪ left_asleep (ChPipeWrite a) (pwoken s') (wsleep w)).
Proof.
  intros [HP _] [HR HW] R.
  destruct (pipewrite_from_law a false (Z.of_nat (length addr)) i (drop i addr) (mk_pst (wp w) []) HP)
    as (s2 & ans2 & k & R2 & HP2 & [E1 E2] & Hk & _ & Hq & Hans).
  unfold pipewrite in R. rewrite R2 in R. injection R as -> ->. cbn in E1, E2, Hq, Hans.
  unfold sleep_ok. rewrite E1, E2. rewrite orb_false_r in Hans. split.
  - intros [Hwk Hrs]%not_left. destruct (HR Hrs) as (_ & _ & Hro). rewrite (proj2 (Z.eqb_neq _ _) Hro) in Hans.
    case_decide; [destruct Hans as [_ E]|destruct Hans as (_ & _ & E)]; rewrite E in Hwk; set_solver.
  - assert (wsleep w <> ∅ -> qlen (pp s') = PIPESIZE /\ readopen (wp w) <> 0) as Hkeep.
    { intros Hws. destruct (HW Hws) as [Hfull Hro]. split; [|done]. pose proof (po_fill _ HP2) as Hf2.
      pose proof (queue_length (pp s')) as Hl. rewrite Hq, length_app, queue_length in Hl. pose proof (qlen_range (pp s')). lia. }
    intros [Hs|[_ Hws]%not_left]%union_ne; [|by apply Hkeep].
    case_decide; [by destruct Hans as [-> _]|]. destruct Hans as [Hfull Hans].
    destruct (Z.eqb_spec (readopen (wp w)) 0); [by destruct Hans as [-> _]|done].
Qed.

Lemma sleepers_read a killed w t n s' ans l :
  fifo w -> sleep_ok (wp w) (rsleep w) (wsleep w) -> 0 <= n -> readopen (wp w) <> 0 ->
  piperead a killed n (mk_pst (wp w) []) = Ret s' (ans, l) ->
  sleep_ok (pp s') (sleeper t ans ∪ left_asleep (ChPipeRead a) (pwoken s') (rsleep w))
    (left_asleep (ChPipeWrite a) (pwoken s') (wsleep w)).
Proof.
  intros [HP _] [HR HW] Hn Hro R.
  destruct (piperead_law a killed n (mk_pst (wp w) []) HP Hn) as (s2 & ans2 & l2 & R2 & HP2 & [E1 E2] & _ & Hq & Hans).
  rewrite R2 in R. injection R as -> -> ->. cbn in E1, E2, Hq, Hans. unfold sleep_ok. rewrite E1, E2. case_decide as Hd.
  - destruct Hans as (-> & _ & ->). cbn [pp]. split; [intros _; destruct Hd; done|]. intros [_ Hws]%not_left. by apply HW.
  - destruct Hans as (-> & Hlen & Hwk). split.
    + intros [Hs|[_ Hrs]%not_left]%union_ne; [done|]. destruct (HR Hrs) as (Hq0 & Hwo & _). exfalso. by apply Hd.
    + intros [Hnk _]%not_left. rewrite Hwk in Hnk. set_solver.
Qed.

Lemma sleepers_step a w w' :
  fifo w -> sleep_ok (wp w) (rsleep w) (wsleep w) -> pipe_step a False w w' ->
  sleep_ok (wp w') (rsleep w') (wsleep w').
Proof.
  intros HF HS Hst. destruct Hst as [w t killed addr i s' ans _ _ HK R|w t killed n s' ans l _ Hro Hn R|w writable s' fr Hno R]; cbn.
  - destruct killed; [by destruct HK|]. by eapply sleepers_write.
  - by eapply sleepers_read.
  - destruct HS as [HR HW]. unfold pipeclose in R. destruct writable; cbn in R; injection R as <- _; split;
      intros [Hk Hne]%not_left; cbn in *; try set_solver.
Qed.

(** C35: no wakeup is lost while nobody is killed: whenever a process is asleep in
    [piperead] the pipe is empty and can still be written, and whenever one is
    asleep in [pipewrite] the pipe is full and can still be read. *)
Theorem pipe_sleepers a d w :
  length d = Z.to_nat PIPESIZE -> rtc (pipe_step a False) (fresh_world d) w ->
  (rsleep w <> ∅ -> queue (wp w) = [] /\ writeopen (wp w) <> 0) /\
  (wsleep w <> ∅ -> length (queue (wp w)) = Z.to_nat PIPESIZE /\ readopen (wp w) <> 0).
Proof.
  intros Hd Hr. assert (fifo w /\ sleep_ok (wp w) (rsleep w) (wsleep w)) as [HF [HR HW]].
  { refine (rtc_ind_r (fun w => fifo w /\ sleep_ok (wp w) (rsleep w) (wsleep w)) _ _ _ w Hr).
    - split; [by apply fifo_fresh|]. split; done.
    - intros x y _ Hs [H1 H2]. split; [by eapply fifo_step|by eapply sleepers_step]. }
  split; [intros Hne; destruct (HR Hne) as (? & ? & _); done|]. intros Hne. destruct (HW Hne) as [Hq ?].
  by rewrite queue_length, Hq.
Qed.

(** A writer that is killed while the pipe is full returns without waking
    the readers: a reader stays asleep although the pipe is full of data. *)
Theorem killed_writer_strands_reader :
  exists w, rtc (pipe_step 4096 True) (fresh_world (replicate (Z.to_nat PIPESIZE) 0)) w /\
    rsleep w = {[7%nat]} /\ length (queue (wp w)) = Z.to_nat PIPESIZE /\ writeopen (wp w) = 1.
Proof.
  eexists. split; [|split_and!].
  - eapply rtc_l; [eapply (step_read 4096 True _ 7 false 1); [set_solver|done|lia|reflexivity]|].
    eapply rtc_l; [eapply (step_write 4096 True _ 8 true (replicate 513 65) 0); [set_solver|done|done|]|apply rtc_refl].
    vm_compute. reflexivity.
  - vm_compute. reflexivity.
  - vm_compute. reflexivity.
  - vm_compute. reflexivity.
Qed.

(** ** Witnesses *)

Definition demo_page : list Z := replicate (Z.to_nat PIPESIZE) 0.

Lemma demo_pipe_run (K : Prop) : exists w, rtc (pipe_step 4096 K) (fresh_world demo_page) w /\
  recv w = [1; 2] /\ sent w = [1; 2; 3] /\ rsleep w = ∅.
Proof.
  eexists. split; [|split_and!].
  - eapply rtc_l; [eapply (step_read 4096 K _ 7 false 1); [set_solver|done|lia|reflexivity]|].
    eapply rtc_l; [eapply (step_write 4096 K _ 8 false [1; 2; 3] 0); [set_solver|done|done|reflexivity]|].
    eapply rtc_l; [eapply (step_read 4096 K _ 7 false 2); [set_solver|done|lia|reflexivity]|apply rtc_refl].
  - reflexivity.
  - reflexivity.
  - vm_compute. reflexivity.
Qed.

Lemma pipe_fifo_witness : exists w, rtc (pipe_step 4096 True) (fresh_world demo_page) w /\
  recv w = [1; 2] /\ queue (wp w) = [3].
Proof.
  destruct (demo_pipe_run True) as (w & Hr & H1 & H2 & _). exists w. split; [exact Hr|]. split; [exact H1|].
  destruct (pipe_fifo 4096 True demo_page w) as (_ & E & _); [reflexivity|exact Hr|].
  rewrite H1, H2 in E. by injection E.
Defined.

(** A write of one byte more than fits sleeps before the last one. *)
Lemma pipe_sleepers_witness : exists w, rtc (pipe_step 4096 False) (fresh_world demo_page) w /\
  wsleep w = {[8%nat]} /\ length (queue (wp w)) = 512%nat /\ readopen (wp w) <> 0.
Proof.
  assert (exists w, rtc (pipe_step 4096 False) (fresh_world demo_page) w /\ wsleep w = {[8%nat]}) as (w & Hr & Hs).
  { eexists. split.
    - eapply rtc_l; [eapply (step_write 4096 False _ 8 false (replicate 513 65) 0); [set_solver|done|done|vm_compute; reflexivity]|apply rtc_refl].
    - vm_compute. reflexivity. }
  exists w. split; [exact Hr|]. split; [exact Hs|].
  destruct (pipe_sleepers 4096 demo_page w) as (_ & HW); [reflexivity|exact Hr|]. apply HW. rewrite Hs. set_solver.
Defined.
