(* ===== verification/Spinlock.v ===== *)
(** * Spinlock: spin locks and interrupt nesting (spinlock.c)

    The lock words, the per-CPU nesting counts and interrupt flags.  The
    functions are sequential definitions; for the theorems they are cut into
    the accesses other CPUs can come between, as a step relation on any number
    of CPUs. *)
From stdpp Require Import base numbers list gmap strings.
From Stdlib Require Import ZArith Lia.
From S2P Require Import Prelude.

Local Open Scope Z_scope.

Definition FL_IF : Z := 0x200.
Definition KERNBASE : Z := 0x80000000.

(** [struct spinlock]; the holder is an index of [cpus]. *)
Record spinlock := mk_lock { locked : Z; lname : string; lcpu : option nat; pcs : list Z }.
(** The fields of [struct cpu] the locks use, and the CPU's EFLAGS. *)
Record cpu := mk_cpu { ncli : Z; intena : Z; eflags : Z }.

Record lstate := mk_lstate { locks : list spinlock; cpus : list cpu }.

Definition lock_at (l : nat) : M lstate spinlock := let* ls := gets locks in from_opt (ls !! l).
Definition upd_lock (l : nat) (f : spinlock -> spinlock) : M lstate unit :=
  let* k := lock_at l in modify (fun s => mk_lstate (<[l := f k]> (locks s)) (cpus s)).
Definition cpu_at (c : nat) : M lstate cpu := let* cs := gets cpus in from_opt (cs !! c).
Definition upd_cpu (c : nat) (f : cpu -> cpu) : M lstate unit :=
  let* k := cpu_at c in modify (fun s => mk_lstate (locks s) (<[c := f k]> (cpus s))).

Definition set_locked (v : Z) (k : spinlock) : spinlock := mk_lock v (lname k) (lcpu k) (pcs k).
Definition set_lcpu (c : option nat) (k : spinlock) : spinlock := mk_lock (locked k) (lname k) c (pcs k).
Definition set_pcs (p : list Z) (k : spinlock) : spinlock := mk_lock (locked k) (lname k) (lcpu k) p.

Definition initlock (l : nat) (name : string) : M lstate unit :=
  upd_lock l (fun k => mk_lock 0 name None (pcs k)).

(** ** Interrupts *)

Definition cli (k : cpu) : cpu := mk_cpu (ncli k) (intena k) (Z.land (eflags k) (Z.lnot FL_IF)).
Definition sti (k : cpu) : cpu := mk_cpu (ncli k) (intena k) (Z.lor (eflags k) FL_IF).

Definition pushcli (c : nat) : M lstate unit :=
  upd_cpu c (fun k =>
    let e := eflags k in
    let k := cli k in
    mk_cpu (i32 (ncli k + 1)) (if ncli k =? 0 then Z.land e FL_IF else intena k) (eflags k)).

Definition popcli (c : nat) : M lstate unit :=
  let* k := cpu_at c in
  if negb (Z.land (eflags k) FL_IF =? 0) then panic "popcli - interruptible"
  else
    upd_cpu c (fun k => mk_cpu (i32 (ncli k - 1)) (intena k) (eflags k)) ;;;
    let* k := cpu_at c in
    if ncli k <? 0 then panic "popcli"
    else whenM ((ncli k =? 0) && negb (intena k =? 0)) (upd_cpu c sti).

(** ** Locks *)

(** [mem] is the word at a kernel address: the saved frames. *)
Fixpoint walk_frames (mem : Z -> Z) (n : nat) (ebp : Z) : list Z :=
  match n with
  | O => []
  | S n =>
      if (ebp =? 0) || (ebp <? KERNBASE) || (ebp =? 0xffffffff) then replicate (S n) 0
      else mem (u32 (ebp + 4)) :: walk_frames mem n (mem ebp)
  end.
Definition getcallerpcs (mem : Z -> Z) (v : Z) : list Z := walk_frames mem 10 (u32 (v - 8)).

Definition holding (c l : nat) : M lstate bool :=
  let* k := lock_at l in
  ret (negb (locked k =? 0) && bool_decide (lcpu k = Some c)).

Definition xchg (l : nat) (v : Z) : M lstate Z :=
  let* k := lock_at l in
  upd_lock l (set_locked v) ;;;
  ret (locked k).

(** [acquire] up to the loop, one turn of the loop, and the rest. *)
Definition acquire_enter (c l : nat) : M lstate unit :=
  pushcli c ;;;
  let* h := holding c l in
  if h then panic "acquire" else ret tt.
Definition acquire_try (l : nat) : M lstate bool :=
  let* v := xchg l 1 in
  ret (v =? 0).
Definition acquire_note (mem : Z -> Z) (v : Z) (c l : nat) : M lstate unit :=
  upd_lock l (set_lcpu (Some c)) ;;;
  upd_lock l (set_pcs (getcallerpcs mem v)).

Fixpoint acquire_loop (fuel l : nat) : M lstate unit :=
  match fuel with
  | O => fault
  | S fuel => let* b := acquire_try l in if b then ret tt else acquire_loop fuel l
  end.
Definition acquire (fuel : nat) (mem : Z -> Z) (v : Z) (c l : nat) : M lstate unit :=
  acquire_enter c l ;;; acquire_loop fuel l ;;; acquire_note mem v c l.

(** [release] up to the exchange, the exchange, and [popcli]. *)
Definition release_clear (c l : nat) : M lstate unit :=
  let* h := holding c l in
  if negb h then panic "release"
  else
    upd_lock l (fun k => set_pcs (<[0%nat := 0]> (pcs k)) k) ;;;
    upd_lock l (set_lcpu None).
Definition release_xchg (l : nat) : M lstate unit := let* _ := xchg l 0 in ret tt.
Definition release (c l : nat) : M lstate unit :=
  release_clear c l ;;; release_xchg l ;;; popcli c.

(** ** CPUs running

    Where each CPU is: outside [acquire] and [release], in the loop of
    [acquire], behind it, in [release] before the exchange, and before
    [popcli]. *)
Inductive place := Out | Spin (l : nat) | Got (l : nat) | Rel (l : nat) | Pop.
#[global] Instance place_eq_dec : EqDecision place.
Proof. solve_decision. Defined.

Record smp := mk_smp { ls : lstate; at_ : list place }.

Inductive smp_step (mem : Z -> Z) : smp -> smp -> Prop :=
| smp_enter s pl c l s' :
    pl !! c = Some Out -> acquire_enter c l s = Ret s' tt -> smp_step mem (mk_smp s pl) (mk_smp s' (<[c := Spin l]> pl))
| smp_try s pl c l s' b :
    pl !! c = Some (Spin l) -> acquire_try l s = Ret s' b ->
    smp_step mem (mk_smp s pl) (mk_smp s' (<[c := if b : bool then Got l else Spin l]> pl))
| smp_note s pl c l v s' :
    pl !! c = Some (Got l) -> acquire_note mem v c l s = Ret s' tt -> smp_step mem (mk_smp s pl) (mk_smp s' (<[c := Out]> pl))
| smp_clear s pl c l s' :
    pl !! c = Some Out -> release_clear c l s = Ret s' tt -> smp_step mem (mk_smp s pl) (mk_smp s' (<[c := Rel l]> pl))
| smp_xchg s pl c l s' :
    pl !! c = Some (Rel l) -> release_xchg l s = Ret s' tt -> smp_step mem (mk_smp s pl) (mk_smp s' (<[c := Pop]> pl))
| smp_pop s pl c s' :
    pl !! c = Some Pop -> popcli c s = Ret s' tt -> smp_step mem (mk_smp s pl) (mk_smp s' (<[c := Out]> pl)).

(** ** What each step does *)

Definition push_cpu (k : cpu) : cpu :=
  mk_cpu (i32 (ncli k + 1)) (if ncli k =? 0 then Z.land (eflags k) FL_IF else intena k) (Z.land (eflags k) (Z.lnot FL_IF)).
Definition pop_cpu (k : cpu) : cpu :=
  let k := mk_cpu (i32 (ncli k - 1)) (intena k) (eflags k) in
  if (ncli k =? 0) && negb (intena k =? 0) then sti k else k.

Lemma from_opt_inv {S A} (o : option A) (s s' : S) a : from_opt o s = Ret s' a -> o = Some a /\ s' = s.
Proof. destruct o; cbn; [|done]. intros [= <- <-]. done. Qed.

Lemma lock_at_inv l s s' k : lock_at l s = Ret s' k -> locks s !! l = Some k /\ s' = s.
Proof. unfold lock_at. rewrite gets_bind. apply from_opt_inv. Qed.
Lemma cpu_at_inv c s s' k : cpu_at c s = Ret s' k -> cpus s !! c = Some k /\ s' = s.
Proof. unfold cpu_at. rewrite gets_bind. apply from_opt_inv. Qed.

Lemma upd_lock_inv l f s s' : upd_lock l f s = Ret s' tt ->
  exists k, locks s !! l = Some k /\ s' = mk_lstate (<[l := f k]> (locks s)) (cpus s).
Proof. intros (s1 & k & [Hk ->]%lock_at_inv & [= <-])%bind_inv. by exists k. Qed.
Lemma upd_cpu_inv c f s s' : upd_cpu c f s = Ret s' tt ->
  exists k, cpus s !! c = Some k /\ s' = mk_lstate (locks s) (<[c := f k]> (cpus s)).
Proof. intros (s1 & k & [Hk ->]%cpu_at_inv & [= <-])%bind_inv. by exists k. Qed.

Lemma holding_inv c l s s' b : holding c l s = Ret s' b ->
  exists k, locks s !! l = Some k /\ s' = s /\ b = negb (locked k =? 0) && bool_decide (lcpu k = Some c).
Proof. intros (s1 & k & [Hk ->]%lock_at_inv & [= <- <-])%bind_inv. by exists k. Qed.

Lemma xchg_inv l v s s' r : xchg l v s = Ret s' r ->
  exists k, locks s !! l = Some k /\ r = locked k /\ s' = mk_lstate (<[l := set_locked v k]> (locks s)) (cpus s).
Proof.
  intros (s1 & k & [Hk ->]%lock_at_inv & (s2 & [] & (k2 & Hk2 & ->)%upd_lock_inv & [= <- <-])%bind_inv)%bind_inv.
  exists k. by simplify_eq.
Qed.

Lemma enter_inv c l s s' : acquire_enter c l s = Ret s' tt ->
  exists k, cpus s !! c = Some k /\ s' = mk_lstate (locks s) (<[c := push_cpu k]> (cpus s)).
Proof.
  intros (s1 & [] & (k & Hk & ->)%upd_cpu_inv & (s2 & h & (k2 & _ & -> & _)%holding_inv & R)%bind_inv)%bind_inv.
  exists k. split; [done|]. destruct h; [done|]. by injection R as <-.
Qed.

Lemma try_inv l s s' b : acquire_try l s = Ret s' b ->
  exists k, locks s !! l = Some k /\ b = (locked k =? 0) /\ s' = mk_lstate (<[l := set_locked 1 k]> (locks s)) (cpus s).
Proof. intros (s1 & v & (k & Hk & -> & ->)%xchg_inv & [= <- <-])%bind_inv. by exists k. Qed.

Lemma note_inv mem v c l s s' : acquire_note mem v c l s = Ret s' tt ->
  exists k p, locks s !! l = Some k /\ s' = mk_lstate (<[l := set_pcs p (set_lcpu (Some c) k)]> (locks s)) (cpus s).
Proof.
  intros (s1 & [] & (k & Hk & ->)%upd_lock_inv & (k2 & Hk2 & ->)%upd_lock_inv)%bind_inv.
  exists k, (getcallerpcs mem v). cbn in *. rewrite list_lookup_insert_eq in Hk2 by (by eapply lookup_lt_Some).
  injection Hk2 as <-. by rewrite list_insert_insert_eq.
Qed.

Lemma clear_inv c l s s' : release_clear c l s = Ret s' tt ->
  exists k p, locks s !! l = Some k /\ locked k <> 0 /\ lcpu k = Some c /\
    s' = mk_lstate (<[l := set_lcpu None (set_pcs p k)]> (locks s)) (cpus s).
Proof.
  intros (s1 & h & (k & Hk & -> & ->)%holding_inv & R)%bind_inv.
  destruct (negb (locked k =? 0) && bool_decide (lcpu k = Some c)) eqn:E; [|done]. cbn [negb] in R.
  apply andb_true_iff in E as [E1%negb_true_iff%Z.eqb_neq E2%bool_decide_eq_true].
  destruct (bind_inv _ _ _ _ _ R) as (s2 & [] & (k2 & Hk2 & ->)%upd_lock_inv & (k3 & Hk3 & ->)%upd_lock_inv).
  simplify_eq. cbn in *. rewrite list_lookup_insert_eq in Hk3 by (by eapply lookup_lt_Some). injection Hk3 as <-.
  eexists k, _. split_and!; [done|done|done|]. rewrite list_insert_insert_eq. reflexivity.
Qed.

Lemma pop_inv c s s' : popcli c s = Ret s' tt ->
  exists k, cpus s !! c = Some k /\ Z.land (eflags k) FL_IF = 0 /\ s' = mk_lstate (locks s) (<[c := pop_cpu k]> (cpus s)).
Proof.
  intros (s1 & k & [Hk ->]%cpu_at_inv & R)%bind_inv. exists k. split; [done|].
  destruct (Z.eqb_spec (Z.land (eflags k) FL_IF) 0) as [Hif|]; [|done]. cbn [negb] in R. split; [done|].
  destruct (bind_inv _ _ _ _ _ R) as (s2 & [] & (k2 & Hk2 & ->)%upd_cpu_inv & (s3 & k3 & [Hk3 ->]%cpu_at_inv & R3)%bind_inv).
  simplify_eq. cbn in Hk3. rewrite list_lookup_insert_eq in Hk3 by (by eapply lookup_lt_Some). injection Hk3 as <-.
  cbn in R3. unfold pop_cpu. cbn. destruct (i32 (ncli k - 1) <? 0); [done|].
  destruct ((i32 (ncli k - 1) =? 0) && negb (intena k =? 0)); cbn in R3.
  - apply upd_cpu_inv in R3 as (k4 & Hk4 & ->). cbn in Hk4 |- *.
    rewrite list_lookup_insert_eq in Hk4 by (by eapply lookup_lt_Some). injection Hk4 as <-.
    by rewrite list_insert_insert_eq.
  - by injection R3 as <-.
Qed.

(** ** The invariant *)

Definition owns (w : smp) (c l : nat) : Prop :=
  at_ w !! c = Some (Got l) \/ at_ w !! c = Some (Rel l) \/ exists k, locks (ls w) !! l = Some k /\ lcpu k = Some c.

Definition held (c : nat) (ks : list spinlock) : nat := length (filter (fun k => lcpu k = Some c) ks).
Definition demand (w : smp) (c : nat) : nat :=
  (held c (locks (ls w)) + match at_ w !! c with Some Out | None => 0 | Some _ => 1 end)%nat.

(** [i0] is the interrupt flag of the CPU while it holds no lock. *)
Definition cpu_ok (n : nat) (i0 : Z) (k : cpu) : Prop :=
  ncli k = Z.of_nat n /\
  if decide (n = 0)%nat then Z.land (eflags k) FL_IF = i0
  else Z.land (eflags k) FL_IF = 0 /\ intena k = i0.

Record smp_ok (i0 : nat -> Z) (w : smp) : Prop := {
  sk_locked : forall l k, locks (ls w) !! l = Some k -> locked k <> 0 <-> exists c, owns w c l;
  sk_unique : forall c d l, owns w c l -> owns w d l -> c = d;
  sk_noted : forall l k c, locks (ls w) !! l = Some k -> lcpu k = Some c ->
    at_ w !! c <> Some (Got l) /\ at_ w !! c <> Some (Rel l);
  sk_cpu : forall c k, cpus (ls w) !! c = Some k -> cpu_ok (demand w c) (i0 c) k;
  sk_bound : Z.of_nat (length (locks (ls w))) < 2 ^ 31 - 1
}.

Lemma held_insert c ks l k k' : ks !! l = Some k ->
  (held c (<[l := k']> ks) + (if decide (lcpu k = Some c) then 1 else 0) =
   held c ks + if decide (lcpu k' = Some c) then 1 else 0)%nat.
Proof.
  unfold held. revert l. induction ks as [|x ks IH]; intros [|l] Hl; try done.
  - cbn in Hl. injection Hl as ->. cbn [insert list_insert]. rewrite !filter_cons. do 2 case_decide; cbn [length]; lia.
  - cbn in Hl. change (<[S l := k']> (x :: ks)) with (x :: <[l := k']> ks). rewrite !filter_cons. specialize (IH l Hl).
    destruct (decide (lcpu x = Some c)); cbn [length]; lia.
Qed.

Lemma held_le c ks : (held c ks <= length ks)%nat.
Proof. apply length_filter. Qed.

Lemma cli_off e : Z.land (Z.land e (Z.lnot FL_IF)) FL_IF = 0.
Proof. rewrite <- Z.land_assoc. change (Z.land (Z.lnot FL_IF) FL_IF) with 0. apply Z.land_0_r. Qed.
Lemma sti_on e : Z.land (Z.lor e FL_IF) FL_IF = FL_IF.
Proof. apply Z.bits_inj'. intros n Hn. rewrite !Z.land_spec, Z.lor_spec. destruct (Z.testbit FL_IF n); [by rewrite orb_true_r|by rewrite andb_false_r]. Qed.

Lemma push_ok n i0 k : cpu_ok n i0 k -> Z.of_nat n < 2 ^ 31 - 1 -> cpu_ok (S n) i0 (push_cpu k).
Proof.
  intros [Hn Hf] Hb. split; [cbn; rewrite Hn, i32_small; lia|]. cbn. split; [apply cli_off|].
  rewrite Hn. case_decide as E; [by rewrite E|]. rewrite (proj2 (Z.eqb_neq _ _)) by lia. apply Hf.
Qed.

Lemma pop_ok n i0 k : cpu_ok (S n) i0 k -> Z.of_nat n < 2 ^ 31 - 1 -> i0 = 0 \/ i0 = FL_IF -> cpu_ok n i0 (pop_cpu k).
Proof.
  intros [Hn Hf] Hb Hi. cbn in Hf. destruct Hf as [Hoff Hint]. unfold pop_cpu. cbn [ncli intena].
  rewrite Hn, Hint. replace (Z.of_nat (S n) - 1) with (Z.of_nat n) by lia. rewrite i32_small by lia.
  unfold cpu_ok. case_decide as E.
  - subst n. cbn. destruct Hi as [->| ->]; cbn; split; try done. apply sti_on.
  - rewrite (proj2 (Z.eqb_neq _ _)) by lia. cbn. done.
Qed.

Lemma lookup_ins {A} (l : list A) i j x y : l !! i = Some y -> <[i := x]> l !! j = if decide (i = j) then Some x else l !! j.
Proof.
  intros Hi. case_decide as E; [subst; apply list_lookup_insert_eq; by eapply lookup_lt_Some|by apply list_lookup_insert_ne].
Qed.

(** The owners, when one CPU moved and the holder field of one lock changed. *)
Lemma owns_move s s' pl c l x y k k' :
  pl !! c = Some x -> locks s !! l = Some k -> locks s' = <[l := k']> (locks s) ->
  forall d m, owns (mk_smp s' (<[c := y]> pl)) d m <->
    (if decide (c = d) then y = Got m \/ y = Rel m else pl !! d = Some (Got m) \/ pl !! d = Some (Rel m)) \/
    (if decide (l = m) then lcpu k' = Some d else exists k, locks s !! m = Some k /\ lcpu k = Some d).
Proof.
  intros Hc Hl Hs d m. unfold owns. cbn [at_ ls]. rewrite Hs, (lookup_ins _ _ _ _ _ Hc), (lookup_ins _ _ _ _ _ Hl).
  destruct (decide (c = d)), (decide (l = m)); naive_solver.
Qed.

Lemma owns_alt s pl d m : owns (mk_smp s pl) d m <->
  (pl !! d = Some (Got m) \/ pl !! d = Some (Rel m)) \/ exists k, locks s !! m = Some k /\ lcpu k = Some d.
Proof. unfold owns. cbn. naive_solver. Qed.

(** The nesting count, when the CPU [c] moved and one holder field changed. *)
Lemma demand_move s s' pl c l x y k k' d :
  pl !! c = Some x -> locks s !! l = Some k -> locks s' = <[l := k']> (locks s) ->
  (demand (mk_smp s' (<[c := y]> pl)) d + (if decide (lcpu k = Some d) then 1 else 0) +
     (if decide (c = d /\ x <> Out) then 1 else 0) =
   demand (mk_smp s pl) d + (if decide (lcpu k' = Some d) then 1 else 0) +
     (if decide (c = d /\ y <> Out) then 1 else 0))%nat.
Proof.
  intros Hc Hl Hs. unfold demand. cbn [ls at_]. rewrite Hs. pose proof (held_insert d _ _ _ k' Hl) as Hh.
  rewrite (lookup_ins _ _ _ _ _ Hc). destruct (decide (c = d)) as [->|Hne].
  - rewrite Hc. destruct x, y;
      repeat match goal with |- context [decide (d = d /\ ?P)] =>
        first [rewrite (decide_True (P := d = d /\ P)) by done | rewrite (decide_False (P := d = d /\ P)) by naive_solver] end; lia.
  - rewrite !(decide_False (P := c = d /\ _)) by naive_solver. lia.
Qed.

Lemma demand_bound s pl c : Z.of_nat (length (locks s)) < 2 ^ 31 - 1 -> Z.of_nat (demand (mk_smp s pl) c) < 2 ^ 31.
Proof.
  intros Hb. unfold demand. cbn. pose proof (held_le c (locks s)).
  assert (match pl !! c with Some Out | None => 0 | Some _ => 1 end <= 1)%nat; [destruct (pl !! c) as [[]|]; lia|lia].
Qed.

Definition quiet (x : place) : Prop := match x with Got _ | Rel _ => False | _ => True end.

(** Steps that leave the locks alone: entering [acquire], and [popcli]. *)
Lemma move_ok i0 s s' pl c x y k k' :
  smp_ok i0 (mk_smp s pl) -> pl !! c = Some x -> quiet x -> quiet y ->
  locks s' = locks s -> cpus s !! c = Some k -> cpus s' = <[c := k']> (cpus s) ->
  (cpu_ok (demand (mk_smp s pl) c) (i0 c) k -> cpu_ok (demand (mk_smp s' (<[c := y]> pl)) c) (i0 c) k') ->
  smp_ok i0 (mk_smp s' (<[c := y]> pl)).
Proof.
  intros [H1 H2 H3 H4 H5] Hc Hx Hy Hl Hk Hk' Hok. cbn [ls at_] in *.
  assert (forall d m, owns (mk_smp s' (<[c := y]> pl)) d m <-> owns (mk_smp s pl) d m) as Ho.
  { intros d m. unfold owns. cbn. rewrite Hl, (lookup_ins _ _ _ _ _ Hc). case_decide as E; [subst|done].
    rewrite Hc. destruct x, y; naive_solver. }
  split; cbn [ls at_]; rewrite ?Hl; try done.
  - intros l kl Hkl. rewrite (H1 l kl Hkl). by setoid_rewrite Ho.
  - intros d e l. rewrite !Ho. apply H2.
  - intros l kl d Hkl Hd. destruct (H3 l kl d Hkl Hd) as [A B]. rewrite (lookup_ins _ _ _ _ _ Hc).
    case_decide; [|done]. destruct y; naive_solver.
  - intros d kd. rewrite Hk', (lookup_ins _ _ _ _ _ Hk). case_decide as E.
    + subst d. intros [= <-]. apply Hok, H4, Hk.
    + intros Hd. specialize (H4 d kd Hd). unfold demand in *. cbn in *. rewrite Hl, list_lookup_insert_ne by done. done.
Qed.

(** Steps that change one lock and no CPU. *)
Lemma lock_ok i0 s s' pl c l x y k k' :
  smp_ok i0 (mk_smp s pl) -> pl !! c = Some x -> locks s !! l = Some k ->
  locks s' = <[l := k']> (locks s) -> cpus s' = cpus s ->
  (forall d, demand (mk_smp s' (<[c := y]> pl)) d = demand (mk_smp s pl) d) ->
  (forall d m, m <> l -> owns (mk_smp s' (<[c := y]> pl)) d m <-> owns (mk_smp s pl) d m) ->
  (forall d, owns (mk_smp s' (<[c := y]> pl)) d l <-> d = c /\ locked k' <> 0) ->
  (forall d, lcpu k' = Some d -> d = c /\ y = Out) ->
  (forall m, m <> l -> y <> Got m /\ y <> Rel m) ->
  smp_ok i0 (mk_smp s' (<[c := y]> pl)).
Proof.
  intros [H1 H2 H3 H4 H5] Hc Hl Hs Hcpu Hdem Hother Hown Hnote Hy. cbn [ls at_] in *.
  split; cbn [ls at_]; rewrite ?Hs, ?Hcpu, ?length_insert; try done.
  - intros m km. rewrite (lookup_ins _ _ _ _ _ Hl). case_decide as E.
    + subst m. intros [= <-]. setoid_rewrite Hown. naive_solver.
    + intros Hm. rewrite (H1 m km Hm). by setoid_rewrite (fun d => Hother d m (not_eq_sym E)).
  - intros d e m. destruct (decide (m = l)) as [->|Hne]; [rewrite !Hown; naive_solver|]. rewrite !Hother by done. apply H2.
  - intros m km d. rewrite (lookup_ins _ _ _ _ _ Hl), (lookup_ins _ _ _ _ _ Hc). case_decide as E.
    + subst m. intros [= <-] Hd. destruct (Hnote d Hd) as [-> ->]. by rewrite decide_True by done.
    + intros Hm Hd. destruct (H3 m km d Hm Hd) as [A B]. case_decide; [|done].
      destruct (Hy m (not_eq_sym E)). split; congruence.
  - intros d kd Hd. rewrite Hdem. by apply H4.
Qed.

Lemma enter_ok i0 s pl c l s' :
  smp_ok i0 (mk_smp s pl) -> pl !! c = Some Out -> acquire_enter c l s = Ret s' tt -> smp_ok i0 (mk_smp s' (<[c := Spin l]> pl)).
Proof.
  intros HOK Hc (k & Hk & ->)%enter_inv. eapply (move_ok _ s _ pl c Out (Spin l)); try done. intros Hok.
  pose proof (sk_bound _ _ HOK) as H5. pose proof (held_le c (locks s)). unfold demand in *. cbn [ls at_ locks] in *.
  rewrite Hc in Hok. rewrite (lookup_ins _ _ _ _ _ Hc), decide_True by done.
  rewrite Nat.add_0_r in *. rewrite Nat.add_1_r. apply push_ok; [done|lia].
Qed.

Lemma leave_ok i0 s pl c s' : (forall c, i0 c = 0 \/ i0 c = FL_IF) ->
  smp_ok i0 (mk_smp s pl) -> pl !! c = Some Pop -> popcli c s = Ret s' tt -> smp_ok i0 (mk_smp s' (<[c := Out]> pl)).
Proof.
  intros Hi0 HOK Hc (k & Hk & Hoff & ->)%pop_inv. eapply (move_ok _ s _ pl c Pop Out); try done. intros Hok.
  pose proof (sk_bound _ _ HOK) as H5. pose proof (held_le c (locks s)). unfold demand in *. cbn [ls at_ locks] in *.
  rewrite Hc in Hok. rewrite (lookup_ins _ _ _ _ _ Hc), decide_True by done.
  rewrite Nat.add_0_r in *. rewrite Nat.add_1_r in *. apply pop_ok; [done|lia|done].
Qed.

(** The exchange that finds the lock taken changes nothing. *)
Lemma spin_ok i0 s pl c l k :
  smp_ok i0 (mk_smp s pl) -> pl !! c = Some (Spin l) -> locks s !! l = Some k -> locked k <> 0 ->
  smp_ok i0 (mk_smp (mk_lstate (<[l := set_locked 1 k]> (locks s)) (cpus s)) (<[c := Spin l]> pl)).
Proof.
  intros [H1 H2 H3 H4 H5] Hc Hk Hnz. set (s' := mk_lstate _ _). rewrite (list_insert_id _ _ _ Hc).
  assert (forall d m, owns (mk_smp s' pl) d m <-> owns (mk_smp s pl) d m) as Hsame.
  { intros d m. rewrite !owns_alt. unfold s'. cbn [locks]. rewrite (lookup_ins _ _ _ _ _ Hk).
    destruct (decide (l = m)) as [<-|]; naive_solver. }
  destruct (proj1 (H1 l k Hk) Hnz) as [o Howner]. split; cbn [ls at_ locks cpus s'] in *; rewrite ?length_insert; try done.
  - intros m km. rewrite (lookup_ins _ _ _ _ _ Hk). setoid_rewrite Hsame. case_decide as E; [|by apply H1].
    subst m. intros [= <-]. cbn. split; [intros _; by exists o|done].
  - intros d e m. rewrite !Hsame. apply H2.
  - intros m km d. rewrite (lookup_ins _ _ _ _ _ Hk). intros Hm Hd.
    case_decide; [subst; injection Hm as <-; by apply (H3 m k)|by apply (H3 m km)].
  - intros d kd Hd. specialize (H4 d kd Hd). unfold demand in *. cbn [ls at_ locks s'] in *.
    pose proof (held_insert d _ _ _ (set_locked 1 k) Hk) as Hh. cbn [lcpu set_locked] in Hh.
    replace (held d (<[l:=set_locked 1 k]> (locks s))) with (held d (locks s)) by lia. done.
Qed.

Ltac count_moves Hdm :=
  repeat match type of Hdm with context [decide ?P] =>
    first [rewrite (decide_True (P := P)) in Hdm by (done || congruence)
          |rewrite (decide_False (P := P)) in Hdm by (done || congruence || naive_solver)] end.

Lemma got_ok i0 s pl c l k :
  smp_ok i0 (mk_smp s pl) -> pl !! c = Some (Spin l) -> locks s !! l = Some k -> locked k = 0 ->
  smp_ok i0 (mk_smp (mk_lstate (<[l := set_locked 1 k]> (locks s)) (cpus s)) (<[c := Got l]> pl)).
Proof.
  intros HOK Hc Hk Hz. pose proof HOK as [H1 H2 H3 H4 H5]. set (s' := mk_lstate _ _).
  pose proof (owns_move s s' pl c l (Spin l) (Got l) k (set_locked 1 k) Hc Hk eq_refl) as Ho.
  assert (forall d, ~ owns (mk_smp s pl) d l) as Hfree by (intros d Hd; by apply (H1 l k Hk); [exists d|]).
  eapply (lock_ok i0 s s' pl c l (Spin l) (Got l) k (set_locked 1 k) HOK Hc Hk eq_refl eq_refl).
  - intros d. pose proof (demand_move s s' pl c l (Spin l) (Got l) k (set_locked 1 k) d Hc Hk eq_refl) as Hdm. cbn [lcpu set_locked] in Hdm.
    destruct (decide (c = d)); [rewrite !(decide_True (P := c = d /\ _)) in Hdm by done|rewrite !(decide_False (P := c = d /\ _)) in Hdm by naive_solver]; lia.
  - intros d m Hm. rewrite Ho, owns_alt. rewrite (decide_False (P := l = m)) by done. case_decide; [subst; rewrite Hc|]; naive_solver.
  - intros d. rewrite Ho. rewrite (decide_True (P := l = l)) by done. cbn. specialize (Hfree d). rewrite owns_alt in Hfree.
    case_decide; [subst; naive_solver|]. naive_solver.
  - intros d Hd. cbn in Hd. destruct (Hfree d). rewrite owns_alt. right. by exists k.
  - naive_solver.
Qed.

Lemma note_ok mem v i0 s pl c l s' :
  smp_ok i0 (mk_smp s pl) -> pl !! c = Some (Got l) -> acquire_note mem v c l s = Ret s' tt -> smp_ok i0 (mk_smp s' (<[c := Out]> pl)).
Proof.
  intros HOK Hc (k & p & Hk & ->)%note_inv. pose proof HOK as [H1 H2 H3 H4 H5]. set (s' := mk_lstate _ _).
  set (k' := set_pcs p (set_lcpu (Some c) k)) in *.
  assert (owns (mk_smp s pl) c l) as Hcl by (by left).
  assert (lcpu k = None) as Hnone.
  { destruct (lcpu k) as [d|] eqn:E; [|done]. assert (owns (mk_smp s pl) d l) as Hd by (rewrite owns_alt; right; by exists k).
    rewrite (H2 d c l Hd Hcl) in E. by destruct (H3 l k c Hk E). }
  assert (locked k <> 0) as Hlk by (apply (H1 l k Hk); by exists c).
  pose proof (owns_move s s' pl c l (Got l) Out k k' Hc Hk eq_refl) as Ho.
  eapply (lock_ok i0 s s' pl c l (Got l) Out k k' HOK Hc Hk eq_refl eq_refl).
  - intros d. pose proof (demand_move s s' pl c l (Got l) Out k k' d Hc Hk eq_refl) as Hdm. rewrite Hnone in Hdm. cbn [lcpu k' set_pcs set_lcpu] in Hdm.
    destruct (decide (c = d)) as [<-|Hne]; count_moves Hdm; lia.
  - intros d m Hm. rewrite Ho, owns_alt. rewrite (decide_False (P := l = m)) by done. case_decide; [subst; rewrite Hc|]; naive_solver.
  - intros d. rewrite Ho. rewrite (decide_True (P := l = l)) by done. cbn. specialize (H2 d c l). rewrite owns_alt in H2.
    case_decide; [subst; naive_solver|]. naive_solver.
  - intros d. cbn. naive_solver.
  - done.
Qed.

Lemma clear_ok i0 s pl c l s' :
  smp_ok i0 (mk_smp s pl) -> pl !! c = Some Out -> release_clear c l s = Ret s' tt -> smp_ok i0 (mk_smp s' (<[c := Rel l]> pl)).
Proof.
  intros HOK Hc (k & p & Hk & Hlk & Hme & ->)%clear_inv. pose proof HOK as [H1 H2 H3 H4 H5]. set (s' := mk_lstate _ _).
  set (k' := set_lcpu None (set_pcs p k)) in *.
  assert (owns (mk_smp s pl) c l) as Hcl by (rewrite owns_alt; right; by exists k).
  pose proof (owns_move s s' pl c l Out (Rel l) k k' Hc Hk eq_refl) as Ho.
  eapply (lock_ok i0 s s' pl c l Out (Rel l) k k' HOK Hc Hk eq_refl eq_refl).
  - intros d. pose proof (demand_move s s' pl c l Out (Rel l) k k' d Hc Hk eq_refl) as Hdm. rewrite Hme in Hdm. cbn [lcpu k' set_pcs set_lcpu] in Hdm.
    destruct (decide (c = d)) as [<-|Hne]; count_moves Hdm; lia.
  - intros d m Hm. rewrite Ho, owns_alt. rewrite (decide_False (P := l = m)) by done. case_decide; [subst; rewrite Hc|]; naive_solver.
  - intros d. rewrite Ho. rewrite (decide_True (P := l = l)) by done. cbn. specialize (H2 d c l). rewrite owns_alt in H2.
    case_decide; [subst; naive_solver|]. naive_solver.
  - done.
  - naive_solver.
Qed.

Lemma drop_ok i0 s pl c l s' :
  smp_ok i0 (mk_smp s pl) -> pl !! c = Some (Rel l) -> release_xchg l s = Ret s' tt -> smp_ok i0 (mk_smp s' (<[c := Pop]> pl)).
Proof.
  intros HOK Hc (s1 & v & (k & Hk & _ & ->)%xchg_inv & [= <-])%bind_inv. pose proof HOK as [H1 H2 H3 H4 H5].
  set (s' := mk_lstate _ _). set (k' := set_locked 0 k) in *.
  assert (owns (mk_smp s pl) c l) as Hcl by (right; by left).
  assert (lcpu k = None) as Hnone.
  { destruct (lcpu k) as [d|] eqn:E; [|done]. assert (owns (mk_smp s pl) d l) as Hd by (rewrite owns_alt; right; by exists k).
    rewrite (H2 d c l Hd Hcl) in E. by destruct (H3 l k c Hk E). }
  pose proof (owns_move s s' pl c l (Rel l) Pop k k' Hc Hk eq_refl) as Ho.
  eapply (lock_ok i0 s s' pl c l (Rel l) Pop k k' HOK Hc Hk eq_refl eq_refl).
  - intros d. pose proof (demand_move s s' pl c l (Rel l) Pop k k' d Hc Hk eq_refl) as Hdm. cbn [lcpu k' set_locked] in Hdm.
    rewrite Hnone in Hdm. destruct (decide (c = d)) as [<-|Hne]; count_moves Hdm; lia.
  - intros d m Hm. rewrite Ho, owns_alt. rewrite (decide_False (P := l = m)) by done. case_decide; [subst; rewrite Hc|]; naive_solver.
  - intros d. rewrite Ho. rewrite (decide_True (P := l = l)) by done. cbn. rewrite Hnone. specialize (H2 d c l). rewrite owns_alt in H2.
    case_decide; [subst; naive_solver|]. naive_solver.
  - intros d. cbn. rewrite Hnone. done.
  - done.
Qed.

Lemma smp_step_ok mem i0 w w' : (forall c, i0 c = 0 \/ i0 c = FL_IF) -> smp_ok i0 w -> smp_step mem w w' -> smp_ok i0 w'.
Proof.
  intros Hi0 HOK Hst.
  destruct Hst as [s pl c l s' Hc R|s pl c l s' b Hc R|s pl c l v s' Hc R|s pl c l s' Hc R|s pl c l s' Hc R|s pl c s' Hc R].
  - by eapply enter_ok.
  - apply try_inv in R as (k & Hk & -> & ->). destruct (Z.eqb_spec (locked k) 0); [by apply got_ok|by apply spin_ok].
  - by eapply note_ok.
  - by eapply clear_ok.
  - by eapply drop_ok.
  - by eapply leave_ok.
Qed.

Lemma land_if e : Z.land e FL_IF = 0 \/ Z.land e FL_IF = FL_IF.
Proof.
  change FL_IF with (2 ^ 9). destruct (Z.testbit e 9) eqn:E; [right|left]; apply Z.bits_inj'; intros n Hn;
    rewrite Z.land_spec, ?Z.bits_0; destruct (decide (n = 9)) as [->|Hne]; rewrite ?E; try done;
    rewrite (Z.pow2_bits_false 9 n) by lia; by rewrite andb_false_r.
Qed.

(** Every lock free, every CPU outside, with its interrupt flag as it is. *)
Record smp_boot (w : smp) : Prop := {
  sb_locks : Forall (fun k => locked k = 0 /\ lcpu k = None) (locks (ls w));
  sb_cpus : Forall (fun k => ncli k = 0) (cpus (ls w));
  sb_at : Forall (fun x => x = Out) (at_ w);
  sb_count : Z.of_nat (length (locks (ls w))) < 2 ^ 31 - 1
}.
Definition if_of (w : smp) (c : nat) : Z :=
  match cpus (ls w) !! c with Some k => Z.land (eflags k) FL_IF | None => 0 end.

Lemma boot_ok w : smp_boot w -> smp_ok (if_of w) w.
Proof.
  intros [HL HC HA Hn].
  assert (forall c, held c (locks (ls w)) = 0%nat) as Hh.
  { intros c. unfold held. clear -HL. induction HL as [|k ks [_ Hk] _ IH]; [done|]. rewrite filter_cons_False; [done|congruence]. }
  pose proof (proj1 (Forall_lookup _ _) HL) as HL'. pose proof (proj1 (Forall_lookup _ _) HC) as HC'.
  pose proof (proj1 (Forall_lookup _ _) HA) as HA'. cbn beta in *. clear HL HC HA. rename HL' into HL, HC' into HC, HA' into HA.
  assert (forall c l, ~ owns w c l) as Hno.
  { intros c l [H|[H|(k & Hk & H)]]; [by apply HA in H|by apply HA in H|]. destruct (HL _ _ Hk). congruence. }
  assert (forall c, demand w c = 0%nat) as Hd.
  { intros c. unfold demand. rewrite Hh. destruct (at_ w !! c) as [x|] eqn:E; [by rewrite (HA _ _ E)|done]. }
  split; try done.
  - intros l k Hk. destruct (HL _ _ Hk) as [E _]. split; [done|]. intros [c Hc]. by destruct (Hno c l).
  - intros c d l Hc. by destruct (Hno c l).
  - intros l k c Hk Hc. destruct (HL _ _ Hk). congruence.
  - intros c k Hk. rewrite Hd. split; [by apply (HC c)|]. cbn. unfold if_of. by rewrite Hk.
Qed.

Lemma owns_demand w c l : owns w c l -> (0 < demand w c)%nat.
Proof.
  unfold demand. intros [H|[H|(k & Hk & H)]]; [rewrite H; lia|rewrite H; lia|].
  assert (0 < held c (locks (ls w)))%nat; [|lia]. unfold held. apply list_elem_of_lookup_2 in Hk.
  destruct (filter (fun k => lcpu k = Some c) (locks (ls w))) eqn:E; [|cbn; lia].
  exfalso. exact (filter_nil_not_elem_of (fun k => lcpu k = Some c) _ _ E H Hk).
Qed.

(** C29: the spin locks exclude each other and interrupts: whatever the
    interleaving of the CPUs' accesses, at most one CPU is between the exchange
    that took a lock and the exchange that frees it; interrupts are off on that
    CPU; and a CPU whose nesting count is back at zero has the interrupt flag
    it started with. *)
Theorem spinlock_mutex mem w0 w :
  smp_boot w0 -> rtc (smp_step mem) w0 w ->
  (forall c d l, owns w c l -> owns w d l -> c = d) /\
  (forall c l k, owns w c l -> cpus (ls w) !! c = Some k -> Z.land (eflags k) FL_IF = 0) /\
  (forall c k, cpus (ls w) !! c = Some k -> ncli k = 0 -> Z.land (eflags k) FL_IF = if_of w0 c).
Proof.
  intros HB Hr. assert (smp_ok (if_of w0) w) as [H1 H2 H3 H4 H5].
  { refine (rtc_ind_r (smp_ok (if_of w0)) _ (boot_ok w0 HB) (fun x y _ Hs H => smp_step_ok mem _ x y _ H Hs) w Hr).
    intros c. unfold if_of. destruct (cpus (ls w0) !! c); [apply land_if|by left]. }
  split_and!; [done| |].
  - intros c l k Ho Hk. destruct (H4 c k Hk) as [_ Hf]. rewrite decide_False in Hf; [apply Hf|]. apply owns_demand in Ho. lia.
  - intros c k Hk Hn. destruct (H4 c k Hk) as [Hn' Hf]. rewrite decide_True in Hf by lia. done.
Qed.

(** ** Witness: two CPUs contend for one lock *)

Definition demo_smp : smp :=
  mk_smp (mk_lstate [mk_lock 0 "demo" None (replicate 10 0)] [mk_cpu 0 0 0x202; mk_cpu 0 0 0x202]) [Out; Out].

Lemma spinlock_mutex_witness : exists w, rtc (smp_step (fun _ => 0)) demo_smp w /\ owns w 0 0 /\ ~ owns w 1 0 /\
  at_ w = [Out; Spin 0].
Proof.
  eexists. assert (smp_boot demo_smp) as HB by (split; [repeat constructor..|cbn; lia]).
  assert (exists w, rtc (smp_step (fun _ => 0)) demo_smp w /\
    w = mk_smp (mk_lstate [mk_lock 1 "demo" (Some 0%nat) (replicate 10 0)] [mk_cpu 1 0x200 0x2; mk_cpu 1 0x200 0x2]) [Out; Spin 0])
    as (w & Hr & ->).
  { eexists. split; [|reflexivity].
    eapply rtc_l; [eapply (smp_enter _ _ _ 0 0); [reflexivity|vm_compute; reflexivity]|].
    eapply rtc_l; [eapply (smp_try _ _ _ 0 0); [reflexivity|vm_compute; reflexivity]|].
    eapply rtc_l; [eapply (smp_enter _ _ _ 1 0); [reflexivity|vm_compute; reflexivity]|].
    eapply rtc_l; [eapply (smp_try _ _ _ 1 0); [reflexivity|vm_compute; reflexivity]|].
    eapply rtc_l; [eapply (smp_note _ _ _ 0 0 0); [reflexivity|vm_compute; reflexivity]|]. apply rtc_refl. }
  split; [exact Hr|]. destruct (spinlock_mutex (fun _ => 0) demo_smp _ HB Hr) as (Hmx & _).
  assert (owns (mk_smp (mk_lstate [mk_lock 1 "demo" (Some 0%nat) (replicate 10 0)] [mk_cpu 1 0x200 0x2; mk_cpu 1 0x200 0x2]) [Out; Spin 0]) 0 0)
    as H0 by (right; right; eexists; split; reflexivity).
  split; [exact H0|]. split; [|reflexivity]. intros H1. by specialize (Hmx _ _ _ H0 H1).
Defined.
