(* ===== verification/Sched.v ===== *)
(** * Sched: sleeping, waking and switching on several processors
      (proc.c: scheduler, sched, yield, forkret, sleep, wakeup)

    Any number of processors run the scheduler and processes.  A process
    waits for a condition the way the kernel does everywhere,
    [while(!cond) sleep(chan, lk)] with [lk] held, sets the condition and
    wakes the waiters, or gives up the processor; [ptable.lock] goes from a
    process to the scheduler and back across [swtch].  Every acquire, release
    and access to shared data is a step, in which the processors interleave;
    the locks and interrupt flags are those of Spinlock.  Not covered is
    [sleep] with [ptable.lock] itself as its lock, which is how [wait] uses it.

    The theorems show that the assertions of [sched], of the locks and of the
    interrupt nesting never fail, that a process runs on one processor at a
    time, and that no wakeup is lost. *)
From stdpp Require Import base numbers list relations strings.
From Stdlib Require Import ZArith Lia.
From S2P Require Import Prelude Kalloc Proc Spinlock.

Local Open Scope Z_scope.

(** ** The processors and the processes *)

(** The locks: [ptable.lock] and the lock of the condition. *)
Abbreviation PT := 0%nat.
Abbreviation LK := 1%nat.

(** Where a process is.  [S...]: the waiter, in [sleep] from [SPt] on; [W...]:
    the waker, in [wakeup] from [WPt] to [WUnpt]; [Y...]: [yield]; [FRet]: the
    start of a new process.  The name says what comes next. *)
Inductive pc :=
| Idle
| SLock | STest | SPt | SRel | SSet | SSched | SBack | SUnpt | SRelock | SDone
| WLock | WSet | WPt | WWake | WUnpt | WDone
| YPt | YSet | YSched | YBack | YUnpt
| FRet.
#[global] Instance pc_eq_dec : EqDecision pc.
Proof. solve_decision. Defined.

(** A process: its state and channel, where it is, and the [intena] that
    [sched] keeps on its stack. *)
Record task := mk_task { tstate : procstate; tchan : Z; tpc : pc; tintena : Z }.
Definition go (x : pc) (t : task) : task := mk_task (tstate t) (tchan t) x (tintena t).
Definition set_tstate (s : procstate) (t : task) : task := mk_task s (tchan t) (tpc t) (tintena t).
Definition set_tchan (c : Z) (t : task) : task := mk_task (tstate t) c (tpc t) (tintena t).
Definition set_tintena (i : Z) (t : task) : task := mk_task (tstate t) (tchan t) (tpc t) i.

(** A processor is in the scheduler, before [sti], the acquire, the choice or
    the release, or runs a process. *)
Inductive ctl := CTop | CAcq | CPick | CRel | Runs (p : nat).
#[global] Instance ctl_eq_dec : EqDecision ctl.
Proof. solve_decision. Defined.

Record world := mk_world { lst : lstate; tasks : list task; on : list ctl; cond : bool }.

Definition inlock (m : M lstate unit) : M world unit := zoom lst (fun l w => mk_world l (tasks w) (on w) (cond w)) m.
Definition task_at (p : nat) : M world task := let* l := gets tasks in from_opt (l !! p).
Definition upd_task (p : nat) (f : task -> task) : M world unit :=
  let* t := task_at p in modify (fun w => mk_world (lst w) (<[p := f t]> (tasks w)) (on w) (cond w)).
Definition set_on (c : nat) (x : ctl) : M world unit := modify (fun w => mk_world (lst w) (tasks w) (<[c := x]> (on w)) (cond w)).
Definition set_cond (b : bool) : M world unit := modify (fun w => mk_world (lst w) (tasks w) (on w) b).

(** The channel of the condition. *)
Definition CHAN : Z := 1.

(** [acquire] succeeds when the lock is free; otherwise the processor spins
    and the step is not possible. *)
Definition acq (c l : nat) : M world unit := inlock (acquire 1 (fun _ => 0) 0 c l).
Definition rel (c l : nat) : M world unit := inlock (release c l).

(** [sched] up to [swtch], which continues in the scheduler. *)
Definition sched (c p : nat) (back : pc) : M world unit :=
  let* h := zoom lst (fun l w => mk_world l (tasks w) (on w) (cond w)) (holding c PT) in
  if negb h then panic "sched ptable.lock"
  else
    let* k := zoom lst (fun l w => mk_world l (tasks w) (on w) (cond w)) (cpu_at c) in
    if negb (ncli k =? 1) then panic "sched locks"
    else
      let* t := task_at p in
      if decide (tstate t = RUNNING) then panic "sched running"
      else if negb (Z.land (eflags k) FL_IF =? 0) then panic "sched interruptible"
      else
        upd_task p (fun t => go back (set_tintena (intena k) t)) ;;;
        set_on c CRel.
(** What [sched] does when the process runs again. *)
Definition sched_back (c p : nat) : M world unit :=
  let* t := task_at p in
  inlock (upd_cpu c (fun k => mk_cpu (ncli k) (tintena t) (eflags k))).

Definition wakeup1 (chan : Z) (t : task) : task :=
  if decide (tstate t = SLEEPING /\ tchan t = chan) then set_tstate RUNNABLE t else t.

(** [sleep(CHAN, lk)] of process [p] on processor [c], for a lock [lk] that is
    not [ptable.lock]; [x] is where it is. *)
Definition sleep_step (c p : nat) (x : pc) : M world unit :=
  let next x := upd_task p (go x) in
  match x with
  | SPt => acq c PT ;;; next SRel
  | SRel => rel c LK ;;; next SSet
  | SSet => upd_task p (set_tchan CHAN) ;;; upd_task p (set_tstate SLEEPING) ;;; next SSched
  | SSched => sched c p SBack
  | SBack => sched_back c p ;;; upd_task p (set_tchan 0) ;;; next SUnpt
  | SUnpt => rel c PT ;;; next SRelock
  | SRelock => acq c LK ;;; next STest
  | _ => fault
  end.

(** [wakeup(CHAN)] *)
Definition wakeup_step (c p : nat) (x : pc) : M world unit :=
  let next x := upd_task p (go x) in
  match x with
  | WPt => acq c PT ;;; next WWake
  | WWake => modify (fun w => mk_world (lst w) (wakeup1 CHAN <$> tasks w) (on w) (cond w)) ;;; next WUnpt
  | WUnpt => rel c PT ;;; next WDone
  | _ => fault
  end.

Definition yield_step (c p : nat) (x : pc) : M world unit :=
  let next x := upd_task p (go x) in
  match x with
  | YPt => acq c PT ;;; next YSet
  | YSet => upd_task p (set_tstate RUNNABLE) ;;; next YSched
  | YSched => sched c p YBack
  | YBack => sched_back c p ;;; next YUnpt
  | YUnpt => rel c PT ;;; next Idle
  | _ => fault
  end.

(** [forkret] of a process that is not the first. *)
Definition forkret_step (c p : nat) : M world unit := rel c PT ;;; upd_task p (go Idle).

(** The kernel code around these calls, reduced to its use of the lock: a
    waiter is [acquire(lk); while(!cond) sleep(CHAN, lk); cond = 0; release(lk)]
    and a waker [acquire(lk); cond = 1; wakeup(CHAN); release(lk)], as in the
    disk driver, the log, pipes and the console; [k] is what an idle process
    does next.  The timer is taken to interrupt an idle process. *)
Definition task_step (c p k : nat) : M world unit :=
  let* t := task_at p in
  let next x := upd_task p (go x) in
  match tpc t with
  | Idle => next (match k with O => SLock | S O => WLock | _ => YPt end)
  | SLock => acq c LK ;;; next STest
  | STest => let* b := gets cond in if b then set_cond false ;;; next SDone else next SPt
  | SDone => rel c LK ;;; next Idle
  | WLock => acq c LK ;;; next WSet
  | WSet => set_cond true ;;; next WPt
  | WDone => rel c LK ;;; next Idle
  | SPt | SRel | SSet | SSched | SBack | SUnpt | SRelock => sleep_step c p (tpc t)
  | WPt | WWake | WUnpt => wakeup_step c p (tpc t)
  | YPt | YSet | YSched | YBack | YUnpt => yield_step c p (tpc t)
  | FRet => forkret_step c p
  end.

(** The scheduler on [c]; [k] is the process that the lottery draws, if there is one. *)
Definition cpu_step (c k : nat) : M world unit :=
  let* l := gets on in
  let* x := from_opt (l !! c) in
  match x with
  | CTop => inlock (upd_cpu c sti) ;;; set_on c CAcq
  | CAcq => acq c PT ;;; set_on c CPick
  | CPick =>
      let* l := gets tasks in
      match l !! k with
      | Some t =>
          if decide (tstate t = RUNNABLE) then upd_task k (set_tstate RUNNING) ;;; set_on c (Runs k)
          else set_on c CRel
      | None => set_on c CRel
      end
  | CRel => rel c PT ;;; set_on c CTop
  | Runs p => task_step c p k
  end.

Definition step (w w' : world) : Prop := exists c k, cpu_step c k w = Ret w' tt.

(** All processors at the top of the scheduler, all processes new; the locks are free. *)
Definition start (ncpu nproc : nat) : world :=
  mk_world (mk_lstate (replicate 2 (mk_lock 0 "" None [])) (replicate ncpu (mk_cpu 0 0 0)))
    (replicate nproc (mk_task RUNNABLE 0 FRet 0)) (replicate ncpu CTop) false.

(** ** The locks *)

(** [h l c]: processor [c] holds lock [l].  At most one does, the lock says
    which, and the nesting count is the number of locks held. *)
Definition lock_held (h : nat -> nat -> bool) (l : nat) (k : spinlock) : Prop :=
  (locked k = 0 /\ lcpu k = None /\ forall c, h l c = false) \/
  exists c, locked k = 1 /\ lcpu k = Some c /\ forall d, h l d = true <-> d = c.
Definition nesting (h : nat -> nat -> bool) (c : nat) : Z := Z.b2z (h PT c) + Z.b2z (h LK c).
Definition cpu_nested (h : nat -> nat -> bool) (c : nat) (k : cpu) : Prop :=
  ncli k = nesting h c /\ (nesting h c <> 0 -> Z.land (eflags k) FL_IF = 0).
Record locks_inv (h : nat -> nat -> bool) (s : lstate) : Prop := {
  li_lock : forall l, (l < 2)%nat -> exists k, locks s !! l = Some k /\ lock_held h l k;
  li_cpu : forall c k, cpus s !! c = Some k -> cpu_nested h c k
}.

Definition hset (h : nat -> nat -> bool) (l c : nat) (b : bool) : nat -> nat -> bool :=
  fun l' c' => if decide (l' = l /\ c' = c) then b else h l' c'.

Lemma hset_eq h l c b : hset h l c b l c = b.
Proof. unfold hset. by rewrite decide_True. Qed.
Lemma hset_cpu h l c b d : d <> c -> nesting (hset h l c b) d = nesting h d.
Proof. intros Hd. unfold nesting, hset. by rewrite !decide_False by naive_solver. Qed.
Lemma hset_nesting h l c b : (l < 2)%nat -> nesting (hset h l c b) c = nesting h c - Z.b2z (h l c) + Z.b2z b.
Proof. intros Hl. unfold nesting, hset. destruct l as [|[|l]]; [| |lia]; repeat case_decide; try naive_solver; lia. Qed.
Lemma nesting_range h c : 0 <= nesting h c <= 2.
Proof. unfold nesting. destruct (h PT c), (h LK c); cbn; lia. Qed.

Lemma locks_inv_ext h h' s : (forall l c, (l < 2)%nat -> h l c = h' l c) -> locks_inv h s -> locks_inv h' s.
Proof.
  intros E [H1 H2]. split.
  - intros l Hl. destruct (H1 l Hl) as (k & Hk & Hh). exists k. split; [done|]. destruct Hh as [(? & ? & Hf)|(c & ? & ? & Hc)].
    + left. split_and!; try done. intros c. by rewrite <- E.
    + right. exists c. split_and!; try done. intros d. rewrite <- E by done. apply Hc.
  - intros c k Hk. specialize (H2 c k Hk). unfold cpu_nested, nesting in *. rewrite <- !E by lia. done.
Qed.

(** Another lock is not touched. *)
Lemma lock_held_other h l l' c b k : l' <> l -> lock_held h l' k -> lock_held (hset h l c b) l' k.
Proof.
  intros Hne. assert (forall d, hset h l c b l' d = h l' d) as E by (intros d; unfold hset; rewrite decide_False by naive_solver; done).
  intros [(? & ? & Hf)|(d & ? & ? & Hd)]; [left|right; exists d]; split_and!; try done; intros e; rewrite E; auto.
Qed.

Lemma push_nested h c l k : (l < 2)%nat -> h l c = false -> cpu_nested h c k -> cpu_nested (hset h l c true) c (push_cpu k).
Proof.
  intros Hl Hh [Hn Hf]. unfold cpu_nested. rewrite hset_nesting, Hh by done. pose proof (nesting_range h c). cbn [Z.b2z]. split; [|intros _; apply cli_off].
  cbn [push_cpu ncli]. rewrite Hn, i32_small; lia.
Qed.
Lemma pop_nested h c l k : (l < 2)%nat -> h l c = true -> cpu_nested h c k -> cpu_nested (hset h l c false) c (pop_cpu k).
Proof.
  intros Hl Hh [Hn Hf]. unfold cpu_nested. rewrite hset_nesting, Hh by done. pose proof (nesting_range h c). cbn [Z.b2z].
  assert (0 < nesting h c) by (unfold nesting; destruct l as [|[|l]]; [| |lia]; rewrite Hh; destruct (h PT c), (h LK c); cbn; lia).
  unfold pop_cpu. cbn [ncli intena eflags]. rewrite Hn, i32_small by lia. replace (nesting h c - 1 + 0) with (nesting h c - 1) by lia.
  destruct (Z.eqb_spec (nesting h c - 1) 0) as [E|E]; cbn [andb].
  - split; [by destruct (negb _)|done].
  - split; [done|]. intros _. cbn. apply Hf. lia.
Qed.

Lemma lock_at_ret l s k : locks s !! l = Some k -> lock_at l s = Ret s k.
Proof. intros H. unfold lock_at. by rewrite gets_bind, H. Qed.
Lemma upd_lock_ret l f s k : locks s !! l = Some k -> upd_lock l f s = Ret (mk_lstate (<[l := f k]> (locks s)) (cpus s)) tt.
Proof. intros H. unfold upd_lock. by mrun (lock_at_ret l s k H). Qed.
Lemma cpu_at_ret c s k : cpus s !! c = Some k -> cpu_at c s = Ret s k.
Proof. intros H. unfold cpu_at. by rewrite gets_bind, H. Qed.
Lemma upd_cpu_ret c f s k : cpus s !! c = Some k -> upd_cpu c f s = Ret (mk_lstate (locks s) (<[c := f k]> (cpus s))) tt.
Proof. intros H. unfold upd_cpu. by mrun (cpu_at_ret c s k H). Qed.
Lemma xchg_ret l v s k : locks s !! l = Some k -> xchg l v s = Ret (mk_lstate (<[l := set_locked v k]> (locks s)) (cpus s)) (locked k).
Proof. intros H. unfold xchg. mrun (lock_at_ret l s k H). by mrun (upd_lock_ret l (set_locked v) s k H). Qed.
Lemma note_ret m v c l s k : locks s !! l = Some k ->
  acquire_note m v c l s = Ret (mk_lstate (<[l := set_pcs (getcallerpcs m v) (set_lcpu (Some c) k)]> (locks s)) (cpus s)) tt.
Proof.
  intros H. unfold acquire_note. mrun (upd_lock_ret l (set_lcpu (Some c)) s k H).
  erewrite upd_lock_ret by (apply list_lookup_insert_eq; by eapply lookup_lt_Some). cbn [locks cpus]. by rewrite list_insert_insert_eq.
Qed.
Lemma clear_ret c l s k : locks s !! l = Some k -> locked k = 1 -> lcpu k = Some c ->
  release_clear c l s = Ret (mk_lstate (<[l := set_lcpu None (set_pcs (<[0%nat := 0]> (pcs k)) k)]> (locks s)) (cpus s)) tt.
Proof.
  intros H E1 Ec. unfold release_clear, holding. erewrite bind_ret by (by mrun (lock_at_ret l s k H)). rewrite E1, Ec, bool_decide_eq_true_2 by done. cbn [Z.eqb negb andb].
  erewrite bind_ret by (by apply upd_lock_ret). erewrite upd_lock_ret by (apply list_lookup_insert_eq; by eapply lookup_lt_Some).
  cbn [locks cpus]. by rewrite list_insert_insert_eq.
Qed.
Lemma pop_ret c s k : cpus s !! c = Some k -> Z.land (eflags k) FL_IF = 0 -> 1 <= ncli k <= 2 -> popcli c s = Ret (mk_lstate (locks s) (<[c := pop_cpu k]> (cpus s))) tt.
Proof.
  intros H Hif Hn. unfold popcli. mrun (cpu_at_ret c s k H). rewrite Hif. cbn [Z.eqb negb]. erewrite bind_ret by (by apply upd_cpu_ret).
  erewrite bind_ret by (apply cpu_at_ret, list_lookup_insert_eq; by eapply lookup_lt_Some). unfold pop_cpu. cbn [ncli intena].
  rewrite i32_small by lia. rewrite (proj2 (Z.ltb_ge _ _)) by lia. destruct (_ && _); cbn [whenM]; [|done].
  erewrite upd_cpu_ret by (apply list_lookup_insert_eq; by eapply lookup_lt_Some). cbn [locks cpus]. by rewrite list_insert_insert_eq.
Qed.

Lemma acquire_law h s c l k m v : locks_inv h s -> (l < 2)%nat -> h l c = false -> cpus s !! c = Some k ->
  (acquire 1 m v c l s = Fault /\ exists d, h l d = true) \/
  exists s', acquire 1 m v c l s = Ret s' tt /\ (forall d, h l d = false) /\ locks_inv (hset h l c true) s' /\ length (cpus s') = length (cpus s).
Proof.
  intros [H1 H2] Hl Hh Hk. destruct (H1 l Hl) as (x & Hx & Hheld). set (s1 := mk_lstate (locks s) (<[c := push_cpu k]> (cpus s))).
  assert (acquire_enter c l s = Ret s1 tt) as R1.
  { unfold acquire_enter, pushcli, upd_cpu, cpu_at, holding, lock_at, bind, gets, from_opt, modify, ret. rewrite Hk. cbn [locks]. rewrite Hx.
    assert (negb (locked x =? 0) && bool_decide (lcpu x = Some c) = false) as ->; [|done].
    destruct Hheld as [(-> & _)|(d & _ & -> & Hd)]; [done|]. rewrite bool_decide_eq_false_2; [apply andb_false_r|]. intros [= ->]. rewrite (proj2 (Hd c)) in Hh; done. }
  destruct Hheld as [(E0 & En & Hf)|(d & E1 & Ed & Hd)].
  - right. set (s2 := mk_lstate (<[l := set_locked 1 x]> (locks s)) (cpus s1)).
    exists (mk_lstate (<[l := set_pcs (getcallerpcs m v) (set_lcpu (Some c) (set_locked 1 x))]> (locks s)) (cpus s1)). split; [|split; [done|split]].
    + unfold acquire. mrun R1. assert (acquire_loop 1 l s1 = Ret s2 tt) as R2 by (cbn [acquire_loop]; unfold acquire_try; erewrite bind_ret by (by mrun (xchg_ret l 1 s1 x Hx)); by rewrite E0).
      mrun R2. rewrite (note_ret m v c l s2 (set_locked 1 x)) by (apply list_lookup_insert_eq; by eapply lookup_lt_Some). cbn [locks cpus s2]. by rewrite list_insert_insert_eq.
    + split.
      * intros l' Hl'. cbn [locks]. destruct (decide (l' = l)) as [->|Hne].
        -- eexists. split; [apply list_lookup_insert_eq; by eapply lookup_lt_Some|]. right. exists c. split; [done|]. split; [done|]. intros e. unfold hset.
           case_decide as Ee; [naive_solver|]. rewrite Hf. naive_solver.
        -- destruct (H1 l' Hl') as (y & Hy & Hhy). exists y. rewrite list_lookup_insert_ne by done. split; [done|]. by apply lock_held_other.
      * intros e ke. cbn [cpus s1]. rewrite (lookup_ins _ _ _ _ _ Hk). case_decide as E; [intros [= <-]; subst e; apply push_nested; auto|].
        intros He. specialize (H2 e ke He). unfold cpu_nested in *. by rewrite hset_cpu by done.
    + cbn. apply length_insert.
  - left. split; [|exists d; by apply Hd]. unfold acquire. mrun R1. unfold bind at 1. cbn [acquire_loop]. unfold acquire_try.
    erewrite bind_ret by (by mrun (xchg_ret l 1 s1 x Hx)). by rewrite E1.
Qed.

Lemma release_law h s c l k : locks_inv h s -> (l < 2)%nat -> h l c = true -> cpus s !! c = Some k ->
  exists s', release c l s = Ret s' tt /\ locks_inv (hset h l c false) s' /\ length (cpus s') = length (cpus s).
Proof.
  intros [H1 H2] Hl Hh Hk. destruct (H1 l Hl) as (x & Hx & [(_ & _ & Hf)|(d & E1 & Ed & Hd)]); [by rewrite Hf in Hh|].
  assert (d = c) as -> by (symmetry; by apply Hd). pose proof (H2 c k Hk) as [Hn Hif].
  assert (nesting h c <> 0) as Hnz by (unfold nesting; destruct l as [|[|l]]; [| |lia]; rewrite Hh; destruct (h PT c), (h LK c); cbn; lia).
  exists (mk_lstate (<[l := set_locked 0 (set_lcpu None (set_pcs (<[0%nat := 0]> (pcs x)) x))]> (locks s)) (<[c := pop_cpu k]> (cpus s))). split; [|split].
  - unfold release. mrun (clear_ret c l s x Hx E1 Ed). unfold release_xchg.
    erewrite bind_ret by (erewrite bind_ret by (apply xchg_ret, list_lookup_insert_eq; by eapply lookup_lt_Some); reflexivity).
    pose proof (nesting_range h c). erewrite (pop_ret c _ k) by (done || auto; lia). cbn [locks cpus]. by rewrite list_insert_insert_eq.
  - split.
    + intros l' Hl'. cbn [locks]. destruct (decide (l' = l)) as [->|Hne].
      * eexists. split; [apply list_lookup_insert_eq; by eapply lookup_lt_Some|]. left. split; [done|]. split; [done|]. intros e. unfold hset.
        case_decide as Ee; [done|]. destruct (h l e) eqn:E; [|done]. apply Hd in E. naive_solver.
      * destruct (H1 l' Hl') as (y & Hy & Hhy). exists y. rewrite list_lookup_insert_ne by done. split; [done|]. by apply lock_held_other.
    + intros e ke. cbn [cpus]. rewrite (lookup_ins _ _ _ _ _ Hk). case_decide as E; [intros [= <-]; subst e; apply pop_nested; auto|].
      intros He. specialize (H2 e ke He). unfold cpu_nested in *. by rewrite hset_cpu by done.
  - cbn. apply length_insert.
Qed.

(** ** The invariant *)

(** The locks a process holds where it is; a process that has been switched
    to holds [ptable.lock], which the scheduler acquired. *)
Definition pc_holds (l : nat) (x : pc) : bool :=
  match l, x with
  | O, (SRel | SSet | SSched | SBack | SUnpt | WWake | WUnpt | YSet | YSched | YBack | YUnpt | FRet) => true
  | S O, (STest | SPt | SRel | SDone | WSet | WPt | WWake | WUnpt | WDone) => true
  | _, _ => false
  end.
Definition holds (ts : list task) (o : list ctl) (l c : nat) : bool :=
  match o !! c with
  | Some CPick | Some CRel => bool_decide (l = PT)
  | Some (Runs p) => match ts !! p with Some t => pc_holds l (tpc t) | None => false end
  | _ => false
  end.

Definition in_sched (x : pc) : Prop := x = SSched \/ x = YSched.
Definition switched_off (x : pc) : Prop := x = SBack \/ x = YBack \/ x = FRet.
Definition running_ok (t : task) : Prop :=
  (in_sched (tpc t) /\ (tstate t = SLEEPING \/ tstate t = RUNNABLE)) \/ (~ in_sched (tpc t) /\ tstate t = RUNNING).
Definition waking (t : task) : Prop := tpc t = WPt \/ tpc t = WWake.
Definition waiting (t : task) : Prop := tpc t = SSet \/ tstate t = SLEEPING.

(** While the condition holds, nobody is on the way to sleep with the lock
    held, and whoever waits will be woken. *)
Definition cond_ok (ts : list task) (b : bool) : Prop := b = true -> forall p t, ts !! p = Some t ->
  tpc t <> SPt /\ tpc t <> SRel /\ (waiting t -> exists q u, ts !! q = Some u /\ waking u).

Record sched_inv (w : world) : Prop := {
  si_locks : locks_inv (holds (tasks w) (on w)) (lst w);
  si_len : length (cpus (lst w)) = length (on w);
  si_on : forall c p, on w !! c = Some (Runs p) -> exists t, tasks w !! p = Some t /\ running_ok t;
  si_once : forall c d p, on w !! c = Some (Runs p) -> on w !! d = Some (Runs p) -> d = c;
  si_off : forall p t, tasks w !! p = Some t -> (forall c, on w !! c <> Some (Runs p)) ->
    switched_off (tpc t) /\ (tstate t = SLEEPING \/ tstate t = RUNNABLE);
  si_asleep : forall p t, tasks w !! p = Some t -> tstate t = SLEEPING -> tchan t = CHAN /\ (tpc t = SSched \/ tpc t = SBack);
  si_cond : cond_ok (tasks w) (cond w)
}.

(** Nothing panics, and the invariant holds afterwards. *)
Definition safe (m : M world unit) (w : world) : Prop :=
  match m w with Ret w' _ => sched_inv w' | Panic _ => False | Sleep _ _ | Fault => True end.

Lemma cpu_exists w c x : sched_inv w -> on w !! c = Some x -> exists k, cpus (lst w) !! c = Some k.
Proof. intros I Hc. apply lookup_lt_is_Some_2. rewrite (si_len _ I). by eapply lookup_lt_Some. Qed.

Lemma lock_unique h s l c d : locks_inv h s -> (l < 2)%nat -> h l c = true -> h l d = true -> d = c.
Proof.
  intros [H1 _] Hl Hc Hd. destruct (H1 l Hl) as (k & _ & [(_ & _ & Hf)|(e & _ & _ & He)]); [by rewrite Hf in Hc|].
  apply He in Hc, Hd. congruence.
Qed.

(** Two processes that hold the same lock are the same. *)
Lemma holder_unique w c p t q u l : sched_inv w -> (l < 2)%nat -> on w !! c = Some (Runs p) -> tasks w !! p = Some t -> pc_holds l (tpc t) = true ->
  tasks w !! q = Some u -> pc_holds l (tpc u) = true -> ~ switched_off (tpc u) -> q = p.
Proof.
  intros I Hl Hc Ht Hh Hu Hhu Hoff. destruct (decide (Runs q ∈ on w)) as [[d Hd]%list_elem_of_lookup|Hno].
  - assert (d = c) as ->; [|congruence]. apply (lock_unique (holds (tasks w) (on w)) (lst w) l); [apply I|done| |]; unfold holds.
    + by rewrite Hc, Ht.
    + by rewrite Hd, Hu.
  - exfalso. apply Hoff, (si_off _ I q u Hu). intros d Hd. apply Hno, list_elem_of_lookup. by exists d.
Qed.

Lemma holds_move ts o c p t' l d : o !! c = Some (Runs p) -> is_Some (ts !! p) -> (forall e, o !! e = Some (Runs p) -> e = c) ->
  holds (<[p := t']> ts) o l d = if decide (d = c) then pc_holds l (tpc t') else holds ts o l d.
Proof.
  intros Hc [t Ht] Honce. unfold holds. case_decide as E.
  - subst d. rewrite Hc. by rewrite list_lookup_insert_eq by (by eapply lookup_lt_Some).
  - destruct (o !! d) as [[| | | |q]|] eqn:Hd; try done. rewrite list_lookup_insert_ne; [done|]. intros ->. by apply E, Honce.
Qed.

Lemma cond_step ts p t t' b : cond_ok ts b -> ts !! p = Some t ->
  (b = true -> tpc t' <> SPt /\ tpc t' <> SRel /\ (waiting t' -> waiting t) /\ (waking t -> waking t')) -> cond_ok (<[p := t']> ts) b.
Proof.
  intros Hok Ht Hcond ->. destruct (Hcond eq_refl) as (N1 & N2 & Hwait & Hwake). intros q u Hu. rewrite (lookup_ins _ _ _ _ _ Ht) in Hu.
  assert ((exists r x, ts !! r = Some x /\ waking x) -> exists r x, <[p := t']> ts !! r = Some x /\ waking x) as Hw.
  { intros (r & x & Hr & Hx). destruct (decide (p = r)) as [->|Hne].
    - exists r, t'. rewrite (lookup_ins _ _ _ _ _ Ht), decide_True by done. split; [done|]. apply Hwake. by simplify_eq.
    - exists r, x. by rewrite list_lookup_insert_ne. }
  case_decide as E; simplify_eq.
  - split; [done|]. split; [done|]. intros W. apply Hw. by apply (Hok eq_refl q t Ht), Hwait.
  - destruct (Hok eq_refl q u Hu) as (M1 & M2 & M3). split; [done|]. split; [done|]. intros W. by apply Hw, M3.
Qed.

(** A step of the process [p] on [c], which changes nothing of the others. *)
Lemma task_inv w c p t t' L b : sched_inv w -> on w !! c = Some (Runs p) -> tasks w !! p = Some t ->
  locks_inv (fun l d => if decide (d = c) then pc_holds l (tpc t') else holds (tasks w) (on w) l d) L -> length (cpus L) = length (cpus (lst w)) ->
  running_ok t' -> (tstate t' = SLEEPING -> tchan t' = CHAN /\ tpc t' = SSched) ->
  cond_ok (<[p := t']> (tasks w)) b -> sched_inv (mk_world L (<[p := t']> (tasks w)) (on w) b).
Proof.
  intros I Hc Ht HL Hlen Hrun Hsleep Hcond. split; cbn [lst tasks on cond].
  - eapply locks_inv_ext; [|exact HL]. intros l d _. symmetry. apply holds_move; [done|by exists t|]. intros e He. by apply (si_once _ I c e p).
  - rewrite Hlen. apply I.
  - intros d q Hd. rewrite (lookup_ins _ _ _ _ _ Ht). case_decide as E; [subst q; by exists t'|by apply (si_on _ I d)].
  - apply I.
  - intros q u. rewrite (lookup_ins _ _ _ _ _ Ht). case_decide as E; [subst q; intros _ Hno; by destruct (Hno c)|apply I].
  - intros q u. rewrite (lookup_ins _ _ _ _ _ Ht). case_decide as E; [intros [= <-] S; destruct (Hsleep S); auto|apply I].
  - done.
Qed.

Lemma task_at_ret p w t : tasks w !! p = Some t -> task_at p w = Ret w t.
Proof. intros H. unfold task_at. by rewrite gets_bind, H. Qed.
Lemma upd_task_ret p f w t : tasks w !! p = Some t -> upd_task p f w = Ret (mk_world (lst w) (<[p := f t]> (tasks w)) (on w) (cond w)) tt.
Proof. intros H. unfold upd_task. by mrun (task_at_ret p w t H). Qed.

(** Steps without locks. *)
Lemma plain_inv w c p t t' b : sched_inv w -> on w !! c = Some (Runs p) -> tasks w !! p = Some t -> (forall l, (l < 2)%nat -> pc_holds l (tpc t') = pc_holds l (tpc t)) ->
  running_ok t' -> (tstate t' = SLEEPING -> tchan t' = CHAN /\ tpc t' = SSched) -> cond_ok (<[p := t']> (tasks w)) b ->
  sched_inv (mk_world (lst w) (<[p := t']> (tasks w)) (on w) b).
Proof.
  intros I Hc Ht Hh Hr Hs Hcond. apply (task_inv w c p t); try done. eapply locks_inv_ext; [|apply I]. intros l d Hl. cbn beta.
  case_decide as E; [|done]. subst d. rewrite Hh by done. unfold holds. by rewrite Hc, Ht.
Qed.

(** Steps that acquire or release a lock, and go on to [x]. *)
Lemma acq_safe w c p t l x : sched_inv w -> on w !! c = Some (Runs p) -> tasks w !! p = Some t -> (l < 2)%nat ->
  (forall l', (l' < 2)%nat -> pc_holds l' x = if decide (l' = l) then true else pc_holds l' (tpc t)) -> pc_holds l (tpc t) = false ->
  tstate t = RUNNING -> ~ in_sched x -> cond_ok (<[p := go x t]> (tasks w)) (cond w) -> safe (acq c l ;;; upd_task p (go x)) w.
Proof.
  intros I Hc Ht Hl Hx Hfree Hrun Hns Hcond. destruct (cpu_exists w c _ I Hc) as [k Hk]. assert (holds (tasks w) (on w) l c = false) as Hh by (unfold holds; by rewrite Hc, Ht).
  unfold safe, acq, inlock, bind, zoom. destruct (acquire_law _ _ c l k (fun _ => 0) 0 (si_locks _ I) Hl Hh Hk) as [[-> _]|(s' & -> & _ & HL & Hlen)]; [done|].
  rewrite (upd_task_ret p (go x) _ t) by done. cbn [lst tasks on cond]. apply (task_inv w c p t); try done; [|by right|by cbn; rewrite Hrun].
  eapply locks_inv_ext; [|exact HL]. intros l' d Hl'. unfold hset. cbn [tpc go]. destruct (decide (d = c)) as [->|Hd].
  - rewrite Hx by done. destruct (decide (l' = l)) as [->|Hne]; [by rewrite decide_True|]. rewrite decide_False by naive_solver. unfold holds. by rewrite Hc, Ht.
  - by rewrite decide_False by naive_solver.
Qed.
Lemma rel_safe w c p t l x : sched_inv w -> on w !! c = Some (Runs p) -> tasks w !! p = Some t -> (l < 2)%nat ->
  (forall l', (l' < 2)%nat -> pc_holds l' x = if decide (l' = l) then false else pc_holds l' (tpc t)) -> pc_holds l (tpc t) = true ->
  tstate t = RUNNING -> ~ in_sched x -> cond_ok (<[p := go x t]> (tasks w)) (cond w) -> safe (rel c l ;;; upd_task p (go x)) w.
Proof.
  intros I Hc Ht Hl Hx Hheld Hrun Hns Hcond. destruct (cpu_exists w c _ I Hc) as [k Hk]. assert (holds (tasks w) (on w) l c = true) as Hh by (unfold holds; by rewrite Hc, Ht).
  unfold safe, rel, inlock, bind, zoom. destruct (release_law _ _ c l k (si_locks _ I) Hl Hh Hk) as (s' & -> & HL & Hlen).
  rewrite (upd_task_ret p (go x) _ t) by done. cbn [lst tasks on cond]. apply (task_inv w c p t); try done; [|by right|by cbn; rewrite Hrun].
  eapply locks_inv_ext; [|exact HL]. intros l' d Hl'. unfold hset. cbn [tpc go]. destruct (decide (d = c)) as [->|Hd].
  - rewrite Hx by done. destruct (decide (l' = l)) as [->|Hne]; [by rewrite decide_True|]. rewrite decide_False by naive_solver. unfold holds. by rewrite Hc, Ht.
  - by rewrite decide_False by naive_solver.
Qed.

(** The processor alone moves, in the scheduler. *)
Lemma ctl_inv w c x y L : sched_inv w -> on w !! c = Some x -> (forall p, x <> Runs p) -> (forall p, y <> Runs p) ->
  locks_inv (holds (tasks w) (<[c := y]> (on w))) L -> length (cpus L) = length (cpus (lst w)) -> sched_inv (mk_world L (tasks w) (<[c := y]> (on w)) (cond w)).
Proof.
  intros I Hc Hx Hy HL Hlen. assert (forall d p, <[c := y]> (on w) !! d = Some (Runs p) <-> on w !! d = Some (Runs p)) as E.
  { intros d p. rewrite (lookup_ins _ _ _ _ _ Hc). case_decide as E; [subst d; rewrite Hc; naive_solver|done]. }
  split; cbn [lst tasks on cond]; try done.
  - rewrite length_insert, Hlen. apply I.
  - intros d p Hd%E. by apply (si_on _ I d).
  - intros d e p Hd%E He%E. by apply (si_once _ I d e p).
  - intros p t Ht Hno. apply (si_off _ I p t Ht). intros d Hd. by apply (Hno d), E.
  - apply I.
  - apply I.
Qed.

(** What a processor in the scheduler holds when it moves to [y]. *)
Lemma holds_ctl ts o c x y l d : o !! c = Some x -> (forall p, y <> Runs p) ->
  holds ts (<[c := y]> o) l d = if decide (d = c) then match y with CPick | CRel => bool_decide (l = PT) | _ => false end else holds ts o l d.
Proof.
  intros Hc Hy. unfold holds. rewrite (lookup_ins _ _ _ _ _ Hc). destruct (decide (c = d)) as [->|Hne].
  - rewrite decide_True by done. destruct y; try done. by destruct (Hy p).
  - by rewrite decide_False by done.
Qed.

Lemma top_safe w c : sched_inv w -> on w !! c = Some CTop -> safe (inlock (upd_cpu c sti) ;;; set_on c CAcq) w.
Proof.
  intros I Hc. destruct (cpu_exists w c _ I Hc) as [k Hk]. unfold safe, inlock, bind, zoom. rewrite (upd_cpu_ret c sti _ k Hk). cbn.
  apply (ctl_inv w c CTop); try done; [|cbn; apply length_insert]. apply (locks_inv_ext (holds (tasks w) (on w))).
  { intros l d _. rewrite (holds_ctl _ _ _ CTop) by done. case_decide as E; [subst d|done]. unfold holds. by rewrite Hc. }
  destruct (si_locks _ I) as [H1 H2]. split; [exact H1|]. intros d kd. cbn [cpus]. rewrite (lookup_ins _ _ _ _ _ Hk). case_decide as E; [|apply H2].
  intros [= <-]. subst d. destruct (H2 c k Hk) as [Hn _]. split; [exact Hn|]. intros Hnz. exfalso. apply Hnz. unfold nesting, holds. by rewrite Hc.
Qed.
Lemma cacq_safe w c : sched_inv w -> on w !! c = Some CAcq -> safe (acq c PT ;;; set_on c CPick) w.
Proof.
  intros I Hc. destruct (cpu_exists w c _ I Hc) as [k Hk]. assert (holds (tasks w) (on w) PT c = false) as Hh by (unfold holds; by rewrite Hc).
  unfold safe, acq, inlock, bind, zoom. destruct (acquire_law _ _ c PT k (fun _ => 0) 0 (si_locks _ I) ltac:(lia) Hh Hk) as [[-> _]|(s' & -> & _ & HL & Hlen)]; [done|].
  cbn. apply (ctl_inv w c CAcq); try done. eapply locks_inv_ext; [|exact HL]. intros l d Hl. rewrite (holds_ctl _ _ _ CAcq) by done. unfold hset.
  destruct (decide (d = c)) as [->|Hd]; [|by rewrite decide_False by naive_solver]. unfold holds. rewrite Hc. destruct l; [by rewrite decide_True|by rewrite decide_False by naive_solver].
Qed.
Lemma crel_safe w c : sched_inv w -> on w !! c = Some CRel -> safe (rel c PT ;;; set_on c CTop) w.
Proof.
  intros I Hc. destruct (cpu_exists w c _ I Hc) as [k Hk]. assert (holds (tasks w) (on w) PT c = true) as Hh by (unfold holds; by rewrite Hc).
  unfold safe, rel, inlock, bind, zoom. destruct (release_law _ _ c PT k (si_locks _ I) ltac:(lia) Hh Hk) as (s' & -> & HL & Hlen).
  cbn. apply (ctl_inv w c CRel); try done. eapply locks_inv_ext; [|exact HL]. intros l d Hl. rewrite (holds_ctl _ _ _ CRel) by done. unfold hset.
  destruct (decide (d = c)) as [->|Hd]; [|by rewrite decide_False by naive_solver]. unfold holds. rewrite Hc. destruct l; [by rewrite decide_True|by rewrite decide_False by naive_solver].
Qed.

(** The scheduler holds [ptable.lock], so a runnable process is on no processor. *)
Lemma runnable_off w c p t : sched_inv w -> on w !! c = Some CPick -> tasks w !! p = Some t -> tstate t = RUNNABLE -> forall d, on w !! d <> Some (Runs p).
Proof.
  intros I Hc Ht Hr d Hd. destruct (si_on _ I d p Hd) as (u & Hu & [[Hs _]|[_ Hrun]]); [|congruence].
  assert (u = t) as -> by congruence. assert (c = d) as ->; [|congruence]. apply (lock_unique (holds (tasks w) (on w)) (lst w) PT); [apply I|lia| |]; unfold holds.
  - rewrite Hd, Ht. by destruct Hs as [-> | ->].
  - by rewrite Hc.
Qed.

Lemma pick_safe w c p t : sched_inv w -> on w !! c = Some CPick -> tasks w !! p = Some t -> tstate t = RUNNABLE ->
  safe (upd_task p (set_tstate RUNNING) ;;; set_on c (Runs p)) w.
Proof.
  intros I Hc Ht Hr. pose proof (runnable_off w c p t I Hc Ht Hr) as Hoff. destruct (si_off _ I p t Ht Hoff) as [Hpc _].
  unfold safe, bind. rewrite (upd_task_ret p _ w t Ht). cbn. set (t' := set_tstate RUNNING t).
  assert (forall d q, <[c := Runs p]> (on w) !! d = Some (Runs q) -> (d = c /\ q = p) \/ (d <> c /\ q <> p /\ on w !! d = Some (Runs q))) as Hon.
  { intros d q. rewrite (lookup_ins _ _ _ _ _ Hc). case_decide as E; [intros [= ->]; by left|]. intros Hd. right. split; [done|]. split; [|done]. intros ->. by apply (Hoff d). }
  split; cbn [lst tasks on cond].
  - eapply locks_inv_ext; [|apply I]. intros l d Hl. unfold holds. rewrite (lookup_ins _ _ _ _ _ Hc). destruct (decide (c = d)) as [<-|Hne].
    + rewrite Hc, (lookup_ins _ _ _ _ _ Ht), decide_True by done. cbn. destruct l as [|[|l]]; [| |lia]; by destruct Hpc as [-> | [-> | ->]].
    + destruct (on w !! d) as [[| | | |q]|] eqn:Hd; try done. rewrite list_lookup_insert_ne; [done|]. intros ->. by apply (Hoff d).
  - rewrite length_insert. apply I.
  - intros d q [[-> ->]|(Hd & Hq & Hdq)]%Hon.
    + exists t'. rewrite (lookup_ins _ _ _ _ _ Ht), decide_True by done. split; [done|]. right. split; [|done]. unfold in_sched. cbn. by destruct Hpc as [-> | [-> | ->]]; intros [|].
    + destruct (si_on _ I d q Hdq) as (u & Hu & Hok). exists u. by rewrite list_lookup_insert_ne.
  - intros d e q [[-> ->]|(Hd & Hq & Hdq)]%Hon [[-> Hq']|(He & Hq' & Heq)]%Hon; try done. by apply (si_once _ I d e q).
  - intros q u. rewrite (lookup_ins _ _ _ _ _ Ht). case_decide as E.
    + subst q. intros _ Hno. destruct (Hno c). by rewrite (lookup_ins _ _ _ _ _ Hc), decide_True.
    + intros Hu Hno. apply (si_off _ I q u Hu). intros d Hd. apply (Hno d). rewrite (lookup_ins _ _ _ _ _ Hc). case_decide; [congruence|done].
  - intros q u. rewrite (lookup_ins _ _ _ _ _ Ht). case_decide as E; [by intros [= <-]|apply I].
  - apply (cond_step _ p t); [apply I|done|]. intros _. unfold t', waiting, waking. cbn. destruct Hpc as [-> | [-> | ->]]; naive_solver.
Qed.

Lemma read_locks {A} (m : M lstate A) w a : m (lst w) = Ret (lst w) a -> zoom lst (fun l w => mk_world l (tasks w) (on w) (cond w)) m w = Ret w a.
Proof. intros H. unfold zoom. rewrite H. by destruct w. Qed.

(** [sched]: none of its assertions fails, and the scheduler goes on with the lock. *)
Lemma sched_safe w c p t back : sched_inv w -> on w !! c = Some (Runs p) -> tasks w !! p = Some t ->
  (tpc t = SSched /\ back = SBack) \/ (tpc t = YSched /\ back = YBack) -> safe (sched c p back) w.
Proof.
  intros I Hc Ht Hback. destruct (cpu_exists w c _ I Hc) as [k Hk]. destruct (si_locks _ I) as [H1 H2].
  assert (forall l, holds (tasks w) (on w) l c = bool_decide (l = PT)) as Hh by (intros l; unfold holds; rewrite Hc, Ht; destruct l as [|[|l]]; by destruct Hback as [[-> _]|[-> _]]).
  destruct (H1 PT ltac:(lia)) as (x & Hx & [(_ & _ & Hf)|(d & E1 & Ed & Hd)]); [by specialize (Hf c); rewrite Hh in Hf|].
  assert (d = c) as -> by (symmetry; apply Hd; by rewrite Hh). destruct (H2 c k Hk) as [Hn Hif].
  assert (nesting (holds (tasks w) (on w)) c = 1) as En by (unfold nesting; by rewrite !Hh). rewrite En in Hn, Hif.
  destruct (si_on _ I c p Hc) as (u & Hu & Hok). assert (u = t) as -> by congruence.
  assert (tstate t = SLEEPING \/ tstate t = RUNNABLE) as Hst by (destruct Hok as [[_ ?]|[Hno _]]; [done|]; destruct Hno; destruct Hback as [[-> _]|[-> _]]; [by left|by right]).
  unfold safe, sched. erewrite bind_ret by (apply read_locks; unfold holding; erewrite bind_ret by (by apply lock_at_ret); reflexivity).
  rewrite E1, Ed, bool_decide_eq_true_2 by done. cbn [Z.eqb negb andb]. erewrite bind_ret by (apply read_locks, cpu_at_ret, Hk). rewrite Hn. cbn [Z.eqb Pos.eqb negb].
  mrun (task_at_ret p w t Ht). rewrite decide_False by (destruct Hst; congruence). rewrite Hif by done. cbn [Z.eqb negb]. mrun (upd_task_ret p (fun t => go back (set_tintena (intena k) t)) w t Ht).
  unfold set_on, modify. cbn [lst tasks on cond]. set (t' := go back _). assert (switched_off back) as Hoff by (destruct Hback as [[_ ->]|[_ ->]]; [by left|by right; left]).
  assert (forall d q, <[c := CRel]> (on w) !! d = Some (Runs q) -> d <> c /\ q <> p /\ on w !! d = Some (Runs q)) as Hon.
  { intros d q. rewrite (lookup_ins _ _ _ _ _ Hc). case_decide as E; [done|]. intros Hdq. split; [done|]. split; [|done]. intros ->. apply E. symmetry. by apply (si_once _ I c d p). }
  split; cbn [lst tasks on cond].
  - eapply locks_inv_ext; [|apply I]. intros l d Hl. rewrite (holds_ctl _ _ _ _ _ _ _ Hc) by done. case_decide as E; [by subst d|]. unfold holds.
    destruct (on w !! d) as [[| | | |q]|] eqn:Hdq; try done. rewrite list_lookup_insert_ne; [done|]. intros ->. by apply E, (si_once _ I c d q).
  - rewrite length_insert. apply I.
  - intros d q (Hd' & Hq & Hdq)%Hon. destruct (si_on _ I d q Hdq) as (u & Hu' & Hok'). exists u. by rewrite list_lookup_insert_ne.
  - intros d e q (_ & _ & Hdq)%Hon (_ & _ & Heq)%Hon. by apply (si_once _ I d e q).
  - intros q u. rewrite (lookup_ins _ _ _ _ _ Ht). case_decide as E; [intros [= <-] _; by split|]. intros Hu' Hno. apply (si_off _ I q u Hu').
    intros d Hdq. apply (Hno d). rewrite (lookup_ins _ _ _ _ _ Hc). case_decide; [congruence|done].
  - intros q u. rewrite (lookup_ins _ _ _ _ _ Ht). case_decide as E; [|apply I]. intros [= <-] Hs. destruct (si_asleep _ I p t Ht Hs) as [Hch Hpc]. split; [done|]. right.
    destruct Hback as [[_ ->]|[Hy _]]; [done|]. rewrite Hy in Hpc. naive_solver.
  - apply (cond_step _ p t); [apply I|done|]. intros _. unfold t', waiting, waking. cbn. destruct Hback as [[-> ->]|[-> ->]]; naive_solver.
Qed.

(** [wakeup1]: afterwards nobody waits. *)
Lemma wake_inv w c p t : sched_inv w -> on w !! c = Some (Runs p) -> tasks w !! p = Some t -> tpc t = WWake ->
  let w' := mk_world (lst w) (wakeup1 CHAN <$> tasks w) (on w) (cond w) in sched_inv w' /\ forall q u, tasks w' !! q = Some u -> ~ waiting u.
Proof.
  intros I Hc Ht Hpc w'. assert (forall u, tpc (wakeup1 CHAN u) = tpc u /\ tchan (wakeup1 CHAN u) = tchan u) as Epc by (intros u; unfold wakeup1; by case_decide).
  assert (forall q u, tasks w !! q = Some u -> tstate (wakeup1 CHAN u) <> SLEEPING) as Hawake.
  { intros q u Hu. unfold wakeup1. case_decide as E; [done|]. intros Hs. apply E. split; [done|]. by apply (si_asleep _ I q u Hu). }
  assert (forall q u, tasks w !! q = Some u -> ~ waiting (wakeup1 CHAN u)) as Hnw.
  { intros q u Hu [Hs|Hs]; [|by apply (Hawake q u Hu)]. rewrite (proj1 (Epc u)) in Hs.
    assert (q = p) as -> by (apply (holder_unique w c p t q u PT); try done; [lia|by rewrite Hpc|by rewrite Hs|unfold switched_off; rewrite Hs; naive_solver]). congruence. }
  split; [|intros q u; cbn [tasks w']; rewrite list_lookup_fmap_Some; intros (v & -> & Hv); by apply (Hnw q)].
  split; cbn [lst tasks on cond w'].
  - eapply locks_inv_ext; [|apply I]. intros l d _. unfold holds. destruct (on w !! d) as [[| | | |q]|]; try done. rewrite list_lookup_fmap.
    destruct (tasks w !! q) as [u|]; [|done]. cbn. by rewrite (proj1 (Epc u)).
  - apply I.
  - intros d q Hd. destruct (si_on _ I d q Hd) as (u & Hu & Hok). exists (wakeup1 CHAN u). rewrite list_lookup_fmap, Hu. split; [done|].
    unfold running_ok in *. rewrite (proj1 (Epc u)). unfold wakeup1. case_decide as E; [|done]. destruct E as [E _]. rewrite E in Hok. cbn. naive_solver.
  - apply I.
  - intros q u. rewrite list_lookup_fmap_Some. intros (v & -> & Hv) Hno. destruct (si_off _ I q v Hv Hno) as [Ho Hs]. rewrite (proj1 (Epc v)). split; [done|].
    unfold wakeup1. case_decide; [by right|done].
  - intros q u. rewrite list_lookup_fmap_Some. intros (v & -> & Hv) Hs. by destruct (Hawake q v Hv).
  - intros Hb q u. rewrite list_lookup_fmap_Some. intros (v & -> & Hv). destruct (si_cond _ I Hb q v Hv) as (N1 & N2 & _). rewrite (proj1 (Epc v)).
    split; [done|]. split; [done|]. intros Hw. by destruct (Hnw q v Hv).
Qed.

(** Coming back from [swtch]: only [intena] of the processor changes. *)
Lemma back_inv w c p t : sched_inv w -> on w !! c = Some (Runs p) -> tasks w !! p = Some t ->
  exists w', sched_back c p w = Ret w' tt /\ sched_inv w' /\ tasks w' = tasks w /\ on w' = on w /\ cond w' = cond w.
Proof.
  intros I Hc Ht. destruct (cpu_exists w c _ I Hc) as [k Hk]. unfold sched_back. mrun (task_at_ret p w t Ht). unfold inlock, zoom.
  rewrite (upd_cpu_ret c _ (lst w) k Hk). eexists. split; [reflexivity|]. split; [|done].
  destruct I as [[H1 H2] H3 H4 H5 H6 H7 H8]. split; cbn [lst tasks on cond]; try done; [|cbn; by rewrite length_insert].
  split; [done|]. cbn [cpus]. intros d kd. rewrite (lookup_ins _ _ _ _ _ Hk). case_decide as E; [|apply H2]. intros [= <-]. subst d. apply (H2 c k Hk).
Qed.

Lemma cond_false ts b : (b = true -> False) -> cond_ok ts b.
Proof. intros Hb E. by destruct Hb. Qed.

(** The side conditions of a step from a known place to a known place. *)
Ltac place_solve :=
  match goal with
  | |- forall l', (l' < 2)%nat -> _ => let l := fresh "l" in intros l ?; destruct l as [|[|l]]; [| |lia]; by cbn
  | |- cond_ok (<[_ := _]> _) _ => eapply cond_step; [by eapply si_cond|eassumption|]; intros _; unfold waiting, waking; cbn; naive_solver
  | |- ~ in_sched _ => unfold in_sched; cbn; naive_solver
  | |- running_ok _ => right; split; [unfold in_sched; cbn; naive_solver|done]
  | |- _ = SLEEPING -> _ => cbn; congruence
  | |- _ => first [done | lia | eassumption]
  end.

(** The steps of a running process that are more than a move or a lock. *)
Section running.
Context (w : world) (c p : nat) (ch ie : Z) (I : sched_inv w) (Hc : on w !! c = Some (Runs p)).
Abbreviation at_pc x := (tasks w !! p = Some (mk_task RUNNING ch x ie)).

Lemma test_safe : at_pc STest -> safe (let* b := gets cond in if b then set_cond false ;;; upd_task p (go SDone) else upd_task p (go SPt)) w.
Proof.
  intros Ht. unfold safe. rewrite gets_bind. destruct (cond w) eqn:Eb.
  - unfold set_cond. rewrite modify_bind. erewrite upd_task_ret by exact Ht. cbn [lst tasks on cond]. eapply plain_inv; eauto; place_solve.
  - erewrite upd_task_ret by exact Ht. eapply plain_inv; eauto; try place_solve. apply cond_false. congruence.
Qed.
Lemma sset_safe : at_pc SSet -> safe (upd_task p (set_tchan CHAN) ;;; upd_task p (set_tstate SLEEPING) ;;; upd_task p (go SSched)) w.
Proof.
  intros Ht. unfold safe. mrun (upd_task_ret p (set_tchan CHAN) w _ Ht). assert (p < length (tasks w))%nat as Hlt by (by eapply lookup_lt_Some).
  erewrite bind_ret by (apply upd_task_ret, list_lookup_insert_eq, Hlt). erewrite upd_task_ret by (apply list_lookup_insert_eq; cbn [tasks]; by rewrite length_insert).
  cbn [lst tasks on cond]. rewrite !list_insert_insert_eq. eapply plain_inv; eauto; try place_solve. left. split; [by left|by left].
Qed.
Lemma sback_safe : at_pc SBack -> safe (sched_back c p ;;; upd_task p (set_tchan 0) ;;; upd_task p (go SUnpt)) w.
Proof.
  intros Ht. unfold safe. destruct (back_inv w c p _ I Hc Ht) as (w1 & R & I1 & Et & Eo & Ec). mrun R. rewrite <- Et in Ht. rewrite <- Eo in Hc.
  mrun (upd_task_ret p (set_tchan 0) w1 _ Ht). assert (p < length (tasks w1))%nat as Hlt by (by eapply lookup_lt_Some).
  erewrite upd_task_ret by (by apply list_lookup_insert_eq). cbn [lst tasks on cond]. rewrite list_insert_insert_eq. eapply plain_inv; eauto; place_solve.
Qed.
Lemma wset_safe : at_pc WSet -> safe (set_cond true ;;; upd_task p (go WPt)) w.
Proof.
  intros Ht. unfold safe, set_cond. rewrite modify_bind. erewrite upd_task_ret by exact Ht. cbn [lst tasks on cond].
  eapply plain_inv; [exact I|exact Hc|exact Ht|place_solve|place_solve|place_solve|].
  intros _ q u. rewrite (lookup_ins _ _ _ _ _ Ht). case_decide as E; [intros [= <-]; by repeat split; try intros [|]|]. intros Hu.
  assert (pc_holds LK (tpc u) = true -> ~ switched_off (tpc u) -> False) as Hno by (intros Hh Hs; apply E; symmetry; by apply (holder_unique w c p _ q u LK I ltac:(lia) Hc Ht)).
  split; [intros F; apply Hno; rewrite F; [done|intros [|[|]]; done]|]. split; [intros F; apply Hno; rewrite F; [done|intros [|[|]]; done]|].
  intros _. eexists p, _. rewrite (lookup_ins _ _ _ _ _ Ht), decide_True by done. split; [done|]. by left.
Qed.
Lemma wwake_safe : at_pc WWake -> safe (modify (fun w => mk_world (lst w) (wakeup1 CHAN <$> tasks w) (on w) (cond w)) ;;; upd_task p (go WUnpt)) w.
Proof.
  intros Ht. unfold safe. rewrite modify_bind. destruct (wake_inv w c p _ I Hc Ht eq_refl) as [I1 Hnw]. set (w1 := mk_world _ (wakeup1 CHAN <$> _) _ _) in *.
  assert (tasks w1 !! p = Some (mk_task RUNNING ch WWake ie)) as Ht1 by (cbn [tasks w1]; by rewrite list_lookup_fmap, Ht).
  rewrite (upd_task_ret p _ w1 _ Ht1). eapply plain_inv; [exact I1|exact Hc|exact Ht1|place_solve|place_solve|place_solve|]. intros Hb q u. rewrite (lookup_ins _ _ _ _ _ Ht1).
  case_decide as E; [intros [= <-]; repeat split; try done; by intros [|]|]. intros Hu. destruct (si_cond _ I1 Hb q u Hu) as (N1 & N2 & _).
  split; [done|]. split; [done|]. intros Hw. by destruct (Hnw q u Hu).
Qed.
Lemma yset_safe : at_pc YSet -> safe (upd_task p (set_tstate RUNNABLE) ;;; upd_task p (go YSched)) w.
Proof.
  intros Ht. unfold safe. mrun (upd_task_ret p (set_tstate RUNNABLE) w _ Ht). assert (p < length (tasks w))%nat as Hlt by (by eapply lookup_lt_Some).
  erewrite upd_task_ret by (by apply list_lookup_insert_eq). cbn [lst tasks on cond]. rewrite list_insert_insert_eq. eapply plain_inv; eauto; try place_solve.
  left. split; [by right|by right].
Qed.
Lemma yback_safe : at_pc YBack -> safe (sched_back c p ;;; upd_task p (go YUnpt)) w.
Proof.
  intros Ht. unfold safe. destruct (back_inv w c p _ I Hc Ht) as (w1 & R & I1 & Et & Eo & Ec). mrun R. rewrite <- Et in Ht. rewrite <- Eo in Hc.
  rewrite (upd_task_ret p (go YUnpt) w1 _ Ht). eapply plain_inv; eauto; place_solve.
Qed.
End running.

Lemma task_step_safe w c p k : sched_inv w -> on w !! c = Some (Runs p) -> safe (task_step c p k) w.
Proof.
  intros I Hc. destruct (si_on _ I c p Hc) as (t & Ht & Hok). unfold safe, task_step. mrun (task_at_ret p w t Ht). cbv zeta.
  destruct t as [st ch x ie]. cbn [tpc] in *.
  assert (in_sched x \/ (~ in_sched x /\ st = RUNNING)) as [Hin|[Hns Hrun]] by (destruct Hok as [[? _]|[? ?]]; [by left|by right]).
  { destruct Hin as [-> | ->]; cbn [tpc sleep_step yield_step]; [apply (sched_safe w c p _ SBack I Hc Ht); by left|apply (sched_safe w c p _ YBack I Hc Ht); by right]. }
  subst st. clear Hok.
  destruct x; cbn [tpc sleep_step wakeup_step yield_step]; unfold forkret_step; try (exfalso; apply Hns; unfold in_sched; by auto);
    try (by apply (test_safe w c p ch ie I Hc Ht)); try (by apply (sset_safe w c p ch ie I Hc Ht)); try (by apply (sback_safe w c p ch ie I Hc Ht));
    try (by apply (wset_safe w c p ch ie I Hc Ht)); try (by apply (wwake_safe w c p ch ie I Hc Ht)); try (by apply (yset_safe w c p ch ie I Hc Ht)); try (by apply (yback_safe w c p ch ie I Hc Ht)).
  - destruct k as [|[|k]]; rewrite (upd_task_ret p _ w _ Ht); eapply plain_inv; eauto; place_solve.
  - apply (acq_safe w c p _ LK STest I Hc Ht); place_solve.
  - apply (acq_safe w c p _ PT SRel I Hc Ht); try place_solve. apply cond_false. intros E. destruct (si_cond _ I E p _ Ht) as (N1 & N2 & _). first [by apply N1|by apply N2].
  - apply (rel_safe w c p _ LK SSet I Hc Ht); try place_solve. apply cond_false. intros E. destruct (si_cond _ I E p _ Ht) as (N1 & N2 & _). first [by apply N1|by apply N2].
  - apply (rel_safe w c p _ PT SRelock I Hc Ht); place_solve.
  - apply (acq_safe w c p _ LK STest I Hc Ht); place_solve.
  - apply (rel_safe w c p _ LK Idle I Hc Ht); place_solve.
  - apply (acq_safe w c p _ LK WSet I Hc Ht); place_solve.
  - apply (acq_safe w c p _ PT WWake I Hc Ht); place_solve.
  - apply (rel_safe w c p _ PT WDone I Hc Ht); place_solve.
  - apply (rel_safe w c p _ LK Idle I Hc Ht); place_solve.
  - apply (acq_safe w c p _ PT YSet I Hc Ht); place_solve.
  - apply (rel_safe w c p _ PT Idle I Hc Ht); place_solve.
  - apply (rel_safe w c p _ PT Idle I Hc Ht); place_solve.
Qed.

Lemma cpu_step_safe w c k : sched_inv w -> safe (cpu_step c k) w.
Proof.
  intros I. unfold safe, cpu_step. rewrite gets_bind. destruct (on w !! c) as [x|] eqn:Hc; [|done]. rewrite from_opt_bind. destruct x.
  - by apply top_safe.
  - by apply cacq_safe.
  - rewrite gets_bind. assert (safe (set_on c CRel) w) as Hrel.
    { apply (ctl_inv w c CPick); try done. eapply locks_inv_ext; [|apply I]. intros l d _. rewrite (holds_ctl _ _ _ CPick) by done. case_decide as E; [subst d|done]. unfold holds. by rewrite Hc. }
    destruct (tasks w !! k) as [t|] eqn:Hk; [|exact Hrel]. case_decide as E; [|exact Hrel]. by apply (pick_safe w c k t).
  - by apply crel_safe.
  - by apply task_step_safe.
Qed.

Lemma start_inv ncpu nproc : sched_inv (start ncpu nproc).
Proof.
  assert (forall c p, on (start ncpu nproc) !! c <> Some (Runs p)) as Hno by (intros c p; cbn [on start]; rewrite lookup_replicate; naive_solver).
  assert (forall l c, holds (tasks (start ncpu nproc)) (on (start ncpu nproc)) l c = false) as Hh.
  { intros l c. unfold holds. cbn [on start]. destruct (replicate ncpu CTop !! c) eqn:E; [|done]. by apply lookup_replicate in E as [-> _]. }
  split.
  - split.
    + intros l Hl. exists (mk_lock 0 "" None []). split; [by destruct l as [|[|l]]; [| |lia]|]. left. by split_and!.
    + intros c k. cbn [cpus lst start]. intros [-> _]%lookup_replicate. unfold cpu_nested, nesting. by rewrite !Hh.
  - cbn [cpus lst start on]. by rewrite !length_replicate.
  - intros c p Hc. by destruct (Hno c p).
  - intros c d p Hc. by destruct (Hno c p).
  - intros p t. cbn [tasks start]. intros [-> _]%lookup_replicate _. split; [by right; right|by right].
  - intros p t. cbn [tasks start]. by intros [-> _]%lookup_replicate.
  - done.
Qed.

Lemma reachable_inv ncpu nproc w : rtc step (start ncpu nproc) w -> sched_inv w.
Proof.
  intros H. apply (rtc_ind_r (fun w => sched_inv w) (start ncpu nproc)) in H; [done|apply start_inv|].
  intros w1 w2 _ (c & k & R) I1. pose proof (cpu_step_safe w1 c k I1) as S1. unfold safe in S1. by rewrite R in S1.
Qed.

(** C7: on any number of processors, in every order of their steps, none of
    the checks of [sched], [acquire], [release] and [popcli] fails: a process
    enters the scheduler with [ptable.lock] held by its processor, no other
    lock, interrupts off and its state changed; and no process runs on two
    processors. *)
Theorem sched_never_panics ncpu nproc w : rtc step (start ncpu nproc) w ->
  (forall c k msg, cpu_step c k w <> Panic msg) /\
  (forall c d p, on w !! c = Some (Runs p) -> on w !! d = Some (Runs p) -> c = d).
Proof.
  intros H. apply reachable_inv in H as I. split.
  - intros c k msg R. pose proof (cpu_step_safe w c k I) as S1. unfold safe in S1. by rewrite R in S1.
  - intros c d p Hc Hd. symmetry. by apply (si_once _ I c d p).
Qed.

(** C6: no wakeup is lost.  While the condition holds and a process sleeps for
    it, a process that has set the condition is on its way to [wakeup] with
    the lock held; so when the lock is free, nobody sleeps for a condition
    that holds. *)
Theorem no_lost_wakeup ncpu nproc w p t : rtc step (start ncpu nproc) w -> cond w = true -> tasks w !! p = Some t -> tstate t = SLEEPING ->
  (exists q u c, tasks w !! q = Some u /\ (tpc u = WPt \/ tpc u = WWake) /\ on w !! c = Some (Runs q)) /\
  exists k, locks (lst w) !! LK = Some k /\ locked k = 1.
Proof.
  intros H Hb Ht Hs. apply reachable_inv in H as I. destruct (si_cond _ I Hb p t Ht) as (_ & _ & Hw). destruct (Hw (or_intror Hs)) as (q & u & Hu & Hwk).
  assert (exists c, on w !! c = Some (Runs q)) as [c Hc].
  { destruct (decide (Runs q ∈ on w)) as [[c Hc]%list_elem_of_lookup|Hno]; [by exists c|]. exfalso. destruct (si_off _ I q u Hu) as [Hoff _].
    - intros c Hc. apply Hno, list_elem_of_lookup. by exists c.
    - unfold switched_off in Hoff. destruct Hwk as [E|E]; rewrite E in Hoff; naive_solver. }
  split; [by exists q, u, c|]. destruct (si_locks _ I) as [H1 _]. destruct (H1 LK ltac:(lia)) as (k & Hk & [(_ & _ & Hf)|(d & E1 & _)]); [|by exists k].
  specialize (Hf c). unfold holds in Hf. rewrite Hc, Hu in Hf. by destruct Hwk as [E|E]; rewrite E in Hf.
Qed.

(** ** An interleaving *)

Fixpoint run (l : list (nat * nat)) (w : world) : option world :=
  match l with
  | [] => Some w
  | (c, k) :: l => match cpu_step c k w with Ret w' _ => run l w' | _ => None end
  end.
Lemma run_rtc l w w' : run l w = Some w' -> rtc step w w'.
Proof.
  revert w. induction l as [|[c k] l IH]; intros w; cbn [run]; [intros [= ->]; apply rtc_refl|].
  destruct (cpu_step c k w) as [w1 []| | |] eqn:R; [|done..]. intros Hr. apply (rtc_l _ _ w1); [by exists c, k|by apply IH].
Qed.

(** The first process goes to sleep on one processor; on the other, the second sets the condition. *)
Definition ex_schedule : list (nat * nat) := replicate 12 (0, 0)%nat ++ replicate 7 (1, 1)%nat.
Definition ex_world : world := default (start 2 2) (run ex_schedule (start 2 2)).

Lemma sched_never_panics_witness : (exists t, tasks ex_world !! 0%nat = Some t /\ tstate t = SLEEPING) /\ forall c k msg, cpu_step c k ex_world <> Panic msg.
Proof.
  split; [eexists; split; vm_compute; reflexivity|].
  apply (sched_never_panics 2 2 ex_world). apply (run_rtc ex_schedule). vm_compute. reflexivity.
Defined.

Lemma no_lost_wakeup_witness : exists q u c, tasks ex_world !! q = Some u /\ (tpc u = WPt \/ tpc u = WWake) /\ on ex_world !! c = Some (Runs q).
Proof.
  refine (proj1 (no_lost_wakeup 2 2 ex_world 0 (mk_task SLEEPING CHAN SBack FL_IF) _ _ _ _)).
  - apply (run_rtc ex_schedule). vm_compute. reflexivity.
  - vm_compute. reflexivity.
  - vm_compute. reflexivity.
  - reflexivity.
Defined.
