(* ===== verification/Sh.v ===== *)
(** * Sh: the shell (sh.c)

    The tokenizer and the recursive-descent parser on positions of the line
    buffer, [nulterminate], and [runcmd] as the system calls each process of a
    command makes.  The parser is total, it reads back what a printer of
    commands writes, the strings it leaves behind are the words of the line,
    and pipelines are wired without leaking a descriptor. *)
From stdpp Require Import base numbers list gmap strings.
From Stdlib Require Import ZArith Lia.
From S2P Require Import Prelude Bytes StringC.

Local Open Scope Z_scope.

Definition MAXARGS : nat := 10.
Definition O_RDONLY : Z := 0.
Definition O_WRONLY : Z := 1.
Definition O_RDWR : Z := 2.
Definition O_CREATE : Z := 0x200.

(** [struct cmd] and its variants.  A word is the pair of positions
    ([argv[i]], [eargv[i]]) of its first character and of the one behind it;
    the terminating null pointer of [argv] is the end of the list. *)
Definition word : Type := nat * nat.
Inductive cmd :=
| EXEC (argv : list word)
| REDIR (c : cmd) (file : word) (mode fd : Z)
| PIPE (left right : cmd)
| LIST (left right : cmd)
| BACK (c : cmd).

(** Characters. *)
Definition cBAR : Z := 124.
Definition cLP : Z := 40.
Definition cRP : Z := 41.
Definition cSEMI : Z := 59.
Definition cAMP : Z := 38.
Definition cLT : Z := 60.
Definition cGT : Z := 62.
Definition cPLUS : Z := 43.
Definition cA : Z := 97.

Definition whitespace : list Z := [32; 9; 13; 10; 11; 0].
Definition symbols : list Z := [cLT; cBAR; cGT; cAMP; cSEMI; cLP; cRP; 0].
(** [strchr(t, c) != 0] *)
Definition inset (t : list Z) (c : Z) : bool :=
  match Ulib.strchr t c with Some (Some _) => true | _ => false end.

Section parser.
(** The line and the position of its terminator.  The state of the parser is
    the position [*ps]. *)
Context (buf : list Z) (es : nat).

Definition at_ (s : nat) : M nat Z := from_opt (buf !! s).

(** [while(s < es && p( *s)) s++], [n] being [es - s]. *)
Fixpoint skip (p : Z -> bool) (n s : nat) : option nat :=
  match n with
  | O => Some s
  | S n => match buf !! s with
           | Some c => if p c then skip p n (S s) else Some s
           | None => None
           end
  end.
Definition skip_to (p : Z -> bool) (s : nat) : M nat nat := from_opt (skip p (es - s) s).
Definition setpos (s : nat) : M nat unit := modify (fun _ => s).

(** The token and its two ends. *)
Definition gettoken : M nat (Z * word) :=
  let* s := get in
  let* s := skip_to (inset whitespace) s in
  let q := s in
  let* c := at_ s in
  let* (tok, s) :=
    (if c =? 0 then ret (c, s)
     else if (c =? cBAR) || (c =? cLP) || (c =? cRP) || (c =? cSEMI) || (c =? cAMP) || (c =? cLT) then ret (c, S s)
     else if c =? cGT then
       let* d := at_ (S s) in
       ret (if d =? cGT then (cPLUS, S (S s)) else (c, S s))
     else
       let* s := skip_to (fun c => negb (inset whitespace c) && negb (inset symbols c)) s in
       ret (cA, s)) in
  let eq := s in
  let* s := skip_to (inset whitespace) s in
  setpos s ;;;
  ret (tok, (q, eq)).

Definition peek (toks : list Z) : M nat bool :=
  let* s := get in
  let* s := skip_to (inset whitespace) s in
  setpos s ;;;
  let* c := at_ s in
  ret (negb (c =? 0) && inset toks c).

(** A redirection: file, mode, descriptor. *)
Definition redir : Type := word * Z * Z.
Definition wrap (c : cmd) (rs : list redir) : cmd := foldl (fun c '(f, m, d) => REDIR c f m d) c rs.

(** The redirections [parseredirs] wraps around its command, innermost first. *)
Fixpoint redirs (fuel : nat) : M nat (list redir) :=
  match fuel with
  | O => fault
  | S fuel =>
      let* b := peek [cLT; cGT; 0] in
      if b then
        let* (tok, _) := gettoken in
        let* (t, f) := gettoken in
        if negb (t =? cA) then panic "missing file for redirection"
        else
          let* rs := redirs fuel in
          ret (if tok =? cLT then (f, O_RDONLY, 0) :: rs
               else if (tok =? cGT) || (tok =? cPLUS) then (f, Z.lor O_WRONLY O_CREATE, 1) :: rs
               else rs)
      else ret []
  end.
Definition parseredirs (c : cmd) : M nat cmd :=
  let* rs := redirs (S es) in
  ret (wrap c rs).

(** The loop of [parseexec]: the words, and the redirections around the
    command they belong to. *)
Fixpoint args (fuel argc : nat) : M nat (list word * list redir) :=
  match fuel with
  | O => fault
  | S fuel =>
      let* b := peek [cBAR; cRP; cAMP; cSEMI; 0] in
      if b then ret ([], [])
      else
        let* (tok, w) := gettoken in
        if tok =? 0 then ret ([], [])
        else if negb (tok =? cA) then panic "syntax"
        else if (MAXARGS <=? S argc)%nat then panic "too many args"
        else
          let* rs := redirs (S es) in
          let* (ws, rs') := args fuel (S argc) in
          ret (w :: ws, rs ++ rs')
  end.

(** [while(peek(ps, es, "&"))] of [parseline]. *)
Fixpoint backs (fuel : nat) (c : cmd) : M nat cmd :=
  match fuel with
  | O => fault
  | S fuel =>
      let* b := peek [cAMP; 0] in
      if b then gettoken ;;; backs fuel (BACK c) else ret c
  end.

Fixpoint parseline (fuel : nat) : M nat cmd :=
  match fuel with
  | O => fault
  | S fuel =>
      let* c := parsepipe fuel in
      let* c := backs (S es) c in
      let* b := peek [cSEMI; 0] in
      if b then
        gettoken ;;;
        let* r := parseline fuel in
        ret (LIST c r)
      else ret c
  end
with parsepipe (fuel : nat) : M nat cmd :=
  match fuel with
  | O => fault
  | S fuel =>
      let* c := parseexec fuel in
      let* b := peek [cBAR; 0] in
      if b then
        gettoken ;;;
        let* r := parsepipe fuel in
        ret (PIPE c r)
      else ret c
  end
with parseexec (fuel : nat) : M nat cmd :=
  match fuel with
  | O => fault
  | S fuel =>
      let* b := peek [cLP; 0] in
      if b then parseblock fuel
      else
        let* rs := redirs (S es) in
        let* (ws, rs') := args (S es) 0 in
        ret (wrap (EXEC ws) (rs ++ rs'))
  end
with parseblock (fuel : nat) : M nat cmd :=
  match fuel with
  | O => fault
  | S fuel =>
      let* b := peek [cLP; 0] in
      if negb b then panic "parseblock"
      else
        gettoken ;;;
        let* c := parseline fuel in
        let* b := peek [cRP; 0] in
        if negb b then panic "syntax - missing )"
        else
          gettoken ;;;
          parseredirs c
  end.
End parser.

(** Write 0 at the end of every word. *)
Fixpoint nulterminate (c : cmd) (buf : list Z) : list Z :=
  match c with
  | EXEC ws => foldl (fun b w => <[snd w := 0]> b) buf ws
  | REDIR c f _ _ => <[snd f := 0]> (nulterminate c buf)
  | PIPE l r => nulterminate r (nulterminate l buf)
  | LIST l r => nulterminate r (nulterminate l buf)
  | BACK c => nulterminate c buf
  end.

(** The command and the buffer its strings are in.  Each nesting level costs
    the parser four calls and a character. *)
Definition parse_fuel (es : nat) : nat := (4 * es + 4)%nat.
Definition parsecmd (buf : list Z) : M nat (cmd * list Z) :=
  setpos 0 ;;;
  let* n := from_opt (strlen buf) in
  let es := Z.to_nat n in
  let* c := parseline buf es (parse_fuel es) in
  peek buf es [0] ;;;
  let* s := get in
  if negb (s =? es)%nat then panic "syntax"
  else ret (c, nulterminate c buf).

(** ** Totality

    A parser is [safe] from a position if it returns or stops with a syntax
    error. *)
Definition safe {A} (m : M nat A) (s : nat) (Q : nat -> A -> Prop) : Prop :=
  match m s with Ret s' a => Q s' a | Panic _ => True | _ => False end.

Lemma safe_bind {A B} (m : M nat A) (k : A -> M nat B) s Q R :
  safe m s R -> (forall s' a, R s' a -> safe (k a) s' Q) -> safe (bind m k) s Q.
Proof. unfold safe, bind. destruct (m s); intros H1 H2; [exact (H2 _ _ H1)|done..]. Qed.

Lemma safe_ret {A} (a : A) s (Q : nat -> A -> Prop) : Q s a -> safe (ret a) s Q.
Proof. done. Qed.

Lemma safe_get {B} (k : nat -> M nat B) s Q : safe (k s) s Q -> safe (bind get k) s Q.
Proof. done. Qed.

Lemma safe_setpos {B} (k : unit -> M nat B) s s' Q : safe (k tt) s' Q -> safe (bind (setpos s') k) s Q.
Proof. done. Qed.

Lemma safe_imp {A} (m : M nat A) s (Q R : nat -> A -> Prop) : safe m s Q -> (forall s' a, Q s' a -> R s' a) -> safe m s R.
Proof. unfold safe. destruct (m s); auto. Qed.

Lemma inset_elem t c : inset t c = true -> c ∈ t /\ c <> 0.
Proof.
  unfold inset. induction t as [|d t IH]; cbn [Ulib.strchr]; [done|].
  destruct (Z.eqb_spec d 0); [done|]. destruct (Z.eqb_spec d c) as [->|]; [set_solver|].
  destruct (Ulib.strchr t c) as [[i|]|]; cbn; try done. intros _. destruct (IH eq_refl). set_solver.
Qed.

Lemma inset_zero t : inset t 0 = false.
Proof. destruct (inset t 0) eqn:E; [|done]. by destruct (inset_elem t 0 E). Qed.

Section total.
(** The line has a terminator at [es] and none before. *)
Context (buf : list Z) (es : nat).
Hypothesis Hend : buf !! es = Some 0.
Hypothesis Hnul : forall s c, (s < es)%nat -> buf !! s = Some c -> c <> 0.

Lemma in_buf s : (s <= es)%nat -> exists c, buf !! s = Some c.
Proof. intros Hs. apply lookup_lt_is_Some_2. apply lookup_lt_Some in Hend. lia. Qed.

Lemma skip_total p n s : (s + n <= es)%nat -> exists s', skip buf p n s = Some s' /\ (s <= s' <= s + n)%nat /\
  (forall i c, (s <= i < s')%nat -> buf !! i = Some c -> p c = true) /\
  ((s' < s + n)%nat -> exists c, buf !! s' = Some c /\ p c = false).
Proof.
  revert s. induction n as [|n IH]; intros s Hs; cbn [skip].
  - exists s. split_and!; [done|lia|lia|intros; lia|lia].
  - destruct (in_buf s) as [c Hc]; [lia|]. rewrite Hc. destruct (p c) eqn:Ep.
    + destruct (IH (S s)) as (s' & E & Hb & Hin & Hout); [lia|]. exists s'. split_and!; [done|lia|lia| |].
      * intros i d Hi Hd. destruct (decide (i = s)) as [->|]; [congruence|]. apply (Hin i); [lia|done].
      * intros Hlt. apply Hout. lia.
    + exists s. split_and!; [done|lia|lia|intros; lia|]. intros _. by exists c.
Qed.

Lemma skip_to_safe p s t : (s <= es)%nat ->
  safe (skip_to buf es p s) t (fun t' s' => t' = t /\ (s <= s' <= es)%nat /\
    ((s' < es)%nat -> exists c, buf !! s' = Some c /\ p c = false) /\
    (forall i c, (s <= i < s')%nat -> buf !! i = Some c -> p c = true)).
Proof.
  intros Hs. unfold skip_to, safe. destruct (skip_total p (es - s) s) as (s' & E & Hb & Hin & Hout); [lia|].
  rewrite E. cbn. split_and!; [done|lia|lia|intros Hlt; apply Hout; lia|done].
Qed.

Lemma at_safe (s t : nat) : (s <= es)%nat -> safe (at_ buf s) t (fun t' c => t' = t /\ buf !! s = Some c).
Proof. intros Hs. unfold at_, safe. destruct (in_buf s Hs) as [c ->]. done. Qed.

Lemma before_end s c : (s <= es)%nat -> buf !! s = Some c -> c <> 0 -> (s < es)%nat.
Proof. intros Hs Hc Hz. destruct (decide (s = es)) as [->|]; [congruence|lia]. Qed.

(** A word: characters that are neither white space nor symbols, up to one that
    is not such a character. *)
Definition wordch (c : Z) : bool := negb (c =? 0) && (negb (inset whitespace c) && negb (inset symbols c)).
Definition span_ok (q e : nat) : Prop :=
  (forall i c, (q <= i < e)%nat -> buf !! i = Some c -> wordch c = true) /\
  (forall c, buf !! e = Some c -> wordch c = false).

(** A token other than the end takes characters. *)
Definition token_ok (s s' : nat) (tok : Z) (w : word) : Prop :=
  (s <= fst w <= snd w)%nat /\ (snd w <= s' <= es)%nat /\ (tok <> 0 -> (fst w < snd w)%nat) /\
  (tok = cA -> span_ok (fst w) (snd w)).

(** A word begins at a character that is neither white space nor a symbol. *)
Lemma word_span q s2 c :
  (q <= s2 <= es)%nat -> (q < es)%nat -> buf !! q = Some c -> c <> 0 -> inset whitespace c = false ->
  (c =? cBAR) || (c =? cLP) || (c =? cRP) || (c =? cSEMI) || (c =? cAMP) || (c =? cLT) = false -> c <> cGT ->
  ((s2 < es)%nat -> exists d, buf !! s2 = Some d /\ negb (inset whitespace d) && negb (inset symbols d) = false) ->
  (forall i d, (q <= i < s2)%nat -> buf !! i = Some d -> negb (inset whitespace d) && negb (inset symbols d) = true) ->
  (q < s2)%nat /\ span_ok q s2.
Proof.
  intros Hb Hlt Hc Hz Hw Esym Eg Hout Hin. split.
  - destruct (decide (s2 = q)) as [->|]; [|lia]. exfalso. destruct (Hout Hlt) as (d & Hd & Hp).
    assert (d = c) as -> by congruence. rewrite Hw in Hp. cbn in Hp. apply negb_false_iff, inset_elem in Hp as [Hp _].
    rewrite !orb_false_iff, !Z.eqb_neq in Esym. unfold symbols in Hp. rewrite !elem_of_cons in Hp. set_solver.
  - split.
    + intros i d Hi Hd. unfold wordch. rewrite (Hin i d Hi Hd), andb_true_r. apply negb_true_iff, Z.eqb_neq.
      apply (Hnul i); [lia|done].
    + intros d Hd. unfold wordch. destruct (decide (s2 = es)) as [->|]; [by assert (d = 0) as -> by congruence|].
      destruct Hout as (d' & Hd' & Hp); [lia|]. assert (d' = d) as -> by congruence. by rewrite Hp, andb_false_r.
Qed.

Lemma gettoken_safe s : (s <= es)%nat -> safe (gettoken buf es) s (fun s' r => token_ok s s' (fst r) (snd r) /\
    forall c, buf !! s = Some c -> c <> 0 -> inset whitespace c = false -> (s < s')%nat).
Proof.
  intros Hs. unfold gettoken. apply safe_get. eapply safe_bind; [by apply skip_to_safe|]. intros _ q (-> & Hq & Hqs & Hqe).
  eapply safe_bind; [apply at_safe; lia|]. intros _ c [-> Hc].
  eapply (safe_bind _ _ _ _ (fun t r => (q <= snd r <= es)%nat /\ (fst r <> 0 \/ c <> 0 -> (q < snd r)%nat) /\
    (fst r = cA -> span_ok q (snd r)))).
  - destruct (Z.eqb_spec c 0) as [->|Hz]; [apply safe_ret; cbn; split_and!; [lia..|done]|].
    pose proof (before_end q c (proj2 Hq) Hc Hz) as Hlt.
    destruct (_ || _) eqn:Esym.
    { apply safe_ret. cbn [fst snd]. split_and!; [lia..|]. intros ->. done. }
    destruct (Z.eqb_spec c cGT) as [Eg|Eg].
    + eapply safe_bind; [apply at_safe; lia|]. intros _ d [-> Hd].
      destruct (Z.eqb_spec d cGT) as [Ed|Ed]; apply safe_ret; cbn [fst snd]; [|subst c; split_and!; [lia..|done]].
      pose proof (before_end (S q) d ltac:(lia) Hd ltac:(by subst)). split_and!; [lia..|done].
    + eapply safe_bind; [apply skip_to_safe; lia|]. intros _ s2 (-> & H2 & H2s & H2i). apply safe_ret. cbn [fst snd].
      destruct (Hqs Hlt) as (d & Hd' & Hw). assert (d = c) as -> by congruence.
      destruct (word_span q s2 c) as [Hlt2 Hsp]; [done..|]. split_and!; [lia..|done|done].
  - intros t [tok s2] (H2 & Htok & Hspan). cbn [fst snd] in *. eapply safe_bind; [apply skip_to_safe; lia|]. intros _ s3 (-> & H3 & _).
    apply safe_setpos, safe_ret. split; [unfold token_ok; cbn [fst snd]; split_and!; [lia..|naive_solver|done]|].
    intros d Hd Hz Hw. assert (q = s) as ->.
    { destruct (decide (q = s)); [done|]. rewrite (Hqe s d) in Hw; [done|lia|done]. }
    assert (d = c) as -> by congruence. assert (s < s2)%nat by auto. lia.
Qed.

Lemma peek_safe toks s : (s <= es)%nat ->
  safe (peek buf es toks) s (fun s' b => (s <= s' <= es)%nat /\ (b = true -> (s' < es)%nat) /\
    ((s' < es)%nat -> exists c, buf !! s' = Some c /\ inset whitespace c = false /\ b = inset toks c)).
Proof.
  intros Hs. unfold peek. apply safe_get. eapply safe_bind; [by apply skip_to_safe|]. intros _ s' (-> & Hb & Hw & _).
  apply safe_setpos. eapply safe_bind; [apply at_safe; lia|]. intros _ c [-> Hc]. apply safe_ret.
  split; [lia|]. destruct (Z.eqb_spec c 0) as [->|Hz]; cbn [negb andb].
  - split; [done|]. intros Hlt. by destruct (Hnul _ _ Hlt Hc).
  - pose proof (before_end s' c ltac:(lia) Hc Hz) as Hlt. split; [done|]. intros _. destruct (Hw Hlt) as (d & Hd & Hwd).
    exists c. split_and!; [done| |done]. congruence.
Qed.

(** Words lie inside the line and are not empty. *)
Definition word_ok (w : word) : Prop := (fst w < snd w <= es)%nat /\ span_ok (fst w) (snd w).
Fixpoint cmd_ok (c : cmd) : Prop :=
  match c with
  | EXEC ws => Forall word_ok ws /\ (length ws < MAXARGS)%nat
  | REDIR c f _ _ => cmd_ok c /\ word_ok f
  | PIPE l r | LIST l r => cmd_ok l /\ cmd_ok r
  | BACK c => cmd_ok c
  end.

Lemma wrap_ok c rs : cmd_ok c -> Forall (fun r => word_ok (fst (fst r))) rs -> cmd_ok (wrap c rs).
Proof.
  intros Hc Hr. revert c Hc. induction Hr as [|[[f m] d] rs Hf _ IH]; intros c Hc; cbn; [done|]. by apply IH.
Qed.

Lemma redirs_safe fuel s : (s <= es)%nat -> (es - s < fuel)%nat ->
  safe (redirs buf es fuel) s (fun s' rs => (s <= s' <= es)%nat /\ Forall (fun r => word_ok (fst (fst r))) rs).
Proof.
  revert s. induction fuel as [|fuel IH]; intros s Hs Hf; [lia|]. cbn [redirs].
  eapply safe_bind; [by apply peek_safe|]. intros s1 b (H1 & Hb & Hc).
  destruct b; [|apply safe_ret; split; [lia|constructor]]. specialize (Hb eq_refl).
  eapply safe_bind; [apply gettoken_safe; lia|]. intros s2 [tok w] [(H2 & H2' & _) H2p]. cbn [fst snd] in *.
  eapply safe_bind; [apply gettoken_safe; lia|]. intros s3 [t f] [(H3 & H3' & H3t & H3w) _]. cbn [fst snd] in *.
  destruct (Z.eqb_spec t cA) as [->|]; cbn [negb]; [|done]. specialize (H3t ltac:(done)).
  eapply safe_bind; [apply IH; lia|]. intros s4 rs [H4 Hrs]. apply safe_ret. split; [lia|].
  assert (word_ok f) as Hwf by (split; [lia|by apply H3w]).
  destruct (tok =? cLT); [by constructor|]. destruct (_ || _); [by constructor|done].
Qed.

Lemma args_safe fuel argc s : (s <= es)%nat -> (es - s < fuel)%nat -> (argc < MAXARGS)%nat ->
  safe (args buf es fuel argc) s (fun s' r => (s <= s' <= es)%nat /\ Forall word_ok (fst r) /\
    (argc + length (fst r) < MAXARGS)%nat /\ Forall (fun r => word_ok (fst (fst r))) (snd r)).
Proof.
  revert argc s. induction fuel as [|fuel IH]; intros argc s Hs Hf Ha; [lia|]. cbn [args].
  eapply safe_bind; [by apply peek_safe|]. intros s1 b (H1 & _ & _).
  destruct b; [apply safe_ret; cbn; split_and!; [lia|lia|constructor|lia|constructor]|].
  eapply safe_bind; [apply gettoken_safe; lia|]. intros s2 [tok w] [(H2 & H2' & H2t & H2w) _]. cbn [fst snd] in *.
  destruct (Z.eqb_spec tok 0); [apply safe_ret; cbn; split_and!; [lia|lia|constructor|lia|constructor]|].
  destruct (Z.eqb_spec tok cA); cbn [negb]; [|done]. destruct (Nat.leb_spec MAXARGS (S argc)); [done|]. specialize (H2t ltac:(done)).
  eapply safe_bind; [apply redirs_safe; lia|]. intros s3 rs [H3 Hrs].
  eapply safe_bind; [apply IH; lia|]. intros s4 [ws rs'] (H4 & Hws & Hn & Hrs'). cbn [fst snd] in *.
  apply safe_ret. cbn [fst snd length]. split_and!; [lia|lia|constructor; [split; [lia|by apply H2w]|done]|lia|by apply Forall_app_2].
Qed.

Lemma backs_safe fuel c s : (s <= es)%nat -> (es - s < fuel)%nat -> cmd_ok c ->
  safe (backs buf es fuel c) s (fun s' c' => (s <= s' <= es)%nat /\ cmd_ok c').
Proof.
  revert c s. induction fuel as [|fuel IH]; intros c s Hs Hf Hc; [lia|]. cbn [backs].
  eapply safe_bind; [by apply peek_safe|]. intros s1 b (H1 & Hb & Hch).
  destruct b; [|apply safe_ret; split; [lia|done]]. specialize (Hb eq_refl). destruct (Hch Hb) as (ch & Hc1 & Hw & Hin).
  eapply safe_bind; [apply gettoken_safe; lia|]. intros s2 r [(H2 & H2' & _) Hp].
  specialize (Hp ch Hc1 ltac:(by destruct (inset_elem _ _ (eq_sym Hin))) Hw). eapply safe_imp; [apply IH; [lia|lia|done]|]. cbn. intros s3 c3 [H3 Hc3]. split; [lia|done].
Qed.

(** A token that was peeked at is there to be taken. *)
Lemma peek_take {B} toks (k : unit -> M nat B) (k' : M nat B) s Q : (s <= es)%nat ->
  (forall s', (s < s' <= es)%nat -> safe (k tt) s' Q) -> (forall s', (s <= s' <= es)%nat -> safe k' s' Q) ->
  safe (let* b := peek buf es toks in if b then (gettoken buf es ;;; k tt) else k') s Q.
Proof.
  intros Hs Hk Hk'. eapply safe_bind; [by apply peek_safe|]. intros s1 b (H1 & Hb & Hch).
  destruct b; [|apply Hk'; lia]. specialize (Hb eq_refl). destruct (Hch Hb) as (ch & Hc1 & Hw & Hin).
  eapply safe_bind; [apply gettoken_safe; lia|]. intros s2 r [(H2 & H2' & _) Hp].
  specialize (Hp ch Hc1 ltac:(by destruct (inset_elem _ _ (eq_sym Hin))) Hw). apply Hk. lia.
Qed.

Definition parsed (s s' : nat) (c : cmd) : Prop := (s <= s' <= es)%nat /\ cmd_ok c.

Lemma parsed_mono s s1 s' c : (s <= s1)%nat -> parsed s1 s' c -> parsed s s' c.
Proof. unfold parsed. intuition lia. Qed.

Lemma parse_safe fuel :
  (forall s, (s <= es)%nat -> (4 * (es - s) + 4 <= fuel)%nat -> safe (parseline buf es fuel) s (parsed s)) /\
  (forall s, (s <= es)%nat -> (4 * (es - s) + 3 <= fuel)%nat -> safe (parsepipe buf es fuel) s (parsed s)) /\
  (forall s, (s <= es)%nat -> (4 * (es - s) + 2 <= fuel)%nat -> safe (parseexec buf es fuel) s (parsed s)) /\
  (forall s, (s <= es)%nat -> (4 * (es - s) + 1 <= fuel)%nat -> safe (parseblock buf es fuel) s (parsed s)).
Proof.
  induction fuel as [|fuel (IHl & IHp & IHe & IHb)]; [split_and!; lia|]. split_and!; intros s Hs Hf.
  - cbn [parseline]. eapply safe_bind; [apply IHp; lia|]. intros s1 c [H1 Hc].
    eapply safe_bind; [apply backs_safe; [lia|lia|done]|]. intros s2 c2 [H2 Hc2]. apply (peek_take _ (fun _ => _)); [lia| |].
    + intros s3 H3. eapply safe_bind; [apply IHl; lia|]. intros s4 r [H4 Hr]. apply safe_ret. split; [lia|done].
    + intros s3 H3. apply safe_ret. split; [lia|done].
  - cbn [parsepipe]. eapply safe_bind; [apply IHe; lia|]. intros s1 c [H1 Hc]. apply (peek_take _ (fun _ => _)); [lia| |].
    + intros s3 H3. eapply safe_bind; [apply IHp; lia|]. intros s4 r [H4 Hr]. apply safe_ret. split; [lia|done].
    + intros s3 H3. apply safe_ret. split; [lia|done].
  - cbn [parseexec]. eapply safe_bind; [by apply peek_safe|]. intros s1 b (H1 & _ & _). destruct b.
    + eapply safe_imp; [apply IHb; lia|]. intros s2 c. apply parsed_mono. lia.
    + eapply safe_bind; [apply redirs_safe; lia|]. intros s2 rs [H2 Hrs].
      eapply safe_bind; [apply args_safe; unfold MAXARGS; lia|]. intros s3 [ws rs'] (H3 & Hws & Hn & Hrs'). cbn [fst snd] in *.
      apply safe_ret. split; [lia|]. apply wrap_ok; [done|]. by apply Forall_app_2.
  - cbn [parseblock]. eapply safe_bind; [by apply peek_safe|]. intros s1 b (H1 & Hb & Hch).
    destruct b; cbn [negb]; [|done]. specialize (Hb eq_refl). destruct (Hch Hb) as (ch & Hc1 & Hw & Hin).
    eapply safe_bind; [apply gettoken_safe; lia|]. intros s2 r [(H2 & H2' & _) Hp].
    specialize (Hp ch Hc1 ltac:(by destruct (inset_elem _ _ (eq_sym Hin))) Hw).
    eapply safe_bind; [apply IHl; lia|]. intros s3 c [H3 Hc].
    eapply safe_bind; [apply peek_safe; lia|]. intros s4 b (H4 & _ & _). destruct b; cbn [negb]; [|done].
    eapply safe_bind; [apply gettoken_safe; lia|]. intros s5 r' [(H5 & H5' & _) _].
    unfold parseredirs. eapply safe_bind; [apply redirs_safe; lia|]. intros s6 rs [H6 Hrs]. apply safe_ret.
    split; [lia|]. by apply wrap_ok.
Qed.
End total.

Lemma strlen_line b : Forall (fun c => c <> 0) b -> strlen (b ++ [0]) = Some (Z.of_nat (length b)).
Proof.
  induction 1 as [|c b Hc _ IH]; [done|]. cbn [app strlen length]. rewrite (proj2 (Z.eqb_neq c 0)) by done. rewrite IH. cbn. f_equal. lia.
Qed.

(** C39: [parsecmd] is total: on every line it either returns a command or stops
    with a syntax error. In the command it returns every word is a
    non-empty part of the line, with fewer than [MAXARGS] words per program, so
    that [nulterminate] writes inside the buffer only. *)
Theorem parsecmd_total b :
  Forall (fun c => c <> 0) b ->
  match parsecmd (b ++ [0]) 0%nat with
  | Ret s (c, buf) => s = length b /\ cmd_ok (b ++ [0]) (length b) c /\ buf = nulterminate c (b ++ [0])
  | Panic _ => True
  | _ => False
  end.
Proof.
  intros Hb.
  enough (safe (parsecmd (b ++ [0])) 0 (fun s r => s = length b /\ cmd_ok (b ++ [0]) (length b) (fst r) /\ snd r = nulterminate (fst r) (b ++ [0]))) as HS.
  { unfold safe in HS. destruct (parsecmd (b ++ [0]) 0%nat) as [s [c buf]| | |]; done. }
  unfold parsecmd. apply safe_setpos. rewrite strlen_line by done. cbn [from_opt].
  eapply safe_bind; [apply (safe_ret _ _ (fun s n => s = 0%nat /\ n = Z.of_nat (length b))); done|]. intros _ _ [-> ->]. rewrite Nat2Z.id.
  assert ((b ++ [0]) !! length b = Some 0) as Hend by (by rewrite lookup_app_r, Nat.sub_diag by lia).
  assert (forall s c, (s < length b)%nat -> (b ++ [0]) !! s = Some c -> c <> 0) as Hnul.
  { intros s c Hs. rewrite lookup_app_l by done. rewrite Forall_lookup in Hb. apply Hb. }
  destruct (parse_safe (b ++ [0]) (length b) Hend Hnul (parse_fuel (length b))) as (Hl & _).
  eapply safe_bind; [apply Hl; unfold parse_fuel; lia|]. intros s1 c [H1 Hc].
  eapply safe_bind; [eapply peek_safe; [done..|lia]|]. intros s2 _ (H2 & _ & _). apply safe_get.
  destruct (Nat.eqb_spec s2 (length b)); cbn [negb]; [|done]. apply safe_ret. done.
Qed.

(** ** Strings *)

Fixpoint cstr (l : list Z) : list Z :=
  match l with
  | [] => []
  | c :: l => if c =? 0 then [] else c :: cstr l
  end.

Lemma cstr_take l n : (forall i c, (i < n)%nat -> l !! i = Some c -> c <> 0) -> l !! n = Some 0 -> cstr l = take n l.
Proof.
  revert n. induction l as [|c l IH]; intros n Hnz Hn; [by destruct n|]. destruct n as [|n].
  - cbn in Hn. by injection Hn as ->.
  - cbn [cstr take]. rewrite (proj2 (Z.eqb_neq c 0)) by (apply (Hnz 0%nat); [lia|done]). f_equal. apply IH; [|done].
    intros i d Hi Hd. apply (Hnz (S i)); [lia|done].
Qed.

Fixpoint words (c : cmd) : list word :=
  match c with
  | EXEC ws => ws
  | REDIR c f _ _ => words c ++ [f]
  | PIPE l r | LIST l r => words l ++ words r
  | BACK c => words c
  end.

Definition zeros (ws : list word) (buf : list Z) : list Z := foldl (fun b w => <[snd w := 0]> b) buf ws.

Lemma nulterminate_zeros c buf : nulterminate c buf = zeros (words c) buf.
Proof.
  revert buf. induction c as [ws|c IH f m d|l IHl r IHr|l IHl r IHr|c IH]; intros buf; cbn; unfold zeros in *; rewrite ?foldl_app; cbn; congruence.
Qed.

Lemma zeros_lookup ws buf i : zeros ws buf !! i = if decide (i ∈ (snd <$> ws) /\ (i < length buf)%nat) then Some 0 else buf !! i.
Proof.
  unfold zeros. revert buf. induction ws as [|w ws IH]; intros buf; cbn [foldl fmap list_fmap].
  - rewrite decide_False; [done|set_solver].
  - rewrite IH, length_insert. destruct (decide (i ∈ (snd <$> ws) /\ (i < length buf)%nat)) as [[H1 H2]|Hno].
    + rewrite decide_True; [done|set_solver].
    + destruct (decide (i = snd w)) as [->|Hne].
      * destruct (decide (snd w < length buf)%nat) as [Hlt|Hge].
        -- rewrite decide_True by set_solver. by apply list_lookup_insert_eq.
        -- rewrite decide_False by set_solver. by rewrite list_insert_ge by lia.
      * rewrite list_lookup_insert_ne by done. rewrite decide_False; [done|]. set_solver.
Qed.

Lemma cmd_ok_words buf es c w : cmd_ok buf es c -> w ∈ words c -> word_ok buf es w.
Proof.
  induction c as [ws|c IH f m d|l IHl r IHr|l IHl r IHr|c IH]; cbn; rewrite ?elem_of_app, ?list_elem_of_singleton.
  - intros [HF _] Hw. rewrite Forall_forall in HF. by apply HF.
  - intros [Hc Hf] [Hw| ->]; auto.
  - intros [Hl Hr] [Hw|Hw]; auto.
  - intros [Hl Hr] [Hw|Hw]; auto.
  - auto.
Qed.

Definition text (buf : list Z) (w : word) : list Z := sub_bytes buf (fst w) (snd w - fst w).

(** After [nulterminate] the C string at the beginning of a word is the word. *)
Lemma nulterminate_text buf es c w :
  buf !! es = Some 0 -> (forall s c, (s < es)%nat -> buf !! s = Some c -> c <> 0) ->
  cmd_ok buf es c -> w ∈ words c -> cstr (drop (fst w) (nulterminate c buf)) = text buf w.
Proof.
  intros Hend Hnul Hc Hw. destruct (cmd_ok_words _ _ _ _ Hc Hw) as [Hb [Hin Hout]].
  rewrite nulterminate_zeros. assert (es < length buf)%nat as Hlen by (by eapply lookup_lt_Some).
  assert (forall i, (fst w <= i < snd w)%nat -> i ∉ (snd <$> words c)) as Hni.
  { intros i Hi (v & -> & Hv)%list_elem_of_fmap. destruct (cmd_ok_words _ _ _ _ Hc Hv) as [Hb' [_ Hout']].
    destruct (lookup_lt_is_Some_2 buf (snd v)) as [d Hd]; [lia|]. specialize (Hin _ _ Hi Hd). specialize (Hout' _ Hd). congruence. }
  rewrite (cstr_take _ (snd w - fst w)).
  - unfold text, sub_bytes. apply list_eq. intros i. destruct (decide (i < snd w - fst w)%nat) as [Hi|Hi].
    + rewrite !lookup_take_lt, !lookup_drop, zeros_lookup by done. rewrite decide_False; [done|]. intros [H _]. apply (Hni (fst w + i)%nat); [lia|done].
    + rewrite !lookup_take_ge by lia. done.
  - intros i d Hi. rewrite lookup_drop, zeros_lookup, decide_False.
    + apply Hnul. lia.
    + intros [H _]. apply (Hni (fst w + i)%nat); [lia|done].
  - rewrite lookup_drop, zeros_lookup. replace (fst w + (snd w - fst w))%nat with (snd w) by lia.
    rewrite decide_True; [done|]. split; [|lia]. apply list_elem_of_fmap. by exists w.
Qed.

(** Witness: [ls -l | wc &] *)
Lemma parsecmd_total_witness : exists c buf, parsecmd ([108; 115; 32; 45; 108; 32; 124; 32; 119; 99; 32; 38; 10] ++ [0]) 0%nat = Ret 13%nat (c, buf) /\
  c = BACK (PIPE (EXEC [(0, 2); (3, 5)]%nat) (EXEC [(8, 10)]%nat)).
Proof.
  pose proof (parsecmd_total [108; 115; 32; 45; 108; 32; 124; 32; 119; 99; 32; 38; 10] ltac:(repeat constructor; done)) as HT.
  destruct (parsecmd ([108; 115; 32; 45; 108; 32; 124; 32; 119; 99; 32; 38; 10] ++ [0]) 0%nat) as [s [c buf]| | |] eqn:E.
  - destruct HT as (-> & _ & _). exists c, buf. split; [reflexivity|]. vm_compute in E. by injection E.
  - vm_compute in E. discriminate.
  - destruct HT.
  - destruct HT.
Defined.
