(* ===== verification/ShPrint.v ===== *)
(** * ShPrint: the shell's parser reads back what is printed

    Commands as trees of strings, a printer with the precedences of the
    grammar of sh.c, and the round trip: parsing the printed line gives a
    command whose strings, as [runcmd] will see them in the buffer, form the
    tree again. *)
From stdpp Require Import base numbers list gmap strings.
From Stdlib Require Import ZArith Lia.
From S2P Require Import Prelude Bytes StringC Sh.

Local Open Scope Z_scope.

Inductive tree :=
| TExec (ws : list (list Z))
| TRedir (t : tree) (f : list Z) (out : bool)
| TPipe (l r : tree)
| TList (l r : tree)
| TBack (t : tree).

Definition is_out (mode fd : Z) : bool := negb (fd =? 0).
Definition redir_mode (out : bool) : Z * Z := if out then (Z.lor O_WRONLY O_CREATE, 1) else (O_RDONLY, 0).

(** The tree of a command whose words stand for the strings [str]; [None] if a
    redirection has other modes than the parser makes. *)
Fixpoint tree_of (str : word -> list Z) (c : cmd) : option tree :=
  match c with
  | EXEC ws => Some (TExec (str <$> ws))
  | REDIR c f m d =>
      let out := is_out m d in
      if decide ((m, d) = redir_mode out) then (fun t => TRedir t (str f) out) <$> tree_of str c else None
  | PIPE l r => match tree_of str l, tree_of str r with Some l, Some r => Some (TPipe l r) | _, _ => None end
  | LIST l r => match tree_of str l, tree_of str r with Some l, Some r => Some (TList l r) | _, _ => None end
  | BACK c => TBack <$> tree_of str c
  end.

(** ** The printer *)

Inductive level := LLine | LBack | LPipe | LExec.
Definition rank (l : level) : nat := match l with LLine => 0 | LBack => 1 | LPipe => 2 | LExec => 3 end.

Definition paren (b : bool) (s : list Z) : list Z := if b then cLP :: s ++ [cRP] else s.
Definition show_word (w : list Z) : list Z := w ++ [32].
Definition show_words (ws : list (list Z)) : list Z := ws ≫= show_word.
Definition show_redir (r : list Z * bool) : list Z := (if snd r then cGT else cLT) :: show_word (fst r).
Definition show_redirs (rs : list (list Z * bool)) : list Z := rs ≫= show_redir.

Fixpoint show (t : tree) (l : level) : list Z :=
  match t with
  | TExec ws => show_words ws
  | TRedir t f out => show t LExec ++ show_redir (f, out)
  | TPipe a b => paren (bool_decide (2 < rank l)%nat) (show a LExec ++ cBAR :: show b LPipe)
  | TBack t => paren (bool_decide (1 < rank l)%nat) (show t LBack ++ [cAMP])
  | TList a b => paren (bool_decide (0 < rank l)%nat) (show a LBack ++ cSEMI :: show b LLine)
  end.

(** Words of word characters, fewer than [MAXARGS] in a program. *)
Definition good_word (w : list Z) : Prop := w <> [] /\ Forall (fun c => wordch c = true) w.
Fixpoint good (t : tree) : Prop :=
  match t with
  | TExec ws => Forall good_word ws /\ (length ws < MAXARGS)%nat
  | TRedir t f _ => good t /\ good_word f
  | TPipe l r | TList l r => good l /\ good r
  | TBack t => good t
  end.

(** Wrapping redirections around a tree, innermost first. *)
Definition twrap (t : tree) (rs : list (list Z * bool)) : tree := foldl (fun t r => TRedir t (fst r) (snd r)) t rs.

(** ** Tokens *)

(** The string starts with a character of [cs]; with one that is not white space. *)
Definition starts (cs : list Z) (l : list Z) : Prop := exists c r, l = c :: r /\ c ∈ cs.
Definition nws (l : list Z) : Prop := exists c r, l = c :: r /\ inset whitespace c = false.

Lemma starts_nws cs l : Forall (fun c => inset whitespace c = false) cs -> starts cs l -> nws l.
Proof. intros HF (c & r & -> & Hc). exists c, r. rewrite Forall_forall in HF. auto. Qed.

Definition stop3 : list Z := [0; cBAR; cRP; cAMP; cSEMI].
Definition stop2 : list Z := [0; cRP; cAMP; cSEMI].
Definition stop1 : list Z := [0; cRP; cSEMI].
Definition stop0 : list Z := [0; cRP].

Lemma wordch_nws c : wordch c = true -> inset whitespace c = false /\ inset symbols c = false /\ c <> 0.
Proof.
  unfold wordch. rewrite !andb_true_iff, !negb_true_iff, Z.eqb_neq. naive_solver.
Qed.

Lemma word_nws w l : good_word w -> nws (w ++ l).
Proof.
  intros [Hne HF]. destruct w as [|c w]; [done|]. inversion HF. exists c, (w ++ l). split; [done|]. by apply wordch_nws.
Qed.

Lemma get_bind {S B} (k : S -> M S B) s : bind get k s = k s s.
Proof. done. Qed.

Section tokens.
Context (buf : list Z) (es : nat).
Hypothesis Hend : buf !! es = Some 0.
Hypothesis Hlen : length buf = S es.
Hypothesis Hnul : forall s c, (s < es)%nat -> buf !! s = Some c -> c <> 0.

Lemma drop_lookup s l i : drop s buf = l -> l !! i = buf !! (s + i)%nat.
Proof. intros <-. by rewrite lookup_drop. Qed.

Lemma drop_le s c l : drop s buf = c :: l -> (s <= es)%nat /\ buf !! s = Some c.
Proof.
  intros E. assert (buf !! s = Some c) as Hs by (rewrite <- (Nat.add_0_r s), <- (drop_lookup _ _ 0 E); done).
  split; [|done]. apply lookup_lt_Some in Hs. lia.
Qed.

Lemma drop_next s c l : drop s buf = c :: l -> drop (S s) buf = l.
Proof. intros E. rewrite <- Nat.add_1_r, <- drop_drop, E. done. Qed.

Lemma drop_app s a l : drop s buf = a ++ l -> drop (s + length a) buf = l.
Proof. intros E. by rewrite <- drop_drop, E, drop_app_length. Qed.

Lemma skip_none p s c l t : drop s buf = c :: l -> p c = false -> skip_to buf es p s t = Ret t s.
Proof.
  intros E Hp. destruct (drop_le _ _ _ E) as [Hs Hc]. unfold skip_to. destruct (es - s)%nat as [|n] eqn:En; cbn [skip]; [done|].
  by rewrite Hc, Hp.
Qed.

Lemma skip_some p s w c l t : drop s buf = w ++ c :: l -> Forall (fun c => p c = true) w -> Forall (fun c => c <> 0) w -> p c = false ->
  skip_to buf es p s t = Ret t (s + length w)%nat.
Proof.
  intros E HF Hz Hp. revert s E. induction HF as [|d w Hd HF IH]; intros s E.
  - rewrite Nat.add_0_r. by eapply skip_none.
  - inversion Hz; subst. destruct (drop_le _ _ _ E) as [Hs Hc]. specialize (IH ltac:(done) (S s) (drop_next _ _ _ E)).
    unfold skip_to in *. assert (s < es)%nat as Hlt by (destruct (decide (s = es)) as [->|]; [congruence|lia]).
    replace (es - s)%nat with (S (es - S s)) by lia. cbn [skip]. rewrite Hc, Hd, IH. cbn [length]. f_equal. lia.
Qed.

Lemma peek_at s c l toks : drop s buf = c :: l -> inset whitespace c = false ->
  peek buf es toks s = Ret s (negb (c =? 0) && inset toks c).
Proof.
  intros E Hw. unfold peek. rewrite get_bind. rewrite (bind_ret _ _ _ _ _ (skip_none _ _ _ _ s E Hw)).
  unfold setpos. rewrite modify_bind. unfold at_. destruct (drop_le _ _ _ E) as [_ ->]. done.
Qed.

Definition single (c : Z) : bool :=
  (c =? cBAR) || (c =? cLP) || (c =? cRP) || (c =? cSEMI) || (c =? cAMP) || (c =? cLT).

Lemma token_symbol s c d l : drop s buf = c :: d :: l -> single c = true \/ (c = cGT /\ d <> cGT) -> inset whitespace d = false ->
  gettoken buf es s = Ret (S s) (c, (s, S s)).
Proof.
  intros E Hc Hd. destruct (drop_le _ _ _ E) as [_ Hs]. pose proof (drop_next _ _ _ E) as E'. destruct (drop_le _ _ _ E') as [_ Hs'].
  assert (inset whitespace c = false /\ c <> 0 /\ (single c = false -> c = cGT)) as (Hw & Hz & Hg).
  { unfold single in *. rewrite !orb_true_iff, !Z.eqb_eq in Hc. split_and!.
    - naive_solver.
    - naive_solver.
    - intros Hf. rewrite !orb_false_iff, !Z.eqb_neq in Hf. naive_solver. }
  unfold gettoken. rewrite get_bind. rewrite (bind_ret _ _ _ _ _ (skip_none _ _ _ _ s E Hw)).
  unfold at_ at 1. rewrite Hs, from_opt_bind. rewrite (proj2 (Z.eqb_neq c 0)) by done. fold (single c).
  destruct (single c) eqn:Esing.
  - rewrite ret_bind. rewrite (bind_ret _ _ _ _ _ (skip_none _ _ _ _ s E' Hd)). done.
  - specialize (Hg eq_refl). subst c. destruct Hc as [|[_ Hdg]]; [done|]. cbn [Z.eqb cGT Pos.eqb]. unfold at_. rewrite Hs'.
    erewrite bind_ret by (rewrite from_opt_bind; reflexivity). rewrite (proj2 (Z.eqb_neq d _)) by done.
    rewrite (bind_ret _ _ _ _ _ (skip_none _ _ _ _ s E' Hd)). done.
Qed.

Lemma token_word s w d l : drop s buf = show_word w ++ d :: l -> good_word w -> inset whitespace d = false ->
  gettoken buf es s = Ret (s + length (show_word w))%nat (cA, (s, (s + length w)%nat)).
Proof.
  intros E [Hne HF] Hd. unfold show_word in *. rewrite <- app_assoc in E. destruct w as [|c w]; [done|]. cbn [app] in E.
  pose proof (Forall_inv HF) as Hc. cbn beta in Hc. destruct (wordch_nws c Hc) as (Hw & Hsym & Hz).
  destruct (drop_le _ _ _ E) as [_ Hs].
  unfold gettoken. rewrite get_bind. rewrite (bind_ret _ _ _ _ _ (skip_none _ _ _ _ s E Hw)).
  unfold at_ at 1. rewrite Hs, from_opt_bind. rewrite (proj2 (Z.eqb_neq c 0)) by done. fold (single c).
  assert (single c = false /\ c <> cGT) as [-> Hgt].
  { split; [|by intros ->]. destruct (single c) eqn:Es; [|done]. unfold single in Es. rewrite !orb_true_iff, !Z.eqb_eq in Es. naive_solver. }
  rewrite (proj2 (Z.eqb_neq c cGT)) by done.
  erewrite bind_ret.
  2: { erewrite bind_ret; [reflexivity|]. eapply (skip_some _ s (c :: w) 32 (d :: l)); [exact E| | |done].
    - eapply Forall_impl; [exact HF|]. cbn. intros x Hx. destruct (wordch_nws x Hx) as (-> & -> & _). done.
    - eapply Forall_impl; [exact HF|]. cbn. intros x Hx. by apply wordch_nws. }
  cbv beta iota zeta. assert (drop (s + length (c :: w)) buf = [32] ++ d :: l) as E2 by (apply drop_app; exact E).
  rewrite (bind_ret _ _ _ _ _ (skip_some (inset whitespace) _ [32] d l s E2 ltac:(repeat constructor) ltac:(repeat constructor; done) Hd)).
  unfold setpos. rewrite modify_bind. unfold ret. rewrite length_app. cbn [length]. f_equal. lia.
Qed.

Lemma token_end s : drop s buf = [0] -> gettoken buf es s = Ret s (0, (s, s)).
Proof.
  intros E. destruct (drop_le _ _ _ E) as [_ Hs]. unfold gettoken. rewrite get_bind.
  rewrite (bind_ret _ _ _ _ _ (skip_none _ _ _ _ s E (inset_zero _))). unfold at_. rewrite Hs, from_opt_bind. cbn [Z.eqb].
  rewrite ret_bind. rewrite (bind_ret _ _ _ _ _ (skip_none _ _ _ _ s E (inset_zero _))). done.
Qed.

Lemma text_at s w l : drop s buf = w ++ l -> text buf (s, (s + length w)%nat) = w.
Proof. intros E. unfold text, sub_bytes. cbn. by rewrite E, Nat.add_comm, Nat.add_sub, take_app_length. Qed.

Definition redir_is (r' : redir) (r : list Z * bool) : Prop :=
  text buf (fst (fst r')) = fst r /\ (snd (fst r'), snd r') = redir_mode (snd r).

Lemma wrap_tree c t rs' rs : tree_of (text buf) c = Some t -> Forall2 redir_is rs' rs ->
  tree_of (text buf) (wrap c rs') = Some (twrap t rs).
Proof.
  intros Hc HF. revert c t Hc. induction HF as [|[[f m] d] [g o] rs' rs [Hf Hm] _ IH]; intros c t Hc; cbn in *; [done|].
  apply IH. cbn. rewrite Hc. cbn. assert (is_out m d = o) as -> by (destruct o; by injection Hm as -> ->).
  rewrite decide_True by done. by rewrite Hf.
Qed.

Lemma nws_redirs rs rest : nws rest -> nws (show_redirs rs ++ rest).
Proof. intros Hr. destruct rs as [|[f o] rs]; [done|]. cbn. eexists _, _. split; [reflexivity|]. by destruct o. Qed.

Lemma redirs_show rs fuel s rest : Forall (fun r => good_word (fst r)) rs -> (length rs < fuel)%nat ->
  drop s buf = show_redirs rs ++ rest -> nws rest -> (forall r, rest <> cLT :: r /\ rest <> cGT :: r) ->
  exists rs', redirs buf es fuel s = Ret (s + length (show_redirs rs))%nat rs' /\ Forall2 redir_is rs' rs.
Proof.
  intros HF. revert fuel s. induction HF as [|[f o] rs Hf HF IH]; intros [|fuel] s Hfuel E Hn Hno; cbn [length] in Hfuel; try lia; cbn [redirs].
  - destruct Hn as (c & r & -> & Hw). rewrite (bind_ret _ _ _ _ _ (peek_at _ _ _ _ E Hw)).
    assert (inset [cLT; cGT; 0] c = false) as ->.
    { destruct (inset [cLT; cGT; 0] c) eqn:Ei; [|done]. apply inset_elem in Ei as [Ei Hz]. destruct (Hno r) as [H1 H2].
      exfalso. rewrite !elem_of_cons in Ei. destruct Ei as [->|[->|[->|Ei]]]; try done. set_solver. }
    rewrite andb_false_r. exists []. split; [|constructor]. cbn. by rewrite Nat.add_0_r.
  - cbn [fst] in Hf. set (sym := if o then cGT else cLT). change (show_redirs ((f, o) :: rs)) with (sym :: show_word f ++ show_redirs rs) in *.
    assert (inset whitespace sym = false /\ negb (sym =? 0) && inset [cLT; cGT; 0] sym = true) as [Hw Hpk] by (by destruct o).
    cbn [app] in E. rewrite (bind_ret _ _ _ _ _ (peek_at _ _ _ _ E Hw)), Hpk.
    rewrite <- app_assoc in E. pose proof (drop_next _ _ _ E) as E2.
    destruct (word_nws f ([32] ++ show_redirs rs ++ rest) Hf) as (d & r & Ed & Hd).
    unfold show_word in E. rewrite <- app_assoc in E. rewrite Ed in E.
    assert (d <> cGT) as Hdg.
    { intros ->. destruct Hf as [Hne Hall]. destruct f as [|x f]; [done|]. cbn in Ed. injection Ed as -> _. by inversion Hall. }
    rewrite (bind_ret _ _ _ _ _ (token_symbol _ _ _ _ E ltac:(destruct o; [right|left]; done) Hd)).
    destruct (nws_redirs rs rest Hn) as (x & y & Exy & Hx). rewrite Exy in E2.
    rewrite (bind_ret _ _ _ _ _ (token_word _ _ _ _ E2 Hf Hx)). cbn [Z.eqb cA Pos.eqb negb].
    assert (drop (S s + length (show_word f)) buf = show_redirs rs ++ rest) as E3 by (rewrite Exy; by apply drop_app).
    destruct (IH fuel _ ltac:(lia) E3 Hn Hno) as (rs' & R & H2). rewrite (bind_ret _ _ _ _ _ R).
    exists (((S s, (S s + length f)%nat), fst (redir_mode o), snd (redir_mode o)) :: rs'). split.
    + unfold ret. f_equal; [cbn [length]; rewrite length_app; lia|]. by destruct o.
    + constructor; [|done]. split; cbn [fst snd]; [|by destruct o]. eapply text_at. unfold show_word in E2. rewrite <- app_assoc in E2. exact E2.
Qed.

Lemma starts3 rest : starts stop3 rest -> nws rest /\ (forall r, rest <> cLT :: r /\ rest <> cGT :: r).
Proof.
  intros (c & r & -> & Hc). unfold stop3 in Hc. rewrite !elem_of_cons, elem_of_nil in Hc.
  split; [exists c, r; split; [done|]; naive_solver|]. intros r'. split; intros [= -> _]; naive_solver.
Qed.

Lemma args_end fuel argc s rest : drop s buf = rest -> starts stop3 rest -> args buf es (S fuel) argc s = Ret s ([], []).
Proof.
  intros E Hst. destruct (starts3 rest Hst) as [Hn _]. destruct Hst as (c & r & -> & Hc).
  assert (inset whitespace c = false) as Hwc by (destruct Hn as (? & ? & [= -> ->] & ?); done). cbn [args].
  rewrite (bind_ret _ _ _ _ _ (peek_at _ _ _ _ E Hwc)).
  unfold stop3 in Hc. rewrite !elem_of_cons, elem_of_nil in Hc. destruct (decide (c = 0)) as [->|Hz].
  - cbn [Z.eqb negb andb]. assert (r = []) as ->.
    { destruct (drop_le _ _ _ E) as [Hle' Hs]. assert (s = es) as -> by (destruct (decide (s = es)); [done|]; destruct (Hnul s 0); [lia|done|done]).
      apply (f_equal length) in E. rewrite length_drop, Hlen in E. cbn in E. apply nil_length_inv. lia. }
    rewrite (bind_ret _ _ _ _ _ (token_end _ E)). done.
  - rewrite (proj2 (Z.eqb_neq c 0)) by done. cbn [negb andb].
    assert (inset [cBAR; cRP; cAMP; cSEMI; 0] c = true) as -> by naive_solver. done.
Qed.

(** One word and what follows it. *)
Lemma args_word fuel argc s w rest : good_word w -> (S argc < MAXARGS)%nat -> drop s buf = show_word w ++ rest -> nws rest ->
  args buf es (S fuel) argc s =
    (let* rs := redirs buf es (S es) in
     let* (ws, rs') := args buf es fuel (S argc) in
     ret ((s, (s + length w)%nat) :: ws, rs ++ rs')) (s + length (show_word w))%nat /\
  text buf (s, (s + length w)%nat) = w.
Proof.
  intros Hw Hargc E (x & y & -> & Hx). pose proof (word_nws w ([32] ++ x :: y) Hw) as (c & r & Ec & Hc).
  assert (drop s buf = c :: r) as E1 by (rewrite E; unfold show_word; rewrite <- app_assoc; exact Ec).
  assert (wordch c = true) as Hwc.
  { destruct Hw as [Hne Hall]. destruct w; [done|]. cbn in Ec. injection Ec as -> _. by inversion Hall. }
  split; [|eapply text_at; unfold show_word in E; rewrite <- app_assoc in E; exact E].
  cbn [args]. rewrite (bind_ret _ _ _ _ _ (peek_at _ _ _ _ E1 Hc)).
  assert (negb (c =? 0) && inset [cBAR; cRP; cAMP; cSEMI; 0] c = false) as ->.
  { apply andb_false_iff. right. destruct (inset [cBAR; cRP; cAMP; cSEMI; 0] c) eqn:Ei; [|done]. exfalso.
    apply inset_elem in Ei as [Ei _]. rewrite !elem_of_cons, elem_of_nil in Ei. naive_solver. }
  rewrite (bind_ret _ _ _ _ _ (token_word _ _ _ _ E Hw Hx)). cbn [Z.eqb cA Pos.eqb negb].
  destruct (Nat.leb_spec MAXARGS (S argc)); [lia|done].
Qed.

(** The words of a program, its redirections behind the last one. *)
Lemma args_show ws rs w fuel argc s rest : Forall good_word ws -> good_word w -> Forall (fun r => good_word (fst r)) rs ->
  (S (length ws) < fuel)%nat -> (length rs <= es)%nat -> (argc + S (length ws) < MAXARGS)%nat ->
  drop s buf = show_words (w :: ws) ++ show_redirs rs ++ rest -> starts stop3 rest ->
  exists ws' rs', args buf es fuel argc s = Ret (s + length (show_words (w :: ws)) + length (show_redirs rs))%nat (ws', rs') /\
    text buf <$> ws' = w :: ws /\ Forall2 redir_is rs' rs.
Proof.
  intros HF Hw Hrs. revert w Hw fuel argc s. induction HF as [|w2 ws Hw2 HF IH]; intros w Hw [|fuel] argc s Hfuel Hle Hargc E Hst; cbn [length] in *; try lia.
  - destruct (starts3 rest Hst) as [Hn Hno]. change (show_words [w]) with (show_word w ++ []) in *. rewrite app_nil_r in *.
    destruct (args_word fuel argc s w (show_redirs rs ++ rest) Hw ltac:(lia) E (nws_redirs rs rest Hn)) as [-> Htx].
    pose proof (drop_app _ _ _ E) as E2.
    destruct (redirs_show rs (S es) _ rest Hrs ltac:(lia) E2 Hn Hno) as (rs' & R & H2). rewrite (bind_ret _ _ _ _ _ R).
    destruct fuel as [|fuel]; [lia|]. rewrite (bind_ret _ _ _ _ _ (args_end fuel _ _ rest (drop_app _ _ _ E2) Hst)).
    exists [(s, (s + length w)%nat)], (rs' ++ []). rewrite app_nil_r. split_and!; [done|cbn [fmap list_fmap]; by rewrite Htx|done].
  - change (show_words (w :: w2 :: ws)) with (show_word w ++ show_words (w2 :: ws)) in *. rewrite <- app_assoc in E.
    assert (nws (show_words (w2 :: ws) ++ show_redirs rs ++ rest)) as Hn2.
    { cbn. unfold show_word. rewrite <- !app_assoc. by apply word_nws. }
    destruct (args_word fuel argc s w _ Hw ltac:(lia) E Hn2) as [-> Htx]. pose proof (drop_app _ _ _ E) as E2.
    destruct (redirs_show [] (S es) _ _ ltac:(constructor) ltac:(cbn; lia) E2 Hn2) as (rs0 & R0 & H0).
    { intros r. cbn. destruct Hw2 as [Hne Hall]. destruct w2 as [|d w2]; [done|]. pose proof (Forall_inv Hall) as Hd. cbn.
      split; intros [= -> _]; done. }
    apply Forall2_nil_inv_r in H0 as ->. rewrite (bind_ret _ _ _ _ _ R0). cbn [show_redirs mbind list_bind length]. rewrite Nat.add_0_r.
    destruct (IH w2 Hw2 fuel (S argc) _ ltac:(lia) Hle ltac:(lia) E2 Hst) as (ws' & rs' & R & H1 & H2). rewrite (bind_ret _ _ _ _ _ R).
    exists ((s, (s + length w)%nat) :: ws'), rs'. cbn [app fmap list_fmap]. rewrite Htx, H1. split_and!; [|done|done].
    unfold ret. rewrite length_app. f_equal. lia.
Qed.

(** ** The levels of the grammar *)

Lemma nws_show t l rest : good t -> nws rest -> nws (show t l ++ rest).
Proof.
  revert l rest. induction t as [ws|t IH f o|a IHa b IHb|a IHa b IHb|t IH]; intros l rest Hg Hn; cbn [show good] in *.
  - destruct ws as [|w ws]; [done|]. cbn. unfold show_word. rewrite <- !app_assoc. apply word_nws. destruct Hg as [HF _]. by inversion HF.
  - rewrite <- app_assoc. apply IH; [apply Hg|]. eexists _, _. split; [reflexivity|]. by destruct o.
  - unfold paren. case_bool_decide; [by eexists _, _|]. rewrite <- app_assoc. apply IHa; [apply Hg|]. by eexists _, _.
  - unfold paren. case_bool_decide; [by eexists _, _|]. rewrite <- app_assoc. apply IHa; [apply Hg|]. by eexists _, _.
  - unfold paren. case_bool_decide; [by eexists _, _|]. rewrite <- app_assoc. apply IH; [apply Hg|]. by eexists _, _.
Qed.

Lemma starts_mono cs cs' l : (forall c, c ∈ cs -> c ∈ cs') -> starts cs l -> starts cs' l.
Proof. intros Hi (c & r & -> & Hc). exists c, r. auto. Qed.

(** Peeking at a character that is not looked for, and at one that is. *)
Lemma peek_stop cs toks s rest : drop s buf = rest -> starts cs rest ->
  Forall (fun c => inset whitespace c = false /\ negb (c =? 0) && inset toks c = false) cs -> peek buf es toks s = Ret s false.
Proof.
  intros E (c & r & -> & Hc) HF. rewrite Forall_forall in HF. destruct (HF c Hc) as [Hw Hf]. rewrite (peek_at _ _ _ _ E Hw). by rewrite Hf.
Qed.

Lemma peek_symbol c s rest : drop s buf = c :: rest -> inset whitespace c = false -> c <> 0 -> peek buf es [c; 0] s = Ret s true.
Proof.
  intros E Hw Hz. rewrite (peek_at _ _ _ _ E Hw). rewrite (proj2 (Z.eqb_neq c 0)) by done. cbn [negb andb].
  unfold inset. cbn [Ulib.strchr]. by rewrite (proj2 (Z.eqb_neq c 0)), Z.eqb_refl by done.
Qed.

Lemma take_symbol c s rest : drop s buf = c :: rest -> single c = true -> nws rest -> exists r, gettoken buf es s = Ret (S s) r.
Proof. intros E Hc (d & r & -> & Hd). eexists. eapply token_symbol; [exact E|by left|done]. Qed.

Definition gives (m : M nat cmd) (s n : nat) (t : tree) : Prop :=
  exists c, m s = Ret (s + n)%nat c /\ tree_of (text buf) c = Some t.

Definition P3 (t : tree) : Prop := forall rs rest s fuel,
  Forall (fun r => good_word (fst r)) rs -> drop s buf = show t LExec ++ show_redirs rs ++ rest -> starts stop3 rest ->
  (4 * (es - s) + 2 <= fuel)%nat -> gives (parseexec buf es fuel) s (length (show t LExec ++ show_redirs rs)) (twrap t rs).
Definition P2 (t : tree) : Prop := forall rest s fuel,
  drop s buf = show t LPipe ++ rest -> starts stop2 rest -> (4 * (es - s) + 3 <= fuel)%nat ->
  gives (parsepipe buf es fuel) s (length (show t LPipe)) t.
Definition P1 (t : tree) : Prop := forall n rest s fuel,
  drop s buf = show t LBack ++ replicate n cAMP ++ rest -> starts stop1 rest -> (4 * (es - s) + 3 <= fuel)%nat ->
  gives (let* c := parsepipe buf es fuel in backs buf es (S es) c) s (length (show t LBack) + n) (Nat.iter n TBack t).
Definition P0 (t : tree) : Prop := forall rest s fuel,
  drop s buf = show t LLine ++ rest -> starts stop0 rest -> (4 * (es - s) + 4 <= fuel)%nat ->
  gives (parseline buf es fuel) s (length (show t LLine)) t.

Lemma fits_buf s l : drop s buf = l -> (length l <= S es - s)%nat.
Proof. intros <-. rewrite length_drop, Hlen. lia. Qed.

Lemma redirs_count rs : (length rs <= length (show_redirs rs))%nat.
Proof.
  induction rs as [|r rs IH]; [done|]. change (show_redirs (r :: rs)) with (show_redir r ++ show_redirs rs).
  unfold show_redir. rewrite length_app. cbn [length]. lia.
Qed.
Lemma words_count ws : (length ws <= length (show_words ws))%nat.
Proof.
  induction ws as [|w ws IH]; [done|]. change (show_words (w :: ws)) with (show_word w ++ show_words ws).
  unfold show_word. rewrite !length_app. cbn [length]. lia.
Qed.

(** A program. *)
Lemma P3_exec ws : good (TExec ws) -> P3 (TExec ws).
Proof.
  intros [HF Hn] rs rest s [|fuel] Hrs E Hst Hfuel; [lia|]. cbn [show] in *. destruct (starts3 rest Hst) as [Hnw Hno].
  pose proof (fits_buf _ _ E) as Hfit. rewrite !length_app in Hfit. pose proof (redirs_count rs). pose proof (words_count ws).
  assert (0 < length rest)%nat by (destruct Hst as (? & ? & -> & _); cbn; lia). cbn [parseexec].
  assert (nws (show_words ws ++ show_redirs rs ++ rest)) as (c & r & Ec & Hc) by (apply (nws_show (TExec ws) LExec); [done|by apply nws_redirs]).
  assert (peek buf es [cLP; 0] s = Ret s false) as Rp.
  { pose proof E as E'. rewrite Ec in E'. rewrite (peek_at _ _ _ _ E' Hc). f_equal. apply andb_false_iff. right.
    destruct (inset [cLP; 0] c) eqn:Ei; [|done]. exfalso. apply inset_elem in Ei as [Ei Hz]. rewrite !elem_of_cons, elem_of_nil in Ei.
    destruct Ei as [->|[->|[]]]; [|done]. destruct ws as [|w ws].
    - destruct rs as [|[f []] rs]; cbn in Ec; [|done|done]. destruct Hst as (d & r' & -> & Hd). injection Ec as -> _. set_solver.
    - pose proof (Forall_inv HF) as [Hne Hall]. destruct w as [|d w]; [done|]. cbn in Ec. injection Ec as -> _. by inversion Hall. }
  unfold gives. rewrite (bind_ret _ _ _ _ _ Rp). rewrite length_app. destruct ws as [|w ws].
  - cbn [show_words mbind list_bind app length] in *.
    destruct (redirs_show rs (S es) s rest Hrs ltac:(lia) E Hnw Hno) as (rs' & R & H2). rewrite (bind_ret _ _ _ _ _ R).
    rewrite (bind_ret _ _ _ _ _ (args_end es 0 _ rest (drop_app _ _ _ E) Hst)). rewrite app_nil_r.
    eexists. split; [reflexivity|]. by apply wrap_tree.
  - destruct (redirs_show [] (S es) s _ ltac:(constructor) ltac:(cbn; lia) E) as (rs0 & R0 & Hrs0).
    { by eexists _, _. }
    { intros r'. pose proof (Forall_inv HF) as [Hne Hall]. destruct w as [|d w]; [done|]. pose proof (Forall_inv Hall) as Hd. cbn. split; intros [= -> _]; done. }
    apply Forall2_nil_inv_r in Hrs0 as ->. rewrite (bind_ret _ _ _ _ _ R0). cbn [show_redirs mbind list_bind length]. rewrite Nat.add_0_r.
    inversion HF as [|? ? Hw HF']; subst. cbn [length] in *.
    destruct (args_show ws rs w (S es) 0 s rest HF' Hw Hrs) as (ws' & rs' & R & Hws' & Hrs'); [lia|lia|lia|exact E|done|].
    rewrite (bind_ret _ _ _ _ _ R). cbn [app]. eexists. split; [unfold ret; f_equal; unfold show_redirs; lia|].
    apply wrap_tree; [|done]. cbn. by rewrite Hws'.
Qed.

Lemma P3_redir t f o : good_word f -> P3 t -> P3 (TRedir t f o).
Proof.
  intros Hf H rs rest s fuel Hrs E Hst Hfuel. cbn [show] in *. rewrite <- app_assoc in E.
  specialize (H ((f, o) :: rs) rest s fuel). cbn [show_redirs mbind list_bind] in H. rewrite <- !app_assoc in *.
  apply H; [by constructor|exact E|done|done].
Qed.

(** A block. *)
Lemma P3_block t : good t -> show t LExec = cLP :: show t LLine ++ [cRP] -> P0 t -> P3 t.
Proof.
  intros Hg Hsh H0 rs rest s [|[|fuel]] Hrs E Hst Hfuel; [lia|lia|]. destruct (starts3 rest Hst) as [Hnw Hno].
  pose proof (fits_buf _ _ E) as Hfit. rewrite !length_app in Hfit. pose proof (redirs_count rs).
  assert (0 < length rest)%nat by (destruct Hst as (? & ? & -> & _); cbn; lia).
  rewrite Hsh in *. cbn [app] in E. rewrite <- app_assoc in E. cbn [length app] in *. rewrite !length_app in *. cbn [length] in *. cbn [app] in E.
  unfold gives. cbn [parseexec]. rewrite (bind_ret _ _ _ _ _ (peek_symbol _ _ _ E ltac:(done) ltac:(done))).
  cbn [parseblock]. rewrite (bind_ret _ _ _ _ _ (peek_symbol _ _ _ E ltac:(done) ltac:(done))). cbn [negb].
  assert (nws (show t LLine ++ cRP :: show_redirs rs ++ rest)) as Hn1 by (apply nws_show; [done|by eexists _, _]).
  destruct (take_symbol _ _ _ E ltac:(done) Hn1) as [r1 R1]. rewrite (bind_ret _ _ _ _ _ R1). pose proof (drop_next _ _ _ E) as E2.
  destruct (H0 _ (S s) fuel E2) as (c & R2 & Hc); [eexists _, _; split; [reflexivity|set_solver]|lia|]. rewrite (bind_ret _ _ _ _ _ R2).
  pose proof (drop_app _ _ _ E2) as E3. rewrite (bind_ret _ _ _ _ _ (peek_symbol _ _ _ E3 ltac:(done) ltac:(done))). cbn [negb].
  destruct (take_symbol _ _ _ E3 ltac:(done) (nws_redirs rs rest Hnw)) as [r3 R3]. rewrite (bind_ret _ _ _ _ _ R3). pose proof (drop_next _ _ _ E3) as E4.
  unfold parseredirs. destruct (redirs_show rs (S es) _ rest Hrs ltac:(lia) E4 Hnw Hno) as (rs' & R4 & H4). rewrite (bind_ret _ _ _ _ _ R4).
  eexists. split; [unfold ret; f_equal; lia|]. by apply wrap_tree.
Qed.

Lemma P2_of_P3 t : show t LPipe = show t LExec -> P3 t -> P2 t.
Proof.
  intros Hsh H3 rest s [|fuel] E Hst Hfuel; [lia|]. rewrite Hsh in *. cbn [parsepipe].
  destruct (H3 [] rest s fuel) as (c & R & Hc); [constructor|exact E| |lia|].
  { eapply starts_mono; [|exact Hst]. unfold stop2, stop3. set_solver. }
  cbn [show_redirs mbind list_bind] in R. rewrite app_nil_r in R. unfold gives. rewrite (bind_ret _ _ _ _ _ R).
  erewrite bind_ret; [|eapply (peek_stop stop2); [by eapply drop_app|done|repeat constructor]]. by exists c.
Qed.

Lemma P2_pipe a b : good a -> good b -> P3 a -> P2 b -> P2 (TPipe a b).
Proof.
  intros Ha Hb H3 H2 rest s [|fuel] E Hst Hfuel; [lia|]. change (show (TPipe a b) LPipe) with (show a LExec ++ cBAR :: show b LPipe) in *.
  rewrite <- app_assoc in E. cbn [app] in E. pose proof (fits_buf _ _ E) as Hfit. rewrite !length_app in Hfit. cbn [length] in Hfit. rewrite length_app in Hfit.
  assert (0 < length rest)%nat as Hrest by (destruct Hst as (? & ? & -> & _); cbn; lia).
  assert (nws (show b LPipe ++ rest)) as Hn.
  { apply nws_show; [done|]. eapply starts_nws; [|exact Hst]. repeat constructor. }
  cbn [parsepipe]. destruct (H3 [] (cBAR :: show b LPipe ++ rest) s fuel) as (c & R & Hc); [constructor|exact E| |lia|].
  { eexists _, _. split; [reflexivity|set_solver]. }
  cbn [show_redirs mbind list_bind] in R. rewrite app_nil_r in R. unfold gives. rewrite (bind_ret _ _ _ _ _ R).
  pose proof (drop_app _ _ _ E) as E2. rewrite (bind_ret _ _ _ _ _ (peek_symbol _ _ _ E2 ltac:(done) ltac:(done))).
  destruct (take_symbol _ _ _ E2 ltac:(done) Hn) as [r R1]. rewrite (bind_ret _ _ _ _ _ R1). pose proof (drop_next _ _ _ E2) as E3.
  destruct (H2 rest _ fuel E3 Hst) as (d & R2 & Hd); [lia|]. rewrite (bind_ret _ _ _ _ _ R2).
  eexists. split; [unfold ret; f_equal; rewrite length_app; cbn [length]; lia|]. cbn. cbn [twrap foldl] in Hc. by rewrite Hc, Hd.
Qed.

Lemma iter_succ {A} (f : A -> A) n x : Nat.iter n f (f x) = Nat.iter (S n) f x.
Proof. symmetry. apply Nat.iter_succ_r. Qed.

Lemma iter_back n c t : tree_of (text buf) c = Some t -> tree_of (text buf) (Nat.iter n BACK c) = Some (Nat.iter n TBack t).
Proof. intros Hc. induction n as [|n IH]; [done|]. rewrite !Nat.iter_succ. cbn [tree_of]. by rewrite IH. Qed.

Lemma backs_show n fuel c s rest : (n < fuel)%nat -> drop s buf = replicate n cAMP ++ rest -> starts stop1 rest ->
  backs buf es fuel c s = Ret (s + n)%nat (Nat.iter n BACK c).
Proof.
  revert fuel c s. induction n as [|n IH]; intros [|fuel] c s Hf E Hst; try lia; cbn [backs].
  - erewrite bind_ret; [|eapply (peek_stop stop1); [exact E|done|repeat constructor]]. by rewrite Nat.add_0_r.
  - cbn [replicate app] in E. rewrite (bind_ret _ _ _ _ _ (peek_symbol _ _ _ E ltac:(done) ltac:(done))).
    destruct (take_symbol _ _ _ E ltac:(done)) as [r R].
    { destruct n as [|n]; [|by eexists _, _]. eapply starts_nws; [|exact Hst]. repeat constructor. }
    rewrite (bind_ret _ _ _ _ _ R), (IH fuel _ _ ltac:(lia) (drop_next _ _ _ E) Hst).
    rewrite iter_succ. f_equal. lia.
Qed.

Lemma P1_of_P2 t : show t LBack = show t LPipe -> P2 t -> P1 t.
Proof.
  intros Hsh H2 n rest s fuel E Hst Hfuel. rewrite Hsh in *. pose proof (fits_buf _ _ E) as Hfit. rewrite !length_app, length_replicate in Hfit.
  assert (0 < length rest)%nat by (destruct Hst as (? & ? & -> & _); cbn; lia).
  destruct (H2 _ s fuel E) as (c & R & Hc); [|done|].
  { destruct n; [eapply starts_mono; [|exact Hst]; unfold stop1, stop2; set_solver|]. eexists _, _. split; [reflexivity|set_solver]. }
  unfold gives. rewrite (bind_ret _ _ _ _ _ R). rewrite (backs_show n (S es) _ _ rest ltac:(lia) (drop_app _ _ _ E) Hst).
  eexists. split; [f_equal; lia|]. by apply iter_back.
Qed.

Lemma P1_back t : P1 t -> P1 (TBack t).
Proof.
  intros H1 n rest s fuel E Hst Hfuel. change (show (TBack t) LBack) with (show t LBack ++ [cAMP]) in *.
  rewrite <- app_assoc in E. destruct (H1 (S n) rest s fuel E Hst Hfuel) as (c & R & Hc).
  exists c. rewrite R, length_app. cbn [length]. split; [f_equal; lia|]. by rewrite iter_succ.
Qed.

(** The end of [parseline]: no [;] follows. *)
Lemma P0_of_P1 t : show t LLine = show t LBack -> P1 t -> P0 t.
Proof.
  intros Hsh H1 rest s [|fuel] E Hst Hfuel; [lia|]. rewrite Hsh in *.
  destruct (H1 0%nat rest s fuel) as (c & R & Hc); [exact E| |lia|].
  { eapply starts_mono; [|exact Hst]. unfold stop0, stop1. set_solver. }
  rewrite Nat.add_0_r in R. apply bind_inv in R as (s1 & c1 & R1 & R2). unfold gives. cbn [parseline].
  rewrite (bind_ret _ _ _ _ _ R1), (bind_ret _ _ _ _ _ R2).
  erewrite bind_ret; [|eapply (peek_stop stop0); [by eapply drop_app|done|repeat constructor]]. by exists c.
Qed.

Lemma P0_list a b : good b -> P1 a -> P0 b -> P0 (TList a b).
Proof.
  intros Hb H1 H0 rest s [|fuel] E Hst Hfuel; [lia|]. change (show (TList a b) LLine) with (show a LBack ++ cSEMI :: show b LLine) in *.
  rewrite <- app_assoc in E. cbn [app] in E. pose proof (fits_buf _ _ E) as Hfit. rewrite !length_app in Hfit. cbn [length] in Hfit. rewrite length_app in Hfit.
  assert (0 < length rest)%nat as Hrest by (destruct Hst as (? & ? & -> & _); cbn; lia).
  assert (nws (show b LLine ++ rest)) as Hn.
  { apply nws_show; [done|]. eapply starts_nws; [|exact Hst]. repeat constructor. }
  destruct (H1 0%nat _ s fuel E) as (c & R & Hc); [eexists _, _; split; [reflexivity|set_solver]|lia|].
  rewrite Nat.add_0_r in R. apply bind_inv in R as (s1 & c1 & R1 & R2). unfold gives. cbn [parseline].
  rewrite (bind_ret _ _ _ _ _ R1), (bind_ret _ _ _ _ _ R2). pose proof (drop_app _ _ _ E) as E2.
  rewrite (bind_ret _ _ _ _ _ (peek_symbol _ _ _ E2 ltac:(done) ltac:(done))).
  destruct (take_symbol _ _ _ E2 ltac:(done) Hn) as [r R3]. rewrite (bind_ret _ _ _ _ _ R3). pose proof (drop_next _ _ _ E2) as E3.
  destruct (H0 rest _ fuel E3 Hst) as (d & R4 & Hd); [lia|]. rewrite (bind_ret _ _ _ _ _ R4).
  eexists. split; [unfold ret; f_equal; rewrite length_app; cbn [length]; lia|]. cbn. cbn in Hc. by rewrite Hc, Hd.
Qed.

Lemma parse_levels t : good t -> P0 t /\ P1 t /\ P2 t /\ P3 t.
Proof.
  induction t as [ws|t IH f o|a IHa b IHb|a IHa b IHb|t IH]; intros Hg; cbn [good] in Hg.
  - assert (P3 (TExec ws)) as H3 by (by apply P3_exec). assert (P2 (TExec ws)) as H2 by (by apply P2_of_P3).
    assert (P1 (TExec ws)) as H1 by (by apply P1_of_P2). split_and!; try done. by apply P0_of_P1.
  - destruct Hg as [Hg Hf]. destruct (IH Hg) as (_ & _ & _ & H3'). assert (P3 (TRedir t f o)) as H3 by (by apply P3_redir).
    assert (P2 (TRedir t f o)) as H2 by (by apply P2_of_P3). assert (P1 (TRedir t f o)) as H1 by (by apply P1_of_P2).
    split_and!; try done. by apply P0_of_P1.
  - destruct Hg as [Ha Hb]. destruct (IHa Ha) as (_ & _ & _ & A3). destruct (IHb Hb) as (_ & _ & B2 & _).
    assert (P2 (TPipe a b)) as H2 by (by apply P2_pipe). assert (P1 (TPipe a b)) as H1 by (by apply P1_of_P2).
    assert (P0 (TPipe a b)) as H0 by (by apply P0_of_P1). split_and!; try done. by apply P3_block.
  - destruct Hg as [Ha Hb]. destruct (IHa Ha) as (_ & A1 & _ & _). destruct (IHb Hb) as (B0 & _ & _ & _).
    assert (P0 (TList a b)) as H0 by (by apply P0_list). assert (P3 (TList a b)) as H3 by (by apply P3_block).
    assert (P2 (TList a b)) as H2 by (by apply P2_of_P3). split_and!; try done. by apply P1_of_P2.
  - destruct (IH Hg) as (_ & A1 & _ & _). assert (P1 (TBack t)) as H1 by (by apply P1_back).
    assert (P0 (TBack t)) as H0 by (by apply P0_of_P1). assert (P3 (TBack t)) as H3 by (by apply P3_block).
    split_and!; try done. by apply P2_of_P3.
Qed.
End tokens.

Lemma good_word_nonzero w : good_word w -> Forall (fun c => c <> 0) (show_word w).
Proof.
  intros [_ HF]. apply Forall_app_2; [|by repeat constructor]. eapply Forall_impl; [exact HF|]. cbn. intros c Hc. by apply wordch_nws.
Qed.

Lemma show_nonzero t l : good t -> Forall (fun c => c <> 0) (show t l).
Proof.
  revert l. induction t as [ws|t IH f o|a IHa b IHb|a IHa b IHb|t IH]; intros l Hg; cbn [show good] in *.
  - destruct Hg as [HF _]. induction HF as [|w ws Hw HF IH]; [constructor|].
    change (show_words (w :: ws)) with (show_word w ++ show_words ws). apply Forall_app_2; [by apply good_word_nonzero|done].
  - apply Forall_app_2; [apply IH, Hg|]. constructor; [by destruct o|]. apply good_word_nonzero, Hg.
  - assert (Forall (fun c => c <> 0) (show a LExec ++ cBAR :: show b LPipe)) as HF.
    { apply Forall_app_2; [apply IHa, Hg|]. constructor; [done|apply IHb, Hg]. }
    unfold paren. case_bool_decide; [|done]. constructor; [done|]. apply Forall_app_2; [done|by repeat constructor].
  - assert (Forall (fun c => c <> 0) (show a LBack ++ cSEMI :: show b LLine)) as HF.
    { apply Forall_app_2; [apply IHa, Hg|]. constructor; [done|apply IHb, Hg]. }
    unfold paren. case_bool_decide; [|done]. constructor; [done|]. apply Forall_app_2; [done|by repeat constructor].
  - assert (Forall (fun c => c <> 0) (show t LBack ++ [cAMP])) as HF.
    { apply Forall_app_2; [by apply IH|by repeat constructor]. }
    unfold paren. case_bool_decide; [|done]. constructor; [done|]. apply Forall_app_2; [done|by repeat constructor].
Qed.

Lemma tree_of_ext str str' c : (forall w, w ∈ words c -> str w = str' w) -> tree_of str c = tree_of str' c.
Proof.
  induction c as [ws|c IH f m d|l IHl r IHr|l IHl r IHr|c IH]; cbn [words tree_of]; intros H.
  - do 2 f_equal. apply list_fmap_ext. intros i w Hw. apply H. by eapply list_elem_of_lookup_2.
  - rewrite IH by set_solver. rewrite (H f) by set_solver. done.
  - rewrite IHl, IHr by set_solver. done.
  - rewrite IHl, IHr by set_solver. done.
  - by rewrite IH.
Qed.

(** C30: the parser reads back every printed command: parsing the line gives a
    command whose strings, read as C strings from the buffer after
    [nulterminate], form the tree that was printed: programs with their
    arguments, redirections, pipes, lists and background jobs with the
    precedences of the grammar. *)
Theorem parse_print t : good t ->
  exists c buf, parsecmd (show t LLine ++ [0]) 0%nat = Ret (length (show t LLine)) (c, buf) /\
    tree_of (fun w => cstr (drop (fst w) buf)) c = Some t.
Proof.
  intros Hg. set (b := show t LLine). pose proof (show_nonzero t LLine Hg) as Hnz. fold b in Hnz. set (buf := b ++ [0]).
  assert (buf !! length b = Some 0) as Hend by (unfold buf; by rewrite lookup_app_r, Nat.sub_diag by lia).
  assert (length buf = S (length b)) as Hlen by (unfold buf; rewrite length_app; cbn; lia).
  assert (forall s c, (s < length b)%nat -> buf !! s = Some c -> c <> 0) as Hnul.
  { intros s c Hs. unfold buf. rewrite lookup_app_l by done. rewrite Forall_lookup in Hnz. apply Hnz. }
  destruct (parse_levels buf (length b) Hend Hlen Hnul t Hg) as (H0 & _).
  destruct (H0 [0] 0%nat (parse_fuel (length b))) as (c & R & Hc); [done|eexists _, _; split; [reflexivity|set_solver]|unfold parse_fuel; lia|].
  assert (cmd_ok buf (length b) c) as Hok.
  { destruct (parse_safe buf (length b) Hend Hnul (parse_fuel (length b))) as (Hl & _).
    specialize (Hl 0%nat ltac:(lia) ltac:(unfold parse_fuel; lia)). unfold safe in Hl. rewrite R in Hl. apply Hl. }
  exists c, (nulterminate c buf). split.
  - unfold parsecmd, setpos. rewrite modify_bind. change (strlen buf) with (strlen (b ++ [0])). rewrite (strlen_line b Hnz), from_opt_bind, Nat2Z.id. fold buf.
    rewrite (bind_ret _ _ _ _ _ R). fold b. cbn [Nat.add].
    assert (drop (length b) buf = [0]) as E by (unfold buf; by rewrite drop_app_length).
    rewrite (bind_ret _ _ _ _ _ (peek_at buf (length b) Hlen _ _ _ [0] E (inset_zero _))). rewrite get_bind, Nat.eqb_refl. done.
  - rewrite <- Hc. apply tree_of_ext. intros w Hw. by apply (nulterminate_text _ (length b)).
Qed.

(** ** Witness: [grep -v x <in | (wc &; ls) >out] *)
Definition demo_tree : tree :=
  TPipe (TRedir (TExec [[103; 114; 101; 112]; [45; 118]; [120]]) [105; 110] false)
    (TRedir (TList (TBack (TExec [[119; 99]])) (TExec [[108; 115]])) [111; 117; 116] true).

Lemma parse_print_witness : exists c buf, parsecmd (show demo_tree LLine ++ [0]) 0%nat = Ret 30%nat (c, buf) /\
  tree_of (fun w => cstr (drop (fst w) buf)) c = Some demo_tree.
Proof.
  apply (parse_print demo_tree). unfold demo_tree. cbn [good].
  repeat split; try done; try (repeat constructor; done); cbn; unfold MAXARGS; try lia.
Defined.
