(* ===== verification/User.v ===== *)
(** * User: user programs as trees of system calls

    A user program is a tree whose nodes are the system calls it makes
    (user.h) and whose branches are the results.  [run] follows one path with a
    handler that answers the calls; the theorems about programs are stated
    against handlers that describe files and the kernel's part of a call. *)
From stdpp Require Import base numbers list gmap strings.
From Stdlib Require Import ZArith Lia.
From S2P Require Import Prelude.

Local Open Scope Z_scope.

(** [struct stat], as user programs see it. *)
Record ustat := mk_ustat { u_type : Z; u_dev : Z; u_ino : Z; u_nlink : Z; u_size : Z }.

(** The calls with the data the kernel reads from user memory as arguments,
    and the data it writes as results. *)
Inductive call : Type -> Type :=
| cFork : call Z
| cWait : call Z
| cPipe : call (Z * (Z * Z))
| cWrite (fd : Z) (l : list Z) : call Z
| cRead (fd n : Z) : call (Z * list Z)
| cClose (fd : Z) : call Z
| cKill (pid : Z) : call Z
| cExec (path : list Z) (argv : list (list Z)) : call Z
| cOpen (path : list Z) (mode : Z) : call Z
| cMknod (path : list Z) (major minor : Z) : call Z
| cUnlink (path : list Z) : call Z
| cFstat (fd : Z) : call (Z * ustat)
| cLink (old new : list Z) : call Z
| cMkdir (path : list Z) : call Z
| cChdir (path : list Z) : call Z
| cDup (fd : Z) : call Z
| cGetpid : call Z
| cSbrk (n : Z) : call Z
| cSleep (n : Z) : call Z
| cUptime : call Z
| cSettickets (n : Z) : call Z.

(** [Exit] is the system call that does not return; [Stuck] marks a loop that
    used up its fuel. *)
Inductive prog (A : Type) : Type :=
| Done (a : A)
| Exit
| Stuck
| Call {X : Type} (c : call X) (k : X -> prog A).
Arguments Done {A} a.
Arguments Exit {A}.
Arguments Stuck {A}.
Arguments Call {A X} c k.

Fixpoint pbind {A B} (m : prog A) (f : A -> prog B) : prog B :=
  match m with
  | Done a => f a
  | Exit => Exit
  | Stuck => Stuck
  | Call c k => Call c (fun x => pbind (k x) f)
  end.
Definition sys {X} (c : call X) : prog X := Call c Done.

Declare Scope user_scope.
Delimit Scope user_scope with user.
Notation "'do' x <- m ; k" := (pbind m (fun x => k))
  (at level 10, x pattern, m at level 100, k at level 200) : user_scope.
Notation "m ;; k" := (pbind m (fun _ => k)) (at level 100, k at level 200, right associativity) : user_scope.
Open Scope user_scope.

(** ** Running a program *)

Inductive result (A S : Type) : Type :=
| RDone (a : A) (s : S)
| RExit (s : S)
| RStuck.
Arguments RDone {A S} a s.
Arguments RExit {A S} s.
Arguments RStuck {A S}.

Section run.
Context {S : Type} (h : forall X, call X -> S -> X * S).

Fixpoint run {A} (m : prog A) (s : S) : result A S :=
  match m with
  | Done a => RDone a s
  | Exit => RExit s
  | Stuck => RStuck
  | Call c k => let (x, s') := h _ c s in run (k x) s'
  end.

Lemma run_bind {A B} (m : prog A) (f : A -> prog B) s :
  run (pbind m f) s = match run m s with RDone a s' => run (f a) s' | RExit s' => RExit s' | RStuck => RStuck end.
Proof. revert s. induction m as [a| | |X c k IH]; intros s; cbn; [done..|]. destruct (h _ c s) as [x s']. apply IH. Qed.

Lemma run_done {A B} (m : prog A) (f : A -> prog B) s a s' : run m s = RDone a s' -> run (pbind m f) s = run (f a) s'.
Proof. intros R. by rewrite run_bind, R. Qed.
End run.

(** ** Handlers *)

(** Every call fails. *)
Definition h_fail {X} (c : call X) : X :=
  match c with
  | cPipe => (-1, (0, 0))
  | cRead _ _ => (-1, [])
  | cFstat _ => (-1, mk_ustat 0 0 0 0 0)
  | cFork | cWait | cWrite _ _ | cClose _ | cKill _ | cExec _ _ | cOpen _ _ | cMknod _ _ _ | cUnlink _ | cLink _ _
  | cMkdir _ | cChdir _ | cDup _ | cGetpid | cSbrk _ | cSleep _ | cUptime | cSettickets _ => -1
  end.

(** An input that arrives in pieces, and the writes made so far.  A read takes
    at most [n] bytes of the next piece; at the end of the input it returns 0. *)
Record stream := mk_stream { pieces : list (list Z); written : list (Z * list Z) }.
Definition h_stream (X : Type) (c : call X) (s : stream) : X * stream :=
  match c in call X return X * stream with
  | cRead _ n =>
      match pieces s with
      | [] => ((0, []), s)
      | l :: ps =>
          let a := take (Z.to_nat n) l in
          let b := drop (Z.to_nat n) l in
          ((Z.of_nat (length a), a), mk_stream (match b with [] => ps | _ => b :: ps end) (written s))
      end
  | cWrite fd l => (Z.of_nat (length l), mk_stream (pieces s) (written s ++ [(fd, l)]))
  | c => (h_fail c, s)
  end.
