(* ===== verification/Printf.v ===== *)
(** * Printf: formatted output of user programs (printf.c)

    [printint], [printlong] and the state machine of [printf], writing one byte
    per system call.  Numbers come out in their positional notation: [atoi]
    reads decimal ones back, and they fit the 16-byte buffer. *)
From stdpp Require Import base numbers list gmap strings.
From Stdlib Require Import ZArith Lia.
From S2P Require Import Prelude StringC User.

Local Open Scope Z_scope.

Definition putc (fd c : Z) : prog unit := sys (cWrite fd [u8 c]) ;; Done tt.
(** One [putc] per byte. *)
Fixpoint puts (fd : Z) (l : list Z) : prog unit :=
  match l with
  | [] => Done tt
  | c :: l => putc fd c ;; puts fd l
  end.

(** "0123456789ABCDEF" *)
Definition digits : list Z := [48; 49; 50; 51; 52; 53; 54; 55; 56; 57; 65; 66; 67; 68; 69; 70].

(** The loop that fills [buf]: least significant digit first.  [fuel] bounds the
    number of digits of a 32-bit word. *)
Fixpoint digit_loop (fuel : nat) (x base : Z) : list Z :=
  match fuel with
  | O => []
  | S fuel =>
      let d := digits !!! Z.to_nat (x mod base) in
      let x := x / base in
      if negb (x =? 0) then d :: digit_loop fuel x base else [d]
  end.
Definition int_buf (xx base : Z) (sgn : bool) : list Z :=
  let neg := sgn && (xx <? 0) in
  let x := if neg then u32 (- xx) else u32 xx in
  digit_loop 32 x base ++ (if neg then [45] else []).

Definition printint (fd xx base : Z) (sgn : bool) : prog unit := puts fd (reverse (int_buf xx base sgn)).

Definition printlong (fd xx : Z) : prog unit :=
  let upper := Z.shiftr xx 32 in
  let lower := Z.land xx 0xffffffff in
  (if negb (upper =? 0) then printint fd (i32 upper) 16 false else Done tt) ;;
  printint fd (i32 lower) 16 false.

(** The words at [ap]: a number, or a pointer to a string ([None] is null). *)
Inductive arg := AInt (x : Z) | AStr (s : option (list Z)).

(** "(null)" *)
Definition null_text : list Z := [40; 110; 117; 108; 108; 41].

Fixpoint printf_loop (fd : Z) (fmt : list Z) (percent : bool) (ap : list arg) : prog unit :=
  match fmt with
  | [] => Done tt
  | f :: fmt =>
      let c := Z.land f 0xff in
      if negb percent then
        if c =? 37 then printf_loop fd fmt true ap
        else putc fd c ;; printf_loop fd fmt false ap
      else if c =? 100 then
        match ap with AInt x :: ap => printint fd (i32 x) 10 true ;; printf_loop fd fmt false ap | _ => Stuck end
      else if c =? 108 then
        match ap with
        | AInt lo :: AInt hi :: ap => printlong fd (u32 lo + 2 ^ 32 * u32 hi) ;; printf_loop fd fmt false ap
        | _ => Stuck
        end
      else if (c =? 120) || (c =? 112) then
        match ap with AInt x :: ap => printint fd (i32 x) 16 false ;; printf_loop fd fmt false ap | _ => Stuck end
      else if c =? 115 then
        match ap with
        | AStr s :: ap => puts fd (default null_text s) ;; printf_loop fd fmt false ap
        | _ => Stuck
        end
      else if c =? 99 then
        match ap with AInt x :: ap => putc fd x ;; printf_loop fd fmt false ap | _ => Stuck end
      else if c =? 37 then putc fd c ;; printf_loop fd fmt false ap
      else putc fd 37 ;; putc fd c ;; printf_loop fd fmt false ap
  end.
Definition printf (fd : Z) (fmt : list Z) (ap : list arg) : prog unit := printf_loop fd fmt false ap.

(** ** Positional notation *)

Lemma digit_loop_step fuel x base :
  digit_loop (S fuel) x base =
    digits !!! Z.to_nat (x mod base) :: if x / base =? 0 then [] else digit_loop fuel (x / base) base.
Proof. cbn [digit_loop]. by destruct (x / base =? 0). Qed.

Lemma digit_loop_length fuel k x base : 2 <= base -> 0 <= x < base ^ Z.of_nat (S k) ->
  (length (digit_loop fuel x base) <= S k)%nat.
Proof.
  intros Hb. revert fuel x. induction k as [|k IH]; intros [|fuel] x Hx; try (cbn; lia); rewrite digit_loop_step; cbn [length].
  - rewrite Z.div_small by lia. cbn. lia.
  - destruct (x / base =? 0); [cbn; lia|]. assert (0 <= x / base < base ^ Z.of_nat (S k)) as Hq.
    { split; [apply Z.div_pos; lia|]. apply Z.div_lt_upper_bound; [lia|]. rewrite <- Z.pow_succ_r by lia.
      replace (Z.succ (Z.of_nat (S k))) with (Z.of_nat (S (S k))) by lia. lia. }
    specialize (IH fuel (x / base) Hq). lia.
Qed.

(** [atoi] on decimal digits followed by something else. *)
Lemma atoi_digits l n r c : Forall (fun d => 48 <= d <= 57) l -> ~ (48 <= c <= 57) ->
  Ulib.atoi_loop (l ++ c :: r) n = Some (foldl (fun n d => i32 (n * 10 + d - 48)) n l).
Proof.
  intros HF Hc. revert n. induction HF as [|d l Hd _ IH]; intros n; cbn [app Ulib.atoi_loop foldl].
  - destruct (Z.leb_spec 48 c), (Z.leb_spec c 57); cbn; lia || done.
  - rewrite (proj2 (Z.leb_le 48 d)), (proj2 (Z.leb_le d 57)) by lia. cbn [andb]. apply IH.
Qed.

Lemma decimal_digit m : 0 <= m < 10 -> digits !!! Z.to_nat m = 48 + m.
Proof.
  intros Hm. assert (Forall (fun i => digits !!! i = 48 + Z.of_nat i) (seq 0 10)) as HF by (apply (bool_decide_unpack _); vm_compute; exact I).
  rewrite Forall_forall in HF. rewrite (HF (Z.to_nat m)); [lia|]. apply elem_of_seq. lia.
Qed.

Lemma decimal_loop fuel x : 0 <= x < 2 ^ 31 -> x < 10 ^ Z.of_nat fuel -> (0 < fuel)%nat ->
  Forall (fun d => 48 <= d <= 57) (digit_loop fuel x 10) /\
  foldl (fun n d => i32 (n * 10 + d - 48)) 0 (reverse (digit_loop fuel x 10)) = x.
Proof.
  revert x. induction fuel as [|fuel IH]; intros x Hx Hf Hp; [lia|]. rewrite digit_loop_step.
  pose proof (Z.mod_pos_bound x 10 ltac:(lia)) as Hm. pose proof (Z.div_mod x 10 ltac:(lia)) as Hdm.
  rewrite decimal_digit by done. destruct (Z.eqb_spec (x / 10) 0) as [Hz|Hz].
  - split; [constructor; [lia|constructor]|]. cbn [reverse rev_append foldl]. rewrite i32_small by lia. lia.
  - assert (0 <= x / 10) as Hq0 by (apply Z.div_pos; lia).
    destruct (IH (x / 10)) as [HF HV]; [lia| |destruct fuel; [cbn in Hf; lia|lia]|].
    { apply Z.div_lt_upper_bound; [lia|]. rewrite <- Z.pow_succ_r by lia.
      replace (Z.succ (Z.of_nat fuel)) with (Z.of_nat (S fuel)) by lia. done. }
    split; [constructor; [lia|done]|]. rewrite reverse_cons, foldl_app, HV. cbn [foldl]. rewrite i32_small by lia. lia.
Qed.

(** A number printed with [%d] is read back by [atoi]: for every
    non-negative [int] the bytes [printint] writes, followed by the terminator,
    are a string whose value is the number; negative numbers get a minus sign
    in front of their absolute value; and the digits fit the 16 bytes of
    [buf]. *)
Theorem printint_atoi fd x :
  - 2 ^ 31 <= x < 2 ^ 31 ->
  let neg := if x <? 0 then [45] else [] in
  exists l, printint fd x 10 true = puts fd (neg ++ l) /\
    (length (neg ++ l) <= 16)%nat /\
    (- 2 ^ 31 < x -> Ulib.atoi (l ++ [0]) = Some (Z.abs x)).
Proof.
  intros Hx neg. set (y := if x <? 0 then u32 (- x) else u32 x).
  assert (y = Z.abs x) as Hy.
  { unfold y. destruct (Z.ltb_spec x 0); rewrite u32_small by (unfold is_u32; lia); lia. }
  exists (reverse (digit_loop 32 y 10)). split; [|split].
  - unfold printint, int_buf. cbn [andb]. fold y. f_equal. unfold neg. rewrite reverse_app. by destruct (x <? 0).
  - rewrite length_app, length_reverse. pose proof (digit_loop_length 32 9 y 10 ltac:(lia) ltac:(lia)).
    assert (length neg <= 1)%nat by (unfold neg; destruct (x <? 0); cbn; lia). lia.
  - intros Hmin. destruct (decimal_loop 32 y) as [HF HV]; [lia| |lia|].
    { change (Z.of_nat 32) with 32. lia. }
    unfold Ulib.atoi. rewrite (atoi_digits _ 0 [] 0); [by rewrite HV, Hy| |lia]. by apply Forall_reverse.
Qed.

Lemma printint_atoi_witness : exists l, printint 1 1234 10 true = puts 1 l /\ Ulib.atoi (l ++ [0]) = Some 1234.
Proof.
  destruct (printint_atoi 1 1234 ltac:(lia)) as (l & E & _ & Ha). exists l. split; [exact E|]. apply Ha. lia.
Defined.
