(* ===== verification/Grep.v ===== *)
(** * Grep: the pattern matcher and the line filter (grep.c)

    [match], [matchhere] and [matchstar] on strings, the buffer handling of
    [grep], and [main].  The matcher decides the language of its patterns; the
    filter prints the matching lines when every read delivers the end of a
    line, and loses text when one does not. *)
From stdpp Require Import base numbers list gmap strings.
From Stdlib Require Import ZArith Lia.
From S2P Require Import Prelude Bytes StringC User Printf.

Local Open Scope Z_scope.

(** ** The matcher

    Strings are lists of non-zero bytes; the end of the list is the
    terminator. *)
Definition cDOT : Z := 46.
Definition cSTAR : Z := 42.
Definition cHAT : Z := 94.
Definition cDOLLAR : Z := 36.

(** [matchstar], the recursive call [matchhere(re, text)] being [mh]. *)
Fixpoint matchstar (mh : list Z -> bool) (c : Z) (text : list Z) : bool :=
  mh text ||
  match text with
  | [] => false
  | t :: text => ((t =? c) || (c =? cDOT)) && matchstar mh c text
  end.

Fixpoint matchhere (re text : list Z) {struct re} : bool :=
  match re with
  | [] => true
  | c :: re1 =>
      let one :=
        match text with
        | [] => false
        | t :: text => ((c =? cDOT) || (c =? t)) && matchhere re1 text
        end in
      match re1 with
      | [] => if c =? cDOLLAR then bool_decide (text = []) else one
      | d :: re2 => if d =? cSTAR then matchstar (matchhere re2) c text else one
      end
  end.

(** The loop of [match]. *)
Fixpoint match_loop (re text : list Z) : bool :=
  matchhere re text ||
  match text with
  | [] => false
  | _ :: text => match_loop re text
  end.
Definition match_ (re text : list Z) : bool :=
  match re with
  | c :: re1 => if c =? cHAT then matchhere re1 text else match_loop re text
  | [] => match_loop re text
  end.

(** ** The language of a pattern *)

(** A character or any character, once or repeated. *)
Inductive item := One (p : option Z) | Many (p : option Z).
Definition char_of (c : Z) : option Z := if c =? cDOT then None else Some c.
Definition fits (p : option Z) (t : Z) : Prop := match p with Some c => t = c | None => True end.

(** The items of a pattern and whether it is anchored at the end. *)
Fixpoint items (re : list Z) : list item * bool :=
  match re with
  | [] => ([], false)
  | c :: re1 =>
      match re1 with
      | [] => if c =? cDOLLAR then ([], true) else ([One (char_of c)], false)
      | d :: re2 =>
          if d =? cSTAR then let '(l, e) := items re2 in (Many (char_of c) :: l, e)
          else let '(l, e) := items re1 in (One (char_of c) :: l, e)
      end
  end.

Inductive lang : list item -> list Z -> Prop :=
| lang_nil : lang [] []
| lang_one p l t s : fits p t -> lang l s -> lang (One p :: l) (t :: s)
| lang_zero p l s : lang l s -> lang (Many p :: l) s
| lang_more p l t s : fits p t -> lang (Many p :: l) s -> lang (Many p :: l) (t :: s).

(** A string of the language begins the text, and is all of it if anchored. *)
Definition here (r : list item * bool) (text : list Z) : Prop :=
  exists pre post, text = pre ++ post /\ lang (fst r) pre /\ (snd r = true -> post = []).

Lemma fits_char c t : fits (char_of c) t <-> (c =? cDOT) || (c =? t) = true.
Proof.
  unfold char_of, fits. destruct (Z.eqb_spec c cDOT); cbn; [done|]. rewrite Z.eqb_eq. naive_solver.
Qed.

Lemma here_one p l e text : here (One p :: l, e) text <-> exists t text', text = t :: text' /\ fits p t /\ here (l, e) text'.
Proof.
  split.
  - intros (pre & post & -> & HL & HE). inversion HL; subst. eexists _, _. split; [reflexivity|]. split; [done|].
    by eexists _, _.
  - intros (t & text' & -> & Hf & pre & post & -> & HL & HE). exists (t :: pre), post. split_and!; [done|by constructor|done].
Qed.

Lemma here_many p l e text : here (Many p :: l, e) text <->
  here (l, e) text \/ exists t text', text = t :: text' /\ fits p t /\ here (Many p :: l, e) text'.
Proof.
  split.
  - intros (pre & post & -> & HL & HE). inversion HL; subst.
    + left. by eexists _, _.
    + right. eexists _, _. split; [reflexivity|]. split; [done|]. by eexists _, _.
  - intros [(pre & post & -> & HL & HE)|(t & text' & -> & Hf & pre & post & -> & HL & HE)].
    + exists pre, post. split_and!; [done|by apply lang_zero|done].
    + exists (t :: pre), post. split_and!; [done|by apply lang_more|done].
Qed.

Lemma matchstar_spec mh c l e : (forall text, mh text = true <-> here (l, e) text) ->
  forall text, matchstar mh c text = true <-> here (Many (char_of c) :: l, e) text.
Proof.
  intros Hmh text. induction text as [|t text IH]; cbn [matchstar]; rewrite orb_true_iff, Hmh, here_many.
  - split; [naive_solver|]. intros [?|(t & text' & ? & _)]; [by left|done].
  - rewrite andb_true_iff, IH. rewrite (orb_comm (t =? c)), (Z.eqb_sym t c), <- fits_char. naive_solver.
Qed.

Lemma here_nil text : here ([], false) text.
Proof. exists [], text. split_and!; [done|constructor|done]. Qed.

Lemma matchhere_spec re text : matchhere re text = true <-> here (items re) text.
Proof.
  revert text. remember (length re) as n eqn:En. revert re En. induction n as [n IH] using lt_wf_ind. intros re -> text.
  destruct re as [|c re1]; [split; [intros _; apply here_nil|done]|].
  assert (match text with [] => false | t :: text => ((c =? cDOT) || (c =? t)) && matchhere re1 text end = true <->
          here (let '(l, e) := items re1 in (One (char_of c) :: l, e)) text) as Hone.
  { specialize (IH (length re1) ltac:(cbn; lia) re1 eq_refl). destruct (items re1) as [l e]. rewrite here_one. destruct text as [|t text]; [naive_solver|].
    rewrite andb_true_iff, <- fits_char, IH. naive_solver. }
  destruct re1 as [|d re2]; cbn [matchhere items] in *.
  - destruct (c =? cDOLLAR); [|exact Hone]. rewrite bool_decide_eq_true. split.
    + intros ->. exists [], []. split_and!; [done|constructor|done].
    + intros (pre & post & -> & HL & HE). cbn in *. inversion HL. by rewrite HE.
  - destruct (d =? cSTAR); [|exact Hone].
    specialize (IH (length re2) ltac:(cbn; lia) re2 eq_refl). destruct (items re2) as [l e]. by apply matchstar_spec.
Qed.

Lemma match_loop_spec re text : match_loop re text = true <-> exists a b, text = a ++ b /\ here (items re) b.
Proof.
  induction text as [|t text IH]; cbn [match_loop]; rewrite orb_true_iff, matchhere_spec.
  - split; [intros [?|?]; [by exists [], []|done]|]. intros (a & b & E & Hb). symmetry in E. apply app_nil in E as [-> ->]. by left.
  - rewrite IH. split.
    + intros [?|(a & b & -> & Hb)]; [by exists [], (t :: text)|by exists (t :: a), b].
    + intros ([|x a] & b & E & Hb); [left; by rewrite E|right]. injection E as -> ->. by exists a, b.
Qed.

(** C32: the matcher decides the language of its patterns: [match] accepts a
    text exactly when some part of it is a string of the pattern, the
    beginning if the pattern starts with a hat, the end if it ends in a
    dollar. *)
Theorem match_language re text :
  match_ re text = true <->
  match re with
  | c :: re1 => if c =? cHAT then here (items re1) text else exists a b, text = a ++ b /\ here (items re) b
  | [] => exists a b, text = a ++ b /\ here (items re) b
  end.
Proof.
  destruct re as [|c re1]; cbn [match_]; [apply match_loop_spec|].
  destruct (c =? cHAT); [apply matchhere_spec|apply match_loop_spec].
Qed.

(** ** The filter *)

Definition BUFSIZE : Z := 1024.
Definition NL : Z := 10.

(** The inner loop: the lines of [p], the bytes of the buffer from [p] on.  The
    matching ones are written; the result says whether there was a newline, and
    what is left.  [fuel] bounds the number of lines. *)
Fixpoint lines (fuel : nat) (pattern p : list Z) (found : bool) : prog (bool * list Z) :=
  match fuel with
  | O => Stuck
  | S fuel =>
      match Ulib.strchr (p ++ [0]) NL with
      | Some (Some i) =>
          (if match_ pattern (take i p) then sys (cWrite 1 (take (S i) p)) ;; Done tt else Done tt) ;;
          lines fuel pattern (drop (S i) p) true
      | _ => Done (found, p)
      end
  end.

(** [pend] is [buf[0..m)]. *)
Fixpoint grep (fuel : nat) (pattern : list Z) (fd : Z) (pend : list Z) : prog unit :=
  match fuel with
  | O => Stuck
  | S fuel =>
      do (n, l) <- sys (cRead fd (BUFSIZE - Z.of_nat (length pend) - 1));
      if 0 <? n then
        let b := pend ++ l in
        do (found, p) <- lines (S (length b)) pattern b false;
        grep fuel pattern fd (if found : bool then p else [])
      else Done tt
  end.

(** "usage: grep pattern [file ...]\n" and "grep: cannot open %s\n" *)
Definition usage : list Z :=
  [117; 115; 97; 103; 101; 58; 32; 103; 114; 101; 112; 32; 112; 97; 116; 116; 101; 114; 110; 32; 91; 102; 105; 108; 101; 32; 46; 46; 46; 93; 10].
Definition cannot_open : list Z :=
  [103; 114; 101; 112; 58; 32; 99; 97; 110; 110; 111; 116; 32; 111; 112; 101; 110; 32; 37; 115; 10].

Fixpoint grep_files (fuel : nat) (pattern : list Z) (files : list (list Z)) : prog unit :=
  match files with
  | [] => Exit
  | f :: files =>
      do fd <- sys (cOpen f 0);
      if fd <? 0 then printf 1 cannot_open [AStr (Some f)] ;; Exit
      else grep fuel pattern fd [] ;; sys (cClose fd) ;; grep_files fuel pattern files
  end.
Definition main (fuel : nat) (argv : list (list Z)) : prog unit :=
  match argv with
  | [] | [_] => printf 2 usage [] ;; Exit
  | [_; pattern] => grep fuel pattern 0 [] ;; Exit
  | _ :: pattern :: files => grep_files fuel pattern files
  end.

(** ** What the filter prints *)

(** The complete lines of a text, and the rest behind the last newline. *)
Fixpoint text_lines (p : list Z) : list (list Z) * list Z :=
  match p with
  | [] => ([], [])
  | c :: p =>
      let '(ls, r) := text_lines p in
      if c =? NL then ([] :: ls, r)
      else match ls with [] => ([], c :: r) | l :: ls => ((c :: l) :: ls, r) end
  end.

(** The writes of the lines that match. *)
Definition matching (pattern : list Z) (ls : list (list Z)) : list (Z * list Z) :=
  (fun l => (1, l ++ [NL])) <$> filter (fun l => match_ pattern l = true) ls.

Lemma text_lines_app a b :
  text_lines (a ++ b) =
    let '(la, ra) := text_lines a in let '(lb, rb) := text_lines (ra ++ b) in (la ++ lb, rb).
Proof.
  induction a as [|c a IH]; cbn [app text_lines]; [by destruct (text_lines b)|]. rewrite IH.
  destruct (text_lines a) as [la ra]. destruct (text_lines (ra ++ b)) as [lb rb] eqn:E. destruct (Z.eqb_spec c NL); [by rewrite E|].
  destruct la as [|l la]; cbn [app text_lines]; [|by rewrite E]. rewrite E, (proj2 (Z.eqb_neq c NL)) by done. by destruct lb.
Qed.

Lemma text_lines_cut p : Forall (fun c => c <> 0) p ->
  match text_lines p with
  | ([], r) => Ulib.strchr (p ++ [0]) NL = Some None /\ r = p
  | (l :: ls, r) => Ulib.strchr (p ++ [0]) NL = Some (Some (length l)) /\
      exists q, p = l ++ NL :: q /\ text_lines q = (ls, r)
  end.
Proof.
  induction 1 as [|c p Hc _ IH]; [done|]. cbn [app text_lines Ulib.strchr]. rewrite (proj2 (Z.eqb_neq c 0)) by done.
  destruct (text_lines p) as [ls r] eqn:E. destruct (Z.eqb_spec c NL) as [->|Hne].
  - split; [done|]. by exists p.
  - destruct ls as [|l ls].
    + destruct IH as [-> ->]. done.
    + destruct IH as (-> & q & -> & Hq). split; [done|]. by exists q.
Qed.

Lemma text_lines_rest p ls r : text_lines p = (ls, r) -> ls <> [] -> (length r < length p)%nat.
Proof.
  revert ls r. induction p as [|c p IH]; intros ls r E Hne; cbn in E; [by injection E as <- <-|].
  destruct (text_lines p) as [ls' r'] eqn:E'. destruct (c =? NL).
  - injection E as <- <-. destruct ls' as [|l ls']; [|specialize (IH _ _ eq_refl ltac:(done)); cbn; lia].
    assert (length r' <= length p)%nat; [|cbn; lia]. clear -E'. revert r' E'. induction p as [|d p IH]; intros r' E; cbn in E; [by injection E as <-|].
    destruct (text_lines p) as [ls2 r2]. destruct (d =? NL); [done|]. destruct ls2; [|done]. injection E as <-. cbn. specialize (IH r2 eq_refl). lia.
  - destruct ls' as [|l ls']; [by injection E as <- <-|]. injection E as <- <-. specialize (IH _ _ eq_refl ltac:(done)). cbn. lia.
Qed.

Lemma lines_run fuel pattern p found s : Forall (fun c => c <> 0) p -> (length p < fuel)%nat ->
  let '(ls, r) := text_lines p in
  run h_stream (lines fuel pattern p found) s =
    RDone (found || negb (bool_decide (ls = [])), r) (mk_stream (pieces s) (written s ++ matching pattern ls)).
Proof.
  revert p found s. induction fuel as [|fuel IH]; intros p found s Hp Hf; [lia|]. pose proof (text_lines_cut p Hp) as Hcut.
  destruct (text_lines p) as [[|l ls] r]; cbn [lines].
  - destruct Hcut as [-> ->]. cbn. rewrite orb_false_r, app_nil_r. by destruct s.
  - destruct Hcut as (-> & q & -> & Hq).
    assert (take (length l) (l ++ NL :: q) = l) as E1 by apply take_app_length.
    assert (take (S (length l)) (l ++ NL :: q) = l ++ [NL]) as E2.
    { rewrite (cons_middle NL l q), app_assoc. rewrite take_app_length'; [done|]. rewrite length_app. cbn. lia. }
    assert (drop (S (length l)) (l ++ NL :: q) = q) as E3.
    { rewrite (cons_middle NL l q), app_assoc. rewrite drop_app_length'; [done|]. rewrite length_app. cbn. lia. }
    rewrite E1, E2, E3. apply Forall_app in Hp as [_ Hp]. apply Forall_cons in Hp as [_ Hp].
    rewrite length_app in Hf. cbn in Hf. rewrite run_bind.
    pose proof (fun s => IH q true s Hp ltac:(lia)) as Hq'. rewrite Hq in Hq'.
    unfold matching. rewrite filter_cons. destruct (match_ pattern l) eqn:Em.
    + rewrite decide_True by done. cbn. rewrite Hq'. cbn. rewrite orb_true_r, <- app_assoc. done.
    + rewrite decide_False by done. cbn. rewrite Hq'. cbn. by rewrite orb_true_r.
Qed.

Lemma text_lines_idem p : text_lines (snd (text_lines p)) = ([], snd (text_lines p)).
Proof.
  induction p as [|c p IH]; [done|]. cbn [text_lines]. destruct (text_lines p) as [ls r]. cbn [snd] in IH.
  destruct (Z.eqb_spec c NL); [done|]. destruct ls as [|l ls]; [|done]. cbn. rewrite IH. by rewrite (proj2 (Z.eqb_neq c NL)).
Qed.

Lemma text_lines_has p : NL ∈ p -> fst (text_lines p) <> [].
Proof.
  induction p as [|c p IH]; [set_solver|]. cbn [text_lines]. destruct (text_lines p) as [ls r].
  destruct (Z.eqb_spec c NL); [done|]. intros [?|Hp]%elem_of_cons; [congruence|]. specialize (IH Hp). by destruct ls.
Qed.

Lemma text_lines_tail a l : NL ∈ l -> snd (text_lines (a ++ l)) = snd (text_lines l).
Proof.
  intros Hl. induction a as [|c a IH]; [done|]. cbn [app text_lines]. pose proof (text_lines_has (a ++ l) ltac:(set_solver)) as Hne.
  destruct (text_lines (a ++ l)) as [ls r]. cbn in IH, Hne. destruct (c =? NL); [done|]. by destruct ls.
Qed.

Lemma text_lines_nonzero p : Forall (fun c => c <> 0) p -> Forall (fun c => c <> 0) (snd (text_lines p)).
Proof.
  induction 1 as [|c p Hc Hp IH]; [constructor|]. cbn [text_lines]. destruct (text_lines p) as [ls r].
  destruct (c =? NL); [done|]. destruct ls; [by constructor|done].
Qed.

Definition good_piece (l : list Z) : Prop := (length l <= 512)%nat /\ NL ∈ l /\ Forall (fun c => c <> 0) l.

Lemma grep_run fuel pattern fd pend ps w :
  Forall good_piece ps ->
  Forall (fun c => c <> 0) pend -> (length pend < 512)%nat -> text_lines pend = ([], pend) -> (length ps < fuel)%nat ->
  run h_stream (grep fuel pattern fd pend) (mk_stream ps w) =
    RDone tt (mk_stream [] (w ++ matching pattern (fst (text_lines (pend ++ concat ps))))).
Proof.
  revert pend ps w. induction fuel as [|fuel IH]; intros pend ps w HF Hp Hlen Hrest Hf; [lia|]. cbn [grep pbind sys run].
  destruct ps as [|l ps]; cbn [h_stream pieces].
  - cbn. rewrite app_nil_r, Hrest. cbn. by rewrite app_nil_r.
  - apply Forall_cons in HF as [(Hl & Hnl & Hnz) HF]. rewrite take_ge, drop_ge by (unfold BUFSIZE; lia).
    assert (0 < length l)%nat by (destruct l; [set_solver|cbn; lia]).
    cbn [pbind written]. rewrite (proj2 (Z.ltb_lt 0 _)) by lia. rewrite run_bind.
    assert (Forall (fun c => c <> 0) (pend ++ l)) as Hnz' by (by apply Forall_app_2).
    pose proof (lines_run (S (length (pend ++ l))) pattern (pend ++ l) false (mk_stream ps w) Hnz' ltac:(lia)) as HL.
    cbn [concat]. rewrite (app_assoc pend l), (text_lines_app (pend ++ l)).
    pose proof (text_lines_has (pend ++ l) ltac:(set_solver)) as Hne. pose proof (text_lines_tail pend l Hnl) as Htail.
    pose proof (text_lines_idem (pend ++ l)) as Hidem. pose proof (text_lines_nonzero _ Hnz') as Hnzr.
    destruct (text_lines (pend ++ l)) as [ls r] eqn:E. cbn [fst snd] in *. cbn [pieces written] in HL. rewrite HL.
    rewrite bool_decide_false by done. cbn [orb negb].
    rewrite IH; [|done|done| |done|cbn in Hf; lia].
    + destruct (text_lines (r ++ concat ps)) as [lb rb]. cbn [fst]. unfold matching. by rewrite filter_app, fmap_app, app_assoc.
    + destruct (text_lines l) as [ll lr] eqn:El. pose proof (text_lines_has l Hnl) as Hll. rewrite El in Hll. cbn in Htail, Hll. subst lr.
      pose proof (text_lines_rest _ _ _ El Hll). lia.
Qed.

(** When every read delivers the end of some line, [grep] writes exactly the
    lines of the input that match the pattern, each with its newline, in
    order. *)
Theorem grep_prints_matching fuel pattern fd ps :
  Forall good_piece ps -> (length ps < fuel)%nat ->
  run h_stream (grep fuel pattern fd []) (mk_stream ps []) =
    RDone tt (mk_stream [] (matching pattern (fst (text_lines (concat ps))))).
Proof. intros HF Hf. apply (grep_run fuel pattern fd [] ps []); [done|constructor|cbn; lia|done|done]. Qed.

(** [grep] throws away the bytes of a read that holds no newline: of a line
    that arrives in two pieces only the second one is matched, so "abc" is not
    found in it. *)
Theorem grep_loses_pieces :
  match_ [97; 98; 99] [97; 98; 99] = true /\
  run h_stream (grep 3 [97; 98; 99] 0 []) (mk_stream [[97; 98]; [99; 10]] []) = RDone tt (mk_stream [] []).
Proof. split; vm_compute; reflexivity. Qed.

Lemma grep_prints_matching_witness :
  run h_stream (grep 5 [98; 42; 99; 36] 0 []) (mk_stream [[97; 98; 99; 10; 98]; [100; 10; 99; 10]] []) =
    RDone tt (mk_stream [] [(1, [97; 98; 99; 10]); (1, [99; 10])]).
Proof.
  rewrite (grep_prints_matching 5 [98; 42; 99; 36] 0 [[97; 98; 99; 10; 98]; [100; 10; 99; 10]]); [vm_compute; reflexivity| |cbn; lia].
  repeat constructor; unfold good_piece, NL; cbn; repeat split; try lia; try set_solver; repeat constructor; lia.
Defined.
