(* ===== verification/Progs.v ===== *)
(** * Progs: the small user programs (cat.c, echo.c, init.c, kill.c, ln.c, ls.c,
    mkdir.c, rm.c, wc.c, zombie.c, and [stat] of ulib.c)

    Each [main] is a tree of system calls.  [wc] counts lines, words and bytes
    whatever the pieces its input arrives in, and [cat] copies its input. *)
From stdpp Require Import base numbers list gmap strings.
From Stdlib Require Import ZArith Lia Ascii.
From S2P Require Import Prelude Bytes StringC User Printf.

Local Open Scope Z_scope.

(** The bytes of a string literal; [ln] adds a newline. *)
Definition B (s : string) : list Z := (fun c => Z.of_N (N_of_ascii c)) <$> String.list_ascii_of_string s.
Definition ln (s : string) : list Z := B s ++ [10].

(** The loop over the arguments of a [main]. *)
Fixpoint each (l : list (list Z)) (f : list Z -> prog bool) : prog unit :=
  match l with
  | [] => Exit
  | x :: l => do go <- f x; if go : bool then each l f else Exit
  end.

(** ** cat *)
Module Cat.
Fixpoint cat (fuel : nat) (fd : Z) : prog unit :=
  match fuel with
  | O => Stuck
  | S fuel =>
      do (n, l) <- sys (cRead fd 512);
      if 0 <? n then sys (cWrite 1 l) ;; cat fuel fd
      else if n <? 0 then printf 1 (ln "cat: read error") [] ;; Exit
      else Done tt
  end.
Definition main (fuel : nat) (argv : list (list Z)) : prog unit :=
  match argv with
  | [] | [_] => cat fuel 0 ;; Exit
  | _ :: files =>
      each files (fun f =>
        do fd <- sys (cOpen f 0);
        if fd <? 0 then printf 1 (ln "cat: cannot open %s") [AStr (Some f)] ;; Exit
        else cat fuel fd ;; sys (cClose fd) ;; Done true)
  end.
End Cat.

(** ** wc *)
Module Wc.
Definition space (c : Z) : bool :=
  match Ulib.strchr (B " " ++ [13; 9; 10; 11; 0]) c with Some (Some _) => true | _ => false end.

(** The counters [l], [w], [c] and [inword]. *)
Record counts := mk_counts { l : Z; w : Z; c : Z; inword : bool }.
Definition count1 (k : counts) (b : Z) : counts :=
  let k := mk_counts (l k) (w k) (i32 (c k + 1)) (inword k) in
  let k := if b =? 10 then mk_counts (i32 (l k + 1)) (w k) (c k) (inword k) else k in
  if space b then mk_counts (l k) (w k) (c k) false
  else if negb (inword k) then mk_counts (l k) (i32 (w k + 1)) (c k) true
  else k.
Definition count (k : counts) (bs : list Z) : counts := foldl count1 k bs.

Fixpoint wc_loop (fuel : nat) (fd : Z) (name : list Z) (k : counts) : prog unit :=
  match fuel with
  | O => Stuck
  | S fuel =>
      do (n, bs) <- sys (cRead fd 512);
      if 0 <? n then wc_loop fuel fd name (count k bs)
      else if n <? 0 then printf 1 (ln "wc: read error") [] ;; Exit
      else printf 1 (ln "%d %d %d %s") [AInt (l k); AInt (w k); AInt (c k); AStr (Some name)]
  end.
Definition wc (fuel : nat) (fd : Z) (name : list Z) : prog unit := wc_loop fuel fd name (mk_counts 0 0 0 false).

Definition main (fuel : nat) (argv : list (list Z)) : prog unit :=
  match argv with
  | [] | [_] => wc fuel 0 [] ;; Exit
  | _ :: files =>
      each files (fun f =>
        do fd <- sys (cOpen f 0);
        if fd <? 0 then printf 1 (ln "wc: cannot open %s") [AStr (Some f)] ;; Exit
        else wc fuel fd f ;; sys (cClose fd) ;; Done true)
  end.
End Wc.

(** ** echo *)
Module Echo.
Fixpoint main_loop (l : list (list Z)) : prog unit :=
  match l with
  | [] => Exit
  | x :: l => printf 1 (B "%s%s") [AStr (Some x); AStr (Some (match l with [] => [10] | _ => B " " end))] ;; main_loop l
  end.
Definition main (argv : list (list Z)) : prog unit := main_loop (tail argv).
End Echo.

(** ** kill, ln, mkdir, rm, zombie *)
Module Kill.
Definition main (argv : list (list Z)) : prog unit :=
  match argv with
  | [] | [_] => printf 2 (ln "usage: kill pid...") [] ;; Exit
  | _ :: l =>
      each l (fun x =>
        match Ulib.atoi (x ++ [0]) with
        | Some n => sys (cKill n) ;; Done true
        | None => Stuck
        end)
  end.
End Kill.

Module Ln.
Definition main (argv : list (list Z)) : prog unit :=
  match argv with
  | [_; old; new] =>
      do r <- sys (cLink old new);
      (if r <? 0 then printf 2 (ln "link %s %s: failed") [AStr (Some old); AStr (Some new)] else Done tt) ;;
      Exit
  | _ => printf 2 (ln "Usage: ln old new") [] ;; Exit
  end.
End Ln.

Module Mkdir.
Definition main (argv : list (list Z)) : prog unit :=
  match argv with
  | [] | [_] => printf 2 (ln "Usage: mkdir files...") [] ;; Exit
  | _ :: l =>
      each l (fun x =>
        do r <- sys (cMkdir x);
        if r <? 0 then printf 2 (ln "mkdir: %s failed to create") [AStr (Some x)] ;; Done false
        else Done true)
  end.
End Mkdir.

Module Rm.
Definition main (argv : list (list Z)) : prog unit :=
  match argv with
  | [] | [_] => printf 2 (ln "Usage: rm files...") [] ;; Exit
  | _ :: l =>
      each l (fun x =>
        do r <- sys (cUnlink x);
        if r <? 0 then printf 2 (ln "rm: %s failed to delete") [AStr (Some x)] ;; Done false
        else Done true)
  end.
End Rm.

Module Zombie.
Definition main : prog unit :=
  do r <- sys cFork;
  (if 0 <? r then sys (cSleep 5) ;; Done tt else Done tt) ;; Exit.
End Zombie.

(** ** init *)
Module Init.
(** [while((wpid=wait()) >= 0 && wpid != pid)] *)
Fixpoint reap (fuel : nat) (pid : Z) : prog unit :=
  match fuel with
  | O => Stuck
  | S fuel =>
      do wpid <- sys cWait;
      if (0 <=? wpid) && negb (wpid =? pid) then printf 1 (ln "zombie!") [] ;; reap fuel pid
      else Done tt
  end.
Fixpoint forever (fuel : nat) : prog unit :=
  match fuel with
  | O => Stuck
  | S fuel =>
      printf 1 (ln "init: starting sh") [] ;;
      do pid <- sys cFork;
      if pid <? 0 then printf 1 (ln "init: fork failed") [] ;; Exit
      else if pid =? 0 then
        sys (cExec (B "sh") [B "sh"]) ;;
        printf 1 (ln "init: exec sh failed") [] ;; Exit
      else reap fuel pid ;; forever fuel
  end.
(** Descriptors 0, 1 and 2. *)
Definition console : prog unit :=
  do r <- sys (cOpen (B "console") 2);
  (if r <? 0 then sys (cMknod (B "console") 1 1) ;; sys (cOpen (B "console") 2) ;; Done tt else Done tt) ;;
  sys (cDup 0) ;;
  sys (cDup 0) ;;
  Done tt.
Definition main (fuel : nat) : prog unit := console ;; forever fuel.
End Init.

(** ** stat of ulib.c, and ls *)
Definition stat (n : list Z) : prog (Z * ustat) :=
  do fd <- sys (cOpen n 0);
  if fd <? 0 then Done (-1, mk_ustat 0 0 0 0 0)
  else
    do (r, st) <- sys (cFstat fd);
    sys (cClose fd) ;;
    Done (r, st).

Module Ls.
Definition DIRSIZ : nat := 14.
Definition T_DIR : Z := 1.
Definition T_FILE : Z := 2.

(** The part of the path behind the last slash; [acc] is what was seen of it. *)
Fixpoint basename (path acc : list Z) : list Z :=
  match path with
  | [] => acc
  | c :: path => if c =? 47 then basename path [] else basename path (acc ++ [c])
  end.
Definition fmtname (path : list Z) : list Z :=
  let p := basename path [] in
  if (DIRSIZ <=? length p)%nat then p else p ++ replicate (DIRSIZ - length p) 32.

(** A string of at most [DIRSIZ] bytes. *)
Fixpoint cstring (l : list Z) : list Z :=
  match l with [] => [] | c :: l => if c =? 0 then [] else c :: cstring l end.

Definition show (path : list Z) (st : ustat) : prog unit :=
  printf 1 (ln "%s %d %d %d") [AStr (Some (fmtname path)); AInt (u_type st); AInt (u_ino st); AInt (u_size st)].

Fixpoint entries (fuel : nat) (fd : Z) (path : list Z) : prog unit :=
  match fuel with
  | O => Stuck
  | S fuel =>
      do (n, de) <- sys (cRead fd 16);
      if n =? 16 then
        if rd16 de 0 =? 0 then entries fuel fd path
        else
          let buf := path ++ B "/" ++ cstring (sub_bytes de 2 DIRSIZ) in
          do (r, st) <- stat buf;
          (if r <? 0 then printf 1 (ln "ls: cannot stat %s") [AStr (Some buf)] else show buf st) ;;
          entries fuel fd path
      else Done tt
  end.

Definition ls (fuel : nat) (path : list Z) : prog unit :=
  do fd <- sys (cOpen path 0);
  if fd <? 0 then printf 2 (ln "ls: cannot open %s") [AStr (Some path)]
  else
    do (r, st) <- sys (cFstat fd);
    if r <? 0 then printf 2 (ln "ls: cannot stat %s") [AStr (Some path)] ;; sys (cClose fd) ;; Done tt
    else
      (if u_type st =? T_FILE then show path st
       else if u_type st =? T_DIR then
         if (512 <? length path + 1 + DIRSIZ + 1)%nat then printf 1 (ln "ls: path too long") []
         else entries fuel fd path
       else Done tt) ;;
      sys (cClose fd) ;;
      Done tt.

Definition main (fuel : nat) (argv : list (list Z)) : prog unit :=
  match argv with
  | [] | [_] => ls fuel (B ".") ;; Exit
  | _ :: l => each l (fun x => ls fuel x ;; Done true)
  end.
End Ls.

(** ** What cat and wc do *)

(** The bytes written to a descriptor. *)
Definition output (fd : Z) (w : list (Z * list Z)) : list Z :=
  concat (snd <$> filter (fun p => fst p = fd) w).

Lemma output_app fd w w' : output fd (w ++ w') = output fd w ++ output fd w'.
Proof. unfold output. by rewrite filter_app, fmap_app, concat_app. Qed.

(** Reading a whole input with reads of 512 bytes: [total] reads are enough. *)
Definition total (ps : list (list Z)) : nat := length (concat ps).

Lemma cat_run fuel fd ps w : Forall (fun l => l <> []) ps -> (total ps < fuel)%nat ->
  exists w', run h_stream (Cat.cat fuel fd) (mk_stream ps w) = RDone tt (mk_stream [] (w ++ w')) /\
    Forall (fun p => fst p = 1) w' /\ concat (snd <$> w') = concat ps.
Proof.
  revert ps w. induction fuel as [|fuel IH]; intros ps w HF Hf; [lia|]. cbn [Cat.cat pbind sys run].
  destruct HF as [|p ps Hp HF]; cbn [h_stream pieces].
  - exists []. rewrite app_nil_r. split_and!; [done|constructor|done].
  - unfold total in *. cbn [concat] in *. rewrite length_app in Hf. assert (0 < length p)%nat by (destruct p; [done|cbn; lia]).
    set (a := take (Z.to_nat 512) p). set (b := drop (Z.to_nat 512) p).
    assert (0 < length a)%nat by (unfold a; rewrite length_take; lia).
    cbn [pbind]. rewrite (proj2 (Z.ltb_lt 0 _)) by lia. cbn [pbind run h_stream written pieces].
    destruct (IH (match b with [] => ps | _ => b :: ps end) (w ++ [(1, a)])) as (w' & R & H1 & H2).
    + destruct b eqn:Eb; [done|]. by constructor.
    + assert (length a + length b = length p)%nat by (rewrite <- length_app; unfold a, b; by rewrite take_drop).
      destruct b eqn:Eb; [lia|]. cbn [concat]. rewrite length_app. lia.
    + exists ((1, a) :: w'). rewrite R. rewrite <- app_assoc. split_and!; [done|by constructor|].
      cbn [fmap list_fmap snd concat]. rewrite H2. rewrite <- (take_drop (Z.to_nat 512) p). fold a b. rewrite <- app_assoc. f_equal.
      by destruct b.
Qed.

(** [cat] copies its input to standard output, whatever the pieces it
    arrives in: all bytes, in order, and nothing else. *)
Theorem cat_copies fuel fd ps :
  Forall (fun l => l <> []) ps -> (total ps < fuel)%nat ->
  exists w, run h_stream (Cat.cat fuel fd) (mk_stream ps []) = RDone tt (mk_stream [] w) /\
    Forall (fun p => fst p = 1) w /\ output 1 w = concat ps.
Proof.
  intros HF Hf. destruct (cat_run fuel fd ps [] HF Hf) as (w & R & H1 & H2). exists w. split_and!; [exact R|done|].
  unfold output. rewrite <- H2. do 2 f_equal. clear -H1. induction H1 as [|p w Hp _ IH]; [done|]. rewrite filter_cons_True by done. by rewrite IH.
Qed.

Lemma cat_copies_witness : exists w, run h_stream (Cat.cat 10 0) (mk_stream [[1; 2]; [3]] []) = RDone tt (mk_stream [] w) /\
  output 1 w = [1; 2; 3].
Proof.
  destruct (cat_copies 10 0 [[1; 2]; [3]]) as (w & R & _ & H); [repeat constructor; done|cbn; lia|].
  exists w. split; [exact R|exact H].
Defined.

(** The numbers of a text. *)
Definition nlines (t : list Z) : nat := length (filter (fun b => b = 10) t).
(** Words: bytes that are no white space, at the beginning or behind white space. *)
Fixpoint nwords (inword : bool) (t : list Z) : nat :=
  match t with
  | [] => 0
  | b :: t => if Wc.space b then nwords false t else (if inword then 0 else 1) + nwords true t
  end.
Fixpoint ends_inword (inword : bool) (t : list Z) : bool :=
  match t with [] => inword | b :: t => ends_inword (negb (Wc.space b)) t end.

Lemma nlines_cons b t : nlines (b :: t) = ((if (b =? 10)%Z then 1 else 0) + nlines t)%nat.
Proof. unfold nlines. rewrite filter_cons. destruct (Z.eqb_spec b 10); [by rewrite decide_True|by rewrite decide_False]. Qed.

Lemma nwords_le inword t : (nwords inword t <= length t)%nat.
Proof. revert inword. induction t as [|b t IH]; intros i; cbn; [lia|]. destruct (Wc.space b); [specialize (IH false)|specialize (IH true)]; destruct i; lia. Qed.
Lemma nlines_le t : (nlines t <= length t)%nat.
Proof. apply length_filter. Qed.

Lemma count_law k t : 0 <= Wc.l k -> 0 <= Wc.w k -> 0 <= Wc.c k ->
  Wc.l k + Z.of_nat (length t) < 2 ^ 31 -> Wc.w k + Z.of_nat (length t) < 2 ^ 31 -> Wc.c k + Z.of_nat (length t) < 2 ^ 31 ->
  Wc.count k t = Wc.mk_counts (Wc.l k + Z.of_nat (nlines t)) (Wc.w k + Z.of_nat (nwords (Wc.inword k) t))
    (Wc.c k + Z.of_nat (length t)) (ends_inword (Wc.inword k) t).
Proof.
  unfold Wc.count. revert k. induction t as [|b t IH]; intros k Hl Hw Hc Bl Bw Bc; cbn [foldl].
  - cbn. rewrite !Z.add_0_r. by destruct k.
  - cbn [length] in *. rewrite nlines_cons. cbn [nwords ends_inword]. unfold Wc.count1 at 2. cbn [Wc.c Wc.l Wc.w Wc.inword].
    rewrite (i32_small (Wc.c k + 1)), (i32_small (Wc.l k + 1)) by lia.
    destruct (b =? 10), (Wc.space b), (Wc.inword k) eqn:Ei; cbn [negb Wc.l Wc.w Wc.c Wc.inword]; rewrite ?(i32_small (Wc.w k + 1)) by lia;
      rewrite IH; cbn [Wc.l Wc.w Wc.c Wc.inword]; try lia; f_equal; lia.
Qed.

Lemma wc_run fuel fd name ps w k : Forall (fun l => l <> []) ps -> (total ps < fuel)%nat ->
  run h_stream (Wc.wc_loop fuel fd name k) (mk_stream ps w) =
    run h_stream (let k := Wc.count k (concat ps) in
      printf 1 (ln "%d %d %d %s") [AInt (Wc.l k); AInt (Wc.w k); AInt (Wc.c k); AStr (Some name)]) (mk_stream [] w).
Proof.
  revert ps k. induction fuel as [|fuel IH]; intros ps k HF Hf; [lia|]. cbn [Wc.wc_loop pbind sys run].
  destruct HF as [|p ps Hp HF]; cbn [h_stream pieces]; [done|].
  unfold total in *. cbn [concat] in *. rewrite length_app in Hf. assert (0 < length p)%nat by (destruct p; [done|cbn; lia]).
  set (a := take (Z.to_nat 512) p). set (b := drop (Z.to_nat 512) p).
  assert (0 < length a)%nat by (unfold a; rewrite length_take; lia).
  assert (p = a ++ b) as Eab by (unfold a, b; by rewrite take_drop). cbn [pbind written]. rewrite (proj2 (Z.ltb_lt 0 _)) by lia.
  rewrite IH.
  - assert (concat (match b with [] => ps | _ => b :: ps end) = b ++ concat ps) as -> by (by destruct b).
    rewrite Eab. unfold Wc.count. by rewrite <- app_assoc, !foldl_app.
  - destruct b eqn:Eb; [done|]. by constructor.
  - apply (f_equal length) in Eab. rewrite length_app in Eab. clearbody a b. destruct b; [lia|]. cbn [concat]. rewrite length_app. lia.
Qed.

(** [wc] prints the numbers of lines, words and bytes of its input, also of
    words and lines that arrive in several reads, for inputs shorter than
    2^31 bytes. *)
Theorem wc_counts fuel fd name ps :
  Forall (fun l => l <> []) ps -> (total ps < fuel)%nat -> Z.of_nat (total ps) < 2 ^ 31 ->
  let t := concat ps in
  run h_stream (Wc.wc fuel fd name) (mk_stream ps []) =
    run h_stream (printf 1 (ln "%d %d %d %s")
      [AInt (Z.of_nat (nlines t)); AInt (Z.of_nat (nwords false t)); AInt (Z.of_nat (length t)); AStr (Some name)]) (mk_stream [] []).
Proof.
  intros HF Hf Hlen t. unfold Wc.wc. rewrite wc_run by done. cbv zeta. fold t. unfold total in Hlen. fold t in Hlen.
  rewrite count_law by (cbn; lia). done.
Qed.

Lemma wc_counts_witness :
  run h_stream (Wc.wc 20 0 [120]) (mk_stream [B "ab c"; ln "d e"] []) =
    run h_stream (printf 1 (ln "1 3 8 x") []) (mk_stream [] []).
Proof.
  rewrite (wc_counts 20 0 [120] [B "ab c"; ln "d e"]); [vm_compute; reflexivity|repeat constructor; done|vm_compute; lia|vm_compute; reflexivity].
Defined.
