(* ===== verification/Tests.v ===== *)
(** * Tests: the programs that exercise fork and files (forktest.c, stressfs.c,
      lotterytest.c)

    Each [main] is a tree of system calls.  The theorem runs [forktest]
    against the process table as its parent sees it: a number of free entries
    and the children that have not been waited for. *)
From stdpp Require Import base numbers list gmap strings.
From Stdlib Require Import ZArith Lia.
From S2P Require Import Prelude Bytes StringC User Printf Progs.

Local Open Scope Z_scope.

(** ** forktest *)
Module Forktest.
Definition N : nat := 1000.

(** Its own [printf], which writes the format. *)
Definition printf (fd : Z) (s : list Z) : prog unit := sys (cWrite fd s) ;; Done tt.

(** The first loop: the number of children; [i] rounds are left. *)
Fixpoint fork_loop (i n : nat) : prog nat :=
  match i with
  | O => Done n
  | S i =>
      do pid <- sys cFork;
      if pid <? 0 then Done n
      else if pid =? 0 then Exit
      else fork_loop i (S n)
  end.
Fixpoint wait_loop (n : nat) : prog unit :=
  match n with
  | O => Done tt
  | S n =>
      do r <- sys cWait;
      if r <? 0 then printf 1 (ln "wait stopped early") ;; Exit else wait_loop n
  end.
Definition forktest : prog unit :=
  printf 1 (ln "fork test") ;;
  do n <- fork_loop N 0;
  if decide (n = N) then printf 1 (ln "fork claimed to work N times!") ;; Exit
  else
    wait_loop n ;;
    do r <- sys cWait;
    if negb (r =? -1) then printf 1 (ln "wait got too many") ;; Exit
    else printf 1 (ln "fork test OK").
Definition main : prog unit := forktest ;; Exit.
End Forktest.

(** ** stressfs *)
Module Stressfs.
(** Forks until it is the parent; the number of the process. *)
Fixpoint fork_loop (k : nat) (i : Z) : prog Z :=
  match k with
  | O => Done i
  | S k => do pid <- sys cFork; if 0 <? pid then Done i else fork_loop k (i + 1)
  end.
Fixpoint repeat_call {X} (n : nat) (c : call X) : prog unit :=
  match n with
  | O => Done tt
  | S n => sys c ;; repeat_call n c
  end.
Definition main : prog unit :=
  printf 1 (ln "stressfs starting") [] ;;
  let data := replicate 512 97 in
  do i <- fork_loop 4 0;
  printf 1 (ln "write %d") [AInt i] ;;
  let path := B "stressfs" ++ [48 + i] in
  do fd <- sys (cOpen path (Z.lor 0x200 0x002));
  repeat_call 20 (cWrite fd data) ;;
  sys (cClose fd) ;;
  printf 1 (ln "read") [] ;;
  do fd <- sys (cOpen path 0);
  repeat_call 20 (cRead fd 512) ;;
  sys (cClose fd) ;;
  sys cWait ;;
  Exit.
End Stressfs.

(** ** lotterytest *)
Module Lotterytest.
(** The hours, minutes and seconds that [gettime] stores; the loops of [spin]
    only take time. *)
Record time := mk_time { hours : Z; minutes : Z; seconds : Z }.
Definition spin (tix : Z) (fin : time) : prog unit :=
  printf 0 (ln "spin with %d tickets ended at %d hours %d minutes %d seconds") [AInt tix; AInt (hours fin); AInt (minutes fin); AInt (seconds fin)].
Definition main (start fin : time) : prog unit :=
  printf 0 (ln "starting test at %d hours %d minutes %d seconds") [AInt (hours start); AInt (minutes start); AInt (seconds start)] ;;
  let child tix := sys (cSettickets tix) ;; spin tix fin ;; Exit in
  do pid1 <- sys cFork;
  if pid1 =? 0 then child 75
  else
    do pid2 <- sys cFork;
    if pid2 =? 0 then child 20
    else
      do pid3 <- sys cFork;
      if pid3 =? 0 then child 5
      else sys cWait ;; sys cWait ;; Exit.
End Lotterytest.

(** ** The process table as the parent sees it *)

(** Free entries, children to wait for, the next pid, and what was written. *)
Record table := mk_table { free : nat; children : nat; pid : Z; output : list (Z * list Z) }.

(** [fork] gives a pid while there is a free entry, [wait] collects a child. *)
Definition h_table (X : Type) (c : call X) (s : table) : X * table :=
  match c in call X return X * table with
  | cFork =>
      match free s with
      | O => (-1, s)
      | S n => (pid s, mk_table n (S (children s)) (pid s + 1) (output s))
      end
  | cWait =>
      match children s with
      | O => (-1, s)
      | S n => (pid s, mk_table (S (free s)) n (pid s) (output s))
      end
  | cWrite fd l => (Z.of_nat (length l), mk_table (free s) (children s) (pid s) (output s ++ [(fd, l)]))
  | c => (h_fail c, s)
  end.
Abbreviation trun := (run h_table).

Lemma fork_loop_run i n s : 0 < pid s ->
  trun (Forktest.fork_loop i n) s = RDone (n + (i `min` free s))%nat
    (mk_table (free s - i) (children s + (i `min` free s)) (pid s + Z.of_nat (i `min` free s)) (output s)).
Proof.
  revert n s. induction i as [|i IH]; intros n s Hp.
  - cbn. destruct s. cbn. f_equal; [lia|]. f_equal; lia.
  - destruct s as [fr ch pd out]. cbn [pid] in Hp. cbn [Forktest.fork_loop]. unfold sys. cbn [pbind run h_table free]. destruct fr as [|fr].
    + cbn. f_equal; [lia|]. f_equal; lia.
    + cbn [children pid output]. rewrite (proj2 (Z.ltb_ge _ _)), (proj2 (Z.eqb_neq _ _)) by lia. rewrite IH by (cbn; lia). cbn [free children pid output].
      f_equal; [lia|]. f_equal; lia.
Qed.
Lemma wait_loop_run n s : 0 < pid s -> (n <= children s)%nat ->
  trun (Forktest.wait_loop n) s = RDone tt (mk_table (free s + n) (children s - n) (pid s) (output s)).
Proof.
  revert s. induction n as [|n IH]; intros s Hp Hn.
  - cbn. destruct s. cbn. do 2 f_equal; lia.
  - destruct s as [fr ch pd out]. cbn [pid children] in *. destruct ch as [|ch]; [lia|]. cbn [Forktest.wait_loop]. unfold sys. cbn [pbind run h_table children].
    cbn [free pid output]. rewrite (proj2 (Z.ltb_ge _ _)) by lia. rewrite IH by (cbn; lia). cbn [free children pid output]. do 2 f_equal; lia.
Qed.

(** With fewer than [N] free entries [forktest] fills the table, collects
    every child, and reports success; with [N] or more it reports that, and
    leaves its children behind. *)
Theorem forktest_outcome fr p out : 0 < p ->
  trun Forktest.main (mk_table fr 0 p out) =
    if decide (fr < Forktest.N)%nat then RExit (mk_table fr 0 (p + Z.of_nat fr) (out ++ [(1, ln "fork test"); (1, ln "fork test OK")]))
    else RExit (mk_table (fr - Forktest.N) Forktest.N (p + Z.of_nat Forktest.N) (out ++ [(1, ln "fork test"); (1, ln "fork claimed to work N times!")])).
Proof.
  intros Hp. unfold Forktest.main, Forktest.forktest, Forktest.printf. rewrite !run_bind. unfold sys. cbn [run pbind h_table free children pid output].
  rewrite run_bind, fork_loop_run by done. cbn [free children pid output]. rewrite Nat.add_0_l. destruct (decide (fr < Forktest.N)%nat) as [E|E].
  - rewrite Nat.min_r by lia. rewrite decide_False by lia. rewrite run_bind, wait_loop_run by (cbn; lia). cbn [free children pid output].
    rewrite Nat.sub_diag. cbn [run pbind h_table free children pid output]. rewrite Z.eqb_refl. cbn [negb run pbind h_table free children pid output].
    rewrite <- app_assoc. do 2 f_equal. lia.
  - rewrite Nat.min_l by lia. rewrite decide_True by done. cbn [run pbind h_table free children pid output]. rewrite <- app_assoc. done.
Qed.

(** [lotterytest] starts three processes and waits for two: one is left to [init]. *)
Theorem lotterytest_leaves_one : match trun (Lotterytest.main (Lotterytest.mk_time 12 30 5) (Lotterytest.mk_time 12 31 0)) (mk_table 60 0 4 []) with
  | RExit s => children s = 1%nat /\ free s = 59%nat
  | _ => False
  end.
Proof. vm_compute. done. Qed.
