(* ===== verification/Hackbench.v ===== *)
(** * Hackbench: groups of senders and receivers (hackbench.c)

    [group] forks receivers and senders that share pipes; every sender writes
    [loops] messages to every receiver.  The theorems show that reads and
    writes that take only a part of a message are continued until the message
    is whole, and that the receivers of a group take exactly what its senders
    send: none waits for a message that never comes, and no byte stays in a
    pipe.  With [DEBUG] false the messages of [checkEvents] are dead code. *)
From stdpp Require Import base numbers list gmap strings.
From Stdlib Require Import ZArith Lia.
From S2P Require Import Prelude User Printf Progs.

Local Open Scope Z_scope.

Definition DATASIZE : nat := 100.
Definition NUM_FDS : nat := 8.
Definition NUM_GROUPS : nat := 2.
Definition loops : nat := 100.
Definition POLLIN : Z := 1.
Definition FREE : Z := 0.

Inductive caller := SENDER | RECEIVER.

Definition barf {A} (msg : list Z) : prog A := printf 1 (ln "(Error: %s)") [AStr (Some msg)] ;; Exit.

(** A failing [pipe] is not noticed: what [fds] holds then is in the answer of
    the call. *)
Definition fdpair : prog (Z * Z) := do (_, fds) <- sys cPipe; Done fds.

(** [while(pollfd[id].events == POLLIN);] waits for a change that nobody makes. *)
Definition spin (events : Z) : prog unit := if events =? POLLIN then Stuck else Done tt.

(** [events] is [pollfd[id].events], 0 when the process starts; the result is
    its new value. *)
Definition ready (ready_out : Z) (events : Z) (c : caller) : prog Z :=
  let events := match c with RECEIVER => POLLIN | SENDER => events end in
  do r <- sys (cWrite ready_out [97]);
  if negb (r =? 1) then barf (B "CLIENT: ready write")
  else
    match c with
    | SENDER => spin events ;; Done events
    | RECEIVER => Done FREE
    end.

(** 99 times 'b' and a terminator. *)
Definition data : list Z := replicate (DATASIZE - 1) 98 ++ [0].

(** [again]: one message.  [fuel] bounds the number of writes; a write of a
    non-empty rest takes at least one byte. *)
Fixpoint send (fuel : nat) (fd : Z) (rest : list Z) : prog unit :=
  match fuel with
  | O => Stuck
  | S fuel =>
      do ret <- sys (cWrite fd rest);
      if ret <? 0 then barf (B "SENDER: write")
      else
        let rest := drop (Z.to_nat ret) rest in
        match rest with
        | [] => Done tt
        | _ => send fuel fd rest
        end
  end.

Fixpoint send_each (out_fd : list Z) : prog unit :=
  match out_fd with
  | [] => Done tt
  | fd :: out_fd => send (S DATASIZE) fd data ;; send_each out_fd
  end.

Fixpoint times (n : nat) (m : prog unit) : prog unit :=
  match n with
  | O => Done tt
  | S n => m ;; times n m
  end.

Definition sender (out_fd : list Z) (ready_out : Z) : prog unit :=
  ready ready_out FREE SENDER ;;
  times loops (send_each out_fd).

(** [again]: [n] bytes of the packet are missing. *)
Fixpoint receive (fuel : nat) (fd n : Z) : prog unit :=
  match fuel with
  | O => Stuck
  | S fuel =>
      do (ret, _) <- sys (cRead fd n);
      if ret <? 0 then barf (B "SERVER: read")
      else if ret <? n then receive fuel fd (n - ret)
      else Done tt
  end.

Definition receiver (num_packets : nat) (in_fd ready_out : Z) : prog unit :=
  ready ready_out FREE RECEIVER ;;
  times num_packets (receive (S DATASIZE) in_fd (Z.of_nat DATASIZE)).

(** The loop that forks the receivers; the result is [out_fds]. *)
Fixpoint fork_receivers (n : nat) (num_fds : nat) (ready_out : Z) : prog (list Z) :=
  match n with
  | O => Done []
  | S n =>
      do (fd0, fd1) <- fdpair;
      do pid <- sys cFork;
      if pid =? -1 then barf (B "fork()")
      else if pid =? 0 then
        sys (cClose fd1) ;;
        receiver (num_fds * loops) fd0 ready_out ;;
        Exit
      else
        sys (cClose fd0) ;;
        do fds <- fork_receivers n num_fds ready_out;
        Done (fd1 :: fds)
  end.

Fixpoint fork_senders (n : nat) (out_fds : list Z) (ready_out : Z) : prog unit :=
  match n with
  | O => Done tt
  | S n =>
      do pid <- sys cFork;
      if pid =? -1 then barf (B "fork()")
      else if pid =? 0 then sender out_fds ready_out ;; Exit
      else fork_senders n out_fds ready_out
  end.

Fixpoint close_all (fds : list Z) : prog unit :=
  match fds with
  | [] => Done tt
  | fd :: fds => sys (cClose fd) ;; close_all fds
  end.

Definition group (num_fds : nat) (ready_out : Z) : prog nat :=
  do out_fds <- fork_receivers num_fds num_fds ready_out;
  fork_senders num_fds out_fds ready_out ;;
  close_all out_fds ;;
  Done (num_fds * 2)%nat.

Fixpoint groups (n : nat) (ready_out : Z) (total : nat) : prog nat :=
  match n with
  | O => Done total
  | S n =>
      do k <- group NUM_FDS ready_out;
      groups n ready_out (total + k)
  end.

(** One byte from each child; the result is [dummy], the last of them. *)
Fixpoint await (n : nat) (fd dummy : Z) : prog Z :=
  match n with
  | O => Done dummy
  | S n =>
      do (r, l) <- sys (cRead fd 1);
      if negb (r =? 1) then barf (B "Reading for readyfds") else await n fd (default dummy (head l))
  end.

(** [dummy] is not initialised; [start] and [stop] are what [rdtsc] returned. *)
Definition main (dummy start stop : Z) : prog unit :=
  do (ready0, ready1) <- fdpair;
  do (_, wake1) <- fdpair;
  do total <- groups NUM_GROUPS ready1 0;
  do dummy <- await total ready0 dummy;
  do r <- sys (cWrite wake1 [dummy]);
  (if negb (r =? 1) then barf (B "Writing to start them") else Done tt) ;;
  times total (sys cWait ;; Done tt) ;;
  printf 1 (ln "Time: 0x%l [ticks]") [AInt ((stop - start) mod 2 ^ 64)] ;;
  Exit.

(** ** Senders *)

(** A kernel that takes a part of each write: at least one byte, and the first
    of [cuts] says how many more.  [log] has what it took. *)
Record sends := mk_sends { cuts : list nat; log : list (Z * list Z) }.
Definition h_short (X : Type) (c : call X) (s : sends) : X * sends :=
  match c in call X return X * sends with
  | cWrite fd l =>
      let m := match cuts s with [] => length l | k :: _ => Nat.min (S k) (length l) end in
      (Z.of_nat m, mk_sends (tail (cuts s)) (log s ++ [(fd, take m l)]))
  | c => (h_fail c, s)
  end.

Definition sent (fd : Z) (log : list (Z * list Z)) : list Z := log ≫= (fun '(fd', l) => if decide (fd' = fd) then l else []).

Lemma sent_app fd l1 l2 : sent fd (l1 ++ l2) = sent fd l1 ++ sent fd l2.
Proof. apply bind_app. Qed.
Lemma sent_one fd fd' l : sent fd [(fd', l)] = if decide (fd' = fd) then l else [].
Proof. unfold sent. cbn. apply app_nil_r. Qed.

(** The program returns after sending [f fd] to each [fd]. *)
Definition sends_to (m : prog unit) (f : Z -> list Z) : Prop :=
  forall s, exists s', run h_short m s = RDone tt s' /\ forall fd, sent fd (log s') = sent fd (log s) ++ f fd.

Lemma sends_bind m1 m2 f1 f2 : sends_to m1 f1 -> sends_to m2 f2 -> sends_to (m1 ;; m2) (fun fd => f1 fd ++ f2 fd).
Proof.
  intros H1 H2 s. destruct (H1 s) as (s1 & R1 & E1). destruct (H2 s1) as (s2 & R2 & E2).
  exists s2. rewrite run_bind, R1. split; [done|]. intros fd. by rewrite E2, E1, app_assoc.
Qed.

Lemma sends_ext m f g : (forall fd, f fd = g fd) -> sends_to m f -> sends_to m g.
Proof. intros E H s. destruct (H s) as (s' & R & Hs). exists s'. split; [done|]. intros fd. by rewrite Hs, E. Qed.

Lemma send_sends fuel fd rest : rest <> [] -> (length rest <= fuel)%nat -> sends_to (send fuel fd rest) (fun fd' => if decide (fd = fd') then rest else []).
Proof.
  revert rest. induction fuel as [|fuel IH]; intros rest Hne Hf s; [by destruct rest; cbn in Hf; [|lia]|]. cbn [send pbind sys run h_short].
  set (m := match cuts s with [] => _ | _ => _ end). assert (1 <= m <= length rest)%nat as Hm.
  { unfold m. destruct rest; [done|]. cbn [length]. destruct (cuts s); lia. }
  rewrite (proj2 (Z.ltb_ge _ _)), Nat2Z.id by lia. set (s1 := mk_sends _ _).
  assert (forall fd', sent fd' (log s1) = sent fd' (log s) ++ if decide (fd = fd') then take m rest else []) as E1
    by (intros fd'; unfold s1; cbn [log]; by rewrite sent_app, sent_one).
  destruct (drop m rest) as [|x r] eqn:Ed.
  - exists s1. split; [done|]. intros fd'. rewrite E1.
    assert (take m rest = rest) as -> by (rewrite <- (take_drop m rest) at 2; by rewrite Ed, app_nil_r). done.
  - destruct (IH (x :: r)) with (s := s1) as (s2 & R & E2); [done|rewrite <- Ed, length_drop; lia|].
    exists s2. split; [exact R|]. intros fd'. rewrite E2, E1, <- app_assoc, <- Ed. case_decide; [by rewrite take_drop|done].
Qed.

Lemma data_length : length data = DATASIZE.
Proof. done. Qed.

Lemma send_each_sends out_fd : NoDup out_fd -> sends_to (send_each out_fd) (fun fd => if decide (fd ∈ out_fd) then data else []).
Proof.
  induction 1 as [|fd out_fd Hn _ IH]; cbn [send_each].
  - intros s. exists s. split; [done|]. intros fd. rewrite decide_False by apply not_elem_of_nil. by rewrite app_nil_r.
  - eapply sends_ext; [|apply sends_bind; [apply send_sends; [done|rewrite data_length; lia]|exact IH]]. intros fd'. cbn beta.
    destruct (decide (fd = fd')) as [->|Hne].
    + rewrite (decide_False (P := fd' ∈ out_fd)), (decide_True (P := fd' ∈ fd' :: out_fd)) by (done || by left). apply app_nil_r.
    + cbn [app]. apply decide_ext. rewrite elem_of_cons. naive_solver.
Qed.

Lemma times_sends n m f : sends_to m f -> sends_to (times n m) (fun fd => mjoin (replicate n (f fd))).
Proof.
  intros Hm. induction n as [|n IH]; cbn [times replicate].
  - intros s. exists s. split; [done|]. intros fd. cbn. by rewrite app_nil_r.
  - eapply sends_ext; [|by apply sends_bind]. done.
Qed.

(** Whatever part of each write the kernel takes, a sender writes [loops] whole
    messages to each of its descriptors. *)
Theorem sender_sends out_fd ready_out s : NoDup out_fd -> ready_out ∉ out_fd ->
  exists s', run h_short (sender out_fd ready_out) s = RDone tt s' /\
    forall fd, fd ∈ out_fd -> sent fd (log s') = sent fd (log s) ++ mjoin (replicate loops data).
Proof.
  intros Hnd Hro. unfold sender, ready. cbn [pbind sys run h_short]. set (s1 := mk_sends _ _).
  assert (match cuts s with [] => length [97] | k :: _ => Nat.min (S k) (length [97]) end = 1%nat) as E by (destruct (cuts s); cbn; lia).
  rewrite E. cbn [Z.eqb Z.of_nat Pos.of_succ_nat negb Pos.eqb spin FREE POLLIN pbind].
  destruct (times_sends loops _ _ (send_each_sends out_fd Hnd) s1) as (s2 & R & E2). exists s2. split; [exact R|].
  intros fd Hfd. rewrite E2, decide_True by done. unfold s1. cbn [log]. rewrite sent_app, sent_one, decide_False; [by rewrite app_nil_r|].
  by intros ->.
Qed.

(** ** Receivers *)

Definition whole (ps : list (list Z)) : Prop := Forall (fun p => p <> []) ps.

Lemma read_piece fd n s : whole (pieces s) -> 0 < n -> pieces s <> [] ->
  exists l s', h_stream _ (cRead fd n) s = ((Z.of_nat (length l), l), s') /\ l <> [] /\ Z.of_nat (length l) <= n /\
    mjoin (pieces s) = l ++ mjoin (pieces s') /\ whole (pieces s') /\ written s' = written s.
Proof.
  intros Hw Hn Hne. unfold h_stream. destruct (pieces s) as [|p ps] eqn:Ep; [done|]. apply Forall_cons in Hw as [Hp Hps].
  exists (take (Z.to_nat n) p). eexists. split; [reflexivity|]. split_and!.
  - destruct p as [|x p]; [done|]. destruct (Z.to_nat n) eqn:E; [lia|done].
  - rewrite length_take. lia.
  - cbn [pieces]. rewrite <- (take_drop (Z.to_nat n) p) at 1. destruct (drop (Z.to_nat n) p) eqn:E; cbn; [by rewrite app_nil_r|].
    by rewrite <- app_assoc.
  - cbn [pieces]. destruct (drop (Z.to_nat n) p) eqn:E; [done|]. by constructor.
  - done.
Qed.

Lemma receive_takes fuel fd n s : whole (pieces s) -> 0 < n <= Z.of_nat (length (mjoin (pieces s))) -> (Z.to_nat n <= fuel)%nat ->
  exists s', run h_stream (receive fuel fd n) s = RDone tt s' /\ whole (pieces s') /\
    mjoin (pieces s') = drop (Z.to_nat n) (mjoin (pieces s)) /\ written s' = written s.
Proof.
  revert n s. induction fuel as [|fuel IH]; intros n s Hw Hn Hf; [lia|]. cbn [receive pbind sys run].
  destruct (read_piece fd n s Hw ltac:(lia)) as (l & s1 & R & Hl & Hle & Ej & Hw1 & E1); [intros E; rewrite E in Hn; cbn in Hn; lia|].
  rewrite R. rewrite (proj2 (Z.ltb_ge _ _)) by lia. rewrite Ej in *. rewrite length_app in Hn.
  assert (1 <= length l)%nat by (destruct l; [done|cbn; lia]).
  destruct (Z.ltb_spec (Z.of_nat (length l)) n) as [Hlt|Hge].
  - destruct (IH (n - Z.of_nat (length l)) s1) as (s2 & R2 & Hw2 & E2 & W2); [done|lia|lia|].
    exists s2. split; [exact R2|]. split; [done|]. rewrite E2, W2. split; [|done].
    rewrite drop_app_ge by lia. f_equal. lia.
  - exists s1. split; [done|]. split; [done|]. split; [|done]. rewrite drop_app_length'; [done|lia].
Qed.

Lemma times_takes k fuel fd n s : whole (pieces s) -> 0 < n -> (k * Z.to_nat n <= length (mjoin (pieces s)))%nat -> (Z.to_nat n <= fuel)%nat ->
  exists s', run h_stream (times k (receive fuel fd n)) s = RDone tt s' /\ whole (pieces s') /\
    mjoin (pieces s') = drop (k * Z.to_nat n) (mjoin (pieces s)) /\ written s' = written s.
Proof.
  revert s. induction k as [|k IH]; intros s Hw Hn Hlen Hf; cbn [times]; [by exists s|].
  destruct (receive_takes fuel fd n s) as (s1 & R1 & Hw1 & E1 & W1); [done|lia|done|].
  destruct (IH s1) as (s2 & R2 & Hw2 & E2 & W2); [done|done|rewrite E1, length_drop; lia|done|].
  exists s2. rewrite run_bind, R1. split; [done|]. split; [done|]. rewrite E2, E1, drop_drop, W2. split; [f_equal; lia|done].
Qed.

(** Whatever the pieces in which the bytes arrive, a receiver reads as many
    bytes as its packets have, and no more. *)
Theorem receiver_takes num fd ready_out s : whole (pieces s) -> (num * DATASIZE <= length (mjoin (pieces s)))%nat ->
  exists s', run h_stream (receiver num fd ready_out) s = RDone tt s' /\ whole (pieces s') /\
    mjoin (pieces s') = drop (num * DATASIZE) (mjoin (pieces s)) /\ written s' = written s ++ [(ready_out, [97])].
Proof.
  intros Hw Hlen. unfold receiver, ready. cbn [pbind sys run h_stream length Z.of_nat Pos.of_succ_nat Z.eqb Pos.eqb negb].
  destruct (times_takes num (S DATASIZE) fd (Z.of_nat DATASIZE) (mk_stream (pieces s) (written s ++ [(ready_out, [97])])))
    as (s' & R & Hw' & E & W); [done|unfold DATASIZE; lia|by rewrite Nat2Z.id|rewrite Nat2Z.id; lia|].
  rewrite Nat2Z.id in E. by exists s'.
Qed.

Lemma join_replicate {A} n (l : list A) : length (mjoin (replicate n l)) = (n * length l)%nat.
Proof. induction n as [|n IH]; [done|]. cbn [replicate]. change (length (l ++ mjoin (replicate n l)) = (S n * length l)%nat). rewrite length_app, IH. lia. Qed.

(** A group is balanced: when each of its senders has run, whatever part of
    each write was taken, and the bytes they wrote to the pipe [fd] arrive in
    any pieces, the receiver at its other end returns with the pipe empty. *)
Theorem group_balanced out_fds ready_out fd in_fd ss ss' s :
  NoDup out_fds -> ready_out ∉ out_fds -> fd ∈ out_fds ->
  Forall2 (fun s s' => log s = [] /\ run h_short (sender out_fds ready_out) s = RDone tt s') ss ss' ->
  whole (pieces s) -> length (mjoin (pieces s)) = sum_list ((fun s' => length (sent fd (log s'))) <$> ss') ->
  exists s', run h_stream (receiver (length ss * loops) in_fd ready_out) s = RDone tt s' /\ pieces s' = [].
Proof.
  intros Hnd Hro Hfd HS Hw Hlen.
  assert (length (mjoin (pieces s)) = (length ss * loops * DATASIZE)%nat) as HL.
  { rewrite Hlen. clear Hlen Hw. induction HS as [|s0 s1 ss ss' [E0 R] _ IH]; [done|]. cbn [fmap list_fmap sum_list sum_list_with length].
    destruct (sender_sends out_fds ready_out s0 Hnd Hro) as (s1' & R' & Hs). rewrite R' in R. injection R as ->.
    rewrite (Hs fd Hfd), E0. cbn [sent mbind list_bind app]. rewrite join_replicate, data_length. rewrite IH. unfold id. lia. }
  destruct (receiver_takes (length ss * loops) in_fd ready_out s Hw) as (s' & R & Hw' & E & _); [by rewrite HL|].
  exists s'. split; [done|]. rewrite drop_ge in E by (by rewrite HL). destruct (pieces s') as [|p ps]; [done|].
  apply Forall_cons in Hw' as [Hp _]. cbn in E. by apply app_nil in E as [-> _].
Qed.

(** A receiver whose senders are gone spins: at the end of the input [read]
    returns 0, which [again] takes for a short read. *)
Theorem receive_spins_at_eof fuel fd n w : 0 < n -> run h_stream (receive fuel fd n) (mk_stream [] w) = RStuck.
Proof.
  intros Hn. induction fuel as [|fuel IH]; [done|]. cbn [receive pbind sys run h_stream pieces].
  rewrite (proj2 (Z.ltb_lt 0 n)) by done. rewrite Z.sub_0_r. exact IH.
Qed.
