(* ===== verification/ShRun.v ===== *)
(** * ShRun: running commands (sh.c)

    [runcmd], [fork1], [panic], [getcmd] and [main] of the shell as trees of
    system calls, and the programs a command runs: which program is executed
    with which arguments and which descriptors, over all the processes the
    command forks. *)
From stdpp Require Import base numbers list gmap strings.
From Stdlib Require Import ZArith Lia.
From S2P Require Import Prelude Bytes StringC User Printf Progs Sh.

Local Open Scope Z_scope.

Definition panic (s : list Z) : prog unit := printf 2 (ln "%s") [AStr (Some s)] ;; Exit.

Definition fork1 : prog Z :=
  do pid <- sys cFork;
  (if pid =? -1 then panic (B "fork") else Done tt) ;;
  Done pid.

Section runcmd.
(** The C strings of the words. *)
Context (str : word -> list Z).

Fixpoint runcmd (c : cmd) : prog unit :=
  match c with
  | EXEC ws =>
      match ws with
      | [] => Exit
      | w :: _ =>
          sys (cExec (str w) (str <$> ws)) ;;
          printf 2 (ln "exec %s failed") [AStr (Some (str w))] ;;
          Exit
      end
  | REDIR c f mode fd =>
      sys (cClose fd) ;;
      do r <- sys (cOpen (str f) mode);
      (if r <? 0 then printf 2 (ln "open %s failed") [AStr (Some (str f))] ;; Exit else Done tt) ;;
      runcmd c ;;
      Exit
  | LIST l r =>
      do pid <- fork1;
      (if pid =? 0 then runcmd l else Done tt) ;;
      sys cWait ;;
      runcmd r ;;
      Exit
  | PIPE l r =>
      do (e, (p0, p1)) <- sys cPipe;
      (if e <? 0 then panic (B "pipe") else Done tt) ;;
      do pid <- fork1;
      (if pid =? 0 then
         sys (cClose 1) ;; sys (cDup p1) ;; sys (cClose p0) ;; sys (cClose p1) ;; runcmd l
       else Done tt) ;;
      do pid <- fork1;
      (if pid =? 0 then
         sys (cClose 0) ;; sys (cDup p0) ;; sys (cClose p0) ;; sys (cClose p1) ;; runcmd r
       else Done tt) ;;
      sys (cClose p0) ;;
      sys (cClose p1) ;;
      sys cWait ;;
      sys cWait ;;
      Exit
  | BACK c =>
      do pid <- fork1;
      (if pid =? 0 then runcmd c else Done tt) ;;
      Exit
  end.
End runcmd.

(** [gets] reads byte by byte. *)
Fixpoint gets (fuel : nat) (i max : Z) : prog (list Z) :=
  match fuel with
  | O => Done []
  | S fuel =>
      if i + 1 <? max then
        do (cc, c) <- sys (cRead 0 1);
        if cc <? 1 then Done []
        else if bool_decide (c = [10]) || bool_decide (c = [13]) then Done c
        else do l <- gets fuel (i + 1) max; Done (c ++ l)
      else Done []
  end.

(** The line in [buf], which was cleared before; [None] at the end of input. *)
Definition getcmd (nbuf : nat) : prog (option (list Z)) :=
  printf 2 (B "$ ") [] ;;
  do l <- gets nbuf 0 (Z.of_nat nbuf);
  let buf := l ++ replicate (nbuf - length l) 0 in
  Done (if bool_decide (buf !! 0%nat = Some 0) then None else Some buf).

(** The three descriptors of the shell. *)
Fixpoint open_console (fuel : nat) : prog unit :=
  match fuel with
  | O => Stuck
  | S fuel =>
      do fd <- sys (cOpen (B "console") O_RDWR);
      if 0 <=? fd then
        if 3 <=? fd then sys (cClose fd) ;; Done tt else open_console fuel
      else Done tt
  end.

(** [runcmd(parsecmd(buf))] *)
Definition run_line (buf : list Z) : prog unit :=
  match parsecmd buf 0%nat with
  | Ret _ (c, b) => runcmd (fun w => cstr (drop (fst w) b)) c
  | Panic msg => panic (B msg)
  | _ => Stuck
  end.

Fixpoint commands (fuel : nat) : prog unit :=
  match fuel with
  | O => Stuck
  | S fuel =>
      do line <- getcmd 100;
      match line with
      | None => Exit
      | Some buf =>
          if bool_decide (take 3 buf = [99; 100; 32]) then
            match strlen buf with
            | Some n =>
                let buf := <[Z.to_nat (n - 1) := 0]> buf in
                let path := cstr (drop 3 buf) in
                do r <- sys (cChdir path);
                (if r <? 0 then printf 2 (ln "cannot cd %s") [AStr (Some path)] else Done tt) ;;
                commands fuel
            | None => Stuck
            end
          else
            do pid <- fork1;
            (if pid =? 0 then run_line buf else Done tt) ;;
            sys cWait ;;
            commands fuel
      end
  end.
Definition main (fuel : nat) : prog unit := open_console 4 ;; commands fuel.

(** ** The programs a command runs *)

(** What a descriptor refers to: a pipe is named by the process that made it. *)
Inductive obj := Tty | File (name : list Z) (mode : Z) | PipeR (id : list nat) | PipeW (id : list nat).
Abbreviation table := (list (option obj)).

(** The lowest free descriptor. *)
Definition fdalloc (t : table) (o : obj) : option (nat * table) :=
  match list_find (fun x => x = None) t with
  | Some (i, _) => Some (i, <[i := Some o]> t)
  | None => None
  end.
Definition fdclose (t : table) (fd : Z) : table := <[Z.to_nat fd := None]> t.

(** The files that can be opened and the programs that can be executed. *)
Section procs.
Context (can_open : list Z -> Z -> bool) (can_exec : list Z -> bool).

(** The executions of a process and of its children: [fork] succeeds, and
    continues in the child, then in the parent; the process is named by the
    forks that led to it. *)
Fixpoint procs {A} (m : prog A) (id : list nat) (t : table) : list (list (list Z) * table) :=
  match m with
  | Done _ | Exit | Stuck => []
  | @Call _ X c k =>
      match c in call X return (X -> prog A) -> list (list (list Z) * table) with
      | cFork => fun k => procs (k 0) (0%nat :: id) t ++ procs (k 1) (1%nat :: id) t
      | cExec path argv => fun k => if can_exec path then [(argv, t)] else procs (k (-1)) id t
      | cClose fd => fun k => procs (k 0) id (fdclose t fd)
      | cOpen f mode => fun k =>
          if can_open f mode then
            match fdalloc t (File f mode) with
            | Some (i, t) => procs (k (Z.of_nat i)) id t
            | None => procs (k (-1)) id t
            end
          else procs (k (-1)) id t
      | cDup fd => fun k =>
          match t !! Z.to_nat fd with
          | Some (Some o) =>
              match fdalloc t o with
              | Some (i, t) => procs (k (Z.of_nat i)) id t
              | None => procs (k (-1)) id t
              end
          | _ => procs (k (-1)) id t
          end
      | cPipe => fun k =>
          match fdalloc t (PipeR id) with
          | Some (i, t1) =>
              match fdalloc t1 (PipeW id) with
              | Some (j, t2) => procs (k (0, (Z.of_nat i, Z.of_nat j))) id t2
              | None => procs (k (-1, (0, 0))) id t
              end
          | None => procs (k (-1, (0, 0))) id t
          end
      | cWait => fun k => procs (k 1) id t
      | cWrite _ l => fun k => procs (k (Z.of_nat (length l))) id t
      | c => fun k => procs (k (h_fail c)) id t
      end k
  end.

(** What the programs of a command should get: the table of the shell with
    standard input or output replaced, and nothing more.  A command whose
    redirection cannot be opened is not run. *)
Section wire.
Context (str : word -> list Z).

Fixpoint wire (c : cmd) (id : list nat) (t : table) : list (list (list Z) * table) :=
  match c with
  | EXEC [] => []
  | EXEC ((w :: _) as ws) => if can_exec (str w) then [(str <$> ws, t)] else []
  | REDIR c f mode fd => if can_open (str f) mode then wire c id (<[Z.to_nat fd := Some (File (str f) mode)]> t) else []
  | LIST l r => wire l (0%nat :: id) t ++ wire r (1%nat :: id) t
  | PIPE l r =>
      wire l (0%nat :: id) (<[1%nat := Some (PipeW id)]> t) ++
      wire r (0%nat :: 1%nat :: id) (<[0%nat := Some (PipeR id)]> t)
  | BACK c => wire c (0%nat :: id) t
  end.

(** The descriptors the parser redirects. *)
Fixpoint std_redirs (c : cmd) : Prop :=
  match c with
  | EXEC _ => True
  | REDIR c _ _ fd => std_redirs c /\ (fd = 0 \/ fd = 1)
  | PIPE l r | LIST l r => std_redirs l /\ std_redirs r
  | BACK c => std_redirs c
  end.
End wire.

(** The first three descriptors are open and two are free. *)
Definition open_at (t : table) (i : nat) : Prop := exists o, t !! i = Some (Some o).
Record table_ok (t : table) : Prop := {
  tk_in : open_at t 0;
  tk_out : open_at t 1;
  tk_err : open_at t 2;
  tk_free : exists i j, i <> j /\ t !! i = Some None /\ t !! j = Some None
}.

Lemma table_ok_insert t i o : table_ok t -> (i < 3)%nat -> table_ok (<[i := Some o]> t).
Proof.
  intros [[a Ha] [b Hb] [e He] (x & y & Hne & Hx & Hy)] Hi. apply lookup_lt_Some in He as Hl.
  assert (forall k, (k < 3)%nat -> open_at (<[i := Some o]> t) k) as Hstd.
  { intros k Hk. destruct (decide (i = k)) as [->|Hik]; [exists o; apply list_lookup_insert_eq; lia|].
    unfold open_at. rewrite list_lookup_insert_ne by done. destruct k as [|[|[|k]]]; [by exists a|by exists b|by exists e|lia]. }
  assert (forall k, t !! k = Some None -> i <> k) as Hik by (intros k Hk <-; destruct i as [|[|[|i]]]; congruence || lia).
  split; try (apply Hstd; lia). exists x, y. rewrite !list_lookup_insert_ne by auto. done.
Qed.

Lemma fdalloc_free t o i : t !! i = Some None -> exists k, fdalloc t o = Some (k, <[k := Some o]> t) /\ t !! k = Some None.
Proof.
  intros Hi. unfold fdalloc. destruct (list_find _ t) as [[k x]|] eqn:E.
  - apply list_find_Some in E as (Hk & -> & _). by exists k.
  - exfalso. apply list_find_None in E. rewrite Forall_lookup in E. by apply (E i None).
Qed.

Lemma fdalloc_closed t o i : (i < length t)%nat -> (forall k, (k < i)%nat -> open_at t k) ->
  fdalloc (<[i := None]> t) o = Some (i, <[i := Some o]> t).
Proof.
  intros Hi Hlow. unfold fdalloc.
  assert (list_find (fun x : option obj => x = None) (<[i := None]> t) = Some (i, None)) as ->.
  { apply list_find_Some. split_and!; [by apply list_lookup_insert_eq|done|]. intros j y Hj Hlt.
    destruct (Hlow j Hlt) as [o' Ho]. rewrite list_lookup_insert_ne in Hj by lia. congruence. }
  by rewrite list_insert_insert_eq.
Qed.

(** ** Trees that do not return *)
Fixpoint never {A} (m : prog A) : Prop :=
  match m with Done _ => False | Exit | Stuck => True | Call _ k => forall x, never (k x) end.

Lemma never_bind {A B} (m : prog A) (f : A -> prog B) : (forall a, never (f a)) -> never (pbind m f).
Proof. intros Hf. induction m as [a| | |X c k IH]; cbn; auto. Qed.

Lemma never_bind_l {A B} (m : prog A) (f : A -> prog B) : never m -> never (pbind m f).
Proof. induction m as [a| | |X c k IH]; cbn; [done|done|done|]. intros H x. apply IH, H. Qed.

Lemma never_fork {A} (f : Z -> prog A) : (forall a, never (f a)) -> never (pbind fork1 f).
Proof. apply never_bind. Qed.

Lemma runcmd_never str c : never (runcmd str c).
Proof.
  destruct c as [[|w ws]|c f m fd|l r|l r|c]; cbn [runcmd]; [done|..].
  - apply never_bind. intros _. by apply never_bind.
  - apply never_bind. intros _. apply never_bind. intros r. apply never_bind. intros _. by apply never_bind.
  - apply never_bind. intros [e [p0 p1]]. do 8 (apply never_bind; intros ?). done.
  - do 4 (apply never_bind; intros ?). done.
  - do 2 (apply never_bind; intros ?). done.
Qed.

Lemma procs_never {A B} (m : prog A) (f : A -> prog B) id t : never m -> procs (pbind m f) id t = procs m id t.
Proof.
  revert id t. induction m as [a| | |X c k IH]; intros id t Hn; cbn [pbind procs]; [done|done|done|].
  cbn in Hn. destruct c; cbn; rewrite ?IH by auto; try done.
  all: repeat case_match; rewrite ?IH by auto; done.
Qed.

(** ** Wiring *)

Lemma procs_exit {A B} (m : prog A) id t : procs (pbind m (fun _ => (Exit : prog B))) id t = procs m id t.
Proof.
  revert id t. induction m as [a| | |X c k IH]; intros id t; cbn [pbind procs]; [done|done|done|].
  destruct c; cbn; rewrite ?IH; try done. all: repeat case_match; rewrite ?IH; done.
Qed.

(** Output runs no program. *)
Fixpoint quiet {A} (m : prog A) : Prop :=
  match m with
  | @Call _ X c k =>
      match c in call X return (X -> prog A) -> Prop with
      | cWrite _ _ => fun k => forall x, quiet (k x)
      | _ => fun _ => False
      end k
  | _ => True
  end.
Lemma quiet_bind {A B} (m : prog A) (f : A -> prog B) : quiet m -> (forall a, quiet (f a)) -> quiet (pbind m f).
Proof. intros Hm Hf. induction m as [a| | |X c k IH]; cbn; auto. destruct c; cbn in *; auto. Qed.
Lemma quiet_puts fd l : quiet (puts fd l).
Proof. induction l as [|c l IH]; cbn; auto. Qed.
Lemma quiet_long fd x : quiet (printlong fd x).
Proof. apply quiet_bind; [destruct (negb _); [apply quiet_puts|done]|intros _; apply quiet_puts]. Qed.
Lemma quiet_putc fd c : quiet (putc fd c).
Proof. by intros x. Qed.
Lemma quiet_printf fd fmt ap : quiet (printf fd fmt ap).
Proof.
  unfold printf. generalize false. revert ap. induction fmt as [|f fmt IH]; intros ap b; cbn [printf_loop]; [exact I|].
  generalize (Z.land f 0xff). intros c.
  assert (forall (m : prog unit) ap b, quiet m -> quiet (m ;; printf_loop fd fmt b ap)) as Hm by (intros; by apply quiet_bind).
  destruct (negb b); [destruct (c =? 37); [apply IH|apply Hm, quiet_putc]|].
  destruct (c =? 100); [destruct ap as [|[] ap]; [exact I|apply Hm, quiet_puts|exact I]|].
  destruct (c =? 108); [destruct ap as [|[] [|[] ap]]; [exact I|exact I|apply Hm, quiet_long|exact I..]|].
  destruct (_ || _); [destruct ap as [|[] ap]; [exact I|apply Hm, quiet_puts|exact I]|].
  destruct (c =? 115); [destruct ap as [|[] ap]; [exact I|exact I|apply Hm, quiet_puts]|].
  destruct (c =? 99); [destruct ap as [|[] ap]; [exact I|apply Hm, quiet_putc|exact I]|].
  destruct (c =? 37); [apply Hm, quiet_putc|]. apply quiet_bind; [apply quiet_putc|intros _; apply Hm, quiet_putc].
Qed.
Lemma quiet_procs {A} (m : prog A) id t : quiet m -> procs m id t = [].
Proof. induction m as [a| | |X c k IH]; cbn; auto. destruct c; cbn; try done. intros Hk. apply IH, Hk. Qed.

(** A child that runs a command and does not come back. *)
Lemma procs_child {B} str c (f : unit -> prog B) id t : procs (pbind (runcmd str c) f) id t = procs (runcmd str c) id t.
Proof. apply procs_never, runcmd_never. Qed.

Lemma insert_back (t : table) i j x y k z : t !! i = Some None -> t !! j = Some None -> i <> j -> k <> i -> k <> j ->
  <[j := None]> (<[i := None]> (<[k := z]> (<[j := x]> (<[i := y]> t)))) = <[k := z]> t.
Proof.
  intros Hi Hj Hij Hki Hkj. apply list_eq. intros n.
  assert (i < length t)%nat by (by eapply lookup_lt_Some). assert (j < length t)%nat by (by eapply lookup_lt_Some).
  destruct (decide (n = j)) as [->|Hnj].
  { rewrite list_lookup_insert_eq by (rewrite !length_insert; done). by rewrite list_lookup_insert_ne. }
  rewrite (list_lookup_insert_ne _ j) by done. destruct (decide (n = i)) as [->|Hni].
  { rewrite list_lookup_insert_eq by (rewrite !length_insert; done). by rewrite list_lookup_insert_ne. }
  rewrite (list_lookup_insert_ne _ i) by done. destruct (decide (n = k)) as [->|Hnk].
  { destruct (decide (k < length t)%nat); [by rewrite !list_lookup_insert_eq by (rewrite ?length_insert; done)|].
    rewrite !lookup_ge_None_2 by (rewrite ?length_insert; lia). done. }
  by rewrite !list_lookup_insert_ne.
Qed.

(** The two children of a pipeline: the pipe replaces descriptor [k], and its
    two own descriptors are closed again. *)
Lemma pipe_table t id i j (k : nat) o : table_ok t -> (k < 2)%nat -> t !! i = Some None -> t !! j = Some None -> i <> j ->
  let t2 := <[j := Some (PipeW id)]> (<[i := Some (PipeR id)]> t) in
  fdalloc (<[k := None]> t2) o = Some (k, <[k := Some o]> t2) /\
  <[j := None]> (<[i := None]> (<[k := Some o]> t2)) = <[k := Some o]> t /\
  t2 !! i = Some (Some (PipeR id)) /\ t2 !! j = Some (Some (PipeW id)) /\
  (<[k := None]> t2) !! i = Some (Some (PipeR id)) /\ (<[k := None]> t2) !! j = Some (Some (PipeW id)).
Proof.
  intros HT Hk Hi Hj Hij t2. destruct HT as [[a Ha] [b Hb] _ _].
  assert (k <> i /\ k <> j /\ (k < length t)%nat) as (Hki & Hkj & Hkl).
  { apply lookup_lt_Some in Hb as Hl. destruct k as [|[|k]]; [| |lia]; split_and!; congruence || lia. }
  assert (i < length t)%nat by (by eapply lookup_lt_Some). assert (j < length t)%nat by (by eapply lookup_lt_Some).
  split_and!.
  - apply fdalloc_closed; [unfold t2; rewrite !length_insert; done|]. intros n Hn. assert (n = 0)%nat as -> by lia. exists a.
    unfold t2. rewrite !list_lookup_insert_ne; [done|congruence|congruence].
  - by apply insert_back.
  - unfold t2. rewrite list_lookup_insert_ne by done. by apply list_lookup_insert_eq.
  - unfold t2. apply list_lookup_insert_eq. by rewrite length_insert.
  - unfold t2. rewrite list_lookup_insert_ne, list_lookup_insert_ne by done. by apply list_lookup_insert_eq.
  - unfold t2. rewrite list_lookup_insert_ne by done. apply list_lookup_insert_eq. by rewrite length_insert.
Qed.

(** C31: every program of a command line gets exactly the descriptors it
    should: standard input and output of a pipeline's programs are the two ends
    of one pipe, redirections replace one descriptor by the file, and no other
    descriptor of the shell is changed or leaked, over all the processes
    [runcmd] forks and for pipelines of any length, with redirections anywhere
    in them.  A command is left out when it cannot be executed or when one of
    its redirections cannot be opened, and nothing else is. *)
Theorem runcmd_wiring str c id t : std_redirs c -> table_ok t -> procs (runcmd str c) id t = wire str c id t.
Proof.
  revert id t. induction c as [ws|c IH f mode fd|l IHl r IHr|l IHl r IHr|c IH]; intros id t Hc HT; cbn [std_redirs] in Hc.
  - destruct ws as [|w ws]; [done|]. cbn [runcmd pbind procs sys wire]. destruct (can_exec (str w)); [done|].
    rewrite procs_exit. apply quiet_procs, quiet_printf.
  - destruct Hc as [Hc Hfd]. cbn [runcmd pbind procs sys wire]. unfold fdclose. destruct (can_open (str f) mode).
    2: { cbn [Z.ltb Z.compare]. rewrite procs_never by by apply never_bind. rewrite procs_exit. apply quiet_procs, quiet_printf. }
    assert (fdalloc (<[Z.to_nat fd := None]> t) (File (str f) mode) = Some (Z.to_nat fd, <[Z.to_nat fd := Some (File (str f) mode)]> t)) as ->.
    { destruct HT as [[a Ha] [b Hb] _ _]. apply lookup_lt_Some in Hb as Hl.
      apply fdalloc_closed; [destruct Hfd; subst; cbn; lia|]. intros k Hk. assert (k = 0)%nat as -> by (destruct Hfd; subst; cbn in Hk; lia). by exists a. }
    rewrite (proj2 (Z.ltb_ge _ 0)) by lia. cbn [pbind]. rewrite procs_exit. apply IH; [done|]. apply table_ok_insert; [done|]. destruct Hfd; subst; cbn; lia.
  - destruct Hc as [Hl Hr]. pose proof HT as [_ _ _ (x & y & Hxy & Hx & Hy)]. cbn [runcmd pbind procs sys wire].
    destruct (fdalloc_free t (PipeR id) x Hx) as (i & -> & Hi).
    assert (exists z, <[i := Some (PipeR id)]> t !! z = Some None) as [z Hz].
    { destruct (decide (i = x)) as [->|]; [exists y|exists x]; by rewrite list_lookup_insert_ne. }
    destruct (fdalloc_free _ (PipeW id) z Hz) as (j & -> & Hj).
    assert (i <> j) as Hij by (intros ->; rewrite list_lookup_insert_eq in Hj by (by eapply lookup_lt_Some); done).
    rewrite list_lookup_insert_ne in Hj by done. cbn [Z.ltb Z.compare pbind procs fork1 sys Z.eqb Pos.eqb].
    destruct (pipe_table t id i j 1 (PipeW id) HT ltac:(lia) Hi Hj Hij) as (A1 & A2 & _ & _ & _ & A3).
    destruct (pipe_table t id i j 0 (PipeR id) HT ltac:(lia) Hi Hj Hij) as (B1 & B2 & _ & _ & B3 & _).
    unfold fdclose. rewrite !Nat2Z.id. cbn [Z.to_nat Pos.to_nat Pos.iter_op Nat.add].
    change (Z.to_nat 1) with 1%nat. change (Z.to_nat 0) with 0%nat.
    rewrite A3, A1, B3, B1, A2, B2. rewrite !procs_child. rewrite IHl, IHr by (done || (apply table_ok_insert; [done|lia])).
    by rewrite !app_nil_r.
  - destruct Hc as [Hl Hr]. cbn [runcmd pbind procs sys wire fork1 Z.eqb Pos.eqb]. rewrite procs_child, IHl by done.
    by rewrite procs_exit, IHr.
  - cbn [runcmd pbind procs sys wire fork1 Z.eqb Pos.eqb]. rewrite procs_exit, IH by done. by rewrite app_nil_r.
Qed.

End procs.

(** Witness: [a | b > f] with three open descriptors. *)
Definition demo_cmd : cmd := PIPE (EXEC [(0, 1)%nat]) (REDIR (EXEC [(2, 3)%nat]) (4, 5)%nat 0x201 1).
Definition demo_str (w : word) : list Z := [Z.of_nat (97 + fst w)].
Definition demo_fds : table := replicate 3 (Some Tty) ++ replicate 13 None.

Lemma runcmd_wiring_witness : procs (fun _ _ => true) (fun _ => true) (runcmd demo_str demo_cmd) [] demo_fds =
  [([[97]], <[1%nat := Some (PipeW [])]> demo_fds);
   ([[99]], <[1%nat := Some (File [101] 0x201)]> (<[0%nat := Some (PipeR [])]> demo_fds))].
Proof.
  rewrite (runcmd_wiring _ _ demo_str demo_cmd [] demo_fds); [reflexivity|repeat split; by right|].
  split; [by exists Tty..|]. by exists 3%nat, 4%nat.
Defined.
