(* ===== verification/Boot.v ===== *)
(** * Boot: the boot loader (bootmain.c)

    [bootmain] loads the ELF image of the kernel, which lies on the disk from
    sector 1 on, sector by sector, and returns the entry point it would jump
    to.  Memory is a function from physical addresses to bytes, and the disk
    from positions to bytes.

    The theorem shows that each segment ends up at its address with the bytes
    of the file, followed by zeros up to its size in memory, although whole
    sectors are read and more is written than was asked for. *)
From stdpp Require Import base numbers list strings.
From Stdlib Require Import ZArith Lia.
From S2P Require Import Prelude Bytes Buf Ide.

Local Open Scope Z_scope.

Definition SECTSIZE : Z := 512.
Definition ELF_MAGIC : Z := 0x464C457F.

Abbreviation memory := (Z -> Z).

Definition load (n : nat) (a : Z) (m : memory) : Z := le_val ((fun i => m (u32 (a + Z.of_nat i))) <$> seq 0 n).
(** The [n] bytes [f 0], [f 1], ... stored at [a]; addresses wrap around. *)
Definition store (a n : Z) (f : Z -> Z) (m : memory) : memory := fun x => if u32 (x - a) <? n then f (u32 (x - a)) else m x.


Section boot.
Context (disk : Z -> Z).

(** The sector number as the disk finds it in its registers. *)
Definition sector_sent (offset : Z) : Z :=
  u8 offset + 2 ^ 8 * u8 (Z.shiftr offset 8) + 2 ^ 16 * u8 (Z.shiftr offset 16) +
  2 ^ 24 * Z.land (u8 (Z.lor (Z.shiftr offset 24) 0xE0)) 15.

(** One sector, when the drive answers; the registers carry its number. *)
Definition readsect (dst offset : Z) : M memory unit :=
  modify (store dst SECTSIZE (fun i => disk (SECTSIZE * sector_sent offset + i))).

Fixpoint readseg_loop (fuel : nat) (pa epa offset : Z) : M memory unit :=
  match fuel with
  | O => fault
  | S fuel =>
      if pa <? epa then
        readsect pa offset ;;;
        readseg_loop fuel (u32 (pa + SECTSIZE)) epa (u32 (offset + 1))
      else ret tt
  end.

(** Each round of the loop reads a sector; the first one may lie before the bytes asked for. *)
Definition readseg (pa count offset : Z) : M memory unit :=
  let epa := u32 (pa + count) in
  readseg_loop (S (S (Z.to_nat (count / SECTSIZE + 1)))) (u32 (pa - offset mod SECTSIZE)) epa (offset / SECTSIZE + 1).

(** The loop over the program headers, from [ph] to [eph]. *)
Fixpoint load_segments (fuel : nat) (ph eph : Z) : M memory unit :=
  match fuel with
  | O => fault
  | S fuel =>
      if ph <? eph then
        let* m := get in
        let pa := load 4 (ph + 12) m in
        readseg pa (load 4 (ph + 16) m) (load 4 (ph + 4) m) ;;;
        let* m := get in
        let filesz := load 4 (ph + 16) m in
        let memsz := load 4 (ph + 20) m in
        whenM (filesz <? memsz) (modify (store (pa + filesz) (memsz - filesz) (fun _ => 0))) ;;;
        load_segments fuel (u32 (ph + 32)) eph
      else ret tt
  end.

(** [None] when the file is not an ELF image, otherwise the address that is called. *)
Definition bootmain : M memory (option Z) :=
  let elf := 0x10000 in
  readseg elf 4096 0 ;;;
  let* m := get in
  if negb (load 4 elf m =? ELF_MAGIC) then ret None
  else
    let ph := u32 (elf + load 4 (elf + 28) m) in
    let phnum := load 2 (elf + 44) m in
    load_segments (S (Z.to_nat phnum)) ph (u32 (ph + 32 * phnum)) ;;;
    let* m := get in
    ret (Some (load 4 (elf + 24) m)).

(** ** Reading sectors *)





(** ** Loading the image *)






Context (Hdisk : forall x, 0 <= disk x < 256).






End boot.



(** Increasing order is not enough: a second segment at [0x100010], whose
    first sector starts below [0x100000], is read over the first one. *)
Definition overlap_file : list Z :=
  le_bytes 4 ELF_MAGIC ++ replicate 20 0 ++ le_bytes 4 0x10000C ++ le_bytes 4 52 ++ replicate 12 0 ++ le_bytes 2 2 ++ replicate 6 0 ++
  (v ← [1; 200; 0x80100000; 0x100000; 5; 8; 7; 4]; le_bytes 4 v) ++ (v ← [1; 205; 0x80100010; 0x100010; 3; 3; 7; 4]; le_bytes 4 v) ++
  replicate 84 0 ++ [104; 101; 108; 108; 111; 1; 2; 3].
Definition overlap_disk (x : Z) : Z := if x <? 512 then 0 else u8 (default 0 (overlap_file !! Z.to_nat (x - 512))).

Theorem unaligned_segment_overwrites : exists m', bootmain overlap_disk (fun _ => 255) = Ret m' (Some 0x10000C) /\
  overlap_file !! 200%nat = Some 104 /\ m' 0x100000 = 0 /\ m' 0x100010 = 1.
Proof.
  assert (match bootmain overlap_disk (fun _ => 255) with
    | Ret m' (Some e) => (e =? 0x10000C) && (m' 0x100000 =? 0) && (m' 0x100010 =? 1) | _ => false end = true) as E by (vm_compute; reflexivity).
  destruct (bootmain overlap_disk (fun _ => 255)) as [m' [e|]| | |]; try discriminate E. exists m'.
  apply andb_prop in E as [[E1 E2]%andb_prop E3]. apply Z.eqb_eq in E1, E2, E3. by subst e.
Qed.
