(* ===== verification/Mp.v ===== *)
(** * Mp: the multiprocessor tables (mp.c)

    At boot the kernel searches the memory of the BIOS for the floating
    pointer structure of the MultiProcessor specification, checks the
    configuration table it points to, and walks the table's entries to count
    the processors.  Memory is a function from addresses to bytes.

    The theorems show what [mpsearch] accepts, and that the walk over a table
    of entries of the known types counts the processors and falls back to one
    when their numbers are not in order; and where the walk goes wrong: it
    never ends at an entry of an unknown type, and a ninth processor is
    written outside [cpus]. *)
From stdpp Require Import base numbers list gmap strings.
From Stdlib Require Import ZArith Lia.
From S2P Require Import Prelude Bytes Kalloc.

Local Open Scope Z_scope.

Definition NCPU : nat := 8.

(** Table entry types. *)
Definition MPPROC : Z := 0x00.
Definition MPBUS : Z := 0x01.
Definition MPIOAPIC : Z := 0x02.
Definition MPIOINTR : Z := 0x03.
Definition MPLINTR : Z := 0x04.
Definition MPBOOT : Z := 0x02.

Definition sizeof_mp : Z := 16.
Definition sizeof_mpconf : Z := 44.
Definition sizeof_mpproc : Z := 20.
Definition sizeof_mpioapic : Z := 8.

(** [cpus[i].id], and the other variables of mp.c; [imcr]: external interrupts
    were masked in the IMCR. *)
Record mps := mk_mps {
  cpu_ids : list Z;
  bcpu : nat;
  ismp : bool;
  ncpu : nat;
  ioapicid : Z;
  lapic : Z;
  imcr : bool
}.

Section memory.
Context (mem : Z -> Z).

Definition load (n : nat) (a : Z) : Z := le_val ((fun i => mem (u32 (a + Z.of_nat i))) <$> seq 0 n).

Definition sum (addr : Z) (len : nat) : Z := u8 (foldl Z.add 0 ((fun i => mem (u32 (addr + Z.of_nat i))) <$> seq 0 len)).

(** [memcmp(p, sig, 4) == 0]. *)
Definition has_signature (p : Z) (sig : list Z) : bool :=
  bool_decide (((fun i => mem (u32 (p + Z.of_nat i))) <$> seq 0 4) = sig).

Definition sig_mp : list Z := [95; 77; 80; 95].
Definition sig_pcmp : list Z := [80; 67; 77; 80].

(** The condition on which the search stops. *)
Definition is_mp (p : Z) : bool := has_signature p sig_mp && (sum p 16 =? 0).

(** Look for an MP structure from [p] on, in [n] places. *)
Fixpoint mpsearch_loop (n : nat) (p e : Z) : option Z :=
  match n with
  | O => None
  | S n => if p <? e then if is_mp p then Some p else mpsearch_loop n (u32 (p + sizeof_mp)) e else None
  end.
Definition mpsearch1 (a len : Z) : option Z :=
  let addr := p2v a in
  mpsearch_loop (Z.to_nat (len / sizeof_mp)) addr (u32 (addr + len)).

Definition mpsearch : option Z :=
  let bda := p2v 0x400 in
  let p := Z.shiftl (Z.lor (Z.shiftl (mem (bda + 0x0F)) 8) (mem (bda + 0x0E))) 4 in
  let first :=
    if negb (p =? 0) then mpsearch1 p 1024
    else
      let p := Z.lor (Z.shiftl (mem (bda + 0x14)) 8) (mem (bda + 0x13)) * 1024 in
      mpsearch1 (u32 (p - 1024)) 1024 in
  match first with
  | Some mp => Some mp
  | None => mpsearch1 0xF0000 0x10000
  end.

(** The structure and the table. *)
Definition mpconfig : option (Z * Z) :=
  match mpsearch with
  | None => None
  | Some mp =>
      if load 4 (mp + 4) =? 0 then None
      else
        let conf := p2v (load 4 (mp + 4)) in
        if negb (has_signature conf sig_pcmp) then None
        else if negb (load 1 (conf + 6) =? 1) && negb (load 1 (conf + 6) =? 4) then None
        else if negb (sum conf (Z.to_nat (load 2 (conf + 4))) =? 0) then None
        else Some (mp, conf)
  end.

(** One processor entry at [p]. *)
Definition add_cpu (p : Z) : M mps unit :=
  let* s := get in
  let ok := Z.of_nat (ncpu s) =? load 1 (p + 1) in
  let boot := hasf MPBOOT (load 1 (p + 3)) in
  if decide (ncpu s < NCPU)%nat then
    modify (fun s => mk_mps (<[ncpu s := Z.of_nat (ncpu s)]> (cpu_ids s)) (if boot then ncpu s else bcpu s) (ismp s && ok)
                       (S (ncpu s)) (ioapicid s) (lapic s) (imcr s))
  else fault.

(** The loop over the entries; out of fuel it has not ended. *)
Fixpoint mpinit_loop (fuel : nat) (p e : Z) : M mps bool :=
  match fuel with
  | O => ret false
  | S fuel =>
      if p <? e then
        let t := load 1 p in
        if t =? MPPROC then
          add_cpu p ;;;
          mpinit_loop fuel (u32 (p + sizeof_mpproc)) e
        else if t =? MPIOAPIC then
          modify (fun s => mk_mps (cpu_ids s) (bcpu s) (ismp s) (ncpu s) (load 1 (p + 1)) (lapic s) (imcr s)) ;;;
          mpinit_loop fuel (u32 (p + sizeof_mpioapic)) e
        else if (t =? MPBUS) || (t =? MPIOINTR) || (t =? MPLINTR) then mpinit_loop fuel (u32 (p + 8)) e
        else
          modify (fun s => mk_mps (cpu_ids s) (bcpu s) false (ncpu s) (ioapicid s) (lapic s) (imcr s)) ;;;
          mpinit_loop fuel p e
      else ret true
  end.

(** [mpinit]; the result tells whether its loop ended. *)
Definition mpinit (fuel : nat) : M mps bool :=
  modify (fun s => mk_mps (cpu_ids s) 0 (ismp s) (ncpu s) (ioapicid s) (lapic s) (imcr s)) ;;;
  match mpconfig with
  | None => ret true
  | Some (mp, conf) =>
      modify (fun s => mk_mps (cpu_ids s) (bcpu s) true (ncpu s) (ioapicid s) (load 4 (conf + 36)) (imcr s)) ;;;
      let* ended := mpinit_loop fuel (u32 (conf + sizeof_mpconf)) (u32 (conf + load 2 (conf + 4))) in
      if negb ended then ret false
      else
        let* s := get in
        if negb (ismp s) then
          modify (fun s => mk_mps (cpu_ids s) (bcpu s) (ismp s) 1 0 0 (imcr s)) ;;;
          ret true
        else
          whenM (negb (load 1 (mp + 12) =? 0))
            (modify (fun s => mk_mps (cpu_ids s) (bcpu s) (ismp s) (ncpu s) (ioapicid s) (lapic s) true)) ;;;
          ret true
  end.
Definition mpbcpu : M mps nat := gets bcpu.
End memory.

(** ** The search *)

(** The first place that holds a structure. *)
Theorem mpsearch_loop_first mem n p e r : 0 <= p -> e < 2 ^ 32 - sizeof_mp -> mpsearch_loop mem n p e = r ->
  match r with
  | Some q => exists i, (i < n)%nat /\ q = p + sizeof_mp * Z.of_nat i /\ q < e /\ is_mp mem q = true /\
                forall j, (j < i)%nat -> is_mp mem (p + sizeof_mp * Z.of_nat j) = false
  | None => forall j, (j < n)%nat -> p + sizeof_mp * Z.of_nat j < e -> is_mp mem (p + sizeof_mp * Z.of_nat j) = false
  end.
Proof.
  unfold sizeof_mp. intros Hp He <-. revert p Hp. induction n as [|n IH]; intros p Hp; cbn [mpsearch_loop]; [lia|].
  destruct (Z.ltb_spec p e) as [Hlt|Hge]; [|intros j _; lia].
  destruct (is_mp mem p) eqn:E.
  - exists 0%nat. rewrite Z.mul_0_r, Z.add_0_r. split_and!; [lia|done|done|done|]. intros j Hj. lia.
  - unfold sizeof_mp in *. rewrite u32_small by (unfold is_u32; lia). specialize (IH (p + 16) ltac:(lia)).
    destruct (mpsearch_loop mem n (p + 16) e) as [q|].
    + destruct IH as (i & Hi & -> & Hq & Hm & Hb). exists (S i). split_and!; [lia|lia|lia|done|]. intros [|j] Hj; [by rewrite Z.mul_0_r, Z.add_0_r|].
      replace (p + 16 * Z.of_nat (S j)) with (p + 16 + 16 * Z.of_nat j) by lia. apply Hb. lia.
    + intros [|j] Hj Hlt'; [by rewrite Z.mul_0_r, Z.add_0_r|].
      replace (p + 16 * Z.of_nat (S j)) with (p + 16 + 16 * Z.of_nat j) by lia. apply IH; lia.
Qed.

(** ** The table *)

(** The entries of the known types. *)
Inductive entry :=
  | Proc (apicid flags : Z)
  | Ioapic (apicno : Z)
  | Other (type : Z).

Definition size_of (x : entry) : Z := match x with Proc _ _ => 20 | Ioapic _ => 8 | Other _ => 8 end.

Section table.
Context (mem : Z -> Z).

Definition entry_at (p : Z) (x : entry) : Prop :=
  match x with
  | Proc a f => load mem 1 p = MPPROC /\ load mem 1 (p + 1) = a /\ load mem 1 (p + 3) = f
  | Ioapic a => load mem 1 p = MPIOAPIC /\ load mem 1 (p + 1) = a
  | Other t => load mem 1 p = t /\ t ∈ [MPBUS; MPIOINTR; MPLINTR]
  end.
Fixpoint table (p : Z) (es : list entry) (e : Z) : Prop :=
  match es with
  | [] => p = e
  | x :: es => entry_at p x /\ table (p + size_of x) es e
  end.

(** What the kernel is to learn from the entries. *)
Definition procs (es : list entry) : list (Z * Z) := omap (fun x => match x with Proc a f => Some (a, f) | _ => None end) es.
Definition ioapics (es : list entry) : list Z := omap (fun x => match x with Ioapic a => Some a | _ => None end) es.
(** The bootstrap processor: the last one that is marked, counted from [n]; [b] if there is none. *)
Fixpoint boot_cpu (n b : nat) (ps : list (Z * Z)) : nat :=
  match ps with
  | [] => b
  | (_, f) :: ps => boot_cpu (S n) (if hasf MPBOOT f then n else b) ps
  end.

Lemma table_le p es e : table p es e -> p <= e.
Proof. revert p. induction es as [|x es IH]; intros p; cbn; [lia|]. intros [_ Ht%IH]. destruct x; cbn in Ht; lia. Qed.

Lemma in_order_cons n a (l : list Z) : bool_decide ((a :: l) = seqZ n (Z.of_nat (length (a :: l)))) =
  (n =? a) && bool_decide (l = seqZ (n + 1) (Z.of_nat (length l))).
Proof.
  rewrite (seqZ_cons n) by (cbn; lia). apply eq_true_iff_eq. rewrite andb_true_iff, !bool_decide_eq_true, Z.eqb_eq.
  replace (Z.pred (Z.of_nat (length (a :: l)))) with (Z.of_nat (length l)) by (cbn; lia). unfold Z.succ. split.
  - intros [= -> E]. done.
  - intros [-> ->]. by rewrite length_seqZ, Nat2Z.id.
Qed.

(** The processors are counted and numbered, and compared with their APIC ids. *)
Lemma mpinit_loop_law fuel p es e s : table p es e -> 0 <= p -> e < 2 ^ 32 -> (length es < fuel)%nat ->
  length (cpu_ids s) = NCPU -> (ncpu s + length (procs es) <= NCPU)%nat ->
  let n := length (procs es) in
  exists ids, mpinit_loop mem fuel p e s =
    Ret (mk_mps ids (boot_cpu (ncpu s) (bcpu s) (procs es))
           (ismp s && bool_decide ((procs es).*1 = seqZ (Z.of_nat (ncpu s)) (Z.of_nat n)))
           (ncpu s + n) (default (ioapicid s) (last (ioapics es))) (lapic s) (imcr s)) true /\
    length ids = NCPU /\ take (ncpu s + n) ids = take (ncpu s) (cpu_ids s) ++ seqZ (Z.of_nat (ncpu s)) (Z.of_nat n).
Proof.
  revert p s es. induction fuel as [|fuel IH]; intros p s es Ht Hp He Hf Hl Hn; [lia|]. cbn [mpinit_loop].
  destruct es as [|x es]; cbn [table] in Ht.
  { subst p. rewrite Z.ltb_irrefl. exists (cpu_ids s). cbn [procs omap list_omap length boot_cpu ioapics fmap list_fmap].
    rewrite seqZ_nil, bool_decide_true, andb_true_r, Nat.add_0_r, app_nil_r by done. by destruct s. }
  destruct Ht as [Hx Ht]. pose proof (table_le _ _ _ Ht) as Hle. rewrite (proj2 (Z.ltb_lt _ _)) by (destruct x; cbn in Hle; lia).
  cbn [length] in Hf. destruct x as [a f|a|ty]; cbn [entry_at size_of] in *; cbn zeta.
  - destruct Hx as (-> & Ha & Hfl). change (MPPROC =? MPPROC) with true. cbn [procs omap list_omap length] in *. fold (procs es) in *.
    unfold add_cpu. rewrite Ha, Hfl. set (s1 := mk_mps (<[ncpu s := Z.of_nat (ncpu s)]> (cpu_ids s)) (if hasf MPBOOT f then ncpu s else bcpu s)
      (ismp s && (Z.of_nat (ncpu s) =? a)) (S (ncpu s)) (ioapicid s) (lapic s) (imcr s)).
    erewrite bind_ret with (s' := s1) by (mrun (eq_refl (get s)); rewrite decide_True by lia; reflexivity).
    unfold sizeof_mpproc. rewrite u32_small by (unfold is_u32; lia).
    destruct (IH (p + 20) s1 es Ht) as (ids & R & Hids & Htk); [lia|done|lia|cbn; by rewrite length_insert|cbn; lia|].
    exists ids. rewrite R. cbn [s1 cpu_ids bcpu ismp ncpu ioapicid lapic imcr boot_cpu fmap list_fmap fst] in *.
    replace (Z.of_nat (S (ncpu s))) with (Z.of_nat (ncpu s) + 1) in * by lia.
    replace (Z.of_nat (S (length (procs es)))) with (Z.of_nat (length (a :: (procs es).*1))) by (cbn; rewrite length_fmap; lia).
    rewrite in_order_cons, andb_assoc, length_fmap. split_and!; [f_equal; f_equal; lia|done|].
    replace (ncpu s + S (length (procs es)))%nat with (S (ncpu s) + length (procs es))%nat by lia. rewrite Htk, (seqZ_cons (Z.of_nat (ncpu s))) by (cbn; lia).
    rewrite (take_S_r _ _ (Z.of_nat (ncpu s))) by (apply list_lookup_insert_eq; lia). rewrite take_insert_ge by lia. rewrite <- app_assoc. cbn.
    rewrite length_fmap. do 3 f_equal. lia.
  - destruct Hx as (-> & Ha). change (MPIOAPIC =? MPPROC) with false. change (MPIOAPIC =? MPIOAPIC) with true. cbn iota.
    rewrite modify_bind, Ha. unfold sizeof_mpioapic. rewrite u32_small by (unfold is_u32; lia).
    edestruct (IH (p + 8)) as (ids & R & Hids & Htk); [exact Ht|lia|done|lia| | |]; cycle 2.
    { exists ids. rewrite R. cbn [cpu_ids bcpu ismp ncpu ioapicid lapic imcr] in *. cbn [procs ioapics omap list_omap]. split_and!; [|done|done].
      fold (ioapics es). rewrite last_cons. by destruct (last (ioapics es)). }
    { done. } { done. }
  - destruct Hx as (-> & Hty). assert ((ty =? MPPROC) = false /\ (ty =? MPIOAPIC) = false /\ (ty =? MPBUS) || (ty =? MPIOINTR) || (ty =? MPLINTR) = true) as (-> & -> & ->).
    { repeat (apply elem_of_cons in Hty as [->|Hty]; [done|]). by apply elem_of_nil in Hty. }
    rewrite u32_small by (unfold is_u32; lia). apply (IH (p + 8) s es); try done; lia.
Qed.
End table.

(** ** The theorems *)

(** The state before [mpinit]. *)
Definition mps0 : mps := mk_mps (replicate NCPU 0) 0 false 0 0 0 false.

(** On a table of known entries [mpinit] ends.  If the APIC ids of the
    processors are 0, 1, 2, ... in this order, all of them are counted and
    numbered, the bootstrap processor is the one that is marked, and the last
    I/O APIC is remembered; otherwise the kernel falls back to one processor
    without local APIC. *)
Theorem mpinit_counts mem mp conf es fuel : mpconfig mem = Some (mp, conf) ->
  0 <= conf -> conf + load mem 2 (conf + 4) < 2 ^ 32 -> table mem (conf + sizeof_mpconf) es (conf + load mem 2 (conf + 4)) ->
  (length (procs es) <= NCPU)%nat -> (length es < fuel)%nat ->
  let n := length (procs es) in
  exists s, mpinit mem fuel mps0 = Ret s true /\
    if bool_decide ((procs es).*1 = seqZ 0 (Z.of_nat n)) then
      ismp s = true /\ ncpu s = n /\ take n (cpu_ids s) = seqZ 0 (Z.of_nat n) /\ bcpu s = boot_cpu 0 0 (procs es) /\
      lapic s = load mem 4 (conf + 36) /\ ioapicid s = default 0 (last (ioapics es))
    else ismp s = false /\ ncpu s = 1%nat /\ lapic s = 0 /\ ioapicid s = 0.
Proof.
  intros Hc Hp He Ht Hn Hf n. pose proof (table_le _ _ _ _ Ht) as Hle. unfold sizeof_mpconf in *. unfold mpinit. rewrite modify_bind, Hc, modify_bind.
  unfold sizeof_mpconf. rewrite !u32_small by (unfold is_u32; lia).
  edestruct (mpinit_loop_law mem fuel _ _ _ (mk_mps (replicate NCPU 0) 0 true 0 0 (load mem 4 (conf + 36)) false) Ht) as (ids & R & Hl & Htk);
    [lia|done|done|apply length_replicate|done|].
  erewrite bind_ret by exact R. cbn [negb ncpu cpu_ids bcpu ismp ioapicid lapic imcr Nat.add andb take app] in *. cbn [Z.of_nat] in Htk |- *.
  erewrite bind_ret by reflexivity. cbn [ismp]. fold n. change (Z.of_nat 0) with 0 in *. clear R.
  destruct (bool_decide ((procs es).*1 = seqZ 0 (Z.of_nat n))); cbn [negb].
  - destruct (negb (load mem 1 (mp + 12) =? 0)); cbn [whenM]; rewrite ?modify_bind, ?ret_bind; eexists; (split; [reflexivity|]); cbn; by split_and!.
  - rewrite modify_bind. eexists. by split.
Qed.

(** An entry of another type: the loop does not move on, and [mpinit] never ends. *)
Theorem unknown_entry_hangs mem fuel p e s : p < e -> 5 <= load mem 1 p -> exists s', mpinit_loop mem fuel p e s = Ret s' false.
Proof.
  intros Hp Ht. revert s. induction fuel as [|fuel IH]; intros s; cbn [mpinit_loop]; [by exists s|].
  rewrite (proj2 (Z.ltb_lt _ _)) by done. unfold MPPROC, MPIOAPIC, MPBUS, MPIOINTR, MPLINTR.
  rewrite !(proj2 (Z.eqb_neq (load mem 1 p) _)) by lia. cbn [orb]. rewrite modify_bind. apply IH.
Qed.

(** A processor too many is written outside [cpus]. *)
Theorem ninth_cpu_faults mem fuel p e s : p < e -> load mem 1 p = MPPROC -> ncpu s = NCPU -> mpinit_loop mem (S fuel) p e s = Fault.
Proof.
  intros Hp Ht Hn. cbn [mpinit_loop]. rewrite (proj2 (Z.ltb_lt _ _)) by done. rewrite Ht. cbn [MPPROC Z.eqb].
  unfold add_cpu, bind, get. by rewrite decide_False by lia.
Qed.

(** A table of two processors, a bus and an I/O APIC at 0x1000; the structure
    that points to it is in the BIOS ROM. *)
Definition ex_mp : list Z := sig_mp ++ [0; 16; 0; 0; 1; 4; 16; 0; 128; 0; 0; 0].
Definition ex_conf : list Z :=
  sig_pcmp ++ [100; 0; 4; 71] ++ replicate 20 0 ++ [0; 0; 0; 0; 0; 0; 4; 0; 0; 0; 0xe0; 0xfe; 0; 0; 0; 0] ++
  ([0; 0; 20; 3] ++ replicate 16 0) ++ ([0; 1; 20; 1] ++ replicate 16 0) ++ [1; 0; 73; 83; 65; 32; 32; 32] ++ [2; 2; 17; 1; 0; 0; 0xc0; 0xfe].
Definition ex_mem (a : Z) : Z :=
  if (0x800F0000 <=? a) && (a <? 0x800F0010) then ex_mp !!! Z.to_nat (a - 0x800F0000)
  else if (0x80001000 <=? a) && (a <? 0x80001064) then ex_conf !!! Z.to_nat (a - 0x80001000)
  else 0.

Lemma mpinit_counts_witness : exists s, mpinit ex_mem 5 mps0 = Ret s true /\
  ismp s = true /\ ncpu s = 2%nat /\ take 2 (cpu_ids s) = [0; 1] /\ bcpu s = 0%nat /\ lapic s = 0xfee00000 /\ ioapicid s = 2.
Proof.
  destruct (mpinit_counts ex_mem 0x800F0000 0x80001000 [Proc 0 3; Proc 1 1; Other 1; Ioapic 2] 5) as (s & R & H).
  - vm_compute. reflexivity.
  - lia.
  - vm_compute. reflexivity.
  - cbn [table entry_at size_of]. split; [vm_compute; split; [reflexivity|split; reflexivity]|]. split; [vm_compute; split; [reflexivity|split; reflexivity]|].
    split; [split; [vm_compute; reflexivity|left]|]. split; [vm_compute; split; reflexivity|]. vm_compute. reflexivity.
  - cbn. unfold NCPU. lia.
  - cbn. lia.
  - exists s. split; [exact R|]. exact H.
Defined.
