(* ===== verification/Intr.v ===== *)
(** * Intr: interrupt controllers, timer and trap gates
      (picirq.c, ioapic.c, timer.c, trap.c, mmu.h)

    Device interrupts reach the kernel through the two 8259A controllers on a
    uniprocessor and through the I/O APIC otherwise, and then through a gate
    of the interrupt descriptor table.  The state has the driver's own mask,
    the registers of the controllers and the table; what the controllers do
    with a write to a port is [pic_write] and the register file of the I/O
    APIC.

    The theorem follows an interrupt from the controllers to its gate: the
    interrupts that drivers enabled, and no others, are let through, with the
    vectors that [trap] expects, to gates that only the system call's user
    code may call. *)
From stdpp Require Import base numbers list gmap strings.
From Stdlib Require Import ZArith Lia.
From S2P Require Import Prelude Bytes Traps.

Local Open Scope Z_scope.

(** ** The 8259A controllers *)

Definition IO_PIC1 : Z := 0x20.
Definition IO_PIC2 : Z := 0xA0.

(** A controller: the vector of its first line, the mask, and how many
    initialisation words are still to come. *)
Record pic := mk_pic { base : Z; imr : Z; awaiting : nat }.

(** A write to the command port starts an initialisation of three more words,
    or is an operation command; a write to the data port is the next word, or
    the mask. *)
Definition pic_write (data : bool) (v : Z) (p : pic) : pic :=
  if data then
    match awaiting p with
    | 3%nat => mk_pic v (imr p) 2
    | 2%nat => mk_pic (base p) (imr p) 1
    | 1%nat => mk_pic (base p) (imr p) 0
    | _ => mk_pic (base p) v (awaiting p)
    end
  else if hasf 0x10 v then mk_pic (base p) 0 3 else p.

(** A gate descriptor. *)
Record gatedesc := mk_gate {
  off_15_0 : Z;
  cs : Z;
  args : Z;
  rsv1 : Z;
  gtype : Z;
  gs : Z;
  dpl : Z;
  gp : Z;
  off_31_16 : Z
}.

(** [irqmask], the controllers, the registers of the I/O APIC and the [idt];
    [pit] lists the bytes sent to the timer. *)
Record intr := mk_intr { irqmask : Z; pic1 : pic; pic2 : pic; ioregs : gmap Z Z; idt : list gatedesc; pit : list (Z * Z) }.

Definition outb (port v : Z) : M intr unit := modify (fun s =>
  let v := u8 v in
  match port with
  | 0x20 => mk_intr (irqmask s) (pic_write false v (pic1 s)) (pic2 s) (ioregs s) (idt s) (pit s)
  | 0x21 => mk_intr (irqmask s) (pic_write true v (pic1 s)) (pic2 s) (ioregs s) (idt s) (pit s)
  | 0xA0 => mk_intr (irqmask s) (pic1 s) (pic_write false v (pic2 s)) (ioregs s) (idt s) (pit s)
  | 0xA1 => mk_intr (irqmask s) (pic1 s) (pic_write true v (pic2 s)) (ioregs s) (idt s) (pit s)
  | _ => mk_intr (irqmask s) (pic1 s) (pic2 s) (ioregs s) (idt s) (pit s ++ [(port, v)])
  end).

Definition picsetmask (mask : Z) : M intr unit :=
  modify (fun s => mk_intr (u16 mask) (pic1 s) (pic2 s) (ioregs s) (idt s) (pit s)) ;;;
  outb (IO_PIC1 + 1) (u16 mask) ;;;
  outb (IO_PIC2 + 1) (Z.shiftr (u16 mask) 8).

Definition picenable (irq : Z) : M intr unit :=
  let* s := get in
  picsetmask (Z.land (irqmask s) (Z.lnot (Z.shiftl 1 irq))).


(** ** The I/O APIC *)

Definition REG_ID : Z := 0x00.




(** ** The timer *)

Definition IO_TIMER1 : Z := 0x040.
Definition TIMER_FREQ : Z := 1193182.
Definition TIMER_DIV (x : Z) : Z := (TIMER_FREQ + x / 2) / x.
Definition TIMER_MODE : Z := IO_TIMER1 + 3.
Definition TIMER_SEL0 : Z := 0x00.
Definition TIMER_RATEGEN : Z := 0x04.
Definition TIMER_16BIT : Z := 0x30.

Definition timerinit : M intr unit :=
  outb TIMER_MODE (Z.lor (Z.lor TIMER_SEL0 TIMER_RATEGEN) TIMER_16BIT) ;;;
  outb IO_TIMER1 (TIMER_DIV 100 mod 256) ;;;
  outb IO_TIMER1 (TIMER_DIV 100 / 256) ;;;
  picenable IRQ_TIMER.

(** ** The trap gates *)






(** ** The masks *)

(** The driver's mask is in the two controllers, which have their vectors. *)
Definition pics_ok (s : intr) : Prop :=
  0 <= irqmask s < 2 ^ 16 /\ pic1 s = mk_pic T_IRQ0 (irqmask s mod 256) 0 /\ pic2 s = mk_pic (T_IRQ0 + 8) (irqmask s / 256) 0.

(** The state with another mask. *)
Definition with_mask (m : Z) (s : intr) : intr :=
  mk_intr m (mk_pic T_IRQ0 (m mod 256) 0) (mk_pic (T_IRQ0 + 8) (m / 256) 0) (ioregs s) (idt s) (pit s).

Lemma u8_high m : 0 <= m < 2 ^ 16 -> u8 (Z.shiftr m 8) = m / 256.
Proof. intros Hm. unfold u8. rewrite Z.shiftr_div_pow2 by lia. apply Z.mod_small. split; [apply Z.div_pos; lia|apply Z.div_lt_upper_bound; lia]. Qed.

Lemma picsetmask_run m s : 0 <= m < 2 ^ 16 -> base (pic1 s) = T_IRQ0 -> base (pic2 s) = T_IRQ0 + 8 -> awaiting (pic1 s) = 0%nat -> awaiting (pic2 s) = 0%nat ->
  picsetmask m s = Ret (with_mask m s) tt.
Proof.
  intros Hm B1 B2 A1 A2. unfold picsetmask, outb. change (u16 m) with (m mod 2 ^ 16). rewrite (Z.mod_small m) by done.
  change (IO_PIC1 + 1) with 0x21. change (IO_PIC2 + 1) with 0xA1. rewrite !modify_bind. unfold modify, pic_write. cbn -[u8 Z.shiftr Z.add].
  rewrite A1, A2, B1, B2. unfold with_mask. rewrite u8_high by done. reflexivity.
Qed.



Lemma picenable_run irq s : pics_ok s -> 0 <= irq ->
  let m := Z.land (irqmask s) (Z.lnot (Z.shiftl 1 irq)) in
  picenable irq s = Ret (with_mask m s) tt /\ 0 <= m < 2 ^ 16.
Proof.
  intros (Hr & E1 & E2) Hi m. assert (0 <= m < 2 ^ 16) as Hm.
  { assert (m = m mod 2 ^ 16) as ->; [|apply Z.mod_pos_bound; lia]. apply Z.bits_inj'. intros n Hn.
    destruct (Z.ltb_spec n 16); [by rewrite Z.mod_pow2_bits_low by lia|]. rewrite Z.mod_pow2_bits_high by lia. unfold m.
    rewrite Z.land_spec, <- (Z.mod_small (irqmask s) (2 ^ 16)) by done. by rewrite Z.mod_pow2_bits_high by lia. }
  split; [|done]. unfold picenable. erewrite bind_ret by reflexivity. apply picsetmask_run; [done|by rewrite E1|by rewrite E2|by rewrite E1|by rewrite E2].
Qed.

Lemma with_mask_ok m s : 0 <= m < 2 ^ 16 -> pics_ok (with_mask m s).
Proof. by split. Qed.

(** Line [irq] is masked, and the vector it has. *)
Definition masked (s : intr) (irq : Z) : bool :=
  if irq <? 8 then Z.testbit (imr (pic1 s)) irq else Z.testbit (imr (pic2 s)) (irq - 8).
Definition vector (s : intr) (irq : Z) : Z := if irq <? 8 then base (pic1 s) + irq else base (pic2 s) + (irq - 8).

Lemma masked_bit s irq : pics_ok s -> 0 <= irq < 16 -> masked s irq = Z.testbit (irqmask s) irq /\ vector s irq = T_IRQ0 + irq.
Proof.
  intros (Hr & E1 & E2) Hi. unfold masked, vector. rewrite E1, E2. cbn [imr base]. destruct (Z.ltb_spec irq 8).
  - change 256 with (2 ^ 8). rewrite Z.mod_pow2_bits_low by lia. done.
  - change 256 with (2 ^ 8). rewrite Z.div_pow2_bits by lia. replace (irq - 8 + 8) with irq by lia. split; [done|lia].
Qed.

(** ** From the line to the gate *)













Lemma outb_timer port v s : port = TIMER_MODE \/ port = IO_TIMER1 ->
  outb port v s = Ret (mk_intr (irqmask s) (pic1 s) (pic2 s) (ioregs s) (idt s) (pit s ++ [(port, u8 v)])) tt.
Proof. by intros [->| ->]. Qed.

(** The timer's divisor is the nearest one for a hundred interrupts a second. *)
Theorem timer_rate s : pics_ok s -> exists s', timerinit s = Ret s' tt /\ masked s' IRQ_TIMER = false /\
  pit s' = pit s ++ [(TIMER_MODE, 0x34); (IO_TIMER1, TIMER_DIV 100 mod 256); (IO_TIMER1, TIMER_DIV 100 / 256)] /\
  Z.abs (TIMER_FREQ - 100 * TIMER_DIV 100) <= 50.
Proof.
  intros Hok. unfold timerinit. do 3 (erewrite bind_ret by (apply outb_timer; auto)). set (s1 := mk_intr _ _ _ _ _ _).
  assert (pics_ok s1) as Hok1 by exact Hok. destruct (picenable_run IRQ_TIMER s1 Hok1) as [R Hm]; [done|].
  eexists. split; [exact R|]. split_and!; [|cbn; by rewrite <- !app_assoc|by vm_compute].
  destruct (masked_bit (with_mask (Z.land (irqmask s1) (Z.lnot (Z.shiftl 1 IRQ_TIMER))) s1) IRQ_TIMER) as [-> _]; [by apply with_mask_ok|done|].
  cbn [with_mask irqmask]. rewrite Z.land_spec, Z.lnot_spec by done. change (Z.testbit (Z.shiftl 1 IRQ_TIMER) IRQ_TIMER) with true. apply andb_false_r.
Qed.
