(* ===== verification/Seg.v ===== *)
(** * Seg: segments and the task state (vm.c, mmu.h)

    [seginit] fills the descriptor table of a processor and [switchuvm] its
    task state before a process runs.  The theorem says what the processor
    reads in the table: flat kernel and user segments, the per-processor
    variables at [%gs], and a task state that sends interrupts of user code to
    the kernel stack of the process. *)
From stdpp Require Import base numbers list strings.
From Stdlib Require Import ZArith Lia.
From S2P Require Import Prelude Bytes Kalloc Proc.

Local Open Scope Z_scope.

Definition SEG_KCODE : nat := 1.
Definition SEG_KDATA : nat := 2.
Definition SEG_KCPU : nat := 3.
Definition SEG_UCODE : nat := 4.
Definition SEG_UDATA : nat := 5.
Definition SEG_TSS : nat := 6.
Definition NSEGS : nat := 7.
Definition DPL_USER : Z := 3.
Definition STA_X : Z := 0x8.
Definition STA_W : Z := 0x2.
Definition STA_R : Z := 0x2.
Definition STS_T32A : Z := 0x9.
Definition sizeof_taskstate : Z := 104.

Record segdesc := mk_seg {
  lim_15_0 : Z; base_15_0 : Z; base_23_16 : Z; stype : Z; s : Z; dpl : Z; p : Z;
  lim_19_16 : Z; avl : Z; rsv1 : Z; db : Z; g : Z; base_31_24 : Z
}.

Definition SEG (type base lim dpl : Z) : segdesc :=
  mk_seg (Z.land (Z.shiftr lim 12) 0xffff) (Z.land (u32 base) 0xffff) (Z.land (Z.shiftr (u32 base) 16) 0xff) type 1 dpl 1
    (Z.shiftr (u32 lim) 28) 0 0 1 1 (Z.shiftr (u32 base) 24).
Definition SEG16 (type base lim dpl : Z) : segdesc :=
  mk_seg (Z.land lim 0xffff) (Z.land (u32 base) 0xffff) (Z.land (Z.shiftr (u32 base) 16) 0xff) type 1 dpl 1
    (Z.shiftr (u32 lim) 16) 0 0 1 0 (Z.shiftr (u32 base) 24).
Definition clear_s (d : segdesc) : segdesc :=
  mk_seg (lim_15_0 d) (base_15_0 d) (base_23_16 d) (stype d) 0 (dpl d) (p d) (lim_19_16 d) (avl d) (rsv1 d) (db d) (g d) (base_31_24 d).

(** What the code of a processor keeps in its [struct cpu] and in registers. *)
Record cpu := mk_cpu { gdt : list segdesc; ss0 : Z; esp0 : Z; gs : Z; tr : Z; cr3 : Z; cpu_ptr : Z; proc_ptr : Z }.

(** [c], [c_cpu] and [c_ts]: the addresses of the [struct cpu] and of its
    members [cpu] and [ts]. *)
Definition seginit (c c_cpu : Z) : M cpu unit :=
  modify (fun st =>
    let t := gdt st in
    let t := <[SEG_KCODE := SEG (Z.lor STA_X STA_R) 0 0xffffffff 0]> t in
    let t := <[SEG_KDATA := SEG STA_W 0 0xffffffff 0]> t in
    let t := <[SEG_UCODE := SEG (Z.lor STA_X STA_R) 0 0xffffffff DPL_USER]> t in
    let t := <[SEG_UDATA := SEG STA_W 0 0xffffffff DPL_USER]> t in
    let t := <[SEG_KCPU := SEG STA_W c_cpu 8 0]> t in
    mk_cpu t (ss0 st) (esp0 st) (gs st) (tr st) (cr3 st) (cpu_ptr st) (proc_ptr st)) ;;;
  modify (fun st => mk_cpu (gdt st) (ss0 st) (esp0 st) (Z.of_nat SEG_KCPU * 8) (tr st) (cr3 st) c 0).

(** [kstack] is that of [proc], [pgdir] that of the argument. *)
Definition switchuvm (c_ts kstack pgdir : Z) : M cpu unit :=
  modify (fun st =>
    mk_cpu (<[SEG_TSS := clear_s (SEG16 STS_T32A c_ts (sizeof_taskstate - 1) 0)]> (gdt st))
      (Z.of_nat SEG_KDATA * 8) (u32 (kstack + KSTACKSIZE)) (gs st) (Z.of_nat SEG_TSS * 8) (cr3 st) (cpu_ptr st) (proc_ptr st)) ;;;
  if pgdir =? 0 then panic "switchuvm: no pgdir"
  else modify (fun st => mk_cpu (gdt st) (ss0 st) (esp0 st) (gs st) (tr st) (v2p pgdir) (cpu_ptr st) (proc_ptr st)).

Definition switchkvm (kpgdir : Z) : M cpu unit :=
  modify (fun st => mk_cpu (gdt st) (ss0 st) (esp0 st) (gs st) (tr st) (v2p kpgdir) (cpu_ptr st) (proc_ptr st)).

(** ** What the processor reads *)

Definition seg_bits (d : segdesc) : Z :=
  lim_15_0 d + 2 ^ 16 * (base_15_0 d + 2 ^ 16 * (base_23_16 d + 2 ^ 8 * (stype d + 2 ^ 4 * (s d + 2 ^ 1 * (dpl d + 2 ^ 2 * (p d + 2 ^ 1 *
    (lim_19_16 d + 2 ^ 4 * (avl d + 2 ^ 1 * (rsv1 d + 2 ^ 1 * (db d + 2 ^ 1 * (g d + 2 ^ 1 * base_31_24 d))))))))))).

(** Where a segment starts, its last offset, the four bits of its type and
    the system bit, and its privilege level; [None] when it is not present. *)
Record segment := mk_segment { start : Z; last_offset : Z; attributes : Z; privilege : Z }.
Definition seg_decode (w : Z) : option segment :=
  let lim := w mod 2 ^ 16 + 2 ^ 16 * ((w / 2 ^ 48) mod 2 ^ 4) in
  if Z.testbit w 47 then
    Some (mk_segment ((w / 2 ^ 16) mod 2 ^ 24 + 2 ^ 24 * ((w / 2 ^ 56) mod 2 ^ 8)) (if Z.testbit w 55 then lim * 4096 + 4095 else lim)
      ((w / 2 ^ 40) mod 2 ^ 5) ((w / 2 ^ 45) mod 4))
  else None.
Definition seg_at (t : list segdesc) (i : nat) : option segment := d ← t !! i; seg_decode (seg_bits d).

(** The base is spread over three fields; the rest of the descriptor is [lo], [mid] and [hi]. *)
Lemma base_decode base lo mid hi : is_u32 base -> 0 <= lo < 2 ^ 16 -> 0 <= mid < 2 ^ 8 -> 0 <= hi < 2 ^ 8 ->
  let w := lo + 2 ^ 16 * (Z.land base 0xffff + 2 ^ 16 * (Z.land (Z.shiftr base 16) 0xff + 2 ^ 8 * (mid + 2 ^ 8 * (hi + 2 ^ 8 * Z.shiftr base 24)))) in
  (w / 2 ^ 16) mod 2 ^ 24 + 2 ^ 24 * ((w / 2 ^ 56) mod 2 ^ 8) = base /\ w mod 2 ^ 16 = lo /\ (w / 2 ^ 40) mod 2 ^ 8 = mid /\ (w / 2 ^ 48) mod 2 ^ 8 = hi.
Proof.
  intros Hb Hlo Hmid Hhi w. unfold is_u32 in Hb. change 0xffff with (Z.ones 16) in w. change 0xff with (Z.ones 8) in w. unfold w. clear w.
  rewrite !Z.land_ones, !Z.shiftr_div_pow2 by lia. set (b0 := base mod 2 ^ 16). set (b1 := (base / 2 ^ 16) mod 2 ^ 8). set (b2 := base / 2 ^ 24).
  assert (base = b0 + 2 ^ 16 * b1 + 2 ^ 24 * b2) as Eb.
  { unfold b0, b1, b2. pose proof (Z.div_mod base (2 ^ 16) ltac:(lia)). pose proof (Z.div_mod (base / 2 ^ 16) (2 ^ 8) ltac:(lia)).
    assert (base / 2 ^ 24 = base / 2 ^ 16 / 2 ^ 8) by (by rewrite Z.div_div by lia). lia. }
  assert (0 <= b0 < 2 ^ 16) by (apply Z.mod_pos_bound; lia). assert (0 <= b1 < 2 ^ 8) by (apply Z.mod_pos_bound; lia).
  assert (0 <= b2 < 2 ^ 8) by (split; [apply Z.div_pos; lia|apply Z.div_lt_upper_bound; lia]). clearbody b0 b1 b2.
  set (w := lo + _). assert (w = lo + 2 ^ 16 * (b0 + 2 ^ 16 * b1) + 2 ^ 40 * mid + 2 ^ 48 * hi + 2 ^ 56 * b2) as Ew by (unfold w; lia). clearbody w.
  assert (forall k low high m, 0 < k -> 0 < m -> 0 <= low < k -> w = low + k * high -> (w / k) mod m = high mod m) as Hdiv.
  { intros k low high m Hk Hm Hlow ->. rewrite Z.mul_comm, Z.div_add by lia. rewrite Z.div_small by lia. done. }
  assert (forall x y m, 0 < m -> 0 <= x < m -> (x + m * y) mod m = x) as Hmod.
  { intros x y m Hm Hx. rewrite Z.mul_comm, Z.mod_add by lia. by apply Z.mod_small. }
  rewrite (Hdiv (2 ^ 16) lo (b0 + 2 ^ 16 * b1 + 2 ^ 24 * (mid + 2 ^ 8 * hi + 2 ^ 16 * b2))) by lia.
  rewrite (Hdiv (2 ^ 56) (lo + 2 ^ 16 * (b0 + 2 ^ 16 * b1) + 2 ^ 40 * mid + 2 ^ 48 * hi) b2) by lia.
  rewrite (Hdiv (2 ^ 40) (lo + 2 ^ 16 * (b0 + 2 ^ 16 * b1)) (mid + 2 ^ 8 * (hi + 2 ^ 8 * b2))) by lia.
  rewrite (Hdiv (2 ^ 48) (lo + 2 ^ 16 * (b0 + 2 ^ 16 * b1) + 2 ^ 40 * mid) (hi + 2 ^ 8 * b2)) by lia.
  rewrite !Hmod by lia. rewrite (Z.mod_small b2) by lia. split; [lia|]. split; [|done].
  replace w with (lo + 2 ^ 16 * (b0 + 2 ^ 16 * b1 + 2 ^ 24 * mid + 2 ^ 32 * hi + 2 ^ 40 * b2)) by lia. by apply Hmod.
Qed.

Lemma seg_decode_parts w base lo mid hi :
  (w / 2 ^ 16) mod 2 ^ 24 + 2 ^ 24 * ((w / 2 ^ 56) mod 2 ^ 8) = base -> w mod 2 ^ 16 = lo -> (w / 2 ^ 40) mod 2 ^ 8 = mid -> (w / 2 ^ 48) mod 2 ^ 8 = hi ->
  seg_decode w = if Z.testbit mid 7 then Some (mk_segment base (let lim := lo + 2 ^ 16 * (hi mod 2 ^ 4) in if Z.testbit hi 7 then lim * 4096 + 4095 else lim)
                                                 (mid mod 2 ^ 5) ((mid / 2 ^ 5) mod 4)) else None.
Proof.
  intros Hb Hlo Hmid Hhi. unfold seg_decode. rewrite Hb, Hlo.
  assert (forall x n m, 0 < n -> 0 < m -> (x mod (n * m)) mod n = x mod n) as Hmm.
  { intros x n m Hn Hm. rewrite Z.rem_mul_r by lia. rewrite Z.mul_comm, Z.mod_add by lia. apply Z.mod_mod. lia. }
  assert ((w / 2 ^ 40) mod 2 ^ 5 = mid mod 2 ^ 5) as -> by (rewrite <- Hmid; symmetry; by apply (Hmm _ (2 ^ 5) (2 ^ 3))).
  assert ((w / 2 ^ 48) mod 2 ^ 4 = hi mod 2 ^ 4) as -> by (rewrite <- Hhi; symmetry; by apply (Hmm _ (2 ^ 4) (2 ^ 4))).
  assert ((w / 2 ^ 45) mod 4 = (mid / 2 ^ 5) mod 4) as ->.
  { rewrite <- Hmid. replace (w / 2 ^ 45) with (w / 2 ^ 40 / 2 ^ 5) by (by rewrite Z.div_div by lia). generalize (w / 2 ^ 40). intros x.
    rewrite (Z.div_mod x (2 ^ 8)) at 1 by lia. replace (2 ^ 8 * (x / 2 ^ 8) + x mod 2 ^ 8) with (x mod 2 ^ 8 + 8 * (x / 2 ^ 8) * 2 ^ 5) by lia.
    rewrite Z.div_add by lia. replace (8 * (x / 2 ^ 8)) with (2 * (x / 2 ^ 8) * 4) by lia. by rewrite Z.mod_add by lia. }
  assert (Z.testbit w 47 = Z.testbit mid 7) as -> by (rewrite <- Hmid, Z.mod_pow2_bits_low, Z.div_pow2_bits by lia; done).
  assert (Z.testbit w 55 = Z.testbit hi 7) as -> by (rewrite <- Hhi, Z.mod_pow2_bits_low, Z.div_pow2_bits by lia; done).
  done.
Qed.

(** A descriptor with the fields of [SEG] or [SEG16]. *)
Lemma decode_fields base d mid hi : is_u32 base ->
  base_15_0 d = Z.land base 0xffff -> base_23_16 d = Z.land (Z.shiftr base 16) 0xff -> base_31_24 d = Z.shiftr base 24 -> 0 <= lim_15_0 d < 2 ^ 16 ->
  mid = stype d + 2 ^ 4 * s d + 2 ^ 5 * dpl d + 2 ^ 7 * p d -> hi = lim_19_16 d + 2 ^ 4 * avl d + 2 ^ 5 * rsv1 d + 2 ^ 6 * db d + 2 ^ 7 * g d ->
  0 <= mid < 2 ^ 8 -> 0 <= hi < 2 ^ 8 ->
  seg_decode (seg_bits d) = if Z.testbit mid 7 then Some (mk_segment base (let lim := lim_15_0 d + 2 ^ 16 * (hi mod 2 ^ 4) in if Z.testbit hi 7 then lim * 4096 + 4095 else lim)
                                                            (mid mod 2 ^ 5) ((mid / 2 ^ 5) mod 4)) else None.
Proof.
  intros Hb E1 E2 E3 Hlo Em Eh Hm Hh. destruct (base_decode base (lim_15_0 d) mid hi Hb Hlo Hm Hh) as (D1 & D2 & D3 & D4).
  rewrite <- (seg_decode_parts _ base (lim_15_0 d) mid hi D1 D2 D3 D4). f_equal. unfold seg_bits. rewrite E1, E2, E3. lia.
Qed.

Definition flat (attr priv : Z) : segment := mk_segment 0 (2 ^ 32 - 1) attr priv.

(** After [seginit] and [switchuvm] the processor reads: flat code and data
    segments of the kernel and, with user privilege, of the process; the
    variables [cpu] and [proc] of this processor at the start of the segment
    in [%gs]; an available task state of 104 bytes, a system segment that user
    code cannot load.  An interrupt of user code is served on the stack
    segment of the kernel, from the top of the process's kernel stack on. *)
Theorem segments_read c c_cpu c_ts kstack pgdir st : length (gdt st) = NSEGS -> is_u32 c_cpu -> is_u32 c_ts -> pgdir <> 0 ->
  exists st', (seginit c c_cpu ;;; switchuvm c_ts kstack pgdir) st = Ret st' tt /\
    seg_at (gdt st') SEG_KCODE = Some (flat 0x1A 0) /\ seg_at (gdt st') SEG_KDATA = Some (flat 0x12 0) /\
    seg_at (gdt st') SEG_UCODE = Some (flat 0x1A 3) /\ seg_at (gdt st') SEG_UDATA = Some (flat 0x12 3) /\
    seg_at (gdt st') (Z.to_nat (gs st' / 8)) = Some (mk_segment c_cpu 4095 0x12 0) /\
    seg_at (gdt st') (Z.to_nat (tr st' / 8)) = Some (mk_segment c_ts 103 0x09 0) /\
    seg_at (gdt st') (Z.to_nat (ss0 st' / 8)) = Some (flat 0x12 0) /\
    esp0 st' = u32 (kstack + KSTACKSIZE) /\ cr3 st' = v2p pgdir /\ cpu_ptr st' = c /\ proc_ptr st' = 0.
Proof.
  intros Hlen Hcpu Hts Hpg. unfold seginit, switchuvm. destruct st as [t ss es gs_ tr_ cr cp pp]. cbn [gdt] in Hlen.
  do 7 (destruct t as [|? t]; [done|]). destruct t; [|done]. unfold modify, bind. rewrite (proj2 (Z.eqb_neq _ _)) by done.
  eexists. split; [reflexivity|]. cbn [gdt gs tr ss0 esp0 cr3 cpu_ptr proc_ptr].
  split; [by vm_compute|]. split; [by vm_compute|]. split; [by vm_compute|]. split; [by vm_compute|]. split; [|split; [|split; [by vm_compute|done]]].
  - change (seg_decode (seg_bits (SEG STA_W c_cpu 8 0)) = Some (mk_segment c_cpu 4095 0x12 0)).
    rewrite (decode_fields c_cpu _ 0x92 0xC0); [done|done| | | |done|done|done|done|done]; cbn [SEG base_15_0 base_23_16 base_31_24]; by rewrite u32_small.
  - change (seg_decode (seg_bits (clear_s (SEG16 STS_T32A c_ts (sizeof_taskstate - 1) 0))) = Some (mk_segment c_ts 103 0x09 0)).
    rewrite (decode_fields c_ts _ 0x89 0x40); [done|done| | | |done|done|done|done|done]; cbn [SEG16 clear_s base_15_0 base_23_16 base_31_24]; by rewrite u32_small.
Qed.
