(* ===== verification/Cpus.v ===== *)
(** * Cpus: the local APIC and the start of the other processors
      (lapic.c, main.c)

    [startothers] hands each processor a stack, an entry point and a page
    directory through three words below the entry code at [0x7000], and wakes
    it with interrupts that its local APIC sends.  The state has the kernel's
    memory and free pages, the registers of the local APIC and what each
    processor does; [receive] is what a processor does with such an
    interrupt, and the words it reads when it starts are those entryother.S
    reads. *)
From stdpp Require Import base numbers list gmap strings.
From Stdlib Require Import ZArith Lia.
From S2P Require Import Prelude Bytes Traps Kalloc Vm Proc.

Local Open Scope Z_scope.

(** ** The local APIC *)

Definition ID : Z := 0x0020 / 4.
Definition VER : Z := 0x0030 / 4.
Definition TPR : Z := 0x0080 / 4.
Definition EOI : Z := 0x00B0 / 4.
Definition SVR : Z := 0x00F0 / 4.
Definition ENABLE : Z := 0x00000100.
Definition ESR : Z := 0x0280 / 4.
Definition ICRLO : Z := 0x0300 / 4.
Definition INIT : Z := 0x00000500.
Definition STARTUP : Z := 0x00000600.
Definition ASSERT : Z := 0x00004000.
Definition LEVEL : Z := 0x00008000.
Definition BCAST : Z := 0x00080000.
Definition ICRHI : Z := 0x0310 / 4.
Definition TIMER : Z := 0x0320 / 4.
Definition X1 : Z := 0x0000000B.
Definition PERIODIC : Z := 0x00020000.
Definition PCINT : Z := 0x0340 / 4.
Definition LINT0 : Z := 0x0350 / 4.
Definition LINT1 : Z := 0x0360 / 4.
Definition ERROR : Z := 0x0370 / 4.
Definition MASKED : Z := 0x00010000.
Definition TICR : Z := 0x0380 / 4.
Definition TDCR : Z := 0x03E0 / 4.
Definition CMOS_PORT : Z := 0x70.

(** A processor: not started, reset by INIT, or running the code at [addr]
    with what it found below it. *)
Inductive ap :=
| Off
| Reset_
| Up (addr stack entry pgdir : Z).

(** [present]: whether [lapic] is set; [ports]: the bytes sent to ports. *)
Record machine := mk_machine { km : kmem; present : bool; lregs : gmap Z Z; aps : list ap; ports : list (Z * Z) }.
Definition set_km (k : kmem) (s : machine) : machine := mk_machine k (present s) (lregs s) (aps s) (ports s).
Definition inkmem {A} (m : M kmem A) : M machine A := zoom km set_km m.

(** What processors do with the interrupt of a write [lo] to the command
    register: INIT resets, when it is asserted; STARTUP starts a processor
    that is reset, at the page whose number it carries, and is ignored by
    others. *)
Definition startup_code (m : ram) (lo : Z) : ap :=
  let addr := Z.shiftl (Z.land lo 0xff) 12 in
  Up addr (load32 (u32 (p2v addr - 4)) m) (load32 (u32 (p2v addr - 8)) m) (load32 (u32 (p2v addr - 12)) m).
Definition receive (m : ram) (lo : Z) (a : ap) : ap :=
  if (Z.land lo 0x700 =? INIT) && hasf ASSERT lo then Reset_
  else if Z.land lo 0x700 =? STARTUP then match a with Reset_ => startup_code m lo | _ => a end
  else a.
Definition send (hi lo : Z) (s : machine) : machine :=
  mk_machine (km s) (present s) (lregs s)
    (if hasf BCAST lo then receive (mem (km s)) lo <$> aps s else alter (receive (mem (km s)) lo) (Z.to_nat (Z.shiftr hi 24)) (aps s)) (ports s).

Definition lapic_read (index : Z) : M machine Z := gets (fun s => default 0 (lregs s !! index)).
Definition lapicw (index value : Z) : M machine unit :=
  modify (fun s => mk_machine (km s) (present s) (<[index := u32 value]> (lregs s)) (aps s) (ports s)) ;;;
  whenM (index =? ICRLO) (let* hi := lapic_read ICRHI in modify (send hi (u32 value))).
Definition outb (port v : Z) : M machine unit :=
  modify (fun s => mk_machine (km s) (present s) (lregs s) (aps s) (ports s ++ [(port, u8 v)])).

(** The loop that waits for the delivery ends when the APIC has sent the message. *)
Definition lapicinit : M machine unit :=
  let* p := gets present in
  whenM p
    (lapicw SVR (Z.lor ENABLE (T_IRQ0 + IRQ_SPURIOUS)) ;;;
     lapicw TDCR X1 ;;;
     lapicw TIMER (Z.lor PERIODIC (T_IRQ0 + IRQ_TIMER)) ;;;
     lapicw TICR 10000000 ;;;
     lapicw LINT0 MASKED ;;;
     lapicw LINT1 MASKED ;;;
     (let* v := lapic_read VER in
      whenM (4 <=? Z.land (Z.shiftr v 16) 0xFF) (lapicw PCINT MASKED)) ;;;
     lapicw ERROR (T_IRQ0 + IRQ_ERROR) ;;;
     lapicw ESR 0 ;;;
     lapicw ESR 0 ;;;
     lapicw EOI 0 ;;;
     lapicw ICRHI 0 ;;;
     lapicw ICRLO (Z.lor (Z.lor BCAST INIT) LEVEL) ;;;
     lapicw TPR 0).

Definition cpunum : M machine Z :=
  let* p := gets present in
  if p then let* v := lapic_read ID in ret (Z.shiftr v 24) else ret 0.

Definition lapiceoi : M machine unit :=
  let* p := gets present in whenM p (lapicw EOI 0).

Definition store16 (a v : Z) (m : ram) : ram := store_bytes a (le_bytes 2 v) m.

Definition lapicstartap (apicid addr : Z) : M machine unit :=
  outb CMOS_PORT 0xF ;;;
  outb (CMOS_PORT + 1) 0x0A ;;;
  let wrv := p2v (Z.lor (Z.shiftl 0x40 4) 0x67) in
  inkmem (modify (upd_mem (store16 wrv 0))) ;;;
  inkmem (modify (upd_mem (store16 (wrv + 2) (Z.shiftr addr 4)))) ;;;
  lapicw ICRHI (Z.shiftl apicid 24) ;;;
  lapicw ICRLO (Z.lor (Z.lor INIT LEVEL) ASSERT) ;;;
  lapicw ICRLO (Z.lor INIT LEVEL) ;;;
  for_M 0 2 (fun _ =>
    lapicw ICRHI (Z.shiftl apicid 24) ;;;
    lapicw ICRLO (Z.lor STARTUP (Z.shiftr addr 12))).

(** ** Starting the others *)

Section start.
(** The image of entryother.S, the addresses of [mpenter] and [entrypgdir],
    and the [id]s of the [ncpu] processors in [cpus]. *)
Context (entryother : list Z) (mpenter entrypgdir : Z) (ids : list Z).

Definition code : Z := p2v 0x7000.

(** The wait for [c->started] does not end when the processor has not started. *)
Definition start_cpu (c : nat) : M machine unit :=
  let* n := cpunum in
  if Z.of_nat c =? n then ret tt
  else
    let* stack := inkmem kalloc in
    inkmem (modify (upd_mem (store32 (code - 4) (u32 (stack + KSTACKSIZE))))) ;;;
    inkmem (modify (upd_mem (store32 (code - 8) mpenter))) ;;;
    inkmem (modify (upd_mem (store32 (code - 12) (v2p entrypgdir)))) ;;;
    let* id := from_opt (ids !! c) in
    lapicstartap id (v2p code) ;;;
    let* l := gets aps in
    match l !! c with Some (Up _ _ _ _) => ret tt | _ => fault end.

Definition startothers : M machine unit :=
  inkmem (modify (upd_mem (store_bytes code entryother))) ;;;
  for_M 0 (length ids) start_cpu.
End start.

(** ** Sending interrupts *)

Definition wreg (i v : Z) (s : machine) : machine := mk_machine (km s) (present s) (<[i := u32 v]> (lregs s)) (aps s) (ports s).

Lemma lapicw_run i v s : i <> ICRLO -> lapicw i v s = Ret (wreg i v s) tt.
Proof. intros Hi. unfold lapicw. rewrite modify_bind. by rewrite (proj2 (Z.eqb_neq _ _)) by done. Qed.
Lemma lapicw_send v s hi : lregs s !! ICRHI = Some hi -> lapicw ICRLO v s = Ret (send hi (u32 v) (wreg ICRLO v s)) tt.
Proof.
  intros Hhi. unfold lapicw, lapic_read. rewrite modify_bind, Z.eqb_refl. cbn [whenM]. rewrite gets_bind. cbn [lregs].
  by rewrite lookup_insert_ne, Hhi by done.
Qed.

Lemma dest_id c : (c < 256)%nat -> Z.to_nat (Z.shiftr (u32 (Z.shiftl (Z.of_nat c) 24)) 24) = c.
Proof.
  intros Hc. rewrite Z.shiftl_mul_pow2, Z.shiftr_div_pow2 by lia. rewrite u32_small by (unfold is_u32; lia). rewrite Z.div_mul by lia. lia.
Qed.

(** One processor is started at [0x7000]; the second STARTUP does nothing. *)
Lemma lapicstartap_law s c a : (c < 256)%nat -> aps s !! c = Some a ->
  let wrv := p2v 0x467 in let k' := upd_mem (store16 (wrv + 2) 0x700) (upd_mem (store16 wrv 0) (km s)) in
  exists s', lapicstartap (Z.of_nat c) 0x7000 s = Ret s' tt /\ km s' = k' /\ present s' = present s /\
    lregs s' !! ID = lregs s !! ID /\ aps s' = <[c := startup_code (mem k') 0x607]> (aps s).
Proof.
  intros Hc Ha wrv k'. unfold lapicstartap, outb. rewrite !modify_bind. change (p2v (Z.lor (Z.shiftl 0x40 4) 0x67)) with wrv.
  set (s0 := mk_machine _ _ _ _ _). set (s1 := set_km k' s0).
  assert (inkmem (modify (upd_mem (store16 wrv 0))) s0 = Ret (set_km (upd_mem (store16 wrv 0) (km s)) s0) tt) as R1 by done. mrun R1. clear R1.
  assert (inkmem (modify (upd_mem (store16 (wrv + 2) (Z.shiftr 0x7000 4)))) (set_km (upd_mem (store16 wrv 0) (km s)) s0) = Ret s1 tt) as R2 by done. mrun R2. clear R2.
  set (hi := Z.shiftl (Z.of_nat c) 24). mrun (lapicw_run ICRHI hi s1 ltac:(done)). set (s2 := wreg ICRHI hi s1).
  assert (lregs s2 !! ICRHI = Some (u32 hi)) as H2 by apply lookup_insert_eq.
  mrun (lapicw_send (Z.lor (Z.lor INIT LEVEL) ASSERT) s2 (u32 hi) H2). set (s3 := send _ _ _).
  assert (lregs s3 !! ICRHI = Some (u32 hi)) as H3 by (unfold s3; cbn; by rewrite lookup_insert_ne).
  mrun (lapicw_send (Z.lor INIT LEVEL) s3 (u32 hi) H3). set (s4 := send _ _ _).
  assert (exists s5, (lapicw ICRHI hi ;;; lapicw ICRLO (Z.lor STARTUP (Z.shiftr 0x7000 12))) s4 = Ret s5 tt /\ s5 = send (u32 hi) 0x607 (wreg ICRLO 0x607 (wreg ICRHI hi s4))) as (s5 & R5 & E5).
  { eexists. split; [|reflexivity]. mrun (lapicw_run ICRHI hi s4 ltac:(done)). apply lapicw_send, lookup_insert_eq. }
  assert (exists s6, (lapicw ICRHI hi ;;; lapicw ICRLO (Z.lor STARTUP (Z.shiftr 0x7000 12))) s5 = Ret s6 tt /\ s6 = send (u32 hi) 0x607 (wreg ICRLO 0x607 (wreg ICRHI hi s5))) as (s6 & R6 & E6).
  { eexists. split; [|reflexivity]. mrun (lapicw_run ICRHI hi s5 ltac:(done)). apply lapicw_send, lookup_insert_eq. }
  exists s6. split; [unfold for_M; cbn [seq Nat.sub foldr]; mrun R5; by mrun R6|]. subst s6 s5. split; [done|]. split; [done|]. split.
  - cbn. by rewrite !lookup_insert_ne by done.
  - unfold s4, s3, send. cbn [aps km wreg]. unfold s2, s1, s0. cbn [aps km wreg set_km].
    unfold hi. rewrite !(dest_id c Hc). change (hasf BCAST _) with false. rewrite (list_alter_Some _ _ _ a) by done.
    rewrite !list_alter_insert. reflexivity.
Qed.

(** ** Handing over *)

(** The pages below the kernel that [startothers] writes to are not free. *)
Definition low_frames : list Z := [0; 6; 7].

Lemma low_not_free kend s m l : KERNLINK <= kend -> kalloc_inv kend s l -> mem_ok m ->
  (forall f, f ∉ low_frames -> page_at m f = page_at (mem s) f) -> kalloc_inv kend (upd_mem (fun _ => m) s) l.
Proof.
  intros Hk Hinv Hm Hsame. apply (kalloc_inv_client kend s m l Hinv Hm). intros p Hp. apply Hsame.
  assert (valid_page kend p) as Hv by (by apply (proj1 (Forall_forall _ _) (ki_valid _ _ _ Hinv))).
  pose proof (proj1 (valid_frame kend p Hv)) as E. destruct Hv as (_ & Hge & _). intros Hin.
  assert (frame p <= 7) by (unfold low_frames in Hin; repeat (apply elem_of_cons in Hin as [->|Hin]; [lia|]); by apply not_elem_of_nil in Hin).
  unfold KERNLINK, KERNBASE, EXTMEM, PGSIZE in *. lia.
Qed.

(** The memory that the processor finds, and what it finds there. *)
Definition handoff (st mp pg : Z) (m : ram) : ram :=
  store16 (p2v 0x467 + 2) 0x700 (store16 (p2v 0x467) 0 (store32 (code - 12) pg (store32 (code - 8) mp (store32 (code - 4) st m)))).

Lemma handoff_ok st mp pg m : mem_ok m -> mem_ok (handoff st mp pg m).
Proof. intros Hm. by repeat first [apply mem_ok_store_bytes|apply mem_ok_store32]. Qed.
Lemma handoff_other st mp pg m f : f <> 0 -> f <> 6 -> page_at (handoff st mp pg m) f = page_at m f.
Proof.
  intros H0 H6. unfold handoff, store16, store_bytes, store32. change (frame (p2v 0x467 + 2)) with 0. change (frame (p2v 0x467)) with 0.
  change (frame (code - 12)) with 6. change (frame (code - 8)) with 6. change (frame (code - 4)) with 6. by rewrite !page_at_insert_ne by congruence.
Qed.
Lemma three_words b o x y z : (o + 12 <= length b)%nat -> is_u32 x -> is_u32 y -> is_u32 z ->
  let b' := wr32 (wr32 (wr32 b (o + 8) x) (o + 4) y) o z in rd32 b' (o + 8) = x /\ rd32 b' (o + 4) = y /\ rd32 b' o = z.
Proof.
  intros Hb Hx Hy Hz b'. unfold b'. assert (forall b o v, length (wr32 b o v) = length b) as Hw by (intros; apply wr_length).
  rewrite !(rd32_wr32_other _ o) by lia. rewrite (rd32_wr32_other _ (o + 4)) by lia. rewrite !rd32_wr32_same by (rewrite ?Hw; lia || done). done.
Qed.
Lemma handoff_found st mp pg m : mem_ok m -> is_u32 st -> is_u32 mp -> is_u32 pg -> startup_code (handoff st mp pg m) 0x607 = Up 0x7000 st mp pg.
Proof.
  intros Hm Hst Hmp Hpg. unfold startup_code. change (Z.shiftl (Z.land 0x607 0xff) 12) with 0x7000. unfold load32.
  change (frame (u32 (p2v 0x7000 - 4))) with 6. change (frame (u32 (p2v 0x7000 - 8))) with 6. change (frame (u32 (p2v 0x7000 - 12))) with 6.
  assert (page_at (handoff st mp pg m) 6 = wr32 (wr32 (wr32 (page_at m 6) (offset (code - 4)) st) (offset (code - 8)) mp) (offset (code - 12)) pg) as ->.
  { unfold handoff, store16, store_bytes, store32. change (frame (p2v 0x467 + 2)) with 0. change (frame (p2v 0x467)) with 0.
    rewrite !page_at_insert_ne by done. change (frame (code - 12)) with 6. change (frame (code - 8)) with 6. change (frame (code - 4)) with 6.
    by rewrite !page_at_insert_eq. }
  change (offset (u32 (p2v 0x7000 - 4))) with (4084 + 8)%nat. change (offset (u32 (p2v 0x7000 - 8))) with (4084 + 4)%nat.
  change (offset (u32 (p2v 0x7000 - 12))) with 4084%nat.
  change (offset (code - 4)) with (4084 + 8)%nat. change (offset (code - 8)) with (4084 + 4)%nat. change (offset (code - 12)) with 4084%nat.
  destruct (three_words (page_at m 6) 4084 st mp pg) as (E1 & E2 & E3); [by rewrite Hm|done..|]. by rewrite E1, E2, E3.
Qed.

Section started.
Context (kend : Z) (entryother : list Z) (mpenter entrypgdir : Z) (ids : list Z) (self : nat) (l : list Z).
Context (Hkend : KERNLINK <= kend) (Hmp : is_u32 mpenter).
Context (Hids : forall i, (i < length ids)%nat -> ids !! i = Some (Z.of_nat i)) (Hmax : (length ids <= 256)%nat).

(** The number of pages taken before processor [c] is reached. *)
Definition rank (c : nat) : nat := if decide (c <= self)%nat then c else (c - 1)%nat.
(** Processor [i] runs the entry code with the stack, the entry point and the directory it was given. *)
Definition up (i : nat) : ap := Up 0x7000 (l !!! rank i + KSTACKSIZE) mpenter (v2p entrypgdir).

Record started (A : list ap) (p7 : list Z) (c : nat) (s : machine) : Prop := {
  st_free : kalloc_inv kend (km s) (drop (rank c) l);
  st_self : present s = true /\ exists v, lregs s !! ID = Some v /\ Z.shiftr v 24 = Z.of_nat self;
  st_len : length (aps s) = length ids;
  st_up : forall i, (i < c)%nat -> i <> self -> aps s !! i = Some (up i);
  st_same : aps s !! self = A !! self;
  st_code : page_at (mem (km s)) 7 = p7
}.

Lemma cpunum_run A p7 c s : started A p7 c s -> cpunum s = Ret s (Z.of_nat self).
Proof. intros [_ [Hp (v & Hv & Hs)] _ _ _ _]. unfold cpunum, lapic_read. rewrite gets_bind, Hp, gets_bind, Hv. cbn [default]. by rewrite <- Hs. Qed.

Lemma start_cpu_law A p7 c s : (c < length ids)%nat -> (length ids <= length l + 1)%nat -> (self < length ids)%nat -> started A p7 c s ->
  exists s', start_cpu mpenter entrypgdir ids c s = Ret s' tt /\ started A p7 (S c) s'.
Proof.
  intros Hc Hl Hself Hs. unfold start_cpu. mrun (cpunum_run _ _ _ _ Hs). destruct (Z.eqb_spec (Z.of_nat c) (Z.of_nat self)) as [E|Hne].
  - exists s. split; [done|]. destruct Hs as [H1 H2 H3 H4 H5 H6]. split; try done.
    + unfold rank in *. destruct (decide (c <= self)%nat), (decide (S c <= self)%nat); try lia. by replace (S c - 1)%nat with c by lia.
    + intros i Hi Hn. apply H4; [lia|done].
  - destruct Hs as [H1 H2 H3 H4 H5 H6]. assert (rank c < length l)%nat as Hr by (unfold rank; case_decide; lia).
    destruct (lookup_lt_is_Some_2 _ _ Hr) as [p Ep]. rewrite (drop_S _ _ _ Ep) in H1. destruct (kalloc_law kend _ _ _ H1) as [K1 I1].
    assert (valid_page kend p) as Hv by (by apply (proj1 (Forall_cons _ _ _) (ki_valid _ _ _ H1))).
    pose proof (valid_u32 kend p Hv) as [Hu _]. assert (is_u32 (p + KSTACKSIZE)) as Hu' by (destruct Hv as (_ & _ & ?); unfold is_u32, KSTACKSIZE, KERNBASE, PHYSTOP in *; lia).
    erewrite bind_ret by (apply zoom_ret, K1). set (k1 := set_freelist _ _) in *. rewrite (u32_small (p + KSTACKSIZE)) by done.
    set (s1 := set_km k1 s). set (m3 := store32 (code - 12) (v2p entrypgdir) (store32 (code - 8) mpenter (store32 (code - 4) (p + KSTACKSIZE) (mem k1)))).
    assert (forall (k : unit -> unit -> unit -> M machine unit),
      (let* a := inkmem (modify (upd_mem (store32 (code - 4) (p + KSTACKSIZE)))) in let* b := inkmem (modify (upd_mem (store32 (code - 8) mpenter))) in
       let* d := inkmem (modify (upd_mem (store32 (code - 12) (v2p entrypgdir)))) in k a b d) s1 = k tt tt tt (set_km (upd_mem (fun _ => m3) k1) s)) as R3 by done.
    rewrite (R3 (fun _ _ _ => _)). clear R3. rewrite Hids by done. rewrite from_opt_bind.
    destruct (lookup_lt_is_Some_2 (aps s) c ltac:(lia)) as [a Ea].
    destruct (lapicstartap_law (set_km (upd_mem (fun _ => m3) k1) s) c a) as (s' & R & Ek & Epr & Eid & Eaps); [lia|done|]. cbn [km set_km aps present lregs] in *.
    change (v2p code) with 0x7000. mrun R. rewrite gets_bind, Eaps. rewrite list_lookup_insert_eq by (rewrite H3; done).
    exists s'. split; [done|]. change (mem (upd_mem _ _)) with (handoff (p + KSTACKSIZE) mpenter (v2p entrypgdir) (mem k1)) in Eaps.
    rewrite handoff_found in Eaps; [|apply (ki_mem _ _ _ I1)|done|done|apply u32_range].
    assert (km s' = upd_mem (fun _ => handoff (p + KSTACKSIZE) mpenter (v2p entrypgdir) (mem k1)) k1) as Ek' by (rewrite Ek; done).
    assert (rank (S c) = S (rank c)) as Er by (unfold rank; destruct (decide (c <= self)%nat), (decide (S c <= self)%nat); lia).
    split.
    + rewrite Ek', Er. apply low_not_free; [done|done|apply handoff_ok, (ki_mem _ _ _ I1)|]. intros f Hf. apply handoff_other; intros ->; apply Hf; unfold low_frames; set_solver.
    + by rewrite Epr, Eid.
    + by rewrite Eaps, length_insert.
    + intros i Hi Hn. rewrite Eaps. destruct (decide (i = c)) as [->|Hic].
      * rewrite list_lookup_insert_eq by lia. unfold up. by rewrite (list_lookup_total_correct _ _ _ Ep).
      * rewrite list_lookup_insert_ne by done. apply H4; [lia|done].
    + rewrite Eaps. by rewrite list_lookup_insert_ne by lia.
    + rewrite Ek'. cbn [mem upd_mem]. rewrite handoff_other by done. done.
Qed.
End started.

(** C33: [startothers] starts every processor but the one it runs on, each
    exactly once: the [n]-th gets the [n]-th free page as its stack, so that
    no two stacks share a page and none is free any more, and finds the entry
    point [mpenter] and the physical address of [entrypgdir] below the copy of
    entryother.S that it runs at [0x7000]. *)
Theorem startothers_starts kend entryother mpenter entrypgdir ids self l s v :
  KERNLINK <= kend -> is_u32 mpenter -> (forall i, (i < length ids)%nat -> ids !! i = Some (Z.of_nat i)) -> (length ids <= 256)%nat ->
  (length entryother <= 4096)%nat -> kalloc_inv kend (km s) l -> (length ids <= length l + 1)%nat -> (self < length ids)%nat ->
  present s = true -> lregs s !! ID = Some v -> Z.shiftr v 24 = Z.of_nat self -> length (aps s) = length ids ->
  exists s', startothers entryother mpenter entrypgdir ids s = Ret s' tt /\
    (forall i, (i < length ids)%nat -> i <> self -> aps s' !! i = Some (up mpenter entrypgdir self l i)) /\
    (forall i j, (i < length ids)%nat -> (j < length ids)%nat -> i <> self -> j <> self -> l !!! rank self i = l !!! rank self j -> i = j) /\
    aps s' !! self = aps s !! self /\ kalloc_inv kend (km s') (drop (length ids - 1) l) /\
    sub_bytes (page_at (mem (km s')) 7) 0 (length entryother) = entryother.
Proof.
  intros Hk Hmp Hids Hmax Hent Hinv Hl Hself Hp Hv Hsv Hlen. unfold startothers. set (m0 := store_bytes code entryother (mem (km s))).
  assert (inkmem (modify (upd_mem (store_bytes code entryother))) s = Ret (set_km (upd_mem (fun _ => m0) (km s)) s) tt) as R0 by done. mrun R0. clear R0.
  pose proof (ki_mem _ _ _ Hinv) as Hm. assert (page_at m0 7 = memmove_in (page_at (mem (km s)) 7) 0 entryother) as E7 by (unfold m0, store_bytes; change (frame code) with 7; by rewrite page_at_insert_eq).
  destruct (for_M_ind (started kend mpenter entrypgdir ids self l (aps s) (page_at m0 7)) 0 (length ids) (start_cpu mpenter entrypgdir ids) (set_km (upd_mem (fun _ => m0) (km s)) s))
    as (s' & R & [H1 H2 H3 H4 H5 H6]).
  - lia.
  - split; cbn [km set_km present lregs aps]; [|by split; [|exists v]|done|lia|done|done].
    unfold rank. rewrite decide_True by lia. rewrite drop_0. apply low_not_free; [done|done|by apply mem_ok_store_bytes|].
    intros f Hf. unfold m0, store_bytes. rewrite page_at_insert_ne; [done|]. change (frame code) with 7. intros <-. apply Hf. unfold low_frames. set_solver.
  - intros i s1 Hi Hs1. apply start_cpu_law; auto; lia.
  - exists s'. split; [done|]. split; [intros i Hi Hn; by apply H4|]. split.
    { intros i j Hi Hj Hni Hnj E. pose proof (ki_nodup _ _ _ Hinv) as Hnd.
      assert (rank self i < length l /\ rank self j < length l)%nat as [Hri Hrj] by (unfold rank; repeat case_decide; lia).
      rewrite !list_lookup_total_alt in E. destruct (lookup_lt_is_Some_2 _ _ Hri) as [x Ex], (lookup_lt_is_Some_2 _ _ Hrj) as [y Ey].
      rewrite Ex, Ey in E. cbn in E. subst y. pose proof (NoDup_lookup _ _ _ _ Hnd Ex Ey). unfold rank in *. repeat case_decide; lia. }
    split; [done|]. split.
    + unfold rank in H1. rewrite decide_False in H1 by lia. done.
    + rewrite H6, E7. apply sub_memmove_same. rewrite Hm. change (Z.to_nat PGSIZE) with 4096%nat. lia.
Qed.

Definition ex_pages : list Z := [demo_end; demo_end + 4096].
Definition ex_kmem : kmem := mk_kmem 0 demo_end (store32 demo_end (demo_end + 4096) (store32 (demo_end + 4096) 0 ∅)).
Definition ex_machine : machine := mk_machine ex_kmem true {[ID := Z.shiftl 1 24]} [Off; Off; Off] [].

Lemma ex_kmem_inv : kalloc_inv demo_end ex_kmem ex_pages.
Proof.
  split.
  - cbn [ex_pages chain freelist mem ex_kmem]. split; [done|]. split; by vm_compute.
  - apply NoDup_cons. split; [|apply NoDup_singleton]. by intros E%list_elem_of_singleton.
  - repeat constructor; by vm_compute.
  - apply mem_ok_store32, mem_ok_store32, mem_ok_empty.
Qed.

Lemma startothers_starts_witness : exists s', startothers [250; 102] 0x80103000 0x80109000 [0; 1; 2] ex_machine = Ret s' tt /\
  aps s' !! 0%nat = Some (Up 0x7000 (demo_end + 4096) 0x80103000 0x109000) /\ aps s' !! 1%nat = Some Off /\
  aps s' !! 2%nat = Some (Up 0x7000 (demo_end + 8192) 0x80103000 0x109000).
Proof.
  destruct (startothers_starts demo_end [250; 102] 0x80103000 0x80109000 [0; 1; 2] 1 ex_pages ex_machine (Z.shiftl 1 24)) as (s' & R & Hup & _ & Hself & _).
  - by vm_compute.
  - by vm_compute.
  - intros [|[|[|i]]] Hi; cbn in Hi |- *; try reflexivity; lia.
  - cbn. lia.
  - cbn. lia.
  - apply ex_kmem_inv.
  - cbn. lia.
  - cbn. lia.
  - reflexivity.
  - by vm_compute.
  - by vm_compute.
  - reflexivity.
  - exists s'. split; [exact R|]. split; [rewrite (Hup 0%nat) by (cbn; lia); by vm_compute|]. split; [rewrite Hself; reflexivity|].
    rewrite (Hup 2%nat) by (cbn; lia). by vm_compute.
Defined.

(** The result of [kalloc] is not tested: without a free page the processor
    is started on the page at address 0 of the entry directory. *)
Theorem startothers_unchecked : (fun s => aps s !! 1%nat) <$>
  match startothers [250; 102] 0x80103000 0x80109000 [0; 1] (mk_machine (mk_kmem 0 0 ∅) true {[ID := 0]} [Off; Off] []) with Ret s _ => Some s | _ => None end =
  Some (Some (Up 0x7000 4096 0x80103000 0x109000)).
Proof. by vm_compute. Qed.

(** [lapicinit] enables the local APIC and its periodic timer with the
    vectors [trap] knows, masks the lines of the 8259As, and resets no
    processor. *)
Theorem lapicinit_programs s : present s = true -> exists s', lapicinit s = Ret s' tt /\ aps s' = aps s /\ km s' = km s /\
  lregs s' !! SVR = Some (ENABLE + T_IRQ0 + IRQ_SPURIOUS) /\ lregs s' !! TIMER = Some (PERIODIC + T_IRQ0 + IRQ_TIMER) /\
  lregs s' !! LINT0 = Some MASKED /\ lregs s' !! LINT1 = Some MASKED /\ lregs s' !! ERROR = Some (T_IRQ0 + IRQ_ERROR) /\ lregs s' !! TPR = Some 0.
Proof.
  intros Hp. unfold lapicinit. rewrite gets_bind, Hp. cbn [whenM]. do 6 (erewrite bind_ret by (by apply lapicw_run)). set (s1 := wreg LINT1 _ _).
  assert (exists s2, (let* v := lapic_read VER in whenM (4 <=? Z.land (Z.shiftr v 16) 0xFF) (lapicw PCINT MASKED)) s1 = Ret s2 tt /\
    km s2 = km s /\ aps s2 = aps s /\ forall i, i <> PCINT -> lregs s2 !! i = lregs s1 !! i) as (s2 & R2 & K2 & A2 & L2).
  { unfold lapic_read. rewrite gets_bind. destruct (4 <=? _); cbn [whenM].
    - rewrite lapicw_run by done. eexists. split; [done|]. split; [done|]. split; [done|]. intros i Hi. cbn. by rewrite lookup_insert_ne.
    - by exists s1. }
  mrun R2. do 5 (erewrite bind_ret by (by apply lapicw_run)). erewrite bind_ret by (apply lapicw_send, lookup_insert_eq). rewrite lapicw_run by done.
  eexists. split; [reflexivity|]. split.
  { cbn [aps wreg send km]. change (hasf BCAST _) with true. cbn iota. rewrite A2. rewrite <- (list_fmap_id (aps s)) at 2. apply list_fmap_ext. done. }
  split; [exact K2|]. cbn [lregs wreg send]. repeat split; rewrite ?lookup_insert_ne by done; rewrite ?L2 by done; unfold s1; cbn [lregs wreg];
    rewrite ?lookup_insert_ne by done; apply lookup_insert_eq.
Qed.

(** ** The page directory of the starting processors *)

Definition PTE_PS : Z := 0x080.
Definition PDXSHIFT : Z := 22.

(** The entries of [entrypgdir]. *)
Definition entrypgdir_at (i : Z) : Z :=
  if (i =? 0) || (i =? Z.shiftr KERNBASE PDXSHIFT) then Z.lor (Z.lor PTE_P PTE_W) PTE_PS else 0.
(** The translation of an address by pages of four megabytes. *)
Definition entry_translate (va : Z) : option Z :=
  let pde := entrypgdir_at (Z.shiftr va PDXSHIFT) in
  if hasf PTE_P pde && hasf PTE_PS pde then Some (Z.shiftl (Z.shiftr pde PDXSHIFT) PDXSHIFT + va mod 2 ^ PDXSHIFT) else None.

(** The first four megabytes are mapped twice, at 0 and at [KERNBASE], and nothing else is. *)
Lemma entry_maps va : is_u32 va -> entry_translate va =
  if va <? 2 ^ 22 then Some va else if (KERNBASE <=? va) && (va <? KERNBASE + 2 ^ 22) then Some (va - KERNBASE) else None.
Proof.
  intros Hva. unfold is_u32 in Hva. unfold entry_translate, entrypgdir_at. change PDXSHIFT with 22. change (Z.shiftr KERNBASE 22) with 512. rewrite Z.shiftr_div_pow2 by lia.
  pose proof (Z.div_mod va (2 ^ 22) ltac:(lia)) as E. pose proof (Z.mod_pos_bound va (2 ^ 22) ltac:(lia)) as Hm. unfold KERNBASE.
  destruct (Z.ltb_spec va (2 ^ 22)) as [Hlt|Hge].
  - assert (va / 2 ^ 22 = 0) as -> by (apply Z.div_small; lia). cbn -[Z.modulo Z.pow]. f_equal. apply Z.mod_small. lia.
  - assert (va / 2 ^ 22 <> 0) as Hn by lia. rewrite (proj2 (Z.eqb_neq _ _) Hn). cbn [orb]. destruct (Z.eqb_spec (va / 2 ^ 22) 512) as [E5|E5].
    + rewrite (proj2 (Z.leb_le _ _)), (proj2 (Z.ltb_lt _ _)) by lia. cbn -[Z.modulo Z.pow Z.sub]. f_equal.
      change (Z.shiftl (Z.shiftr (Z.lor (Z.lor PTE_P PTE_W) PTE_PS) 22) 22) with 0. lia.
    + destruct (Z.leb_spec 0x80000000 va), (Z.ltb_spec va (0x80000000 + 2 ^ 22)); cbn [andb]; try done. exfalso. lia.
Qed.

(** What a starting processor touches before it has the kernel's page table is
    mapped, if the free pages are those that [kinit1] freed: the entry code
    and the words below it at their physical addresses, and every byte of its
    stack at its kernel address.  So [kinit2] has to come after [startothers]. *)
Theorem ap_memory_mapped kend p a : valid_page kend p -> p < p2v (4 * 1024 * 1024) ->
  (0x7000 - 12 <= a < 0x8000 -> entry_translate a = Some a) /\
  (p <= a < p + KSTACKSIZE -> entry_translate a = Some (v2p a)).
Proof.
  intros (Hmod & _ & Hr) Hp. change (p2v (4 * 1024 * 1024)) with (KERNBASE + 2 ^ 22) in Hp. unfold KERNBASE, PHYSTOP, KSTACKSIZE in *.
  assert (p + 4096 <= 0x80000000 + 2 ^ 22) as Hend.
  { change PGSIZE with 4096 in Hmod. pose proof (Z.div_mod p 4096 ltac:(lia)). lia. }
  split; intros Ha; rewrite entry_maps by (unfold is_u32; lia).
  - by rewrite (proj2 (Z.ltb_lt _ _)) by lia.
  - rewrite (proj2 (Z.ltb_ge _ _)) by lia. unfold KERNBASE. rewrite (proj2 (Z.leb_le _ _)), (proj2 (Z.ltb_lt _ _)) by lia. cbn [andb].
    unfold v2p, KERNBASE. by rewrite u32_small by (unfold is_u32; lia).
Qed.
