(* ===== verification/Kernel.v ===== *)
(** * Kernel: the state of the whole kernel, open files and pipes (file.c, pipe.c)

    The process table, the file system, the open file table and the pipes
    together, with the memory of the running process as the kernel reads and
    writes it.  A component runs on its own part of the state; the channels it
    called [wakeup] on are delivered to the process table when it is done.
    The functions of file.c, and [pipealloc] and [pipeclose] with the page of
    the pipe, are here. *)
From stdpp Require Import base numbers list gmap strings.
From Stdlib Require Import ZArith Lia.
From S2P Require Import Prelude Bytes Kalloc Vm Proc Buf Bio Log Fs Pipe.

Local Open Scope Z_scope.

Definition NFILE : nat := 100.

Inductive ftype := FD_NONE | FD_PIPE | FD_INODE.
#[global] Instance ftype_eq_dec : EqDecision ftype.
Proof. solve_decision. Defined.

(** [struct file]; the pipe is its address, the inode its index. *)
Record file := mk_file {
  ftyp : ftype;
  fref : Z;
  readable : Z;
  writable : Z;
  fpipe : Z;
  fip : option nat;
  foff : Z
}.
Definition set_fref (r : Z) (f : file) : file :=
  mk_file (ftyp f) r (readable f) (writable f) (fpipe f) (fip f) (foff f).
Definition set_ftyp (t : ftype) (f : file) : file :=
  mk_file t (fref f) (readable f) (writable f) (fpipe f) (fip f) (foff f).
Definition set_foff (o : Z) (f : file) : file :=
  mk_file (ftyp f) (fref f) (readable f) (writable f) (fpipe f) (fip f) o.
(** The assignments of [sys_open] and [pipealloc]. *)
Definition as_inode (ip : nat) (r w : Z) (f : file) : file :=
  mk_file FD_INODE (fref f) r w (fpipe f) (Some ip) 0.
Definition as_pipe (a r w : Z) (f : file) : file :=
  mk_file FD_PIPE (fref f) r w a (fip f) (foff f).

(** [ptable] and memory, the file system, [ftable], the pipes by address,
    [ticks], and the messages printed with [cprintf]. *)
Record kernel := mk_kernel {
  kp : psys;
  kf : fs_state;
  ftable : list file;
  pipes : gmap Z pipe;
  ticks : Z;
  klog : list string
}.
Definition set_kp (p : psys) (k : kernel) : kernel := mk_kernel p (kf k) (ftable k) (pipes k) (ticks k) (klog k).
Definition set_ftable (t : list file) (k : kernel) : kernel := mk_kernel (kp k) (kf k) t (pipes k) (ticks k) (klog k).
Definition set_pipes (t : gmap Z pipe) (k : kernel) : kernel := mk_kernel (kp k) (kf k) (ftable k) t (ticks k) (klog k).
Definition set_ticks (t : Z) (k : kernel) : kernel := mk_kernel (kp k) (kf k) (ftable k) (pipes k) t (klog k).

Definition inps {A} (m : M psys A) : M kernel A := zoom kp set_kp m.
Definition inmem {A} (m : M kmem A) : M kernel A := inps (inkm m).
Definition kprint (msg : string) : M kernel unit :=
  modify (fun k => mk_kernel (kp k) (kf k) (ftable k) (pipes k) (ticks k) (klog k ++ [msg])).

(** [wakeup] on the channels, in order. *)
Definition deliver (cs : list chan) (ps : list proc) : list proc := foldl (fun ps c => wakeup1 (Some c) ps) ps cs.
Definition wakeups (cs : list chan) (k : kernel) : kernel := set_kp (upd_ptable (deliver cs) (kp k)) k.

(** A computation of the file system, and the wakeups it made. *)
Definition clear_woken (f : fs_state) : fs_state :=
  mk_fs (fsb f) (icache f) (mk_ls (lg (fls f)) (set_woken [] (bio (fls f)))).
Definition settle (f : fs_state) (k : kernel) : kernel :=
  let k := wakeups (woken (bio (fls f))) k in
  mk_kernel (kp k) (clear_woken f) (ftable k) (pipes k) (ticks k) (klog k).
Definition infs {A} (m : M fs_state A) : M kernel A := zoom kf settle m.

(** A computation on the pipe at [a]; a pipe that was freed is not there. *)
Definition inpipe {A} (a : Z) (m : M pst A) : M kernel A :=
  let* t := gets pipes in
  let* p := from_opt (t !! a) in
  zoom (fun _ => mk_pst p [])
    (fun s k => set_pipes (<[a := pp s]> (pipes k)) (wakeups (reverse (pwoken s)) k)) m.

Definition file_at (f : nat) : M kernel file := let* t := gets ftable in from_opt (t !! f).
Definition upd_file (f : nat) (g : file -> file) : M kernel unit :=
  let* fl := file_at f in modify (fun k => set_ftable (<[f := g fl]> (ftable k)) k).

(** ** User memory

    The kernel follows user pointers through the page table of the running
    process.  The processor walks the table as it does for user code, except
    that it does not ask for [PTE_U]; with [CR0_WP] set a write asks for
    [PTE_W].  A page that is not there ends in [trap], which panics for a
    fault of the kernel. *)

Definition mmu (write : bool) (d va : Z) : M kmem (option Z) :=
  let allowed e := hasf PTE_P e && (negb write || hasf PTE_W e) in
  let* e := ld32 (u32 (d + 4 * PDX va)) in
  if negb (allowed e) then ret None
  else
    let* e := ld32 (u32 (p2v (PTE_ADDR e) + 4 * PTX va)) in
    if negb (allowed e) then ret None
    else ret (Some (u32 (p2v (PTE_ADDR e) + va mod PGSIZE))).

Section current.
(** [proc]: the running process. *)
Context (cur : nat).

Definition me : M kernel proc := inps (proc_at cur).
Definition upd_me (f : proc -> proc) : M kernel unit := inps (upd_proc cur f).

Definition translate (write : bool) (va : Z) : M kernel Z :=
  let* p := me in
  let* r := inmem (mmu write (pgdir p) va) in
  match r with
  | Some a => ret a
  | None => panic "trap"
  end.
Definition uld8 (va : Z) : M kernel Z :=
  let* a := translate false va in
  let* b := inmem (ld_bytes a 1) in
  from_opt (head b).
Definition ust8 (va v : Z) : M kernel unit :=
  let* a := translate true va in
  inmem (st_bytes a [u8 v]).

Fixpoint uload (va : Z) (n : nat) : M kernel (list Z) :=
  match n with
  | O => ret []
  | S n =>
      let* c := uld8 va in
      let* l := uload (u32 (va + 1)) n in
      ret (c :: l)
  end.
Fixpoint ustore (va : Z) (l : list Z) : M kernel unit :=
  match l with
  | [] => ret tt
  | c :: l => ust8 va c ;;; ustore (u32 (va + 1)) l
  end.

(** ** Files *)

Section files.
Context `{BlockDriver} (devsw : list devops) (kend : Z).

Definition filealloc : M kernel (option nat) :=
  let* t := gets ftable in
  match list_find (fun f => fref f = 0) t with
  | Some (f, _) => upd_file f (set_fref 1) ;;; ret (Some f)
  | None => ret None
  end.

Definition filedup (f : nat) : M kernel nat :=
  let* fl := file_at f in
  if fref fl <? 1 then panic "filedup"
  else upd_file f (set_fref (i32 (fref fl + 1))) ;;; ret f.

(** [pipeclose], with the page of a pipe nobody has open given back. *)
Definition close_pipe (a : Z) (w : Z) : M kernel unit :=
  let* gone := inpipe a (pipeclose a (negb (w =? 0))) in
  whenM gone (modify (fun k => set_pipes (delete a (pipes k)) k) ;;; inmem (kfree kend a)).

Definition fileclose (f : nat) : M kernel unit :=
  let* ff := file_at f in
  if fref ff <? 1 then panic "fileclose"
  else if 0 <? fref ff - 1 then upd_file f (set_fref (fref ff - 1))
  else
    upd_file f (fun fl => set_ftyp FD_NONE (set_fref 0 fl)) ;;;
    match ftyp ff with
    | FD_PIPE => close_pipe (fpipe ff) (writable ff)
    | FD_INODE =>
        let* ip := from_opt (fip ff) in
        infs (inlog begin_op) ;;;
        infs (iput ip) ;;;
        infs (inlog end_op)
    | FD_NONE => ret tt
    end.

(** The assignments to the fields of [*st]. *)
Definition put_stat (addr : Z) (st : stat) : M kernel unit :=
  ustore addr (le_bytes 2 (st_type st)) ;;;
  ustore (u32 (addr + 4)) (le_bytes 4 (st_dev st)) ;;;
  ustore (u32 (addr + 8)) (le_bytes 4 (st_ino st)) ;;;
  ustore (u32 (addr + 12)) (le_bytes 2 (st_nlink st)) ;;;
  ustore (u32 (addr + 16)) (le_bytes 4 (st_size st)).

Definition filestat (f : nat) (st : Z) : M kernel Z :=
  let* fl := file_at f in
  match ftyp fl with
  | FD_INODE =>
      let* ip := from_opt (fip fl) in
      infs (ilock ip) ;;;
      let* s := infs (stati ip) in
      put_stat st s ;;;
      infs (iunlock ip) ;;;
      ret 0
  | _ => ret (-1)
  end.

Definition fileread (f : nat) (addr n : Z) : M kernel Z :=
  let* fl := file_at f in
  if readable fl =? 0 then ret (-1)
  else
    match ftyp fl with
    | FD_PIPE =>
        let* p := me in
        let* (ans, l) := inpipe (fpipe fl) (piperead (fpipe fl) (negb (killed p =? 0)) n) in
        match ans with
        | Done r => ustore addr l ;;; ret r
        | Asleep _ => sleep_on (ChPipeRead (fpipe fl))
        end
    | FD_INODE =>
        let* ip := from_opt (fip fl) in
        infs (ilock ip) ;;;
        let* fl := file_at f in
        let* (r, l) := infs (readi devsw ip (foff fl) (u32 n)) in
        ustore addr l ;;;
        whenM (0 <? r) (upd_file f (fun fl => set_foff (u32 (foff fl + r)) fl)) ;;;
        infs (iunlock ip) ;;;
        ret r
    | FD_NONE => panic "fileread"
    end.

(** The bytes [filewrite] hands to [writei] at a time. *)
Definition write_max : Z := ((Z.of_nat LOGSIZE - 1 - 1 - 2) / 2) * 512.

(** The loop of [filewrite]: its [i] when it ends. *)
Fixpoint filewrite_loop (fuel f ip : nat) (addr i n : Z) : M kernel Z :=
  match fuel with
  | O => fault
  | S fuel =>
      if i <? n then
        let n1 := if write_max <? n - i then write_max else n - i in
        infs (inlog begin_op) ;;;
        infs (ilock ip) ;;;
        let* src := uload (u32 (addr + i)) (Z.to_nat n1) in
        let* fl := file_at f in
        let* r := infs (writei devsw ip src (foff fl) n1) in
        whenM (0 <? r) (upd_file f (fun fl => set_foff (u32 (foff fl + r)) fl)) ;;;
        infs (iunlock ip) ;;;
        infs (inlog end_op) ;;;
        if r <? 0 then ret i
        else if negb (r =? n1) then panic "short filewrite"
        else filewrite_loop fuel f ip addr (i + r) n
      else ret i
  end.

(** [pipewrite] of the bytes at [addr], from byte [i] of the [n] on.  After a
    sleep at byte [j] the call goes on as [write_pipe a addr n j]. *)
Definition write_pipe (a addr n : Z) (i : nat) : M kernel answer :=
  let* p := me in
  let* src := uload (u32 (addr + Z.of_nat i)) (Z.to_nat n - i) in
  inpipe a (pipewrite_from a (negb (killed p =? 0)) n i src).

Definition filewrite (f : nat) (addr n : Z) : M kernel Z :=
  let* fl := file_at f in
  if writable fl =? 0 then ret (-1)
  else
    match ftyp fl with
    | FD_PIPE =>
        let* ans := write_pipe (fpipe fl) addr n 0 in
        match ans with
        | Done r => ret r
        | Asleep _ => sleep_on (ChPipeWrite (fpipe fl))
        end
    | FD_INODE =>
        let* ip := from_opt (fip fl) in
        let* i := filewrite_loop (S (Z.to_nat n)) f ip addr 0 n in
        ret (if i =? n then n else -1)
    | FD_NONE => panic "filewrite"
    end.

(** The bytes of [p->data] in the page, after the lock of 52 bytes. *)
Definition sizeof_spinlock : nat := 52.
Definition page_pipe (a : Z) : M kernel pipe :=
  let* s := inmem get in
  ret (new_pipe (sub_bytes (page_at (mem s) (frame a)) sizeof_spinlock (Z.to_nat PIPESIZE))).

(** The read and the write end, or [None] for -1. *)
Definition pipealloc : M kernel (option (nat * nat)) :=
  let* f0 := filealloc in
  match f0 with
  | None => ret None
  | Some f0 =>
      let* f1 := filealloc in
      match f1 with
      | None => fileclose f0 ;;; ret None
      | Some f1 =>
          let* a := inmem kalloc in
          if a =? 0 then fileclose f0 ;;; fileclose f1 ;;; ret None
          else
            let* p := page_pipe a in
            modify (fun k => set_pipes (<[a := p]> (pipes k)) k) ;;;
            upd_file f0 (as_pipe a 1 0) ;;;
            upd_file f1 (as_pipe a 0 1) ;;;
            ret (Some (f0, f1))
      end
  end.
End files.
End current.

(** ** The running process *)

Lemma me_inv cur k k' p : me cur k = Ret k' p -> k' = k /\ ptable (kp k) !! cur = Some p.
Proof.
  unfold me, inps, proc_at, zoom, bind, gets. destruct (ptable (kp k) !! cur) as [q|]; [|done].
  cbn. intros [= <- <-]. by destruct k.
Qed.

