(* ===== verification/Sysfile.v ===== *)
(** * Sysfile: the system calls on files (sysfile.c)

    Every handler of sysfile.c but [sys_exec], which is in Exec.  The
    part of a handler that only works on the file system, from [begin_op] to
    [end_op], is a computation of its own on the state of fs.c. *)
From stdpp Require Import base numbers list gmap strings.
From Stdlib Require Import ZArith Lia.
From S2P Require Import Prelude Bytes Kalloc Vm Proc Buf Bio Log Fs Pipe Kernel Args.

Local Open Scope Z_scope.

Definition O_RDONLY : Z := 0.
Definition O_WRONLY : Z := 1.
Definition O_RDWR : Z := 2.
Definition O_CREATE : Z := 0x200.

(** [char name[DIRSIZ]]: [nameiparent] fills it before it is used. *)
Definition noname : list Z := replicate DIRSIZ 0.
(** ["."] and [".."] *)
Definition dot : list Z := [46; 0].
Definition dotdot : list Z := [46; 46; 0].

Definition upd_nlink (i : nat) (d : Z) : M fs_state unit :=
  upd_inode i (fun ip => set_nlink (i16 (inlink ip + d)) ip).

Section fscalls.
Context `{BlockDriver} (devsw : list devops) (cwd : nat).

(** [sys_link] after the arguments; [link_bad] is the label [bad]. *)
Definition link_bad (ip : nat) : M fs_state Z :=
  ilock ip ;;;
  upd_nlink ip (-1) ;;;
  iupdate ip ;;;
  iunlockput ip ;;;
  inlog end_op ;;;
  ret (-1).
Definition link (old new : list Z) : M fs_state Z :=
  inlog begin_op ;;;
  let* r := namei devsw cwd old noname in
  match r with
  | None => inlog end_op ;;; ret (-1)
  | Some ip =>
      ilock ip ;;;
      let* ino := inode_at ip in
      if itype ino =? T_DIR then iunlockput ip ;;; inlog end_op ;;; ret (-1)
      else
        upd_nlink ip 1 ;;;
        iupdate ip ;;;
        iunlock ip ;;;
        let* (dp, name) := nameiparent devsw cwd new noname in
        match dp with
        | None => link_bad ip
        | Some dp =>
            ilock dp ;;;
            let* d := inode_at dp in
            let* ino := inode_at ip in
            let* r := (if negb (idev d =? idev ino) then ret (-1) else dirlink devsw dp name (inum ino)) in
            if r <? 0 then iunlockput dp ;;; link_bad ip
            else
              iunlockput dp ;;;
              iput ip ;;;
              inlog end_op ;;;
              ret 0
        end
  end.

(** The loop of [isdirempty]. *)
Fixpoint isdirempty_loop (fuel dp : nat) (off : Z) : M fs_state bool :=
  match fuel with
  | O => fault
  | S fuel =>
      let* d := inode_at dp in
      if off <? isize d then
        let* (r, de) := readi devsw dp off sizeof_dirent in
        if negb (r =? sizeof_dirent) then panic "isdirempty: readi"
        else if negb (de_inum de =? 0) then ret false
        else isdirempty_loop fuel dp (off + sizeof_dirent)
      else ret true
  end.
Definition isdirempty (dp : nat) : M fs_state bool :=
  let* d := inode_at dp in
  isdirempty_loop (S (Z.to_nat (isize d))) dp (2 * sizeof_dirent).

(** The label [bad] of [sys_unlink], and the handler after its argument. *)
Definition unlink_bad (dp : nat) : M fs_state Z :=
  iunlockput dp ;;; inlog end_op ;;; ret (-1).
Definition unlink (path : list Z) : M fs_state Z :=
  inlog begin_op ;;;
  let* (r, name) := nameiparent devsw cwd path noname in
  match r with
  | None => inlog end_op ;;; ret (-1)
  | Some dp =>
      ilock dp ;;;
      let* c1 := from_opt (namecmp name dot) in
      let* c2 := from_opt (namecmp name dotdot) in
      if (c1 =? 0) || (c2 =? 0) then unlink_bad dp
      else
        let* r := dirlookup devsw dp name in
        match r with
        | None => unlink_bad dp
        | Some (ip, off) =>
            ilock ip ;;;
            let* ino := inode_at ip in
            if inlink ino <? 1 then panic "unlink: nlink < 1"
            else
              let* busy := (if itype ino =? T_DIR then let* e := isdirempty ip in ret (negb e) else ret false) in
              if (busy : bool) then iunlockput ip ;;; unlink_bad dp
              else
                let* r := writei devsw dp (replicate (Z.to_nat sizeof_dirent) 0) off sizeof_dirent in
                if negb (r =? sizeof_dirent) then panic "unlink: writei"
                else
                  let* ino := inode_at ip in
                  whenM (itype ino =? T_DIR) (upd_nlink dp (-1) ;;; iupdate dp) ;;;
                  iunlockput dp ;;;
                  upd_nlink ip (-1) ;;;
                  iupdate ip ;;;
                  iunlockput ip ;;;
                  inlog end_op ;;;
                  ret 0
        end
  end.

(** The new inode, locked. *)
Definition create (path : list Z) (type major minor : Z) : M fs_state (option nat) :=
  let* (r, name) := nameiparent devsw cwd path noname in
  match r with
  | None => ret None
  | Some dp =>
      ilock dp ;;;
      let* r := dirlookup devsw dp name in
      match r with
      | Some (ip, _) =>
          iunlockput dp ;;;
          ilock ip ;;;
          let* ino := inode_at ip in
          if (type =? T_FILE) && (itype ino =? T_FILE) then ret (Some ip)
          else iunlockput ip ;;; ret None
      | None =>
          let* d := inode_at dp in
          let* ip := ialloc (idev d) type in
          ilock ip ;;;
          upd_inode ip (set_dev major minor 1) ;;;
          iupdate ip ;;;
          let* ino := inode_at ip in
          whenM (type =? T_DIR)
            (upd_nlink dp 1 ;;;
             iupdate dp ;;;
             let* d := inode_at dp in
             let* r1 := dirlink devsw ip dot (inum ino) in
             let* r2 := (if r1 <? 0 then ret (-1) else dirlink devsw ip dotdot (inum d)) in
             if r2 <? 0 then panic "create dots" else ret tt) ;;;
          let* r := dirlink devsw dp name (inum ino) in
          if r <? 0 then panic "create: dirlink"
          else
            iunlockput dp ;;;
            ret (Some ip)
      end
  end.

(** [sys_open] up to the inode, which is locked, inside the transaction. *)
Definition open_inode (path : list Z) (omode : Z) : M fs_state (option nat) :=
  inlog begin_op ;;;
  if hasf O_CREATE omode then
    let* r := create path T_FILE 0 0 in
    match r with
    | None => inlog end_op ;;; ret None
    | Some ip => ret (Some ip)
    end
  else
    let* r := namei devsw cwd path noname in
    match r with
    | None => inlog end_op ;;; ret None
    | Some ip =>
        ilock ip ;;;
        let* ino := inode_at ip in
        if (itype ino =? T_DIR) && negb (omode =? O_RDONLY) then iunlockput ip ;;; inlog end_op ;;; ret None
        else ret (Some ip)
    end.

(** [sys_mkdir] and [sys_mknod] from [create] on. *)
Definition create_node (path : list Z) (type major minor : Z) : M fs_state Z :=
  let* r := create path type major minor in
  match r with
  | None => inlog end_op ;;; ret (-1)
  | Some ip => iunlockput ip ;;; inlog end_op ;;; ret 0
  end.

(** [sys_chdir] from [namei] to [end_op]: the new directory. *)
Definition chdir_inode (path : list Z) : M fs_state (option nat) :=
  let* r := namei devsw cwd path noname in
  match r with
  | None => inlog end_op ;;; ret None
  | Some ip =>
      ilock ip ;;;
      let* ino := inode_at ip in
      if negb (itype ino =? T_DIR) then iunlockput ip ;;; inlog end_op ;;; ret None
      else iunlock ip ;;; iput cwd ;;; inlog end_op ;;; ret (Some ip)
  end.
End fscalls.

Section calls.
Context (cur : nat) `{BlockDriver} (devsw : list devops) (kend : Z).

(** The descriptor and its file. *)
Definition argfd (n : Z) : M kernel (option (nat * nat)) :=
  let* r := argint cur n in
  match r with
  | None => ret None
  | Some fd =>
      let* p := me cur in
      if (fd <? 0) || (Z.of_nat NOFILE <=? fd) then ret None
      else
        let* o := from_opt (ofile p !! Z.to_nat fd) in
        match o with
        | None => ret None
        | Some f => ret (Some (Z.to_nat fd, f))
        end
  end.

Definition set_fd (fd : nat) (o : option nat) : M kernel unit :=
  upd_me cur (fun p => set_files (<[fd := o]> (ofile p)) (cwd p) p).

Definition fdalloc (f : nat) : M kernel (option nat) :=
  let* p := me cur in
  match list_find (fun o => o = None) (ofile p) with
  | Some (fd, _) => set_fd fd (Some f) ;;; ret (Some fd)
  | None => ret None
  end.

Definition sys_dup : M kernel Z :=
  let* a := argfd 0 in
  match a with
  | None => ret (-1)
  | Some (_, f) =>
      let* r := fdalloc f in
      match r with
      | None => ret (-1)
      | Some fd =>
          let* _ := filedup f in
          ret (Z.of_nat fd)
      end
  end.

(** The arguments of [read] and [write]: file, address, count. *)
Definition rw_args : M kernel (option (nat * Z * Z)) :=
  let* a := argfd 0 in
  match a with
  | None => ret None
  | Some (_, f) =>
      let* n := argint cur 2 in
      match n with
      | None => ret None
      | Some n =>
          let* p := argptr cur 1 n in
          match p with
          | None => ret None
          | Some p => ret (Some (f, p, n))
          end
      end
  end.

Definition sys_read : M kernel Z :=
  let* a := rw_args in
  match a with
  | None => ret (-1)
  | Some (f, p, n) => fileread cur devsw f p n
  end.

Definition sys_write : M kernel Z :=
  let* a := rw_args in
  match a with
  | None => ret (-1)
  | Some (f, p, n) => filewrite cur devsw f p n
  end.

Definition sys_close : M kernel Z :=
  let* a := argfd 0 in
  match a with
  | None => ret (-1)
  | Some (fd, f) =>
      set_fd fd None ;;;
      fileclose kend f ;;;
      ret 0
  end.

Definition sizeof_stat : Z := 20.
Definition sys_fstat : M kernel Z :=
  let* a := argfd 0 in
  match a with
  | None => ret (-1)
  | Some (_, f) =>
      let* st := argptr cur 1 sizeof_stat in
      match st with
      | None => ret (-1)
      | Some st => filestat cur f st
      end
  end.

(** [proc->cwd] *)
Definition my_cwd : M kernel nat := let* p := me cur in from_opt (cwd p).

Definition sys_link : M kernel Z :=
  let* old := argstr cur 0 in
  match old with
  | None => ret (-1)
  | Some old =>
      let* new := argstr cur 1 in
      match new with
      | None => ret (-1)
      | Some new =>
          let* d := my_cwd in
          infs (link devsw d old new)
      end
  end.

Definition sys_unlink : M kernel Z :=
  let* path := argstr cur 0 in
  match path with
  | None => ret (-1)
  | Some path =>
      let* d := my_cwd in
      infs (unlink devsw d path)
  end.

Definition sys_open : M kernel Z :=
  let* path := argstr cur 0 in
  match path with
  | None => ret (-1)
  | Some path =>
      let* omode := argint cur 1 in
      match omode with
      | None => ret (-1)
      | Some omode =>
          let* d := my_cwd in
          let* r := infs (open_inode devsw d path omode) in
          match r with
          | None => ret (-1)
          | Some ip =>
              let bail_out := (infs (iunlockput ip) ;;; infs (inlog end_op) ;;; ret (-1)) in
              let* f := filealloc in
              match f with
              | None => bail_out
              | Some f =>
                  let* fd := fdalloc f in
                  match fd with
                  | None => fileclose kend f ;;; bail_out
                  | Some fd =>
                      infs (iunlock ip) ;;;
                      infs (inlog end_op) ;;;
                      upd_file f (as_inode ip (Z.b2z (negb (hasf O_WRONLY omode)))
                                    (Z.b2z (hasf O_WRONLY omode || hasf O_RDWR omode))) ;;;
                      ret (Z.of_nat fd)
                  end
              end
          end
      end
  end.

(** The common way out of [sys_mkdir], [sys_mknod] and [sys_chdir]. *)
Definition op_failed : M kernel Z := infs (inlog end_op) ;;; ret (-1).

Definition sys_mkdir : M kernel Z :=
  infs (inlog begin_op) ;;;
  let* path := argstr cur 0 in
  match path with
  | None => op_failed
  | Some path =>
      let* d := my_cwd in
      infs (create_node devsw d path T_DIR 0 0)
  end.

Definition sys_mknod : M kernel Z :=
  infs (inlog begin_op) ;;;
  let* path := argstr cur 0 in
  match path with
  | None => op_failed
  | Some path =>
      let* major := argint cur 1 in
      match major with
      | None => op_failed
      | Some major =>
          let* minor := argint cur 2 in
          match minor with
          | None => op_failed
          | Some minor =>
              let* d := my_cwd in
              infs (create_node devsw d path T_DEV (i16 major) (i16 minor))
          end
      end
  end.

Definition sys_chdir : M kernel Z :=
  infs (inlog begin_op) ;;;
  let* path := argstr cur 0 in
  match path with
  | None => op_failed
  | Some path =>
      let* d := my_cwd in
      let* r := infs (chdir_inode devsw d path) in
      match r with
      | None => ret (-1)
      | Some ip =>
          upd_me cur (fun p => set_files (ofile p) (Some ip) p) ;;;
          ret 0
      end
  end.

Definition sys_pipe : M kernel Z :=
  let* a := argptr cur 0 8 in
  match a with
  | None => ret (-1)
  | Some fd =>
      let* r := pipealloc kend in
      match r with
      | None => ret (-1)
      | Some (rf, wf) =>
          let close_both := (fileclose kend rf ;;; fileclose kend wf ;;; ret (-1)) in
          let* fd0 := fdalloc rf in
          match fd0 with
          | None => close_both
          | Some fd0 =>
              let* fd1 := fdalloc wf in
              match fd1 with
              | None => set_fd fd0 None ;;; close_both
              | Some fd1 =>
                  ustore cur fd (le_bytes 4 (Z.of_nat fd0)) ;;;
                  ustore cur (u32 (fd + 4)) (le_bytes 4 (Z.of_nat fd1)) ;;;
                  ret 0
              end
          end
      end
  end.
End calls.
