(* ===== verification/Exec.v ===== *)
(** * Exec: replacing the image of a process (exec.c, loaduvm of vm.c)

    [loaduvm], [exec] and [sys_exec].  A jump to the label [bad] is a call of
    [exec_bad] with the page directory and the inode held at that point. *)
From stdpp Require Import base numbers list gmap strings.
From Stdlib Require Import ZArith Lia.
From S2P Require Import Prelude Bytes StringC Kalloc Vm Proc Buf Bio Log Fs Kernel Args Sysfile.

Local Open Scope Z_scope.

Definition MAXARG : nat := 32.
Definition ELF_MAGIC : Z := 0x464C457F.
Definition ELF_PROG_LOAD : Z := 1.

(** [struct elfhdr] and [struct proghdr], decoded from their bytes. *)
Definition sizeof_elfhdr : Z := 52.
Record elfhdr := mk_elf { e_magic : Z; e_entry : Z; e_phoff : Z; e_phnum : Z }.
Definition dec_elf (b : list Z) : elfhdr := mk_elf (rd32 b 0) (rd32 b 24) (rd32 b 28) (rd16 b 44).
Definition sizeof_proghdr : Z := 32.
Record proghdr := mk_ph { ph_type : Z; ph_off : Z; ph_vaddr : Z; ph_filesz : Z; ph_memsz : Z }.
Definition dec_ph (b : list Z) : proghdr := mk_ph (rd32 b 0) (rd32 b 4) (rd32 b 8) (rd32 b 16) (rd32 b 20).

(** The name after the last slash. *)
Fixpoint last_elem (last s : list Z) : list Z :=
  match s with
  | [] => last
  | c :: s => last_elem (if c =? SLASH then s else last) s
  end.

Section exec.
Context (cur : nat) `{BlockDriver} (devsw : list devops) (kend kdata : Z).
(** What the stack of the kernel holds where [elf] lies. *)
Context (stack : list Z).

(** The loop of [loaduvm]: the pages from [i] on. *)
Fixpoint load_loop (fuel : nat) (pgdir addr : Z) (ip : nat) (offset sz i : Z) : M kernel Z :=
  match fuel with
  | O => fault
  | S fuel =>
      if i <? sz then
        let* pte := inmem (walkpgdir pgdir (u32 (addr + i)) false) in
        if pte =? 0 then panic "loaduvm: address should exist"
        else
          let* e := inmem (ld32 pte) in
          let pa := PTE_ADDR e in
          let n := if sz - i <? PGSIZE then sz - i else PGSIZE in
          let* (r, l) := infs (readi devsw ip (u32 (offset + i)) n) in
          inmem (st_bytes (p2v pa) l) ;;;
          if negb (u32 r =? n) then ret (-1)
          else load_loop fuel pgdir addr ip offset sz (u32 (i + PGSIZE))
      else ret 0
  end.
Definition loaduvm (pgdir addr : Z) (ip : nat) (offset sz : Z) : M kernel Z :=
  if negb (addr mod PGSIZE =? 0) then panic "loaduvm: addr must be page aligned"
  else load_loop (S max_pages) pgdir addr ip offset sz 0.

Definition exec_bad (d : Z) (ip : option nat) : M kernel Z :=
  whenM (negb (d =? 0)) (inmem (freevm kend d)) ;;;
  match ip with
  | Some ip => infs (iunlockput ip) ;;; infs (inlog end_op)
  | None => ret tt
  end ;;;
  ret (-1).

(** The loop over the program headers, [num] of them left: the size of the
    image, or [None] for the jump to [bad]. *)
Fixpoint load_segments (num : nat) (d : Z) (ip : nat) (off sz : Z) : M kernel (option Z) :=
  match num with
  | O => ret (Some sz)
  | S num =>
      let* (r, b) := infs (readi devsw ip off sizeof_proghdr) in
      if negb (u32 r =? sizeof_proghdr) then ret None
      else
        let ph := dec_ph b in
        if negb (ph_type ph =? ELF_PROG_LOAD) then load_segments num d ip (u32 (off + sizeof_proghdr)) sz
        else if ph_memsz ph <? ph_filesz ph then ret None
        else
          let* sz := inmem (allocuvm kend d sz (u32 (ph_vaddr ph + ph_memsz ph))) in
          if sz =? 0 then ret None
          else
            let* r := loaduvm d (ph_vaddr ph) ip (ph_off ph) (ph_filesz ph) in
            if r <? 0 then ret None
            else load_segments num d ip (u32 (off + sizeof_proghdr)) sz
  end.

(** The loop that pushes the argument strings: the stack pointer and the
    addresses of the strings, or [None] for the jump to [bad]. *)
Fixpoint push_args (argv : list (list Z)) (argc : nat) (d sp : Z) (acc : list Z) : M kernel (option (Z * list Z)) :=
  match argv with
  | [] => ret (Some (sp, acc))
  | s :: argv =>
      if decide (MAXARG <= argc)%nat then ret None
      else
        let len := Z.of_nat (length s) + 1 in
        let sp := Z.land (u32 (sp - len)) (u32 (Z.lnot 3)) in
        let* r := inmem (copyout d sp (s ++ [0]) len) in
        if r <? 0 then ret None
        else push_args argv (S argc) d sp (acc ++ [sp])
  end.

(** [ustack]: fake return address, [argc], [argv], the pointers, a null. *)
Definition ustack (sp : Z) (ptrs : list Z) : list Z :=
  let argc := Z.of_nat (length ptrs) in
  [0xffffffff; argc; u32 (sp - (argc + 1) * 4)] ++ ptrs ++ [0].

(** From the stack pages on, with the image loaded in [d]. *)
Definition exec_commit (path : list Z) (argv : list (list Z)) (d sz entry : Z) : M kernel Z :=
  let sz := PGROUNDUP sz in
  let* sz := inmem (allocuvm kend d sz (u32 (sz + 2 * PGSIZE))) in
  if sz =? 0 then exec_bad d None
  else
    inmem (clearpteu d (u32 (sz - 2 * PGSIZE))) ;;;
    let* r := push_args argv 0 d sz [] in
    match r with
    | None => exec_bad d None
    | Some (sp, ptrs) =>
        let u := ustack sp ptrs in
        let len := 4 * Z.of_nat (length u) in
        let sp := u32 (sp - len) in
        let* r := inmem (copyout d sp (enc_addrs u) len) in
        if r <? 0 then exec_bad d None
        else
          let* p := me cur in
          let* name := from_opt (safestrcpy (pname p) (last_elem path path ++ [0]) 16) in
          let old := pgdir p in
          upd_me cur (fun p => set_vm sz d (set_name name p)) ;;;
          tf_set cur tf_eip entry ;;;
          tf_set cur tf_esp sp ;;;
          inmem (freevm kend old) ;;;
          ret 0
    end.

Definition exec (path : list Z) (argv : list (list Z)) : M kernel Z :=
  let* c := my_cwd cur in
  infs (inlog begin_op) ;;;
  let* r := infs (namei devsw c path noname) in
  match r with
  | None => infs (inlog end_op) ;;; ret (-1)
  | Some ip =>
      infs (ilock ip) ;;;
      let* (r, b) := infs (readi devsw ip 0 sizeof_elfhdr) in
      if u32 r <? sizeof_elfhdr then exec_bad 0 (Some ip)
      else
        let elf := dec_elf (memmove_in stack 0 b) in
        if negb (e_magic elf =? ELF_MAGIC) then exec_bad 0 (Some ip)
        else
          let* d := inmem (setupkvm kdata) in
          if d =? 0 then exec_bad 0 (Some ip)
          else
            let* sz := load_segments (Z.to_nat (e_phnum elf)) d ip (e_phoff elf) 0 in
            match sz with
            | None => exec_bad d (Some ip)
            | Some sz =>
                infs (iunlockput ip) ;;;
                infs (inlog end_op) ;;;
                exec_commit path argv d sz (e_entry elf)
            end
  end.

(** The loop of [sys_exec]: the strings from index [i] on. *)
Fixpoint fetch_argv (fuel : nat) (uargv i : Z) : M kernel (option (list (list Z))) :=
  match fuel with
  | O => ret None
  | S fuel =>
      let* r := fetchint cur (u32 (uargv + 4 * i)) in
      match r with
      | None => ret None
      | Some uarg =>
          if uarg =? 0 then ret (Some [])
          else
            let* s := fetchstr cur (u32 uarg) in
            match s with
            | None => ret None
            | Some s =>
                let* l := fetch_argv fuel uargv (i + 1) in
                ret (cons s <$> l)
            end
      end
  end.

Definition sys_exec : M kernel Z :=
  let* path := argstr cur 0 in
  match path with
  | None => ret (-1)
  | Some path =>
      let* uargv := argint cur 1 in
      match uargv with
      | None => ret (-1)
      | Some uargv =>
          let* argv := fetch_argv MAXARG (u32 uargv) 0 in
          match argv with
          | None => ret (-1)
          | Some argv => exec path argv
          end
      end
  end.
End exec.
