(* ===== verification/Sysproc.v ===== *)
(** * Sysproc: processes as the whole kernel sees them (proc.c, sysproc.c)

    [userinit], [growproc], [fork] and [exit] with the memory, the files and
    the directory of the process, and the handlers of sysproc.c. *)
From stdpp Require Import base numbers list gmap strings.
From Stdlib Require Import ZArith Lia.
From S2P Require Import Prelude Bytes StringC Kalloc Vm Proc Buf Bio Log Fs Pipe Kernel Args Sysfile.

Local Open Scope Z_scope.

Definition SEG_UCODE : Z := 4.
Definition SEG_UDATA : Z := 5.
Definition DPL_USER : Z := 3.
Definition FL_IF : Z := 0x200.

(** Offsets in [struct trapframe] besides those of Args. *)
Definition tf_es : Z := 40.
Definition tf_ds : Z := 44.
Definition tf_eflags : Z := 64.
Definition tf_ss : Z := 72.

Section procs.
Context `{BlockDriver} (devsw : list devops) (trapret forkret kend kdata : Z).

Definition at_proc (i : nat) (f : proc -> proc) : M kernel unit := inps (upd_proc i f).
Definition st16 (a v : Z) : M kernel unit := inmem (st_bytes a (le_bytes 2 v)).

(** The trap frame of the first process. *)
Definition init_frame (t : Z) : M kernel unit :=
  inmem (st_bytes t (replicate (Z.to_nat sizeof_trapframe) 0)) ;;;
  st16 (u32 (t + tf_cs)) (Z.lor (Z.shiftl SEG_UCODE 3) DPL_USER) ;;;
  st16 (u32 (t + tf_ds)) (Z.lor (Z.shiftl SEG_UDATA 3) DPL_USER) ;;;
  st16 (u32 (t + tf_es)) (Z.lor (Z.shiftl SEG_UDATA 3) DPL_USER) ;;;
  st16 (u32 (t + tf_ss)) (Z.lor (Z.shiftl SEG_UDATA 3) DPL_USER) ;;;
  inmem (st32 (u32 (t + tf_eflags)) FL_IF) ;;;
  inmem (st32 (u32 (t + tf_esp)) PGSIZE) ;;;
  inmem (st32 (u32 (t + tf_eip)) 0).

(** [initcode]: the image the linker embeds. *)
Definition userinit (initcode : list Z) : M kernel unit :=
  let* r := inps (allocproc trapret forkret) in
  let* i := from_opt r in
  inps (modify (fun s => mk_psys (ptable s) (nextpid s) (total_tickets s) (Some i) (prng s) (km s))) ;;;
  let* d := inmem (setupkvm kdata) in
  at_proc i (fun p => set_vm (sz p) d p) ;;;
  if d =? 0 then panic "userinit: out of memory?"
  else
    inmem (inituvm d initcode (Z.of_nat (length initcode))) ;;;
    at_proc i (fun p => set_vm PGSIZE d p) ;;;
    let* p := me i in
    init_frame (tf p) ;;;
    (** ["initcode"] *)
    let* name := from_opt (safestrcpy (pname p) [105; 110; 105; 116; 99; 111; 100; 101; 0] 16) in
    at_proc i (set_name name) ;;;
    (** [namei("/")] does not look at the current directory. *)
    let* ip := infs (namei devsw 0 [SLASH] noname) in
    at_proc i (fun p => set_files (ofile p) ip p) ;;;
    at_proc i (set_state RUNNABLE) ;;;
    at_proc i (set_tickets INIT_TICKETS).

Section running.
Context (cur : nat).

(** The check of [switchuvm]; the rest of it loads registers. *)
Definition switchuvm : M kernel unit :=
  let* p := me cur in
  if pgdir p =? 0 then panic "switchuvm: no pgdir" else ret tt.

Definition growproc (n : Z) : M kernel Z :=
  let* p := me cur in
  let* r := (if 0 <? n then
               let* s := inmem (allocuvm kend (pgdir p) (sz p) (u32 (sz p + n))) in
               ret (if s =? 0 then None else Some s)
             else if n <? 0 then
               let* s := inmem (deallocuvm kend (pgdir p) (sz p) (u32 (sz p + n))) in
               ret (if s =? 0 then None else Some s)
             else ret (Some (sz p))) in
  match r with
  | None => ret (-1)
  | Some s =>
      upd_me cur (fun p => set_vm s (pgdir p) p) ;;;
      switchuvm ;;;
      ret 0
  end.

(** The loop of [fork] over the open files: descriptor [fd] and the following. *)
Definition dup_fd (np fd : nat) : M kernel unit :=
  let* p := me cur in
  let* o := from_opt (ofile p !! fd) in
  match o with
  | Some f =>
      let* g := filedup f in
      set_fd np fd (Some g)
  | None => ret tt
  end.

Definition fork : M kernel Z :=
  let* r := inps (allocproc trapret forkret) in
  match r with
  | None => ret (-1)
  | Some np =>
      let* p := me cur in
      let* d := inmem (copyuvm kend kdata (pgdir p) (sz p)) in
      at_proc np (fun q => set_vm (sz q) d q) ;;;
      if d =? 0 then
        inps (fork_undo kend np) ;;;
        ret (-1)
      else
        inps (fork_link np cur) ;;;
        let* b := inmem (ld_bytes (tf p) sizeof_trapframe) in
        let* q := me np in
        inmem (st_bytes (tf q) b) ;;;
        tf_set np tf_eax 0 ;;;
        for_M 0 NOFILE (dup_fd np) ;;;
        let* c := my_cwd cur in
        let* c := infs (idup c) in
        at_proc np (fun q => set_files (ofile q) (Some c) q) ;;;
        let* p := me cur in
        let* q := me np in
        let* name := from_opt (safestrcpy (pname q) (pname p) 16) in
        at_proc np (set_name name) ;;;
        inps (fork_run np) ;;;
        ret (pid q)
  end.

(** One round of the loop of [exit] over the open files. *)
Definition close_fd (fd : nat) : M kernel unit :=
  let* p := me cur in
  let* o := from_opt (ofile p !! fd) in
  match o with
  | Some f =>
      fileclose kend f ;;;
      set_fd cur fd None
  | None => ret tt
  end.

(** [exit] up to the switch to the scheduler, which does not come back. *)
Definition exit : M kernel unit :=
  let* s := inps get in
  if decide (initproc s = Some cur) then panic "init exiting"
  else
    for_M 0 NOFILE close_fd ;;;
    infs (inlog begin_op) ;;;
    let* c := my_cwd cur in
    infs (iput c) ;;;
    infs (inlog end_op) ;;;
    upd_me cur (fun p => set_files (ofile p) None p) ;;;
    inps (exit_tail cur).

(** ** The handlers *)

Definition sys_fork : M kernel Z := fork.
Definition sys_wait : M kernel Z := inps (wait kend cur).

Definition sys_kill : M kernel Z :=
  let* n := argint cur 0 in
  match n with
  | None => ret (-1)
  | Some n => inps (kill n)
  end.

Definition sys_getpid : M kernel Z := let* p := me cur in ret (pid p).

Definition sys_sbrk : M kernel Z :=
  let* n := argint cur 0 in
  match n with
  | None => ret (-1)
  | Some n =>
      let* p := me cur in
      let addr := sz p in
      let* r := growproc n in
      if r <? 0 then ret (-1) else ret (i32 addr)
  end.

(** The loop of [sys_sleep], entered again after each wakeup with the
    [ticks0] it started with. *)
Definition sleep_from (ticks0 n : Z) : M kernel Z :=
  let* t := gets ticks in
  if u32 (t - ticks0) <? u32 n then
    let* p := me cur in
    if negb (killed p =? 0) then ret (-1) else sleep_on ChTicks
  else ret 0.
Definition sys_sleep : M kernel Z :=
  let* n := argint cur 0 in
  match n with
  | None => ret (-1)
  | Some n =>
      let* ticks0 := gets ticks in
      sleep_from ticks0 n
  end.

Definition sys_uptime : M kernel Z := let* t := gets ticks in ret (i32 t).

(** [date]: the six words [cmostime] reads from the clock. *)
Definition sys_gettime (date : list Z) : M kernel Z :=
  let* d := argptr cur 0 24 in
  match d with
  | None => ret (-1)
  | Some d => ustore cur d (enc_addrs date) ;;; ret 0
  end.

Definition sys_settickets : M kernel Z :=
  let* n := argint cur 0 in
  match n with
  | None => ret 0
  | Some n => upd_me cur (set_tickets n) ;;; ret n
  end.
End running.
End procs.

(** ** Growing: what [sbrk] promises the allocator of user programs *)

Lemma allocuvm_result kend d oldsz newsz s s' r : oldsz <= newsz ->
  allocuvm kend d oldsz newsz s = Ret s' r -> r = 0 \/ r = newsz /\ newsz < KERNBASE.
Proof.
  unfold allocuvm. intros Hle. destruct (Z.leb_spec KERNBASE newsz) as [|Hk]; [intros [= <- <-]; by left|].
  rewrite (proj2 (Z.ltb_ge _ _)) by lia. generalize (S max_pages), (PGROUNDUP oldsz). intros fuel.
  revert s. induction fuel as [|fuel IH]; intros s a; cbn [alloc_loop]; [done|].
  destruct (a <? newsz); [|intros [= <- <-]; by right].
  intros (s1 & m & _ & R)%bind_inv. destruct (m =? 0).
  - apply bind_inv in R as (s2 & x & _ & [= <- <-]). by left.
  - apply bind_inv in R as (s2 & [] & _ & R). apply bind_inv in R as (s3 & x & _ & R). by eapply IH.
Qed.

Lemma inmem_ptable {A} (m : M kmem A) k k' a : inmem m k = Ret k' a -> ptable (kp k') = ptable (kp k).
Proof.
  unfold inmem, inps, inkm, zoom. destruct (m (km (kp k))) as [t b| | |]; [|done..]. by intros [= <- <-].
Qed.

Lemma upd_me_inv cur f k k' a : upd_me cur f k = Ret k' a ->
  exists p, ptable (kp k) !! cur = Some p /\ ptable (kp k') = <[cur := f p]> (ptable (kp k)).
Proof.
  intros R. unfold upd_me, inps, upd_proc, zoom, proc_at, bind, gets in R.
  destruct (ptable (kp k) !! cur) as [q|]; [|discriminate R]. cbn in R. injection R as <- <-. by exists q.
Qed.

(** A successful [growproc] moves the end of the memory by [n], below
    [KERNBASE]. *)
Theorem growproc_grows kend cur n k k' p :
  ptable (kp k) !! cur = Some p -> 0 < n < 2 ^ 31 -> 0 <= sz p <= KERNBASE -> growproc kend cur n k = Ret k' 0 ->
  exists p', ptable (kp k') !! cur = Some p' /\ sz p' = sz p + n /\ sz p' < KERNBASE.
Proof.
  intros Hp Hn Hsz R. assert (u32 (sz p + n) = sz p + n) as Hu.
  { apply u32_small. unfold is_u32. change KERNBASE with (2 ^ 31) in Hsz. lia. }
  unfold growproc in R. apply bind_inv in R as (k1 & q & R1 & R). apply me_inv in R1 as [-> Hq].
  rewrite Hp in Hq. injection Hq as <-. rewrite (proj2 (Z.ltb_lt 0 n)), Hu in R by lia.
  apply bind_inv in R as (k2 & r & R2 & R). apply bind_inv in R2 as (k3 & s & R3 & [= -> <-]).
  pose proof (inmem_ptable _ _ _ _ R3) as Hpt. unfold inmem, inps, inkm, zoom in R3.
  destruct (allocuvm _ _ _ _ _) as [t s0| | |] eqn:Ea; [|done..]. injection R3 as <- ->.
  apply allocuvm_result in Ea as [->|[-> Hlt]]; [done| |lia].
  rewrite (proj2 (Z.eqb_neq _ _)) in R by lia. apply bind_inv in R as (k4 & [] & R4 & R).
  apply bind_inv in R as (k5 & [] & R5 & [= <-]). unfold switchuvm in R5. apply bind_inv in R5 as (k6 & q & R6 & R5).
  apply me_inv in R6 as [-> Hq]. destruct (pgdir q =? 0); [done|]. injection R5 as <-. exists q. split; [done|].
  apply upd_me_inv in R4 as (p0 & Hp0 & E4). rewrite Hpt, Hp in Hp0. injection Hp0 as <-.
  rewrite E4, Hpt, list_lookup_insert_eq in Hq by (by eapply lookup_lt_Some). injection Hq as <-. split; [done|exact Hlt].
Qed.
