(* ===== verification/Syscall.v ===== *)
(** * Syscall: system call dispatch and traps (syscall.c, trap.c)

    The table of handlers, [syscall], and [trap].  A handler that does not
    come back ([sys_exit]) gives [None].  The interrupt handlers of the
    devices are arguments. *)
From stdpp Require Import base numbers list gmap strings.
From Stdlib Require Import ZArith Lia.
From S2P Require Import Prelude Bytes Kalloc Vm Proc Buf Bio Log Fs Kernel Args Sysfile Exec Sysproc Traps.

Local Open Scope Z_scope.

Section syscall.
Context `{BlockDriver} (devsw : list devops) (trapret forkret kend kdata : Z) (stack date : list Z).

Definition returning (m : M kernel Z) : M kernel (option Z) := let* r := m in ret (Some r).

(** [syscalls[]] *)
Definition syscalls (cur : nat) (num : Z) : option (M kernel (option Z)) :=
  match num with
  | 1 => Some (returning (sys_fork trapret forkret kend kdata cur))
  | 2 => Some (exit kend cur ;;; ret None)
  | 3 => Some (returning (sys_wait kend cur))
  | 4 => Some (returning (sys_pipe cur kend))
  | 5 => Some (returning (sys_read cur devsw))
  | 6 => Some (returning (sys_kill cur))
  | 7 => Some (returning (sys_exec cur devsw kend kdata stack))
  | 8 => Some (returning (sys_fstat cur))
  | 9 => Some (returning (sys_chdir cur devsw))
  | 10 => Some (returning (sys_dup cur))
  | 11 => Some (returning (sys_getpid cur))
  | 12 => Some (returning (sys_sbrk kend cur))
  | 13 => Some (returning (sys_sleep cur))
  | 14 => Some (returning sys_uptime)
  | 15 => Some (returning (sys_open cur devsw kend))
  | 16 => Some (returning (sys_write cur devsw))
  | 17 => Some (returning (sys_mknod cur devsw))
  | 18 => Some (returning (sys_unlink cur devsw))
  | 19 => Some (returning (sys_link cur devsw))
  | 20 => Some (returning (sys_mkdir cur devsw))
  | 21 => Some (returning (sys_close cur kend))
  | 22 => Some (returning (sys_gettime cur date))
  | 23 => Some (returning (sys_settickets cur))
  | _ => None
  end.

(** The result says whether the process is still there. *)
Definition syscall (cur : nat) : M kernel bool :=
  let* num := tf_get cur tf_eax in
  match syscalls cur num with
  | Some h =>
      let* r := h in
      match r with
      | Some v => tf_set cur tf_eax (u32 v) ;;; ret true
      | None => ret false
      end
  | None =>
      kprint "unknown sys call" ;;;
      tf_set cur tf_eax (u32 (-1)) ;;;
      ret true
  end.

(** ** Traps *)

Context (ideintr kbdintr uartintr : M kernel unit).

Definition is_killed (cur : nat) : M kernel bool := let* p := me cur in ret (negb (killed p =? 0)).

(** [exit] when the process was killed; the result says whether it goes on. *)
Definition exit_killed (cur : nat) (user : bool) : M kernel bool :=
  let* k := is_killed cur in
  if k && user then exit kend cur ;;; ret false else ret true.

Definition set_tf (t : Z) (p : proc) : proc := set_frames t (context p) p.

(** A system call through the trap frame at [t]. *)
Definition trap_syscall (t : Z) (cur : nat) : M kernel bool :=
  let* go := exit_killed cur true in
  if negb go then ret false
  else
    upd_me cur (set_tf t) ;;;
    let* back := syscall cur in
    if negb back then ret false else exit_killed cur true.

(** The switch of [trap] on the trap number. *)
Definition trap_switch (cpuid trapno : Z) (user : bool) (proc : option nat) : M kernel unit :=
  if trapno =? T_IRQ0 + IRQ_TIMER then
    whenM (cpuid =? 0)
      (let* t := gets ticks in
       modify (set_ticks (u32 (t + 1))) ;;;
       inps (wakeup ChTicks))
  else if trapno =? T_IRQ0 + IRQ_IDE then ideintr
  else if trapno =? T_IRQ0 + IRQ_IDE + 1 then ret tt
  else if trapno =? T_IRQ0 + IRQ_KBD then kbdintr
  else if trapno =? T_IRQ0 + IRQ_COM1 then uartintr
  else if (trapno =? T_IRQ0 + 7) || (trapno =? T_IRQ0 + IRQ_SPURIOUS) then kprint "spurious interrupt"
  else
    match proc with
    | Some cur =>
        if negb user then panic "trap"
        else kprint "kill proc" ;;; upd_me cur (set_killed 1)
    | None => panic "trap"
    end.

(** How [trap] leaves the process: it goes on, it is gone, or it gave up the
    processor and will go on with [trap_resume]. *)
Inductive after := Resume | Gone | Yielded.

Definition trap_resume (user : bool) (cur : nat) : M kernel after :=
  let* go := exit_killed cur user in
  ret (if go then Resume else Gone).

(** [trap] on processor [cpuid], with [proc] and the frame at [t]. *)
Definition trap (cpuid : Z) (proc : option nat) (t : Z) : M kernel after :=
  let* trapno := inmem (ld32 (u32 (t + tf_trapno))) in
  let* cs := inmem (ld32 (u32 (t + tf_cs))) in
  let user := Z.land cs 3 =? DPL_USER in
  if trapno =? T_SYSCALL then
    let* cur := from_opt proc in
    let* go := trap_syscall t cur in
    ret (if go then Resume else Gone)
  else
    trap_switch cpuid trapno (negb (Z.land cs 3 =? 0)) proc ;;;
    match proc with
    | None => ret Resume
    | Some cur =>
        let* go := exit_killed cur user in
        if negb go then ret Gone
        else
          let* p := me cur in
          if bool_decide (pstate p = RUNNING) && (trapno =? T_IRQ0 + IRQ_TIMER) then
            inps (yield cur) ;;;
            ret Yielded
          else trap_resume user cur
    end.
End syscall.
