(* ===== verification/Usys.v ===== *)
(** * Usys: running user programs on the kernel (usys.S, user.h)

    The library routine of a system call puts its number into %eax and traps;
    its arguments are on the user stack.  [kcall] does that for each call of
    [prog]: it stores the data of the call in the user's memory through the
    page tables, runs [trap], and takes the results from the trap frame and
    from memory.  With it a program runs on the kernel, from [trap] down to
    the disk; [passes] says that it comes to its end and what it printed. *)
From stdpp Require Import base numbers list gmap strings.
From Stdlib Require Import ZArith Lia.
From S2P Require Import Prelude Bytes Kalloc Vm Proc Buf Bio Log Fs FsFile Pipe Kernel Args Sysfile Exec Sysproc Traps Syscall User Progs Mkfs.

Local Open Scope Z_scope.

(** ** System call stubs *)

Section stub.
Context `{BlockDriver} (devsw : list devops) (kend kdata : Z) (cur : nat).

(** Where the program keeps its stack, its strings and its buffer. *)
Definition esp : Z := 0x40.
Definition strings : Z := 0x1000.
Definition strings2 : Z := 0x2000.
Definition argvs : Z := 0x2800.
Definition buffer : Z := 0x3000.

(** [int $T_SYSCALL] *)
Definition int_syscall : M kernel unit :=
  tf_set cur tf_trapno T_SYSCALL ;;;
  let* p := me cur in
  let* r := trap devsw 0 0 kend kdata [] [] (ret tt) (ret tt) (ret tt) 0 (Some cur) (tf p) in
  match r with Resume => ret tt | _ => fault end.

(** [SYSCALL(name)]: below the arguments is the return address. *)
Definition stub (num : Z) (args : list Z) : M kernel Z :=
  ustore cur esp ((0 :: args) ≫= le_bytes 4) ;;;
  tf_set cur tf_eax num ;;;
  int_syscall ;;;
  let* r := tf_get cur tf_eax in
  ret (i32 r).

Definition put_string (a : Z) (s : list Z) : M kernel unit := ustore cur a (s ++ [0]).

(** The strings of [argv] one after the other from [a] on, and their addresses. *)
Fixpoint put_strings (a : Z) (argv : list (list Z)) : M kernel (list Z) :=
  match argv with
  | [] => ret []
  | s :: argv =>
      put_string a s ;;;
      let* l := put_strings (a + Z.of_nat (length s) + 1) argv in
      ret (a :: l)
  end.

Definition kcall {X} (c : call X) : M kernel X :=
  match c in call X return M kernel X with
  | cFork => stub 1 []
  | cWait => stub 3 []
  | cPipe =>
      let* r := stub 4 [buffer] in
      let* l := uload cur buffer 8 in
      ret (r, (i32 (rd32 l 0), i32 (rd32 l 4)))
  | cRead fd n =>
      let* r := stub 5 [fd; buffer; n] in
      let* l := uload cur buffer (Z.to_nat r) in
      ret (r, l)
  | cKill pid => stub 6 [pid]
  | cExec path argv =>
      put_string strings path ;;;
      let* ptrs := put_strings strings2 argv in
      ustore cur argvs ((ptrs ++ [0]) ≫= le_bytes 4) ;;;
      stub 7 [strings; argvs]
  | cFstat fd =>
      let* r := stub 8 [fd; buffer] in
      let* l := uload cur buffer 20 in
      ret (r, mk_ustat (i16 (rd16 l 0)) (i32 (rd32 l 4)) (rd32 l 8) (i16 (rd16 l 12)) (rd32 l 16))
  | cChdir path => put_string strings path ;;; stub 9 [strings]
  | cDup fd => stub 10 [fd]
  | cGetpid => stub 11 []
  | cSbrk n => stub 12 [n]
  | cSleep n => stub 13 [n]
  | cUptime => stub 14 []
  | cOpen path mode => put_string strings path ;;; stub 15 [strings; mode]
  | cWrite fd l => ustore cur buffer l ;;; stub 16 [fd; buffer; Z.of_nat (length l)]
  | cMknod path major minor => put_string strings path ;;; stub 17 [strings; major; minor]
  | cUnlink path => put_string strings path ;;; stub 18 [strings]
  | cLink old new => put_string strings old ;;; put_string strings2 new ;;; stub 19 [strings; strings2]
  | cMkdir path => put_string strings path ;;; stub 20 [strings]
  | cClose fd => stub 21 [fd]
  | cSettickets n => stub 23 [n]
  end.

(** The kernel, or how it stopped, and what was written to descriptor 1. *)
Record machine := mk_machine { kern : outcome kernel unit; printed : list Z }.

Definition output {X} (c : call X) : list Z :=
  match c with cWrite fd l => if fd =? 1 then l else [] | _ => [] end.

Definition h_kernel (X : Type) (c : call X) (s : machine) : X * machine :=
  match kern s with
  | Ret k _ =>
      match kcall c k with
      | Ret k' x => (x, mk_machine (Ret k' tt) (printed s ++ output c))
      | Panic m => (h_fail c, mk_machine (Panic m) (printed s))
      | Sleep ch k' => (h_fail c, mk_machine (Sleep ch k') (printed s))
      | Fault => (h_fail c, mk_machine Fault (printed s))
      end
  | _ => (h_fail c, s)
  end.
End stub.

(** ** A machine with one process *)

#[local] Existing Instance mem_driver.

(** The console takes what is written to it. *)
Definition run_devsw : list devops := [mk_devops None None; mk_devops None (Some (fun _ _ n => ret n))].

(** Eight pages at 0, by the tables at 0x80001000 and 0x80002000; the trap
    frame is at 0x80010000. *)
Definition run_ram : ram :=
  foldr (fun i m => store32 (0x80002000 + 4 * i) (0x3007 + PGSIZE * i) m)
    (store32 0x80001000 0x2007
      (store32 (0x80010000 + tf_esp) esp (store32 (0x80010000 + tf_cs) (Z.lor (Z.shiftl SEG_UCODE 3) DPL_USER) ∅))) (seqZ 0 8).
Definition run_proc : proc :=
  mk_proc 0x8000 0x80001000 0x80010000 RUNNING 1 None 0x80010000 0 None 0
    (replicate NOFILE None) None (replicate 16 0) INIT_TICKETS.

(** The disk that mkfs makes of two files. *)
Definition run_args : list arg := [mk_arg (B "_echo") (Some [B "#!"]); mk_arg (B "README") (Some [B "xv6"])].
Definition image_of (o : outcome mkfs unit) : gmap Z block := match o with Ret s _ => img s | _ => ∅ end.
Definition run_disk : gmap Z block := image_of (Mkfs.main run_args mkfs0).

Definition no_inode : inode := mk_inode 0 0 0 0 0 0 0 0 0 (replicate (S NDIRECT) 0).
Definition run_kernel : kernel :=
  mk_kernel (mk_psys [run_proc] 2 INIT_TICKETS None Rand.rng_boot (mk_kmem 1 0 run_ram))
    (mk_fs (mk_sb 0 0 0 0 0 0 0) (replicate NINODE no_inode) (boot_log run_disk))
    (replicate NFILE (mk_file FD_NONE 0 0 0 0 None 0)) ∅ 0 [].

(** What [userinit] and [forkret] do for the first process: its directory,
    the superblock and the log. *)
Definition run_start : M kernel unit :=
  let* ip := infs (namei run_devsw 0 [SLASH] noname) in
  upd_me 0 (fun p => set_files (ofile p) ip p) ;;;
  infs (iinit ROOTDEV) ;;;
  infs (inlog (initlog ROOTDEV)).

Definition run_machine : machine := mk_machine (run_start run_kernel) [].

Definition on_kernel {A} (m : prog A) : User.result A machine :=
  run (h_kernel run_devsw 0x80100000 0x80108000 0) m run_machine.

(** What is in use: descriptors, open files, inodes and data blocks. *)
Definition dinode_used (V : Z -> block) (n : Z) : bool := negb (rd16 (V (IBLOCK n super)) (dinode_off n) =? 0).
Definition in_use (k : kernel) : list (list (option nat)) * list Z * nat * nat :=
  let V := disk_read (dsk (bio (fls (kf k)))) in
  (ofile <$> ptable (kp k), fref <$> ftable k, length (List.filter (dinode_used V) (seqZ 0 NINODES)), nfree super V).

(** The program, started with the console open, returns, the kernel runs on,
    and the output is [out]. *)
Definition passes (m : prog unit) (out : list Z) : Prop :=
  exists k, on_kernel (Init.console ;; m) = RDone tt (mk_machine (Ret k tt) out).

(** Besides, nothing is in use that was not before. *)
Definition passes_clean (m : prog unit) (out : list Z) : Prop :=
  exists k0 k, on_kernel Init.console = RDone tt (mk_machine (Ret k0 tt) []) /\
    on_kernel (Init.console ;; m) = RDone tt (mk_machine (Ret k tt) out) /\ in_use k = in_use k0.

Definition ended (r : User.result unit machine) (out : list Z) : option kernel :=
  match r with
  | RDone _ (mk_machine (Ret k _) o) => if bool_decide (o = out) then Some k else None
  | _ => None
  end.
Definition passes_b (m : prog unit) (out : list Z) : bool := bool_decide (is_Some (ended (on_kernel (Init.console ;; m)) out)).
Definition same_use (k0 k : option kernel) : bool :=
  match k0, k with Some k0, Some k => bool_decide (in_use k = in_use k0) | _, _ => false end.
Definition clean_b (m : prog unit) (out : list Z) : bool :=
  same_use (ended (on_kernel Init.console) []) (ended (on_kernel (Init.console ;; m)) out).

Lemma ended_done r out k : ended r out = Some k -> r = RDone tt (mk_machine (Ret k tt) out).
Proof. destruct r as [[] [[k' []| | |] o]| |]; try done. cbn. case_bool_decide as E; [|done]. intros [= ->]. by subst. Qed.

Lemma passes_bool m out : passes_b m out = true -> passes m out.
Proof. unfold passes_b, passes. intros [k Hk]%bool_decide_eq_true. exists k. exact (ended_done _ _ _ Hk). Qed.

Lemma clean_bool m out : clean_b m out = true -> passes_clean m out.
Proof.
  unfold clean_b, same_use, passes_clean. destruct (ended _ []) as [k0|] eqn:E0; [|done]. destruct (ended _ out) as [k|] eqn:E; [|done].
  intros Hu%bool_decide_eq_true. exists k0, k.
  exact (conj (ended_done _ _ _ E0) (conj (ended_done _ _ _ E) Hu)).
Qed.
