(* ===== verification/Usertests.v ===== *)
(** * Usertests: the file system tests of usertests.c, run on the kernel

    The tests that need one process, as programs, and their runs on the
    kernel of Usys: from an image that mkfs made, through trap, system calls,
    files, inodes, the log and the buffer cache to the disk, each of them
    comes to its end, prints what it should, and those that clean up after
    themselves leave no descriptor, inode or block behind.  The tests on large
    files are run with files that are lists of bytes, and those with children
    with a simple model of pipes or processes. *)
From stdpp Require Import base numbers list gmap strings.
From Stdlib Require Import ZArith Lia.
From S2P Require Import Prelude Bytes Buf Bio Log Fs FsWrite Sysfile User Printf Progs Tests Hackbench Mkfs Usys.

Local Open Scope Z_scope.

(** ** The tests *)

(** The tests print a message and exit when something is wrong. *)
Definition check (wrong : bool) (msg : list Z) : prog unit := if wrong then printf 1 msg [] ;; Exit else Done tt.

Fixpoint for_in (l : list Z) (body : Z -> prog unit) : prog unit :=
  match l with
  | [] => Done tt
  | i :: l => body i ;; for_in l body
  end.

Definition O_NEW : Z := Z.lor O_CREATE O_RDWR.

Definition iputtest : prog unit :=
  printf 1 (ln "iput test") [] ;;
  do r <- sys (cMkdir (B "iputdir"));
  check (r <? 0) (ln "mkdir failed") ;;
  do r <- sys (cChdir (B "iputdir"));
  check (r <? 0) (ln "chdir iputdir failed") ;;
  do r <- sys (cUnlink (B "../iputdir"));
  check (r <? 0) (ln "unlink ../iputdir failed") ;;
  do r <- sys (cChdir (B "/"));
  check (r <? 0) (ln "chdir / failed") ;;
  printf 1 (ln "iput test ok") [].

Definition opentest : prog unit :=
  printf 1 (ln "open test") [] ;;
  do fd <- sys (cOpen (B "echo") 0);
  check (fd <? 0) (ln "open echo failed!") ;;
  sys (cClose fd) ;;
  do fd <- sys (cOpen (B "doesnotexist") 0);
  check (0 <=? fd) (ln "open doesnotexist succeeded!") ;;
  printf 1 (ln "open test ok") [].

(** A failure that names the number of the round. *)
Definition check_at (wrong : bool) (msg : list Z) (i : Z) : prog unit :=
  if wrong then printf 1 msg [AInt i] ;; Exit else Done tt.

(** [rounds] is 100. *)
Definition writetest (rounds : Z) : prog unit :=
  printf 1 (ln "small file test") [] ;;
  do fd <- sys (cOpen (B "small") O_NEW);
  check (fd <? 0) (ln "error: creat small failed!") ;;
  printf 1 (ln "creat small succeeded; ok") [] ;;
  for_in (seqZ 0 rounds) (fun i =>
    do r <- sys (cWrite fd (B "aaaaaaaaaa"));
    check_at (negb (r =? 10)) (ln "error: write aa %d new file failed") i ;;
    do r <- sys (cWrite fd (B "bbbbbbbbbb"));
    check_at (negb (r =? 10)) (ln "error: write bb %d new file failed") i) ;;
  printf 1 (ln "writes ok") [] ;;
  sys (cClose fd) ;;
  do fd <- sys (cOpen (B "small") O_RDONLY);
  check (fd <? 0) (ln "error: open small failed!") ;;
  printf 1 (ln "open small succeeded ok") [] ;;
  do (i, _) <- sys (cRead fd (20 * rounds));
  check (negb (i =? 20 * rounds)) (ln "read failed") ;;
  printf 1 (ln "read succeeded ok") [] ;;
  sys (cClose fd) ;;
  do r <- sys (cUnlink (B "small"));
  check (r <? 0) (ln "unlink small failed") ;;
  printf 1 (ln "small file test ok") [].

(** The loop that reads the blocks back; its result is [n]. *)
Fixpoint read_big (fuel : nat) (blocks fd n : Z) : prog Z :=
  match fuel with
  | O => Stuck
  | S fuel =>
      do (i, l) <- sys (cRead fd 512);
      if i =? 0 then
        if n =? blocks - 1 then printf 1 (B "read only %d blocks from big") [AInt n] ;; Exit else Done n
      else if negb (i =? 512) then printf 1 (ln "read failed %d") [AInt i] ;; Exit
      else
        let b := i32 (rd32 l 0) in
        if negb (b =? n) then printf 1 (ln "read content of block %d is %d") [AInt n; AInt b] ;; Exit
        else read_big fuel blocks fd (n + 1)
  end.

(** [buf] is the global buffer; [blocks] is [MAXFILE]. *)
Definition writetest1 (blocks : Z) (buf : list Z) : prog unit :=
  printf 1 (ln "big files test") [] ;;
  do fd <- sys (cOpen (B "big") O_NEW);
  check (fd <? 0) (ln "error: creat big failed!") ;;
  for_in (seqZ 0 blocks) (fun i =>
    do r <- sys (cWrite fd (take 512 (wr32 buf 0 i)));
    check (negb (r =? 512)) (ln "error: write big file failed")) ;;
  sys (cClose fd) ;;
  do fd <- sys (cOpen (B "big") O_RDONLY);
  check (fd <? 0) (ln "error: open big failed!") ;;
  do n <- read_big (S (Z.to_nat blocks)) blocks fd 0;
  sys (cClose fd) ;;
  do r <- sys (cUnlink (B "big"));
  check (r <? 0) (ln "unlink big failed") ;;
  printf 1 (ln "big files ok") [].

(** [files] is 52. *)
Definition createtest (files : Z) : prog unit :=
  printf 1 (ln "many creates, followed by unlink test") [] ;;
  for_in (seqZ 0 files) (fun i =>
    do fd <- sys (cOpen [97; 48 + i] O_NEW);
    sys (cClose fd) ;; Done tt) ;;
  for_in (seqZ 0 files) (fun i => sys (cUnlink [97; 48 + i]) ;; Done tt) ;;
  printf 1 (ln "many creates, followed by unlink; ok") [].

Definition dirtest : prog unit :=
  printf 1 (ln "mkdir test") [] ;;
  do r <- sys (cMkdir (B "dir0"));
  check (r <? 0) (ln "mkdir failed") ;;
  do r <- sys (cChdir (B "dir0"));
  check (r <? 0) (ln "chdir dir0 failed") ;;
  do r <- sys (cChdir (B ".."));
  check (r <? 0) (ln "chdir .. failed") ;;
  do r <- sys (cUnlink (B "dir0"));
  check (r <? 0) (ln "unlink dir0 failed") ;;
  printf 1 (ln "mkdir test ok") [].

Definition unlinkread (buf : list Z) : prog unit :=
  printf 1 (ln "unlinkread test") [] ;;
  do fd <- sys (cOpen (B "unlinkread") O_NEW);
  check (fd <? 0) (ln "create unlinkread failed") ;;
  sys (cWrite fd (B "hello")) ;;
  sys (cClose fd) ;;
  do fd <- sys (cOpen (B "unlinkread") O_RDWR);
  check (fd <? 0) (ln "open unlinkread failed") ;;
  do r <- sys (cUnlink (B "unlinkread"));
  check (negb (r =? 0)) (ln "unlink unlinkread failed") ;;
  do fd1 <- sys (cOpen (B "unlinkread") O_NEW);
  sys (cWrite fd1 (B "yyy")) ;;
  sys (cClose fd1) ;;
  do (r, l) <- sys (cRead fd 8192);
  check (negb (r =? 5)) (B "unlinkread read failed") ;;
  let buf := memmove_in buf 0 l in
  check (negb (buf !!! 0%nat =? 104)) (ln "unlinkread wrong data") ;;
  do r <- sys (cWrite fd (take 10 buf));
  check (negb (r =? 10)) (ln "unlinkread write failed") ;;
  sys (cClose fd) ;;
  sys (cUnlink (B "unlinkread")) ;;
  printf 1 (ln "unlinkread ok") [].

Definition linktest : prog unit :=
  printf 1 (ln "linktest") [] ;;
  sys (cUnlink (B "lf1")) ;;
  sys (cUnlink (B "lf2")) ;;
  do fd <- sys (cOpen (B "lf1") O_NEW);
  check (fd <? 0) (ln "create lf1 failed") ;;
  do r <- sys (cWrite fd (B "hello"));
  check (negb (r =? 5)) (ln "write lf1 failed") ;;
  sys (cClose fd) ;;
  do r <- sys (cLink (B "lf1") (B "lf2"));
  check (r <? 0) (ln "link lf1 lf2 failed") ;;
  sys (cUnlink (B "lf1")) ;;
  do r <- sys (cOpen (B "lf1") 0);
  check (0 <=? r) (ln "unlinked lf1 but it is still there!") ;;
  do fd <- sys (cOpen (B "lf2") 0);
  check (fd <? 0) (ln "open lf2 failed") ;;
  do (r, _) <- sys (cRead fd 8192);
  check (negb (r =? 5)) (ln "read lf2 failed") ;;
  sys (cClose fd) ;;
  do r <- sys (cLink (B "lf2") (B "lf2"));
  check (0 <=? r) (ln "link lf2 lf2 succeeded! oops") ;;
  sys (cUnlink (B "lf2")) ;;
  do r <- sys (cLink (B "lf2") (B "lf1"));
  check (0 <=? r) (ln "link non-existant succeeded! oops") ;;
  do r <- sys (cLink (B ".") (B "lf1"));
  check (0 <=? r) (ln "link . lf1 succeeded! oops") ;;
  printf 1 (ln "linktest ok") [].

(** The calls of [subdir] that must fail. *)
Definition subdir_denied : prog unit :=
  do r <- sys (cOpen (B "dd/dd/ff") O_RDONLY);
  check (0 <=? r) (ln "open (unlinked) dd/dd/ff succeeded!") ;;
  do r <- sys (cOpen (B "dd/ff/ff") O_NEW);
  check (0 <=? r) (ln "create dd/ff/ff succeeded!") ;;
  do r <- sys (cOpen (B "dd/xx/ff") O_NEW);
  check (0 <=? r) (ln "create dd/xx/ff succeeded!") ;;
  do r <- sys (cOpen (B "dd") O_CREATE);
  check (0 <=? r) (ln "create dd succeeded!") ;;
  do r <- sys (cOpen (B "dd") O_RDWR);
  check (0 <=? r) (ln "open dd rdwr succeeded!") ;;
  do r <- sys (cOpen (B "dd") O_WRONLY);
  check (0 <=? r) (ln "open dd wronly succeeded!") ;;
  do r <- sys (cLink (B "dd/ff/ff") (B "dd/dd/xx"));
  check (r =? 0) (ln "link dd/ff/ff dd/dd/xx succeeded!") ;;
  do r <- sys (cLink (B "dd/xx/ff") (B "dd/dd/xx"));
  check (r =? 0) (ln "link dd/xx/ff dd/dd/xx succeeded!") ;;
  do r <- sys (cLink (B "dd/ff") (B "dd/dd/ffff"));
  check (r =? 0) (ln "link dd/ff dd/dd/ffff succeeded!") ;;
  do r <- sys (cMkdir (B "dd/ff/ff"));
  check (r =? 0) (ln "mkdir dd/ff/ff succeeded!") ;;
  do r <- sys (cMkdir (B "dd/xx/ff"));
  check (r =? 0) (ln "mkdir dd/xx/ff succeeded!") ;;
  do r <- sys (cMkdir (B "dd/dd/ffff"));
  check (r =? 0) (ln "mkdir dd/dd/ffff succeeded!") ;;
  do r <- sys (cUnlink (B "dd/xx/ff"));
  check (r =? 0) (ln "unlink dd/xx/ff succeeded!") ;;
  do r <- sys (cUnlink (B "dd/ff/ff"));
  check (r =? 0) (ln "unlink dd/ff/ff succeeded!") ;;
  do r <- sys (cChdir (B "dd/ff"));
  check (r =? 0) (ln "chdir dd/ff succeeded!") ;;
  do r <- sys (cChdir (B "dd/xx"));
  check (r =? 0) (ln "chdir dd/xx succeeded!").

Definition subdir : prog unit :=
  printf 1 (ln "subdir test") [] ;;
  sys (cUnlink (B "ff")) ;;
  do r <- sys (cMkdir (B "dd"));
  check (negb (r =? 0)) (ln "subdir mkdir dd failed") ;;
  do fd <- sys (cOpen (B "dd/ff") O_NEW);
  check (fd <? 0) (ln "create dd/ff failed") ;;
  sys (cWrite fd (B "ff")) ;;
  sys (cClose fd) ;;
  do r <- sys (cUnlink (B "dd"));
  check (0 <=? r) (ln "unlink dd (non-empty dir) succeeded!") ;;
  do r <- sys (cMkdir (B "/dd/dd"));
  check (negb (r =? 0)) (ln "subdir mkdir dd/dd failed") ;;
  do fd <- sys (cOpen (B "dd/dd/ff") O_NEW);
  check (fd <? 0) (ln "create dd/dd/ff failed") ;;
  sys (cWrite fd (B "FF")) ;;
  sys (cClose fd) ;;
  do fd <- sys (cOpen (B "dd/dd/../ff") 0);
  check (fd <? 0) (ln "open dd/dd/../ff failed") ;;
  do (cc, l) <- sys (cRead fd 8192);
  check (negb (cc =? 2) || negb (l !!! 0%nat =? 102)) (ln "dd/dd/../ff wrong content") ;;
  sys (cClose fd) ;;
  do r <- sys (cLink (B "dd/dd/ff") (B "dd/dd/ffff"));
  check (negb (r =? 0)) (ln "link dd/dd/ff dd/dd/ffff failed") ;;
  do r <- sys (cUnlink (B "dd/dd/ff"));
  check (negb (r =? 0)) (ln "unlink dd/dd/ff failed") ;;
  do r <- sys (cOpen (B "dd/dd/ff") O_RDONLY);
  check (0 <=? r) (ln "open (unlinked) dd/dd/ff succeeded") ;;
  do r <- sys (cChdir (B "dd"));
  check (negb (r =? 0)) (ln "chdir dd failed") ;;
  do r <- sys (cChdir (B "dd/../../dd"));
  check (negb (r =? 0)) (ln "chdir dd/../../dd failed") ;;
  do r <- sys (cChdir (B "dd/../../../dd"));
  check (negb (r =? 0)) (ln "chdir dd/../../dd failed") ;;
  do r <- sys (cChdir (B "./.."));
  check (negb (r =? 0)) (ln "chdir ./.. failed") ;;
  do fd <- sys (cOpen (B "dd/dd/ffff") 0);
  check (fd <? 0) (ln "open dd/dd/ffff failed") ;;
  do (r, _) <- sys (cRead fd 8192);
  check (negb (r =? 2)) (ln "read dd/dd/ffff wrong len") ;;
  sys (cClose fd) ;;
  subdir_denied ;;
  do r <- sys (cUnlink (B "dd/dd/ffff"));
  check (negb (r =? 0)) (ln "unlink dd/dd/ff failed") ;;
  do r <- sys (cUnlink (B "dd/ff"));
  check (negb (r =? 0)) (ln "unlink dd/ff failed") ;;
  do r <- sys (cUnlink (B "dd"));
  check (r =? 0) (ln "unlink non-empty dd succeeded!") ;;
  do r <- sys (cUnlink (B "dd/dd"));
  check (r <? 0) (ln "unlink dd/dd failed") ;;
  do r <- sys (cUnlink (B "dd"));
  check (r <? 0) (ln "unlink dd failed") ;;
  printf 1 (ln "subdir ok") [].

(** The values of [sz] in [for(sz = 499; sz < 12*512; sz += 471)]. *)
Definition bigwrite_sizes : list Z := (fun j => 499 + 471 * j) <$> seqZ 0 12.

Definition bigwrite (sizes buf : list Z) : prog unit :=
  printf 1 (ln "bigwrite test") [] ;;
  sys (cUnlink (B "bigwrite")) ;;
  for_in sizes (fun sz =>
    do fd <- sys (cOpen (B "bigwrite") O_NEW);
    check (fd <? 0) (ln "cannot create bigwrite") ;;
    for_in (seqZ 0 2) (fun i =>
      do cc <- sys (cWrite fd (take (Z.to_nat sz) buf));
      if negb (cc =? sz) then printf 1 (ln "write(%d) ret %d") [AInt sz; AInt cc] ;; Exit else Done tt) ;;
    sys (cClose fd) ;;
    sys (cUnlink (B "bigwrite")) ;; Done tt) ;;
  printf 1 (ln "bigwrite ok") [].

(** The loop of [bigfile] that reads the file back; its result is [total]. *)
Fixpoint read_bigfile (fuel : nat) (fd i total : Z) : prog Z :=
  match fuel with
  | O => Stuck
  | S fuel =>
      do (cc, l) <- sys (cRead fd 300);
      check (cc <? 0) (ln "read bigfile failed") ;;
      if cc =? 0 then Done total
      else
        check (negb (cc =? 300)) (ln "short read bigfile") ;;
        check (negb (l !!! 0%nat =? i / 2) || negb (l !!! 299%nat =? i / 2)) (ln "read bigfile wrong data") ;;
        read_bigfile fuel fd (i + 1) (total + cc)
  end.

(** [rounds] is 20. *)
Definition bigfile (rounds : Z) : prog unit :=
  printf 1 (ln "bigfile test") [] ;;
  sys (cUnlink (B "bigfile")) ;;
  do fd <- sys (cOpen (B "bigfile") O_NEW);
  check (fd <? 0) (B "cannot create bigfile") ;;
  for_in (seqZ 0 rounds) (fun i =>
    do r <- sys (cWrite fd (replicate 600 i));
    check (negb (r =? 600)) (ln "write bigfile failed")) ;;
  sys (cClose fd) ;;
  do fd <- sys (cOpen (B "bigfile") 0);
  check (fd <? 0) (ln "cannot open bigfile") ;;
  do total <- read_bigfile (Z.to_nat (2 * rounds + 2)) fd 0 0;
  sys (cClose fd) ;;
  check (negb (total =? rounds * 600)) (ln "read bigfile wrong total") ;;
  sys (cUnlink (B "bigfile")) ;;
  printf 1 (ln "bigfile test ok") [].

Definition fourteen : prog unit :=
  printf 1 (ln "fourteen test") [] ;;
  do r <- sys (cMkdir (B "12345678901234"));
  check (negb (r =? 0)) (ln "mkdir 12345678901234 failed") ;;
  do r <- sys (cMkdir (B "12345678901234/123456789012345"));
  check (negb (r =? 0)) (ln "mkdir 12345678901234/123456789012345 failed") ;;
  do fd <- sys (cOpen (B "123456789012345/123456789012345/123456789012345") O_CREATE);
  check (fd <? 0) (ln "create 123456789012345/123456789012345/123456789012345 failed") ;;
  sys (cClose fd) ;;
  do fd <- sys (cOpen (B "12345678901234/12345678901234/12345678901234") 0);
  check (fd <? 0) (ln "open 12345678901234/12345678901234/12345678901234 failed") ;;
  sys (cClose fd) ;;
  do r <- sys (cMkdir (B "12345678901234/12345678901234"));
  check (r =? 0) (ln "mkdir 12345678901234/12345678901234 succeeded!") ;;
  do r <- sys (cMkdir (B "123456789012345/12345678901234"));
  check (r =? 0) (ln "mkdir 12345678901234/123456789012345 succeeded!") ;;
  printf 1 (ln "fourteen ok") [].

Definition rmdot : prog unit :=
  printf 1 (ln "rmdot test") [] ;;
  do r <- sys (cMkdir (B "dots"));
  check (negb (r =? 0)) (ln "mkdir dots failed") ;;
  do r <- sys (cChdir (B "dots"));
  check (negb (r =? 0)) (ln "chdir dots failed") ;;
  do r <- sys (cUnlink (B "."));
  check (r =? 0) (ln "rm . worked!") ;;
  do r <- sys (cUnlink (B ".."));
  check (r =? 0) (ln "rm .. worked!") ;;
  do r <- sys (cChdir (B "/"));
  check (negb (r =? 0)) (ln "chdir / failed") ;;
  do r <- sys (cUnlink (B "dots/."));
  check (r =? 0) (ln "unlink dots/. worked!") ;;
  do r <- sys (cUnlink (B "dots/.."));
  check (r =? 0) (ln "unlink dots/.. worked!") ;;
  do r <- sys (cUnlink (B "dots"));
  check (negb (r =? 0)) (ln "unlink dots failed!") ;;
  printf 1 (ln "rmdot ok") [].

Definition dirfile : prog unit :=
  printf 1 (ln "dir vs file") [] ;;
  do fd <- sys (cOpen (B "dirfile") O_CREATE);
  check (fd <? 0) (ln "create dirfile failed") ;;
  sys (cClose fd) ;;
  do r <- sys (cChdir (B "dirfile"));
  check (r =? 0) (ln "chdir dirfile succeeded!") ;;
  do fd <- sys (cOpen (B "dirfile/xx") 0);
  check (0 <=? fd) (ln "create dirfile/xx succeeded!") ;;
  do fd <- sys (cOpen (B "dirfile/xx") O_CREATE);
  check (0 <=? fd) (ln "create dirfile/xx succeeded!") ;;
  do r <- sys (cMkdir (B "dirfile/xx"));
  check (r =? 0) (ln "mkdir dirfile/xx succeeded!") ;;
  do r <- sys (cUnlink (B "dirfile/xx"));
  check (r =? 0) (ln "unlink dirfile/xx succeeded!") ;;
  do r <- sys (cLink (B "README") (B "dirfile/xx"));
  check (r =? 0) (ln "link to dirfile/xx succeeded!") ;;
  do r <- sys (cUnlink (B "dirfile"));
  check (negb (r =? 0)) (ln "unlink dirfile failed!") ;;
  do fd <- sys (cOpen (B ".") O_RDWR);
  check (0 <=? fd) (ln "open . for writing succeeded!") ;;
  do fd <- sys (cOpen (B ".") 0);
  do r <- sys (cWrite fd (B "x"));
  check (0 <? r) (ln "write . succeeded!") ;;
  sys (cClose fd) ;;
  printf 1 (ln "dir vs file OK") [].

Definition close_open (fd : Z) : prog unit := if 0 <=? fd then sys (cClose fd) ;; Done tt else Done tt.

(** [rounds] is [50 + 1]. *)
Definition iref (rounds : Z) : prog unit :=
  printf 1 (ln "empty file name") [] ;;
  for_in (seqZ 0 rounds) (fun _ =>
    do r <- sys (cMkdir (B "irefd"));
    check (negb (r =? 0)) (ln "mkdir irefd failed") ;;
    do r <- sys (cChdir (B "irefd"));
    check (negb (r =? 0)) (ln "chdir irefd failed") ;;
    sys (cMkdir (B "")) ;;
    sys (cLink (B "README") (B "")) ;;
    do fd <- sys (cOpen (B "") O_CREATE);
    close_open fd ;;
    do fd <- sys (cOpen (B "xx") O_CREATE);
    close_open fd ;;
    sys (cUnlink (B "xx")) ;; Done tt) ;;
  sys (cChdir (B "/")) ;;
  printf 1 (ln "empty file name OK") [].

(** [uninit] is the global array of 10000 bytes. *)
Definition bsstest (uninit : list Z) : prog unit :=
  printf 1 (ln "bss test") [] ;;
  for_in uninit (fun c => check (negb (c =? 0)) (ln "bss test failed")) ;;
  printf 1 (ln "bss test ok") [].

(** The child of [pipe1]: five writes of 1033 bytes of a running number. *)
Definition pipe1_buf (seq : Z) : list Z := u8 <$> seqZ seq 1033.
Definition pipe1_child (fd0 fd1 : Z) : prog unit :=
  sys (cClose fd0) ;;
  for_in (seqZ 0 5) (fun n =>
    do r <- sys (cWrite fd1 (pipe1_buf (1033 * n)));
    check (negb (r =? 1033)) (ln "pipe1 oops 1")) ;;
  Exit.

(** The loop of the parent; the result is [total], or [None] when it found a
    wrong byte and returned. *)
Fixpoint pipe1_read (fuel : nat) (fd cc seq total : Z) : prog (option Z) :=
  match fuel with
  | O => Stuck
  | S fuel =>
      do (n, l) <- sys (cRead fd cc);
      if negb (0 <? n) then Done (Some total)
      else if negb (bool_decide (l = u8 <$> seqZ seq n)) then printf 1 (ln "pipe1 oops 2") [] ;; Done None
      else pipe1_read fuel fd (Z.min (cc * 2) 8192) (seq + n) (total + n)
  end.
Definition pipe1_parent (fuel : nat) (fd0 fd1 : Z) : prog unit :=
  sys (cClose fd1) ;;
  do r <- pipe1_read fuel fd0 1 0 0;
  match r with
  | None => Done tt
  | Some total =>
      check_at (negb (total =? 5 * 1033)) (ln "pipe1 oops 3 total %d") total ;;
      sys (cClose fd0) ;;
      sys cWait ;;
      printf 1 (ln "pipe1 ok") []
  end.
Definition pipe1 (fuel : nat) : prog unit :=
  do (r, (fd0, fd1)) <- sys cPipe;
  check (negb (r =? 0)) (ln "pipe() failed") ;;
  do pid <- sys cFork;
  if pid =? 0 then pipe1_child fd0 fd1
  else if 0 <? pid then pipe1_parent fuel fd0 fd1
  else printf 1 (ln "fork() failed") [] ;; Exit.

(** The [for] loop of [exitwait]; the result says whether it went through. *)
Fixpoint exitwait_loop (n : nat) : prog bool :=
  match n with
  | O => Done true
  | S n =>
      do pid <- sys cFork;
      if pid <? 0 then printf 1 (ln "fork failed") [] ;; Done false
      else if negb (pid =? 0) then
        do r <- sys cWait;
        if negb (r =? pid) then printf 1 (ln "wait wrong pid") [] ;; Done false else exitwait_loop n
      else Exit
  end.
Definition exitwait : prog unit :=
  do ok <- exitwait_loop 100;
  if ok : bool then printf 1 (ln "exitwait ok") [] else Done tt.

(** [for(; n > 0; n--)] *)
Fixpoint collect (n : nat) : prog unit :=
  match n with
  | O => Done tt
  | S n => do r <- sys cWait; check (r <? 0) (ln "wait stopped early") ;; collect n
  end.
(** Its first loop is that of forktest.c. *)
Definition forktest : prog unit :=
  printf 1 (ln "fork test") [] ;;
  do n <- Forktest.fork_loop 1000 0;
  check (bool_decide (n = 1000%nat)) (ln "fork claimed to work 1000 times!") ;;
  collect n ;;
  do r <- sys cWait;
  check (negb (r =? -1)) (ln "wait got too many") ;;
  printf 1 (ln "fork test OK") [].

(** ** Runs on the kernel *)

Definition zeros (n : Z) : list Z := replicate (Z.to_nat n) 0.

(** The tests that remove what they make, one after the other. *)
Definition clean_tests : prog unit :=
  opentest ;; iputtest ;; dirtest ;; rmdot ;; subdir ;; linktest ;; unlinkread (zeros 8192) ;; dirfile.
Definition clean_output : list Z :=
  ln "open test" ++ ln "open test ok" ++ ln "iput test" ++ ln "iput test ok" ++ ln "mkdir test" ++ ln "mkdir test ok" ++
  ln "rmdot test" ++ ln "rmdot ok" ++ ln "subdir test" ++ ln "subdir ok" ++ ln "linktest" ++ ln "linktest ok" ++
  ln "unlinkread test" ++ ln "unlinkread ok" ++ ln "dir vs file" ++ ln "dir vs file OK".

(** These leave directories, or a longer root directory, behind; the loops run
    for a few rounds. *)
Definition other_tests : prog unit := fourteen ;; iref 2 ;; createtest 2.
Definition other_output : list Z :=
  ln "fourteen test" ++ ln "fourteen ok" ++ ln "empty file name" ++ ln "empty file name OK" ++
  ln "many creates, followed by unlink test" ++ ln "many creates, followed by unlink; ok".

(** The kernel passes eleven file system tests of usertests.c, with the
    loops of [iref] and [createtest] cut to two rounds: run through its system
    calls on the disk that mkfs made, each test comes to its end and prints
    what it prints when all is well, and the tests that remove what they make
    leave the descriptors, open files, inodes and blocks in use that were in
    use before. *)
Theorem usertests_pass : passes_clean clean_tests clean_output /\ passes other_tests other_output.
Proof.
  split; [apply clean_bool|apply passes_bool]; vm_cast_no_check (eq_refl true).
Qed.

(** ** Runs on files that are lists of bytes *)

(** The files by name, the name and offset of each descriptor, and what was
    written to descriptor 1. *)
Record store := mk_store { sfiles : gmap (list Z) (list Z); sfds : gmap Z (list Z * Z); sout : list Z }.

Definition new_fd (s : store) : Z := default 0 (head (List.filter (fun fd => bool_decide (sfds s !! fd = None)) (seqZ 3 13))).

Definition h_store (X : Type) (c : call X) (s : store) : X * store :=
  match c in call X return X * store with
  | cOpen p mode =>
      match sfiles s !! p with
      | Some _ => (new_fd s, mk_store (sfiles s) (<[new_fd s := (p, 0)]> (sfds s)) (sout s))
      | None =>
          if Z.land mode O_CREATE =? 0 then (-1, s)
          else (new_fd s, mk_store (<[p := []]> (sfiles s)) (<[new_fd s := (p, 0)]> (sfds s)) (sout s))
      end
  | cWrite fd l =>
      if fd =? 1 then (Z.of_nat (length l), mk_store (sfiles s) (sfds s) (sout s ++ l))
      else
        match sfds s !! fd with
        | Some (p, off) =>
            let n := Z.of_nat (length l) in
            if MAXFILE * BSIZEz <? off + n then (-1, s)
            else (n, mk_store (alter (fun d => overwrite d (Z.to_nat off) l) p (sfiles s)) (<[fd := (p, off + n)]> (sfds s)) (sout s))
        | None => (-1, s)
        end
  | cRead fd n =>
      match sfds s !! fd with
      | Some (p, off) =>
          let l := sub_bytes (default [] (sfiles s !! p)) (Z.to_nat off) (Z.to_nat n) in
          ((Z.of_nat (length l), l), mk_store (sfiles s) (<[fd := (p, off + Z.of_nat (length l))]> (sfds s)) (sout s))
      | None => ((-1, []), s)
      end
  | cClose fd => (0, mk_store (sfiles s) (delete fd (sfds s)) (sout s))
  | cUnlink p =>
      match sfiles s !! p with
      | Some _ => (0, mk_store (delete p (sfiles s)) (sfds s) (sout s))
      | None => (-1, s)
      end
  | c => (h_fail c, s)
  end.

Definition file_tests : prog unit :=
  bigwrite bigwrite_sizes (zeros 8192) ;; bsstest (zeros 10000) ;; writetest 100 ;; writetest1 MAXFILE (zeros 8192) ;;
  createtest 52 ;; bigfile 20.
Definition file_output : list Z :=
  ln "bigwrite test" ++ ln "bigwrite ok" ++ ln "bss test" ++ ln "bss test ok" ++
  ln "small file test" ++ ln "creat small succeeded; ok" ++ ln "writes ok" ++ ln "open small succeeded ok" ++
  ln "read succeeded ok" ++ ln "small file test ok" ++ ln "big files test" ++ ln "big files ok" ++
  ln "many creates, followed by unlink test" ++ ln "many creates, followed by unlink; ok" ++
  ln "bigfile test" ++ ln "bigfile test ok".

(** With files that behave like lists of bytes of at most [MAXFILE] blocks, the
    tests of big and many files pass as they are in usertests.c and leave no
    file and no descriptor. *)
Theorem file_tests_pass : run h_store file_tests (mk_store ∅ ∅ []) = RDone tt (mk_store ∅ ∅ file_output).
Proof. vm_cast_no_check (@eq_refl (User.result unit store) (RDone tt (mk_store ∅ ∅ file_output))). Qed.

(** ** [pipe1] *)

Definition pipe1_bytes : list Z := u8 <$> seqZ 0 (5 * 1033).

Lemma u8_seqZ_app a n m : 0 <= n -> 0 <= m -> u8 <$> seqZ a (n + m) = (u8 <$> seqZ a n) ++ (u8 <$> seqZ (a + n) m).
Proof. intros. by rewrite seqZ_app, fmap_app by lia. Qed.

Lemma pipe1_read_all fuel fd cc seq total s n : whole (pieces s) -> 0 < cc -> 0 <= n -> mjoin (pieces s) = u8 <$> seqZ seq n ->
  (Z.to_nat n < fuel)%nat ->
  run h_stream (pipe1_read fuel fd cc seq total) s = RDone (Some (total + n)) (mk_stream [] (written s)).
Proof.
  revert cc seq total s n. induction fuel as [|fuel IH]; intros cc seq total s n Hw Hcc Hn Hj Hf; [lia|]. cbn [pipe1_read pbind sys run].
  pose proof (f_equal length Hj) as HL. rewrite length_fmap, length_seqZ in HL.
  destruct (decide (pieces s = [])) as [Ep|Ep].
  - rewrite Ep in HL. cbn in HL. unfold h_stream. rewrite Ep. cbn. replace (total + n) with total by lia. rewrite <- Ep. by destruct s.
  - destruct (read_piece fd cc s Hw Hcc Ep) as (l & s1 & R & Hl & Hle & Ej & Hw1 & E1). rewrite R.
    assert (1 <= length l)%nat by (destruct l; [done|cbn; lia]). rewrite (proj2 (Z.ltb_lt _ _)) by lia. cbn [negb].
    rewrite Ej, length_app in HL. set (k := Z.of_nat (length l)) in *.
    rewrite Ej in Hj. replace n with (k + (n - k)) in Hj by lia. rewrite u8_seqZ_app in Hj by lia.
    apply app_inj_1 in Hj as [Hl1 Hj]; [|rewrite length_fmap, length_seqZ; lia].
    rewrite bool_decide_true by done. cbn [negb]. rewrite (IH _ _ _ s1 (n - k)); [|done|lia|lia|done|lia].
    rewrite E1. do 2 f_equal. lia.
Qed.

Lemma pipe1_writes fd1 l w : run h_stream (for_in l (fun n =>
    do r <- sys (cWrite fd1 (pipe1_buf (1033 * n)));
    check (negb (r =? 1033)) (ln "pipe1 oops 1"))) (mk_stream [] w) =
  RDone tt (mk_stream [] (w ++ ((fun n => (fd1, pipe1_buf (1033 * n))) <$> l))).
Proof.
  revert w. induction l as [|n l IH]; intros w; [by rewrite app_nil_r|]. cbn [for_in pbind sys run h_stream fmap list_fmap].
  assert (Z.of_nat (length (pipe1_buf (1033 * n))) = 1033) as -> by (unfold pipe1_buf; rewrite length_fmap, length_seqZ; lia).
  cbn [Z.eqb Pos.eqb negb check pbind pieces written]. rewrite IH. by rewrite <- app_assoc.
Qed.

Lemma pipe1_bytes_eq : mjoin ((fun n => pipe1_buf (1033 * n)) <$> seqZ 0 5) = pipe1_bytes.
Proof.
  unfold pipe1_bytes. change (5 * 1033) with (1033 + (1033 + (1033 + (1033 + 1033)))). rewrite !u8_seqZ_app by lia.
  change (seqZ 0 5) with [0; 1; 2; 3; 4]. cbn [fmap list_fmap mjoin list_join]. rewrite app_nil_r. reflexivity.
Qed.

Lemma pipe1_child_run fd0 fd1 :
  run h_stream (pipe1_child fd0 fd1) (mk_stream [] []) = RExit (mk_stream [] ((fun n => (fd1, pipe1_buf (1033 * n))) <$> seqZ 0 5)).
Proof.
  unfold pipe1_child. rewrite run_bind. change (run h_stream (sys (cClose fd0)) ?s) with (RDone (-1) s). cbv iota beta.
  rewrite run_bind, pipe1_writes. reflexivity.
Qed.

Lemma pipe1_parent_run fuel fd0 fd1 ps : whole ps -> (Z.to_nat (5 * 1033) < fuel)%nat -> mjoin ps = pipe1_bytes ->
  run h_stream (pipe1_parent fuel fd0 fd1) (mk_stream ps []) = run h_stream (printf 1 (ln "pipe1 ok") []) (mk_stream [] []).
Proof.
  intros Hw Hf Hj. unfold pipe1_parent. rewrite run_bind. change (run h_stream (sys (cClose fd1)) ?s) with (RDone (-1) s). cbv iota beta.
  rewrite run_bind, (pipe1_read_all _ fd0 1 0 0 (mk_stream ps []) (5 * 1033)); [|exact Hw|lia|lia|exact Hj|exact Hf].
  change (0 + 5 * 1033) with 5165. cbv iota beta. rewrite run_bind.
  change (check_at (negb (5165 =? 5 * 1033)) (ln "pipe1 oops 3 total %d") 5165) with (Done tt). cbn [run]. rewrite run_bind.
  change (run h_stream (sys (cClose fd0)) ?s) with (RDone (-1) s). cbv iota beta. rewrite run_bind.
  change (run h_stream (sys cWait) ?s) with (RDone (-1) s). cbv iota beta. reflexivity.
Qed.

(** What the child of [pipe1] writes is what the parent wants: however the
    pipe cuts the bytes, the parent reads them all, finds each of them right
    and says so. *)
Theorem pipe1_passes fuel fd0 fd1 ps : whole ps -> (Z.to_nat (5 * 1033) < fuel)%nat -> exists w,
  run h_stream (pipe1_child fd0 fd1) (mk_stream [] []) = RExit (mk_stream [] w) /\
  (mjoin ps = mjoin w.*2 -> run h_stream (pipe1_parent fuel fd0 fd1) (mk_stream ps []) =
     run h_stream (printf 1 (ln "pipe1 ok") []) (mk_stream [] [])).
Proof.
  intros Hw Hf. eexists. split; [apply pipe1_child_run|]. rewrite <- list_fmap_compose. intros Hj.
  apply pipe1_parent_run; [exact Hw|exact Hf|]. rewrite Hj. exact pipe1_bytes_eq.
Qed.

(** ** [forktest] and [exitwait] *)

(** The process table as a parent sees it: the entries that are free, the
    children it has not waited for, the next pid, and what was printed. *)
Record family := mk_family { room : nat; kids : list Z; next_pid : Z; said : list Z }.

Definition h_family (X : Type) (c : call X) (s : family) : X * family :=
  match c in call X return X * family with
  | cFork =>
      match room s with
      | O => (-1, s)
      | S n => (next_pid s, mk_family n (kids s ++ [next_pid s]) (next_pid s + 1) (said s))
      end
  | cWait =>
      match kids s with
      | [] => (-1, s)
      | p :: ps => (p, mk_family (S (room s)) ps (next_pid s) (said s))
      end
  | cWrite _ l => (Z.of_nat (length l), mk_family (room s) (kids s) (next_pid s) (said s ++ l))
  | c => (h_fail c, s)
  end.

Lemma family_puts fmt s : Forall (fun c => 0 <= c < 256 /\ c <> 37) fmt ->
  run h_family (printf 1 fmt []) s = RDone tt (mk_family (room s) (kids s) (next_pid s) (said s ++ fmt)).
Proof.
  unfold printf. revert s. induction fmt as [|c fmt IH]; intros s HF; [by destruct s; cbn; rewrite app_nil_r|].
  apply Forall_cons in HF as [[Hc Hp] HF]. cbn [printf_loop negb]. assert (Z.land c 0xff = c) as -> by (change 0xff with (Z.ones 8); rewrite Z.land_ones, Z.mod_small; lia).
  rewrite (proj2 (Z.eqb_neq c 37)) by done. unfold putc. cbn [pbind sys run h_family]. rewrite IH by done. cbn [room kids next_pid said].
  unfold u8. rewrite Z.mod_small by lia. by rewrite <- app_assoc.
Qed.

Lemma exitwait_loop_run n s : 0 < next_pid s -> kids s = [] -> (0 < room s)%nat ->
  run h_family (exitwait_loop n) s = RDone true (mk_family (room s) [] (next_pid s + Z.of_nat n) (said s)).
Proof.
  revert s. induction n as [|n IH]; intros [r k p o] Hp Hk Hr; cbn in Hk, Hp, Hr; subst k.
  - cbn. by rewrite Z.add_0_r.
  - destruct r as [|r]; [lia|]. cbn [exitwait_loop pbind sys run h_family room kids next_pid said app].
    rewrite (proj2 (Z.ltb_ge p 0)), (proj2 (Z.eqb_neq p 0)) by lia. cbn [negb pbind run h_family room kids next_pid said]. rewrite Z.eqb_refl. cbn [negb].
    rewrite IH by (cbn; lia || done). cbn [room kids next_pid said]. do 2 f_equal. lia.
Qed.

(** With an entry free, each child that exits at once is the one the next
    [wait] returns, and [exitwait] says so. *)
Theorem exitwait_passes s : 0 < next_pid s -> kids s = [] -> (0 < room s)%nat ->
  run h_family exitwait s = RDone tt (mk_family (room s) [] (next_pid s + 100) (said s ++ ln "exitwait ok")).
Proof.
  intros Hp Hk Hr. unfold exitwait. rewrite run_bind, exitwait_loop_run by done. rewrite family_puts; [done|].
  apply (bool_decide_unpack _). vm_compute. exact I.
Qed.

Lemma family_forks i n s : 0 < next_pid s -> let k := (i `min` room s)%nat in
  run h_family (Forktest.fork_loop i n) s = RDone (n + k)%nat
    (mk_family (room s - i) (kids s ++ seqZ (next_pid s) (Z.of_nat k)) (next_pid s + Z.of_nat k) (said s)).
Proof.
  revert n s. induction i as [|i IH]; intros n [r ks p o] Hp; cbn [next_pid room kids said] in *.
  - cbn. rewrite app_nil_r. do 2 f_equal; lia.
  - cbn [Forktest.fork_loop pbind sys run h_family room]. destruct r as [|r].
    + cbn. rewrite app_nil_r. do 2 f_equal; lia.
    + cbn [kids next_pid said Nat.min]. rewrite (proj2 (Z.ltb_ge p 0)), (proj2 (Z.eqb_neq p 0)) by lia. rewrite IH by (cbn; lia).
      cbn [kids next_pid said room]. rewrite <- app_assoc. rewrite (seqZ_cons p (Z.of_nat (S _))) by lia.
      f_equal; [lia|]. f_equal; [|lia]. cbn [app]. do 3 f_equal; lia.
Qed.

Lemma family_collects s n : Forall (fun p => 0 < p) (kids s) -> (n <= length (kids s))%nat ->
  run h_family (collect n) s = RDone tt (mk_family (room s + n) (drop n (kids s)) (next_pid s) (said s)).
Proof.
  revert s. induction n as [|n IH]; intros [r ks p o] HF Hn; cbn [kids] in *.
  - cbn. rewrite Nat.add_0_r. by destruct ks.
  - destruct ks as [|q ks]; [cbn in Hn; lia|]. apply Forall_cons in HF as [Hq HF]. cbn [collect pbind sys run h_family kids room next_pid said drop].
    rewrite (proj2 (Z.ltb_ge q 0)) by lia. cbn [check pbind]. rewrite IH by (cbn in *; done || lia). cbn [room kids next_pid said]. do 2 f_equal. lia.
Qed.

Lemma plain_text s : Forall (fun c => 0 <= c < 256 /\ c <> 37) (ln s) <-> bool_decide (Forall (fun c => 0 <= c < 256 /\ c <> 37) (ln s)) = true.
Proof. by rewrite bool_decide_eq_true. Qed.

(** With fewer than 1000 free entries [forktest] fills the table, waits for
    each of its children and for no more, and leaves the table as it was. *)
Theorem forktest_passes s : 0 < next_pid s -> kids s = [] -> (room s < 1000)%nat ->
  run h_family forktest s =
    RDone tt (mk_family (room s) [] (next_pid s + Z.of_nat (room s)) (said s ++ ln "fork test" ++ ln "fork test OK")).
Proof.
  intros Hp Hk Hr. unfold forktest. rewrite run_bind, family_puts by (apply plain_text; vm_compute; reflexivity).
  rewrite run_bind, family_forks by done. cbn [room kids next_pid said]. rewrite Hk, Nat.min_r by lia. cbn [app].
  rewrite bool_decide_false by lia. cbn [check]. rewrite run_bind. cbn [run]. rewrite run_bind.
  rewrite family_collects; [|apply Forall_forall; intros x Hx%elem_of_seqZ; lia|cbn [kids]; rewrite length_seqZ; lia].
  cbn [room kids next_pid said]. rewrite drop_ge by (rewrite length_seqZ; lia). rewrite run_bind. cbn [sys run h_family kids].
  cbn [check negb Z.eqb Pos.eqb pbind run]. rewrite family_puts by (apply plain_text; vm_compute; reflexivity). cbn [room kids next_pid said].
  rewrite <- app_assoc. do 2 f_equal. lia.
Qed.
