(* ===== verification/Asm.v ===== *)
(** * Asm: trap entry and return, context switch (trapasm.S, swtch.S,
      vectors.pl)

    The few instructions these files use, on the registers of a processor and
    the kernel's memory.  What the processor does by itself is there too: it
    saves the interrupted state through the task state and a gate, and [iret]
    takes it back.  The theorems say that the words these files push are the
    [struct trapframe] the C code reads, that a return from a trap restores
    every register from it, that [swtch] returns to its caller once another
    [swtch] comes back to the context it saved, and that the first switch to a
    process made by [allocproc] ends in user mode with the registers of its
    trap frame.

    Privilege and limit checks are left out: the selectors loaded are those
    of the tables of Seg. *)
From stdpp Require Import base numbers list gmap strings.
From Stdlib Require Import ZArith Lia.
From S2P Require Import Prelude Bytes Traps Kalloc Vm Proc Kernel Args Sysproc.

Local Open Scope Z_scope.

(** ** Processors *)

Inductive name := EDI | ESI | EBP | ESP | EBX | EDX | ECX | EAX | GS | FS | ES | DS | CS | SS | EIP | EFLAGS.
Scheme Boolean Equality for name.
#[export] Instance name_eq_dec : EqDecision name.
Proof. solve_decision. Defined.

Definition is_sel (r : name) : bool := match r with GS | FS | ES | DS | CS | SS => true | _ => false end.

(** The registers and the memory the kernel sees. *)
Record core := mk_core { R : name -> Z; K : ram }.
Definition put (r : name) (v : Z) (c : core) : core := mk_core (fun x => if name_beq r x then v else R c x) (K c).
Definition set_K (m : ram) (c : core) : core := mk_core (R c) m.

(** A word [w] as the value of [r]: a selector is its lower half. *)
Definition field (r : name) (w : Z) : Z := if is_sel r then u16 w else w.

Inductive operand := Imm (v : Z) | Reg (r : name) | At (off : Z) (base : name).

Inductive instr :=
| pushl (o : operand)
| popl (r : name)
| pushal
| popal
| movl (src dst : operand)
| movw (src : operand) (dst : name)
| addl (n : Z) (r : name)
| jmp (a : Z)
(** [ra] is the address of the next instruction. *)
| call (f ra : Z)
| ret_
| iret.

Section machine.
(** What the upper half of a word is when a selector is pushed: the manual
    leaves it open. *)
Context (hi : Z).
Definition pushed (r : name) (v : Z) : Z := if is_sel r then v + 2 ^ 16 * hi else v.

Definition operand_val (o : operand) (c : core) : Z :=
  match o with
  | Imm v => v
  | Reg r => pushed r (R c r)
  | At off base => load32 (u32 (R c base + off)) (K c)
  end.
Definition push (v : Z) (c : core) : core :=
  let sp := u32 (R c ESP - 4) in
  set_K (store32 sp v (K c)) (put ESP sp c).
Definition pop (r : name) (c : core) : core :=
  put r (field r (load32 (R c ESP) (K c))) (put ESP (u32 (R c ESP + 4)) c).
Definition skip (n : Z) (c : core) : core := put ESP (u32 (R c ESP + n)) c.
Definition assign (dst : operand) (v : Z) (c : core) : core :=
  match dst with
  | Imm _ => c
  | Reg r => put r (field r v) c
  | At off base => set_K (store32 (u32 (R c base + off)) v (K c)) c
  end.

(** [iret] takes the stack pointer back too when it leaves the kernel. *)
Definition return_from (c : core) : core :=
  let c1 := pop EFLAGS (pop CS (pop EIP c)) in
  if Z.land (R c1 CS) 3 =? Z.land (R c CS) 3 then c1
  else
    let sp := load32 (R c1 ESP) (K c1) in
    put ESP sp (pop SS (skip 4 c1)).

Definition exec (i : instr) (c : core) : core :=
  match i with
  | pushl o => push (operand_val o c) c
  | popl r => pop r c
  | pushal =>
      let sp := R c ESP in
      push (R c EDI) (push (R c ESI) (push (R c EBP) (push sp (push (R c EBX) (push (R c EDX) (push (R c ECX) (push (R c EAX) c)))))))
  | popal => pop EAX (pop ECX (pop EDX (pop EBX (skip 4 (pop EBP (pop ESI (pop EDI c)))))))
  | movl src dst => assign dst (operand_val src c) c
  | movw src dst => put dst (if is_sel dst then u16 (operand_val src c) else 2 ^ 16 * (R c dst / 2 ^ 16) + u16 (operand_val src c)) c
  | addl n r => put r (u32 (R c r + n)) c
  | jmp a => put EIP a c
  | call f ra => put EIP f (push ra c)
  | ret_ => pop EIP c
  | iret => return_from c
  end.
Definition run (l : list instr) (c : core) : core := foldl (fun c i => exec i c) c l.

(** A trap or interrupt through a gate: when user code was running the
    processor takes the kernel stack from the task state and saves the user's
    stack pointer on it.  [err]: the error code, for the traps that have one. *)
Record gate := mk_gate { gsel : Z; goff : Z; istrap : bool }.
Definition interrupt (ss0 esp0 : Z) (g : gate) (err : option Z) (c : core) : core :=
  let c1 := if Z.land (R c CS) 3 =? Z.land (gsel g) 3 then c
            else push (R c ESP) (push (pushed SS (R c SS)) (put SS ss0 (put ESP esp0 c))) in
  let c2 := push (R c EIP) (push (pushed CS (R c CS)) (push (R c EFLAGS) c1)) in
  let c3 := match err with Some e => push e c2 | None => c2 end in
  put EFLAGS (if istrap g then R c EFLAGS else Z.ldiff (R c EFLAGS) FL_IF) (put EIP (goff g) (put CS (gsel g) c3)).

(** ** The code *)

Definition SEG_KDATA : Z := 2.
Definition SEG_KCPU : Z := 3.

(** vectors.pl: the code at [vector]n. *)
Definition vector (alltraps n : Z) : list instr :=
  (if negb ((n =? 8) || ((10 <=? n) && (n <=? 14)) || (n =? 17)) then [pushl (Imm 0)] else []) ++
  [pushl (Imm n); jmp alltraps].

(** [alltraps] up to the call of [trap]; [ra] is the address after it. *)
Definition alltraps (trap ra : Z) : list instr :=
  [pushl (Reg DS); pushl (Reg ES); pushl (Reg FS); pushl (Reg GS); pushal;
   movw (Imm (Z.shiftl SEG_KDATA 3)) EAX; movw (Reg EAX) DS; movw (Reg EAX) ES;
   movw (Imm (Z.shiftl SEG_KCPU 3)) EAX; movw (Reg EAX) FS; movw (Reg EAX) GS;
   pushl (Reg ESP); call trap ra].

Definition trapret : list instr :=
  [popal; popl GS; popl FS; popl ES; popl DS; addl 0x8 ESP; iret].

(** What follows the call. *)
Definition alltraps_ret : list instr := addl 4 ESP :: trapret.

Definition swtch : list instr :=
  [movl (At 4 ESP) (Reg EAX); movl (At 8 ESP) (Reg EDX);
   pushl (Reg EBP); pushl (Reg EBX); pushl (Reg ESI); pushl (Reg EDI);
   movl (Reg ESP) (At 0 EAX); movl (Reg EDX) (Reg ESP);
   popl EDI; popl ESI; popl EBX; popl EBP; ret_].
End machine.

(** ** Words on a stack *)

(** Addresses of words are multiples of four; [b] counts words. *)
Definition word (m : ram) (b : Z) : Z := load32 (4 * b) m.
Definition words (m : ram) (b : Z) (l : list Z) : Prop := forall i w, l !! i = Some w -> word m (b + Z.of_nat i) = w.

Lemma words_cons m b w l : words m b (w :: l) <-> word m b = w /\ words m (b + 1) l.
Proof.
  split.
  - intros H. split; [by rewrite <- (H 0%nat w eq_refl), Z.add_0_r|]. intros i v Hi. rewrite <- (H (S i) v Hi). f_equal. lia.
  - intros [Hw H] [|i] v Hi; [by injection Hi as <-; rewrite Z.add_0_r|]. rewrite <- (H i v Hi). f_equal. lia.
Qed.

Lemma words_app m b l l' : words m b (l ++ l') <-> words m b l /\ words m (b + Z.of_nat (length l)) l'.
Proof.
  revert b. induction l as [|w l IH]; intros b; cbn [app length].
  - rewrite Z.add_0_r. unfold words. naive_solver.
  - rewrite !words_cons, IH. replace (b + 1 + Z.of_nat (length l)) with (b + Z.of_nat (S (length l))) by lia. naive_solver.
Qed.

Lemma words_ext m m' b l : (forall i, 0 <= i < Z.of_nat (length l) -> word m' (b + i) = word m (b + i)) -> words m b l -> words m' b l.
Proof. intros He Hw i w Hi. rewrite He; [by apply Hw|]. apply lookup_lt_Some in Hi. lia. Qed.

Lemma words_inj m b l l' : length l = length l' -> words m b l -> words m b l' -> l = l'.
Proof.
  intros Hl H H'. apply (list_eq_same_length _ _ (length l)); [done|done|]. intros i x y _ Hx Hy. by rewrite <- (H i x Hx), <- (H' i y Hy).
Qed.

(** A store changes one word. *)
Lemma word_address b : 0 <= b < 2 ^ 30 -> exists f o, frame (4 * b) = f /\ offset (4 * b) = (4 * o)%nat /\ (o < 1024)%nat /\
  b = (f * 1024 + Z.of_nat o + 2 ^ 29) mod 2 ^ 30.
Proof.
  intros Hb. exists (frame (4 * b)), (Z.to_nat (b mod 1024)). split; [done|]. unfold frame, offset, v2p, u32, PGSIZE, KERNBASE.
  pose proof (Z.mod_pos_bound b 1024 ltac:(lia)) as Hr. pose proof (Z.div_mod b 1024 ltac:(lia)) as Hd.
  assert ((4 * b) mod 4096 = 4 * (b mod 1024)) as -> by (change 4096 with (4 * 1024); rewrite Z.mul_mod_distr_l; lia).
  split_and!; [lia|lia|]. rewrite Z2Nat.id by lia. change (2 ^ 32) with (4 * 2 ^ 30). change 0x80000000 with (4 * 2 ^ 29).
  replace (4 * b - 4 * 2 ^ 29) with (4 * (b - 2 ^ 29)) by lia. rewrite Z.mul_mod_distr_l by lia. change 4096 with (4 * 1024). rewrite Z.div_mul_cancel_l by lia.
  destruct (decide (2 ^ 29 <= b)) as [Hk|Hk].
  - rewrite (Z.mod_small (b - 2 ^ 29)) by lia. replace (b - 2 ^ 29) with (b mod 1024 + (b / 1024 - 2 ^ 19) * 1024) by lia.
    rewrite Z.div_add, (Z.div_small (b mod 1024)) by lia. rewrite Z.mod_small; lia.
  - assert ((b - 2 ^ 29) mod 2 ^ 30 = b + 2 ^ 29) as -> by (symmetry; apply (Z.mod_unique _ _ (-1)); lia).
    replace (b + 2 ^ 29) with (b mod 1024 + (b / 1024 + 2 ^ 19) * 1024) by lia. rewrite Z.div_add, (Z.div_small (b mod 1024)) by lia.
    apply (Z.mod_unique _ _ 1); lia.
Qed.

Lemma word_store m b v x : mem_ok m -> is_u32 v -> 0 <= b < 2 ^ 30 -> 0 <= x < 2 ^ 30 ->
  word (store32 (4 * b) v m) x = if decide (x = b) then v else word m x.
Proof.
  intros Hm Hv Hb Hx. destruct (decide (x = b)) as [->|Hne].
  - apply load_store32_same; [done| |done]. rewrite Z.mul_comm. by rewrite Z.mod_mul.
  - destruct (word_address b Hb) as (f & o & Ef & Eo & Ho & Eb). destruct (word_address x Hx) as (f' & o' & Ef' & Eo' & Ho' & Ex).
    unfold word, load32, store32. rewrite Ef, Ef', Eo, Eo'. destruct (decide (f = f')) as [<-|Hf].
    + rewrite page_at_insert_eq. assert (o <> o') by (intros <-; by rewrite Eb, Ex in Hne). apply rd32_wr32_other. lia.
    + by rewrite page_at_insert_ne.
Qed.

Lemma u32_word b : 0 <= b < 2 ^ 30 -> u32 (4 * b) = 4 * b.
Proof. intros Hb. apply u32_small. unfold is_u32. lia. Qed.

(** Since memory was [m], the words [l] have been pushed below word [top]. *)
Record stack (m : ram) (top : Z) (l : list Z) (c : core) : Prop := mk_stack {
  sk_mem : mem_ok (K c);
  sk_sp : R c ESP = 4 * (top - Z.of_nat (length l));
  sk_words : words (K c) (top - Z.of_nat (length l)) l;
  sk_rest x : 0 <= x < 2 ^ 30 -> x < top - Z.of_nat (length l) \/ top <= x -> word (K c) x = word m x
}.

Lemma stack_push m top l c v : Z.of_nat (length l) < top < 2 ^ 30 -> is_u32 v -> stack m top l c -> stack m top (v :: l) (push v c).
Proof.
  intros Ht Hv [Hm Hs Hw Hr]. unfold push. rewrite Hs. set (b := top - Z.of_nat (length l)) in *.
  replace (4 * b - 4) with (4 * (b - 1)) by lia. rewrite u32_word by lia.
  assert (top - Z.of_nat (length (v :: l)) = b - 1) as Eb by (cbn [length]; lia).
  split; cbn [K set_K put]; rewrite ?Eb.
  - by apply mem_ok_store32.
  - done.
  - apply words_cons. split; [by rewrite word_store, decide_True by (done || lia)|]. replace (b - 1 + 1) with b by lia.
    intros i w Hi. pose proof (lookup_lt_Some _ _ _ Hi). rewrite word_store, decide_False by (done || lia). by apply Hw.
  - intros x Hx Ho. rewrite word_store, decide_False by (done || lia). apply Hr; lia.
Qed.

Lemma stack_put m top l c r v : r <> ESP -> stack m top l c -> stack m top l (put r v c).
Proof. intros Hr [H1 H2 H3 H4]. split; [done| |done|done]. rewrite <- H2. by destruct r. Qed.

Lemma stack_start m top c : mem_ok (K c) -> K c = m -> R c ESP = 4 * top -> stack m top [] c.
Proof. intros Hm <- Hs. split; [done|by cbn; rewrite Z.sub_0_r|by intros i w Hi|done]. Qed.

(** A pop of a word that is known. *)
Lemma pop_word c b r : R c ESP = 4 * b -> 0 <= b < 2 ^ 30 - 1 -> pop r c = put r (field r (word (K c) b)) (put ESP (4 * (b + 1)) c).
Proof. intros Hs Hb. unfold pop. rewrite Hs. replace (4 * b + 4) with (4 * (b + 1)) by lia. by rewrite u32_word by lia. Qed.

(** ** Traps *)

Definition regs_ok (c : core) : Prop := forall r, 0 <= R c r < if is_sel r then 2 ^ 16 else 2 ^ 32.

(** The traps for which the processor pushes an error code. *)
Definition hardware_err : list Z := [8; 10; 11; 12; 13; 14; 17].

Section trap.
Context (hi : Z) (Hhi : 0 <= hi < 2 ^ 16).

(** [struct trapframe]: the registers of [c], [oesp], the trap number and the
    error code; the last two words only when user code was interrupted. *)
Definition trapframe (c : core) (oesp trapno err : Z) (user : bool) : list Z :=
  let w r := pushed hi r (R c r) in
  [w EDI; w ESI; w EBP; oesp; w EBX; w EDX; w ECX; w EAX; w GS; w FS; w ES; w DS; trapno; err; w EIP; w CS; w EFLAGS] ++
  if user then [w ESP; w SS] else [].

(** From the interrupted instruction to the first one of [trap]. *)
Definition enter (ss0 esp0 alltraps_addr trap ra : Z) (g : gate) (n : Z) (err : option Z) (c : core) : core :=
  run hi (alltraps trap ra) (run hi (vector alltraps_addr n) (interrupt hi ss0 esp0 g err c)).

(** The registers that only [alltraps] saves. *)
Definition general (r : name) : bool := match r with ESP | SS | CS | EIP | EFLAGS => false | _ => true end.

Lemma pushed_u32 c r : regs_ok c -> is_u32 (pushed hi r (R c r)).
Proof. intros H. specialize (H r). unfold pushed, is_u32. destruct (is_sel r); lia. Qed.

Lemma field_pushed c r : regs_ok c -> field r (pushed hi r (R c r)) = R c r.
Proof.
  intros H. specialize (H r). unfold pushed, field, u16. destruct (is_sel r); [|done].
  rewrite Z.mul_comm, Z.mod_add by lia. by apply Z.mod_small.
Qed.

Lemma vector_err n : negb ((n =? 8) || ((10 <=? n) && (n <=? 14)) || (n =? 17)) = bool_decide (n ∉ hardware_err).
Proof.
  apply eq_true_iff_eq. rewrite bool_decide_eq_true. unfold hardware_err. rewrite !not_elem_of_cons, negb_true_iff, !orb_false_iff, andb_false_iff.
  rewrite !Z.eqb_neq, !Z.leb_gt. set_solver by lia.
Qed.

(** The steps of a trap, each of them a push or a register. *)
Ltac stack_step := first [apply stack_push; [cbn [length]; lia| |] | apply stack_put; [done|]].

Lemma interrupt_stack ss0 esp0 g err c user top : regs_ok c -> mem_ok (K c) -> 21 <= top < 2 ^ 30 -> (forall e, err = Some e -> is_u32 e) ->
  user = negb (Z.land (R c CS) 3 =? Z.land (gsel g) 3) -> (if user then esp0 else R c ESP) = 4 * top ->
  let w r := pushed hi r (R c r) in
  stack (K c) top (match err with Some e => [e] | None => [] end ++ [w EIP; w CS; w EFLAGS] ++ if user then [w ESP; w SS] else [])
    (interrupt hi ss0 esp0 g err c).
Proof.
  intros Hc Hm Ht He -> Hs w. assert (forall r, is_u32 (w r)) as Hw by (intros r; by apply pushed_u32). unfold interrupt.
  do 3 (apply stack_put; [done|]).
  destruct (_ =? _) eqn:E; destruct err as [e|]; cbn [negb app] in *; repeat stack_step;
    try first [exact (He _ eq_refl) | exact (Hw EIP) | exact (Hw CS) | exact (Hw EFLAGS) | exact (Hw ESP) | exact (Hw SS)];
    by apply stack_start.
Qed.

Lemma vector_stack a n err l c m top : 0 <= n < 256 -> (is_Some err <-> n ∈ hardware_err) -> Z.of_nat (length l) + 2 < top < 2 ^ 30 ->
  stack m top (match err with Some e => [e] | None => [] end ++ l) c -> stack m top (n :: default 0 err :: l) (run hi (vector a n) c).
Proof.
  intros Hn Herr Ht Hst. unfold vector, run. rewrite vector_err. assert (is_u32 n) as Hnu by (unfold is_u32; lia).
  destruct err as [e|]; cbn [app default] in *.
  - rewrite bool_decide_false by (intros Hno; apply Hno, Herr; by eexists). cbn [app foldl exec operand_val].
    by repeat stack_step.
  - rewrite bool_decide_true by (intros [e He]%Herr; done). cbn [app foldl exec operand_val]. by repeat stack_step.
Qed.

(** The same with the other registers. *)
Definition at_stack (m : ram) (top : Z) (l : list Z) (f : name -> Z) (c : core) : Prop :=
  stack m top l c /\ forall r, r <> ESP -> R c r = f r.
Definition upd (r : name) (v : Z) (f : name -> Z) : name -> Z := fun x => if name_beq r x then v else f x.

Lemma run_cons i l c : run hi (i :: l) c = run hi l (exec hi i c).
Proof. done. Qed.

Lemma at_push m top l f c v w : Z.of_nat (length l) < top < 2 ^ 30 -> is_u32 v -> w = v ->
  at_stack m top l f c -> at_stack m top (v :: l) f (push w c).
Proof.
  intros Ht Hv -> [Hs Hf]. split; [by apply stack_push|]. intros r Hr. rewrite <- Hf by done. by destruct r.
Qed.

Lemma at_put m top l f c r v w : r <> ESP -> v = w -> at_stack m top l f c -> at_stack m top l (upd r v f) (put r w c).
Proof.
  intros Hr -> [Hs Hf]. split; [by apply stack_put|]. intros x Hx. unfold put, upd. cbn [R]. destruct (name_beq r x); [done|by apply Hf].
Qed.

Lemma at_sp m top l f c : at_stack m top l f c -> R c ESP = 4 * (top - Z.of_nat (length l)).
Proof. by intros [[] _]. Qed.

Lemma at_pushal m top l f c : Z.of_nat (length l) + 8 < top < 2 ^ 30 -> (forall r, general r = true -> is_u32 (pushed hi r (f r))) ->
  at_stack m top l f c ->
  at_stack m top (f EDI :: f ESI :: f EBP :: 4 * (top - Z.of_nat (length l)) :: f EBX :: f EDX :: f ECX :: f EAX :: l) f (exec hi pushal c).
Proof.
  intros Ht Hu Hc. pose proof (at_sp _ _ _ _ _ Hc) as Hsp. destruct Hc as [Hs Hf]. cbn [exec].
  repeat (apply at_push; [cbn [length]; lia|try (match goal with |- is_u32 (f ?r) => by apply (Hu r) end)|try by rewrite Hf|]); [unfold is_u32; lia|done|done].
Qed.

Lemma low_half x v : 0 <= v < 2 ^ 16 -> u16 (2 ^ 16 * x + u16 v) = v.
Proof. intros Hv. unfold u16. rewrite Z.add_comm, Z.mul_comm, Z.mod_add by lia. by rewrite Z.mod_mod, Z.mod_small by lia. Qed.

(** A selector through [%ax]. *)
Lemma at_selector m top l f c v d e rest : is_sel d = true -> is_sel e = true -> 0 <= v < 2 ^ 16 -> at_stack m top l f c ->
  exists x c', run hi (movw (Imm v) EAX :: movw (Reg EAX) d :: movw (Reg EAX) e :: rest) c = run hi rest c' /\
    at_stack m top l (upd e v (upd d v (upd EAX x f))) c'.
Proof.
  intros Hd He Hv Hc. exists (2 ^ 16 * (f EAX / 2 ^ 16) + u16 v). eexists. rewrite !run_cons. split; [reflexivity|].
  assert (d <> ESP /\ e <> ESP /\ d <> EAX) as (Hd1 & He1 & Hd2) by (by destruct d, e).
  assert (at_stack m top l (upd EAX (2 ^ 16 * (f EAX / 2 ^ 16) + u16 v) f) (exec hi (movw (Imm v) EAX) c)) as H1.
  { cbn [exec is_sel operand_val]. apply at_put; [done| |done]. by rewrite (proj2 Hc). }
  set (c1 := exec hi (movw (Imm v) EAX) c) in *. clearbody c1.
  assert (R c1 EAX = 2 ^ 16 * (f EAX / 2 ^ 16) + u16 v) as E1 by (by rewrite (proj2 H1)).
  cbn [exec operand_val pushed]. rewrite Hd, He. cbn [is_sel]. apply at_put; [done| |apply at_put; [done| |done]].
  - cbn [put R]. destruct (name_beq d EAX) eqn:E; [by destruct d|]. unfold pushed. cbn [is_sel]. by rewrite E1, low_half.
  - unfold pushed. cbn [is_sel]. by rewrite E1, low_half.
Qed.

Lemma alltraps_stack m top l f c trap ra : Z.of_nat (length l) + 14 < top < 2 ^ 30 -> is_u32 ra -> (forall r, general r = true -> is_u32 (pushed hi r (f r))) ->
  at_stack m top l f c ->
  let b := top - Z.of_nat (length l) in
  let c' := run hi (alltraps trap ra) c in
  stack m top (ra :: 4 * (b - 12) :: f EDI :: f ESI :: f EBP :: 4 * (b - 4) :: f EBX :: f EDX :: f ECX :: f EAX ::
      pushed hi GS (f GS) :: pushed hi FS (f FS) :: pushed hi ES (f ES) :: pushed hi DS (f DS) :: l) c' /\
    R c' EIP = trap /\ R c' CS = f CS /\ R c' SS = f SS /\ R c' EFLAGS = f EFLAGS /\
    R c' DS = 16 /\ R c' ES = 16 /\ R c' FS = 24 /\ R c' GS = 24.
Proof.
  intros Ht Hra Hu Hc b c'. assert (forall r, r <> ESP -> forall c, (forall x, x <> ESP -> R c x = f x) -> operand_val hi (Reg r) c = pushed hi r (f r)) as Hop.
  { intros r Hr d Hd. cbn. by rewrite Hd. }
  unfold c', alltraps. clear c'. rewrite !(run_cons (pushl _)). set (c1 := exec hi (pushl (Reg GS)) _).
  assert (at_stack m top (pushed hi GS (f GS) :: pushed hi FS (f FS) :: pushed hi ES (f ES) :: pushed hi DS (f DS) :: l) f c1) as H1.
  { unfold c1. cbn [exec]. repeat (apply at_push; [cbn [length]; lia|by apply Hu|by apply Hop; [done|intros x Hx; by rewrite <- (proj2 Hc x Hx); destruct x]|]). done. }
  clearbody c1. rewrite run_cons. apply at_pushal in H1; [|cbn [length]; lia|done].
  set (c2 := exec hi pushal c1) in *. clearbody c2.
  destruct (at_selector _ _ _ _ c2 (Z.shiftl SEG_KDATA 3) DS ES
    (movw (Imm (Z.shiftl SEG_KCPU 3)) EAX :: movw (Reg EAX) FS :: movw (Reg EAX) GS :: [pushl (Reg ESP); call trap ra]) eq_refl eq_refl ltac:(by cbn) H1)
    as (x & c3 & -> & H3).
  destruct (at_selector _ _ _ _ c3 (Z.shiftl SEG_KCPU 3) FS GS [pushl (Reg ESP); call trap ra] eq_refl eq_refl ltac:(by cbn) H3) as (y & c4 & -> & H4).
  clear H1 H3. pose proof (at_sp _ _ _ _ _ H4) as Hsp. cbn [run foldl exec operand_val]. change (pushed hi ESP (R c4 ESP)) with (R c4 ESP).
  assert (R c4 ESP = 4 * (b - 12)) as Esp by (rewrite Hsp; cbn [length]; lia).
  eapply (at_push _ _ _ _ _ (4 * (b - 12))) in H4; [|cbn [length]; lia|unfold is_u32; cbn [length] in *; lia|exact Esp].
  eapply (at_push _ _ _ _ _ ra) in H4; [|cbn [length]; lia|done|done]. eapply (at_put _ _ _ _ _ EIP trap) in H4; [|done|done].
  destruct H4 as [HS HR]. replace (4 * (top - Z.of_nat (length (pushed hi GS (f GS) :: pushed hi FS (f FS) :: pushed hi ES (f ES) :: pushed hi DS (f DS) :: l)))) with (4 * (b - 4)) in HS by (cbn [length]; lia).
  split; [exact HS|]. by rewrite !HR.
Qed.

(** What [trap] finds when user or kernel code was interrupted. *)
Record entered (c : core) (trap ra ss0 t oesp n err : Z) (g : gate) (user : bool) (top : Z) (c' : core) : Prop := mk_entered {
  en_stack : stack (K c) top (ra :: t :: trapframe c oesp n err user) c';
  en_eip : R c' EIP = trap;
  en_cs : R c' CS = gsel g;
  en_ss : R c' SS = if user then ss0 else R c SS;
  en_if : R c' EFLAGS = if istrap g then R c EFLAGS else Z.ldiff (R c EFLAGS) FL_IF;
  en_data : R c' DS = 16 /\ R c' ES = 16;
  en_cpu : R c' FS = 24 /\ R c' GS = 24
}.

Lemma enter_frame ss0 esp0 a trap ra g n err c user top :
  regs_ok c -> mem_ok (K c) -> 21 < top < 2 ^ 30 -> 0 <= n < 256 -> is_u32 ra ->
  (is_Some err <-> n ∈ hardware_err) -> (forall e, err = Some e -> is_u32 e) ->
  user = negb (Z.land (R c CS) 3 =? Z.land (gsel g) 3) -> (if user then esp0 else R c ESP) = 4 * top ->
  entered c trap ra ss0 (4 * (top - if user then 19 else 17)) (4 * (top - if user then 11 else 9)) n (default 0 err) g user top
    (enter ss0 esp0 a trap ra g n err c).
Proof.
  intros Hc Hm Ht Hn Hra Herr He Hu Hs. pose proof (interrupt_stack ss0 esp0 g err c user top Hc Hm ltac:(lia) He Hu Hs) as HI. cbv zeta in HI.
  unfold enter. apply (vector_stack a n) in HI; [|done|done|destruct user; cbn [length app]; lia].
  set (c2 := run hi (vector a n) (interrupt hi ss0 esp0 g err c)) in *.
  assert (forall r, r <> ESP -> R c2 r = match r with CS => gsel g | EIP => a | SS => if user then ss0 else R c SS
    | EFLAGS => if istrap g then R c EFLAGS else Z.ldiff (R c EFLAGS) FL_IF | r => R c r end) as HR.
  { intros r Hr. unfold c2, vector, interrupt, run. rewrite vector_err, Hu. by destruct (bool_decide _), (_ =? _), err, r. }
  clearbody c2. assert (forall r, general r = true -> R c2 r = R c r) as HG by (intros r Hr; rewrite HR by (by destruct r); by destruct r).
  assert (at_stack (K c) top _ (R c2) c2) as HA by (split; [exact HI|done]).
  apply (alltraps_stack _ _ _ _ _ trap ra) in HA as (S1 & E1 & E2 & E3 & E4 & E5 & E6 & E7 & E8);
    [|destruct user; cbn [length app]; lia|done|intros r Hr; rewrite HG by done; by apply pushed_u32].
  split; [|exact E1|by rewrite E2, HR|by rewrite E3, HR|by rewrite E4, HR|exact (conj E5 E6)|exact (conj E7 E8)].
  rewrite !HG in S1 by done. unfold trapframe. cbv zeta. cbn [app] in S1 |- *.
  match type of S1 with stack _ _ ?l _ => match goal with |- stack _ _ ?l' _ => replace l' with l; [exact S1|] end end.
  destruct user; cbn [length app]; f_equal; (f_equal; [lia|]); do 4 f_equal; lia.
Qed.

(** The registers while words are popped. *)
Record popping (m : ram) (b : Z) (f : name -> Z) (c : core) : Prop := mk_popping {
  po_mem : K c = m;
  po_sp : R c ESP = 4 * b;
  po_regs r : r <> ESP -> R c r = f r
}.

Lemma popping_pop m b f c r : 0 <= b < 2 ^ 30 - 1 -> r <> ESP -> popping m b f c ->
  popping m (b + 1) (upd r (field r (word m b)) f) (pop r c).
Proof.
  intros Hb Hr [Hm Hs Hf]. rewrite (pop_word c b r Hs Hb), Hm. split; [done|by destruct r|]. intros x Hx. unfold upd. rewrite <- (Hf x) by done. by destruct x, r.
Qed.

Lemma popping_skip m b f c n : 0 <= b -> 0 <= n -> b + n < 2 ^ 30 -> popping m b f c -> popping m (b + n) f (skip (4 * n) c).
Proof.
  intros Hb Hn Ht [Hm Hs Hf]. unfold skip. rewrite Hs. replace (4 * b + 4 * n) with (4 * (b + n)) by lia. rewrite u32_word by lia.
  split; [done|done|]. intros x Hx. rewrite <- (Hf x) by done. by destruct x.
Qed.

(** The word of the frame that belongs to a register. *)
Definition tf_index (r : name) : Z :=
  match r with
  | EDI => 0 | ESI => 1 | EBP => 2 | EBX => 4 | EDX => 5 | ECX => 6 | EAX => 7 | GS => 8 | FS => 9 | ES => 10 | DS => 11
  | EIP => 14 | CS => 15 | EFLAGS => 16 | ESP => 17 | SS => 18
  end.

Lemma tf_index_range (user : bool) r : (user = false -> r <> ESP /\ r <> SS) -> 0 <= tf_index r < if user then 19 else 17.
Proof. intros Hr. destruct user; [by destruct r|]. destruct (Hr eq_refl). by destruct r. Qed.

Lemma tf_index_eax r : tf_index r = tf_index EAX -> r = EAX.
Proof. by destruct r. Qed.

(** [trapret] with the stack pointer at a frame: every register has the value
    in the frame, but a frame of kernel code has none for the stack pointer,
    which is left above it. *)
Lemma trapret_law c b : R c ESP = 4 * b -> 0 <= b -> b + 19 < 2 ^ 30 ->
  let user := negb (Z.land (field CS (word (K c) (b + tf_index CS))) 3 =? Z.land (R c CS) 3) in
  let c' := run hi trapret c in
  K c' = K c /\
  (forall r, r <> ESP -> r <> SS -> R c' r = field r (word (K c) (b + tf_index r))) /\
  R c' ESP = (if user then word (K c) (b + tf_index ESP) else 4 * (b + 17)) /\
  R c' SS = if user then field SS (word (K c) (b + tf_index SS)) else R c SS.
Proof.
  intros Hs Hb Ht user c'. assert (popping (K c) b (R c) c) as H0 by (by split). set (m := K c) in *.
  assert (exists f c1, popping m (b + 14) f c1 /\ c' = return_from c1 /\
    (forall r, general r = true -> f r = field r (word m (b + tf_index r))) /\ f CS = R c CS /\ f SS = R c SS) as (f & c1 & H1 & E & Hf & Hcs & Hss).
  { apply (popping_pop _ _ _ _ EDI), (popping_pop _ _ _ _ ESI), (popping_pop _ _ _ _ EBP), (popping_skip _ _ _ _ 1),
      (popping_pop _ _ _ _ EBX), (popping_pop _ _ _ _ EDX), (popping_pop _ _ _ _ ECX), (popping_pop _ _ _ _ EAX),
      (popping_pop _ _ _ _ GS), (popping_pop _ _ _ _ FS), (popping_pop _ _ _ _ ES), (popping_pop _ _ _ _ DS), (popping_skip _ _ _ _ 2) in H0; try done; try lia.
    eexists _, _. split; [|split; [reflexivity|]]; [by replace (b + 14) with (b + 1 + 1 + 1 + 1 + 1 + 1 + 1 + 1 + 1 + 1 + 1 + 1 + 2) by lia|].
    split; [|done]. intros r Hr. destruct r; try done; cbn [upd name_beq tf_index]; do 2 f_equal; lia. }
  rewrite E. clear c' E H0. unfold return_from. assert (R c1 CS = R c CS) as Ecs by (by rewrite (po_regs _ _ _ _ H1)). rewrite Ecs.
  apply (popping_pop _ _ _ _ EIP), (popping_pop _ _ _ _ CS), (popping_pop _ _ _ _ EFLAGS) in H1; try done; try lia.
  set (c2 := pop EFLAGS _) in *. clearbody c2. replace (b + 14 + 1 + 1 + 1) with (b + 17) in H1 by lia.
  assert (forall r, r <> ESP -> r <> SS -> R c2 r = field r (word m (b + tf_index r))) as HR.
  { intros r H1r H2r. rewrite (po_regs _ _ _ _ H1) by done. destruct r; try done; cbn [upd name_beq]; try (by rewrite Hf); do 2 f_equal; cbn [tf_index]; lia. }
  rewrite HR by done. unfold user. destruct (_ =? _) eqn:E; cbn [negb].
  - destruct H1 as [H1 H2 H3]. rewrite (H3 SS) by done. exact (conj H1 (conj HR (conj H2 Hss))).
  - pose proof (po_sp _ _ _ _ H1) as Hsp. pose proof (po_mem _ _ _ _ H1) as Hm. rewrite Hsp, Hm.
    apply (popping_skip _ _ _ _ 1), (popping_pop _ _ _ _ SS) in H1; try done; try lia. change (4 * 1) with 4 in H1.
    destruct H1 as [H1 H2 H3]. split; [done|]. split; [|split; [done|]].
    + intros r H1r H2r. rewrite <- HR by done. by destruct r.
    + change (R (pop SS (skip 4 c2)) SS = field SS (word m (b + tf_index SS))). rewrite H3 by done. cbn [upd name_beq tf_index]. do 2 f_equal. lia.
Qed.

(** A frame of user code. *)
Lemma trapret_user c b : R c ESP = 4 * b -> 0 <= b -> b + 19 < 2 ^ 30 ->
  Z.land (R c CS) 3 = 0 -> Z.land (word (K c) (b + tf_index CS)) 3 = 3 ->
  forall r, R (run hi trapret c) r = field r (word (K c) (b + tf_index r)).
Proof.
  intros Hs Hb Ht Hk Hu. destruct (trapret_law c b Hs Hb Ht) as (_ & ER & EE & ES). set (c' := run hi trapret c) in *. clearbody c'.
  assert (Z.land (field CS (word (K c) (b + tf_index CS))) 3 = 3) as Hu'.
  { unfold field. cbn [is_sel]. unfold u16. rewrite <- Z.land_ones, <- Z.land_assoc by lia. exact Hu. }
  rewrite Hu', Hk in EE, ES. intros r. destruct (decide (r = ESP)) as [->|H1]; [done|]. destruct (decide (r = SS)) as [->|H2]; [done|]. by apply ER.
Qed.

(** The frame has the interrupted registers. *)
Lemma entered_word c trap ra ss0 t oesp n err g user top c1 r :
  entered c trap ra ss0 t oesp n err g user top c1 -> (user = false -> r <> ESP /\ r <> SS) ->
  word (K c1) (top - (if user then 19 else 17) + tf_index r) = pushed hi r (R c r).
Proof.
  intros [[_ _ Hw _] _ _ _ _ _ _] Hr.
  assert ((ra :: t :: trapframe c oesp n err user) !! S (S (Z.to_nat (tf_index r))) = Some (pushed hi r (R c r))) as Hl.
  { unfold trapframe. destruct user, r; try done; naive_solver. }
  rewrite <- (Hw _ _ Hl). f_equal. assert (0 <= tf_index r) by (by destruct r). unfold trapframe. destruct user; cbn [length app]; lia.
Qed.

(** C8: a trap is transparent: whatever registers, selectors and flags user or
    kernel code has when it is interrupted, by any of the 256 vectors and with
    or without an error code, vectors.pl and [alltraps] build the
    [struct trapframe] that [trap] is called with, on the kernel's segments and
    without touching memory above it; and when [trap] returns with the frame as it was
    but for [eax], the interrupted code goes on with all its registers but [eax]
    as they were. *)
Theorem trap_transparent ss0 esp0 a trap ra g n err c user top c2 v :
  regs_ok c -> mem_ok (K c) -> 21 < top < 2 ^ 30 - 2 -> 0 <= n < 256 -> is_u32 ra ->
  (is_Some err <-> n ∈ hardware_err) -> (forall e, err = Some e -> is_u32 e) -> Z.land (gsel g) 3 = 0 ->
  user = negb (Z.land (R c CS) 3 =? 0) -> (if user then esp0 else R c ESP) = 4 * top ->
  let t := top - (if user then 19 else 17) in
  let c1 := enter ss0 esp0 a trap ra g n err c in
  R c2 ESP = R c1 ESP + 4 -> Z.land (R c2 CS) 3 = 0 -> (user = false -> R c2 SS = R c SS) ->
  (forall i, 0 <= i < (if user then 19 else 17) -> word (K c2) (t + i) = if decide (i = tf_index EAX) then v else word (K c1) (t + i)) ->
  entered c trap ra ss0 (4 * t) (4 * (top - if user then 11 else 9)) n (default 0 err) g user top c1 /\
  let c' := run hi alltraps_ret c2 in
  R c' EAX = v /\ (forall r, r <> EAX -> R c' r = R c r) /\ K c' = K c2.
Proof.
  intros Hc Hm Ht Hn Hra Herr He Hg Hu Hs t c1 Hsp Hcs Hss Hw.
  assert (entered c trap ra ss0 (4 * t) (4 * (top - if user then 11 else 9)) n (default 0 err) g user top c1) as HE.
  { apply enter_frame; try done; [lia|by rewrite Hg]. }
  split; [exact HE|]. clearbody c1. intros c'. assert (R c1 ESP = 4 * (t - 2)) as Esp.
  { rewrite (sk_sp _ _ _ _ (en_stack _ _ _ _ _ _ _ _ _ _ _ _ HE)). unfold t. destruct user; cbn [length trapframe app]; lia. }
  assert (0 <= t /\ t + 19 < 2 ^ 30) as Htr by (unfold t; destruct user; lia).
  assert (exists c3, c' = run hi trapret c3 /\ R c3 ESP = 4 * t /\ K c3 = K c2 /\ R c3 CS = R c2 CS /\ R c3 SS = R c2 SS) as (c3 & Ec' & E3 & EK3 & ECS3 & ESS3).
  { exists (skip 4 c2). split; [unfold c', alltraps_ret; exact (run_cons (addl 4 ESP) trapret c2)|]. split; [|done]. change (R (skip 4 c2) ESP) with (u32 (R c2 ESP + 4)).
    rewrite Hsp, Esp. replace (4 * (t - 2) + 4 + 4) with (4 * t) by lia. by rewrite u32_word by lia. }
  clearbody c'. destruct (trapret_law c3 t) as (EK & ER & EE & ES); [done|lia|lia|]. rewrite <- Ec', EK3, ?ECS3, ?ESS3 in *.
  assert (forall r, r <> EAX -> (user = false -> r <> ESP /\ r <> SS) -> field r (word (K c2) (t + tf_index r)) = R c r) as HF.
  { intros r Hr Hr'. rewrite Hw by (by apply tf_index_range). rewrite decide_False by (intros E; by apply Hr, tf_index_eax).
    unfold t. rewrite (entered_word _ _ _ _ _ _ _ _ _ _ _ _ r HE Hr'). by apply field_pushed. }
  assert (field CS (word (K c2) (t + tf_index CS)) = R c CS) as Ecs by (by apply HF).
  rewrite Ecs, Hcs, <- Hu in EE, ES. split; [|split; [|exact EK]].
  - rewrite ER by done. rewrite Hw by (by apply tf_index_range). by rewrite decide_True.
  - intros r Hr. destruct (decide (r = ESP)) as [->|H1]; [|destruct (decide (r = SS)) as [->|H2]]; [| |rewrite ER by done; by apply HF].
    + rewrite EE. destruct user; [exact (HF ESP Hr ltac:(done))|]. rewrite Hs. unfold t. lia.
    + rewrite ES. destruct user; [exact (HF SS Hr ltac:(done))|]. by apply Hss.
Qed.

(** ** Context switches *)

(** [swtch(old, new)] is about to run: the return address and the arguments
    are on the stack. *)
Record calls_swtch (c : core) (b ra o q : Z) : Prop := mk_calls_swtch {
  cs_mem : mem_ok (K c);
  cs_sp : R c ESP = 4 * b;
  cs_args : words (K c) b [ra; 4 * o; 4 * q];
  cs_room : 4 <= b < 2 ^ 30 - 3;
  cs_old : 0 <= o < 2 ^ 30 /\ ~ (b - 4 <= o < b + 3);
  cs_new : 0 <= q < 2 ^ 30 - 5
}.

(** [struct context] and the return address above it. *)
Definition context_of (c : core) (ra : Z) : list Z := [R c EDI; R c ESI; R c EBX; R c EBP; ra].

Lemma swtch_args c b ra o q : calls_swtch c b ra o q ->
  let c1 := exec hi (movl (At 8 ESP) (Reg EDX)) (exec hi (movl (At 4 ESP) (Reg EAX)) c) in
  K c1 = K c /\ R c1 EAX = 4 * o /\ R c1 EDX = 4 * q /\ forall r, r <> EAX -> r <> EDX -> R c1 r = R c r.
Proof.
  intros [Hm Hs Ha Hb [Ho Hno] Hq] c1. apply words_cons in Ha as [_ [H1 [H2 _]%words_cons]%words_cons].
  assert (R c1 EAX = load32 (u32 (R c ESP + 4)) (K c) /\ R c1 EDX = load32 (u32 (R c ESP + 8)) (K c)) as [-> ->] by done.
  rewrite Hs. replace (4 * b + 4) with (4 * (b + 1)) by lia. replace (4 * b + 8) with (4 * (b + 1 + 1)) by lia. rewrite !u32_word by lia.
  split; [done|]. split; [done|]. split; [done|]. intros r H1r H2r. by destruct r.
Qed.

(** The part after the registers are saved. *)
Lemma swtch_load c o q : mem_ok (K c) -> R c EAX = 4 * o -> R c EDX = 4 * q -> 0 <= o < 2 ^ 30 -> 0 <= q < 2 ^ 30 - 5 ->
  is_u32 (R c ESP) -> (forall i, 0 <= i < 5 -> q + i <> o) ->
  let c' := run hi [movl (Reg ESP) (At 0 EAX); movl (Reg EDX) (Reg ESP); popl EDI; popl ESI; popl EBX; popl EBP; ret_] c in
  mem_ok (K c') /\ (forall x, 0 <= x < 2 ^ 30 -> word (K c') x = if decide (x = o) then R c ESP else word (K c) x) /\
  words (K c) q [R c' EDI; R c' ESI; R c' EBX; R c' EBP; R c' EIP] /\ R c' ESP = 4 * (q + 5) /\
  (forall r, is_sel r = true \/ r = EFLAGS -> R c' r = R c r).
Proof.
  intros Hm Ha Hd Ho Hq Hu Hne c'. unfold c'. clear c'. rewrite !(run_cons (movl _ _)). cbn [exec operand_val assign].
  change (pushed hi ESP (R c ESP)) with (R c ESP). rewrite Ha, Z.add_0_r, u32_word by done. set (m := store32 (4 * o) (R c ESP) (K c)).
  assert (mem_ok m) as Hm' by (by apply mem_ok_store32).
  assert (forall x, 0 <= x < 2 ^ 30 -> word m x = if decide (x = o) then R c ESP else word (K c) x) as Hw by (intros x Hx; by apply word_store).
  set (c1 := put ESP _ _). assert (popping m q (R c) c1) as H1.
  { split; [done| |by intros []]. unfold c1. cbn [put R name_beq set_K field is_sel pushed]. exact Hd. }
  clearbody c1. apply (popping_pop _ _ _ _ EDI), (popping_pop _ _ _ _ ESI), (popping_pop _ _ _ _ EBX), (popping_pop _ _ _ _ EBP), (popping_pop _ _ _ _ EIP) in H1;
    try done; try lia. cbn [run foldl exec]. set (c2 := pop EIP _) in *. clearbody c2. destruct H1 as [E1 E2 E3].
  rewrite E1, E2, !E3 by done. cbn [upd name_beq field is_sel]. split; [done|]. split; [exact Hw|]. split; [|split; [lia|]].
  - assert (forall x, q <= x < q + 5 -> word m x = word (K c) x) as Hk.
    { intros x Hx. rewrite Hw, decide_False; [done| |lia]. replace x with (q + (x - q)) by lia. apply Hne. lia. }
    rewrite !words_cons, !Hk by lia. by split_and!.
  - intros r Hr. rewrite E3 by naive_solver. destruct r; naive_solver.
Qed.

Lemma swtch_law c b ra o q : regs_ok c -> is_u32 ra -> calls_swtch c b ra o q ->
  (forall i, 0 <= i < 5 -> ~ (b - 4 <= q + i < b) /\ q + i <> o) ->
  let c' := run hi swtch c in
  mem_ok (K c') /\ words (K c') (b - 4) (context_of c ra) /\ word (K c') o = 4 * (b - 4) /\
  (forall x, 0 <= x < 2 ^ 30 -> ~ (b - 4 <= x < b) -> x <> o -> word (K c') x = word (K c) x) /\
  words (K c) q [R c' EDI; R c' ESI; R c' EBX; R c' EBP; R c' EIP] /\ R c' ESP = 4 * (q + 5) /\
  (forall r, is_sel r = true \/ r = EFLAGS -> R c' r = R c r).
Proof.
  intros Hc Hra HC Hsep c'. unfold c', swtch. clear c'. rewrite !(run_cons (movl (At _ _) _)).
  destruct (swtch_args c b ra o q HC) as (E0 & E1 & E2 & E3). set (c1 := exec hi (movl (At 8 ESP) _) _) in *. clearbody c1.
  destruct HC as [Hm Hs Ha Hb [Ho Hno] Hq]. apply words_cons in Ha as [Hw0 _].
  assert (forall r, is_sel r = false -> is_u32 (R c r)) as Hu by (intros r Hr; specialize (Hc r); by rewrite Hr in Hc).
  assert (at_stack (K c) b [R c EDI; R c ESI; R c EBX; R c EBP] (R c1)
    (exec hi (pushl (Reg EDI)) (exec hi (pushl (Reg ESI)) (exec hi (pushl (Reg EBX)) (exec hi (pushl (Reg EBP)) c1))))) as H1.
  { cbn [exec operand_val]. repeat (apply at_push; [cbn [length]; lia|by apply Hu|by rewrite <- E3|]).
    split; [apply stack_start; [by rewrite E0|done|by rewrite E3, Hs]|done]. }
  rewrite !(run_cons (pushl _)). set (c2 := exec hi (pushl (Reg EDI)) _) in *. clearbody c2. destruct H1 as [[Hm2 Hs2 Hw2 Hr2] HR2]. cbn [length] in *.
  replace (b - Z.of_nat 4) with (b - 4) in * by lia.
  destruct (swtch_load c2 o q) as (L1 & L2 & L3 & L4 & L5); [done|by rewrite HR2|by rewrite HR2|done|done|rewrite Hs2; unfold is_u32; lia|intros i Hi; by apply Hsep|].
  set (c' := run hi _ c2) in *. clearbody c'. split; [done|]. split; [|split; [|split; [|split; [|split; [done|]]]]].
  - apply (words_app _ _ [_; _; _; _] [_]). cbn [length]. split.
    + intros i w Hi. rewrite L2, decide_False; [by apply Hw2| |]; apply lookup_lt_Some in Hi; cbn [length] in Hi; lia.
    + replace (b - 4 + Z.of_nat 4) with b by lia. apply words_cons. split; [|by intros i w Hi]. rewrite L2, decide_False, Hr2 by lia. done.
  - rewrite L2, decide_True by done. done.
  - intros x Hx Hnx Hxo. rewrite L2, decide_False by done. apply Hr2; lia.
  - intros i w Hi. rewrite <- (L3 i w Hi). symmetry. apply Hr2; apply lookup_lt_Some in Hi; cbn [length] in Hi; [lia|].
    destruct (Hsep (Z.of_nat i)); lia.
  - intros r Hr. rewrite L5, HR2, E3 by naive_solver. done.
Qed.

(** C9: [swtch] is a call that returns: it saves the callee-saved registers and
    where to go on in the [struct context] below the caller's stack, and
    stores its address in [*old]; when any other code, on any stack, later
    switches to that context, with its words as they were, the caller goes on
    after the call with its stack pointer and its callee-saved registers as
    they were.  No other word of memory is changed by the switch. *)
Theorem swtch_returns c b ra o q c2 b2 ra2 o2 q2 :
  regs_ok c -> is_u32 ra -> calls_swtch c b ra o q -> (forall i, 0 <= i < 5 -> ~ (b - 4 <= q + i < b) /\ q + i <> o) ->
  let c1 := run hi swtch c in
  regs_ok c2 -> is_u32 ra2 -> calls_swtch c2 b2 ra2 o2 q2 -> (forall i, 0 <= i < 5 -> ~ (b2 - 4 <= q2 + i < b2) /\ q2 + i <> o2) ->
  4 * q2 = word (K c1) o -> (forall i, 0 <= i < 5 -> word (K c2) (q2 + i) = word (K c1) (q2 + i)) ->
  let c3 := run hi swtch c2 in
  R c3 EIP = ra /\ R c3 ESP = R c ESP + 4 /\ (forall r, r ∈ [EBX; ESI; EDI; EBP] -> R c3 r = R c r) /\
  (forall x, 0 <= x < 2 ^ 30 -> ~ (b - 4 <= x < b) -> x <> o -> word (K c1) x = word (K c) x).
Proof.
  intros Hc Hra HC Hsep c1 Hc2 Hra2 HC2 Hsep2 Hnew Hkept c3.
  destruct (swtch_law c b ra o q Hc Hra HC Hsep) as (_ & A1 & A2 & A3 & _). fold c1 in A1, A2, A3.
  destruct (swtch_law c2 b2 ra2 o2 q2 Hc2 Hra2 HC2 Hsep2) as (_ & _ & _ & _ & B1 & B2 & _). fold c3 in B1, B2.
  clearbody c1 c3. assert (q2 = b - 4) as -> by lia.
  apply (words_ext _ (K c2)) in A1; [|done]. apply (words_inj _ _ (context_of c ra)) in B1; [|done|done]. injection B1 as E1 E2 E3 E4 E5.
  split_and!; [done|rewrite B2, (cs_sp _ _ _ _ _ HC); lia| |done]. intros r Hr. rewrite !elem_of_cons, elem_of_nil in Hr. naive_solver.
Qed.

(** ** The first run of a process *)

Lemma page_words kend a : valid_page kend a -> exists A, a = 4 * A /\ 2 ^ 29 <= A /\ A + 1024 < 2 ^ 30 - 1.
Proof.
  intros (Hm & _ & Hr). unfold KERNBASE, PHYSTOP, PGSIZE in *. exists (1024 * (a / 4096)). pose proof (Z.div_mod a 4096 ltac:(lia)). lia.
Qed.

Lemma le_val_zeros n : le_val (replicate n 0) = 0.
Proof. induction n as [|n IH]; [done|]. cbn [replicate le_val]. by rewrite IH. Qed.

Lemma rd_zeroed n b off k o : (off <= o)%nat -> (o + n <= off + k)%nat -> (off + k <= length b)%nat ->
  rd n (memmove_in b off (replicate k 0)) o = 0.
Proof.
  intros H1 H2 H3. unfold rd. transitivity (le_val (replicate n 0)); [f_equal|apply le_val_zeros].
  apply (list_eq_same_length _ _ n); [by rewrite length_replicate|apply sub_bytes_length; rewrite memmove_in_length; lia|].
  intros j x y Hj Hx Hy. rewrite sub_bytes_lookup in Hx by done. unfold memmove_in in Hx.
  rewrite list_lookup_inserts in Hx by (rewrite ?length_replicate; lia). apply lookup_replicate in Hx as [Hx _], Hy as [Hy _]. congruence.
Qed.

(** The words of the kernel stack [allocproc] prepares: the context, with
    [forkret] to return to, and [trapret] above it. *)
Lemma stack_page_words trapret_addr forkret kend a x m pg : valid_page kend a -> is_u32 trapret_addr -> is_u32 forkret -> length pg = 4096%nat ->
  page_at m (frame a) = stack_page trapret_addr forkret pg -> a + 3996 = 4 * x -> words m x [0; 0; 0; 0; forkret; trapret_addr].
Proof.
  intros Ha Ht Hf Hl Hp Hx.
  assert (forall k, 0 <= k < 6 -> word m (x + k) = rd32 (stack_page trapret_addr forkret pg) (Z.to_nat (3996 + 4 * k))) as Hw.
  { intros k Hk. unfold word, load32. replace (4 * (x + k)) with (a + (3996 + 4 * k)) by lia.
    destruct (byte_in_page kend a (3996 + 4 * k) Ha) as (-> & -> & _); [unfold PGSIZE; lia|]. by rewrite Hp. }
  assert (forall k, 0 <= k < 4 -> word m (x + k) = 0) as H0.
  { intros k Hk. rewrite Hw by lia. unfold stack_page. rewrite rd32_wr32_other by lia. apply rd_zeroed; [lia|lia|]. unfold wr32. rewrite wr_length. lia. }
  assert (word m (x + 4) = forkret) as H4.
  { rewrite Hw by lia. apply rd32_wr32_same; [|done]. unfold wr32. rewrite memmove_in_length, wr_length. lia. }
  assert (word m (x + 5) = trapret_addr) as H5.
  { rewrite Hw by lia. unfold stack_page. change (Z.to_nat (3996 + 4 * 5)) with 4016%nat. rewrite rd32_wr32_other by lia. unfold rd32, rd. rewrite sub_memmove_other by (rewrite length_replicate; lia).
    apply rd32_wr32_same; [lia|done]. }
  intros i w Hi. do 6 (destruct i as [|i]; [injection Hi as <-; (apply H0; lia) || done|]). done.
Qed.

(** C10: a process made by [allocproc] starts in user mode with its trap frame:
    the first switch to the context that [allocproc] built enters [forkret], on
    the process's kernel stack; [forkret] returns to [trapret] with the stack
    pointer at the trap frame; and if that frame is one of user code then
    [trapret] leaves the kernel with every register as the frame has it. *)
Theorem process_starts trapret_addr forkret kend s i p a l :
  is_u32 trapret_addr -> is_u32 forkret ->
  list_find (fun p => pstate p = UNUSED) (ptable s) = Some (i, p) -> kalloc_inv kend (km s) (a :: l) ->
  exists s' p' x, allocproc trapret_addr forkret s = Ret s' (Some i) /\ ptable s' = <[i := p']> (ptable s) /\
    context p' = 4 * x /\ tf p' = 4 * (x + 6) /\ tf p' + sizeof_trapframe = a + KSTACKSIZE /\ kalloc_inv kend (km s') l /\
    forall c b ra o c2, regs_ok c -> is_u32 ra -> calls_swtch c b ra o x ->
      (forall i, 0 <= i < 5 -> ~ (b - 4 <= x + i < b) /\ x + i <> o) ->
      (forall i, 0 <= i < 6 -> word (K c) (x + i) = word (mem (km s')) (x + i)) ->
      let c1 := run hi swtch c in
      R c2 ESP = R c1 ESP -> word (K c2) (x + 5) = word (K c) (x + 5) -> Z.land (R c2 CS) 3 = 0 ->
      Z.land (word (K c2) (x + 6 + tf_index CS)) 3 = 3 ->
      R c1 EIP = forkret /\ (forall r, r ∈ [EBX; ESI; EDI; EBP] -> R c1 r = 0) /\
      let c3 := exec hi ret_ c2 in
      R c3 EIP = trapret_addr /\ R c3 ESP = tf p' /\
      forall r, R (run hi trapret c3) r = field r (word (K c2) (x + 6 + tf_index r)).
Proof.
  intros Ht Hf Hfind Hk. destruct (allocproc_law trapret_addr forkret kend s i p a l Hfind Hk)
    as (s' & p' & R1 & Hpt & _ & _ & _ & _ & _ & Etf & Ectx & _ & _ & Hk' & Hpg).
  pose proof (ki_valid _ _ _ Hk) as [Ha _]%Forall_cons. destruct (page_words kend a Ha) as (A & EA & HA).
  exists s', p', (A + 999). split_and!; [done|done|lia|lia|unfold sizeof_trapframe, KSTACKSIZE; lia|done|]. intros c b ra o c2 Hc Hra HC Hsep Hkept c1 Hsp Hret Hcs Hucs. set (x := A + 999) in *.
  assert (words (K c) x [0; 0; 0; 0; forkret; trapret_addr]) as Hw.
  { apply (words_ext (mem (km s'))); [done|]. apply (stack_page_words _ _ kend a x _ (page_at (mem (km s)) (frame a))); try done; [apply Hk|lia]. }
  destruct (swtch_law c b ra o x Hc Hra HC Hsep) as (_ & _ & _ & _ & B1 & B2 & _). fold c1 in B1, B2. clearbody c1.
  apply (words_app _ _ [0; 0; 0; 0; forkret] [trapret_addr]) in Hw as [Hw [Hw5 _]%words_cons]. cbn [length] in Hw5.
  apply (words_inj _ _ [0; 0; 0; 0; forkret]) in B1; [|done|done]. injection B1 as E1 E2 E3 E4 E5. rewrite <- E5. split; [done|].
  split; [intros r Hr; rewrite !elem_of_cons, elem_of_nil in Hr; naive_solver|]. intros c3.
  assert (c3 = put EIP (word (K c2) (x + 5)) (put ESP (4 * (x + 6)) c2)) as Ec3.
  { unfold c3. cbn [exec]. rewrite (pop_word c2 (x + 5)); [|by rewrite Hsp|lia]. by replace (x + 5 + 1) with (x + 6) by lia. }
  clearbody c3. subst c3. rewrite Hret. change (Z.of_nat 5) with 5 in Hw5. split; [exact Hw5|]. split; [change (4 * (x + 6) = tf p'); lia|].
  by apply (trapret_user (put EIP (word (K c) (x + 5)) (put ESP (4 * (x + 6)) c2)) (x + 6)); [|lia|lia| |].
Qed.

(** ** The first process *)

(** Writes within one page. *)
Lemma store_in_page kend a off src m pg : valid_page kend a -> 0 <= off < PGSIZE ->
  store_bytes (u32 (a + off)) src (<[frame a := pg]> m) = <[frame a := memmove_in pg (Z.to_nat off) src]> m.
Proof.
  intros Ha Ho. destruct (byte_in_page kend a off Ha Ho) as (Ef & Eo & ->). unfold store_bytes. rewrite Ef, Eo, page_at_insert_eq. apply insert_insert_eq.
Qed.

(** The page of the kernel stack after [init_frame], with the frame at [o]. *)
Definition init_page (o : nat) (pg : page) : page :=
  let pg := memmove_in pg o (replicate 76 0) in
  let pg := wr16 (wr16 (wr16 (wr16 pg (o + 60) 0x23) (o + 44) 0x2b) (o + 40) 0x2b) (o + 72) 0x2b in
  wr32 (wr32 (wr32 pg (o + 64) FL_IF) (o + 68) PGSIZE) (o + 56) 0.

Lemma init_frame_run kend a k : valid_page kend a ->
  exists k', init_frame (a + 4020) k = Ret k' tt /\
    mem (km (kp k')) = <[frame a := init_page (Z.to_nat 4020) (page_at (mem (km (kp k))) (frame a))]> (mem (km (kp k))).
Proof.
  intros Ha. eexists. split; [reflexivity|]. set (m := mem (km (kp k))).
  assert (forall off src pg, 0 <= off < 76 -> store_bytes (u32 (a + 4020 + off)) src (<[frame a := pg]> m) =
    <[frame a := memmove_in pg (Z.to_nat 4020 + Z.to_nat off)%nat src]> m) as Hst.
  { intros off src pg Ho. rewrite <- Z.add_assoc, (store_in_page kend) by (done || unfold PGSIZE; lia). by rewrite Z2Nat.inj_add by lia. }
  set (m0 := store_bytes (a + 4020) (replicate (Z.to_nat sizeof_trapframe) 0) m).
  assert (m0 = <[frame a := memmove_in (page_at m (frame a)) (Z.to_nat 4020) (replicate 76 0)]> m) as E0.
  { unfold m0, store_bytes. by destruct (byte_in_page kend a 4020 Ha) as (-> & -> & _); [unfold PGSIZE; lia|]. }
  change (store_bytes (u32 (a + 4020 + tf_eip)) (le_bytes 4 0) (store_bytes (u32 (a + 4020 + tf_esp)) (le_bytes 4 PGSIZE)
    (store_bytes (u32 (a + 4020 + tf_eflags)) (le_bytes 4 FL_IF) (store_bytes (u32 (a + 4020 + tf_ss)) (le_bytes 2 0x2b)
    (store_bytes (u32 (a + 4020 + tf_es)) (le_bytes 2 0x2b) (store_bytes (u32 (a + 4020 + tf_ds)) (le_bytes 2 0x2b)
    (store_bytes (u32 (a + 4020 + tf_cs)) (le_bytes 2 0x23) m0)))))) = <[frame a := init_page (Z.to_nat 4020) (page_at m (frame a))]> m).
  rewrite E0, !Hst by done. reflexivity.
Qed.

(** Reads of a page: words and their lower halves. *)
Lemma u16_rd32 b o : u16 (rd32 b o) = u16 (rd16 b o).
Proof.
  unfold rd32, rd16, rd, sub_bytes, u16. set (l := drop o b). clearbody l.
  destruct l as [|x [|y l]]; [done|done|]. cbn [take le_val]. change (2 ^ 16) with 65536.
  replace (x + 256 * (y + 256 * le_val (take 2 l))) with (x + 256 * (y + 256 * 0) + le_val (take 2 l) * 65536) by lia. apply Z.mod_add. lia.
Qed.

(** The registers the first process starts with. *)
Definition init_reg (r : name) : Z :=
  match r with
  | CS => 0x23
  | DS | ES | SS => 0x2b
  | EFLAGS => FL_IF
  | ESP => PGSIZE
  | _ => 0
  end.

Ltac read_page :=
  repeat first
    [ rewrite rd_wr_same by (rewrite ?wr_length, ?memmove_in_length; lia)
    | rewrite rd_wr_other by lia
    | rewrite rd_zeroed by lia ].

Lemma init_page_word o pg r : (o + 76 <= length pg)%nat -> field r (rd32 (init_page o pg) (o + Z.to_nat (4 * tf_index r))) = init_reg r.
Proof.
  intros Hl. unfold field. destruct (is_sel r) eqn:E; [rewrite u16_rd32|]; unfold init_page, rd32, rd16, wr32, wr16;
    destruct r; try discriminate E; clear E; cbn [tf_index Z.mul Pos.mul Z.to_nat Pos.to_nat Pos.iter_op Nat.add].
  all: read_page; reflexivity.
Qed.

(** After [userinit] has written the frame at [tf], at the top of the kernel
    stack [a], [trapret] starts the first process: user code and data segments,
    interrupts on, at address 0 with the stack at the end of its only page. *)
Theorem first_process_starts kend a k : valid_page kend a -> mem_ok (mem (km (kp k))) ->
  exists k', init_frame (a + 4020) k = Ret k' tt /\
    forall c, K c = mem (km (kp k')) -> R c ESP = a + 4020 -> Z.land (R c CS) 3 = 0 -> forall r, R (run hi trapret c) r = init_reg r.
Proof.
  intros Ha Hm. destruct (init_frame_run kend a k Ha) as (k' & R1 & Em). exists k'. split; [done|]. intros c HK Hs Hcs.
  destruct (page_words kend a Ha) as (A & EA & HA).
  assert (forall r, word (K c) (A + 1005 + tf_index r) = rd32 (init_page (Z.to_nat 4020) (page_at (mem (km (kp k))) (frame a))) (Z.to_nat 4020 + Z.to_nat (4 * tf_index r))) as Hw.
  { intros r. pose proof (tf_index_range true r ltac:(done)) as Hr. unfold word, load32.
    replace (4 * (A + 1005 + tf_index r)) with (a + (4020 + 4 * tf_index r)) by lia.
    destruct (byte_in_page kend a (4020 + 4 * tf_index r) Ha) as (-> & -> & _); [unfold PGSIZE; lia|].
    by rewrite HK, Em, page_at_insert_eq, Z2Nat.inj_add by lia. }
  assert (forall r, field r (word (K c) (A + 1005 + tf_index r)) = init_reg r) as Hf by (intros r; rewrite Hw; apply init_page_word; rewrite Hm; unfold PGSIZE; lia).
  intros r. rewrite (trapret_user c (A + 1005)); [apply Hf|lia|lia|lia|done|].
  pose proof (Hf CS) as Hc. unfold field in Hc. cbn [is_sel] in Hc. unfold u16 in Hc. rewrite <- Z.land_ones in Hc by lia.
  change 3 with (Z.land (Z.ones 16) 3) at 1. rewrite Z.land_assoc. by rewrite Hc.
Qed.
End trap.

(** ** Examples *)

Lemma put_K r v c : K (put r v c) = K c.
Proof. done. Qed.
Lemma put_sp v c : R (put ESP v c) ESP = v.
Proof. done. Qed.

(** User code with interrupts on, and the gate of a device. *)
Definition ex_core : core :=
  mk_core (fun r => match r with CS => 0x23 | DS | ES | SS => 0x2b | EFLAGS => FL_IF | ESP => 0x3000 | ECX => 7 | _ => 0 end) ∅.
Definition ex_gate : gate := mk_gate 8 0x80106000 false.
Definition ex_entered : core := enter 0 16 0x80001000 0x80105000 0x80105100 0x80105200 ex_gate 33 None ex_core.

Lemma trap_transparent_witness : exists c2 c', c2 = put ESP (R ex_entered ESP + 4) ex_entered /\ c' = run 0 alltraps_ret c2 /\
  R c' ECX = 7 /\ R c' ESP = 0x3000 /\ R c' CS = 0x23 /\ R c' EFLAGS = FL_IF.
Proof.
  set (t := 2 ^ 29 + 1024 - 19). pose (c2 := put ESP (R ex_entered ESP + 4) ex_entered).
  assert (forall r, r <> EAX -> R (run 0 alltraps_ret c2) r = R ex_core r) as H; [|eexists _, _; split; [reflexivity|]; split; [reflexivity|]].
  2: { fold c2. by rewrite !H. }
  apply (trap_transparent 0 ltac:(lia) 16 0x80001000 0x80105000 0x80105100 0x80105200 ex_gate 33 None ex_core true (2 ^ 29 + 1024) c2 (word (K c2) (t + 7))).
  - intros r. by destruct r.
  - apply mem_ok_empty.
  - lia.
  - lia.
  - done.
  - split; [by intros []|]. unfold hardware_err. rewrite !elem_of_cons, elem_of_nil. lia.
  - done.
  - done.
  - done.
  - done.
  - done.
  - done.
  - done.
  - unfold c2. rewrite put_K. fold ex_entered. generalize (K ex_entered). intros m i Hi.
    destruct (decide _) as [->|]; reflexivity.
Defined.

(** Two stacks: [swtch] is called on the first with the context on the second,
    and then on the second, by its caller, with the context saved before. *)
Definition ex_memory : ram :=
  store32 (4 * 0x20000500) 0x80100000 (store32 (4 * 0x20000501) (4 * 0x20000900) (store32 (4 * 0x20000502) (4 * 0x20000300)
    (store32 (4 * 0x20000600) 0x80100100 (store32 (4 * 0x20000601) (4 * 0x20000901) (store32 (4 * 0x20000602) (4 * (0x20000500 - 4)) ∅))))).
Definition ex_at (sp : Z) (m : ram) : core := mk_core (fun r => match r with ESP => 4 * sp | EBX => 3 | CS => 8 | DS | ES | SS => 16 | _ => 0 end) m.

Lemma ex_calls sp m ra o q : mem_ok m -> words m sp [ra; 4 * o; 4 * q] -> 4 <= sp < 2 ^ 30 - 3 -> 0 <= o < 2 ^ 30 -> ~ (sp - 4 <= o < sp + 3) ->
  0 <= q < 2 ^ 30 - 5 -> calls_swtch (ex_at sp m) sp ra o q.
Proof. by split. Qed.

Lemma swtch_returns_witness :
  exists c3, c3 = run 0 swtch (ex_at 0x20000600 (K (run 0 swtch (ex_at 0x20000500 ex_memory)))) /\
  R c3 EIP = 0x80100000 /\ R c3 ESP = 4 * 0x20000501 /\ R c3 EBX = 3.
Proof.
  assert (mem_ok ex_memory) as Hm by (unfold ex_memory; repeat apply mem_ok_store32; apply mem_ok_empty).
  assert (forall sp m, 0 <= sp < 2 ^ 30 -> regs_ok (ex_at sp m)) as Hr by (intros sp m Hsp r; destruct r; cbn; lia).
  assert (calls_swtch (ex_at 0x20000500 ex_memory) 0x20000500 0x80100000 0x20000900 0x20000300) as HC.
  { apply ex_calls; [exact Hm| |lia|lia|lia|lia]. rewrite !words_cons. split_and!; [vm_compute; reflexivity..|]. by intros i w Hi. }
  assert (is_u32 0x80100000 /\ is_u32 0x80100100) as [U1 U2] by done.
  destruct (swtch_law 0 ltac:(lia) _ _ 0x80100000 _ _ (Hr 0x20000500 ex_memory ltac:(lia)) U1 HC) as (Hm1 & _ & Ho & Hrest & _); [lia|].
  pose proof (swtch_returns 0 ltac:(lia) (ex_at 0x20000500 ex_memory) 0x20000500 0x80100000 0x20000900 0x20000300
    (ex_at 0x20000600 (K (run 0 swtch (ex_at 0x20000500 ex_memory)))) 0x20000600 0x80100100 0x20000901
    (0x20000500 - 4) (Hr 0x20000500 ex_memory ltac:(lia)) U1 HC ltac:(lia) (Hr 0x20000600 _ ltac:(lia)) U2) as E.
  revert E Hm1 Ho Hrest. generalize (run 0 swtch (ex_at 0x20000500 ex_memory)). intros c1 E Hm1 Ho Hrest.
  destruct E as (E1 & E2 & E3 & _); [|lia|symmetry; exact Ho|done|].
  - apply ex_calls; [exact Hm1| |lia|lia|lia|lia]. rewrite !words_cons, !Hrest by lia. split_and!; [vm_compute; reflexivity..|]. by intros i w Hi.
  - eexists. split; [reflexivity|]. split; [exact E1|]. split; [rewrite E2; reflexivity|]. rewrite E3; [reflexivity|]. clear. set_solver.
Defined.

(** The first process of Proc, switched to from another stack; its frame is one
    of user code. *)
Lemma process_starts_witness : exists s' p' x c c2, allocproc 1 2 run0 = Ret s' (Some 1%nat) /\ tf p' = 4 * (x + 6) /\
  R (run 0 swtch c) EIP = 2 /\ R (exec 0 ret_ c2) EIP = 1 /\ R (run 0 trapret (exec 0 ret_ c2)) CS = 0x23.
Proof.
  destruct (process_starts 0 ltac:(lia) 1 2 demo_end run0 1 (demo_proc UNUSED 0 None 0) demo_end [])
    as (s' & p' & x & R1 & _ & Ec & Et & Ea & Hk & H); [done|done|reflexivity|exact demo_kalloc|].
  pose proof (ki_mem _ _ _ Hk) as Hm. exists s', p', x. assert (x = 0x200E03E7) as Ex.
  { unfold sizeof_trapframe, KSTACKSIZE, demo_end, KERNBASE in Ea. lia. }
  clear Hk Ea Ec. revert Hm H. generalize (mem (km s')). intros m Hm H. subst x. set (x := 0x200E03E7) in *.
  set (m1 := store32 (4 * 0x20000500) 9 (store32 (4 * 0x20000501) (4 * 0x20000900) (store32 (4 * 0x20000502) (4 * x) m))).
  assert (mem_ok m1) as Hm1 by (by repeat apply mem_ok_store32).
  assert (forall y, x <= y < x + 19 -> word m1 y = word m y) as Hw.
  { intros y Hy. unfold m1. rewrite !word_store, !decide_False by (done || lia || by repeat apply mem_ok_store32). done. }
  assert (calls_swtch (ex_at 0x20000500 m1) 0x20000500 9 0x20000900 x) as HC.
  { apply ex_calls; [exact Hm1| |lia|lia|lia|lia]. rewrite !words_cons. unfold m1.
    repeat first [rewrite word_store by (done || lia || by repeat apply mem_ok_store32) | rewrite decide_True by done | rewrite decide_False by lia].
    split_and!; [done..|]. by intros i w Hi. }
  set (m2 := store32 (4 * (x + 21)) 0x23 m1).
  assert (forall y, 0 <= y < 2 ^ 30 -> word m2 y = if decide (y = x + 21) then 0x23 else word m1 y) as Hw2 by (intros y Hy; apply word_store; done || lia).
  exists (ex_at 0x20000500 m1), (put ESP (R (run 0 swtch (ex_at 0x20000500 m1)) ESP) (ex_at 0 m2)). clearbody m2 m1.
  destruct (H (ex_at 0x20000500 m1) 0x20000500 9 0x20000900 (put ESP (R (run 0 swtch (ex_at 0x20000500 m1)) ESP) (ex_at 0 m2)))
    as (E1 & _ & E2 & _ & E3); [intros r; by destruct r|done|exact HC|lia|intros i Hi; apply Hw; lia|apply put_sp| |done| |].
  - rewrite put_K. cbn [K ex_at]. rewrite Hw2, decide_False by lia. done.
  - rewrite put_K. cbn [K ex_at tf_index]. rewrite Hw2, decide_True by lia. done.
  - split; [exact R1|]. split; [exact Et|]. split; [exact E1|]. split; [exact E2|]. rewrite E3, put_K. cbn [K ex_at tf_index].
    rewrite Hw2, decide_True by lia. done.
Defined.
