(* ===== verification/Files.v ===== *)
(** * Files: descriptors, open files and pipes stay consistent

    The invariant that ties the descriptors of all processes to [ftable] and
    to the pipes: reference counts count descriptors, a file in use has a
    type, a pipe lives while one of its ends is open.  Every system call
    preserves it. *)
From stdpp Require Import base numbers list gmap strings.
From Stdlib Require Import ZArith Lia.
From S2P Require Import Prelude Bytes StringC Kalloc Vm Proc Buf Bio Log Fs Pipe Kernel Args Sysfile Exec Sysproc Syscall.

Local Open Scope Z_scope.

(** ** Steps that leave the open files alone *)

Definition idle (p : proc) : Prop := pstate p = UNUSED \/ pstate p = ZOMBIE.
#[global] Instance idle_dec p : Decision (idle p).
Proof. unfold idle. apply _. Defined.

(** No entry gets other descriptors, and none becomes idle but those in [I]. *)
Definition prel (I : option nat) (ps ps' : list proc) : Prop :=
  length ps' = length ps /\
  forall j p p', ps !! j = Some p -> ps' !! j = Some p' ->
    ofile p' = ofile p /\ (I <> Some j -> idle p' -> idle p).

Definition ends (p : pipe) : Z * Z := (readopen p, writeopen p).
(** Besides, offsets of files may move, and bytes in pipes. *)
Record keeps (I : option nat) (k k' : kernel) : Prop := {
  ke_procs : prel I (ptable (kp k)) (ptable (kp k'));
  ke_files : Forall2 (fun f f' => f' = set_foff (foff f') f) (ftable k) (ftable k');
  ke_pipes : forall a, ends <$> pipes k' !! a = ends <$> pipes k !! a
}.

Lemma prel_refl I ps : prel I ps ps.
Proof. split; [done|]. intros j p p' -> [= ->]. auto. Qed.

Lemma prel_trans I ps1 ps2 ps3 : prel I ps1 ps2 -> prel I ps2 ps3 -> prel I ps1 ps3.
Proof.
  intros [E1 H1] [E2 H2]. split; [congruence|]. intros j p1 p3 L1 L3.
  destruct (lookup_lt_is_Some_2 ps2 j) as [p2 L2]; [rewrite E1; by eapply lookup_lt_Some|].
  destruct (H1 _ _ _ L1 L2) as [? ?], (H2 _ _ _ L2 L3) as [-> ?]. auto.
Qed.

Lemma prel_insert I ps i p p' : ps !! i = Some p -> ofile p' = ofile p ->
  (I <> Some i -> idle p' -> idle p) -> prel I ps (<[i := p']> ps).
Proof.
  intros L E H. split; [by rewrite length_insert|]. intros j q q' Lj Lj'.
  destruct (decide (j = i)) as [->|].
  - rewrite list_lookup_insert_eq in Lj' by (by eapply lookup_lt_Some). simplify_eq. auto.
  - rewrite list_lookup_insert_ne in Lj' by done. simplify_eq. auto.
Qed.

Lemma prel_fmap I ps (f : proc -> proc) :
  (forall p, ofile (f p) = ofile p /\ (idle (f p) -> idle p)) -> prel I ps (f <$> ps).
Proof.
  intros H. split; [by rewrite length_fmap|]. intros j p p' L. rewrite list_lookup_fmap, L.
  intros [= <-]. destruct (H p). auto.
Qed.

Lemma prel_mono I ps ps' : prel None ps ps' -> prel I ps ps'.
Proof. intros [E H]. split; [done|]. intros j p p' L L'. destruct (H j p p' L L') as [? Hi]. split; [done|]. intros _. by apply Hi. Qed.

Lemma wakeup1_prel I c ps : prel I ps (wakeup1 c ps).
Proof. apply prel_fmap. intros p. case_decide as D; [|done]. split; [done|]. intros [?|?]; done. Qed.

Lemma deliver_prel I cs ps : prel I ps (deliver cs ps).
Proof.
  revert ps. induction cs as [|c cs IH]; intros ps; [apply prel_refl|]. cbn.
  eapply prel_trans; [apply wakeup1_prel|apply IH].
Qed.

Lemma keeps_refl I k : keeps I k k.
Proof.
  split; [apply prel_refl| |done]. induction (ftable k) as [|[] l IH]; constructor; auto.
Qed.

Lemma keeps_trans I k1 k2 k3 : keeps I k1 k2 -> keeps I k2 k3 -> keeps I k1 k3.
Proof.
  intros [P1 F1 E1] [P2 F2 E2]. split; [by eapply prel_trans| |congruence].
  revert F2. generalize (ftable k3). induction F1 as [|f g l l' E _ IH]; intros l3 F2;
    inversion F2 as [|? h ? ? E' F2']; subst; constructor; [|by apply IH]. rewrite E', E. done.
Qed.

Lemma keeps_mono I k k' : keeps None k k' -> keeps I k k'.
Proof. intros [? ? ?]. split; [by apply prel_mono|done|done]. Qed.

Lemma keeps_kp I k s : prel I (ptable (kp k)) (ptable s) -> keeps I k (set_kp s k).
Proof. intros HP. destruct (keeps_refl I k). by split. Qed.

(** Computations that only make such steps. *)
Class Keeps (I : option nat) {A} (m : M kernel A) : Prop :=
  keeping : forall k k' a, m k = Ret k' a -> keeps I k k'.
Class PKeeps (I : option nat) {A} (m : M psys A) : Prop :=
  pkeeping : forall s s' a, m s = Ret s' a -> prel I (ptable s) (ptable s').

#[export] Instance k_ret I {A} (a : A) : Keeps I (ret a).
Proof. intros k k' b [= <- _]. apply keeps_refl. Qed.
#[export] Instance k_gets I {A} (f : kernel -> A) : Keeps I (gets f).
Proof. intros k k' b [= <- _]. apply keeps_refl. Qed.
#[export] Instance k_from_opt I {A} (o : option A) : Keeps I (from_opt o).
Proof. destruct o; [apply _|done]. Qed.
#[export] Instance k_panic I {A} msg : Keeps (A := A) I (panic msg).
Proof. done. Qed.
#[export] Instance k_sleep I {A} c : Keeps (A := A) I (sleep_on c).
Proof. done. Qed.
#[export] Instance k_fault I {A} : Keeps (A := A) I fault.
Proof. done. Qed.
#[export] Instance k_bind I {A B} (m : M kernel A) (f : A -> M kernel B) :
  Keeps I m -> (forall a, Keeps I (f a)) -> Keeps I (bind m f).
Proof.
  intros Hm Hf k k' b R. apply bind_inv in R as (k1 & a & R1 & R2).
  eapply keeps_trans; [by eapply Hm|by eapply Hf].
Qed.
#[export] Instance k_if I {A} (b : bool) (m m' : M kernel A) : Keeps I m -> Keeps I m' -> Keeps I (if b then m else m').
Proof. by destruct b. Qed.
#[export] Instance k_when I b m : Keeps I m -> Keeps I (whenM b m).
Proof. destruct b; apply _. Qed.
#[export] Instance k_inps I {A} (m : M psys A) : PKeeps I m -> Keeps I (inps m).
Proof.
  intros Hm k k' a. unfold inps, zoom. destruct (m (kp k)) eqn:R; try done. intros [= <- <-].
  apply keeps_kp. by eapply Hm.
Qed.
#[export] Instance p_inkm I {A} (m : M kmem A) : PKeeps I (inkm m).
Proof. intros s s' a. unfold inkm, zoom. destruct (m (km s)); try done. intros [= <- <-]. apply prel_refl. Qed.
#[export] Instance k_infs I {A} (m : M fs_state A) : Keeps I (infs m).
Proof.
  intros k k' a. unfold infs, zoom. destruct (m (kf k)) as [f b| | |]; try done. intros [= <- <-].
  destruct (keeps_refl I k). split; [|done|done]. apply deliver_prel.
Qed.
#[export] Instance k_kprint I msg : Keeps I (kprint msg).
Proof. intros k k' a [= <- _]. destruct (keeps_refl I k). by split. Qed.
#[export] Instance k_ticks I t : Keeps I (modify (set_ticks t)).
Proof. intros k k' a [= <- _]. destruct (keeps_refl I k). by split. Qed.

#[export] Instance p_ret I {A} (a : A) : PKeeps I (ret a).
Proof. intros k k' b [= <- _]. apply prel_refl. Qed.
#[export] Instance p_gets I {A} (f : psys -> A) : PKeeps I (gets f).
Proof. intros k k' b [= <- _]. apply prel_refl. Qed.
#[export] Instance p_get I : PKeeps I get.
Proof. intros k k' b [= <- _]. apply prel_refl. Qed.
#[export] Instance p_from_opt I {A} (o : option A) : PKeeps I (from_opt o).
Proof. destruct o; [apply _|done]. Qed.
#[export] Instance p_sleep I {A} c : PKeeps (A := A) I (sleep_on c).
Proof. done. Qed.
#[export] Instance p_bind I {A B} (m : M psys A) (f : A -> M psys B) :
  PKeeps I m -> (forall a, PKeeps I (f a)) -> PKeeps I (bind m f).
Proof.
  intros Hm Hf k k' b R. apply bind_inv in R as (k1 & a & R1 & R2).
  eapply prel_trans; [by eapply Hm|by eapply Hf].
Qed.
#[export] Instance p_if I {A} (b : bool) (m m' : M psys A) : PKeeps I m -> PKeeps I m' -> PKeeps I (if b then m else m').
Proof. by destruct b. Qed.
#[export] Instance p_proc_at I i : PKeeps I (proc_at i).
Proof. unfold proc_at. apply _. Qed.

Lemma p_upd_proc I i f : (forall p, ofile (f p) = ofile p /\ (I <> Some i -> idle (f p) -> idle p)) -> PKeeps I (upd_proc i f).
Proof.
  intros Hf s s' []. unfold upd_proc, proc_at, bind, gets. destruct (ptable s !! i) as [p|] eqn:L; [|done].
  intros [= <-]. destruct (Hf p). by eapply prel_insert.
Qed.
#[export] Hint Extern 1 (PKeeps _ (upd_proc _ _)) =>
  (apply p_upd_proc; intros ?; split; [reflexivity|try (intros _; exact (fun H => H)); try (intros ?; congruence)]) : typeclass_instances.

(** Splits a computation into its steps. *)
Ltac keep :=
  repeat first
    [ progress cbv zeta
    | match goal with
      | |- Keeps _ (bind _ _) => apply k_bind; [|intros ?]
      | |- PKeeps _ (bind _ _) => apply p_bind; [|intros ?]
      | |- Keeps _ (match ?x with _ => _ end) => destruct x
      | |- PKeeps _ (match ?x with _ => _ end) => destruct x
      end
    | apply _ ].

(** ** The operations that leave the open files alone *)

#[export] Instance k_me I cur : Keeps I (me cur).
Proof. unfold me. apply _. Qed.
#[export] Instance k_inmem I {A} (m : M kmem A) : Keeps I (inmem m).
Proof. unfold inmem. apply _. Qed.
#[export] Instance k_translate I cur w va : Keeps I (translate cur w va).
Proof. unfold translate. keep. Qed.
#[export] Instance k_uld8 I cur va : Keeps I (uld8 cur va).
Proof. unfold uld8. keep. Qed.
#[export] Instance k_ust8 I cur va v : Keeps I (ust8 cur va v).
Proof. unfold ust8. keep. Qed.
#[export] Instance k_uload I cur n va : Keeps I (uload cur va n).
Proof. revert va. induction n as [|n IH]; intros va; cbn; keep. Qed.
#[export] Instance k_ustore I cur l va : Keeps I (ustore cur va l).
Proof. revert va. induction l as [|c l IH]; intros va; cbn; keep. Qed.
#[export] Instance k_file_at I f : Keeps I (file_at f).
Proof. unfold file_at. keep. Qed.

Lemma upd_file_inv f g k k' u : upd_file f g k = Ret k' u ->
  exists fl, ftable k !! f = Some fl /\ k' = set_ftable (<[f := g fl]> (ftable k)) k.
Proof.
  unfold upd_file, file_at, bind, gets. destruct (ftable k !! f) as [fl|] eqn:L; [|done].
  intros [= <- _]. by exists fl.
Qed.

#[export] Instance k_move I f (o : file -> Z) : Keeps I (upd_file f (fun fl => set_foff (o fl) fl)).
Proof.
  intros k k' u R. apply upd_file_inv in R as (fl & L & ->). destruct (keeps_refl I k) as [P F E].
  split; [exact P| |exact E]. cbn. apply Forall2_same_length_lookup. split; [by rewrite length_insert|].
  intros i x y Lx. destruct (decide (i = f)) as [->|].
  - rewrite list_lookup_insert_eq by (by eapply lookup_lt_Some). intros [= <-]. simplify_eq. done.
  - rewrite list_lookup_insert_ne by done. intros Ly. simplify_eq. by destruct x.
Qed.

(** Computations on a pipe that leave its ends as they are. *)
Class EKeeps {A} (m : M pst A) : Prop :=
  ekeeping : forall s s' a, m s = Ret s' a -> ends (pp s') = ends (pp s).
#[export] Instance e_ret {A} (a : A) : EKeeps (ret a).
Proof. by intros s s' b [= <- _]. Qed.
#[export] Instance e_gets {A} (f : pst -> A) : EKeeps (gets f).
Proof. by intros s s' b [= <- _]. Qed.
#[export] Instance e_wake c : EKeeps (pwakeup c).
Proof. by intros s s' b [= <- _]. Qed.
#[export] Instance e_put c : EKeeps (upd_pipe (put c)).
Proof. by intros s s' b [= <- _]. Qed.
#[export] Instance e_advance : EKeeps (upd_pipe advance).
Proof. by intros s s' b [= <- _]. Qed.
#[export] Instance e_bind {A B} (m : M pst A) (f : A -> M pst B) :
  EKeeps m -> (forall a, EKeeps (f a)) -> EKeeps (bind m f).
Proof.
  intros Hm Hf s s' b R. apply bind_inv in R as (s1 & a & R1 & R2).
  rewrite (Hf _ _ _ _ R2). by eapply Hm.
Qed.
#[export] Instance e_if {A} (b : bool) (m m' : M pst A) : EKeeps m -> EKeeps m' -> EKeeps (if b then m else m').
Proof. by destruct b. Qed.
#[export] Instance e_write a kd n i l : EKeeps (pipewrite_from a kd n i l).
Proof. revert i. induction l as [|c l IH]; intros i; cbn; apply _. Qed.
#[export] Instance e_copy n : EKeeps (piperead_copy n).
Proof. induction n as [|n IH]; cbn; apply _. Qed.
#[export] Instance e_read a kd n : EKeeps (piperead a kd n).
Proof. unfold piperead. apply _. Qed.

Lemma inpipe_inv {A} a (m : M pst A) k k' r : inpipe a m k = Ret k' r ->
  exists p s', pipes k !! a = Some p /\ m (mk_pst p []) = Ret s' r /\
    k' = set_pipes (<[a := pp s']> (pipes k)) (wakeups (reverse (pwoken s')) k).
Proof.
  unfold inpipe, bind, gets, from_opt. destruct (pipes k !! a) as [p|]; [|done]. cbn. unfold zoom.
  destruct (m (mk_pst p [])) as [s' r'| | |] eqn:R; try done. intros [= <- <-]. by exists p, s'.
Qed.

#[export] Instance k_inpipe I {A} a (m : M pst A) : EKeeps m -> Keeps I (inpipe a m).
Proof.
  intros Hm k k' r R. apply inpipe_inv in R as (p & s' & L & R & ->). destruct (keeps_refl I k) as [P F E].
  split; [apply deliver_prel|exact F|]. intros b. cbn. destruct (decide (b = a)) as [->|].
  - rewrite lookup_insert_eq, L. cbn. by rewrite (Hm _ _ _ R).
  - by rewrite lookup_insert_ne.
Qed.

#[export] Instance k_filestat I cur `{BlockDriver} f st : Keeps I (filestat cur f st).
Proof. unfold filestat, put_stat. keep. Qed.
#[export] Instance k_fileread I cur `{BlockDriver} devsw f addr n : Keeps I (fileread cur devsw f addr n).
Proof. unfold fileread. keep. Qed.
#[export] Instance k_write_loop I cur `{BlockDriver} devsw fuel f ip addr i n :
  Keeps I (filewrite_loop cur devsw fuel f ip addr i n).
Proof. revert i. induction fuel as [|fuel IH]; intros i; cbn; keep. Qed.
#[export] Instance k_filewrite I cur `{BlockDriver} devsw f addr n : Keeps I (filewrite cur devsw f addr n).
Proof. unfold filewrite, write_pipe. keep. Qed.

#[export] Instance k_tf_get I cur o : Keeps I (tf_get cur o).
Proof. unfold tf_get. keep. Qed.
#[export] Instance k_tf_set I cur o v : Keeps I (tf_set cur o v).
Proof. unfold tf_set. keep. Qed.
#[export] Instance k_fetchint I cur a : Keeps I (fetchint cur a).
Proof. unfold fetchint. keep. Qed.
#[export] Instance k_scan I cur n s : Keeps I (scan cur n s).
Proof. revert s. induction n as [|n IH]; intros s; cbn; keep. Qed.
#[export] Instance k_fetchstr I cur a : Keeps I (fetchstr cur a).
Proof. unfold fetchstr. keep. Qed.
#[export] Instance k_argint I cur n : Keeps I (argint cur n).
Proof. unfold argint. keep. Qed.
#[export] Instance k_argptr I cur n s : Keeps I (argptr cur n s).
Proof. unfold argptr. keep. Qed.
#[export] Instance k_argstr I cur n : Keeps I (argstr cur n).
Proof. unfold argstr. keep. Qed.
#[export] Instance k_argfd I cur n : Keeps I (argfd cur n).
Proof. unfold argfd. keep. Qed.
#[export] Instance k_rw_args I cur : Keeps I (rw_args cur).
Proof. unfold rw_args. keep. Qed.
#[export] Instance k_my_cwd I cur : Keeps I (my_cwd cur).
Proof. unfold my_cwd. keep. Qed.

#[export] Instance k_upd_me I cur f : PKeeps I (upd_proc cur f) -> Keeps I (upd_me cur f).
Proof. unfold upd_me. apply _. Qed.
#[export] Instance k_at_proc I i f : PKeeps I (upd_proc i f) -> Keeps I (at_proc i f).
Proof. unfold at_proc. apply _. Qed.

Section exec_keeps.
Context (I : option nat) (cur : nat) `{BlockDriver} (devsw : list devops) (kend kdata : Z).
#[export] Instance k_load_loop fuel d addr ip off sz i : Keeps I (load_loop devsw fuel d addr ip off sz i).
Proof. revert i. induction fuel as [|fuel IH]; intros i; cbn; keep. Qed.
#[export] Instance k_loaduvm d addr ip off sz : Keeps I (loaduvm devsw d addr ip off sz).
Proof. unfold loaduvm. keep. Qed.
#[export] Instance k_exec_bad d ip : Keeps I (exec_bad kend d ip).
Proof. unfold exec_bad. keep. Qed.
#[export] Instance k_segments num d ip off sz : Keeps I (load_segments devsw kend num d ip off sz).
Proof. revert off sz. induction num as [|num IH]; intros off sz; cbn; keep. Qed.
#[export] Instance k_push argv argc d sp acc : Keeps I (push_args argv argc d sp acc).
Proof. revert argc sp acc. induction argv as [|s argv IH]; intros argc sp acc; cbn; keep. Qed.
#[export] Instance k_commit path argv d sz e : Keeps I (exec_commit cur kend path argv d sz e).
Proof. unfold exec_commit. keep. Qed.
#[export] Instance k_exec stack path argv : Keeps I (exec cur devsw kend kdata stack path argv).
Proof. unfold exec. keep. Qed.
#[export] Instance k_fetch_argv fuel u i : Keeps I (fetch_argv cur fuel u i).
Proof. revert i. induction fuel as [|fuel IH]; intros i; cbn; keep. Qed.
#[export] Instance k_sys_exec stack : Keeps I (sys_exec cur devsw kend kdata stack).
Proof. unfold sys_exec. keep. Qed.
End exec_keeps.

#[export] Instance p_kill I n : PKeeps I (kill n).
Proof.
  unfold kill. keep. apply p_upd_proc. intros q. case_decide as D; [|done].
  split; [done|]. intros _ [?|?]; done.
Qed.
#[export] Instance p_wakeup I c : PKeeps I (wakeup c).
Proof. intros s s' a [= <- _]. apply wakeup1_prel. Qed.

#[export] Instance p_sleep_enter I cur c : PKeeps I (sleep_enter cur c).
Proof. apply p_upd_proc. intros q. split; [done|]. intros _ [?|?]; done. Qed.

(** A reaped entry was a zombie. *)
Lemma wait_keeps I kend cur : PKeeps I (wait kend cur).
Proof.
  intros s s' r R. unfold wait in R. rewrite gets_bind in R.
  destruct (zombie_child cur (ptable s)) as [[i p]|] eqn:Z.
  - assert (prel (Some i) (ptable s) (ptable s')) as [E HP].
    { revert R. match goal with |- ?m s = _ -> _ => enough (PKeeps (Some i) m) as HK by apply HK end. keep. }
    apply list_find_Some in Z as (L & [_ Hz] & _). split; [done|]. intros j q q' Lq Lq'.
    destruct (HP j q q' Lq Lq') as [? Hi]. split; [done|]. intros _ Hq. destruct (decide (i = j)) as [->|].
    + simplify_eq. by right.
    + apply Hi; [congruence|done].
  - revert R. match goal with |- ?m s = _ -> _ => enough (PKeeps I m) as HK by apply HK end. keep.
Qed.
#[export] Hint Resolve wait_keeps : typeclass_instances.
