(* ===== verification/FilesInv.v ===== *)
(** * FilesInv: the invariant of the open files

    Reference counts of [ftable] count the descriptors of all processes; a
    file in use has a type; the two ends of a pipe keep it alive.  The
    invariant is stated with the references [X] that running code holds
    besides the descriptors, and the files [T] that are allocated but have no
    type yet; between system calls there are none of either. *)
From stdpp Require Import base numbers list gmap strings.
From Stdlib Require Import ZArith Lia.
From S2P Require Import Prelude Bytes StringC Kalloc Vm Proc Buf Bio Log Fs Pipe Kernel Args Sysfile Exec Sysproc Syscall Files.

Local Open Scope Z_scope.

Definition uses (f : nat) (l : list (option nat)) : nat := length (filter (fun o => o = Some f) l).
Definition refs (f : nat) (ps : list proc) : nat := sum_list_with (fun p => uses f (ofile p)) ps.

Definition open_end (fl : file) (p : pipe) : Prop :=
  if writable fl =? 0 then readopen p <> 0 else writeopen p <> 0.

Record tables_inv (X : nat -> Z) (T : gset nat) (ps : list proc) (ft : list file) (pi : gmap Z pipe) : Prop := {
  fi_nproc : length ps = NPROC;
  fi_nofile : forall i p, ps !! i = Some p -> length (ofile p) = NOFILE;
  fi_ref : forall f fl, ft !! f = Some fl -> fref fl = Z.of_nat (refs f ps) + X f;
  fi_dom : forall f, (0 < refs f ps)%nat -> (f < length ft)%nat;
  fi_new : forall f, f ∈ T -> exists fl, ft !! f = Some fl /\ fref fl = 1 /\ ftyp fl = FD_NONE;
  fi_typ : forall f fl, ft !! f = Some fl -> f ∉ T -> ftyp fl = FD_NONE <-> fref fl = 0;
  fi_idle : forall i p, ps !! i = Some p -> idle p -> Forall (eq None) (ofile p);
  fi_pipe : forall f fl, ft !! f = Some fl -> ftyp fl = FD_PIPE -> exists p, pi !! fpipe fl = Some p /\ open_end fl p;
  fi_ends : forall f g fl gl, ft !! f = Some fl -> ft !! g = Some gl -> f <> g ->
    ftyp fl = FD_PIPE -> ftyp gl = FD_PIPE -> fpipe fl = fpipe gl -> (writable fl =? 0) <> (writable gl =? 0)
}.
Definition files_inv (X : nat -> Z) (T : gset nat) (k : kernel) : Prop :=
  tables_inv X T (ptable (kp k)) (ftable k) (pipes k).
Definition files_ok (k : kernel) : Prop := files_inv (fun _ => 0) ∅ k.

(** A process that can have descriptors. *)
Definition active (cur : nat) (k : kernel) : Prop := exists p, ptable (kp k) !! cur = Some p /\ ~ idle p.

(** ** Counting *)

Definition ind (o : option nat) (f : nat) : Z := if decide (o = Some f) then 1 else 0.

Lemma ind_eq f : ind (Some f) f = 1.
Proof. unfold ind. by rewrite decide_True. Qed.
Lemma ind_ne f g : f <> g -> ind (Some f) g = 0.
Proof. intros. unfold ind. rewrite decide_False by congruence. done. Qed.
Lemma ind_none f : ind None f = 0.
Proof. done. Qed.

Lemma uses_cons f o l : Z.of_nat (uses f (o :: l)) = ind o f + Z.of_nat (uses f l).
Proof. unfold uses, ind. rewrite filter_cons. case_decide; cbn; lia. Qed.

Lemma uses_insert f l fd o o' : l !! fd = Some o ->
  Z.of_nat (uses f (<[fd := o']> l)) = Z.of_nat (uses f l) - ind o f + ind o' f.
Proof.
  revert fd. induction l as [|x l IH]; intros [|fd] L; try done.
  - simplify_eq. change (<[0%nat := o']> (x :: l)) with (o' :: l). cbn in L. simplify_eq. rewrite !uses_cons. lia.
  - change (<[S fd := o']> (x :: l)) with (x :: <[fd := o']> l). rewrite !uses_cons, (IH fd) by done. lia.
Qed.

Lemma uses_none f l : Forall (eq None) l -> uses f l = 0%nat.
Proof. intros H. unfold uses. induction H as [|o l <- _ IH]; [done|]. by rewrite filter_cons. Qed.

Lemma uses_le f l : (uses f l <= length l)%nat.
Proof. apply length_filter. Qed.

Lemma refs_cons f p ps : refs f (p :: ps) = (uses f (ofile p) + refs f ps)%nat.
Proof. done. Qed.

Lemma refs_insert f ps i p p' : ps !! i = Some p ->
  Z.of_nat (refs f (<[i := p']> ps)) = Z.of_nat (refs f ps) - Z.of_nat (uses f (ofile p)) + Z.of_nat (uses f (ofile p')).
Proof.
  revert i. induction ps as [|q ps IH]; intros [|i] L; try done; cbn in L.
  - simplify_eq. change (<[0%nat := p']> (p :: ps)) with (p' :: ps). rewrite !refs_cons. lia.
  - change (<[S i := p']> (q :: ps)) with (q :: <[i := p']> ps). rewrite !refs_cons, !Nat2Z.inj_add, (IH i) by done. lia.
Qed.

Lemma refs_ofile f ps ps' : length ps' = length ps ->
  (forall j p p', ps !! j = Some p -> ps' !! j = Some p' -> ofile p' = ofile p) -> refs f ps' = refs f ps.
Proof.
  revert ps'. induction ps as [|p ps IH]; intros [|p' ps'] E H; try done.
  rewrite !refs_cons, (H 0%nat p p') by done. f_equal. apply IH; [cbn in E; lia|].
  intros j q q' L L'. by apply (H (S j)).
Qed.

Lemma refs_bound f ps n : (forall i p, ps !! i = Some p -> length (ofile p) = n) -> (refs f ps <= length ps * n)%nat.
Proof.
  induction ps as [|p ps IH]; intros H; [done|]. rewrite refs_cons. cbn.
  pose proof (uses_le f (ofile p)). rewrite (H 0%nat p) in * by done.
  specialize (IH (fun i => H (S i))). lia.
Qed.

Lemma refs_pos f ps i p fd : ps !! i = Some p -> ofile p !! fd = Some (Some f) -> (0 < refs f ps)%nat.
Proof.
  intros L Lf. pose proof (refs_insert f ps i p (set_files (<[fd := None]> (ofile p)) (cwd p) p) L) as E. cbn [ofile set_files] in E.
  rewrite (uses_insert f (ofile p) fd (Some f) None Lf), ind_eq, ind_none in E. lia.
Qed.

(** ** How steps change the invariant *)

Lemma tables_ext X Y T ps ft pi : (forall f, X f = Y f) -> tables_inv X T ps ft pi -> tables_inv Y T ps ft pi.
Proof. intros E [H1 H2 H3 H4 H5 H6 H7 H8 H9]. split; try done. intros f fl L. rewrite <- E. by apply H3. Qed.

Lemma inv_keeps X T I k k' : keeps I k k' -> files_inv X T k ->
  (forall i p, I = Some i -> ptable (kp k) !! i = Some p -> Forall (eq None) (ofile p)) -> files_inv X T k'.
Proof.
  intros [[EP HP] HF HE] [Hnp Hno Href Hdom Hnew Htyp Hidle Hpipe Hends] HI.
  assert (forall j p', ptable (kp k') !! j = Some p' -> exists p, ptable (kp k) !! j = Some p /\ ofile p' = ofile p /\
    (I <> Some j -> idle p' -> idle p)) as Hold.
  { intros j p' L'. destruct (lookup_lt_is_Some_2 (ptable (kp k)) j) as [p L]; [rewrite <- EP; by eapply lookup_lt_Some|].
    exists p. destruct (HP j p p' L L'). done. }
  assert (forall f, refs f (ptable (kp k')) = refs f (ptable (kp k))) as Er.
  { intros f. apply refs_ofile; [done|]. intros j p p' L L'. by destruct (HP j p p' L L'). }
  assert (forall f fl', ftable k' !! f = Some fl' -> exists fl o, ftable k !! f = Some fl /\ fl' = set_foff o fl) as Hfl.
  { intros f fl' L'. destruct (Forall2_lookup_r _ _ _ _ _ HF L') as (fl & L & E). by exists fl, (foff fl'). }
  split.
  - congruence.
  - intros i p' L'. destruct (Hold i p' L') as (p & L & -> & _). by eapply Hno.
  - intros f fl' L'. destruct (Hfl f fl' L') as (fl & ? & L & ->). rewrite Er. exact (Href f fl L).
  - intros f. rewrite Er, <- (Forall2_length _ _ _ HF). apply Hdom.
  - intros f Hf. destruct (Hnew f Hf) as (fl & L & ? & ?).
    destruct (Forall2_lookup_l _ _ _ _ _ HF L) as (fl' & L' & E). exists fl'. split; [done|]. rewrite E. done.
  - intros f fl' L'. destruct (Hfl f fl' L') as (fl & ? & L & ->). exact (Htyp f fl L).
  - intros i p' L' Hi. destruct (Hold i p' L') as (p & L & -> & Hid). destruct (decide (I = Some i)); [by eapply HI|].
    eapply Hidle; [done|]. auto.
  - intros f fl' L' Ht. destruct (Hfl f fl' L') as (fl & ? & L & ->). destruct (Hpipe f fl L Ht) as (p & Lp & Ho). cbn.
    specialize (HE (fpipe fl)). rewrite Lp in HE. cbn in HE. destruct (pipes k' !! fpipe fl) as [p'|]; [|done].
    exists p'. split; [done|]. unfold ends in HE. cbn in HE. simplify_eq. unfold open_end in *. cbn. by destruct (writable fl =? 0); congruence.
  - intros f g fl' gl' Lf Lg. destruct (Hfl f fl' Lf) as (fl & ? & L & ->), (Hfl g gl' Lg) as (gl & ? & L2 & ->). exact (Hends f g fl gl L L2).
Qed.

Lemma keeps_active k k' cur : keeps None k k' -> active cur k -> active cur k'.
Proof.
  intros [[EP HP] _ _] (p & L & Hn). destruct (lookup_lt_is_Some_2 (ptable (kp k')) cur) as [p' L'].
  { rewrite EP. by eapply lookup_lt_Some. }
  exists p'. split; [done|]. destruct (HP _ _ _ L L') as [_ Hi]. intros ?. by apply Hn, Hi.
Qed.

(** Running a step that leaves the files alone. *)
Lemma inv_step {A} X T (m : M kernel A) k k' a : Keeps None m -> m k = Ret k' a -> files_inv X T k -> files_inv X T k'.
Proof. intros Hm R HF. eapply inv_keeps; [by eapply Hm|done|done]. Qed.
Lemma active_step {A} cur (m : M kernel A) k k' a : Keeps None m -> m k = Ret k' a -> active cur k -> active cur k'.
Proof. intros Hm R. apply keeps_active. by eapply Hm. Qed.

(** Changing one entry of [ftable]. *)
Lemma inv_upd_file X Y T T' ps ft pi f fl fl' :
  tables_inv X T ps ft pi -> ft !! f = Some fl ->
  fref fl' = Z.of_nat (refs f ps) + Y f -> (forall g, g <> f -> Y g = X g) ->
  (forall g, g <> f -> g ∈ T' <-> g ∈ T) ->
  (if decide (f ∈ T') then fref fl' = 1 /\ ftyp fl' = FD_NONE else ftyp fl' = FD_NONE <-> fref fl' = 0) ->
  (ftyp fl' = FD_PIPE -> ftyp fl = FD_PIPE /\ fpipe fl' = fpipe fl /\ writable fl' = writable fl) ->
  tables_inv Y T' ps (<[f := fl']> ft) pi.
Proof.
  intros [Hnp Hno Href Hdom Hnew Htyp Hidle Hpipe Hends] L Er EY HT Hf Hpi.
  pose proof (lookup_lt_Some _ _ _ L) as Hlt.
  assert (forall g gl, <[f := fl']> ft !! g = Some gl -> g = f /\ gl = fl' \/ g <> f /\ ft !! g = Some gl) as Hc.
  { intros g gl. destruct (decide (g = f)) as [->|]; [rewrite list_lookup_insert_eq by done|rewrite list_lookup_insert_ne by done]; intros; simplify_eq; auto. }
  split; try done.
  - intros g gl Lg. destruct (Hc g gl Lg) as [[-> ->]|[? ?]]; [done|]. rewrite EY by done. by apply Href.
  - intros g. rewrite length_insert. apply Hdom.
  - intros g Hg. destruct (decide (g = f)) as [->|].
    + rewrite decide_True in Hf by done. exists fl'. by rewrite list_lookup_insert_eq.
    + rewrite list_lookup_insert_ne by done. by apply Hnew, HT.
  - intros g gl Lg Hg. destruct (Hc g gl Lg) as [[-> ->]|[? ?]].
    + by rewrite decide_False in Hf.
    + apply (Htyp g); [done|]. by rewrite <- HT.
  - intros g gl Lg Ht. destruct (Hc g gl Lg) as [[-> ->]|[? ?]]; [|by eapply Hpipe].
    destruct (Hpi Ht) as (Ht' & -> & Ew). unfold open_end. rewrite Ew. by eapply Hpipe.
  - intros g h gl hl Lg Lh Hgh Tg Th.
    destruct (Hc g gl Lg) as [[-> ->]|[? ?]], (Hc h hl Lh) as [[-> ->]|[? ?]]; [done| | |by eapply Hends].
    + destruct (Hpi Tg) as (Ht' & -> & ->). by eapply Hends.
    + destruct (Hpi Th) as (Ht' & -> & ->). by eapply Hends.
Qed.

(** ** The operations on files *)

Definition plus (X : nat -> Z) (d : Z) (f : nat) (g : nat) : Z := X g + d * ind (Some f) g.

Lemma plus_eq X d f : plus X d f f = X f + d.
Proof. unfold plus. rewrite ind_eq. lia. Qed.
Lemma plus_ne X d f g : g <> f -> plus X d f g = X g.
Proof. intros. unfold plus. rewrite ind_ne by done. lia. Qed.

Lemma filealloc_inv X T k k' r : filealloc k = Ret k' r -> files_inv X T k ->
  (kp k' = kp k) /\ pipes k' = pipes k /\
  match r with
  | None => k' = k
  | Some f => (f ∉ T) /\ files_inv (plus X 1 f) (T ∪ {[f]}) k'
  end.
Proof.
  intros R HF. unfold filealloc in R. rewrite gets_bind in R.
  destruct (list_find _ (ftable k)) as [[f fl]|] eqn:Lf; [|by injection R as <- <-].
  apply list_find_Some in Lf as (L & E0 & _). apply bind_inv in R as (k1 & [] & R & [= <- <-]).
  apply upd_file_inv in R as (fl' & L' & ->). simplify_eq.
  assert (f ∉ T) as HfT. { intros Hf. destruct (fi_new _ _ _ _ _ HF f Hf) as (fl2 & ? & ? & _). simplify_eq. lia. }
  split_and!; [done|done|done|]. unfold files_inv. cbn.
  pose proof (fi_ref _ _ _ _ _ HF f fl L) as Er.
  eapply (inv_upd_file X); [exact HF|exact L| | | | |]; cbn.
  - rewrite plus_eq. lia.
  - intros g Hg. by apply plus_ne.
  - set_solver.
  - rewrite decide_True by set_solver. split; [done|]. by apply (fi_typ _ _ _ _ _ HF f fl L HfT).
  - done.
Qed.

Lemma refs_small X T ps ft pi f : tables_inv X T ps ft pi -> Z.of_nat (refs f ps) <= 1024.
Proof.
  intros HF. pose proof (refs_bound f ps NOFILE (fi_nofile _ _ _ _ _ HF)) as Hb.
  rewrite (fi_nproc _ _ _ _ _ HF) in Hb. unfold NPROC, NOFILE in Hb. lia.
Qed.

Lemma filedup_inv X T k k' f r : filedup f k = Ret k' r -> files_inv X T k -> f ∉ T -> X f <= 0 ->
  r = f /\ kp k' = kp k /\ pipes k' = pipes k /\ (f < length (ftable k))%nat /\ length (ftable k') = length (ftable k) /\ files_inv (plus X 1 f) T k'.
Proof.
  intros R HF HfT HX. unfold filedup in R. apply bind_inv in R as (k0 & fl & R0 & R).
  unfold file_at, bind, gets in R0. destruct (ftable k !! f) as [fl0|] eqn:L; [|done]. cbn in R0. injection R0 as <- <-.
  destruct (Z.ltb_spec (fref fl0) 1); [done|]. apply bind_inv in R as (k1 & [] & R & [= <- <-]).
  apply upd_file_inv in R as (fl1 & L1 & ->). simplify_eq. split_and!; [done|done|done|by eapply lookup_lt_Some|by cbn; rewrite length_insert|].
  unfold files_inv. cbn. pose proof (fi_ref _ _ _ _ _ HF f fl0 L) as Er. pose proof (refs_small _ _ _ _ _ f HF).
  assert (i32 (fref fl0 + 1) = fref fl0 + 1) as E by (apply i32_small; lia). rewrite E.
  eapply (inv_upd_file X); [exact HF|exact L| | | | |]; cbn.
  - rewrite plus_eq. lia.
  - intros g Hg. by apply plus_ne.
  - done.
  - rewrite decide_False by done. split; [|lia]. intros Ht. apply (fi_typ _ _ _ _ _ HF f fl0 L HfT) in Ht. lia.
  - done.
Qed.

Lemma set_fd_run k k' i fd o u : set_fd i fd o k = Ret k' u ->
  exists p, ptable (kp k) !! i = Some p /\
    k' = set_kp (upd_ptable <[i := set_files (<[fd := o]> (ofile p)) (cwd p) p]> (kp k)) k.
Proof.
  unfold set_fd, upd_me, inps, zoom, upd_proc, proc_at, bind, gets.
  destruct (ptable (kp k) !! i) as [p|]; [|done]. intros [= <- _]. by exists p.
Qed.

Lemma set_fd_inv X T k k' i fd o u p old : set_fd i fd o k = Ret k' u -> files_inv X T k ->
  ptable (kp k) !! i = Some p -> ~ idle p -> ofile p !! fd = Some old ->
  (forall f, o = Some f -> (f < length (ftable k))%nat) ->
  files_inv (fun f => X f + ind old f - ind o f) T k'.
Proof.
  intros R [Hnp Hno Href Hdom Hnew Htyp Hidle Hpipe Hends] L Hn Lo Ho. apply set_fd_run in R as (q & Lq & ->).
  assert (q = p) as -> by congruence. clear Lq.
  unfold files_inv. cbn. set (p' := set_files _ _ _).
  pose proof (lookup_lt_Some _ _ _ L) as Hlt.
  assert (forall f, Z.of_nat (refs f (<[i := p']> (ptable (kp k)))) = Z.of_nat (refs f (ptable (kp k))) - ind old f + ind o f) as Er.
  { intros f. rewrite (refs_insert f _ i p) by done. unfold p'. cbn [ofile set_files]. rewrite (uses_insert f _ fd old) by done. lia. }
  assert (forall j q, <[i := p']> (ptable (kp k)) !! j = Some q -> j = i /\ q = p' \/ j <> i /\ ptable (kp k) !! j = Some q) as Hc.
  { intros j q. destruct (decide (j = i)) as [->|]; [rewrite list_lookup_insert_eq by done|rewrite list_lookup_insert_ne by done]; intros; simplify_eq; auto. }
  split; try done.
  - by rewrite length_insert.
  - intros j q Lq. destruct (Hc j q Lq) as [[-> ->]|[? ?]]; [|by eapply Hno]. unfold p'. cbn [ofile set_files]. rewrite length_insert. by eapply Hno.
  - intros f fl Lf. rewrite Er, (Href f fl Lf). lia.
  - intros f Hf. destruct (decide (o = Some f)); [by apply Ho|]. apply Hdom.
    pose proof (Er f) as E. unfold ind in E. rewrite (decide_False (P := o = Some f)) in E by done. case_decide; lia.
  - intros j q Lq Hi. destruct (Hc j q Lq) as [[-> ->]|[? ?]]; [|by eapply Hidle]. done.
Qed.

(** Other pipes for the same files and descriptors. *)
Lemma inv_pipes X T ps ps' ft pi pi' : tables_inv X T ps ft pi -> prel None ps ps' ->
  (forall f fl, ft !! f = Some fl -> ftyp fl = FD_PIPE -> exists p, pi' !! fpipe fl = Some p /\ open_end fl p) ->
  tables_inv X T ps' ft pi'.
Proof.
  intros HF [EP HP] Hp.
  assert (forall j p', ps' !! j = Some p' -> exists p, ps !! j = Some p /\ ofile p' = ofile p /\ (idle p' -> idle p)) as Hold.
  { intros j p' L'. destruct (lookup_lt_is_Some_2 ps j) as [p L]; [rewrite <- EP; by eapply lookup_lt_Some|].
    exists p. destruct (HP j p p' L L') as [? Hi]. split_and!; [done|done|]. by apply Hi. }
  assert (forall f, refs f ps' = refs f ps) as Er.
  { intros f. apply refs_ofile; [done|]. intros j p p' L L'. by destruct (HP j p p' L L'). }
  destruct HF as [Hnp Hno Href Hdom Hnew Htyp Hidle Hpipe Hends]. split; try done.
  - congruence.
  - intros i p' L'. destruct (Hold i p' L') as (p & L & -> & _). by eapply Hno.
  - intros f fl L. rewrite Er. by apply Href.
  - intros f. rewrite Er. apply Hdom.
  - intros i p' L' Hi. destruct (Hold i p' L') as (p & L & -> & Hid). eapply Hidle; [done|]. auto.
Qed.

Lemma close_pipe_inv X T kend a w k k' u : close_pipe kend a w k = Ret k' u -> files_inv X T k ->
  (forall g gl, ftable k !! g = Some gl -> ftyp gl = FD_PIPE -> fpipe gl = a -> (writable gl =? 0) <> (w =? 0)) ->
  files_inv X T k' /\ prel None (ptable (kp k)) (ptable (kp k')) /\ ftable k' = ftable k.
Proof.
  intros R HF Hoth. unfold close_pipe in R. apply bind_inv in R as (k1 & gone & R1 & R2).
  apply inpipe_inv in R1 as (p & s' & Lp & Rp & ->). set (k1 := set_pipes _ _) in *.
  assert (prel None (ptable (kp k)) (ptable (kp k1))) as HP1 by apply deliver_prel.
  unfold pipeclose, bind, gets, upd_pipe, pwakeup, modify, ret in Rp.
  assert (exists p', pp s' = p' /\ p' = (if w =? 0 then set_ends 0 (writeopen p) p else set_ends (readopen p) 0 p) /\
    gone = (readopen p' =? 0) && (writeopen p' =? 0)) as (p' & Es & Ep & Eg).
  { destruct (w =? 0); cbn in Rp; injection Rp as <- <-; by eexists. }
  assert (forall g gl, ftable k !! g = Some gl -> ftyp gl = FD_PIPE -> fpipe gl = a -> open_end gl p' /\ gone = false) as Hlive.
  { intros g gl Lg Tg Ea. specialize (Hoth g gl Lg Tg Ea). destruct (fi_pipe _ _ _ _ _ HF g gl Lg Tg) as (q & Lq & Ho).
    rewrite Ea, Lp in Lq. injection Lq as <-. unfold open_end in *. rewrite Eg, Ep. clear - Ho Hoth.
    destruct (writable gl =? 0), (w =? 0); try done; cbn; (split; [exact Ho|]); apply Z.eqb_neq in Ho; by rewrite Ho. }
  assert (files_inv X T k1) as HF1.
  { eapply inv_pipes; [exact HF|exact HP1|]. intros g gl Lg Tg. cbn. destruct (decide (fpipe gl = a)) as [Ea|].
    - rewrite Ea, lookup_insert_eq. exists p'. split; [by rewrite Es|]. by eapply Hlive.
    - rewrite lookup_insert_ne by done. by eapply fi_pipe. }
  destruct gone; cbn in R2; [|by injection R2 as <- _].
  rename R2 into R3. pose proof (k_inmem None (kfree kend a) _ _ _ R3) as HK.
  assert (ftable k' = ftable k) as Ef.
  { clear -R3. revert R3. unfold inmem, inps, inkm, zoom. cbn. destruct (kfree kend a _); try done. by intros [= <- _]. }
  split_and!; [|eapply prel_trans; [exact HP1|exact (ke_procs _ _ _ HK)]|done].
  eapply inv_keeps; [exact HK| |done]. eapply inv_pipes; [exact HF1|apply prel_refl|].
  intros g gl Lg Tg. cbn. destruct (decide (fpipe gl = a)) as [Ea|].
  - by destruct (Hlive g gl Lg Tg Ea).
  - rewrite lookup_delete_ne, lookup_insert_ne by done. by eapply fi_pipe.
Qed.

Lemma fileclose_inv X T `{BlockDriver} kend f k k' u : fileclose kend f k = Ret k' u -> files_inv X T k ->
  files_inv (plus X (-1) f) (T ∖ {[f]}) k' /\ prel None (ptable (kp k)) (ptable (kp k')) /\
  length (ftable k') = length (ftable k).
Proof.
  intros R HF. unfold fileclose in R. apply bind_inv in R as (k0 & ff & R0 & R).
  unfold file_at, bind, gets in R0. destruct (ftable k !! f) as [fl|] eqn:L; [|done]. cbn in R0. injection R0 as <- <-.
  pose proof (fi_ref _ _ _ _ _ HF f fl L) as Er.
  destruct (Z.ltb_spec (fref fl) 1); [done|]. destruct (Z.ltb_spec 0 (fref fl - 1)).
  - assert (f ∉ T) as HfT. { intros Hf. destruct (fi_new _ _ _ _ _ HF f Hf) as (fl2 & ? & ? & _). simplify_eq. lia. }
    apply upd_file_inv in R as (fl2 & L2 & ->). rewrite L in L2. injection L2 as <-.
    split_and!; [|apply prel_refl|by cbn; rewrite length_insert]. unfold files_inv. cbn.
    eapply (inv_upd_file X); [exact HF|exact L| | | | |]; cbn.
    + rewrite plus_eq. lia.
    + intros g Hg. by apply plus_ne.
    + set_solver.
    + rewrite decide_False by set_solver. split; [|lia]. intros Ht. apply (fi_typ _ _ _ _ _ HF f fl L HfT) in Ht. lia.
    + done.
  - apply bind_inv in R as (k1 & [] & R1 & R). apply upd_file_inv in R1 as (fl2 & L2 & ->). rewrite L in L2. injection L2 as <-.
    set (k1 := set_ftable _ _) in *.
    assert (files_inv (plus X (-1) f) (T ∖ {[f]}) k1) as HF1.
    { unfold files_inv. cbn. eapply (inv_upd_file X); [exact HF|exact L| | | | |]; cbn.
      - rewrite plus_eq. lia.
      - intros g Hg. by apply plus_ne.
      - set_solver.
      - by rewrite decide_False by set_solver.
      - done. }
    assert (length (ftable k1) = length (ftable k)) as El by (cbn; by rewrite length_insert).
    destruct (ftyp fl) eqn:Ht.
    + injection R as <- _. split_and!; [done|apply prel_refl|done].
    + apply close_pipe_inv with (X := plus X (-1) f) (T := T ∖ {[f]}) in R as (? & ? & E); [by rewrite E|done|].
      intros g gl Lg Tg Ea. cbn in Lg. destruct (decide (g = f)) as [->|].
      * rewrite list_lookup_insert_eq in Lg by (by eapply lookup_lt_Some). by simplify_eq.
      * rewrite list_lookup_insert_ne in Lg by done. exact (fi_ends _ _ _ _ _ HF g f gl fl Lg L n Tg Ht Ea).
    + revert R. match goal with |- ?m k1 = _ -> _ => enough (Keeps None m) as HK end; [|keep].
      intros R. pose proof (HK _ _ _ R) as HK'. split_and!; [by eapply inv_keeps|apply HK'|].
      rewrite <- El. symmetry. apply (Forall2_length _ _ _ (ke_files _ _ _ HK')).
Qed.

Lemma kalloc_freelist s s' r : kalloc s = Ret s' r -> r = freelist s.
Proof. unfold kalloc, bind, get, whenM. destruct (negb _); by intros [= _ <-]. Qed.

Lemma files_ext X Y (T T' : gset nat) k : files_inv X T k -> (forall f, X f = Y f) -> T = T' -> files_inv Y T' k.
Proof. intros HF E <-. by eapply tables_ext. Qed.

(** The two new files become the ends of a new pipe. *)
Lemma inv_new_pipe X T ps ft pi a p f0 f1 fl0 fl1 :
  tables_inv X T ps ft pi -> ft !! f0 = Some fl0 -> ft !! f1 = Some fl1 -> f0 ∈ T -> f1 ∈ T -> f0 <> f1 ->
  pi !! a = None -> readopen p = 1 -> writeopen p = 1 ->
  tables_inv X (T ∖ {[f0; f1]}) ps (<[f1 := as_pipe a 0 1 fl1]> (<[f0 := as_pipe a 1 0 fl0]> ft)) (<[a := p]> pi).
Proof.
  intros HF L0 L1 T0 T1 Hne Ha Hr Hw. pose proof (lookup_lt_Some _ _ _ L0). pose proof (lookup_lt_Some _ _ _ L1).
  set (ft' := <[f1 := _]> _).
  assert (forall g gl, ft' !! g = Some gl -> g = f0 /\ gl = as_pipe a 1 0 fl0 \/ g = f1 /\ gl = as_pipe a 0 1 fl1 \/
    g <> f0 /\ g <> f1 /\ ft !! g = Some gl) as Hc.
  { intros g gl. unfold ft'. destruct (decide (g = f1)) as [->|].
    - rewrite list_lookup_insert_eq by (by rewrite length_insert). intros [= <-]. auto.
    - rewrite list_lookup_insert_ne by done. destruct (decide (g = f0)) as [->|].
      + rewrite list_lookup_insert_eq by done. intros [= <-]. auto.
      + rewrite list_lookup_insert_ne by done. auto. }
  destruct (fi_new _ _ _ _ _ HF f0 T0) as (fl & L & R0 & _). rewrite L0 in L. injection L as <-.
  destruct (fi_new _ _ _ _ _ HF f1 T1) as (fl & L & R1 & _). rewrite L1 in L. injection L as <-.
  destruct HF as [Hnp Hno Href Hdom Hnew Htyp Hidle Hpipe Hends].
  assert (forall g gl, ft !! g = Some gl -> ftyp gl = FD_PIPE -> fpipe gl <> a) as Hold.
  { intros g gl Lg Tg E. destruct (Hpipe g gl Lg Tg) as (q & Lq & _). congruence. }
  split; try done.
  - intros g gl Lg. destruct (Hc g gl Lg) as [[-> ->]|[[-> ->]|(? & ? & Lg')]]; [exact (Href f0 fl0 L0)|exact (Href f1 fl1 L1)|by apply Href].
  - intros g Hg. unfold ft'. rewrite !length_insert. by apply Hdom.
  - intros g Hg. apply elem_of_difference in Hg as [Hg Hg2]. unfold ft'. rewrite !list_lookup_insert_ne by set_solver. by apply Hnew.
  - intros g gl Lg Hg. destruct (Hc g gl Lg) as [[-> ->]|[[-> ->]|(? & ? & Lg')]]; cbn; [split; [done|lia]|split; [done|lia]|].
    apply (Htyp g gl Lg'). set_solver.
  - intros g gl Lg Tg. destruct (Hc g gl Lg) as [[-> ->]|[[-> ->]|(? & ? & Lg')]]; cbn.
    + rewrite lookup_insert_eq. exists p. split; [done|]. unfold open_end. cbn. lia.
    + rewrite lookup_insert_eq. exists p. split; [done|]. unfold open_end. cbn. lia.
    + rewrite lookup_insert_ne by (intros E; by eapply Hold). by eapply Hpipe.
  - intros g h gl hl Lg Lh Hgh Tg Th E.
    destruct (Hc g gl Lg) as [[-> ->]|[[-> ->]|(? & ? & Lg')]], (Hc h hl Lh) as [[-> ->]|[[-> ->]|(? & ? & Lh')]]; try done;
      try (exfalso; by eapply Hold); by eapply (Hends g h).
Qed.

Lemma pipealloc_inv X `{BlockDriver} kend k k' r : pipealloc kend k = Ret k' r -> files_inv X ∅ k ->
  pipes k !! freelist (km (kp k)) = None ->
  prel None (ptable (kp k)) (ptable (kp k')) /\
  match r with
  | None => files_inv X ∅ k'
  | Some (f0, f1) => files_inv (plus (plus X 1 f0) 1 f1) ∅ k' /\ (f0 < length (ftable k') /\ f1 < length (ftable k'))%nat
  end.
Proof.
  intros R HF Hfresh. unfold pipealloc in R. apply bind_inv in R as (k1 & r0 & R0 & R).
  destruct (filealloc_inv _ _ _ _ _ R0 HF) as (E1 & P1 & H1). destruct r0 as [f0|].
  2:{ injection R as <- <-. subst k1. split; [apply prel_refl|done]. }
  destruct H1 as [_ HF1]. apply bind_inv in R as (k2 & r1 & R1 & R).
  destruct (filealloc_inv _ _ _ _ _ R1 HF1) as (E2 & P2 & H2). destruct r1 as [f1|].
  2:{ subst k2. apply bind_inv in R as (k3 & u & R3 & [= <- <-]).
      destruct (fileclose_inv _ _ _ _ _ _ _ R3 HF1) as (HF3 & HP & _). rewrite E1 in HP. split; [done|].
      eapply files_ext; [exact HF3| |set_solver]. intros f. unfold plus. lia. }
  destruct H2 as [Hf1 HF2]. apply bind_inv in R as (k3 & a & R3 & R).
  pose proof (k_inmem None kalloc _ _ _ R3) as HK. pose proof (inv_keeps _ _ _ _ _ HK HF2 (fun i p H => ltac:(done))) as HF3.
  destruct (a =? 0).
  { apply bind_inv in R as (k4 & u & R4 & R). destruct (fileclose_inv _ _ _ _ _ _ _ R4 HF3) as (HF4 & HP4 & _).
    apply bind_inv in R as (k5 & u5 & R5 & [= <- <-]). destruct (fileclose_inv _ _ _ _ _ _ _ R5 HF4) as (HF5 & HP5 & _).
    split; [|eapply files_ext; [exact HF5| |set_solver]; intros f; unfold plus; lia].
    rewrite <- E1, <- E2. eapply prel_trans; [apply HK|]. by eapply prel_trans. }
  assert (a = freelist (km (kp k)) /\ pipes k3 = pipes k) as [Ea P3].
  { revert R3. unfold inmem, inps, inkm, zoom. destruct (kalloc _) as [s b| | |] eqn:Rk; try done. intros [= <- <-].
    apply kalloc_freelist in Rk. rewrite E2, E1 in Rk. cbn. split; congruence. }
  apply bind_inv in R as (k4 & p & R4 & R). unfold page_pipe in R4. apply bind_inv in R4 as (k4' & s & R4 & [= <- <-]).
  injection R4 as <- <-. rewrite modify_bind in R. apply bind_inv in R as (k5 & u5 & R5 & R).
  apply bind_inv in R as (k6 & u6 & R6 & [= <- <-]).
  apply upd_file_inv in R5 as (fl0 & L0 & ->). apply upd_file_inv in R6 as (fl1 & L1 & ->). cbn in L0, L1.
  assert (f0 <> f1) as Hne by set_solver. rewrite list_lookup_insert_ne in L1 by done.
  split; [rewrite <- E1, <- E2; apply HK|]. split.
  2:{ cbn. rewrite !length_insert. split; by eapply lookup_lt_Some. }
  unfold files_inv. cbn. replace (∅ : gset nat) with ((∅ ∪ {[f0]} ∪ {[f1]}) ∖ {[f0; f1]} : gset nat) by set_solver.
  apply inv_new_pipe; [exact HF3|done|done|set_solver|set_solver|done| |done|done]. rewrite P3, Ea. done.
Qed.

(** ** Computations that only read *)

Class Reads {A} (m : M kernel A) : Prop := reading : forall k k' a, m k = Ret k' a -> k' = k.
Class MReads {A} (m : M kmem A) : Prop := mreading : forall s s' a, m s = Ret s' a -> s' = s.
#[export] Instance r_ret {A} (a : A) : Reads (ret a).
Proof. by intros k k' b [= <- _]. Qed.
#[export] Instance r_gets {A} (f : kernel -> A) : Reads (gets f).
Proof. by intros k k' b [= <- _]. Qed.
#[export] Instance r_from_opt {A} (o : option A) : Reads (from_opt o).
Proof. destruct o; [apply _|done]. Qed.
#[export] Instance r_panic {A} msg : Reads (A := A) (panic msg).
Proof. done. Qed.
#[export] Instance r_bind {A B} (m : M kernel A) (f : A -> M kernel B) :
  Reads m -> (forall a, Reads (f a)) -> Reads (bind m f).
Proof. intros Hm Hf k k' b R. apply bind_inv in R as (k1 & a & R1 & R2). apply Hm in R1 as ->. by eapply Hf. Qed.
#[export] Instance r_if {A} (b : bool) (m m' : M kernel A) : Reads m -> Reads m' -> Reads (if b then m else m').
Proof. by destruct b. Qed.
#[export] Instance m_ret {A} (a : A) : MReads (ret a).
Proof. by intros k k' b [= <- _]. Qed.
#[export] Instance m_gets {A} (f : kmem -> A) : MReads (gets f).
Proof. by intros k k' b [= <- _]. Qed.
#[export] Instance m_bind {A B} (m : M kmem A) (f : A -> M kmem B) :
  MReads m -> (forall a, MReads (f a)) -> MReads (bind m f).
Proof. intros Hm Hf k k' b R. apply bind_inv in R as (k1 & a & R1 & R2). apply Hm in R1 as ->. by eapply Hf. Qed.
#[export] Instance m_if {A} (b : bool) (m m' : M kmem A) : MReads m -> MReads m' -> MReads (if b then m else m').
Proof. by destruct b. Qed.
#[export] Instance r_inmem {A} (m : M kmem A) : MReads m -> Reads (inmem m).
Proof.
  intros Hm k k' a. unfold inmem, inps, inkm, zoom. destruct (m (km (kp k))) eqn:R; try done.
  intros [= <- _]. apply Hm in R as ->. by destruct k as [[] ? ? ? ? ?].
Qed.
#[export] Instance m_mmu w d va : MReads (mmu w d va).
Proof. unfold mmu, ld32. apply _. Qed.
#[export] Instance r_me cur : Reads (me cur).
Proof.
  intros k k' a. unfold me, inps, zoom, proc_at, bind, gets. destruct (ptable (kp k) !! cur); [|done].
  intros [= <- _]. by destruct k.
Qed.

Ltac reads :=
  repeat first
    [ progress cbv zeta
    | match goal with
      | |- Reads (bind _ _) => apply r_bind; [|intros ?]
      | |- Reads (match ?x with _ => _ end) => destruct x
      end
    | apply _ ].

#[export] Instance r_translate cur w va : Reads (translate cur w va).
Proof. unfold translate. reads. Qed.
#[export] Instance r_uld8 cur va : Reads (uld8 cur va).
Proof. unfold uld8, ld_bytes. reads. Qed.
#[export] Instance r_uload cur n va : Reads (uload cur va n).
Proof. revert va. induction n as [|n IH]; intros va; cbn; reads. Qed.
#[export] Instance r_tf_get cur o : Reads (tf_get cur o).
Proof. unfold tf_get, ld32. reads. Qed.
#[export] Instance r_argint cur n : Reads (argint cur n).
Proof. unfold argint, fetchint. reads. Qed.
#[export] Instance r_argptr cur n s : Reads (argptr cur n s).
Proof. unfold argptr. reads. Qed.
#[export] Instance r_argfd cur n : Reads (argfd cur n).
Proof. unfold argfd. reads. Qed.

Lemma argfd_inv cur n k k' fd f : argfd cur n k = Ret k' (Some (fd, f)) ->
  k' = k /\ exists p, ptable (kp k) !! cur = Some p /\ ofile p !! fd = Some (Some f).
Proof.
  intros R. assert (k' = k) as -> by (by eapply r_argfd). split; [done|]. unfold argfd in R.
  apply bind_inv in R as (k1 & a & R1 & R). apply (r_argint cur n) in R1 as ->. destruct a as [a|]; [|done].
  apply bind_inv in R as (k1 & p & R1 & R). apply me_inv in R1 as [-> L]. exists p. split; [done|].
  destruct ((a <? 0) || _); [done|]. destruct (ofile p !! Z.to_nat a) as [o|] eqn:Lo; [|done]. rewrite from_opt_bind in R.
  destruct o as [g|]; [|done]. by injection R as <- <-.
Qed.

(** ** Descriptors *)

Lemma fdalloc_inv X T cur f k k' r : fdalloc cur f k = Ret k' r -> files_inv X T k -> active cur k ->
  (f < length (ftable k))%nat ->
  match r with
  | None => k' = k
  | Some fd => files_inv (plus X (-1) f) T k' /\ active cur k' /\ ftable k' = ftable k /\
      exists p, ptable (kp k') !! cur = Some p /\ ofile p !! fd = Some (Some f)
  end.
Proof.
  intros R HF (p & L & Hn) Hf. unfold fdalloc in R. apply bind_inv in R as (k1 & p' & R1 & R).
  apply me_inv in R1 as [-> L']. rewrite L in L'. injection L' as <-.
  destruct (list_find _ (ofile p)) as [[fd o]|] eqn:E; [|by injection R as <- <-].
  apply list_find_Some in E as (Lo & -> & _). apply bind_inv in R as (k1 & u & R & [= <- <-]).
  pose proof (set_fd_inv _ _ _ _ _ _ _ _ _ _ R HF L Hn Lo) as HF'.
  apply set_fd_run in R as (p' & L' & ->). rewrite L in L'. injection L' as <-. cbn.
  pose proof (lookup_lt_Some _ _ _ L). pose proof (lookup_lt_Some _ _ _ Lo). split_and!.
  - eapply files_ext; [apply HF'; by intros ? [= <-]| |done]. intros g. cbv beta. rewrite ind_none. unfold plus. lia.
  - exists (set_files (<[fd := Some f]> (ofile p)) (cwd p) p). cbn. by rewrite list_lookup_insert_eq.
  - done.
  - exists (set_files (<[fd := Some f]> (ofile p)) (cwd p) p). cbn [kp set_kp ptable upd_ptable]. rewrite list_lookup_insert_eq by done.
    split; [done|]. by apply list_lookup_insert_eq.
Qed.

Lemma fd_file X T k cur p fd f : files_inv X T k -> ptable (kp k) !! cur = Some p -> ofile p !! fd = Some (Some f) ->
  (f < length (ftable k))%nat.
Proof. intros HF L Lf. apply (fi_dom _ _ _ _ _ HF). by eapply refs_pos. Qed.

Lemma active_idle_fd X T k cur p fd f : files_inv X T k -> ptable (kp k) !! cur = Some p -> ofile p !! fd = Some (Some f) -> ~ idle p.
Proof.
  intros HF L Lf Hi. pose proof (fi_idle _ _ _ _ _ HF cur p L Hi) as HN.
  rewrite Forall_lookup in HN. by apply HN in Lf.
Qed.
