(* ===== verification/FilesSys.v ===== *)
(** * FilesSys: every system call keeps the open files consistent

    The invariant of FilesInv through [dup], [close], [open], [pipe], [fork],
    [exit] and, by the dispatcher, through every system call. *)
From stdpp Require Import base numbers list gmap strings.
From Stdlib Require Import ZArith Lia.
From S2P Require Import Prelude Bytes StringC Kalloc Vm Proc Buf Bio Log Fs Pipe Kernel Args Sysfile Exec Sysproc Syscall Files FilesInv.

Local Open Scope Z_scope.

(** Steps through a computation that returned. *)
Ltac step R k a Rk := apply bind_inv in R as (k & a & Rk & R).
Ltac zero_ext := intros ?g; cbv beta; unfold plus; rewrite ?ind_none; lia.

(** The page that [kalloc] would return is not one a pipe lives in. *)
Definition fresh_page (k : kernel) : Prop := pipes k !! freelist (km (kp k)) = None.

Section handlers.
Context `{BlockDriver} (devsw : list devops) (kend : Z) (cur : nat).

Lemma sys_dup_ok k k' r : sys_dup cur k = Ret k' r -> files_ok k -> active cur k -> files_ok k'.
Proof.
  intros R HF HA. unfold sys_dup in R. step R k1 a R1. destruct a as [[fd f]|].
  2:{ apply (r_argfd cur 0) in R1 as ->. by injection R as <- _. }
  apply argfd_inv in R1 as (-> & p & L & Lf). step R k2 r2 R2.
  pose proof (fdalloc_inv _ _ _ _ _ _ _ R2 HF HA (fd_file _ _ _ _ _ _ _ HF L Lf)) as H2.
  destruct r2 as [fd2|]; [|subst k2; by injection R as <- _]. destruct H2 as (HF2 & _). step R k3 r3 R3. injection R as <- _.
  apply filedup_inv with (X := plus (fun _ => 0) (-1) f) (T := (∅ : gset nat)) in R3 as (_ & _ & _ & _ & _ & HF3);
    [|done|apply not_elem_of_empty|rewrite plus_eq; lia].
  eapply files_ext; [exact HF3|zero_ext|done].
Qed.

Lemma sys_close_ok k k' r : sys_close cur kend k = Ret k' r -> files_ok k -> files_ok k'.
Proof.
  intros R HF. unfold sys_close in R. step R k1 a R1. destruct a as [[fd f]|].
  2:{ apply (r_argfd cur 0) in R1 as ->. by injection R as <- _. }
  apply argfd_inv in R1 as (-> & p & L & Lf). step R k2 u2 R2. step R k3 u3 R3. injection R as <- _.
  pose proof (set_fd_inv _ _ _ _ _ _ _ _ _ _ R2 HF L (active_idle_fd _ _ _ _ _ _ _ HF L Lf) Lf) as HF2.
  apply fileclose_inv with (X := plus (fun _ => 0) 1 f) (T := (∅ : gset nat)) in R3 as (HF3 & _).
  - eapply files_ext; [exact HF3|zero_ext|set_solver].
  - eapply files_ext; [by apply HF2|zero_ext|done].
Qed.

Lemma sys_open_ok k k' r : sys_open cur devsw kend k = Ret k' r -> files_ok k -> active cur k -> files_ok k'.
Proof.
  intros R HF HA. unfold sys_open in R.
  step R k1 path R1. pose proof (inv_step _ _ _ _ _ _ (k_argstr None cur 0) R1 HF) as HF1. pose proof (active_step _ _ _ _ _ (k_argstr None cur 0) R1 HA) as HA1.
  destruct path as [path|]; [|by injection R as <- _].
  step R k2 om R2. apply (r_argint cur 1) in R2 as ->. destruct om as [om|]; [|by injection R as <- _].
  step R k3 d R3. pose proof (inv_step _ _ _ _ _ _ (k_my_cwd None cur) R3 HF1) as HF3. pose proof (active_step _ _ _ _ _ (k_my_cwd None cur) R3 HA1) as HA3.
  step R k4 ip R4. pose proof (inv_step _ _ _ _ _ _ (k_infs None _) R4 HF3) as HF4. pose proof (active_step _ _ _ _ _ (k_infs None _) R4 HA3) as HA4.
  destruct ip as [ip|]; [|by injection R as <- _]. cbv zeta in R.
  step R k5 f R5. destruct (filealloc_inv _ _ _ _ _ R5 HF4) as (E5 & _ & H5). destruct f as [f|].
  2:{ subst k5. eapply (inv_step _ _ _ _ _ _ _ R HF4). }
  destruct H5 as [Hf HF5].
  assert (active cur k5) as HA5. { destruct HA4 as (p & L & Hn). exists p. by rewrite E5. }
  destruct (fi_new _ _ _ _ _ HF5 f ltac:(set_solver)) as (fl & Lf & Rf & Tf).
  step R k6 fd R6. pose proof (fdalloc_inv _ _ _ _ _ _ _ R6 HF5 HA5 (lookup_lt_Some _ _ _ Lf)) as H6.
  destruct fd as [fd|].
  - destruct H6 as (HF6 & HA6 & E6 & _). step R k7 u7 R7. step R k8 w8 R8. step R k9 u9 R9. injection R as <- _.
    pose proof (inv_step _ _ _ _ _ _ (k_infs None _) R7 HF6) as HF7. pose proof (inv_step _ _ _ _ _ _ (k_infs None _) R8 HF7) as HF8.
    apply upd_file_inv in R9 as (fl8 & L8 & ->). destruct (fi_new _ _ _ _ _ HF8 f ltac:(set_solver)) as (fl9 & L9 & Rf9 & _).
    rewrite L8 in L9. injection L9 as <-. pose proof (fi_ref _ _ _ _ _ HF8 f fl8 L8) as Er.
    unfold files_ok, files_inv. cbn. eapply inv_upd_file; [exact HF8|exact L8| | | | |]; cbn.
    + rewrite plus_eq, plus_eq in Er. lia.
    + intros g _. unfold plus. lia.
    + set_solver.
    + rewrite decide_False by set_solver. split; [done|lia].
    + done.
  - subst k6. step R k7 u7 R7. destruct (fileclose_inv _ _ _ _ _ _ _ R7 HF5) as (HF7 & _).
    eapply (inv_step _ _ _ _ _ _ _ R). eapply files_ext; [exact HF7|zero_ext|set_solver].
Qed.

Lemma sys_pipe_ok k k' r : sys_pipe cur kend k = Ret k' r -> files_ok k -> active cur k ->
  fresh_page k -> files_ok k'.
Proof.
  intros R HF HA Hfr. unfold sys_pipe in R. step R k1 a R1. apply (r_argptr cur 0 8) in R1 as ->.
  destruct a as [a|]; [|by injection R as <- _]. step R k2 r2 R2. destruct (pipealloc_inv _ _ _ _ _ R2 HF Hfr) as [HP2 H2].
  destruct r2 as [[rf wf]|]; [|by injection R as <- _]. destruct H2 as (HF2 & Hrf & Hwf).
  assert (active cur k2) as HA2.
  { destruct HA as (p & L & Hn), HP2 as [E HP]. destruct (lookup_lt_is_Some_2 (ptable (kp k2)) cur) as [p2 L2]; [rewrite E; by eapply lookup_lt_Some|].
    exists p2. split; [done|]. intros ?. apply Hn. by eapply HP. }
  cbv zeta in R. step R k3 fd0 R3. pose proof (fdalloc_inv _ _ _ _ _ _ _ R3 HF2 HA2 Hrf) as H3. destruct fd0 as [fd0|].
  2:{ subst k3. step R k4 u4 R4. destruct (fileclose_inv _ _ _ _ _ _ _ R4 HF2) as (HF4 & _).
      step R k5 u5 R5. destruct (fileclose_inv _ _ _ _ _ _ _ R5 HF4) as (HF5 & _). injection R as <- _.
      eapply files_ext; [exact HF5|zero_ext|set_solver]. }
  destruct H3 as (HF3 & HA3 & E3 & p3 & L3 & Lf3). rewrite <- E3 in Hwf.
  step R k4 fd1 R4. pose proof (fdalloc_inv _ _ _ _ _ _ _ R4 HF3 HA3 Hwf) as H4. destruct fd1 as [fd1|].
  - destruct H4 as (HF4 & _). step R k5 u5 R5. step R k6 u6 R6. injection R as <- _.
    pose proof (inv_step _ _ _ _ _ _ (k_ustore None _ _ _) R5 HF4) as HF5. pose proof (inv_step _ _ _ _ _ _ (k_ustore None _ _ _) R6 HF5) as HF6.
    eapply files_ext; [exact HF6|zero_ext|done].
  - subst k4. step R k5 u5 R5.
    pose proof (set_fd_inv _ _ _ _ _ _ _ _ _ _ R5 HF3 L3 (active_idle_fd _ _ _ _ _ _ _ HF3 L3 Lf3) Lf3 ltac:(done)) as HF5.
    step R k6 u6 R6. destruct (fileclose_inv _ _ _ _ _ _ _ R6 HF5) as (HF6 & _).
    step R k7 u7 R7. destruct (fileclose_inv _ _ _ _ _ _ _ R7 HF6) as (HF7 & _). injection R as <- _.
    eapply files_ext; [exact HF7| |set_solver]. intros g. cbv beta. unfold plus. rewrite ind_none. lia.
Qed.
End handlers.

(** ** Processes *)

#[export] Instance p_modify I f : (forall ps, prel I ps (f ps)) -> PKeeps I (modify (upd_ptable f)).
Proof. intros Hf s s' u [= <- _]. apply Hf. Qed.

Lemma adopt_prel I cur init ps : prel I ps (adopt cur init ps).
Proof.
  unfold adopt, for_range. generalize (seq 0 (length ps - 0)). intros l. revert ps.
  induction l as [|i l IH]; intros ps; cbn [foldl]; [apply prel_refl|]. eapply prel_trans; [|apply IH]. unfold adopt_entry.
  destruct (ps !! i) as [p|] eqn:L; [|apply prel_refl]. case_decide; [|apply prel_refl].
  assert (prel I ps (<[i := set_parent init p]> ps)) as HP by (by eapply prel_insert).
  case_decide; [|done]. eapply prel_trans; [exact HP|apply wakeup1_prel].
Qed.

Lemma exit_tail_keeps cur : PKeeps (Some cur) (exit_tail cur).
Proof.
  unfold exit_tail. apply p_bind; [apply _|intros p]. apply p_bind; [apply p_modify; intros; apply wakeup1_prel|intros _].
  apply p_bind; [apply _|intros s]. apply p_bind; [apply p_modify; intros; apply adopt_prel|intros _].
  apply p_upd_proc. done.
Qed.

(** The entry [allocproc] takes was idle, and is not when it is returned. *)
Lemma allocproc_keeps trapret forkret k k' r : inps (allocproc trapret forkret) k = Ret k' r ->
  exists I, keeps I k k' /\ (forall i p, I = Some i -> ptable (kp k) !! i = Some p -> idle p) /\
    forall i, r = Some i -> I = Some i /\ active i k'.
Proof.
  intros R. assert (exists s', allocproc trapret forkret (kp k) = Ret s' r /\ k' = set_kp s' k) as (s' & Ra & ->).
  { revert R. unfold inps, zoom. destruct (allocproc _ _ (kp k)) as [s b| | |]; try done. intros [= <- <-]. by eexists. }
  clear R. pose proof (allocproc_effect _ _ _ _ _ Ra) as HE. unfold allocproc in Ra. rewrite gets_bind in Ra.
  destruct (list_find _ (ptable (kp k))) as [[i p]|] eqn:Lf.
  2:{ exists None. injection Ra as <- <-. split_and!; [|done|done]. apply keeps_kp, prel_refl. }
  apply list_find_Some in Lf as (L & Hu & _). exists (Some i). split_and!.
  - apply keeps_kp. revert Ra. match goal with |- ?m _ = _ -> _ => enough (PKeeps (Some i) m) as HK by apply HK end.
    apply p_bind; [apply _|intros n]. apply p_bind; [apply p_upd_proc; by intros q|intros _].
    apply p_bind; [by intros s1 s2 u [= <- _]; apply prel_refl|intros _]. keep.
  - intros j q [= <-] Lq. rewrite L in Lq. injection Lq as <-. by left.
  - intros j ->. destruct HE as [[_ ?]|(i2 & p2 & st & L2 & _ & [[-> [= <-]]|[_ ?]] & _ & _ & q & Ept & Est & _)]; [done| |done].
    assert (i = j) as ->.
    { clear -Ra. apply bind_inv in Ra as (? & n & _ & Ra). apply bind_inv in Ra as (? & ? & _ & Ra). apply bind_inv in Ra as (? & ? & _ & Ra).
      apply bind_inv in Ra as (? & kk & _ & Ra). apply bind_inv in Ra as (? & ? & _ & Ra). destruct (kk =? 0).
      - by apply bind_inv in Ra as (? & ? & _ & Ra).
      - cbv zeta in Ra. do 4 apply bind_inv in Ra as (? & ? & _ & Ra). by injection Ra as _ <-. }
    split; [done|]. exists q. cbn. rewrite Ept, list_lookup_insert_eq by (by eapply lookup_lt_Some). split; [done|].
    intros [?|?]; congruence.
Qed.

Lemma for_M_inv {S} (P : nat -> S -> Prop) lo hi f s s' u : (lo <= hi)%nat ->
  (forall i s s' u, (lo <= i < hi)%nat -> P i s -> f i s = Ret s' u -> P (Datatypes.S i) s') ->
  P lo s -> for_M lo hi f s = Ret s' u -> P hi s'.
Proof.
  intros Hle Hf. unfold for_M. remember (hi - lo)%nat as n eqn:En.
  revert lo s Hle Hf En. induction n as [|n IH]; intros lo s Hle Hf En HP; cbn.
  - intros [= <- _]. by replace hi with lo by lia.
  - intros R. apply bind_inv in R as (s1 & u1 & R1 & R). eapply (IH (Datatypes.S lo)); [lia| |lia| |exact R].
    + intros i t t' v Hi. apply Hf. lia.
    + eapply Hf; [|exact HP|exact R1]. lia.
Qed.

Section processes.
Context `{BlockDriver} (trapret forkret kend kdata : Z) (cur : nat).

(** Between the rounds of the loop of [fork]: the child has no descriptor from [fd] on. *)
Record forking (np fd : nat) (k : kernel) : Prop := {
  fk_ok : files_ok k;
  fk_cur : active cur k;
  fk_np : active np k;
  fk_none : forall q j, ptable (kp k) !! np = Some q -> (fd <= j < NOFILE)%nat -> ofile q !! j = Some None
}.

Lemma forking_keeps np fd k k' : keeps None k k' -> forking np fd k -> forking np fd k'.
Proof.
  intros HK [H1 H2 H3 H4]. split; [by eapply inv_keeps|by eapply keeps_active|by eapply keeps_active|].
  intros q' j L'. destruct HK as [[EP HP] _ _].
  destruct (lookup_lt_is_Some_2 (ptable (kp k)) np) as [q L]; [rewrite <- EP; by eapply lookup_lt_Some|].
  destruct (HP _ _ _ L L') as [-> _]. by apply H4.
Qed.

Lemma dup_fd_ok np fd k k' u : (fd < NOFILE)%nat -> np <> cur -> forking np fd k -> dup_fd cur np fd k = Ret k' u -> forking np (S fd) k'.
Proof.
  intros Hfd Hne HF R. unfold dup_fd in R. step R k1 p R1. apply me_inv in R1 as [-> L].
  destruct (ofile p !! fd) as [o|] eqn:Lo; [|done]. rewrite from_opt_bind in R. destruct o as [f|].
  2:{ injection R as <- _. destruct HF as [H1 H2 H3 H4]. split; [done|done|done|]. intros q j Lq Hj. apply H4; [done|lia]. }
  destruct HF as [H1 H2 (q & Lq & Hq) H4]. step R k2 g R2.
  apply filedup_inv with (X := fun _ => 0) (T := (∅ : gset nat)) in R2 as (-> & Ek & Ep & Hf & El & HF2); [|done|apply not_elem_of_empty|lia].
  rewrite <- El in Hf. pose proof (H4 q fd Lq ltac:(lia)) as Lo'. unfold active in H2. rewrite <- Ek in Lq, L, H2.
  pose proof (set_fd_inv _ _ _ _ _ _ _ _ _ _ R HF2 Lq Hq Lo') as HF3.
  apply set_fd_run in R as (q' & Lq' & ->). rewrite Lq in Lq'. injection Lq' as <-.
  pose proof (lookup_lt_Some _ _ _ Lq) as Hlt. split.
  - eapply files_ext; [apply HF3; by intros ? [= <-]|zero_ext|done].
  - destruct H2 as (c & Lc & Hc). exists c. cbn [kp set_kp ptable upd_ptable]. by rewrite list_lookup_insert_ne by done.
  - eexists. cbn [kp set_kp ptable upd_ptable]. rewrite list_lookup_insert_eq by done. by split.
  - intros q' j. cbn [kp set_kp ptable upd_ptable]. rewrite list_lookup_insert_eq by done. intros [= <-] Hj. cbn [ofile set_files].
    rewrite list_lookup_insert_ne by lia. apply H4; [by rewrite <- Ek|lia].
Qed.

#[export] Instance p_fork_link np : PKeeps None (fork_link np cur).
Proof. unfold fork_link. keep. Qed.
#[export] Instance p_fork_run np : PKeeps None (fork_run np).
Proof. apply p_upd_proc. intros x. split; [done|]. intros _ [?|?]; done. Qed.
Lemma fork_undo_keeps np : PKeeps (Some np) (fork_undo kend np).
Proof.
  unfold fork_undo. apply p_bind; [apply _|intros q]. apply p_bind; [apply _|intros _].
  apply p_bind; [apply _|intros _]. by apply p_upd_proc.
Qed.

Lemma fork_start k k1 r1 : inps (allocproc trapret forkret) k = Ret k1 r1 -> files_ok k -> active cur k ->
  match r1 with None => files_ok k1 | Some np => np <> cur /\ forking np 0 k1 end.
Proof.
  intros R1 HF HA. destruct (allocproc_keeps _ _ _ _ _ R1) as (I & HK & Hid & Hnp).
  assert (forall i p, I = Some i -> ptable (kp k) !! i = Some p -> Forall (eq None) (ofile p)) as Hnone.
  { intros i p Hi L. eapply (fi_idle _ _ _ _ _ HF); [done|]. by eapply Hid. }
  pose proof (inv_keeps _ _ _ _ _ HK HF Hnone) as HF1. destruct r1 as [np|]; [|done].
  destruct (Hnp np eq_refl) as [-> Hact].
  assert (np <> cur) as Hne. { intros ->. destruct HA as (p & L & Hn). apply Hn. by eapply Hid. }
  split; [done|]. destruct HK as [[EP HP] _ _]. split; [done| |done|].
  - destruct HA as (p & L & Hn). destruct (lookup_lt_is_Some_2 (ptable (kp k1)) cur) as [p' L']; [rewrite EP; by eapply lookup_lt_Some|].
    exists p'. split; [done|]. intros Hi. apply Hn. destruct (HP _ _ _ L L') as [_ HH]. apply HH; [congruence|done].
  - intros q j Lq Hj. destruct (lookup_lt_is_Some_2 (ptable (kp k)) np) as [p L]; [rewrite <- EP; by eapply lookup_lt_Some|].
    destruct (HP _ _ _ L Lq) as [E _]. pose proof (Hnone np p eq_refl L) as HN. rewrite <- E in HN.
    destruct (lookup_lt_is_Some_2 (ofile q) j) as [o Lo].
    { rewrite (fi_nofile _ _ _ _ _ HF1 np q Lq). lia. }
    rewrite Lo. f_equal. rewrite Forall_lookup in HN. symmetry. by eapply HN.
Qed.

Lemma forking_step {A} np fd (m : M kernel A) k k' a : Keeps None m -> m k = Ret k' a -> forking np fd k -> forking np fd k'.
Proof. intros Hm R. apply forking_keeps. by eapply Hm. Qed.

Lemma fork_ok k k' r : fork trapret forkret kend kdata cur k = Ret k' r -> files_ok k -> active cur k -> files_ok k'.
Proof.
  intros R HF HA. unfold fork in R. step R k1 r1 R1. pose proof (fork_start _ _ _ R1 HF HA) as H1.
  destruct r1 as [np|]; [|by injection R as <- _]. destruct H1 as [Hne HF1].
  step R k2 p R2. apply (forking_step _ _ _ _ _ _ (k_me None cur) R2) in HF1.
  step R k3 d R3. apply (forking_step _ _ _ _ _ _ (k_inmem None _) R3) in HF1.
  step R k4 u4 R4. apply (forking_step _ _ _ _ _ _ (k_at_proc None np _ _) R4) in HF1.
  destruct (d =? 0).
  - step R k5 u5 R5. injection R as <- _. destruct HF1 as [HF4 _ _ HN].
    eapply (inv_keeps _ _ (Some np)); [by eapply (k_inps _ _ (fork_undo_keeps np))|exact HF4|].
    intros i q [= <-] Lq. apply Forall_lookup. intros j o Lo. rewrite (HN q j Lq) in Lo; [by injection Lo|].
    split; [lia|]. rewrite <- (fi_nofile _ _ _ _ _ HF4 np q Lq). by eapply lookup_lt_Some.
  - step R k5 u5 R5. apply (forking_step _ _ _ _ _ _ (k_inps None _ _) R5) in HF1.
    step R k6 b R6. apply (forking_step _ _ _ _ _ _ (k_inmem None _) R6) in HF1.
    step R k7 q R7. apply (forking_step _ _ _ _ _ _ (k_me None np) R7) in HF1.
    step R k8 w8 R8. apply (forking_step _ _ _ _ _ _ (k_inmem None _) R8) in HF1.
    step R k9 w9 R9. apply (forking_step _ _ _ _ _ _ (k_tf_set None np _ _) R9) in HF1.
    step R k10 w10 R10. apply (for_M_inv (fun fd => forking np fd)) in R10; [|unfold NOFILE; lia| |done].
    2:{ intros i s s' u [_ Hi] Hs Rs. by eapply dup_fd_ok. }
    refine (inv_step _ _ _ _ _ _ _ R (fk_ok _ _ _ R10)).
Qed.

(** Between the rounds of the loop of [exit]: no descriptor below [fd] is left. *)
Record exiting (fd : nat) (k : kernel) : Prop := {
  ex_ok : files_ok k;
  ex_cur : active cur k;
  ex_none : forall p j, ptable (kp k) !! cur = Some p -> (j < fd)%nat -> ofile p !! j = Some None
}.

Lemma close_fd_ok fd k k' u : exiting fd k -> close_fd kend cur fd k = Ret k' u -> exiting (S fd) k'.
Proof.
  intros [H1 H2 H3] R. unfold close_fd in R. step R k1 p R1. apply me_inv in R1 as [-> L].
  destruct (ofile p !! fd) as [o|] eqn:Lo; [|done]. rewrite from_opt_bind in R.
  assert (forall q, ptable (kp k) !! cur = Some q -> q = p) as Hq by (intros q Lq; congruence).
  destruct o as [f|].
  2:{ injection R as <- _. split; [done|done|]. intros q j Lq Hj. rewrite (Hq q Lq).
      destruct (decide (j = fd)) as [->|]; [done|]. apply H3; [done|lia]. }
  step R k2 u2 R2. destruct (fileclose_inv _ _ _ _ _ _ _ R2 H1) as (HF2 & [EP HP] & _).
  destruct (lookup_lt_is_Some_2 (ptable (kp k2)) cur) as [p2 L2]; [rewrite EP; by eapply lookup_lt_Some|].
  destruct (HP _ _ _ L L2) as [Eo Hid]. pose proof (active_idle_fd _ _ _ _ _ _ _ H1 L Lo) as Hn.
  assert (~ idle p2) as Hn2 by (intros ?; by apply Hn, Hid). rewrite <- Eo in Lo.
  pose proof (set_fd_inv _ _ _ _ _ _ _ _ _ _ R HF2 L2 Hn2 Lo ltac:(done)) as HF3.
  apply set_fd_run in R as (p3 & L3 & ->). rewrite L2 in L3. injection L3 as <-.
  pose proof (lookup_lt_Some _ _ _ L2). split.
  - eapply files_ext; [exact HF3|zero_ext|set_solver].
  - eexists. cbn [kp set_kp ptable upd_ptable]. rewrite list_lookup_insert_eq by done. by split.
  - intros q j. cbn [kp set_kp ptable upd_ptable]. rewrite list_lookup_insert_eq by done. intros [= <-] Hj. cbn [ofile set_files].
    destruct (decide (j = fd)) as [->|].
    + apply list_lookup_insert_eq. by eapply lookup_lt_Some.
    + rewrite list_lookup_insert_ne, Eo by done. apply H3; [done|lia].
Qed.

Lemma exiting_step {A} fd (m : M kernel A) k k' a : Keeps None m -> m k = Ret k' a -> exiting fd k -> exiting fd k'.
Proof.
  intros Hm R [H1 H2 H3]. pose proof (Hm _ _ _ R) as HK. split; [by eapply inv_keeps|by eapply keeps_active|].
  intros p' j L'. destruct HK as [[EP HP] _ _].
  destruct (lookup_lt_is_Some_2 (ptable (kp k)) cur) as [p L]; [rewrite <- EP; by eapply lookup_lt_Some|].
  destruct (HP _ _ _ L L') as [-> _]. by apply H3.
Qed.

Lemma exit_ok k k' u : exit kend cur k = Ret k' u -> files_ok k -> active cur k -> files_ok k'.
Proof.
  intros R HF HA. unfold exit in R. step R k1 s R1. assert (k1 = k) as -> by (injection R1 as <- _; by destruct k).
  case_decide; [done|]. step R k2 u2 R2.
  apply (for_M_inv exiting) in R2; [|unfold NOFILE; lia|intros i t t' v _; by apply close_fd_ok|split; [done|done|lia]].
  step R k3 u3 R3. apply (exiting_step _ _ _ _ _ (k_infs None _) R3) in R2.
  step R k4 c R4. apply (exiting_step _ _ _ _ _ (k_my_cwd None cur) R4) in R2.
  step R k5 u5 R5. apply (exiting_step _ _ _ _ _ (k_infs None _) R5) in R2.
  step R k6 u6 R6. apply (exiting_step _ _ _ _ _ (k_infs None _) R6) in R2.
  step R k7 u7 R7. apply (exiting_step _ _ _ _ _ (k_upd_me None cur _ _) R7) in R2.
  destruct R2 as [H1 _ H3]. eapply (inv_keeps _ _ (Some cur)); [by eapply (k_inps _ _ (exit_tail_keeps cur))|done|].
  intros i p [= <-] L. apply Forall_lookup. intros j o Lo. rewrite (H3 p j L) in Lo; [by injection Lo|].
  rewrite <- (fi_nofile _ _ _ _ _ H1 cur p L). by eapply lookup_lt_Some.
Qed.
End processes.

(** ** Every system call *)

Section dispatch.
Context `{BlockDriver} (devsw : list devops) (trapret forkret kend kdata : Z) (stack date : list Z).

Lemma returning_ok (m : M kernel Z) k k' r :
  (forall k1 v, m k = Ret k1 v -> files_ok k1) -> returning m k = Ret k' r -> files_ok k'.
Proof. intros Hm R. unfold returning in R. step R k1 v R1. injection R as <- _. by eapply Hm. Qed.

Lemma keeps_ok {A} (m : M kernel A) k : Keeps None m -> files_ok k -> forall k1 v, m k = Ret k1 v -> files_ok k1.
Proof. intros Hm HF k1 v R. by eapply (inv_step _ _ _ _ _ _ Hm R). Qed.

#[export] Instance k_wait cur : Keeps None (sys_wait kend cur).
Proof. unfold sys_wait. keep. Qed.
#[export] Instance k_kill cur : Keeps None (sys_kill cur).
Proof. unfold sys_kill. keep. Qed.
#[export] Instance k_getpid cur : Keeps None (sys_getpid cur).
Proof. unfold sys_getpid. keep. Qed.
#[export] Instance k_sbrk cur : Keeps None (sys_sbrk kend cur).
Proof. unfold sys_sbrk, growproc, switchuvm. keep. Qed.
#[export] Instance k_sleep_call cur : Keeps None (sys_sleep cur).
Proof. unfold sys_sleep, sleep_from. keep. Qed.
#[export] Instance k_uptime : Keeps None sys_uptime.
Proof. unfold sys_uptime. keep. Qed.
#[export] Instance k_gettime cur : Keeps None (sys_gettime cur date).
Proof. unfold sys_gettime. keep. Qed.
#[export] Instance k_settickets cur : Keeps None (sys_settickets cur).
Proof. unfold sys_settickets. keep. Qed.
#[export] Instance k_sys_read cur : Keeps None (sys_read cur devsw).
Proof. unfold sys_read. keep. Qed.
#[export] Instance k_sys_write cur : Keeps None (sys_write cur devsw).
Proof. unfold sys_write. keep. Qed.
#[export] Instance k_fstat cur : Keeps None (sys_fstat cur).
Proof. unfold sys_fstat. keep. Qed.
#[export] Instance k_link cur : Keeps None (sys_link cur devsw).
Proof. unfold sys_link. keep. Qed.
#[export] Instance k_unlink cur : Keeps None (sys_unlink cur devsw).
Proof. unfold sys_unlink. keep. Qed.
#[export] Instance k_mkdir cur : Keeps None (sys_mkdir cur devsw).
Proof. unfold sys_mkdir, op_failed. keep. Qed.
#[export] Instance k_mknod cur : Keeps None (sys_mknod cur devsw).
Proof. unfold sys_mknod, op_failed. keep. Qed.
#[export] Instance k_chdir cur : Keeps None (sys_chdir cur devsw).
Proof. unfold sys_chdir, op_failed. keep. Qed.

Lemma syscalls_ok cur num h k k' v : syscalls devsw trapret forkret kend kdata stack date cur num = Some h ->
  h k = Ret k' v -> files_ok k -> active cur k -> fresh_page k -> files_ok k'.
Proof.
  intros Eh R HF HA Hfr.
  unfold syscalls in Eh.
  repeat (match type of Eh with context [match ?x with _ => _ end] => destruct x; try done end); injection Eh as <-; revert R;
    first
      [ apply returning_ok; apply keeps_ok; [apply _|done]
      | apply returning_ok; intros k1 w R1;
        first [ by eapply fork_ok | by eapply sys_pipe_ok | by eapply sys_dup_ok | by eapply sys_open_ok | by eapply sys_close_ok ]
      | intros R; step R k1 u R1; injection R as <- _; by eapply exit_ok ].
Qed.

(** C17: every system call keeps descriptors, open files and pipes consistent:
    the reference count of each file is the number of descriptors for it in
    all processes together, a file is in use exactly when it has a type, dead
    and free process entries hold no descriptor, and an open end of a pipe
    belongs to a pipe that exists and has that end marked open, so that no
    descriptor reaches a pipe whose page was freed.  The page at the head of
    the free list must not be one a pipe lives in. *)
Theorem syscall_files_ok cur k k' b :
  files_ok k -> active cur k -> fresh_page k ->
  syscall devsw trapret forkret kend kdata stack date cur k = Ret k' b -> files_ok k'.
Proof.
  intros HF HA Hfr R. unfold syscall in R. step R k1 num R1. apply (r_tf_get cur tf_eax) in R1 as ->.
  destruct (syscalls _ _ _ _ _ _ _ cur num) as [h|] eqn:Eh.
  - step R k2 v R2. pose proof (syscalls_ok _ _ _ _ _ _ Eh R2 HF HA Hfr) as HF2.
    destruct v; [|by injection R as <- _]. revert R. apply keeps_ok; [keep|done].
  - revert R. apply keeps_ok; [keep|done].
Qed.
End dispatch.

(** ** A system with one process that has both ends of a pipe open *)

Definition demo_unused : proc := mk_proc 0 0 0 UNUSED 0 None 0 0 None 0 (replicate NOFILE None) None (replicate 16 0) 0.
Definition demo_shell : proc :=
  mk_proc 4096 0x80001000 0x80004000 RUNNING 1 None 0x80004000 0 None 0
    ([Some 0; Some 1]%nat ++ replicate 14 None) (Some 0%nat) (replicate 16 0) 10.
Definition demo_table : list proc := demo_shell :: replicate 63 demo_unused.
Definition demo_ftable : list file :=
  [mk_file FD_PIPE 1 1 0 0x80005000 None 0; mk_file FD_PIPE 1 0 1 0x80005000 None 0] ++
  replicate 98 (mk_file FD_NONE 0 0 0 0 None 0).
Definition demo_pipes : gmap Z pipe := {[ 0x80005000 := new_pipe (replicate (Z.to_nat PIPESIZE) 0) ]}.

(** The page table at 0x80001000 maps page 0 to frame 3; the trap frame at
    0x80004000 asks for system call [n] with the stack at 0x100, where the
    first argument is [a]. *)
Definition demo_ram (n a : Z) : ram :=
  store32 0x80001000 0x2007 (store32 0x80002000 0x3007 (store32 0x80003104 a
    (store32 (0x80004000 + tf_eax) n (store32 (0x80004000 + tf_esp) 0x100 ∅)))).
Definition demo_fs : fs_state :=
  mk_fs (mk_sb 0 0 0 0 0 0 0) [] (mk_ls (mk_log 0 0 0 0 0 0 []) (mk_bio [] None ∅ [] [])).
Definition demo_kernel (n a : Z) : kernel :=
  mk_kernel (mk_psys demo_table 2 0 (Some 0%nat) Rand.rng_boot (mk_kmem 1 0 (demo_ram n a))) demo_fs demo_ftable demo_pipes 0 [].

Lemma demo_table_cases i p : demo_table !! i = Some p -> i = 0%nat /\ p = demo_shell \/ p = demo_unused.
Proof.
  destruct i as [|i]; [by intros [= <-]; left|]. intros L. right. cbn in L.
  by apply (lookup_replicate_1 63) in L as [-> _].
Qed.
Lemma demo_refs f : refs f demo_table = if decide (f < 2)%nat then 1%nat else 0%nat.
Proof.
  unfold demo_table. rewrite refs_cons.
  assert (forall n, refs f (replicate n demo_unused) = 0%nat) as ->.
  { induction n as [|n IH]; [done|]. cbn [replicate]. rewrite refs_cons, IH. by rewrite uses_none by (by apply Forall_replicate). }
  destruct f as [|[|f]]; [done|done|]. rewrite decide_False by lia. done.
Qed.
Lemma demo_ftable_cases f fl : demo_ftable !! f = Some fl ->
  f = 0%nat /\ fl = mk_file FD_PIPE 1 1 0 0x80005000 None 0 \/ f = 1%nat /\ fl = mk_file FD_PIPE 1 0 1 0x80005000 None 0 \/
  (2 <= f)%nat /\ fl = mk_file FD_NONE 0 0 0 0 None 0.
Proof.
  destruct f as [|[|f]]; [by intros [= <-]; auto|by intros [= <-]; auto|]. intros L. right. right. split; [lia|].
  change (replicate 98 (mk_file FD_NONE 0 0 0 0 None 0) !! f = Some fl) in L. by apply lookup_replicate_1 in L as [-> _].
Qed.

Lemma demo_files_ok n a : files_ok (demo_kernel n a).
Proof.
  split; cbn [kp demo_kernel ptable ftable pipes].
  - done.
  - intros i p L. by destruct (demo_table_cases i p L) as [[_ ->]| ->].
  - intros f fl L. rewrite demo_refs. destruct (demo_ftable_cases f fl L) as [[-> ->]|[[-> ->]|[? ->]]]; [done|done|].
    by rewrite decide_False by lia.
  - intros f. rewrite demo_refs. case_decide; [|lia]. intros _. cbn [length demo_ftable app]. lia.
  - intros f Hf. by apply not_elem_of_empty in Hf.
  - intros f fl L _. by destruct (demo_ftable_cases f fl L) as [[-> ->]|[[-> ->]|[? ->]]].
  - intros i p L Hi. destruct (demo_table_cases i p L) as [[_ ->]| ->]; [by destruct Hi|by apply Forall_replicate].
  - intros f fl L T. exists (new_pipe (replicate (Z.to_nat PIPESIZE) 0)).
    destruct (demo_ftable_cases f fl L) as [[-> ->]|[[-> ->]|[? ->]]]; [| |done]; (split; [apply lookup_singleton_eq|done]).
  - intros f g fl gl Lf Lg. destruct (demo_ftable_cases f fl Lf) as [[-> ->]|[[-> ->]|[? ->]]], (demo_ftable_cases g gl Lg) as [[-> ->]|[[-> ->]|[? ->]]]; done.
Qed.

(** Closing the write end. *)
Lemma syscall_files_ok_witness : exists k' b,
  syscall (H := mem_driver) [] 0 0 0 0 [] [] 0 (demo_kernel 21 1) = Ret k' b /\ files_ok k' /\
  writeopen <$> pipes k' !! 0x80005000 = Some 0.
Proof.
  assert (match syscall (H := mem_driver) [] 0 0 0 0 [] [] 0 (demo_kernel 21 1) with
    | Ret k' b => match pipes k' !! 0x80005000 with Some p => (writeopen p =? 0) && (b : bool) | None => false end
    | _ => false end = true) as E by (vm_compute; reflexivity).
  destruct (syscall (H := mem_driver) [] 0 0 0 0 [] [] 0 (demo_kernel 21 1)) as [k' b| | |] eqn:R; try discriminate E.
  exists k', b. split; [reflexivity|]. split.
  - refine (syscall_files_ok [] 0 0 0 0 [] [] 0 (demo_kernel 21 1) k' b (demo_files_ok 21 1) _ _ R).
    + exists demo_shell. split; [reflexivity|]. intros [?|?]; discriminate.
    + reflexivity.
  - destruct (pipes k' !! 0x80005000) as [p|]; [|discriminate E]. apply andb_prop in E as [E _]. apply Z.eqb_eq in E.
    cbn. by rewrite E.
Defined.
