(* ===== verification/UserMem.v ===== *)
(** * UserMem: the kernel's accesses to user memory

    The loads and stores the kernel makes through user pointers read and
    write the memory of the process as Vm describes it, page after page, and
    what [fetchint], [fetchstr] and [argptr] accept can be accessed without a
    fault. *)
From stdpp Require Import base numbers list gmap strings.
From Stdlib Require Import ZArith Lia.
From S2P Require Import Prelude Bytes Kalloc Vm Proc Kernel Args FilesInv.

Local Open Scope Z_scope.

Section user.
Context (kend : Z) {K : Z -> Z}.

(** The processor finds the page of a user address. *)
Lemma mmu_user s l d tabs U va p f w : uspace kend K s l d tabs U -> 0 <= va ->
  U !! Z.to_nat (va / PGSIZE) = Some (p, f) -> (w = true -> hasf PTE_W f = true) ->
  mmu w d va s = Ret s (Some (p + va mod PGSIZE)).
Proof.
  intros Hus Hva Hi Hw. set (i := Z.to_nat (va / PGSIZE)) in *.
  destruct (walk_user kend s l d tabs U i p f Hus Hi) as (pte & _ & _ & _ & HP & HA & _ & Hpv).
  pose proof (lookup_lt_Some _ _ _ Hi) as Hlt. pose proof (us_len _ _ _ _ _ _ _ Hus) as HL.
  assert (0 <= va / PGSIZE) by (by apply Z.div_pos). pose proof (Z.mod_pos_bound va PGSIZE ltac:(done)) as Hm.
  assert (va < KERNBASE) as Hk.
  { assert (KERNBASE / PGSIZE = 524288) as E by done. assert (KERNBASE = 2147483648) as -> by done.
    pose proof (Z.div_mod va PGSIZE ltac:(done)). assert (PGSIZE = 4096) as EP by done. unfold i in Hlt. rewrite E in HL. lia. }
  assert (0 <= va < 2 ^ 32) as H32 by (unfold KERNBASE in Hk; lia).
  pose proof (us_pte _ _ _ _ _ _ _ Hus va H32) as Hpte. unfold upte in Hpte. rewrite decide_True in Hpte by done.
  fold i in Hpte. rewrite Hi in Hpte. unfold pte_of in Hpte.
  pose proof (vm_pt _ _ _ _ _ (us_vm _ _ _ _ _ _ _ Hus)) as [Hd Hdom Htab _ Hpde].
  assert (0 <= PDX va < 1024) as Hpx.
  { rewrite PDX_eq by done. split; [apply Z.div_pos; lia|]. apply Z.div_lt_upper_bound; [lia|].
    apply Z.div_lt_upper_bound; [done|]. change (PGSIZE * (1024 * 1024)) with (2 ^ 32). lia. }
  destruct (tabs !! PDX va) as [t|] eqn:Ht; [|by rewrite <- Hpte in HP].
  destruct (Htab _ _ Ht) as [Hvt _]. unfold mmu, ld32. cbv zeta. rewrite gets_bind.
  destruct (word_in_page kend d (PDX va) Hd Hpx) as (_ & _ & -> & _). rewrite Hpde, Ht by done.
  destruct (pde_present kend t Hvt) as [HP' HA'].
  assert (hasf PTE_W (Z.lor (Z.lor (Z.lor (v2p t) PTE_P) PTE_W) PTE_U) = true) as HW'.
  { rewrite !hasf_lor. change (hasf PTE_W PTE_W) with true. by rewrite orb_true_r. }
  rewrite HP', HW', orb_true_r. cbn [negb andb]. rewrite gets_bind, HA'.
  destruct (word_in_page kend t (PTX va) Hvt (PTX_range va)) as (_ & _ & -> & _). rewrite Hpte, HP, HA, Hpv. cbn [andb].
  assert (negb w || hasf PTE_W (Z.lor (v2p p) f) = true) as ->.
  { destruct w; [|done]. rewrite hasf_lor, Hw by done. apply orb_true_r. }
  cbn [negb]. unfold ret. do 2 f_equal.
  pose proof (proj1 (Forall_lookup _ _) (us_page _ _ _ _ _ _ _ Hus) _ _ Hi) as (Hv & _).
  by destruct (byte_in_page kend p (va mod PGSIZE) Hv Hm) as (_ & _ & ->).
Qed.

(** The running process, in a kernel whose memory holds its address space. *)
Record runs_in (cur : nat) (k : kernel) (l : list Z) (tabs : gmap Z Z) (U : list (Z * Z)) (q : proc) : Prop := {
  ri_proc : ptable (kp k) !! cur = Some q;
  ri_space : uspace kend K (km (kp k)) l (pgdir q) tabs U
}.

Lemma me_ret cur k q : ptable (kp k) !! cur = Some q -> me cur k = Ret k q.
Proof. intros L. unfold me, inps, zoom. rewrite (proc_at_ret cur (kp k) q L). by destruct k. Qed.

Lemma inmem_ret {A} (m : M kmem A) k s (a : A) : m (km (kp k)) = Ret s a ->
  inmem m k = Ret (set_kp (set_km s (kp k)) k) a.
Proof. intros R. unfold inmem, inps, inkm, zoom. by rewrite R. Qed.

Lemma set_km_same k : set_kp (set_km (km (kp k)) (kp k)) k = k.
Proof. by destruct k as [[] ? ? ? ? ?]. Qed.

Lemma umem_length cur k l tabs U q : runs_in cur k l tabs U q ->
  length (umem (km (kp k)) U) = (length U * Z.to_nat PGSIZE)%nat.
Proof.
  intros [_ Hus]. unfold umem, ucontent. pose proof (ki_mem _ _ _ (vm_kalloc _ _ _ _ _ (us_vm _ _ _ _ _ _ _ Hus))) as Hm.
  clear Hus. induction U as [|[p f] U IH]; [done|]. cbn [fmap list_fmap concat length Nat.mul].
  rewrite length_app. cbn [fst]. rewrite Hm. f_equal. exact IH.
Qed.

(** The page of an address below the end. *)
Lemma page_of (U : list (Z * Z)) va : 0 <= va < Z.of_nat (length U) * PGSIZE -> exists p f, U !! Z.to_nat (va / PGSIZE) = Some (p, f).
Proof.
  intros Hva. destruct (lookup_lt_is_Some_2 U (Z.to_nat (va / PGSIZE))) as [[p f] L]; [|by exists p, f].
  assert (va / PGSIZE < Z.of_nat (length U)) by (apply Z.div_lt_upper_bound; [done|lia]).
  pose proof (Z.div_pos va PGSIZE). lia.
Qed.

Lemma concat_lookup k (bs : list (list Z)) i b o : Forall (fun b => length b = k) bs -> bs !! i = Some b -> (o < k)%nat ->
  concat bs !! (i * k + o)%nat = b !! o.
Proof.
  intros Hk. revert i. induction Hk as [|c bs Hc Hk IH]; intros i Hi Ho; [done|]. destruct i as [|i]; cbn in Hi.
  - injection Hi as ->. cbn. by rewrite lookup_app_l by lia.
  - cbn [concat Nat.mul]. rewrite lookup_app_r by lia. rewrite <- (IH i Hi Ho). f_equal. lia.
Qed.

Lemma uld8_law cur k l tabs U q va : runs_in cur k l tabs U q -> 0 <= va < Z.of_nat (length U) * PGSIZE ->
  exists c, umem (km (kp k)) U !! Z.to_nat va = Some c /\ uld8 cur va k = Ret k c.
Proof.
  intros HR Hva. destruct HR as [L Hus]. destruct (page_of U va Hva) as (p & f & Hi). pose proof (Z.mod_pos_bound va PGSIZE ltac:(done)) as Hm.
  pose proof (ki_mem _ _ _ (vm_kalloc _ _ _ _ _ (us_vm _ _ _ _ _ _ _ Hus))) as Hpg.
  pose proof (proj1 (Forall_lookup _ _) (us_page _ _ _ _ _ _ _ Hus) _ _ Hi) as (Hv & _).
  destruct (byte_in_page kend p (va mod PGSIZE) Hv Hm) as (Fp & Op & _).
  destruct (lookup_lt_is_Some_2 (page_at (mem (km (kp k))) (frame p)) (Z.to_nat (va mod PGSIZE))) as [c Lc]; [rewrite Hpg; lia|].
  exists c. split.
  - unfold umem. replace (Z.to_nat va) with (Z.to_nat (va / PGSIZE) * Z.to_nat PGSIZE + Z.to_nat (va mod PGSIZE))%nat.
    + rewrite (concat_lookup _ _ _ (page_at (mem (km (kp k))) (frame p))); [done| | |lia].
      * unfold ucontent. apply Forall_fmap, Forall_true. intros x. apply Hpg.
      * unfold ucontent. by rewrite list_lookup_fmap, Hi.
    + pose proof (Z.div_mod va PGSIZE ltac:(done)). pose proof (Z.div_pos va PGSIZE). assert (0 < PGSIZE) by done.
      rewrite <- Z2Nat.inj_mul, <- Z2Nat.inj_add by lia. f_equal. lia.
  - unfold uld8, translate. erewrite bind_ret.
    2:{ erewrite bind_ret by (by apply me_ret). erewrite bind_ret; [|apply inmem_ret; eapply mmu_user; [exact Hus|lia|exact Hi|done]].
        by rewrite set_km_same. }
    erewrite bind_ret; [|by apply inmem_ret]. rewrite set_km_same. rewrite Fp, Op. unfold sub_bytes. change (Z.to_nat 1) with 1%nat.
    rewrite (drop_S _ c) by done. done.
Qed.

Lemma space_end s l d tabs U : uspace kend K s l d tabs U -> Z.of_nat (length U) * PGSIZE <= KERNBASE.
Proof.
  intros Hus. pose proof (us_len _ _ _ _ _ _ _ Hus) as HL. change (KERNBASE / PGSIZE) with 524288 in HL.
  unfold PGSIZE, KERNBASE. lia.
Qed.

Lemma uload_law cur k l tabs U q n va : runs_in cur k l tabs U q -> 0 <= va ->
  va + Z.of_nat n <= Z.of_nat (length U) * PGSIZE ->
  uload cur va n k = Ret k (sub_bytes (umem (km (kp k)) U) (Z.to_nat va) n).
Proof.
  intros HR. pose proof (space_end _ _ _ _ _ (ri_space _ _ _ _ _ _ HR)) as HE. unfold KERNBASE in HE.
  revert va. induction n as [|n IH]; intros va Hva He; [done|]. cbn [uload].
  destruct (uld8_law _ _ _ _ _ _ va HR ltac:(lia)) as (c & Lc & Rc). erewrite bind_ret by exact Rc.
  rewrite (u32_small (va + 1)) by (unfold is_u32; lia). erewrite bind_ret by (apply IH; lia).
  unfold sub_bytes, ret. do 2 f_equal. rewrite (drop_S _ _ _ Lc). cbn [take]. do 3 f_equal. lia.
Qed.

(** Every page can be written. *)
Definition all_writable (U : list (Z * Z)) : Prop := Forall (fun pf => hasf PTE_W pf.2 = true) U.

Lemma ust8_law cur k l tabs U q va v : runs_in cur k l tabs U q -> all_writable U -> 0 <= va < Z.of_nat (length U) * PGSIZE ->
  exists s', let k' := set_kp (set_km s' (kp k)) k in
    ust8 cur va v k = Ret k' tt /\ runs_in cur k' l tabs U q /\
    umem s' U = <[Z.to_nat va := u8 v]> (umem (km (kp k)) U).
Proof.
  intros [L Hus] HW Hva. destruct (page_of U va Hva) as (p & f & Hi). pose proof (Z.mod_pos_bound va PGSIZE ltac:(done)) as Hm.
  destruct (store_user kend (km (kp k)) l (pgdir q) tabs U _ p f (va mod PGSIZE) [u8 v] Hus Hi Hm ltac:(cbn; lia)) as (Hus' & Hc & _).
  set (s' := upd_mem _ _) in *. exists s'. cbv zeta. split_and!.
  - unfold ust8, translate. erewrite bind_ret.
    2:{ erewrite bind_ret by (by apply me_ret). erewrite bind_ret; [|apply inmem_ret; eapply mmu_user; [exact Hus|lia|exact Hi|]].
        - by rewrite set_km_same.
        - intros _. exact (proj1 (Forall_lookup _ _) HW _ _ Hi). }
    by apply inmem_ret.
  - by split.
  - unfold umem. rewrite Hc. rewrite (memmove_in_concat (Z.to_nat PGSIZE)).
    + unfold memmove_in. cbn [list_inserts]. f_equal.
      pose proof (Z.div_mod va PGSIZE ltac:(done)). pose proof (Z.div_pos va PGSIZE). assert (0 < PGSIZE) by done.
      rewrite <- Z2Nat.inj_mul, <- Z2Nat.inj_add by lia. f_equal. lia.
    + unfold ucontent. apply Forall_fmap, Forall_true. intros x. apply (ki_mem _ _ _ (vm_kalloc _ _ _ _ _ (us_vm _ _ _ _ _ _ _ Hus))).
    + unfold ucontent. by rewrite list_lookup_fmap, Hi.
    + cbn. assert (PGSIZE = 4096) as EP by done. lia.
Qed.

Lemma ustore_law cur k l tabs U q bs va : runs_in cur k l tabs U q -> all_writable U -> byte_list bs -> 0 <= va ->
  va + Z.of_nat (length bs) <= Z.of_nat (length U) * PGSIZE ->
  exists s', let k' := set_kp (set_km s' (kp k)) k in
    ustore cur va bs k = Ret k' tt /\ runs_in cur k' l tabs U q /\
    umem s' U = memmove_in (umem (km (kp k)) U) (Z.to_nat va) bs.
Proof.
  intros HR HW Hb. revert k va HR. induction Hb as [|c bs Hc Hb IH]; intros k va HR Hva He.
  { exists (km (kp k)). cbv zeta. rewrite set_km_same. done. }
  cbn [length] in He. pose proof (space_end _ _ _ _ _ (ri_space _ _ _ _ _ _ HR)) as HE. unfold KERNBASE in HE.
  destruct (ust8_law _ _ _ _ _ _ va c HR HW ltac:(lia)) as (s1 & R1 & HR1 & M1).
  destruct (IH _ (va + 1) HR1 ltac:(lia) ltac:(lia)) as (s2 & R2 & HR2 & M2).
  exists s2. cbv zeta. cbn [ustore]. erewrite bind_ret by exact R1. rewrite (u32_small (va + 1)) by (unfold is_u32; lia).
  split_and!; [exact R2|exact HR2|]. rewrite M2. cbn [kp set_kp km set_km]. rewrite M1. unfold memmove_in. cbn [list_inserts].
  replace (Z.to_nat (va + 1)) with (S (Z.to_nat va)) by lia. unfold u8. rewrite Z.mod_small by (change (2 ^ 8) with 256; lia).
  symmetry. apply list_insert_inserts_lt. lia.
Qed.

Lemma scan_law cur k l tabs U q n va : runs_in cur k l tabs U q -> 0 <= va ->
  va + Z.of_nat n <= Z.of_nat (length U) * PGSIZE ->
  exists r, scan cur n va k = Ret k r /\
    let b := sub_bytes (umem (km (kp k)) U) (Z.to_nat va) n in
    match r with
    | Some s => exists rest, b = s ++ 0 :: rest /\ 0 ∉ s
    | None => 0 ∉ b
    end.
Proof.
  intros HR. pose proof (space_end _ _ _ _ _ (ri_space _ _ _ _ _ _ HR)) as HE. unfold KERNBASE in HE.
  revert va. induction n as [|n IH]; intros va Hva He.
  { exists None. split; [done|]. apply not_elem_of_nil. }
  destruct (uld8_law _ _ _ _ _ _ va HR ltac:(lia)) as (c & Lc & Rc).
  assert (sub_bytes (umem (km (kp k)) U) (Z.to_nat va) (S n) = c :: sub_bytes (umem (km (kp k)) U) (Z.to_nat (va + 1)) n) as Eb.
  { unfold sub_bytes. rewrite (drop_S _ _ _ Lc). cbn [take]. do 3 f_equal. lia. }
  cbn [scan]. cbv zeta. rewrite Eb. destruct (Z.eqb_spec c 0) as [->|Hc].
  - exists (Some []). erewrite bind_ret by exact Rc. split; [done|]. eexists. split; [done|]. apply not_elem_of_nil.
  - destruct (IH (va + 1) ltac:(lia) ltac:(lia)) as (r & R & Hr). exists (cons c <$> r). split.
    + erewrite bind_ret by exact Rc. rewrite (proj2 (Z.eqb_neq _ _) Hc), (u32_small (va + 1)) by (unfold is_u32; lia).
      by erewrite bind_ret by exact R.
    + cbv zeta in Hr. destruct r as [s|]; cbn.
      * destruct Hr as (rest & -> & Hs). exists rest. split; [done|]. by apply not_elem_of_cons.
      * by apply not_elem_of_cons.
Qed.

(** C19: the arguments of system calls are read from the memory of the process
    and never make the kernel fault: with the size of the process covered by
    its pages, for every 32-bit address [fetchint] returns the word there
    when it lies below the size and -1 otherwise, and [fetchstr] returns the
    bytes up to the first terminator when there is one below the size and -1
    otherwise, with nothing changed. *)
Theorem fetch_reads_user_memory cur k l tabs U q addr :
  runs_in cur k l tabs U q -> 0 <= sz q <= Z.of_nat (length U) * PGSIZE -> is_u32 addr ->
  let m := umem (km (kp k)) U in
  fetchint cur addr k = Ret k (if decide (addr + 4 <= sz q) then Some (i32 (rd32 m (Z.to_nat addr))) else None) /\
  exists r, fetchstr cur addr k = Ret k r /\
    let b := sub_bytes m (Z.to_nat addr) (Z.to_nat (sz q - addr)) in
    match r with
    | Some s => exists rest, b = s ++ 0 :: rest /\ 0 ∉ s
    | None => 0 ∉ b
    end.
Proof.
  intros HR Hsz Ha m. pose proof (space_end _ _ _ _ _ (ri_space _ _ _ _ _ _ HR)) as HE. unfold KERNBASE in HE.
  unfold is_u32 in Ha. split.
  - unfold fetchint. erewrite bind_ret by (apply me_ret, HR).
    destruct (Z.leb_spec (sz q) addr); cbn [orb]; [by rewrite decide_False by lia|]. rewrite (u32_small (addr + 4)) by (unfold is_u32; lia).
    destruct (Z.ltb_spec (sz q) (addr + 4)); [by rewrite decide_False by lia|]. rewrite decide_True by lia.
    by erewrite bind_ret by (eapply uload_law; [exact HR|lia|lia]).
  - unfold fetchstr. destruct (Z.leb_spec (sz q) addr) as [Hle|Hlt].
    + exists None. erewrite bind_ret by (apply me_ret, HR). rewrite (proj2 (Z.leb_le _ _) Hle). split; [done|].
      replace (Z.to_nat (sz q - addr)) with 0%nat by lia. apply not_elem_of_nil.
    + destruct (scan_law cur k l tabs U q (Z.to_nat (sz q - addr)) addr HR) as (r & R & Hr); [lia|lia|].
      exists r. erewrite bind_ret by (apply me_ret, HR). by rewrite (proj2 (Z.leb_gt _ _) Hlt).
Qed.
End user.

(** A kernel around an address space. *)
Definition kernel_with (s : kmem) (q : proc) : kernel :=
  mk_kernel (mk_psys [q] 2 0 (Some 0%nat) Rand.rng_boot s)
    (Fs.mk_fs (Log.mk_sb 0 0 0 0 0 0 0) [] (Log.mk_ls (Log.mk_log 0 0 0 0 0 0 []) (Buf.mk_bio [] None ∅ [] []))) [] ∅ 0 [].
Definition proc_with (d n : Z) : proc := mk_proc n d 0 RUNNING 1 None 0 0 None 0 [] None [] 10.

Lemma fetch_reads_user_memory_witness :
  exists k r, fetchint 0 4000 k = Ret k r /\ r <> None /\ fetchint 0 4093 k = Ret k None.
Proof.
  destruct demo_one_page as (s & l & d & tabs & U & Hus & Hl & Hc & HU).
  assert (runs_in demo_end (K := no_kernel) 0 (kernel_with s (proc_with d 4096)) l tabs U (proc_with d 4096)) as HR.
  { split; [reflexivity|exact Hus]. }
  assert (0 <= 4096 <= Z.of_nat (length U) * PGSIZE) as Hsz by (rewrite Hl; split; discriminate).
  destruct (fetch_reads_user_memory demo_end 0 _ l tabs U (proc_with d 4096) 4000 HR Hsz) as [R1 _]; [split; [discriminate|reflexivity]|].
  destruct (fetch_reads_user_memory demo_end 0 _ l tabs U (proc_with d 4096) 4093 HR Hsz) as [R2 _]; [split; [discriminate|reflexivity]|].
  eexists _, _. split; [exact R1|]. split; [discriminate|exact R2].
Defined.
