(* ===== verification/FileIO.v ===== *)
(** * FileIO: reading a file through a descriptor, end to end

    [fileread] composes the inode lock, [readi] over the buffer cache, the
    copy to user memory and the offset of the open file.  The theorem puts
    the refinements of FsFile and UserMem together.  A lemma on [write_pipe]
    says how a write to a pipe that sleeps goes on. *)
From stdpp Require Import base numbers list gmap strings.
From Stdlib Require Import ZArith Lia.
From S2P Require Import Prelude Bytes Kalloc Vm Proc Buf Bio Log Fs FsBlock FsFile Pipe Kernel Args Files FilesInv UserMem.

Local Open Scope Z_scope.

(** ** The file system inside the kernel *)

Lemma infs_ret {A} (m : M fs_state A) k f (a : A) : m (kf k) = Ret f a -> infs m k = Ret (settle f k) a.
Proof. apply zoom_ret. Qed.

Lemma deliver_running cs ps cur q : ps !! cur = Some q -> pstate q <> SLEEPING -> deliver cs ps !! cur = Some q.
Proof.
  revert ps. induction cs as [|c cs IH]; intros ps L Hq; [done|]. cbn. apply IH; [|done].
  unfold wakeup1. rewrite list_lookup_fmap, L. cbn. by rewrite decide_False by (intros [? _]; done).
Qed.

(** ** Writing to a pipe *)

(** A write that sleeps at byte [j] has put the bytes from [i] to [j] into the
    pipe, in order; the rest is left to the call that goes on at [j]. *)
Lemma write_pipe_goes_on cur a addr n i k k' q p src j : ptable (kp k) !! cur = Some q -> pipes k !! a = Some p -> pipe_ok p ->
  uload cur (u32 (addr + Z.of_nat i)) (Z.to_nat n - i) k = Ret k src -> write_pipe cur a addr n i k = Ret k' (Asleep j) ->
  exists p', pipes k' !! a = Some p' /\ pipe_ok p' /\ (i <= j < i + length src)%nat /\ queue p' = queue p ++ take (j - i) src.
Proof.
  intros Hq Hp HP Rl. unfold write_pipe. mrun (me_ret cur k q Hq). mrun Rl. intros R.
  apply inpipe_inv in R as (p0 & s' & Hp0 & R & ->). rewrite Hp in Hp0. injection Hp0 as <-.
  destruct (pipewrite_from_law a (negb (killed q =? 0)) n i src (mk_pst p []) HP) as (s1 & ans & m & R1 & HP1 & _ & Hm & _ & HQ & Hans).
  rewrite R in R1. injection R1 as <- <-. exists (pp s'). cbn. rewrite lookup_insert_eq. split; [done|]. split; [done|].
  destruct (decide (m = length src)) as [|Hne]; [by destruct Hans|]. destruct Hans as [_ Hans]. destruct (_ || _); [by destruct Hans|].
  destruct Hans as [[= ->] _]. split; [lia|]. by replace (i + m - i)%nat with m by lia.
Qed.

Section io.
Context `{BlockDriver}.

Lemma tx_woken c l held L V w : tx c l held L V -> tx c (mk_ls (lg l) (set_woken w (bio l))) held L V.
Proof.
  intros [[H1 H2 H3 H4 H5 H6] Hv Hc].
  destruct (inv_links (bio l) (set_woken w (bio l)) held (list_to_set L)) as [Hb Hblk]; [done|done|done| | |].
  - apply driver_ok_woken. by eapply inv_driver.
  - exact (inv_order _ _ _ H4).
  - split; [by split|intros n; cbn; by rewrite Hblk|done].
Qed.

(** The lock of an inode nobody holds, already read from disk. *)
Lemma ilock_free s i ip : icache s !! i = Some ip -> 1 <= iref ip -> hasf I_BUSY (iflags ip) = false ->
  hasf I_VALID (iflags ip) = true ->
  ilock i s = Ret (with_ip s i (set_iflags (Z.lor (iflags ip) I_BUSY) ip) (fls s)) tt.
Proof.
  intros Hi Hr Hb Hv. unfold ilock. mrun (inode_at_ret _ _ _ Hi). rewrite (proj2 (Z.ltb_ge _ _)), Hb by lia.
  erewrite bind_ret by (by apply upd_inode_ret). by rewrite Hv.
Qed.

Lemma iunlock_held s i ip : icache s !! i = Some ip -> 1 <= iref ip -> hasf I_BUSY (iflags ip) = true ->
  iunlock i s = Ret (with_ip s i (set_iflags (Z.land (iflags ip) (Z.lnot I_BUSY)) ip)
    (mk_ls (lg (fls s)) (add_woken (ChInode i) (bio (fls s))))) tt.
Proof.
  intros Hi Hr Hb. unfold iunlock. mrun (inode_at_ret _ _ _ Hi). rewrite Hb, (proj2 (Z.ltb_ge _ _)) by lia. cbn [negb orb].
  erewrite bind_ret by (by apply upd_inode_ret). done.
Qed.

Lemma busy_lor x : hasf I_BUSY (Z.lor x I_BUSY) = true.
Proof. rewrite hasf_lor. apply orb_true_r. Qed.

Lemma file_ok_flags sb V fl ip : file_ok sb V ip -> file_ok sb V (set_iflags fl ip).
Proof. intros [? ? ? ? ? ?]. by split. Qed.
Lemma content_flags V fl ip : content V (set_iflags fl ip) = content V ip.
Proof. done. Qed.

Lemma flags_unlock x : hasf I_BUSY x = false -> Z.land (Z.lor x I_BUSY) (Z.lnot I_BUSY) = x.
Proof.
  intros Hb. apply Z.bits_inj'. intros n Hn. rewrite Z.land_spec, Z.lor_spec, Z.lnot_spec by done.
  unfold I_BUSY in *. destruct (decide (n = 0)) as [->|Hne].
  - change (Z.testbit 1 0) with true. rewrite orb_true_r. cbn. symmetry. unfold hasf in Hb. apply negb_false_iff, Z.eqb_eq in Hb.
    assert (Z.testbit (Z.land x 1) 0 = false) as H0 by (by rewrite Hb). rewrite Z.land_spec in H0. by rewrite andb_true_r in H0.
  - assert (Z.testbit 1 n = false) as ->. { change 1 with (2 ^ 0). apply Z.pow2_bits_false. lia. }
    by rewrite orb_false_r, andb_true_r.
Qed.

(** A kernel with the process running in its address space and the file
    system in the state of the transaction. *)
Record io_ok (c : txc) (kend : Z) (K : Z -> Z) (cur : nat) (k : kernel) l tabs U q L V : Prop := {
  io_run : runs_in kend (K := K) cur k l tabs U q;
  io_awake : pstate q <> SLEEPING;
  io_tx : tx c (fls (kf k)) ∅ L V
}.

Lemma io_infs {A} c c' (m : M fs_state A) kend K cur k l tabs U q L V f (a : A) L' V' :
  io_ok c kend K cur k l tabs U q L V -> m (kf k) = Ret f a -> tx c' (fls f) ∅ L' V' ->
  exists k', infs m k = Ret k' a /\ io_ok c' kend K cur k' l tabs U q L' V' /\
    km (kp k') = km (kp k) /\ ftable k' = ftable k /\ fsb (kf k') = fsb f /\ icache (kf k') = icache f.
Proof.
  intros [[Hq Hus] Ha HT] R HT'. exists (settle f k). split; [by apply infs_ret|]. split_and!; try done.
  split; [split|done|].
  - by apply deliver_running.
  - done.
  - by apply tx_woken.
Qed.

(** C18: reading a file through a descriptor delivers the contents of the file:
    with the inode unlocked and in memory, [fileread] of [n] bytes at [addr]
    returns as many bytes as the file has from the offset of the open file
    on, at most [n]; they are stored at [addr] and nothing else of the user's
    memory changes; the offset moves on by as much; the inode is unlocked
    again, and neither the file nor any other block has changed. *)
Theorem fileread_delivers {c} sb (HG : fs_geom c sb) kend K cur k l tabs U q L V devsw f fl i ip addr n :
  io_ok c kend K cur k l tabs U q L V -> all_writable U ->
  ftable k !! f = Some fl -> ftyp fl = FD_INODE -> readable fl <> 0 -> fip fl = Some i ->
  icache (kf k) !! i = Some ip -> 1 <= iref ip -> hasf I_BUSY (iflags ip) = false -> hasf I_VALID (iflags ip) = true ->
  file_ok sb V ip -> byte_list (content V ip) -> 0 <= foff fl <= isize ip -> 0 <= n < 2 ^ 31 ->
  0 <= addr -> addr + n <= Z.of_nat (length U) * PGSIZE ->
  let m := Z.min n (isize ip - foff fl) in
  exists k', fileread cur devsw f addr n k = Ret k' m /\
    io_ok c kend K cur k' l tabs U q L V /\
    umem (km (kp k')) U = memmove_in (umem (km (kp k)) U) (Z.to_nat addr) (sub_bytes (content V ip) (Z.to_nat (foff fl)) (Z.to_nat m)) /\
    ftable k' = <[f := set_foff (foff fl + m) fl]> (ftable k) /\ icache (kf k') = icache (kf k).
Proof.
  intros HI HW Lf Ht Hr Hip Li Href Hb Hv HF Hby Ho Hn Ha He m.
  pose proof (fo_size _ _ _ HF) as Hsz. assert (is_u32 n) by (unfold is_u32; lia).
  assert (isize ip <= 71680) as Hmax by (unfold MAXFILE, BSIZEz in Hsz; lia).
  unfold fileread. assert (file_at f k = Ret k fl) as Rf by (unfold file_at, bind, gets; by rewrite Lf).
  mrun Rf. rewrite (proj2 (Z.eqb_neq _ _)), Ht, Hip by done. rewrite from_opt_bind.
  destruct (io_infs c c _ _ _ _ _ _ _ _ _ _ _ _ _ L V HI (ilock_free (kf k) i ip Li Href Hb Hv)) as (k1 & R1 & HI1 & Ek1 & Ef1 & Es1 & Ei1); [apply HI|].
  mrun R1. assert (file_at f k1 = Ret k1 fl) as Rf1 by (unfold file_at, bind, gets; by rewrite Ef1, Lf). mrun Rf1.
  set (ip1 := set_iflags (Z.lor (iflags ip) I_BUSY) ip) in *. cbn [icache with_ip] in Ei1.
  assert (icache (kf k1) !! i = Some ip1) as Li1 by (rewrite Ei1; apply list_lookup_insert_eq; by eapply lookup_lt_Some).
  rewrite (u32_small n) by done.
  pose proof (readi_law HG devsw (kf k1) i ip1 L V (foff fl) n (io_tx _ _ _ _ _ _ _ _ _ _ _ HI1) Li1 (file_ok_flags _ _ _ _ HF)) as HR.
  rewrite decide_True in HR by (cbn; lia). destruct HR as (l2 & R2 & HT2); [unfold is_u32; lia|done|].
  destruct (io_infs c c _ _ _ _ _ _ _ _ _ _ _ _ _ L V HI1 R2 HT2) as (k2 & R2' & HI2 & Ek2 & Ef2 & Es2 & Ei2). mrun R2'.
  change (isize ip1) with (isize ip). fold m. change (content V ip1) with (content V ip).
  set (bs := sub_bytes (content V ip) (Z.to_nat (foff fl)) (Z.to_nat m)).
  assert (length bs = Z.to_nat m) as Hlen by (unfold bs; apply sub_bytes_length; rewrite content_length; lia).
  destruct (ustore_law kend cur k2 l tabs U q bs addr (io_run _ _ _ _ _ _ _ _ _ _ _ HI2) HW) as (s3 & R3 & HR3 & M3);
    [by apply byte_list_sub|done|lia|]. mrun R3. set (k3 := set_kp _ k2) in *.
  assert (ftable k3 !! f = Some fl) as Lf3 by (cbn; by rewrite Ef2, Ef1).
  set (k4 := set_ftable (<[f := set_foff (foff fl + m) fl]> (ftable k)) k3).
  assert (whenM (0 <? m) (upd_file f (fun x => set_foff (u32 (foff x + m)) x)) k3 = Ret k4 tt) as R4.
  { assert (ftable k3 = ftable k) as Ef3 by (cbn; by rewrite Ef2, Ef1). unfold whenM, k4. destruct (Z.ltb_spec 0 m).
    - unfold upd_file, file_at, bind, gets. rewrite Lf3. cbn [from_opt ret]. rewrite (u32_small (foff fl + m)) by (unfold is_u32; lia).
      unfold modify. by rewrite Ef3.
    - replace m with 0 by lia. rewrite Z.add_0_r, list_insert_id by (rewrite Lf; by destruct fl). rewrite <- Ef3. unfold ret. by destruct k3. }
  mrun R4. cbn [icache at_log] in Ei2.
  assert (icache (kf k4) !! i = Some ip1) as Li4 by (change (kf k4) with (kf k2); by rewrite Ei2).
  assert (io_ok c kend K cur k4 l tabs U q L V) as HI4 by (split; [by destruct HR3|apply HI|apply HI2]).
  destruct (io_infs c c _ _ _ _ _ _ _ _ _ _ _ _ _ L V HI4 (iunlock_held (kf k4) i ip1 Li4 Href (busy_lor _))) as (k5 & R5 & HI5 & Ek5 & Ef5 & Es5 & Ei5).
  { apply tx_woken. apply HI4. }
  mrun R5. exists k5. split_and!; [done|done| | |].
  - rewrite Ek5. change (km (kp k4)) with s3. rewrite M3. by rewrite Ek2, Ek1.
  - by rewrite Ef5.
  - rewrite Ei5. cbn [icache with_ip]. change (kf k4) with (kf k2). rewrite Ei2, Ei1, list_insert_insert_eq.
    apply list_insert_id. rewrite Li. f_equal. unfold ip1. cbn [iflags set_iflags]. rewrite flags_unlock by done. by destruct ip.
Qed.
End io.

(** ** A process that reads the file of FsFile *)

#[local] Existing Instance mem_driver.

Lemma demo_writable_page : exists s l d tabs U,
  uspace demo_end no_kernel s l d tabs U /\ length U = 1%nat /\ all_writable U.
Proof.
  destruct (demo_uspace 5) as (s & l & d & Hus & Hl); [lia|].
  destruct (alloc_loop_law demo_end (K := no_kernel) 1 2 s l d ∅ [] 0 PGSIZE)
    as (s' & l' & tabs' & new & _ & Hus' & Hlen & Hfl & _); [lia|done|lia|done|done|done|].
  exists s', l', d, tabs', new. split_and!; [done|done|].
  apply Forall_lookup. intros i [p f] Hi. pose proof (proj1 (Forall_lookup _ _) Hfl _ _ Hi) as E. cbn in E. cbn. by rewrite E.
Qed.

Definition demo_open : file := mk_file FD_INODE 1 1 0 0 (Some 0%nat) 1.
Definition demo_idle_inode : inode := set_iflags I_VALID demo_inode.

Lemma fileread_delivers_witness : exists k k' U,
  fileread 0 [] 0 200 100 k = Ret k' 4 /\
  umem (km (kp k')) U = memmove_in (umem (km (kp k)) U) 200 [101; 108; 108; 111] /\ foff <$> ftable k' !! 0%nat = Some 5.
Proof.
  destruct demo_writable_page as (s & lf & d & tabs & U & Hus & HU & HW).
  destruct demo_tx as (c & l & V & HT & HG & Hs & Ho & _ & Hbm & Htx).
  set (k := mk_kernel (kp (kernel_with s (proc_with d 4096))) (mk_fs demo_super [demo_idle_inode] l) [demo_open] ∅ 0 []).
  assert (io_ok c demo_end no_kernel 0 k lf tabs U (proc_with d 4096) [] V) as HI.
  { split; [split; [reflexivity|exact Hus]|discriminate|exact HT]. }
  destruct (fileread_delivers demo_super HG demo_end no_kernel 0 k lf tabs U (proc_with d 4096) [] V [] 0 demo_open 0 demo_idle_inode 200 100 HI HW)
    as (k' & R & _ & HM & HF & _); try done.
  - exact (file_ok_flags _ _ _ _ (demo_file_ok V Hbm)).
  - unfold demo_idle_inode. rewrite content_flags, demo_content by exact Htx. by repeat constructor.
  - rewrite HU. by vm_compute.
  - exists k, k', U. split; [exact R|]. split.
    + rewrite HM. unfold demo_idle_inode. by rewrite content_flags, demo_content by exact Htx.
    + by rewrite HF.
Defined.
