(* ===== verification/Durable.v ===== *)
(** * Durable: what a crash leaves of a write

    [filewrite] composes the log, the inode layer, the copy from user memory
    and the offset of the open file, one transaction for each chunk.  The
    theorem puts the refinement of [writei] (FsWrite), the atomicity of the
    commit (Log) and recovery together: whatever the disk write at which the
    machine stops, the file that recovery finds has the old bytes with some
    of the whole chunks of the write stored in it, all of them once
    [filewrite] has returned, and every other file is as it was. *)
From stdpp Require Import base numbers list gmap strings.
From Stdlib Require Import ZArith Lia.
From S2P Require Import Prelude Bytes Kalloc Vm Proc Buf Bio Log Fs FsBlock FsFile FsWrite Pipe Kernel Args FilesInv UserMem FileIO.

Local Open Scope Z_scope.

(** ** The log between transactions *)

Definition at_rest (c : txc) : Prop := c_out c = 0 /\ c_com c = 0.

(** The same disk inside an operation, and after the writes [W]. *)
Definition in_op (c : txc) : txc := mk_txc (c_dsk c) (c_trace c) 1 (c_com c) (c_start c) (c_size c).
Definition after (c : txc) (W : list (Z * block)) : txc :=
  mk_txc (apply_writes (c_dsk c) W) (c_trace c ++ W) 0 0 (c_start c) (c_size c).

(** The views agree outside the log. *)
Definition same_home (c : txc) (V V' : Z -> block) : Prop :=
  forall n, ~ (c_start c <= n < c_start c + c_size c) -> V' n = V n.

Lemma same_home_trans c c' V1 V2 V3 : c_start c' = c_start c -> c_size c' = c_size c ->
  same_home c V1 V2 -> same_home c' V2 V3 -> same_home c V1 V3.
Proof. intros E1 E2 H1 H2 n Hn. rewrite H2, H1; [done..|by rewrite E1, E2]. Qed.

Section rest.
Context `{BlockDriver}.

Lemma tx_begin c l V : tx c l ∅ [] V -> at_rest c -> exists l', begin_op l = Ret l' tt /\ tx (in_op c) l' ∅ [] V.
Proof.
  intros [HL Hv Hc] [Ho Hm]. destruct l as [l b]. cbn [lg bio] in *. subst c. cbn in Ho, Hm.
  pose proof (li_mem _ _ _ HL) as [En _]. cbn in En. exists (mk_ls (set_outstanding 1 l) b). split.
  - unfold begin_op. mrun (getlog_ret (mk_ls l b)). cbn [lg]. rewrite Hm, Ho, En. reflexivity.
  - split; [by apply (log_inv_counts l)|done|done].
Qed.

(** Rebooting with the disk [D] succeeds and leaves the log at rest with the
    contents [F]. *)
Definition reboots_to (c : txc) (D : gmap Z block) (F : Z -> block) : Prop :=
  (exists r, recover D = Ret r tt) /\
  forall r, recovery D r -> exists c', tx c' r ∅ [] (blk (bio r)) /\ at_rest c' /\
    c_start c' = c_start c /\ c_size c' = c_size c /\ same_home c F (blk (bio r)).

Lemma recoverable_reboots c l held L V D F : tx c l held L V -> recoverable (lg l) D F -> reboots_to c D F.
Proof.
  intros HT Hrec. pose proof (li_geom _ _ _ (tx_log _ _ _ _ _ HT)) as Hg. pose proof (tx_const _ _ _ _ _ HT) as <-.
  destruct (recover_recoverable (lg l) D F Hg Hrec) as (r & R & _). split; [by exists r|]. clear r R. intros r Hr.
  destruct (recovery_rest (lg l) D F r Hg Hr Hrec) as (HI & HF & E1 & E2 & E3 & E4).
  exists (mk_txc (dsk (bio r)) (trace (bio r)) 0 0 (lstart (lg r)) (lsize (lg r))). split_and!; try done.
  split; [done|done|by rewrite E3, E4].
Qed.

Lemma rest_reboots c l V : tx c l ∅ [] V -> reboots_to c (c_dsk c) V.
Proof.
  intros HT. eapply recoverable_reboots; [exact HT|]. pose proof HT as [[Hg Hh Hm Hb Hd Hs] Hv Hc]. subst c. cbn.
  split; [exact (inv_disk _ _ _ Hb)|]. split; [done|]. exists []. split; [done|]. split; [done|]. intros m _.
  rewrite content_nil. symmetry. rewrite <- Hv. by eapply blk_clean.
Qed.

(** The end of the operation, and what a crash during it leaves. *)
Lemma tx_end c l L V : tx (in_op c) l ∅ L V -> at_rest c -> exists l' W V',
  end_op l = Ret l' tt /\ tx (after c W) l' ∅ [] V' /\ same_home c V V' /\
  forall j, reboots_to c (apply_writes (c_dsk c) (take j W)) (if decide (j <= length L)%nat then disk_read (c_dsk c) else V).
Proof.
  intros HT [Ho Hm]. pose proof HT as [HL Hv Hc]. unfold in_op in Hc. injection Hc as E1 E2 E3 E4 E5 E6. rewrite Hm in E4.
  destruct (end_op_last l L HL E3 E4) as (l' & W & R & HI & Ho' & Hc' & S1 & S2 & B & D & T & Hk).
  exists l', W, (blk (bio l')). split_and!; [done| | |].
  - split; [done|done|]. unfold after. by rewrite D, T, Ho', Hc', S1, S2, E1, E2, E5, E6.
  - intros n Hn. rewrite B; [by apply Hv|]. unfold in_log. by rewrite E5, E6.
  - intros j. specialize (Hk j). rewrite E1 in Hk. eapply (recoverable_reboots (in_op c)) in Hk; [|exact HT].
    destruct Hk as [Hr Hrec]. split; [done|]. intros r Hr'. destruct (Hrec r Hr') as (c' & HT' & Hat & Es & Ez & Hsame).
    exists c'. split_and!; try done. intros n Hn. rewrite (Hsame n Hn). case_decide; [done|]. apply Hv.
Qed.
End rest.

(** ** Files *)

Section files.
Context {sb : superblock}.

(** The file of inode [n] on disk. *)
Definition is_file (V : Z -> block) (ip : inode) : Prop :=
  file_ok sb V ip /\ inode_typed ip /\ stored (sb := sb) V ip /\ itype ip <> 0 /\ 0 <= inum ip < sb_ninodes sb.

(** Another file, of the bytes [C], beside [ip]. *)
Definition beside (V : Z -> block) (ip jp : inode) (C : list Z) : Prop :=
  is_file V jp /\ inum jp <> inum ip /\ content V jp = C /\ forall b, owns V jp b -> ~ owns V ip b.

Lemma typed_flags g ip : inode_typed ip -> inode_typed (set_iflags g ip).
Proof. intros []. by split. Qed.

Lemma stored_flags V g ip : stored (sb := sb) V ip -> stored (sb := sb) V (set_iflags g ip).
Proof. unfold stored. intros E. transitivity (set_iflags g (dinode_at (sb := sb) V (inum ip) ip)); [done|by rewrite E]. Qed.

Lemma set_iflags_twice g g' ip : set_iflags g (set_iflags g' ip) = set_iflags g ip.
Proof. done. Qed.
Lemma set_iflags_same ip : set_iflags (iflags ip) ip = ip.
Proof. by destruct ip. Qed.

(** The lock of the inode does not matter to what is written. *)
Lemma written_flags V g ip off src V' ip' : file_written (sb := sb) V (set_iflags g ip) off src V' ip' ->
  file_written (sb := sb) V ip off src V' (set_iflags (iflags ip) ip').
Proof.
  intros [W1 W2 W3 W4 W5 W6 W7 W8]. split; try done.
  - by apply file_ok_flags.
  - rewrite W3 at 1. by destruct ip.
  - intros Hl Ht Hst. destruct (W4 Hl (typed_flags _ _ Ht)); [destruct Hst as [Hg|Hst]; [by left|right; by apply stored_flags]|]. split; [by apply typed_flags|by apply stored_flags].
Qed.

Context {c : txc} (HG : fs_geom c sb).

Lemma home_outside n : sb_inodestart sb <= n -> ~ (c_start c <= n < c_start c + c_size c).
Proof. destruct HG. lia. Qed.

Lemma data_outside b : is_data sb b -> sb_inodestart sb <= b.
Proof.
  intros [Hb _]. destruct HG. pose proof (Z.div_pos (sb_ninodes sb - 1) IPB). unfold IPB in *. lia.
Qed.

Lemma inode_outside n : 0 <= n < sb_ninodes sb -> sb_inodestart sb <= IBLOCK n sb.
Proof. intros Hn. destruct (inode_home HG n Hn) as (_ & E & _). rewrite E. pose proof (Z.div_pos n IPB). unfold IPB in *. lia. Qed.

Lemma bitmap_outside : sb_inodestart sb <= sb_bmapstart sb.
Proof. destruct HG. pose proof (Z.div_pos (sb_ninodes sb - 1) IPB). unfold IPB in *. lia. Qed.

(** A file whose blocks and dinode are the same. *)
Lemma is_file_frame V V' ip : is_file V ip -> (forall n, owns V ip n -> V' n = V n) ->
  (forall b, is_data sb b -> used sb V b = true -> used sb V' b = true) ->
  (forall x, dinode_at (sb := sb) V' (inum ip) x = dinode_at (sb := sb) V (inum ip) x) ->
  is_file V' ip /\ content V' ip = content V ip /\ forall n, owns V' ip n <-> owns V ip n.
Proof.
  intros (HF & Ht & Hst & Hk & Hn) Ho Hu Hd. destruct (file_frame sb V V' ip HF Ho Hu) as (HF' & Hblk & Hy).
  split_and!; [| |].
  - split; [done|]. split; [done|]. split; [|done]. unfold stored. by rewrite Hd.
  - by eapply content_same.
  - intros n. unfold owns. by setoid_rewrite Hblk.
Qed.

(** Files do not depend on the blocks of the log. *)
Lemma is_file_home V V' ip : same_home c V V' -> is_file V ip ->
  is_file V' ip /\ content V' ip = content V ip /\ forall n, owns V' ip n <-> owns V ip n.
Proof.
  intros HV HI. pose proof HI as (HF & _ & _ & _ & Hn). apply is_file_frame; [done| | |].
  - intros n [Hd _]%(owns_data _ _ _ HF). apply HV, home_outside, data_outside, Hd.
  - intros b _. unfold used. by rewrite HV by (apply home_outside, bitmap_outside).
  - intros x. unfold dinode_at. by rewrite HV by (apply home_outside, inode_outside, Hn).
Qed.

Lemma beside_home V V' ip jp C : same_home c V V' -> is_file V ip -> beside V ip jp C -> beside V' ip jp C.
Proof.
  intros HV HI (HJ & Hne & HC & Hdis). destruct (is_file_home V V' ip HV HI) as (_ & _ & Ho).
  destruct (is_file_home V V' jp HV HJ) as (HJ' & HC' & Ho'). split_and!; [done|done|by rewrite HC'|].
  intros b. rewrite Ho, Ho'. apply Hdis.
Qed.

Lemma meta_home V V' : same_home c V V' -> meta_used sb V -> meta_used sb V'.
Proof. intros HV Hm b Hb. unfold used. rewrite HV by (apply home_outside, bitmap_outside). by apply Hm. Qed.

Lemma nfree_home V V' : same_home c V V' -> nfree sb V' = nfree sb V.
Proof. intros HV. apply nfree_ext. rewrite HV by (apply home_outside, bitmap_outside). done. Qed.

(** What a write does to the files. *)
Lemma written_file V V' ip ip' off src : (forall n, length (V' n) = BSIZE) -> is_file V ip ->
  file_written (sb := sb) V ip off src V' ip' -> is_file V' ip'.
Proof.
  intros Hl (HF & Ht & Hst & Hk & Hn) [W1 W2 W3 W4 W5 W6 W7 W8]. destruct (W4 Hl Ht (or_intror Hst)) as [Ht' Hst'].
  split; [done|]. split; [done|]. split; [done|].
  assert (itype ip' = itype ip /\ inum ip' = inum ip) as [-> ->] by (by rewrite W3). done.
Qed.

Lemma written_beside V V' ip ip' off src jp C : is_file V ip ->
  file_written (sb := sb) V ip off src V' ip' -> beside V ip jp C -> beside V' ip' jp C.
Proof.
  intros (HF & _ & _ & _ & Hn) [W1 W2 W3 W4 W5 W6 W7 W8] (HJ & Hne & HC & Hdis). pose proof HJ as (HFj & _ & _ & _ & Hnj).
  destruct (inode_home HG _ Hn) as (_ & _ & Hib).
  destruct (is_file_frame V V' jp HJ) as (HJ' & HC' & Ho').
  - intros n Ho. destruct (owns_data _ _ _ HFj Ho) as [Hd Hu]. unfold is_data in Hd. apply W8; [lia|lia|by apply Hdis|done].
  - intros b Hb Hu. apply W6; [|done]. pose proof (data_outside _ Hb). destruct HG. lia.
  - intros x. by apply W5.
  - split_and!; [done|rewrite W3; exact Hne|by rewrite HC'|]. intros b Ho Hb. rewrite Ho' in Ho.
    destruct (W7 b Hb) as [?|[_ Hu]]; [by eapply Hdis|]. destruct (owns_data _ _ _ HFj Ho) as [_ Hu']. congruence.
Qed.
End files.
Arguments is_file : clear implicits.
Arguments beside : clear implicits.

(** ** Reading a file after a reboot *)

Section io.
Context `{BlockDriver}.

(** With the log [r], an operation that locks inode [n] through a cache entry
    that has not been read yet and reads from it gets the bytes of [C]. *)
Definition reads (sb : superblock) (r : log_state) (n : Z) (C : list Z) : Prop :=
  forall devsw cache i jp off m, cache !! i = Some jp -> idev jp = ROOTDEV -> inum jp = n -> 0 < iref jp -> iflags jp = 0 ->
    0 <= off <= Z.of_nat (length C) -> 0 <= m < 2 ^ 31 -> exists s',
    let k := Z.min m (Z.of_nat (length C) - off) in
    (inlog begin_op ;;; ilock i ;;; readi devsw i off m) (mk_fs sb cache r) =
      Ret s' (k, sub_bytes C (Z.to_nat off) (Z.to_nat k)).

Lemma geom_same c c' sb : fs_geom c sb -> c_start c' = c_start c -> c_size c' = c_size c ->
  disk_read (c_dsk c') 1 = disk_read (c_dsk c) 1 -> fs_geom c' sb.
Proof. intros [G1 G2 G3 G4 G5 G6 G7 G8] E1 E2 E3. split; rewrite ?E1, ?E2, ?E3; done. Qed.

Lemma is_file_reads c sb r V ip : fs_geom c sb -> tx c r ∅ [] V -> at_rest c -> is_file sb V ip ->
  reads sb r (inum ip) (content V ip).
Proof.
  intros HG HT Hrest HI devsw cache i jp off m Hi Hdev Hnum Href Hfl Hoff Hm.
  destruct (tx_begin c r V HT Hrest) as (l1 & R1 & HT1).
  assert (fs_geom (in_op c) sb) as HG1 by (by apply (geom_same c)).
  pose proof HI as (HF & Ht & Hst & Hk & Hn). pose proof (fo_dev _ _ _ HF) as Hdi.
  set (jp' := set_iflags (Z.lor I_BUSY I_VALID) (dec_dinode (V (IBLOCK (inum jp) sb)) (dinode_off (inum jp)) jp)).
  assert (jp' = mk_inode (idev jp) (inum jp) (iref jp) (Z.lor I_BUSY I_VALID) (itype ip) (imajor ip) (iminor ip) (inlink ip) (isize ip) (addrs ip)) as Ej.
  { unfold jp'. rewrite Hnum. unfold stored, dinode_at in Hst. unfold dec_dinode, set_meta, set_iflags in *. cbn.
    rewrite <- Hst. cbn. by rewrite Hnum. }
  destruct (ilock_fresh HG1 (mk_fs sb cache l1) i jp [] V HT1 eq_refl Hi Hdev ltac:(by rewrite Hnum) Href Hfl) as (l2 & R2 & HT2);
    [fold jp'; by rewrite Ej|]. fold jp' in R2.
  assert (file_ok sb V jp') as HFj by (destruct HF as [F1 F2 F3 F4 F5 F6]; rewrite Ej; split; try done).
  assert (content V jp' = content V ip) as Hcj by (by rewrite Ej).
  rewrite content_length in *. pose proof (fo_size _ _ _ HF) as Hsz. assert (isize jp' = isize ip) as Es by (by rewrite Ej).
  pose proof (readi_law HG1 devsw (with_ip (mk_fs sb cache l1) i jp' l2) i jp' [] V off m HT2) as Hread.
  unfold MAXFILE, BSIZEz in Hsz. rewrite decide_True in Hread by lia.
  destruct Hread as (l3 & R3 & _); [by eapply with_ip_lookup|done|unfold is_u32; lia|unfold is_u32; lia|].
  rewrite Es, Hcj in R3. exists (at_log (with_ip (mk_fs sb cache l1) i jp' l2) l3). cbv zeta. rewrite Z2Nat.id by lia.
  mrun (inlog_ret begin_op (mk_fs sb cache r) l1 tt R1). cbn [at_log fsb icache]. mrun R2. exact R3.
Qed.

(** A crash that leaves the view [F] leaves its files readable. *)
Lemma reboots_reads c sb D F ip r : fs_geom c sb -> reboots_to c D F -> sb_decode (F 1) = sb -> recovery D r ->
  is_file sb F ip -> reads sb r (inum ip) (content F ip).
Proof.
  intros HG [_ Hr] HF1 Hrec HI. destruct (Hr r Hrec) as (c' & HT & Hat & E1 & E2 & HS).
  destruct (is_file_home HG F (blk (bio r)) ip HS HI) as (HI' & HC & _). rewrite <- HC.
  eapply is_file_reads; [|exact HT|done|done]. destruct HG as [G1 G2 G3 G4 G5 G6 G7 G8]. split; rewrite ?E1, ?E2; try done.
  rewrite <- (tx_clean _ _ _ _ _ 1 HT); [|apply not_elem_of_nil|apply lookup_empty].
  rewrite HS by lia. done.
Qed.

(** Whatever the machine does from the disk [D] on, it comes up, the file has
    bytes that satisfy [P], and the files beside it have theirs. *)
Definition crash_safe (sb : superblock) (V : Z -> block) (ip : inode) (D : gmap Z block) (P : list Z -> Prop) : Prop :=
  (exists r, recover D = Ret r tt) /\
  forall r, recovery D r -> (exists C, P C /\ reads sb r (inum ip) C) /\
    forall jp C, beside sb V ip jp C -> reads sb r (inum jp) C.

Lemma reboots_safe c sb V ip D F ip' (P : list Z -> Prop) : fs_geom c sb -> reboots_to c D F -> sb_decode (F 1) = sb ->
  is_file sb F ip' -> inum ip' = inum ip -> P (content F ip') ->
  (forall jp C, beside sb V ip jp C -> beside sb F ip' jp C) -> crash_safe sb V ip D P.
Proof.
  intros HG HR HF1 HI En HP Hb. split; [apply HR|]. intros r Hr. split.
  - exists (content F ip'). split; [done|]. rewrite <- En. by eapply reboots_reads.
  - intros jp C HB. destruct (Hb jp C HB) as (HJ & _ & <- & _). by eapply reboots_reads.
Qed.

Lemma crash_safe_weaken sb V ip D (P Q : list Z -> Prop) : (forall C, P C -> Q C) -> crash_safe sb V ip D P -> crash_safe sb V ip D Q.
Proof. intros HPQ [H1 H2]. split; [done|]. intros r Hr. destruct (H2 r Hr) as [(C & HC & HR) Ho]. split; [by exists C; auto|done]. Qed.

(** ** One chunk *)

(** An open file whose inode is in memory, unlocked and as on disk. *)
Record opened (sb : superblock) (k : kernel) (f : nat) (fl : file) (i : nat) (ip : inode) (V : Z -> block) : Prop := {
  op_file : ftable k !! f = Some fl;
  op_inode : icache (kf k) !! i = Some ip;
  op_sb : fsb (kf k) = sb;
  op_ref : 1 <= iref ip;
  op_idle : hasf I_BUSY (iflags ip) = false;
  op_valid : hasf I_VALID (iflags ip) = true;
  op_is : is_file sb V ip;
  op_off : 0 <= foff fl <= isize ip
}.

Lemma rest_disk c l V n : tx c l ∅ [] V -> V n = disk_read (c_dsk c) n.
Proof. intros HT. eapply tx_clean; [exact HT|apply not_elem_of_nil|apply lookup_empty]. Qed.

Lemma upd_file_ret f g k fl : ftable k !! f = Some fl -> upd_file f g k = Ret (set_ftable (<[f := g fl]> (ftable k)) k) tt.
Proof. intros Lf. unfold upd_file, file_at, bind, gets. rewrite Lf. done. Qed.

Lemma io_ftable c kend K cur k l tabs U q L V ft : io_ok c kend K cur k l tabs U q L V -> io_ok c kend K cur (set_ftable ft k) l tabs U q L V.
Proof. intros [[H1 H2] H3 H4]. split; [split|..]; done. Qed.

(** The superblock is neither in a file nor in an inode block. *)
Lemma written_super c sb V V' ip ip' off src : fs_geom c sb -> is_file sb V ip ->
  file_written (sb := sb) V ip off src V' ip' -> V' 1 = V 1.
Proof.
  intros HG (HF & _ & _ & _ & Hn) HW. pose proof (bitmap_outside HG). pose proof (inode_outside HG _ Hn).
  assert (~ is_data sb 1) as Hd by (intros Hd%(data_outside HG); destruct HG; lia).
  apply (fw_frame _ _ _ _ _ _ HW); [destruct HG; lia|destruct HG; lia| |done]. intros [? _]%(owns_data _ _ _ HF). done.
Qed.

Lemma round_safe c sb l V ip V2 ip2 off src (b : bool) D : fs_geom c sb -> tx c l ∅ [] V -> is_file sb V ip ->
  (forall n, length (V2 n) = BSIZE) -> file_written (sb := sb) V ip off src V2 ip2 ->
  reboots_to c D (if b then disk_read (c_dsk c) else V2) ->
  crash_safe sb V ip D (fun C => C = content V ip \/ C = content V2 ip2).
Proof.
  intros HG HT HI Hl HW HR. pose proof (fun n => rest_disk c l V n HT) as Hd. destruct b.
  - assert (same_home c V (disk_read (c_dsk c))) as HS by (intros n _; by rewrite Hd).
    destruct (is_file_home HG _ _ ip HS HI) as (HI' & HC' & _).
    apply (reboots_safe c sb V ip D (disk_read (c_dsk c)) ip); try done; [apply HG|by left; rewrite HC'|].
    intros jp C. by apply (beside_home HG).
  - apply (reboots_safe c sb V ip D V2 ip2); try done; [|by eapply written_file| |by right|].
    + rewrite (written_super c sb V V2 ip ip2 off src), Hd by done. apply HG.
    + by rewrite (fw_fields _ _ _ _ _ _ HW).
    + intros jp C. by apply (written_beside HG V V2 ip ip2 off src).
Qed.

Lemma write_max_val : write_max = 6656.
Proof. done. Qed.

Lemma io_end c kend K cur k l tabs U q L V : io_ok c kend K cur k l tabs U q L V -> Z.of_nat (length U) * PGSIZE <= 2 ^ 31.
Proof. intros HI. exact (space_end _ _ _ _ _ _ (ri_space _ _ _ _ _ _ _ (io_run _ _ _ _ _ _ _ _ _ _ _ HI))). Qed.

Lemma src_length c kend K cur k l tabs U q L V va n : io_ok c kend K cur k l tabs U q L V -> 0 <= va -> 0 <= n ->
  va + n <= Z.of_nat (length U) * PGSIZE -> length (sub_bytes (umem (km (kp k)) U) (Z.to_nat va) (Z.to_nat n)) = Z.to_nat n.
Proof.
  intros HI Hva Hn He. apply sub_bytes_length. rewrite (umem_length _ _ _ _ _ _ _ (io_run _ _ _ _ _ _ _ _ _ _ _ HI)).
  unfold PGSIZE in *. lia.
Qed.

(** The calls of one round of [filewrite_loop] up to [iunlock]. *)
Lemma round_locked c sb kend K cur k l tabs U q V devsw f fl i ip va n :
  fs_geom c sb -> io_ok c kend K cur k l tabs U q [] V -> at_rest c -> 23 <= c_size c -> opened sb k f fl i ip V ->
  meta_used sb V -> (28 <= nfree sb V)%nat -> 0 < n <= write_max -> foff fl + n <= MAXFILE * BSIZEz ->
  0 <= va -> va + n <= Z.of_nat (length U) * PGSIZE ->
  let src := sub_bytes (umem (km (kp k)) U) (Z.to_nat va) (Z.to_nat n) in
  exists k1 k2 k3 k4 L V' ip', infs (inlog begin_op) k = Ret k1 tt /\ infs (ilock i) k1 = Ret k2 tt /\
    uload cur va (Z.to_nat n) k2 = Ret k2 src /\ file_at f k2 = Ret k2 fl /\ infs (writei devsw i src (foff fl) n) k2 = Ret k3 n /\
    whenM (0 <? n) (upd_file f (fun fl => set_foff (u32 (foff fl + n)) fl)) k3 = Ret k4 tt /\
    io_ok (in_op c) kend K cur k4 l tabs U q L V' /\ km (kp k4) = km (kp k) /\ fsb (kf k4) = sb /\
    ftable k4 = <[f := set_foff (foff fl + n) fl]> (ftable k) /\
    icache (kf k4) = <[i := set_iflags (Z.lor (iflags ip) I_BUSY) ip']> (icache (kf k)) /\ iflags ip' = iflags ip /\ iref ip' = iref ip /\
    file_written (sb := sb) V ip (Z.to_nat (foff fl)) src V' ip' /\ meta_used sb V' /\ (nfree sb V <= nfree sb V' + 28)%nat.
Proof.
  intros HG HI Hrest Hsz [Lf Li Hsb Href Hb Hv Hfile Ho] Hm Hfree Hn Hend Hva Hve src. rewrite write_max_val in Hn.
  pose proof Hfile as (HF & _ & _ & _ & Hin).
  destruct (tx_begin c (fls (kf k)) V) as (l1 & R1 & HT1); [apply HI|done|].
  destruct (io_infs c (in_op c) _ _ _ _ _ _ _ _ _ _ _ _ _ [] V HI (inlog_ret begin_op (kf k) l1 tt R1) HT1) as (k1 & R1' & HI1 & Ek1 & Ef1 & Es1 & Ei1).
  cbn [fsb icache at_log] in Es1, Ei1. rewrite <- Ei1 in Li.
  destruct (io_infs (in_op c) (in_op c) _ _ _ _ _ _ _ _ _ _ _ _ _ [] V HI1 (ilock_free (kf k1) i ip Li Href Hb Hv)) as (k2 & R2 & HI2 & Ek2 & Ef2 & Es2 & Ei2); [apply HI1|].
  set (ip1 := set_iflags (Z.lor (iflags ip) I_BUSY) ip) in *. cbn [fsb icache with_ip] in Es2, Ei2.
  assert (icache (kf k2) !! i = Some ip1) as Li2 by (rewrite Ei2; apply list_lookup_insert_eq; by eapply lookup_lt_Some).
  assert (length src = Z.to_nat n) as Hlen by (unfold src; apply (src_length _ _ _ _ _ _ _ _ _ _ _ va n HI); lia).
  assert (fs_geom (in_op c) sb) as HG1 by (by apply (geom_same c)).
  assert (0 <= foff fl mod BSIZEz < BSIZEz) as Hmod by (apply Z.mod_pos_bound; unfold BSIZEz; lia).
  destruct (writei_written HG1 ltac:(cbn; lia) devsw (kf k2) i ip1 [] V src (foff fl) 14) as (l3 & L & V' & ip' & R3 & HT3 & _ & HW & Hm' & Hf');
    [apply HI2|by rewrite Es2, Es1|done|by apply file_ok_flags|done|done|lia|rewrite Hlen; unfold BSIZEz in *; lia|cbn; lia|exact Ho|rewrite Hlen; lia|].
  rewrite Hlen, Z2Nat.id in R3 by lia.
  destruct (io_infs (in_op c) (in_op c) _ _ _ _ _ _ _ _ _ _ _ _ _ L V' HI2 R3 HT3) as (k3 & R3' & HI3 & Ek3 & Ef3 & Es3 & Ei3).
  cbn [fsb icache with_ip] in Es3, Ei3.
  assert (ftable k3 = ftable k) as Ef by (by rewrite Ef3, Ef2, Ef1).
  exists k1, k2, k3, (set_ftable (<[f := set_foff (foff fl + n) fl]> (ftable k)) k3), L, V', (set_iflags (iflags ip) ip').
  split_and!; try done.
  - rewrite (uload_law _ _ _ _ _ _ _ _ _ (io_run _ _ _ _ _ _ _ _ _ _ _ HI2)) by (done || lia). unfold src. by rewrite Ek2, Ek1.
  - unfold file_at, bind, gets. by rewrite Ef2, Ef1, Lf.
  - rewrite (proj2 (Z.ltb_lt 0 n)) by lia. cbn [whenM]. erewrite upd_file_ret by (by rewrite Ef).
    rewrite u32_small by (unfold is_u32, MAXFILE, BSIZEz in *; lia). by rewrite Ef.
  - by apply io_ftable.
  - cbn. by rewrite Ek3, Ek2, Ek1.
  - cbn. by rewrite Es3, Es2, Es1.
  - cbn [kf set_ftable]. rewrite Ei3, Ei2, Ei1, list_insert_insert_eq, set_iflags_twice. do 2 f_equal.
    symmetry. by rewrite (fw_fields _ _ _ _ _ _ HW).
  - by rewrite (fw_fields _ _ _ _ _ _ HW).
  - by eapply written_flags.
Qed.

(** What one round leaves: the file with [src] stored in it, and a file system
    that was safe at each of its disk writes [W]. *)
Record round c sb V fl ip src W V' ip' : Prop := {
  rd_content : content V' ip' = overwrite (content V ip) (Z.to_nat (foff fl)) src;
  rd_inum : inum ip' = inum ip;
  rd_geom : fs_geom (after c W) sb;
  rd_meta : meta_used sb V';
  rd_free : (nfree sb V <= nfree sb V' + 28)%nat;
  rd_beside : forall jp C, beside sb V ip jp C -> beside sb V' ip' jp C;
  rd_safe : forall j, crash_safe sb V ip (apply_writes (c_dsk c) (take j W)) (fun C => C = content V ip \/ C = content V' ip')
}.

Lemma round_run c sb kend K cur k l tabs U q V devsw f fl i ip va n (g : Z -> M kernel Z) :
  fs_geom c sb -> io_ok c kend K cur k l tabs U q [] V -> at_rest c -> 23 <= c_size c -> opened sb k f fl i ip V ->
  meta_used sb V -> (28 <= nfree sb V)%nat -> 0 < n <= write_max -> foff fl + n <= MAXFILE * BSIZEz ->
  0 <= va -> va + n <= Z.of_nat (length U) * PGSIZE ->
  let src := sub_bytes (umem (km (kp k)) U) (Z.to_nat va) (Z.to_nat n) in
  exists k' W V' ip',
    (infs (inlog begin_op) ;;; infs (ilock i) ;;; let* src := uload cur va (Z.to_nat n) in let* fl := file_at f in
     let* r := infs (writei devsw i src (foff fl) n) in
     whenM (0 <? r) (upd_file f (fun fl => set_foff (u32 (foff fl + r)) fl)) ;;;
     infs (iunlock i) ;;; infs (inlog end_op) ;;; g r) k = g n k' /\
    io_ok (after c W) kend K cur k' l tabs U q [] V' /\ km (kp k') = km (kp k) /\
    opened sb k' f (set_foff (foff fl + n) fl) i ip' V' /\
    ftable k' = <[f := set_foff (foff fl + n) fl]> (ftable k) /\ icache (kf k') = <[i := ip']> (icache (kf k)) /\
    round c sb V fl ip src W V' ip'.
Proof.
  intros HG HI Hrest Hsz HO Hm Hfree Hn Hend Hva Hve src. pose proof HO as [Lf Li Hsb Href Hb Hv Hfile Ho].
  destruct (round_locked c sb kend K cur k l tabs U q V devsw f fl i ip va n)
    as (k1 & k2 & k3 & k4 & L & V2 & ip2 & R1 & R2 & R3 & R4 & R5 & R6 & HI4 & Ek4 & Es4 & Ef4 & Ei4 & Efl & Erf & HW & Hm2 & Hf2); try done.
  assert (i < length (icache (kf k)))%nat as Hlt by (by eapply lookup_lt_Some).
  assert (forall x, length (V2 x) = BSIZE) as HV2 by (intros x; by eapply tx_length, HI4).
  set (ip3 := set_iflags (Z.lor (iflags ip) I_BUSY) ip2) in *.
  assert (icache (kf k4) !! i = Some ip3) as Li4 by (rewrite Ei4; by apply list_lookup_insert_eq).
  destruct (io_infs (in_op c) (in_op c) _ _ _ _ _ _ _ _ _ _ _ _ _ L V2 HI4 (iunlock_held (kf k4) i ip3 Li4 ltac:(cbn; lia) (busy_lor _))) as (k5 & R7 & HI5 & Ek5 & Ef5 & Es5 & Ei5);
    [apply tx_woken, HI4|]. cbn [fsb icache with_ip] in Es5, Ei5.
  destruct (tx_end c (fls (kf k5)) L V2) as (l6 & W & V6 & R8 & HT6 & HS & Hcr); [apply HI5|done|].
  destruct (io_infs (in_op c) (after c W) _ _ _ _ _ _ _ _ _ _ _ _ _ [] V6 HI5 (inlog_ret end_op (kf k5) l6 tt R8) HT6) as (k6 & R9 & HI6 & Ek6 & Ef6 & Es6 & Ei6).
  cbn [fsb icache at_log] in Es6, Ei6.
  pose proof (written_file V V2 ip ip2 _ src HV2 Hfile HW) as HI2. destruct (is_file_home HG V2 V6 ip2 HS HI2) as (HI6' & HC6 & _).
  assert (icache (kf k6) = <[i := ip2]> (icache (kf k))) as Ei.
  { rewrite Ei6, Ei5, Ei4, list_insert_insert_eq. f_equal. unfold ip3. cbn [iflags set_iflags].
    rewrite set_iflags_twice, flags_unlock, <- Efl by done. apply set_iflags_same. }
  exists k6, W, V6, ip2. split_and!; [|done| | | | |].
  - mrun R1. mrun R2. mrun R3. mrun R4. mrun R5. mrun R6. mrun R7. mrun R9. done.
  - by rewrite Ek6, Ek5, Ek4.
  - split; rewrite ?Ef6, ?Ef5, ?Ef4, ?Ei, ?Erf, ?Efl; try done.
    + apply list_lookup_insert_eq. by eapply lookup_lt_Some.
    + by apply list_lookup_insert_eq.
    + by rewrite Es6, Es5, Es4.
    + cbn [foff set_foff]. pose proof (written_size V V2 ip ip2 _ src (proj1 Hfile) HW) as E.
      pose proof (src_length _ _ _ _ _ _ _ _ _ _ _ va n HI) as Hl. fold src in Hl. lia.
  - by rewrite Ef6, Ef5.
  - done.
  - split.
    + rewrite HC6. apply HW.
    + by rewrite (fw_fields _ _ _ _ _ _ HW).
    + apply (geom_same c); try done. rewrite <- (rest_disk (after c W) l6 V6 1), <- (rest_disk c (fls (kf k)) V 1) by (done || apply HI).
      rewrite HS by (destruct HG; lia). by eapply written_super.
    + by eapply meta_home.
    + rewrite (nfree_home HG V2 V6) by done. done.
    + intros jp C HB. apply (beside_home HG V2 V6 ip2 jp C HS HI2). exact (written_beside HG V V2 ip ip2 _ src jp C Hfile HW HB).
    + intros j. rewrite HC6. eapply (round_safe c sb (fls (kf k)) V ip V2 ip2 _ src (bool_decide (j <= length L)%nat)); try done; [apply HI|].
      specialize (Hcr j). case_decide as E; [by rewrite bool_decide_true|by rewrite bool_decide_false].
Qed.

(** ** The loop *)

Lemma overwrite_app C off s1 s2 : (off <= length C)%nat ->
  overwrite (overwrite C off s1) (off + length s1) s2 = overwrite C off (s1 ++ s2).
Proof.
  intros Ho. assert (off + length s1 <= length (overwrite C off s1))%nat as Hl.
  { unfold overwrite. rewrite !length_app, length_take. lia. }
  apply list_eq. intros o. rewrite !overwrite_lookup by done. rewrite length_app. repeat case_decide; try lia; try done.
  - rewrite lookup_app_r by lia. f_equal. lia.
  - rewrite lookup_app_l by lia. done.
Qed.

Lemma overwrite_nil C off : overwrite C off [] = C.
Proof. unfold overwrite. cbn. rewrite Nat.add_0_r. apply take_drop. Qed.

Lemma sub_bytes_plus (b : list Z) o m1 m2 : sub_bytes b o (m1 + m2) = sub_bytes b o m1 ++ sub_bytes b (o + m1) m2.
Proof. unfold sub_bytes. rewrite <- (drop_drop b), <- take_take_drop. done. Qed.

Definition chunk : nat := Z.to_nat write_max.

(** Some of the whole chunks of [src] were stored at [off], all of them if [whole]. *)
Definition partly (C : list Z) (off : nat) (src : list Z) (whole : Prop) (C' : list Z) : Prop :=
  exists q, C' = overwrite C off (take (q * chunk) src) /\ (whole -> length src <= q * chunk)%nat.

Lemma partly_later C off s1 s2 (w w' : Prop) C' : (off <= length C)%nat -> (length s1 <= chunk)%nat ->
  (length s1 = chunk \/ s2 = []) -> (w -> w') ->
  partly (overwrite C off s1) (off + length s1) s2 w' C' -> partly C off (s1 ++ s2) w C'.
Proof.
  intros Ho Hl Hs Hw (q & -> & Hq). exists (S q). rewrite overwrite_app by done. split.
  - f_equal. destruct Hs as [Hs| ->].
    + rewrite Nat.mul_succ_l, Nat.add_comm, take_app_add' by done. done.
    + rewrite take_nil, app_nil_r. symmetry. apply take_ge. lia.
  - intros H'. specialize (Hq (Hw H')). rewrite length_app. lia.
Qed.

Lemma crash_safe_later sb V ip V1 ip1 D (P Q : list Z -> Prop) : inum ip1 = inum ip ->
  (forall jp C, beside sb V ip jp C -> beside sb V1 ip1 jp C) -> (forall C, P C -> Q C) ->
  crash_safe sb V1 ip1 D P -> crash_safe sb V ip D Q.
Proof.
  intros En Hb HPQ [H1 H2]. split; [done|]. intros r Hr. destruct (H2 r Hr) as [(C & HC & HR) Ho].
  rewrite En in HR. split; [by exists C; auto|]. intros jp C' HB. by apply Ho, Hb.
Qed.

Lemma after_nil c : at_rest c -> after c [] = c.
Proof. intros [E1 E2]. unfold after. rewrite app_nil_r. destruct c; cbn in *. by subst. Qed.

Lemma after_app c W1 W2 : after (after c W1) W2 = after c (W1 ++ W2).
Proof. unfold after. cbn. by rewrite apply_writes_app, app_assoc. Qed.

(** What [filewrite] leaves of the file system, from the view [V] and the open
    file [fl] of [ip] to [V'] and [ip'], by the disk writes [W]. *)
Record wrote_all c sb V off ip src W V' ip' : Prop := {
  wa_content : content V' ip' = overwrite (content V ip) off src;
  wa_beside : forall jp C, beside sb V ip jp C -> beside sb V' ip' jp C;
  wa_safe : forall j, crash_safe sb V ip (apply_writes (c_dsk c) (take j W)) (partly (content V ip) off src (length W <= j)%nat)
}.

Lemma wrote_none c sb l V off ip : fs_geom c sb -> tx c l ∅ [] V -> is_file sb V ip -> wrote_all c sb V off ip [] [] V ip.
Proof.
  intros HG HT HI. split; [by rewrite overwrite_nil|done|]. intros j. rewrite take_nil.
  apply (reboots_safe c sb V ip _ V ip); try done; [by eapply rest_reboots|rewrite (rest_disk c l V 1 HT); apply HG|].
  exists 0%nat. split; [by rewrite overwrite_nil|cbn; lia].
Qed.

Lemma wrote_round c sb V fl ip s1 W1 V1 ip1 s2 W2 V2 ip2 off1 : round c sb V fl ip s1 W1 V1 ip1 ->
  wrote_all (after c W1) sb V1 off1 ip1 s2 W2 V2 ip2 -> off1 = (Z.to_nat (foff fl) + length s1)%nat ->
  (Z.to_nat (foff fl) <= length (content V ip))%nat -> (length s1 <= chunk)%nat -> length s1 = chunk \/ s2 = [] ->
  wrote_all c sb V (Z.to_nat (foff fl)) ip (s1 ++ s2) (W1 ++ W2) V2 ip2.
Proof.
  intros [C1 N1 _ _ _ B1 S1] [C2 B2 S2] -> Ho Hl Hs. split.
  - by rewrite C2, C1, overwrite_app.
  - intros jp C HB. by apply B2, B1.
  - intros j. destruct (decide (j < length W1)%nat) as [Hj|Hj].
    + rewrite take_app_le by lia. eapply crash_safe_weaken; [|apply S1]. intros C [-> | ->].
      * exists 0%nat. cbn. rewrite overwrite_nil. split; [done|]. rewrite length_app. lia.
      * rewrite C1. apply (partly_later _ _ _ _ _ False); [done|done|done|rewrite length_app; lia|].
        exists 0%nat. cbn. rewrite overwrite_nil. done.
    + rewrite take_app_ge, apply_writes_app by lia. eapply crash_safe_later; [exact N1|exact B1| |apply (S2 (j - length W1)%nat)].
      intros C HP. rewrite C1 in HP. eapply partly_later; [done|done|done| |exact HP]. rewrite length_app. lia.
Qed.

Lemma filewrite_loop_law fuel rounds sb kend K cur l tabs U q devsw f ino addr n : forall c k V fl ip i,
  fs_geom c sb -> io_ok c kend K cur k l tabs U q [] V -> at_rest c -> 23 <= c_size c -> opened sb k f fl ino ip V ->
  meta_used sb V -> (28 * rounds <= nfree sb V)%nat -> 0 <= i <= n -> n - i <= write_max * Z.of_nat rounds ->
  (Z.to_nat (n - i) < fuel)%nat -> foff fl + (n - i) <= MAXFILE * BSIZEz -> 0 <= addr -> addr + n <= Z.of_nat (length U) * PGSIZE ->
  let src := sub_bytes (umem (km (kp k)) U) (Z.to_nat (addr + i)) (Z.to_nat (n - i)) in
  exists k' W V' ip', filewrite_loop cur devsw fuel f ino addr i n k = Ret k' n /\
    io_ok (after c W) kend K cur k' l tabs U q [] V' /\ km (kp k') = km (kp k) /\
    opened sb k' f (set_foff (foff fl + (n - i)) fl) ino ip' V' /\
    ftable k' = <[f := set_foff (foff fl + (n - i)) fl]> (ftable k) /\ icache (kf k') = <[ino := ip']> (icache (kf k)) /\
    wrote_all c sb V (Z.to_nat (foff fl)) ip src W V' ip'.
Proof.
  revert rounds. induction fuel as [|fuel IH]; intros rounds c k V fl ip i HG HI Hrest Hsz HO Hm Hfree Hi Hr Hfuel Hend Ha He src; [lia|].
  pose proof HO as [Lf Li Hsb Href Hb Hv Hfile Ho]. cbn [filewrite_loop]. destruct (Z.ltb_spec i n) as [Hlt|Hge].
  2: { assert (i = n) as -> by lia. unfold src. rewrite Z.sub_diag, Z.add_0_r. exists k, [], V, ip. rewrite after_nil by done.
    replace (set_foff (foff fl) fl) with fl by (by destruct fl). rewrite !list_insert_id by done.
    split_and!; try done. eapply wrote_none; [done|apply HI|done]. }
  set (n1 := if write_max <? n - i then write_max else n - i).
  assert (0 < n1 <= write_max /\ n1 <= n - i /\ (n1 = write_max \/ n1 = n - i)) as (Hn1 & Hn1' & Hcase)
    by (unfold n1; rewrite write_max_val; destruct (Z.ltb_spec 6656 (n - i)); lia).
  pose proof write_max_val as Ewm. rewrite Ewm in Hr. pose proof (io_end _ _ _ _ _ _ _ _ _ _ _ HI) as HE. rewrite (u32_small (addr + i)) by (unfold is_u32; lia).
  destruct (round_run c sb kend K cur k l tabs U q V devsw f fl ino ip (addr + i) n1
    (fun r => if r <? 0 then ret i else if negb (r =? n1) then panic "short filewrite" else filewrite_loop cur devsw fuel f ino addr (i + r) n))
    as (k1 & W1 & V1 & ip1 & R1 & HI1 & Ek1 & HO1 & Ef1 & Ei1 & HR1); [try done; lia..|].
  rewrite R1. rewrite (proj2 (Z.ltb_ge n1 0)) by lia. rewrite Z.eqb_refl. cbn [negb]. clear R1.
  pose proof (rd_free _ _ _ _ _ _ _ _ _ HR1) as Hfree1.
  destruct (IH (pred rounds) (after c W1) k1 V1 (set_foff (foff fl + n1) fl) ip1 (i + n1)) as (k2 & W2 & V2 & ip2 & R2 & HI2 & Ek2 & HO2 & Ef2 & Ei2 & HA);
    [apply HR1|done|by split|done|done|apply HR1|lia|lia|rewrite Ewm; lia|lia|cbn [foff set_foff]; lia|done|done|].
  exists k2, (W1 ++ W2), V2, ip2. rewrite <- after_app, R2. cbn [foff set_foff] in *.
  assert (set_foff (foff fl + n1 + (n - (i + n1))) (set_foff (foff fl + n1) fl) = set_foff (foff fl + (n - i)) fl) as Efl
    by (unfold set_foff; cbn; f_equal; lia).
  rewrite Efl in HO2, Ef2. split_and!; [done|done|by rewrite Ek2|done|by rewrite Ef2, Ef1, list_insert_insert_eq|by rewrite Ei2, Ei1, list_insert_insert_eq|].
  pose proof (src_length _ _ _ _ _ _ _ _ _ _ _ (addr + i) n1 HI) as Hl1. pose proof (content_length V ip) as Hcl.
  pose proof (src_length _ _ _ _ _ _ _ _ _ _ _ (addr + (i + n1)) (n - (i + n1)) HI) as Hl2.
  assert (src = sub_bytes (umem (km (kp k)) U) (Z.to_nat (addr + i)) (Z.to_nat n1) ++
    sub_bytes (umem (km (kp k)) U) (Z.to_nat (addr + (i + n1))) (Z.to_nat (n - (i + n1)))) as ->.
  { unfold src. replace (Z.to_nat (n - i)) with (Z.to_nat n1 + Z.to_nat (n - (i + n1)))%nat by lia.
    rewrite sub_bytes_plus. do 2 f_equal. lia. }
  rewrite Ek1 in HA. eapply wrote_round; [exact HR1|exact HA|lia|lia|unfold chunk; lia|].
  destruct Hcase as [E|E]; [left; unfold chunk; lia|right; apply nil_length_inv; lia].
Qed.

(** C1: writing a file through a descriptor is crash safe.  In a kernel whose
    log is at rest, [filewrite] of [n] bytes returns [n], the file has the
    user's bytes stored at the offset, the offset moves on, the user's memory
    and all other files stay as they are.  If the machine stops after any
    number [j] of the disk writes, it reboots, however often recovery itself
    is interrupted; reading the file then gives the old bytes with some of
    the chunks that [filewrite] writes per transaction stored in order, all
    of them if no disk write was missing, and reading any other file gives
    its bytes. *)
Theorem filewrite_crash_safe c sb kend K cur k l tabs U q V devsw f fl i ip addr n :
  fs_geom c sb -> io_ok c kend K cur k l tabs U q [] V -> at_rest c -> 23 <= c_size c ->
  opened sb k f fl i ip V -> ftyp fl = FD_INODE -> writable fl <> 0 -> fip fl = Some i ->
  meta_used sb V -> 28 * (n / write_max + 1) <= Z.of_nat (nfree sb V) ->
  0 <= n -> foff fl + n <= MAXFILE * BSIZEz -> 0 <= addr -> addr + n <= Z.of_nat (length U) * PGSIZE ->
  let src := sub_bytes (umem (km (kp k)) U) (Z.to_nat addr) (Z.to_nat n) in
  exists k' W V' ip', filewrite cur devsw f addr n k = Ret k' n /\
    io_ok (after c W) kend K cur k' l tabs U q [] V' /\ km (kp k') = km (kp k) /\
    opened sb k' f (set_foff (foff fl + n) fl) i ip' V' /\
    content V' ip' = overwrite (content V ip) (Z.to_nat (foff fl)) src /\
    (forall jp C, beside sb V ip jp C -> beside sb V' ip' jp C) /\
    forall j, crash_safe sb V ip (apply_writes (c_dsk c) (take j W))
      (partly (content V ip) (Z.to_nat (foff fl)) src (length W <= j)%nat).
Proof.
  intros HG HI Hrest Hsz HO Hty Hw Hip Hm Hfree Hn Hend Ha He. pose proof write_max_val as Ewm.
  assert (0 <= n / write_max) as Hq by (apply Z.div_pos; lia).
  destruct (filewrite_loop_law (S (Z.to_nat n)) (Z.to_nat (n / write_max + 1)) sb kend K cur l tabs U q devsw f i addr n c k V fl ip 0)
    as (k' & W & V' & ip' & R & HI' & Ek & HO' & _ & _ & [HC HB HS]); try done; [lia| |lia|lia|].
  { rewrite Z2Nat.id by lia. pose proof (Z.div_mod n write_max ltac:(lia)). pose proof (Z.mod_pos_bound n write_max ltac:(lia)). nia. }
  rewrite Z.sub_0_r in *. rewrite Z.add_0_r in *. exists k', W, V', ip'. split_and!; try done.
  unfold filewrite. assert (file_at f k = Ret k fl) as Rf by (unfold file_at, bind, gets; by rewrite (op_file _ _ _ _ _ _ _ HO)).
  mrun Rf. rewrite (proj2 (Z.eqb_neq _ _)) by done. rewrite Hty, Hip, from_opt_bind. mrun R. by rewrite Z.eqb_refl.
Qed.
End io.

(** ** A process that writes the file of FsFile *)

#[local] Existing Instance mem_driver.

Definition demo_dinodes : block := enc_dinode zero_block (dinode_off 1) demo_idle_inode.
Definition demo_stored : gmap Z block := <[32 := demo_dinodes]> demo_image.

Lemma demo_stored_recoverable : recoverable demo_log demo_stored (disk_read demo_stored).
Proof.
  split_and!; [repeat (apply disk_ok_insert; [|by vm_compute]); apply disk_ok_empty|by vm_compute|].
  exists []. split; [|split; [apply header_nil, demo_geom|done]]. by split; vm_compute.
Qed.

Lemma demo_rest : exists c l V, tx c l ∅ [] V /\ at_rest c /\ fs_geom c demo_super /\ c_size c = 30 /\
  V 32 = demo_dinodes /\ V 35 = demo_bitmap /\ V 36 = demo_text.
Proof.
  destruct (recover_recoverable demo_log demo_stored _ demo_geom demo_stored_recoverable) as ([l b] & R & Hinv & E1 & E2 & HV & _).
  destruct (recover_idle demo_log demo_stored _ _ demo_geom demo_stored_recoverable R) as [Eo Ec]. cbn [lg bio] in *.
  exists (mk_txc (dsk b) (trace b) 0 0 (lstart l) (lsize l)), (mk_ls l b), (blk b).
  assert (tx (mk_txc (dsk b) (trace b) 0 0 (lstart l) (lsize l)) (mk_ls l b) ∅ [] (blk b)) as HT by (split; [done|done|cbn; by rewrite Eo, Ec]).
  assert (forall n, 0 <= n < 2 \/ 32 <= n -> blk b n = disk_read demo_stored n) as HV'
    by (intros n Hn; apply HV; unfold in_log, demo_log, LOGSIZE; cbn; lia).
  split; [exact HT|]. split; [by split|]. split; [|split; [cbn; by rewrite E2|split_and!; rewrite HV' by lia; vm_compute; reflexivity]].
  pose proof (rest_disk _ _ _ 1 HT) as Hd. cbn in Hd. rewrite HV' in Hd by lia.
  split; cbn [c_dsk c_start c_size]; rewrite ?E1, ?E2; [rewrite <- Hd; vm_compute; reflexivity|..]; clear; by vm_compute.
Qed.

Lemma demo_is_file c V : fs_geom c demo_super -> V 32 = demo_dinodes -> V 35 = demo_bitmap -> is_file demo_super V demo_idle_inode.
Proof.
  intros HG Hd Hbm. split; [exact (file_ok_flags _ _ _ _ (demo_file_ok V Hbm))|]. split.
  - split; [by vm_compute|by vm_compute|by vm_compute|by vm_compute|by vm_compute|reflexivity|].
    apply (file_addrs_typed HG V), (file_ok_flags _ _ _ _ (demo_file_ok V Hbm)).
  - split; [|by vm_compute]. unfold stored, dinode_at. change (IBLOCK (inum demo_idle_inode) demo_super) with 32.
    rewrite Hd. clear. vm_compute. reflexivity.
Qed.

(** Three bytes of the user's memory written over "ell". *)
Lemma filewrite_crash_safe_witness : exists c k k' U W V, filewrite 0 [] 0 200 3 k = Ret k' 3 /\
  content V demo_idle_inode = [104; 101; 108; 108; 111] /\ foff <$> ftable k' !! 0%nat = Some 4 /\
  forall j, crash_safe demo_super V demo_idle_inode (apply_writes (c_dsk c) (take j W))
    (partly [104; 101; 108; 108; 111] 1 (sub_bytes (umem (km (kp k)) U) 200 3) (length W <= j)%nat).
Proof.
  destruct demo_writable_page as (s & lf & d & tabs & U & Hus & HU & HW).
  destruct demo_rest as (c & l & V & HT & Hrest & HG & Hs & Hdi & Hbm & Htx).
  set (fl := mk_file FD_INODE 1 1 1 0 (Some 0%nat) 1).
  set (k := mk_kernel (kp (kernel_with s (proc_with d 4096))) (mk_fs demo_super [demo_idle_inode] l) [fl] ∅ 0 []).
  assert (io_ok c demo_end no_kernel 0 k lf tabs U (proc_with d 4096) [] V) as HI.
  { split; [split; [reflexivity|exact Hus]|discriminate|exact HT]. }
  assert (content V demo_idle_inode = [104; 101; 108; 108; 111]) as HC by (unfold demo_idle_inode; by rewrite content_flags, demo_content).
  destruct (filewrite_crash_safe c demo_super demo_end no_kernel 0 k lf tabs U (proc_with d 4096) V [] 0 fl 0 demo_idle_inode 200 3)
    as (k' & W & V' & ip' & R & _ & _ & HO & _ & _ & Hcr); try done.
  - rewrite Hs. done.
  - split; try done. by apply (demo_is_file c).
  - by apply demo_meta.
  - rewrite (demo_nfree V Hbm). by vm_compute.
  - rewrite HU. by vm_compute.
  - exists c, k, k', U, W, V. split; [exact R|]. split; [exact HC|]. split; [by rewrite (op_file _ _ _ _ _ _ _ HO)|].
    rewrite HC in Hcr. exact Hcr.
Defined.
