(* ===== verification/Defects.v ===== *)
(** * Defects: system calls that go wrong

    A read with a negative count, which passes the check of the buffer and
    runs over its end, for all processes and files; and two runs from concrete
    states: one chunk of a write that logs more blocks than an operation may,
    and a shrink to nothing that fails after giving the memory away. *)
From stdpp Require Import base numbers list gmap strings.
From Stdlib Require Import ZArith Lia.
From S2P Require Import Prelude Bytes Kalloc Vm Proc Buf Bio Log Fs FsFile FsWrite Pipe Kernel Args Sysfile Sysproc UserMem FileIO.

Local Open Scope Z_scope.

#[local] Existing Instance mem_driver.

(** One process of one page at 0x80003000, mapped at 0 by the tables at
    0x80001000 and 0x80002000, with its trap frame at 0x80004000, its stack
    pointer at 0x100 and the three arguments of a system call on it. *)
Definition bug_ram (a0 a1 a2 : Z) : ram :=
  store32 0x80001000 0x2007 (store32 0x80002000 0x3007
    (store32 0x80003104 a0 (store32 0x80003108 a1 (store32 0x8000310c a2
      (store32 (0x80004000 + tf_esp) 0x100 ∅))))).
Definition bug_proc : proc :=
  mk_proc 4096 0x80001000 0x80004000 RUNNING 1 None 0x80004000 0 None 0
    (Some 0%nat :: replicate 15 None) (Some 0%nat) (replicate 16 0) 10.

(** A file of 8000 bytes in the blocks 40 to 55, open for reading and writing. *)
Definition bug_inode : inode :=
  mk_inode ROOTDEV 1 1 I_VALID T_FILE 0 0 1 8000 ((fun j => 40 + Z.of_nat j) <$> seq 0 13).
Definition bug_disk : gmap Z block :=
  list_to_map (((fun j => (40 + Z.of_nat j, replicate BSIZE 65)) <$> seq 0 12) ++
    [(52, (((fun j => 53 + Z.of_nat j) <$> seq 0 4) ≫= le_bytes 4) ++ replicate 496 0)]).
Definition bug_file (off : Z) : file := mk_file FD_INODE 1 1 1 0 (Some 0%nat) off.
Definition bug_fs : fs_state :=
  mk_fs (mk_sb 1000 900 200 30 2 32 58) [bug_inode]
    (mk_ls (mk_log 2 30 0 0 1 0 (replicate LOGSIZE 0)) (mk_bio booted_bufs None bug_disk [] [])).
Definition bug_kernel (a0 a1 a2 off : Z) : kernel :=
  mk_kernel (mk_psys [bug_proc] 2 0 None Rand.rng_boot (mk_kmem 1 0 (bug_ram a0 a1 a2))) bug_fs [bug_file off] ∅ 0 [].

(** An inode that is in the cache, referenced, valid, not busy and not a device. *)
Record at_rest (ip : inode) : Prop := {
  ar_ref : 1 <= iref ip;
  ar_busy : hasf I_BUSY (iflags ip) = false;
  ar_valid : hasf I_VALID (iflags ip) = true;
  ar_type : (itype ip =? T_DEV) = false
}.

(** A count that is negative as an [int] is cut to the rest of the file. *)
Lemma readi_negative devsw s i ip off c : icache s !! i = Some ip -> (itype ip =? T_DEV) = false ->
  0 <= off <= isize ip -> isize ip < 2 ^ 31 -> off < c <= 2 ^ 31 ->
  readi devsw i off (u32 (- c)) s = readi devsw i off (u32 (isize ip - off)) s.
Proof.
  intros Hi Ht Ho Hs Hc. unfold readi. mrun (inode_at_ret _ _ _ Hi). mrun (inode_at_ret _ _ _ Hi). rewrite Ht.
  assert (u32 (- c) = 2 ^ 32 - c) as -> by (unfold u32; symmetry; apply (Z.mod_unique_pos _ _ (-1)); lia).
  rewrite (u32_small (isize ip - off)), !u32_small by (unfold is_u32; lia).
  rewrite (proj2 (Z.ltb_ge (isize ip) off)), (proj2 (Z.ltb_ge (off + (2 ^ 32 - c)) off)), (proj2 (Z.ltb_ge (off + (isize ip - off)) off)) by lia. cbn [orb].
  rewrite (proj2 (Z.ltb_lt (isize ip) (off + (2 ^ 32 - c)))) by lia. by rewrite (proj2 (Z.ltb_ge (isize ip) (off + (isize ip - off)))) by lia.
Qed.

Lemma fileread_negative cur devsw k f fl i ip a c : ftable k !! f = Some fl -> ftyp fl = FD_INODE -> fip fl = Some i ->
  icache (kf k) !! i = Some ip -> at_rest ip -> 0 <= foff fl <= isize ip -> isize ip < 2 ^ 31 -> foff fl < c <= 2 ^ 31 ->
  fileread cur devsw f a (- c) k = fileread cur devsw f a (isize ip - foff fl) k.
Proof.
  intros Hf Ht Hp Hi [Hr Hb Hv Hty] Ho Hs Hc. unfold fileread.
  assert (forall k, ftable k !! f = Some fl -> file_at f k = Ret k fl) as Rf by (intros k0 H0; unfold file_at; by rewrite gets_bind, H0).
  mrun (Rf k Hf). mrun (Rf k Hf). destruct (readable fl =? 0); [done|]. rewrite Ht, Hp, !from_opt_bind.
  pose proof (infs_ret (ilock i) k _ _ (ilock_free (kf k) i ip Hi Hr Hb Hv)) as R. mrun R. mrun R. set (k1 := settle _ k).
  assert (ftable k1 = ftable k) as E1 by reflexivity. rewrite <- E1 in Hf. mrun (Rf k1 Hf). mrun (Rf k1 Hf).
  unfold bind at 1. unfold bind at 2. unfold infs at 1 2, zoom.
  rewrite (readi_negative devsw (kf k1) i (set_iflags (Z.lor (iflags ip) I_BUSY) ip)); [done| |done..].
  cbn. apply list_lookup_insert_eq. by eapply lookup_lt_Some.
Qed.

(** C40: [read] with a negative count is not refused but reads the rest of
    the file past the end of the buffer's process.  [argptr] adds the count
    to the address as unsigned numbers, so for every address [a] of the
    process the counts from -a to -1 pass its check; [readi] takes the count
    for a number near 2^32 and cuts it to the size of the file.  When the
    offset of the file is below [c], [read(fd, a, -c)] is therefore the call
    of [fileread] for all of the rest of the file, which [argptr] refuses as
    soon as the rest does not fit. *)
Theorem read_negative_count cur devsw k p fd f fl i ip a c :
  ptable (kp k) !! cur = Some p -> argfd cur 0 k = Ret k (Some (fd, f)) -> argint cur 2 k = Ret k (Some (- c)) ->
  argint cur 1 k = Ret k (Some a) -> 0 < c <= a -> a < sz p < 2 ^ 31 ->
  ftable k !! f = Some fl -> ftyp fl = FD_INODE -> fip fl = Some i -> icache (kf k) !! i = Some ip -> at_rest ip ->
  0 <= foff fl <= isize ip -> isize ip < 2 ^ 31 -> foff fl < c ->
  let rest := isize ip - foff fl in
  sys_read cur devsw k = fileread cur devsw f a rest k /\ (sz p < a + rest -> argptr cur 1 rest k = Ret k None).
Proof.
  intros Hp R0 R2 R1 Hc Ha Hf Ht Hfi Hi Hip Ho Hs Hoc rest.
  assert (forall n, argptr cur 1 n k = Ret k (if sz p <? u32 (a + n) then None else Some a)) as Rp.
  { intros n. unfold argptr. mrun R1. mrun (me_ret cur k p Hp). rewrite !(u32_small a) by (unfold is_u32; lia).
    rewrite (proj2 (Z.leb_gt _ a)) by lia. by destruct (sz p <? u32 (a + n)). }
  split.
  - unfold sys_read, rw_args. erewrite bind_ret; [|mrun R0; mrun R2; mrun (Rp (- c));
      rewrite (u32_small (a + - c)) by (unfold is_u32; lia); rewrite (proj2 (Z.ltb_ge (sz p) (a + - c))) by lia; reflexivity].
    apply (fileread_negative _ _ _ _ fl i); (done || lia).
  - intros Hr. rewrite Rp. subst rest. rewrite (u32_small (a + _)) by (unfold is_u32; lia). by rewrite (proj2 (Z.ltb_lt _ _)) by lia.
Qed.

(** The last byte of a process of one page, a file of 8000 bytes and -1: the
    kernel runs over the end of the process, and [trap] panics. *)
Lemma read_negative_count_witness : exists k, sys_read 0 [] k = fileread 0 [] 0 4095 8000 k /\
  argptr 0 1 8000 k = Ret k None /\ sys_read 0 [] k = Panic "trap".
Proof.
  exists (bug_kernel 0 4095 0xffffffff 0).
  destruct (read_negative_count 0 [] (bug_kernel 0 4095 0xffffffff 0) bug_proc 0 0 (bug_file 0) 0 bug_inode 4095 1) as [E1 E2];
    [reflexivity|vm_compute; reflexivity..|lia|cbn; lia|reflexivity|reflexivity|reflexivity|reflexivity| |cbn; lia|cbn; lia|cbn; lia|].
  - by split.
  - split; [exact E1|]. split; [apply E2; reflexivity|vm_compute; reflexivity].
Defined.

(** What [filewrite] does with one chunk, up to [iunlock]. *)
Definition one_chunk (src : list Z) (off : Z) : M fs_state Z :=
  inlog begin_op ;;;
  ilock 0 ;;;
  writei [] 0 src off (Z.of_nat (length src)).

(** One chunk of [filewrite] exceeds the reservation of its operation.  The
    limit on a chunk comes from LOGSIZE, which is three times MAXOPBLOCKS
    here: a chunk of that size at an odd offset of a file that has its blocks
    already logs 14 blocks between one [begin_op] and its [end_op], and
    [begin_op] has set aside MAXOPBLOCKS, which is 10. *)
Theorem filewrite_exceeds_reservation : exists s,
  one_chunk (replicate (Z.to_nat write_max) 66) 1 bug_fs = Ret s write_max /\
  outstanding (lg (fls s)) = 1 /\ lh_n (lg (fls s)) = 14 /\ MAXOPBLOCKS < 14.
Proof.
  assert (match one_chunk (replicate (Z.to_nat write_max) 66) 1 bug_fs with
    | Ret s r => (r =? write_max) && (outstanding (lg (fls s)) =? 1) && (lh_n (lg (fls s)) =? 14)
    | _ => false end = true) as E by (vm_compute; reflexivity).
  destruct (one_chunk _ _ _) as [s r| | |]; try discriminate E. exists s.
  apply andb_prop in E as [[E1 E2]%andb_prop E3]. apply Z.eqb_eq in E1, E2, E3. subst r. done.
Qed.

(** Giving back all memory fails after it was given back: [growproc] takes
    the size 0 that [deallocuvm] returns for an error and returns -1 with
    [proc->sz] unchanged, while the page is free and its entry is cleared, so
    that an address below [proc->sz] is no longer mapped. *)
Theorem shrink_to_zero_fails : exists k',
  growproc 0x80000000 0 (-4096) (bug_kernel 0 0 0 0) = Ret k' (-1) /\
  sz <$> ptable (kp k') !! 0%nat = Some 4096 /\
  freelist (km (kp k')) = 0x80003000 /\
  mmu false 0x80001000 0x104 (km (kp k')) = Ret (km (kp k')) None.
Proof.
  assert (match growproc 0x80000000 0 (-4096) (bug_kernel 0 0 0 0) with
    | Ret k' r => (r =? -1) && (default 0 (sz <$> ptable (kp k') !! 0%nat) =? 4096) && (freelist (km (kp k')) =? 0x80003000) &&
        match mmu false 0x80001000 0x104 (km (kp k')) with Ret _ None => true | _ => false end
    | _ => false end = true) as E by (vm_compute; reflexivity).
  destruct (growproc _ _ _ _) as [k' r| | |]; try discriminate E. exists k'.
  apply andb_prop in E as [[[E1 E2]%andb_prop E3]%andb_prop E4]. apply Z.eqb_eq in E1, E2, E3. subst r.
  split; [done|]. split; [|split; [done|]].
  - destruct (sz <$> ptable (kp k') !! 0%nat) as [x|]; cbn in E2; [by rewrite E2|done].
  - revert E4. unfold mmu, ld32, bind, gets, ret. repeat case_match; done.
Qed.
