(* ===== verification/Umalloc.v ===== *)
(** * Umalloc: the memory allocator of user programs (umalloc.c)

    The state is the memory of the process as far as the allocator uses it:
    words by address, the variable [freep], and the end of the memory.  A
    [Header] is two words, the pointer to the next free block and the size in
    units of 8 bytes.  [sbrk] asks the kernel, which is an argument: what it
    makes of the end of the memory ([growproc] of proc.c, [None] for -1).

    The abstract heap is the list of the chunks between the start of the heap
    and the end of the memory, in the order of their addresses, each used or
    free.  The theorems say what [malloc] and [free] do to that list. *)
From stdpp Require Import base numbers list gmap strings.
From Stdlib Require Import ZArith Lia Sorted.
From S2P Require Import Prelude.

Local Open Scope Z_scope.

Record heap := mk_heap {
  um : gmap Z Z;
  freep : Z;
  brk : Z;
}.
Definition set_um m (s : heap) := mk_heap m (freep s) (brk s).
Definition set_freep p (s : heap) := mk_heap (um s) p (brk s).
Definition set_brk b (s : heap) := mk_heap (um s) (freep s) b.

(** [sizeof(Header)] *)
Definition UNIT : Z := 8.

Definition mapped (a : Z) (s : heap) : bool := (0 <=? a) && (a + 4 <=? brk s).
Definition ld (a : Z) : M heap Z := fun s =>
  if mapped a s then Ret s (default 0 (um s !! a)) else Fault.
Definition st (a v : Z) : M heap unit := fun s =>
  if mapped a s then Ret (set_um (<[a := v]> (um s)) s) tt else Fault.

(** [p->s.ptr] and [p->s.size] *)
Definition ptr (p : Z) : M heap Z := ld p.
Definition usize (p : Z) : M heap Z := ld (u32 (p + 4)).
Definition st_ptr (p v : Z) : M heap unit := st p v.
Definition st_size (p v : Z) : M heap unit := st (u32 (p + 4)) v.
(** [p + n] on [Header*] *)
Definition hdr_add (p n : Z) : Z := u32 (p + UNIT * n).

Section umalloc.
Context (grows : Z -> Z -> option Z) (base : Z).

Definition sbrk (n : Z) : M heap Z := fun s =>
  match grows (brk s) n with
  | Some b => Ret (set_brk b s) (brk s)
  | None => Ret s (u32 (-1))
  end.

(** The loop of [free]: where the block belongs. *)
Fixpoint free_loop (fuel : nat) (bp p : Z) : M heap Z :=
  match fuel with
  | O => fault
  | S fuel =>
      let* q := ptr p in
      if (p <? bp) && (bp <? q) then ret p
      else if (q <=? p) && ((p <? bp) || (bp <? q)) then ret p
      else free_loop fuel bp q
  end.

(** Enough for one round: the blocks in the ring are words of the memory. *)
Definition ring_fuel : M heap nat := gets (fun s => S (size (um s))).

(** Join [bp] to the block after it, or link it. *)
Definition join_upper (bp p : Z) : M heap unit :=
  let* n := usize bp in
  let* q := ptr p in
  if hdr_add bp n =? q then
    let* qn := usize q in
    st_size bp (u32 (n + qn)) ;;;
    let* qq := ptr q in
    st_ptr bp qq
  else st_ptr bp q.

(** Join the block before to [bp], or link it. *)
Definition join_lower (bp p : Z) : M heap unit :=
  let* pn := usize p in
  if hdr_add p pn =? bp then
    let* n := usize bp in
    st_size p (u32 (pn + n)) ;;;
    let* q := ptr bp in
    st_ptr p q
  else st_ptr p bp.

Definition free (ap : Z) : M heap unit :=
  let bp := hdr_add ap (-1) in
  let* fp := gets freep in
  let* fuel := ring_fuel in
  let* p := free_loop fuel bp fp in
  join_upper bp p ;;;
  join_lower bp p ;;;
  modify (set_freep p).

Definition morecore (nu : Z) : M heap Z :=
  let nu := if nu <? 4096 then 4096 else nu in
  let* p := sbrk (i32 (nu * UNIT)) in
  if p =? u32 (-1) then ret 0
  else
    st_size p nu ;;;
    free (hdr_add p 1) ;;;
    gets freep.

(** A block of the ring that is large enough is taken out, or its end is. *)
Definition take_block (nunits prevp p n : Z) : M heap Z :=
  let* r := (if n =? nunits then
               let* q := ptr p in
               st_ptr prevp q ;;;
               ret p
             else
               st_size p (u32 (n - nunits)) ;;;
               let* n' := usize p in
               let p' := hdr_add p n' in
               st_size p' nunits ;;;
               ret p') in
  modify (set_freep prevp) ;;;
  ret (hdr_add r 1).

Fixpoint malloc_loop (fuel : nat) (nunits prevp p : Z) : M heap Z :=
  match fuel with
  | O => fault
  | S fuel =>
      let* n := usize p in
      if nunits <=? n then take_block nunits prevp p n
      else
        let* fp := gets freep in
        if p =? fp then
          let* c := morecore nunits in
          if c =? 0 then ret 0
          else
            let* q := ptr c in
            malloc_loop fuel nunits c q
        else
          let* q := ptr p in
          malloc_loop fuel nunits p q
  end.

Definition units_of (nbytes : Z) : Z := u32 (u32 (nbytes + UNIT - 1) / UNIT + 1).

(** The block [base] starts the ring. *)
Definition init_base : M heap unit :=
  st_ptr base base ;;;
  modify (set_freep base) ;;;
  st_size base 0.

(** Two rounds, one before and one after [morecore]. *)
Definition malloc (nbytes : Z) : M heap Z :=
  let nunits := units_of nbytes in
  let* fp := gets freep in
  whenM (fp =? 0) init_base ;;;
  let* prevp := gets freep in
  let* p := ptr prevp in
  let* fuel := ring_fuel in
  malloc_loop (fuel + fuel) nunits prevp p.
End umalloc.

(** ** The abstract heap *)

Inductive chunk := Used (n : Z) | Free (n : Z).
Definition units (c : chunk) : Z := match c with Used n | Free n => n end.

(** The bytes of a list of chunks. *)
Fixpoint total (cs : list chunk) : Z :=
  match cs with [] => 0 | c :: cs => UNIT * units c + total cs end.

(** The free blocks, with the chunks laid out from [a] on. *)
Fixpoint frees (a : Z) (cs : list chunk) : list Z :=
  match cs with
  | [] => []
  | Used n :: cs => frees (a + UNIT * n) cs
  | Free n :: cs => a :: frees (a + UNIT * n) cs
  end.

(** The first free block, [nxt] when there is none. *)
Definition first (a : Z) (cs : list chunk) (nxt : Z) : Z := default nxt (head (frees a cs)).

(** No two free chunks are next to each other. *)
Fixpoint apart (cs : list chunk) : Prop :=
  match cs with
  | [] => True
  | c :: cs' => apart cs' /\ match c, cs' with Free _, Free _ :: _ => False | _, _ => True end
  end.

(** The memory [m] has the headers of the chunks, with the free ones linked
    and the last of them linked to [nxt]. *)
Fixpoint holds (m : gmap Z Z) (a : Z) (cs : list chunk) (nxt : Z) : Prop :=
  match cs with
  | [] => True
  | c :: cs' =>
      let b := a + UNIT * units c in
      0 < units c /\ m !! (a + 4) = Some (units c) /\
      match c with Free _ => m !! a = Some (first b cs' nxt) | Used _ => True end /\
      holds m b cs' nxt
  end.

(** The words a program may use: those of the used chunks but their headers. *)
Definition payload (a : Z) (cs : list chunk) (w : Z) : Prop :=
  exists l n r, cs = l ++ Used n :: r /\ a + total l + UNIT <= w < a + total l + UNIT * n.

(** What [free] makes of a used chunk of [n] units between [l] and [r]. *)
Definition join_r (n : Z) (r : list chunk) : list chunk :=
  match r with Free k :: r' => Free (n + k) :: r' | _ => Free n :: r end.
Definition join_l (l r : list chunk) : list chunk :=
  match last l, r with
  | Some (Free k), Free n :: r' => take (length l - 1) l ++ Free (k + n) :: r'
  | _, _ => l ++ r
  end.
Definition join (l : list chunk) (n : Z) (r : list chunk) : list chunk := join_l l (join_r n r).

(** What [malloc] makes of a free chunk of [k] units. *)
Definition split (l : list chunk) (n k : Z) (r : list chunk) : list chunk :=
  l ++ (if k =? n then [Used n] else [Free (k - n); Used n]) ++ r.

(** ** Lists of chunks *)

Lemma total_app l r : total (l ++ r) = total l + total r.
Proof. induction l; simpl; lia. Qed.

Lemma frees_app a l r : frees a (l ++ r) = frees a l ++ frees (a + total l) r.
Proof.
  revert a. induction l as [|[n|n] l IH]; intros a; simpl.
  - by rewrite Z.add_0_r.
  - by rewrite IH, Z.add_assoc.
  - by rewrite IH, Z.add_assoc.
Qed.

Lemma first_app a l r nxt : first a (l ++ r) nxt = first a l (first (a + total l) r nxt).
Proof. unfold first. rewrite frees_app. by destruct (frees a l). Qed.

Lemma holds_app m a l r nxt :
  holds m a (l ++ r) nxt <-> holds m a l (first (a + total l) r nxt) /\ holds m (a + total l) r nxt.
Proof.
  revert a. induction l as [|c l IH]; intros a; cbn [app holds total]; [rewrite Z.add_0_r; tauto|].
  rewrite IH, first_app, Z.add_assoc. tauto.
Qed.

Lemma holds_total m a cs nxt : holds m a cs nxt -> 0 <= total cs.
Proof.
  revert a. induction cs as [|c cs IH]; intros a; cbn [holds total]; [lia|].
  intros (Hn & _ & _ & H). apply IH in H. unfold UNIT. lia.
Qed.

Lemma frees_range m a cs nxt x :
  holds m a cs nxt -> x ∈ frees a cs -> a <= x /\ x + UNIT <= a + total cs.
Proof.
  revert a. induction cs as [|c cs IH]; intros a; cbn [holds total]; [by intros ? ?%elem_of_nil|].
  intros (Hn & _ & _ & H) Hx. pose proof (holds_total _ _ _ _ H). unfold UNIT in *.
  assert (x ∈ frees (a + 8 * units c) cs -> a <= x /\ x + 8 <= a + (8 * units c + total cs)) as Hin.
  { intros Hx'. apply IH in Hx'; [lia|done]. }
  destruct c as [n|n]; cbn [units frees] in *; [by apply Hin|].
  apply elem_of_cons in Hx as [->|Hx]; [lia|by apply Hin].
Qed.

Lemma frees_sorted m a cs nxt : holds m a cs nxt -> StronglySorted Z.lt (frees a cs).
Proof.
  revert a. induction cs as [|c cs IH]; intros a; cbn [holds]; [constructor|].
  intros (Hn & _ & _ & H). destruct c as [n|n]; cbn [units frees] in *; [by apply IH|].
  constructor; [by apply IH|]. apply Forall_forall. intros x Hx.
  apply (frees_range _ _ _ _ _ H) in Hx. unfold UNIT in *. lia.
Qed.

(** Only the headers matter, and only those of the chunks. *)
Lemma holds_frame m m' a cs nxt :
  holds m a cs nxt -> (forall x, a <= x < a + total cs -> ~ payload a cs x -> m' !! x = m !! x) -> holds m' a cs nxt.
Proof.
  revert a. induction cs as [|c cs IH]; intros a; cbn [holds total]; [done|].
  intros (Hn & Hs & Hp & H) Hm. pose proof (holds_total _ _ _ _ H) as Ht. unfold UNIT in *.
  assert (Hhd : forall x, x = a \/ x = a + 4 -> ~ payload a (c :: cs) x).
  { intros x Hx (l & k & r & E & Hw). destruct l as [|d l]; injection E as -> ->.
    - cbn [total] in Hw. unfold UNIT in *. lia.
    - cbn [total] in Hw. apply holds_app in H as [H _]. apply holds_total in H. unfold UNIT in *. lia. }
  repeat split; [done| | |].
  - rewrite Hm; [done|lia|apply Hhd; lia].
  - destruct c; [done|]. rewrite Hm; [done|cbn [units] in *; lia|apply Hhd; lia].
  - apply IH; [done|]. intros x Hx Hno. apply Hm; [lia|].
    intros (l & k & r & E & Hw). destruct l as [|d l]; injection E as -> ->.
    + cbn [total units] in *. unfold UNIT in *. lia.
    + apply Hno. exists l, k, r. split; [done|]. cbn [total] in Hw. unfold UNIT in *. lia.
Qed.

Lemma apart_app l r : apart (l ++ r) -> apart l /\ apart r.
Proof.
  induction l as [|c l IH]; [done|]. cbn [app apart]. intros [H Hc]. apply IH in H as [Hl Hr].
  repeat split; [done| |done]. destruct c; [done|]. destruct l; [done|]. exact Hc.
Qed.

(** ** The ring of free blocks *)

(** [path m p xs r]: following the pointers from [p] meets [xs] and then [r]. *)
Fixpoint path (m : gmap Z Z) (p : Z) (xs : list Z) (r : Z) : Prop :=
  match xs with
  | [] => m !! p = Some r
  | q :: xs => m !! p = Some q /\ path m q xs r
  end.

Lemma path_app m p xs q ys r : path m p (xs ++ q :: ys) r <-> path m p xs q /\ path m q ys r.
Proof. revert p. induction xs as [|x xs IH]; intros p; cbn [app path]; [tauto|]. rewrite IH. tauto. Qed.

Lemma path_keys m p xs r x : path m p xs r -> x ∈ p :: xs -> is_Some (m !! x).
Proof.
  revert p. induction xs as [|q xs IH]; intros p Hp [->|Hx]%elem_of_cons.
  - by eexists.
  - by apply elem_of_nil in Hx.
  - destruct Hp as [Hp _]. by eexists.
  - eapply IH; [apply Hp|done].
Qed.

Lemma frees_path m p a cs nxt :
  m !! p = Some (first a cs nxt) -> holds m a cs nxt -> path m p (frees a cs) nxt.
Proof.
  revert p a. induction cs as [|[n|n] cs IH]; intros p a Hp; cbn [holds frees units path]; [done| |].
  - intros (_ & _ & _ & H). by apply IH.
  - intros (_ & _ & Ha & H). split; [done|]. by apply IH.
Qed.

(** The words that the pointers and sizes of a path take are in the memory. *)
Lemma path_length m p xs r : NoDup (p :: xs) -> path m p xs r -> (S (length xs) <= size m)%nat.
Proof.
  intros ND H. change (S (length xs)) with (length (p :: xs)).
  rewrite <- (size_list_to_set (C := gset Z)), <- size_dom by done. apply subseteq_size.
  intros x Hx%elem_of_list_to_set. apply elem_of_dom. by eapply path_keys.
Qed.

(** Whether [bp] belongs between [x] and the next block [y]. *)
Definition between (bp x y : Z) : bool :=
  ((x <? bp) && (bp <? y)) || ((y <=? x) && ((x <? bp) || (bp <? y))).

Lemma ld_run a s v : 0 <= a -> a + 4 <= brk s -> um s !! a = Some v -> ld a s = Ret s v.
Proof.
  intros H0 Hb Hv. unfold ld, mapped. rewrite (proj2 (Z.leb_le _ _)), (proj2 (Z.leb_le _ _)) by lia.
  by rewrite Hv.
Qed.

Lemma st_run a v s : 0 <= a -> a + 4 <= brk s -> st a v s = Ret (set_um (<[a := v]> (um s)) s) tt.
Proof.
  intros H0 Hb. unfold st, mapped. by rewrite (proj2 (Z.leb_le _ _)), (proj2 (Z.leb_le _ _)) by lia.
Qed.

Lemma free_walk fuel bp p xs r s :
  path (um s) p xs r -> (forall x, x ∈ p :: xs -> 0 <= x /\ x + 4 <= brk s) ->
  (exists x y, x ∈ p :: xs /\ um s !! x = Some y /\ between bp x y = true) -> (length xs < fuel)%nat ->
  exists x y, x ∈ p :: xs /\ um s !! x = Some y /\ between bp x y = true /\ free_loop fuel bp p s = Ret s x.
Proof.
  revert fuel p. induction xs as [|q xs IH]; intros fuel p Hp Hin (x & y & Hx & Hy & Hb) Hf;
    (destruct fuel as [|fuel]; [cbn in Hf; lia|]); cbn [free_loop].
  - apply elem_of_cons in Hx as [->|Hx]; [|by apply elem_of_nil in Hx]. exists p, y. repeat split; [by left|done|done|].
    unfold ptr. erewrite bind_ret by (apply ld_run; [apply Hin; by left..|exact Hy]).
    unfold between in Hb. destruct (_ && _); [done|]. cbn [orb] in Hb. by rewrite Hb.
  - destruct Hp as [Hpq Hp]. unfold ptr. erewrite bind_ret by (apply ld_run; [apply Hin; by left..|exact Hpq]).
    destruct (between bp p q) eqn:Hbq.
    + exists p, q. repeat split; [by left|done|done|]. unfold between in Hbq.
      destruct (_ && _); [done|]. cbn [orb] in Hbq. by rewrite Hbq.
    + destruct (IH fuel q) as (x' & y' & Hx' & H'); [done|intros; apply Hin; by right| |cbn in Hf; lia|].
      { apply elem_of_cons in Hx as [->|Hx]; [|by exists x, y]. exfalso. rewrite Hpq in Hy. injection Hy as ->. congruence. }
      exists x', y'. split; [by right|]. destruct H' as (? & ? & H'). repeat split; [done|done|].
      unfold between in Hbq. apply orb_false_iff in Hbq as [-> ->]. done.
Qed.

Section heap.
Context (base heap0 : Z) (Hbase : 0 < base) (Hheap : base + UNIT <= heap0).

Definition nodes (cs : list chunk) : list Z := base :: frees heap0 cs.

(** The ring from [base] through [l], on to [nxt]. *)
Definition chain (m : gmap Z Z) (l : list chunk) (nxt : Z) : Prop :=
  m !! base = Some (first heap0 l nxt) /\ m !! (base + 4) = Some 0 /\ holds m heap0 l nxt.

(** The last free block of [l]. *)
Definition last_node (l : list chunk) : Z := default base (last (frees heap0 l)).

(** The memory of the allocator: the chunks fill the heap to the end of the
    memory; once [malloc] has run, they are in the ring, and [freep] is one of
    its blocks. *)
Definition heap_ok (s : heap) (cs : list chunk) : Prop :=
  brk s = heap0 + total cs /\ heap0 <= brk s <= 2 ^ 31 /\
  (freep s = 0 /\ cs = [] \/
   freep s ∈ nodes cs /\ chain (um s) cs base /\ apart cs).

Lemma chain_app m l r nxt :
  chain m (l ++ r) nxt <-> chain m l (first (heap0 + total l) r nxt) /\ holds m (heap0 + total l) r nxt.
Proof. unfold chain. rewrite holds_app, first_app. tauto. Qed.

Lemma chain_path m cs nxt : chain m cs nxt -> path m base (frees heap0 cs) nxt.
Proof. intros (H & _ & Hh). by apply frees_path. Qed.

Lemma nodes_sorted m cs nxt : chain m cs nxt -> StronglySorted Z.lt (nodes cs).
Proof.
  intros (_ & _ & H). constructor; [by eapply frees_sorted|]. apply Forall_forall. intros x Hx.
  apply (frees_range _ _ _ _ _ H) in Hx. unfold UNIT in *. lia.
Qed.

Lemma sorted_nodup (l : list Z) : StronglySorted Z.lt l -> NoDup l.
Proof.
  induction 1 as [|x l _ IH Hx]; constructor; [|done]. intros Hin. rewrite Forall_forall in Hx.
  specialize (Hx x Hin). lia.
Qed.

Lemma nodes_range m cs nxt x : chain m cs nxt -> x ∈ nodes cs -> base <= x /\ x + UNIT <= heap0 + total cs.
Proof.
  intros (_ & _ & H) [->|Hx]%elem_of_cons.
  - apply holds_total in H. unfold UNIT in *. lia.
  - apply (frees_range _ _ _ _ _ H) in Hx. unfold UNIT in *. lia.
Qed.

(** From every block of the ring one round leads back to it. *)
Lemma ring_from m cs f : chain m cs base -> f ∈ nodes cs ->
  exists xs, path m f xs f /\ f :: xs ≡ₚ nodes cs /\ (length xs < size m)%nat.
Proof.
  intros HC Hf. pose proof (chain_path _ _ _ HC) as HP.
  assert (Hlen : (length (nodes cs) <= size m)%nat).
  { unfold nodes. cbn [length]. eapply path_length; [eapply sorted_nodup, nodes_sorted; exact HC|exact HP]. }
  assert (exists xs, path m f xs f /\ f :: xs ≡ₚ nodes cs) as (xs & Hxs & Hperm).
  { unfold nodes in *. apply elem_of_cons in Hf as [->|Hf]; [by exists (frees heap0 cs)|].
    apply list_elem_of_split in Hf as (A & B & E). rewrite E in HP |- *. apply path_app in HP as [HA HB].
    exists (B ++ base :: A). split; [by apply path_app|]. exact (Permutation_app_comm (f :: B) (base :: A)). }
  exists xs. repeat split; [done..|]. rewrite <- Hperm in Hlen. cbn in Hlen. lia.
Qed.

Lemma holds_used m a l nxt nxt' : frees a l = [] -> holds m a l nxt -> holds m a l nxt'.
Proof.
  revert a. induction l as [|[n|n] l IH]; intros a; cbn [frees holds units]; [done| |done].
  intros E (? & ? & ? & H). repeat split; [done..|]. by apply IH.
Qed.

Lemma last_free a l : frees a l <> [] ->
  exists l1 k l2, l = l1 ++ Free k :: l2 /\ frees (a + total l1 + UNIT * k) l2 = [] /\
    default base (last (frees a l)) = a + total l1.
Proof.
  induction l as [|c l IH] using rev_ind; [done|]. rewrite frees_app. destruct c as [n|n]; cbn [frees].
  - rewrite app_nil_r. intros (l1 & k & l2 & -> & E & HL)%IH. exists l1, k, (l2 ++ [Used n]).
    split; [by rewrite <- app_assoc|]. split; [|done]. by rewrite frees_app, E.
  - intros _. exists l, n, []. repeat split. by rewrite last_snoc.
Qed.

(** A list of chunks is used throughout, or has a last free chunk. *)
Lemma last_node_cases l :
  (frees heap0 l = [] /\ last_node l = base) \/
  (exists l1 k l2, l = l1 ++ Free k :: l2 /\ frees (heap0 + total l1 + UNIT * k) l2 = [] /\ last_node l = heap0 + total l1).
Proof.
  unfold last_node. destruct (decide (frees heap0 l = [])) as [E|E]; [left; by rewrite E|right; by apply last_free].
Qed.

Lemma path_last m p xs r : path m p xs r -> m !! default p (last xs) = Some r.
Proof.
  destruct xs as [|x xs _] using rev_ind; [done|]. rewrite last_snoc. by intros [_ H]%path_app.
Qed.

Lemma last_node_ptr m l nxt : chain m l nxt -> m !! last_node l = Some nxt.
Proof. intros H%chain_path. by apply path_last. Qed.

Lemma last_node_in l r : last_node l ∈ nodes (l ++ r).
Proof.
  unfold last_node, nodes. rewrite frees_app. destruct (last _) as [x|] eqn:E; [|by left].
  right. apply elem_of_app. left. apply last_Some in E as [xs ->]. apply elem_of_app. right. by left.
Qed.

Lemma last_node_size m l nxt : chain m l nxt ->
  exists k, m !! (last_node l + 4) = Some k /\ 0 <= k /\ last_node l + UNIT * k <= heap0 + total l /\
    (forall l' j, l = l' ++ [Used j] -> last_node l + UNIT * k < heap0 + total l) /\
    (l = [] -> last_node l + UNIT * k < heap0 + total l).
Proof.
  intros (_ & Hb & H). pose proof (holds_total _ _ _ _ H) as Ht.
  destruct (last_node_cases l) as [[_ ->]|(l1 & k & l2 & -> & E & ->)].
  - exists 0. unfold UNIT in *. repeat split; [done|lia..].
  - exists k. apply holds_app in H as [_ (Hk & Hs & _ & H2)]. cbn [units] in *. rewrite total_app in *. cbn [total units] in *.
    pose proof (holds_total _ _ _ _ H2). repeat split; [done|lia|lia| |by destruct l1].
    intros l' j El. destruct l2 as [|c l2 _] using rev_ind.
    { apply app_inj_tail in El as [_ El]. done. }
    rewrite app_comm_cons, app_assoc in El. apply app_inj_tail in El as [_ ->].
    apply holds_app in H2 as [Ha (Hj & _)]. apply holds_total in Ha. rewrite total_app. cbn [total units] in *.
    unfold UNIT in *. lia.
Qed.

Lemma last_node_base m l nxt : chain m l nxt -> base <= last_node l.
Proof.
  intros (_ & _ & H). destruct (last_node_cases l) as [[_ ->]|(l1 & k & l2 & -> & _ & ->)]; [lia|].
  apply holds_app in H as [H _]. apply holds_total in H. unfold UNIT in *. lia.
Qed.

Lemma chain_same m m' l nxt :
  chain m l nxt -> (forall x, base <= x < heap0 + total l -> ~ payload heap0 l x -> m' !! x = m !! x) -> chain m' l nxt.
Proof.
  intros (H1 & H2 & H) Hm. pose proof (holds_total _ _ _ _ H). unfold UNIT in *.
  assert (forall x, x < heap0 -> ~ payload heap0 l x) as Hno.
  { intros x Hx (l1 & k & r & -> & Hw). apply holds_app in H as [H _]. apply holds_total in H. unfold UNIT in *. lia. }
  repeat split; [rewrite Hm by (try apply Hno; lia); done..|]. eapply holds_frame; [exact H|]. intros. apply Hm; [lia|done].
Qed.

Lemma chain_set m l nxt nxt' : chain m l nxt -> chain (<[last_node l := nxt']> m) l nxt'.
Proof.
  intros (H1 & H2 & H). pose proof (holds_total _ _ _ _ H). unfold UNIT in *.
  destruct (last_node_cases l) as [[E ->]|(l1 & k & l2 & -> & E & ->)].
  - repeat split.
    + rewrite lookup_insert_eq. unfold first. by rewrite E.
    + by rewrite lookup_insert_ne by lia.
    + apply (holds_frame m); [by eapply holds_used|]. intros. by rewrite lookup_insert_ne by lia.
  - apply holds_app in H as [Ha (Hk & Hs & _ & H2')]. cbn [units] in *.
    pose proof (holds_total _ _ _ _ Ha). repeat split.
    + rewrite lookup_insert_ne by lia. rewrite H1, !first_app. done.
    + by rewrite lookup_insert_ne by lia.
    + apply holds_app. split.
      * eapply holds_frame; [exact Ha|]. intros. by rewrite lookup_insert_ne by lia.
      * cbn [holds units]. unfold UNIT in *. repeat split; [done|by rewrite lookup_insert_ne by lia| |].
        -- rewrite lookup_insert_eq. unfold first. by rewrite E.
        -- apply (holds_frame m); [by eapply holds_used|]. intros. by rewrite lookup_insert_ne by lia.
Qed.

Lemma sorted_app (xs ys : list Z) x y : StronglySorted Z.lt (xs ++ ys) -> x ∈ xs -> y ∈ ys -> x < y.
Proof.
  induction xs as [|z xs IH]; cbn [app]; [by intros _ ?%elem_of_nil|].
  inversion_clear 1 as [|? ? Hs Hf]. intros [->|Hx]%elem_of_cons Hy; [|by apply IH].
  rewrite Forall_forall in Hf. apply Hf, elem_of_app. by right.
Qed.

Lemma path_next m p xs r A x B : path m p xs r -> p :: xs = A ++ x :: B -> m !! x = Some (default r (head B)).
Proof.
  revert p xs. induction A as [|a A IH]; intros p xs Hp E; injection E as -> ->.
  - destruct B; [done|]. apply Hp.
  - destruct (A ++ x :: B) as [|q l] eqn:E; [by destruct A|]. eapply IH; [exact (proj2 Hp)|reflexivity].
Qed.

(** Only the free block before the place of a chunk qualifies in the loop of
    [free], and that one does. *)
Lemma between_unique m l n r x y :
  chain m (l ++ Used n :: r) base -> x ∈ nodes (l ++ Used n :: r) -> m !! x = Some y ->
  between (heap0 + total l) x y = true -> x = last_node l.
Proof.
  intros HC Hx Hy Hb. pose proof (nodes_sorted _ _ _ HC) as HS. pose proof (chain_path _ _ _ HC) as HP.
  apply chain_app in HC as [HCl Hr]. pose proof HCl as (_ & _ & Hl). apply list_elem_of_split in Hx as (A & B & E).
  rewrite (path_next _ _ _ _ _ _ _ HP E) in Hy. injection Hy as <-.
  unfold nodes in E, HS. rewrite frees_app, app_comm_cons in E, HS. cbn [frees] in E, HS.
  destruct Hr as (Hn & _ & _ & Hr). cbn [units] in *.
  assert (Hhi : forall z, z ∈ frees (heap0 + total l + UNIT * n) r -> heap0 + total l < z).
  { intros z Hz. apply (frees_range _ _ _ _ _ Hr) in Hz. unfold UNIT in *. lia. }
  assert (Hlo : forall z, z ∈ base :: frees heap0 l -> z < heap0 + total l).
  { intros z Hz. destruct (nodes_range _ _ _ z HCl Hz). unfold UNIT in *. lia. }
  pose proof (Hlo base (list_elem_of_here _ _)) as Hb0.
  assert (Hs : forall z, z ∈ B -> x < z).
  { intros z Hz. rewrite E in HS. rewrite (cons_middle x A B), app_assoc in HS.
    eapply sorted_app; [exact HS| |exact Hz]. apply elem_of_app. right. by left. }
  unfold between in Hb. apply app_eq_app in E as (C & [[E1 E2]|[E1 E2]]).
  - destruct C as [|c C].
    + cbn [app] in E2. destruct B as [|b B]; cbn [from_option id head] in Hb.
      * assert (heap0 + total l < x) by (apply Hhi; rewrite <- E2; by left). lia.
      * specialize (Hs b (list_elem_of_here _ _)).
        assert (heap0 + total l < x) by (apply Hhi; rewrite <- E2; by left). lia.
    + injection E2 as <- E2. destruct C as [|d C].
      * unfold last_node. apply (f_equal last) in E1. rewrite last_snoc in E1.
        destruct (frees heap0 l) as [|f fl]; [by injection E1|]. rewrite last_cons_cons in E1. by rewrite E1.
      * exfalso. rewrite E2 in Hb, Hs. cbn [app from_option id head] in Hb. specialize (Hs d (list_elem_of_here _ _)).
        assert (d < heap0 + total l).
        { apply Hlo. rewrite E1. apply elem_of_app. right. right. by left. }
        lia.
  - exfalso. assert (heap0 + total l < x) as Hxl by (apply Hhi; rewrite E2; apply elem_of_app; right; by left).
    destruct B as [|b B]; cbn [from_option id head] in Hb; [lia|]. specialize (Hs b (list_elem_of_here _ _)). lia.
Qed.

Lemma between_last m l n r :
  chain m (l ++ Used n :: r) base -> between (heap0 + total l) (last_node l) (first (heap0 + total l + UNIT * n) r base) = true.
Proof.
  intros HC. apply chain_app in HC as [HCl (Hn & _ & _ & Hr)]. cbn [units] in *.
  assert (last_node l < heap0 + total l) as Hp.
  { pose proof (last_node_in l []) as Hin. rewrite app_nil_r in Hin.
    destruct (nodes_range _ _ _ _ HCl Hin). unfold UNIT in *. lia. }
  pose proof (last_node_base _ _ _ HCl) as Hb0.
  unfold between, first. destruct (frees _ r) as [|f fs] eqn:E; cbn [from_option id head]; [lia|].
  assert (f ∈ frees (heap0 + total l + UNIT * n) r) as Hf by (rewrite E; by left).
  apply (frees_range _ _ _ _ _ Hr) in Hf. unfold UNIT in *. lia.
Qed.

(** ** [free] *)

Lemma usize_run p s v : 0 <= p -> p + 8 <= brk s -> brk s <= 2 ^ 31 -> um s !! (p + 4) = Some v -> usize p s = Ret s v.
Proof. intros. unfold usize. rewrite u32_small by (unfold is_u32; lia). apply ld_run; [lia|lia|done]. Qed.

Lemma st_size_run p v s : 0 <= p -> p + 8 <= brk s -> brk s <= 2 ^ 31 ->
  st_size p v s = Ret (set_um (<[p + 4 := v]> (um s)) s) tt.
Proof. intros. unfold st_size. rewrite u32_small by (unfold is_u32; lia). apply st_run; lia. Qed.

Lemma hdr_add_small p n : 0 <= p + UNIT * n <= 2 ^ 31 -> hdr_add p n = p + UNIT * n.
Proof. intros. unfold hdr_add. apply u32_small. unfold is_u32. lia. Qed.

(** Run a load, of which the word is known, or a store. *)
Ltac hlia := cbn [set_um set_freep um brk freep]; lia.
Ltac mem_step H := erewrite bind_ret by (first
  [apply usize_run; [hlia|hlia|hlia|exact H] | apply ld_run; [hlia|hlia|exact H]]).
Ltac mem_store := erewrite bind_ret by (first [apply st_size_run; hlia | apply st_run; hlia]).

(** The memory is the same elsewhere. *)
Definition same_but (P : Z -> Prop) (m m' : gmap Z Z) : Prop := forall x, ~ P x -> m' !! x = m !! x.

Lemma first_not_adjacent m a r : holds m a r base -> base < a ->
  match r with Free _ :: _ => True | _ => first a r base <> a end.
Proof.
  intros H Hb. destruct r as [|[j|j] r]; [unfold first; cbn; lia| |done].
  destruct H as (Hj & _ & _ & H). cbn [units] in *. unfold first. cbn [frees].
  destruct (frees _ r) as [|f fs] eqn:E; cbn [from_option id head]; [lia|].
  assert (f ∈ frees (a + UNIT * j) r) as Hf by (rewrite E; by left).
  apply (frees_range _ _ _ _ _ H) in Hf. unfold UNIT in *. lia.
Qed.

Lemma join_upper_run s l n r :
  brk s = heap0 + total (l ++ Used n :: r) -> brk s <= 2 ^ 31 -> chain (um s) (l ++ Used n :: r) base ->
  let bp := heap0 + total l in
  exists m1, join_upper bp (last_node l) s = Ret (set_um m1 s) tt /\
    same_but (fun x => x = bp \/ x = bp + 4) (um s) m1 /\ holds m1 bp (join_r n r) base.
Proof.
  intros Hbrk Hmax HC bp. rewrite total_app in Hbrk. cbn [total units] in Hbrk.
  apply chain_app in HC as [HCl (Hn & Hs & _ & Hr)]. fold bp in HCl, Hs, Hr. cbn [units] in *.
  pose proof (holds_total _ _ _ _ (proj2 (proj2 HCl))) as Htl. pose proof (holds_total _ _ _ _ Hr) as Htr.
  pose proof (last_node_in l []) as Hin. rewrite app_nil_r in Hin. destruct (nodes_range _ _ _ _ HCl Hin) as [Hp0 Hp1].
  pose proof (last_node_ptr _ _ _ HCl) as Hp. change (first bp (Used n :: r) base) with (first (bp + UNIT * n) r base) in Hp.
  unfold UNIT in *. subst bp. unfold join_upper. mem_step Hs.
  unfold ptr, st_ptr. mem_step Hp.
  rewrite hdr_add_small by (unfold UNIT; lia). unfold UNIT.
  pose proof (first_not_adjacent _ _ _ Hr ltac:(lia)) as Hna.
  assert ((exists k r', r = Free k :: r') \/
          join_r n r = Free n :: r /\ first (heap0 + total l + 8 * n) r base <> heap0 + total l + 8 * n) as
    [(k & r' & ->)|[-> Hne]] by (destruct r as [|[j|j] r']; eauto).
  2: { rewrite (proj2 (Z.eqb_neq _ _)), st_run by (congruence || lia). eexists. split; [reflexivity|]. split.
       - intros x Hx. apply lookup_insert_ne. intros <-. apply Hx. by left.
       - cbn [holds units]. unfold UNIT. repeat split; [done|by rewrite lookup_insert_ne by lia|apply lookup_insert_eq|].
         eapply holds_frame; [exact Hr|]. intros. by rewrite lookup_insert_ne by lia. }
  destruct Hr as (Hk & Hks & Hkp & Hr). cbn [total units] in *. unfold UNIT in *.
  pose proof (holds_total _ _ _ _ Hr). change (first ?a (Free k :: r') base) with a. rewrite Z.eqb_refl.
  mem_step Hks.
  rewrite (u32_small (n + k)) by (unfold is_u32; lia).
  mem_store.
  assert (<[heap0 + total l + 4 := n + k]> (um s) !! (heap0 + total l + 8 * n) =
    Some (first (heap0 + total l + 8 * n + 8 * k) r' base)) as Hq by (by rewrite lookup_insert_ne by lia).
  mem_step Hq. rewrite st_run by hlia. eexists. split; [reflexivity|]. split.
  - intros x Hx. cbn [set_um um]. rewrite !lookup_insert_ne; [done|intros <-; apply Hx; by right|intros <-; apply Hx; by left].
  - cbn [join_r holds units set_um um]. unfold UNIT. repeat split; [lia| | |].
    + rewrite lookup_insert_ne by lia. apply lookup_insert_eq.
    + rewrite lookup_insert_eq. do 2 f_equal. lia.
    + replace (heap0 + total l + 8 * (n + k)) with (heap0 + total l + 8 * n + 8 * k) by lia.
      eapply holds_frame; [exact Hr|]. intros. by rewrite !lookup_insert_ne by lia.
Qed.

Lemma join_lower_run s l n r q :
  brk s = heap0 + total (l ++ Free n :: r) -> brk s <= 2 ^ 31 ->
  chain (um s) l q -> holds (um s) (heap0 + total l) (Free n :: r) base ->
  let p := last_node l in
  exists m2, join_lower (heap0 + total l) p s = Ret (set_um m2 s) tt /\
    same_but (fun x => x = p \/ x = p + 4) (um s) m2 /\ chain m2 (join_l l (Free n :: r)) base.
Proof.
  intros Hbrk Hmax HCl Hr p. rewrite total_app in Hbrk. cbn [total units] in Hbrk.
  pose proof (holds_total _ _ _ _ (proj2 (proj2 HCl))) as Htl. destruct (Hr) as (Hn & Hns & Hnp & Hr').
  change (holds (um s) (heap0 + total l + UNIT * n) r base) in Hr'. pose proof (holds_total _ _ _ _ Hr'). cbn [units] in *. unfold UNIT in *.
  pose proof (last_node_in l []) as Hin. rewrite app_nil_r in Hin. destruct (nodes_range _ _ _ _ HCl Hin) as [Hp0 Hp1].
  destruct (last_node_size _ _ _ HCl) as (k & Hk & Hk0 & Hkle & Hku & Hke). unfold UNIT in *.
  unfold join_lower, ptr, st_ptr, p. mem_step Hk. rewrite hdr_add_small by (unfold UNIT; lia). unfold UNIT.
  assert ((exists l' j, l = l' ++ [Free j]) \/
          join_l l (Free n :: r) = l ++ Free n :: r /\ last_node l + 8 * k <> heap0 + total l) as
    [(l' & j & ->)|[-> Hne]].
  { destruct l as [|[j|j] l' _] using rev_ind; [right; split; [done|]; specialize (Hke eq_refl); lia| |left; eauto].
    right. unfold join_l. rewrite last_snoc. split; [done|]. specialize (Hku l' j eq_refl). lia. }
  2: { rewrite (proj2 (Z.eqb_neq _ _)), st_run by (done || lia). eexists. split; [reflexivity|]. split.
       - intros x Hx. apply lookup_insert_ne. intros <-. apply Hx. by left.
       - apply chain_app. split; [by eapply chain_set|]. eapply holds_frame; [exact Hr|].
         intros. by rewrite lookup_insert_ne by (unfold UNIT in *; lia). }
  apply chain_app in HCl as [HCl' (Hj & Hjs & Hjp & _)]. cbn [units] in *. pose proof (holds_total _ _ _ _ (proj2 (proj2 HCl'))).
  assert (last_node (l' ++ [Free j]) = heap0 + total l') as E.
  { unfold last_node. rewrite frees_app. cbn [frees]. by rewrite last_snoc. }
  rewrite E in *. rewrite Hjs in Hk. injection Hk as ->. rewrite total_app in *. cbn [total units] in *. unfold UNIT in *.
  rewrite (proj2 (Z.eqb_eq _ _)) by lia. mem_step Hns. rewrite (u32_small (k + n)) by (unfold is_u32; lia). mem_store.
  assert (<[heap0 + total l' + 4 := k + n]> (um s) !! (heap0 + (total l' + (8 * k + 0))) =
    Some (first (heap0 + (total l' + (8 * k + 0)) + 8 * n) r base)) as Hq by (by rewrite lookup_insert_ne by lia).
  mem_step Hq. rewrite st_run by hlia. eexists. split; [reflexivity|]. split.
  - intros x Hx. cbn [set_um um]. rewrite !lookup_insert_ne; [done|intros <-; apply Hx; by right|intros <-; apply Hx; by left].
  - unfold join_l. rewrite last_snoc, length_app, take_app_length' by (cbn; lia). apply chain_app. cbn [set_um um]. split.
    + eapply chain_same; [exact HCl'|]. intros. by rewrite !lookup_insert_ne by lia.
    + cbn [holds units]. unfold UNIT. repeat split; [lia| | |].
      * rewrite lookup_insert_ne by lia. apply lookup_insert_eq.
      * rewrite lookup_insert_eq. do 2 f_equal. lia.
      * replace (heap0 + total l' + 8 * (k + n)) with (heap0 + (total l' + (8 * k + 0)) + 8 * n) by lia.
        eapply holds_frame; [exact Hr'|]. intros. by rewrite !lookup_insert_ne by lia.
Qed.

Lemma payload_cons a c cs w : payload a (c :: cs) w ->
  (c = Used (units c) /\ a + UNIT <= w < a + UNIT * units c) \/ payload (a + UNIT * units c) cs w.
Proof.
  intros (l & n & r & E & Hw). destruct l as [|d l]; injection E as -> ->.
  - left. cbn [units total] in *. rewrite Z.add_0_r in Hw. by split.
  - right. exists l, n, r. cbn [total] in Hw. split; [done|lia].
Qed.

Lemma payload_range m a cs nxt w : holds m a cs nxt -> payload a cs w -> a + UNIT <= w < a + total cs.
Proof.
  intros H (l & n & r & -> & Hw). apply holds_app in H as [Hl (Hn & _ & _ & Hr)].
  apply holds_total in Hl, Hr. rewrite total_app. cbn [total units] in *. lia.
Qed.

Lemma frees_not_payload m a cs nxt x w :
  holds m a cs nxt -> x ∈ frees a cs -> x <= w < x + UNIT -> ~ payload a cs w.
Proof.
  revert a. induction cs as [|c cs IH]; intros a; [by intros _ ?%elem_of_nil|].
  intros (Hn & _ & _ & H) Hx Hw Hp. change (holds m (a + UNIT * units c) cs nxt) in H.
  apply payload_cons in Hp as [[Hc Hp]|Hp].
  - rewrite Hc in Hx. apply (frees_range _ _ _ _ _ H) in Hx. lia.
  - destruct c as [k|k]; cbn [frees units] in *; [by eapply IH|].
    apply elem_of_cons in Hx as [->|Hx]; [|by eapply IH]. apply (payload_range _ _ _ _ _ H) in Hp. unfold UNIT in *. lia.
Qed.

Lemma nodes_not_payload m cs nxt x w :
  chain m cs nxt -> x ∈ nodes cs -> x <= w < x + UNIT -> ~ payload heap0 cs w.
Proof.
  intros (_ & _ & H) [->|Hx]%elem_of_cons Hw; [|by eapply frees_not_payload].
  intros Hp%(payload_range _ _ _ _ _ H). unfold UNIT in *. lia.
Qed.

Lemma apart_snoc l c r : apart (l ++ [c]) -> apart (c :: r) -> apart (l ++ c :: r).
Proof.
  induction l as [|d l IH]; [done|]. cbn [app apart]. intros [H Hd] Hr. split; [by apply IH|].
  destruct d; [done|]. destruct l as [|e l]; [exact Hd|exact Hd].
Qed.

Lemma apart_join_r n r : apart r -> apart (join_r n r).
Proof. destruct r as [|[k|k] r]; cbn; [tauto..|]. destruct r as [|[j|j] r]; tauto. Qed.

Lemma join_r_cons n r : exists k r', join_r n r = Free k :: r' /\ total (join_r n r) = UNIT * n + total r.
Proof.
  destruct r as [|[k|k] r]; cbn [join_r]; eexists _, _; (split; [reflexivity|]); cbn [total units]; lia.
Qed.

Lemma join_ok l n r : apart (l ++ Used n :: r) ->
  apart (join l n r) /\ total (join l n r) = total (l ++ Used n :: r) /\ last_node l ∈ nodes (join l n r).
Proof.
  intros [Hl [Hr _]]%apart_app. apply (apart_join_r n) in Hr. destruct (join_r_cons n r) as (k & r' & E & Ht).
  unfold join. rewrite E in *. rewrite total_app. cbn [total units] in Ht |- *. unfold join_l.
  destruct l as [|[j|j] l _] using rev_ind; cbn [last].
  - repeat split; [apply Hr..|cbn [app total units]; lia|apply (last_node_in [])].
  - rewrite last_snoc. repeat split; [|rewrite !total_app; cbn [total units]; lia|apply last_node_in].
    rewrite <- app_assoc. apply apart_snoc; [done|]. cbn [app apart]. done.
  - rewrite last_snoc, length_app, take_app_length' by (cbn; lia). repeat split.
    + apply apart_snoc.
      * clear -Hl. induction l as [|d l IH]; [done|]. cbn [app apart] in *. destruct Hl as [Hl Hd]. split; [by apply IH|].
        destruct d; [done|]. by destruct l.
      * destruct r'; cbn [apart] in *; tauto.
    + rewrite !total_app. cbn [total units]. lia.
    + unfold last_node, nodes. rewrite !frees_app. cbn [frees]. rewrite last_snoc. cbn [from_option id].
      right. apply elem_of_app. right. by left.
Qed.

Lemma free_run s l n r :
  heap_ok s (l ++ Used n :: r) ->
  exists s', free (heap0 + total l + UNIT) s = Ret s' tt /\ heap_ok s' (join l n r) /\
    (forall w, payload heap0 (l ++ Used n :: r) w -> ~ heap0 + total l <= w < heap0 + total l + UNIT * n ->
       um s' !! w = um s !! w).
Proof.
  intros (Hbrk & Hmax & [[_ E]|(Hfp & HC & Ha)]); [by destruct l|].
  assert (Hbp : hdr_add (heap0 + total l + UNIT) (-1) = heap0 + total l).
  { pose proof HC as [HCl (Hn & _ & _ & Hr)]%chain_app. apply holds_total in Hr.
    pose proof (holds_total _ _ _ _ (proj2 (proj2 HCl))). rewrite total_app in Hbrk. cbn [total units] in *.
    rewrite hdr_add_small by (unfold UNIT in *; lia). unfold UNIT. lia. }
  destruct (ring_from _ _ _ HC Hfp) as (xs & Hpath & Hperm & Hlen).
  unfold free. rewrite Hbp, gets_bind. unfold ring_fuel. rewrite gets_bind.
  destruct (free_walk (S (size (um s))) (heap0 + total l) (freep s) xs (freep s) s) as (x & y & Hx & Hy & Hb & Hrun);
    [done| | |lia|].
  { intros z Hz. rewrite Hperm in Hz. destruct (nodes_range _ _ _ _ HC Hz). unfold UNIT in *. lia. }
  { exists (last_node l), (first (heap0 + total l + UNIT * n) r base). split; [rewrite Hperm; apply last_node_in|].
    split; [|by eapply between_last]. apply chain_app in HC as [HCl _]. by apply last_node_ptr. }
  rewrite Hperm in Hx. apply (between_unique _ _ _ _ _ _ HC Hx Hy) in Hb as ->. mrun Hrun.
  destruct (join_upper_run s l n r) as (m1 & R1 & Hm1 & H1); [done|lia|done|]. mrun R1.
  destruct (join_ok l n r Ha) as (Hja & Hjt & Hjn). destruct (join_r_cons n r) as (k & r' & Er & Ht). unfold join in *. rewrite Er in *.
  pose proof HC as [HCl (Hn & _ & _ & Hr)]%chain_app. pose proof (holds_total _ _ _ _ Hr). pose proof (holds_total _ _ _ _ (proj2 (proj2 HCl))).
  rewrite total_app in Hbrk, Hjt. cbn [total units] in *.
  destruct (join_lower_run (set_um m1 s) l k r' (first (heap0 + total l) (Used n :: r) base)) as (m2 & R2 & Hm2 & H2).
  { cbn [set_um brk]. rewrite total_app. cbn [total units]. lia. }
  { cbn [set_um brk]. lia. }
  { eapply chain_same; [exact HCl|]. intros z Hz _. apply Hm1. lia. }
  { exact H1. }
  mrun R2. eexists. split; [reflexivity|]. destruct (nodes_range _ _ _ (last_node l) HC (last_node_in _ _)).
  split.
  - split; [|split; [cbn [set_freep set_um brk]; lia|right; done]]. cbn [set_freep set_um brk]. rewrite Hjt. lia.
  - intros w Hw Hno. cbn [set_freep set_um um]. rewrite Hm2, Hm1; [done|unfold UNIT in *; lia|].
    intros Hp. eapply (nodes_not_payload _ _ _ (last_node l)); [exact HC|apply last_node_in| |exact Hw].
    unfold UNIT in *. lia.
Qed.

(** ** [morecore] *)

Lemma apart_used l n : apart l -> apart (l ++ [Used n]).
Proof.
  induction l as [|c l IH]; [done|]. cbn [app apart]. intros [H Hc]. split; [by apply IH|].
  destruct c; [done|]. by destruct l.
Qed.

Lemma payload_snoc a cs c w : payload a cs w -> payload a (cs ++ [c]) w.
Proof. intros (l & n & r & -> & Hw). exists l, n, (r ++ [c]). by rewrite <- app_assoc. Qed.

(** A new chunk at the end of the memory, once its size is written. *)
Lemma grown_ok s cs n :
  heap_ok s cs -> freep s <> 0 -> 0 < n -> brk s + UNIT * n <= 2 ^ 31 ->
  heap_ok (set_um (<[brk s + 4 := n]> (um s)) (set_brk (brk s + UNIT * n) s)) (cs ++ [Used n]).
Proof.
  intros (Hbrk & Hmax & [[? _]|(Hfp & HC & Ha)]) Hf Hn Hb; [done|]. unfold heap_ok.
  cbn [set_um set_brk um brk freep]. rewrite total_app. cbn [total units].
  pose proof (holds_total _ _ _ _ (proj2 (proj2 HC))). unfold UNIT in *.
  split; [lia|split; [lia|right]]. split; [|split; [|by apply apart_used]].
  - unfold nodes in *. rewrite frees_app. cbn [frees]. by rewrite app_nil_r.
  - apply chain_app. split.
    + eapply chain_same; [exact HC|]. intros. by rewrite lookup_insert_ne by lia.
    + cbn [holds units]. repeat split; [lia|]. rewrite Hbrk. apply lookup_insert_eq.
Qed.

Section grow.
Context (grows : Z -> Z -> option Z).
Context (Hgrows : forall b n b', 0 < n -> grows b n = Some b' -> b' = b + n /\ b' < 2 ^ 31).

Definition core_units (nu : Z) : Z := if nu <? 4096 then 4096 else nu.

Lemma morecore_run s cs nu :
  heap_ok s cs -> freep s <> 0 -> 0 < nu < 2 ^ 28 ->
  (morecore grows nu s = Ret s 0 /\ grows (brk s) (UNIT * core_units nu) = None) \/
  exists s', morecore grows nu s = Ret s' (freep s') /\ heap_ok s' (join cs (core_units nu) []) /\ freep s' <> 0 /\
    (forall w, payload heap0 cs w -> um s' !! w = um s !! w).
Proof.
  intros HH Hf Hnu. unfold morecore. fold (core_units nu).
  assert (0 < core_units nu < 2 ^ 28) as Hc by (unfold core_units; destruct (Z.ltb_spec nu 4096); lia).
  rewrite i32_small, (Z.mul_comm _ UNIT) by (unfold UNIT; lia).
  destruct (grows (brk s) (UNIT * core_units nu)) as [b'|] eqn:Eg.
  2: { left. split; [|done]. unfold bind, sbrk. by rewrite Eg. }
  assert (sbrk grows (UNIT * core_units nu) s = Ret (set_brk b' s) (brk s)) as R0 by (unfold sbrk; by rewrite Eg).
  right. mrun R0. apply Hgrows in Eg as [-> Hb']; [|unfold UNIT; lia]. pose proof HH as (Hbrk & Hmax & _).
  unfold UNIT in Hheap, Hb'. rewrite (proj2 (Z.eqb_neq _ _)) by (change (u32 (-1)) with (2 ^ 32 - 1); lia).
  erewrite bind_ret by (apply st_size_run; cbn [set_brk brk]; unfold UNIT; lia).
  rewrite hdr_add_small by (unfold UNIT; lia). rewrite Z.mul_1_r.
  pose proof (grown_ok s cs (core_units nu) HH Hf ltac:(lia) ltac:(unfold UNIT; lia)) as HG.
  destruct (free_run _ _ _ _ HG) as (s' & R & HH' & Hfr). rewrite <- Hbrk in R. cbn [set_brk um] in R |- *. mrun R.
  exists s'. split; [done|]. split; [done|]. split.
  - destruct HH' as (_ & _ & [[_ E]|(Hin & HC' & _)]).
    + exfalso. unfold join, join_l in E. cbn [join_r] in E. destruct (last cs) as [[]|]; by apply app_eq_nil in E as [_ ?].
    + apply (nodes_range _ _ _ _ HC') in Hin. lia.
  - intros w Hw. pose proof HH as (_ & _ & [[? _]|(_ & HC & _)]); [done|].
    pose proof (payload_range _ _ _ _ _ (proj2 (proj2 HC)) Hw). rewrite Hfr; [|by apply payload_snoc|lia].
    cbn [set_um um]. rewrite lookup_insert_ne by lia. done.
Qed.

(** ** [malloc] *)

Lemma frees_split a cs x : x ∈ frees a cs -> exists l k r, cs = l ++ Free k :: r /\ x = a + total l.
Proof.
  revert a. induction cs as [|c cs IH]; intros a; [by intros ?%elem_of_nil|].
  assert (x ∈ frees (a + UNIT * units c) cs -> exists l k r, c :: cs = l ++ Free k :: r /\ x = a + total l) as Hin.
  { intros (l & k & r & -> & ->)%IH. exists (c :: l), k, r. split; [done|]. cbn [total]. lia. }
  destruct c as [n|n]; cbn [frees units] in *; [done|]. intros [->|Hx]%elem_of_cons; [|by apply Hin].
  exists [], n, cs. split; [done|]. cbn [total]. lia.
Qed.

(** The block before a free chunk in the ring is the last free block below. *)
Lemma before_unique m l k r prev :
  chain m (l ++ Free k :: r) base -> prev ∈ nodes (l ++ Free k :: r) ->
  m !! prev = Some (heap0 + total l) -> prev = last_node l.
Proof.
  intros HC Hin Hp. pose proof (chain_path _ _ _ HC) as HP. pose proof (sorted_nodup _ (nodes_sorted _ _ _ HC)) as ND.
  pose proof (holds_total _ _ _ _ (proj2 (proj2 (proj1 (proj1 (chain_app _ _ _ _) HC))))) as Ht.
  apply list_elem_of_split in Hin as (A & B & E). rewrite (path_next _ _ _ _ _ _ _ HP E) in Hp. injection Hp as Hp.
  rewrite E in ND. destruct B as [|b B]; cbn [from_option id head] in Hp; [unfold UNIT in *; lia|]. subst b.
  unfold nodes in E. rewrite frees_app, app_comm_cons in E. cbn [frees] in E.
  assert (length (base :: frees heap0 l) = S (length A)) as Hlen.
  { apply (NoDup_lookup _ _ _ (heap0 + total l) ND).
    - rewrite <- E. apply list_lookup_middle. done.
    - rewrite cons_middle, app_assoc. apply list_lookup_middle. rewrite length_app. cbn. lia. }
  rewrite (cons_middle prev A), (app_assoc A [prev]) in E. apply app_inj_1 in E as [E _]; [|rewrite length_app; cbn in *; lia].
  unfold last_node. apply (f_equal last) in E. rewrite last_snoc in E. destruct (frees heap0 l) as [|f fs]; [by injection E|].
  rewrite last_cons_cons in E. by rewrite E.
Qed.

Lemma apart_middle l c c' r : apart (l ++ c :: r) ->
  match c' with Used _ => True | Free _ => exists k, c = Free k end -> apart (l ++ c' :: r).
Proof.
  intros H Hc. induction l as [|d l IH]; cbn [app apart] in *.
  - destruct H as [H Hr]. split; [done|]. destruct c'; [done|]. by destruct Hc as [k ->].
  - destruct H as [H Hd]. split; [by apply IH|]. destruct d; [done|].
    destruct l as [|e l]; cbn [app] in *; [|done]. destruct c'; [done|]. by destruct Hc as [k ->].
Qed.

Lemma split_ok l n k r : apart (l ++ Free k :: r) ->
  apart (split l n k r) /\ total (split l n k r) = total (l ++ Free k :: r).
Proof.
  intros H. unfold split. rewrite !total_app. destruct (Z.eqb_spec k n) as [->|Hne]; cbn [app total units].
  - split; [|lia]. by eapply apart_middle.
  - split; [|lia]. apply apart_app in H as Hlr. destruct Hlr as [_ Hr].
    apply (apart_middle _ _ (Free (k - n))) in H; [|by exists k]. clear -H Hr.
    induction l as [|d l IH]; cbn [app apart] in *; [tauto|]. destruct H as [H Hd]. split; [by apply IH|].
    destruct d; [done|]. by destruct l.
Qed.

Lemma payload_free m a l k r nxt w : holds m a (l ++ Free k :: r) nxt -> payload a (l ++ Free k :: r) w ->
  ~ a + total l <= w < a + total l + UNIT * k.
Proof.
  revert a. induction l as [|c l IH]; intros a H Hp.
  - cbn [app total] in *. destruct H as (_ & _ & _ & H). apply payload_cons in Hp as [[? _]|Hp]; [done|].
    apply (payload_range _ _ _ _ _ H) in Hp. cbn [units] in Hp. unfold UNIT in *. lia.
  - destruct H as (Hc & _ & _ & H). change (holds m (a + UNIT * units c) (l ++ Free k :: r) nxt) in H.
    cbn [total]. rewrite Z.add_assoc. apply payload_cons in Hp as [[_ Hp]|Hp]; [|by apply IH].
    apply holds_app in H as [Hl _]. apply holds_total in Hl. lia.
Qed.

(** The memory after a chunk is taken. *)
Definition taken (l : list chunk) (n k : Z) (r : list chunk) (m : gmap Z Z) : gmap Z Z :=
  let x := heap0 + total l in
  if k =? n then <[last_node l := first (x + UNIT * k) r base]> m
  else <[x + UNIT * (k - n) + 4 := n]> (<[x + 4 := k - n]> m).

Lemma taken_ok m l n k r : chain m (l ++ Free k :: r) base -> 0 < n <= k ->
  chain (taken l n k r m) (split l n k r) base /\
  (forall w, payload heap0 (l ++ Free k :: r) w -> taken l n k r m !! w = m !! w).
Proof.
  intros HC Hn. pose proof HC as [HCl (Hk & Hks & Hkp & Hr)]%chain_app. cbn [units] in Hks, Hk, Hkp.
  change (holds m (heap0 + total l + UNIT * k) r base) in Hr.
  pose proof (last_node_in l []) as Hin. rewrite app_nil_r in Hin. destruct (nodes_range _ _ _ _ HCl Hin) as [Hp0 Hp1].
  pose proof (holds_total _ _ _ _ (proj2 (proj2 HCl))). unfold taken, split. destruct (Z.eqb_spec k n) as [->|Hne]; split.
  - cbn [app]. apply chain_app. split; [by eapply chain_set|]. cbn [holds units]. unfold UNIT in *.
    repeat split; [lia|by rewrite lookup_insert_ne by lia|]. eapply holds_frame; [exact Hr|]. intros.
    by rewrite lookup_insert_ne by lia.
  - intros w Hw. rewrite lookup_insert_ne; [done|]. intros <-.
    eapply (nodes_not_payload _ _ _ (last_node l)); [exact HC|apply last_node_in| |exact Hw]. unfold UNIT. lia.
  - cbn [app]. apply chain_app. unfold UNIT in *. split.
    + eapply chain_same; [exact HCl|]. intros. by rewrite !lookup_insert_ne by lia.
    + cbn [holds units]. unfold UNIT in *. rewrite (lookup_insert_ne _ _ (heap0 + total l)) by lia.
      rewrite (lookup_insert_ne _ _ (heap0 + total l)) by lia. repeat split; [lia| | |lia|apply lookup_insert_eq|].
      * rewrite lookup_insert_ne by lia. apply lookup_insert_eq.
      * rewrite Hkp. unfold first. cbn [frees]. unfold UNIT. do 4 f_equal. lia.
      * replace (heap0 + total l + 8 * (k - n) + 8 * n) with (heap0 + total l + 8 * k) by lia.
        eapply holds_frame; [exact Hr|]. intros. by rewrite !lookup_insert_ne by lia.
  - intros w Hw. pose proof (payload_free _ _ _ _ _ _ _ (proj2 (proj2 HC)) Hw). unfold UNIT in *.
    by rewrite !lookup_insert_ne by lia.
Qed.

(** What [take_block] finds in the ring it takes out of the ring. *)
Lemma take_block_run s cs n prev x k :
  heap_ok s cs -> freep s <> 0 -> 0 < n -> prev ∈ nodes cs -> x ∈ nodes cs ->
  um s !! prev = Some x -> um s !! (x + 4) = Some k -> n <= k ->
  exists l r s', cs = l ++ Free k :: r /\
    take_block n prev x k s = Ret s' (heap0 + total l + UNIT * (k - n) + UNIT) /\ heap_ok s' (split l n k r) /\
    (forall w, payload heap0 cs w -> um s' !! w = um s !! w).
Proof.
  intros (Hbrk & Hmax & [[? _]|(Hfp & HC & Ha)]) Hf Hn Hprev Hx Hpx Hxk Hnk; [done|].
  apply elem_of_cons in Hx as [->|Hx].
  { destruct HC as (_ & Hb & _). rewrite Hxk in Hb. injection Hb as ->. lia. }
  pose proof (frees_split _ _ _ Hx) as (l & k' & r & -> & ->).
  apply (before_unique _ _ _ _ _ HC Hprev) in Hpx as ->. pose proof HC as [HCl (Hk & Hks & Hkp & Hr)]%chain_app.
  change (holds (um s) (heap0 + total l + UNIT * k') r base) in Hr. cbn [units] in Hks, Hk, Hkp.
  rewrite Hks in Hxk. injection Hxk as ->. destruct (split_ok l n k r Ha) as [Hsa Hst].
  pose proof (holds_total _ _ _ _ (proj2 (proj2 HCl))). pose proof (holds_total _ _ _ _ Hr).
  rewrite total_app in Hbrk. cbn [total units] in *.
  pose proof (last_node_in l []) as Hin. rewrite app_nil_r in Hin. destruct (nodes_range _ _ _ _ HCl Hin) as [Hp0 Hp1].
  destruct (taken_ok _ l n k r HC ltac:(lia)) as [HC' Hfr].
  exists l, r, (set_freep (last_node l) (set_um (taken l n k r (um s)) s)). split; [done|]. split; [|split; [|exact Hfr]].
  - unfold take_block, taken, ptr, st_ptr. unfold UNIT in *. destruct (Z.eqb_spec k n) as [->|Hne].
    + erewrite bind_ret by (mem_step Hkp; mem_store; reflexivity). rewrite modify_bind, hdr_add_small by (unfold UNIT; lia).
      unfold ret, UNIT. f_equal. lia.
    + rewrite (u32_small (k - n)) by (unfold is_u32; lia).
      assert (<[heap0 + total l + 4 := k - n]> (um s) !! (heap0 + total l + 4) = Some (k - n)) as Hn' by apply lookup_insert_eq.
      erewrite bind_ret by (mem_store; mem_step Hn'; rewrite hdr_add_small by (unfold UNIT; lia); unfold UNIT; mem_store; reflexivity).
      rewrite modify_bind, hdr_add_small by (unfold UNIT; lia). reflexivity.
  - split; [cbn [set_freep set_um brk]; rewrite Hst, total_app; cbn [total units]; lia|].
    split; [cbn [set_freep set_um brk]; lia|]. right. split; [|done]. apply last_node_in.
Qed.

Lemma node_size m cs x : chain m cs base -> x ∈ nodes cs -> exists k, m !! (x + 4) = Some k.
Proof.
  intros (_ & Hb & H) [->|Hx]%elem_of_cons; [by exists 0|]. apply frees_split in Hx as (l & k & r & -> & ->).
  apply holds_app in H as [_ (_ & Hk & _)]. by exists k.
Qed.

Lemma free_node m l k r : chain m (l ++ Free k :: r) base ->
  heap0 + total l ∈ nodes (l ++ Free k :: r) /\ m !! (heap0 + total l + 4) = Some k.
Proof.
  intros (_ & _ & [_ (_ & Hk & _)]%holds_app). split; [|done]. unfold nodes. rewrite frees_app. cbn [frees].
  right. apply elem_of_app. right. by left.
Qed.

(** One round of the loop: it takes the first block that fits, or asks for
    more memory when it is back at [freep]. *)
Lemma malloc_walk fuel n prevp xs s :
  path (um s) prevp xs (freep s) -> freep s ∉ xs ->
  (forall x, x ∈ freep s :: xs -> 0 <= x /\ x + 8 <= brk s /\ exists k, um s !! (x + 4) = Some k) ->
  brk s <= 2 ^ 31 -> (length xs < fuel)%nat ->
  let p := default (freep s) (head xs) in
  (exists prev x k, prev ∈ prevp :: xs /\ x ∈ freep s :: xs /\ um s !! prev = Some x /\ um s !! (x + 4) = Some k /\ n <= k /\
     malloc_loop grows fuel n prevp p s = take_block n prev x k s) \/
  ((forall x k, x ∈ freep s :: xs -> um s !! (x + 4) = Some k -> k < n) /\
   malloc_loop grows fuel n prevp p s =
     (let* c := morecore grows n in
      if c =? 0 then ret 0 else let* q := ptr c in malloc_loop grows (fuel - length xs - 1) n c q) s).
Proof.
  intros Hp Hf Hin Hmax. revert fuel prevp Hp Hf Hin. induction xs as [|q xs IH]; intros fuel prevp Hp Hf Hin Hfuel;
    (destruct fuel as [|fuel]; [cbn in Hfuel; lia|]); cbn [malloc_loop head from_option id length].
  - destruct (Hin (freep s)) as (H0 & H1 & k & Hk); [by left|]. mem_step Hk. destruct (Z.leb_spec n k) as [Hnk|Hnk].
    + left. exists prevp, (freep s), k. repeat split; [by left|by left|exact Hp|done|done].
    + right. split; [|rewrite gets_bind, Z.eqb_refl; by replace (S fuel - 0 - 1)%nat with fuel by lia].
      intros x k' [->|Hx]%elem_of_cons Hk'; [congruence|by apply elem_of_nil in Hx].
  - destruct Hp as [Hpq Hp]. destruct (Hin q) as (H0 & H1 & k & Hk); [right; by left|]. mem_step Hk.
    destruct (Z.leb_spec n k) as [Hnk|Hnk].
    + left. exists prevp, q, k. repeat split; [by left|right; by left|done|done|done].
    + apply not_elem_of_cons in Hf as [Hne Hf]. rewrite gets_bind, (proj2 (Z.eqb_neq _ _)) by done.
      assert (um s !! q = Some (default (freep s) (head xs))) as Hq by (destruct xs; [exact Hp|apply Hp]).
      mem_step Hq.
      destruct (IH fuel q) as [(prev & x & k' & Hpr & Hx & HR)|[Hall HR]]; [done|done| |cbn in Hfuel; lia| |].
      { intros x Hx. apply Hin. apply elem_of_cons in Hx as [->|Hx]; [by left|]. right. by right. }
      * left. exists prev, x, k'. split; [by right|]. split; [|done]. apply elem_of_cons in Hx as [->|Hx]; [by left|]. right. by right.
      * right. split; [|done]. intros x k' Hx Hk'. apply elem_of_cons in Hx as [->|Hx]; [eapply Hall; [by left|done]|].
        apply elem_of_cons in Hx as [->|Hx]; [congruence|]. eapply Hall; [by right|done].
Qed.

(** One round from [freep]. *)
Lemma malloc_round fuel n s cs :
  heap_ok s cs -> freep s <> 0 -> 0 < n -> (length (nodes cs) <= fuel)%nat ->
  exists p, ptr (freep s) s = Ret s p /\
  ((exists l k r s', cs = l ++ Free k :: r /\ n <= k /\
      malloc_loop grows fuel n (freep s) p s = Ret s' (heap0 + total l + UNIT * (k - n) + UNIT) /\
      heap_ok s' (split l n k r) /\ (forall w, payload heap0 cs w -> um s' !! w = um s !! w)) \/
   ((forall k, Free k ∈ cs -> k < n) /\
    malloc_loop grows fuel n (freep s) p s =
     (let* c := morecore grows n in
      if c =? 0 then ret 0 else let* q := ptr c in malloc_loop grows (fuel - length (nodes cs)) n c q) s)).
Proof.
  intros HH Hf Hn Hfuel. pose proof HH as (Hbrk & Hmax & [[? _]|(Hfp & HC & Ha)]); [done|].
  destruct (ring_from _ _ _ HC Hfp) as (xs & Hpath & Hperm & _).
  assert (length (nodes cs) = S (length xs)) as Hlen by (by rewrite <- Hperm).
  assert (NoDup (freep s :: xs)) as [Hnin _]%NoDup_cons by (rewrite Hperm; eapply sorted_nodup, nodes_sorted; exact HC).
  destruct (nodes_range _ _ _ _ HC Hfp) as [Hf0 Hf1]. unfold UNIT in Hheap, Hf1.
  exists (default (freep s) (head xs)). split.
  { apply ld_run; [lia|lia|]. destruct xs; [exact Hpath|apply Hpath]. }
  destruct (malloc_walk fuel n (freep s) xs s) as [(prev & x & k & Hpr & Hx & Hpx & Hxk & Hnk & ->)|[Hall ->]];
    [done|done| |lia|lia| |].
  - intros x Hx. rewrite Hperm in Hx. destruct (nodes_range _ _ _ _ HC Hx). unfold UNIT in *.
    repeat split; [lia|lia|]. by eapply node_size.
  - left. rewrite Hperm in Hpr, Hx.
    destruct (take_block_run s cs n prev x k) as (l & r & s' & E & R & H' & Hfr); [done..|].
    by exists l, k, r, s'.
  - right. split; [|by replace (fuel - length (nodes cs))%nat with (fuel - length xs - 1)%nat by lia].
    intros k (l & r & ->)%list_elem_of_split. destruct (free_node _ _ _ _ HC) as [Hin Hk].
    eapply Hall; [|exact Hk]. by rewrite Hperm.
Qed.

Lemma join_new s cs n : heap_ok s cs -> 0 < n ->
  (exists k, n <= k /\ Free k ∈ join cs n []) /\ (length (nodes (join cs n [])) <= S (length (nodes cs)))%nat.
Proof.
  intros (_ & _ & HC) Hn. unfold join, join_l, nodes. cbn [join_r length]. destruct cs as [|c cs _] using rev_ind.
  { split; [exists n; split; [lia|by left]|cbn; lia]. }
  destruct HC as [[_ E]|(_ & HC & _)]; [by destruct cs|].
  rewrite last_snoc. destruct c as [j|j].
  - split; [exists n; split; [lia|apply elem_of_app; right; by left]|]. rewrite frees_app, length_app. cbn. lia.
  - apply chain_app in HC as [_ (Hj & _)]. cbn [units] in Hj. rewrite length_app, take_app_length' by (cbn; lia).
    split; [exists (j + n); split; [lia|apply elem_of_app; right; by left]|].
    rewrite !frees_app, !length_app. cbn. lia.
Qed.

Lemma init_base_run s : heap_ok s [] -> freep s = 0 ->
  exists s', init_base base s = Ret s' tt /\ heap_ok s' [] /\ freep s' <> 0 /\ brk s' = brk s.
Proof.
  intros (Hbrk & Hmax & _) _. unfold UNIT in Hheap. cbn [total] in Hbrk. unfold init_base, st_ptr. mem_store. rewrite modify_bind.
  rewrite st_size_run by hlia. eexists. split; [reflexivity|]. unfold heap_ok, chain. cbn [set_um set_freep um brk freep total].
  split; [|split; [lia|done]]. split; [lia|split; [done|right]]. split; [by left|]. split; [|done].
  split; [rewrite lookup_insert_ne by lia; apply lookup_insert_eq|]. split; [apply lookup_insert_eq|done].
Qed.

(** The request of [malloc] in units has room for the bytes and the header. *)
Lemma units_of_range nbytes : 0 <= nbytes < 2 ^ 30 ->
  0 < units_of nbytes < 2 ^ 28 /\ nbytes <= UNIT * units_of nbytes - UNIT < nbytes + UNIT.
Proof.
  intros H. unfold units_of, UNIT. rewrite (u32_small (nbytes + 8 - 1)) by (unfold is_u32; lia).
  pose proof (Z.div_mod (nbytes + 8 - 1) 8 ltac:(lia)). pose proof (Z.mod_pos_bound (nbytes + 8 - 1) 8 ltac:(lia)).
  rewrite u32_small by (unfold is_u32; lia). lia.
Qed.

Lemma split_payload l n k r w : 0 < n <= k ->
  heap0 + total l + UNIT * (k - n) + UNIT <= w < heap0 + total l + UNIT * k -> payload heap0 (split l n k r) w.
Proof.
  intros Hn Hw. unfold split. destruct (Z.eqb_spec k n) as [->|Hne].
  - exists l, n, r. split; [done|]. unfold UNIT in *. lia.
  - exists (l ++ [Free (k - n)]), n, r. split; [by rewrite <- app_assoc|]. rewrite total_app. cbn [total units].
    unfold UNIT in *. lia.
Qed.

Lemma join_payload cs u w : payload heap0 cs w -> payload heap0 (join cs u []) w.
Proof.
  unfold join, join_l. cbn [join_r]. destruct cs as [|c cs _] using rev_ind; [by apply payload_snoc|].
  rewrite last_snoc. destruct c as [j|j]; [by apply payload_snoc|].
  rewrite length_app, take_app_length' by (cbn; lia). intros (l & n & r & E & Hw). apply payload_snoc.
  destruct r as [|d r _] using rev_ind; [by apply app_inj_tail in E as [_ E]|].
  rewrite app_comm_cons, app_assoc in E. apply app_inj_tail in E as [-> _]. by exists l, n, r.
Qed.

(** The block that [malloc] gives away when the chunks are [cs], out of the
    chunks [cs'], which are [cs] or [cs] with new memory at the end. *)
Definition gives (nbytes : Z) (cs cs' : list chunk) (s' : heap) (a : Z) : Prop :=
  exists l k r, cs' = l ++ Free k :: r /\ units_of nbytes <= k /\
    a = heap0 + total l + UNIT * (k - units_of nbytes) + UNIT /\ heap_ok s' (split l (units_of nbytes) k r) /\
    (forall w, a <= w < a + nbytes -> payload heap0 (split l (units_of nbytes) k r) w /\ ~ payload heap0 cs w).

Lemma gives_intro nbytes s cs cs' s' l k r : 0 <= nbytes < 2 ^ 30 -> heap_ok s cs' -> freep s <> 0 ->
  (forall w, payload heap0 cs w -> payload heap0 cs' w) ->
  cs' = l ++ Free k :: r -> units_of nbytes <= k -> heap_ok s' (split l (units_of nbytes) k r) ->
  gives nbytes cs cs' s' (heap0 + total l + UNIT * (k - units_of nbytes) + UNIT).
Proof.
  intros Hnb (_ & _ & [[? _]|(_ & HC & _)]) Hf Hsub -> Hk HH; [done|]. destruct (units_of_range _ Hnb) as [Hu Hun].
  exists l, k, r. do 4 (split; [done|]). intros w Hw. split.
  - apply split_payload; [lia|]. unfold UNIT in *. lia.
  - intros Hp%Hsub%(payload_free _ _ _ _ _ _ _ (proj2 (proj2 HC))). unfold UNIT in *. lia.
Qed.

(** [malloc] once the ring is there, with fuel for two rounds. *)
Lemma malloc_ready fuel s cs nbytes :
  heap_ok s cs -> freep s <> 0 -> 0 <= nbytes < 2 ^ 30 -> (2 * length (nodes cs) + 1 <= fuel)%nat ->
  let n := units_of nbytes in
  exists p s' a, ptr (freep s) s = Ret s p /\ malloc_loop grows fuel n (freep s) p s = Ret s' a /\
    (forall w, payload heap0 cs w -> um s' !! w = um s !! w) /\
    (a = 0 /\ heap_ok s' cs /\ (forall k, Free k ∈ cs -> k < n) /\ grows (brk s) (UNIT * core_units n) = None \/
     gives nbytes cs cs s' a \/ gives nbytes cs (join cs (core_units n) []) s' a).
Proof.
  intros HH Hf Hnb Hfuel n. destruct (units_of_range _ Hnb) as [Hu Hun]. fold n in Hu.
  destruct (malloc_round fuel n s cs HH Hf) as (p & Rp & [(l & k & r & s' & E & Hk & R & H' & Hfr)|[Hall R]]); [lia|lia| |].
  { exists p, s', (heap0 + total l + UNIT * (k - n) + UNIT). do 3 (split; [done|]). right. left. by eapply gives_intro. }
  exists p. rewrite R. destruct (morecore_run s cs n HH Hf ltac:(lia)) as [[Rm Hg]|(s1 & Rm & H1 & Hf1 & Hfr1)]; mrun Rm.
  { exists s, 0. do 3 (split; [done|]). by left. }
  rewrite (proj2 (Z.eqb_neq _ _)) by done.
  assert (n <= core_units n) as Hcu by (unfold core_units; destruct (Z.ltb_spec n 4096); lia).
  destruct (join_new s cs (core_units n) HH) as [(k1 & Hk1 & Hin) Hlen]; [lia|].
  destruct (malloc_round (fuel - length (nodes cs)) n s1 _ H1 Hf1) as
    (q & Rq & [(l & k & r & s' & E & Hk & R' & H' & Hfr)|[Hall' _]]); [lia|lia| |specialize (Hall' k1 Hin); lia].
  exists s', (heap0 + total l + UNIT * (k - n) + UNIT). mrun Rq. do 2 (split; [done|]). split.
  - intros w Hw. rewrite Hfr, Hfr1; [done|done|by apply join_payload].
  - right. right. eapply gives_intro; [done|exact H1|done|by intros w; apply join_payload|done..].
Qed.

(** C25: [malloc] allocates: from every heap of chunks and for every request
    below 2^30 bytes it terminates; the block
    it returns is the end of a free chunk that has room for the bytes asked
    for, of the heap as it was or grown by [morecore]; its bytes belong to no
    other block in use, whose contents do not change.  It returns 0 only when
    no free chunk is large enough and the kernel grants no more memory, and
    then leaves the heap as it was. *)
Theorem malloc_allocates s cs nbytes :
  heap_ok s cs -> 0 <= nbytes < 2 ^ 30 ->
  let n := units_of nbytes in
  exists s' a, malloc grows base nbytes s = Ret s' a /\
    (forall w, payload heap0 cs w -> um s' !! w = um s !! w) /\
    (a = 0 /\ heap_ok s' cs /\ (forall k, Free k ∈ cs -> k < n) /\ grows (brk s) (UNIT * core_units n) = None \/
     gives nbytes cs cs s' a \/ gives nbytes cs (join cs (core_units n) []) s' a).
Proof.
  intros HH Hnb n.
  assert (exists s1, whenM (freep s =? 0) (init_base base) s = Ret s1 tt /\ heap_ok s1 cs /\ freep s1 <> 0 /\ brk s1 = brk s /\
            (forall w, payload heap0 cs w -> um s1 !! w = um s !! w)) as (s1 & R1 & H1 & Hf1 & Hb1 & Hfr1).
  { destruct (Z.eqb_spec (freep s) 0) as [E|E]; [|by exists s].
    pose proof HH as (_ & _ & [[_ ->]|(Hin & HC & _)]); [|apply (nodes_range _ _ _ _ HC) in Hin; lia].
    destruct (init_base_run s HH E) as (s1 & R1 & H1). exists s1. split; [exact R1|].
    repeat (split; [apply H1|]). intros w ([|? ?] & ? & ? & ? & _); done. }
  assert (length (nodes cs) <= size (um s1))%nat as Hsize.
  { pose proof H1 as (_ & _ & [[? _]|(Hin & HC & _)]); [done|]. unfold nodes. cbn [length].
    eapply path_length; [eapply sorted_nodup, nodes_sorted; exact HC|by apply chain_path]. }
  destruct (malloc_ready (S (size (um s1)) + S (size (um s1))) s1 cs nbytes H1 Hf1 Hnb) as (p & s' & a & Rp & R & Hfr & HR); [lia|].
  exists s', a. split; [|split; [|by rewrite <- Hb1]].
  - unfold malloc. fold n. rewrite gets_bind. mrun R1. rewrite gets_bind. mrun Rp. exact R.
  - intros w Hw. rewrite Hfr, Hfr1; done.
Qed.

(** C36: [free] gives a block back: it terminates, and the chunk becomes free and
    is joined to the free chunks before and after it, so that the whole heap
    is still covered and no two free chunks touch; the contents of the other
    blocks do not change. *)
Theorem free_joins s l n r :
  heap_ok s (l ++ Used n :: r) ->
  exists s', free (heap0 + total l + UNIT) s = Ret s' tt /\ heap_ok s' (join l n r) /\
    (forall w, payload heap0 (l ++ Used n :: r) w -> ~ heap0 + total l <= w < heap0 + total l + UNIT * n ->
       um s' !! w = um s !! w).
Proof. apply free_run. Qed.

Lemma join_r_apart n k r : apart (Free k :: r) -> join_r n r = Free n :: r.
Proof. destruct r as [|[j|j] r]; [done|done|]. by intros [_ ?]. Qed.

(** Freeing what was just taken from the free chunks restores the heap. *)
Theorem malloc_free_roundtrip cs nbytes s' a :
  apart cs -> 0 <= nbytes < 2 ^ 30 -> gives nbytes cs cs s' a -> exists s'', free a s' = Ret s'' tt /\ heap_ok s'' cs.
Proof.
  intros Ha Hnb (l & k & r & -> & Hk & -> & HH & _). destruct (units_of_range _ Hnb) as [Hu _]. unfold split in HH.
  pose proof (apart_app _ _ Ha) as [_ Har]. destruct (Z.eqb_spec k (units_of nbytes)) as [->|Hne].
  - destruct (free_run _ _ _ _ HH) as (s'' & R & H' & _). exists s''. split.
    + rewrite <- R. f_equal. unfold UNIT. lia.
    + unfold join in H'. rewrite (join_r_apart _ _ _ Har) in H'. unfold join_l in H'.
      destruct l as [|c l _] using rev_ind; [done|]. rewrite last_snoc in H'. destruct c as [j|j]; [done|].
      rewrite <- app_assoc in Ha. apply apart_app in Ha as [_ Hx]. by destruct Hx as [_ ?].
  - change (l ++ [Free (k - units_of nbytes); Used (units_of nbytes)] ++ r)
      with (l ++ [Free (k - units_of nbytes)] ++ Used (units_of nbytes) :: r) in HH. rewrite app_assoc in HH.
    destruct (free_run _ _ _ _ HH) as (s'' & R & H' & _). exists s''. split.
    + rewrite <- R. f_equal. rewrite total_app. cbn [total units]. unfold UNIT. lia.
    + unfold join in H'. rewrite (join_r_apart _ _ _ Har) in H'. unfold join_l in H'.
      rewrite last_snoc, length_app, take_app_length' in H' by (cbn; lia).
      by replace (k - units_of nbytes + units_of nbytes) with k in H' by lia.
Qed.
End grow.
End heap.

(** ** A heap *)

Definition demo_grows (b n : Z) : option Z := if b + n <? 2 ^ 31 then Some (b + n) else None.
Definition demo_empty : heap := mk_heap ∅ 0 4096.
Definition demo_heap : heap :=
  mk_heap (<[8 := 4112]> (<[12 := 0]> (<[4100 := 2]> (<[4112 := 4144]> (<[4116 := 2]> (<[4132 := 2]>
    (<[4144 := 8]> (<[4148 := 1]> ∅)))))))) 8 4152.

Lemma demo_grows_ok b n b' : 0 < n -> demo_grows b n = Some b' -> b' = b + n /\ b' < 2 ^ 31.
Proof. unfold demo_grows. destruct (Z.ltb_spec (b + n) (2 ^ 31)); [|done]. intros _ [= <-]. lia. Qed.

Lemma demo_heap_ok : heap_ok 8 4096 demo_heap [Used 2; Free 2; Used 2; Free 1].
Proof.
  split; [reflexivity|]. split; [cbn; lia|]. right. split; [by left|]. unfold chain.
  cbn [holds frees apart units]. repeat split; try lia; vm_compute; reflexivity.
Qed.

Lemma malloc_allocates_witness :
  exists s' a, malloc demo_grows 8 10 demo_empty = Ret s' a /\ (forall w, payload 4096 [] w -> um s' !! w = um demo_empty !! w) /\
    (a = 0 /\ heap_ok 8 4096 s' [] /\ (forall k, Free k ∈ [] -> k < units_of 10) /\
       demo_grows (brk demo_empty) (UNIT * core_units (units_of 10)) = None \/
     gives 8 4096 10 [] [] s' a \/ gives 8 4096 10 [] (join [] (core_units (units_of 10)) []) s' a).
Proof.
  apply (malloc_allocates 8 4096 ltac:(lia) ltac:(unfold UNIT; lia) demo_grows demo_grows_ok); [|lia].
  split; [reflexivity|]. split; [cbn; lia|]. by left.
Defined.

Lemma free_joins_witness :
  exists s', free 4136 demo_heap = Ret s' tt /\ heap_ok 8 4096 s' [Used 2; Free 5] /\
    (forall w, payload 4096 [Used 2; Free 2; Used 2; Free 1] w -> ~ 4128 <= w < 4144 -> um s' !! w = um demo_heap !! w).
Proof.
  exact (free_joins 8 4096 ltac:(lia) ltac:(unfold UNIT; lia) demo_heap [Used 2; Free 2] 2 [Free 1] demo_heap_ok).
Defined.
