(* ===== verification/Console.v ===== *)
(** * Console: screen, keyboard and the line editor (console.c, kbd.c, uart.c)

    The state has the screen memory with the cursor of the CRT controller, the
    bytes sent to the serial port, the codes waiting in the keyboard and the
    bytes waiting in the serial port, and [input], the buffer of the line
    editor.  [consoleread] and [consolewrite] also work on the inode of the
    console.  The theorems relate the line editor with its wrapping indices to
    an abstract one, which has the text that is ready to be read and the line
    that is being edited. *)
From stdpp Require Import base numbers list gmap strings.
From Stdlib Require Import ZArith Lia.
From S2P Require Import Prelude Buf Bio Log Fs.

Local Open Scope Z_scope.

Definition BACKSPACE : Z := 0x100.
Definition INPUT_BUF : Z := 128.
(** [C(x)], Control-x *)
Definition ctrl (x : Z) : Z := x - 64.

Record input := mk_input { inbuf : list Z; ir : Z; iw : Z; ie : Z }.

(** [crt]: the words of the screen; [cursor]: the registers 14 and 15 of the
    CRT controller; [tx]: what went out on the serial port; [kbd], [rx]: what
    waits to come in; [shift]: the static variable of [kbdgetc]. *)
Record console := mk_con {
  crt : list Z;
  cursor : Z;
  uart : bool;
  tx : list Z;
  kbd : list Z;
  shift : Z;
  rx : list Z;
  inp : input;
  cwoken : list chan
}.
Definition set_screen c p (s : console) := mk_con c p (uart s) (tx s) (kbd s) (shift s) (rx s) (inp s) (cwoken s).
Definition set_tx t (s : console) := mk_con (crt s) (cursor s) (uart s) t (kbd s) (shift s) (rx s) (inp s) (cwoken s).
Definition set_kbd k sh (s : console) := mk_con (crt s) (cursor s) (uart s) (tx s) k sh (rx s) (inp s) (cwoken s).
Definition set_rx r (s : console) := mk_con (crt s) (cursor s) (uart s) (tx s) (kbd s) (shift s) r (inp s) (cwoken s).
Definition set_inp i (s : console) := mk_con (crt s) (cursor s) (uart s) (tx s) (kbd s) (shift s) (rx s) i (cwoken s).
Definition con_wakeup c (s : console) :=
  mk_con (crt s) (cursor s) (uart s) (tx s) (kbd s) (shift s) (rx s) (inp s) (c :: cwoken s).

(** ** Output *)

(** [crt[p] = v] *)
Definition poke (p v : Z) : M console unit := fun s =>
  if (0 <=? p) && (p <? Z.of_nat (length (crt s))) then Ret (set_screen (<[Z.to_nat p := v]> (crt s)) (cursor s) s) tt
  else Fault.

(** [memmove(crt, crt+80, sizeof(crt[0])*23*80)] *)
Definition scroll_up (c : list Z) : list Z := take 1840 (drop 80 c) ++ drop 1840 c.
(** [memset(crt+pos, 0, sizeof(crt[0])*(24*80 - pos))] *)
Definition clear_from (pos : Z) (c : list Z) : list Z :=
  take (Z.to_nat pos) c ++ replicate (Z.to_nat (1920 - pos)) 0 ++ drop 1920 c.

Definition cgaputc (c : Z) : M console unit :=
  let* pos := gets cursor in
  let* pos := (if c =? 10 then ret (pos + (80 - pos mod 80))
               else if c =? BACKSPACE then ret (if 0 <? pos then pos - 1 else pos)
               else poke pos (Z.lor (Z.land c 0xff) 0x0700) ;;; ret (pos + 1)) in
  if (pos <? 0) || (25 * 80 <? pos) then panic "pos under/overflow"
  else
    let* pos := (if 24 <=? pos / 80 then
                   modify (fun s => set_screen (clear_from (pos - 80) (scroll_up (crt s))) (cursor s) s) ;;;
                   ret (pos - 80)
                 else ret pos) in
    modify (fun s => set_screen (crt s) (Z.lor (Z.shiftl (u8 (Z.shiftr pos 8)) 8) (u8 pos)) s) ;;;
    poke pos (Z.lor 32 0x0700).

Definition uartputc (c : Z) : M console unit :=
  modify (fun s => if uart s then set_tx (tx s ++ [u8 c]) s else s).

(** After a panic nothing is printed any more: the model has no state then. *)
Definition consputc (c : Z) : M console unit :=
  (if c =? BACKSPACE then uartputc 8 ;;; uartputc 32 ;;; uartputc 8 else uartputc c) ;;;
  cgaputc c.

Fixpoint conputs (l : list Z) : M console unit :=
  match l with
  | [] => ret tt
  | c :: l => consputc c ;;; conputs l
  end.

(** "0123456789abcdef" *)
Definition digits : list Z := [48; 49; 50; 51; 52; 53; 54; 55; 56; 57; 97; 98; 99; 100; 101; 102].

(** The digits of a 32-bit word, least significant first. *)
Fixpoint digit_loop (fuel : nat) (x base : Z) : list Z :=
  match fuel with
  | O => []
  | S fuel =>
      let d := digits !!! Z.to_nat (x mod base) in
      let x := x / base in
      if negb (x =? 0) then d :: digit_loop fuel x base else [d]
  end.

Definition printint (xx base : Z) (sign : bool) : M console unit :=
  let neg := sign && (xx <? 0) in
  let x := if neg then u32 (- xx) else u32 xx in
  conputs (reverse (digit_loop 32 x base ++ (if neg then [45] else []))).

Definition printlong (xx : Z) : M console unit :=
  let upper := u32 (Z.shiftr xx 32) in
  let lower := Z.land xx 0xffffffff in
  whenM (negb (upper =? 0)) (printint (i32 upper) 16 false) ;;;
  printint (i32 lower) 16 false.

(** The words after [fmt]: numbers, or pointers to strings ([None] is null). *)
Inductive carg := CInt (x : Z) | CStr (s : option (list Z)).

(** "(null)" *)
Definition null_text : list Z := [40; 110; 117; 108; 108; 41].

(** [fmt] is what precedes the terminator; [percent]: a '%' came before. *)
Fixpoint cprintf_loop (fmt : list Z) (percent : bool) (argp : list carg) : M console unit :=
  match fmt with
  | [] => ret tt
  | f :: fmt =>
      let c := Z.land f 0xff in
      if negb percent then
        if c =? 37 then cprintf_loop fmt true argp
        else consputc c ;;; cprintf_loop fmt false argp
      else if c =? 100 then
        match argp with CInt x :: argp => printint (i32 x) 10 true ;;; cprintf_loop fmt false argp | _ => fault end
      else if c =? 108 then
        match argp with
        | CInt lo :: CInt hi :: argp => printlong (u32 lo + 2 ^ 32 * u32 hi) ;;; cprintf_loop fmt false argp
        | _ => fault
        end
      else if (c =? 120) || (c =? 112) then
        match argp with CInt x :: argp => printint (i32 x) 16 false ;;; cprintf_loop fmt false argp | _ => fault end
      else if c =? 115 then
        match argp with CStr s :: argp => conputs (default null_text s) ;;; cprintf_loop fmt false argp | _ => fault end
      else if c =? 37 then consputc 37 ;;; cprintf_loop fmt false argp
      else consputc 37 ;;; consputc c ;;; cprintf_loop fmt false argp
  end.
Definition cprintf (fmt : option (list Z)) (argp : list carg) : M console unit :=
  match fmt with
  | None => panic "null fmt"
  | Some fmt => cprintf_loop fmt false argp
  end.

(** ** The keyboard *)

Definition SHIFT : Z := 1.
Definition CTL : Z := 2.
Definition ALT : Z := 4.
Definition CAPSLOCK : Z := 8.
Definition NUMLOCK : Z := 16.
Definition SCROLLLOCK : Z := 32.
Definition E0ESC : Z := 64.

Definition shiftcode (d : Z) : Z :=
  if (d =? 0x1d) || (d =? 0x9d) then CTL
  else if (d =? 0x2a) || (d =? 0x36) then SHIFT
  else if (d =? 0x38) || (d =? 0xb8) then ALT
  else 0.
Definition togglecode (d : Z) : Z :=
  if d =? 0x3a then CAPSLOCK else if d =? 0x45 then NUMLOCK else if d =? 0x46 then SCROLLLOCK else 0.

(** The entries from 0x97 on, the same in all maps but for two. *)
Definition keypad (enter div d : Z) : Z :=
  match d with
  | 0x9c => enter
  | 0xb5 => div
  | 0xc8 => 0xe2 | 0xd0 => 0xe3
  | 0xc9 => 0xe6 | 0xd1 => 0xe7
  | 0xcb => 0xe4 | 0xcd => 0xe5
  | 0x97 => 0xe0 | 0xcf => 0xe1
  | 0xd2 => 0xe8 | 0xd3 => 0xe9
  | _ => 0
  end.
Definition normal_keys : list Z :=
  [0; 27; 49; 50; 51; 52; 53; 54;
   55; 56; 57; 48; 45; 61; 8; 9;
   113; 119; 101; 114; 116; 121; 117; 105;
   111; 112; 91; 93; 10; 0; 97; 115;
   100; 102; 103; 104; 106; 107; 108; 59;
   39; 96; 0; 92; 122; 120; 99; 118;
   98; 110; 109; 44; 46; 47; 0; 42;
   0; 32; 0; 0; 0; 0; 0; 0;
   0; 0; 0; 0; 0; 0; 0; 55;
   56; 57; 45; 52; 53; 54; 43; 49;
   50; 51; 48; 46; 0; 0; 0; 0].
Definition shift_keys : list Z :=
  [0; 27; 33; 64; 35; 36; 37; 94;
   38; 42; 40; 41; 95; 43; 8; 9;
   81; 87; 69; 82; 84; 89; 85; 73;
   79; 80; 123; 125; 10; 0; 65; 83;
   68; 70; 71; 72; 74; 75; 76; 58;
   34; 126; 0; 124; 90; 88; 67; 86;
   66; 78; 77; 60; 62; 63; 0; 42;
   0; 32; 0; 0; 0; 0; 0; 0;
   0; 0; 0; 0; 0; 0; 0; 55;
   56; 57; 45; 52; 53; 54; 43; 49;
   50; 51; 48; 46; 0; 0; 0; 0].
Definition ctl_keys : list Z :=
  [0; 0; 0; 0; 0; 0; 0; 0;
   0; 0; 0; 0; 0; 0; 0; 0;
   ctrl 81; ctrl 87; ctrl 69; ctrl 82; ctrl 84; ctrl 89; ctrl 85; ctrl 73;
   ctrl 79; ctrl 80; 0; 0; 13; 0; ctrl 65; ctrl 83;
   ctrl 68; ctrl 70; ctrl 71; ctrl 72; ctrl 74; ctrl 75; ctrl 76; 0;
   0; 0; 0; ctrl 92; ctrl 90; ctrl 88; ctrl 67; ctrl 86;
   ctrl 66; ctrl 78; ctrl 77; 0; 0; u8 (ctrl 47); 0; 0].
Definition key_map (keys : list Z) (enter div d : Z) : Z :=
  default (keypad enter div d) (keys !! Z.to_nat d).
Definition normalmap : Z -> Z := key_map normal_keys 10 47.
Definition shiftmap : Z -> Z := key_map shift_keys 10 47.
Definition ctlmap : Z -> Z := key_map ctl_keys 13 (u8 (ctrl 47)).

(** [charcode[shift & (CTL | SHIFT)][data]] *)
Definition charcode (sh d : Z) : Z :=
  let k := Z.land sh (Z.lor CTL SHIFT) in
  if k =? 0 then normalmap d else if k =? 1 then shiftmap d else ctlmap d.

(** [~] on a word *)
Definition not32 (x : Z) : Z := u32 (Z.lnot x).

(** One code: the new [shift] and the value of [kbdgetc]. *)
Definition kbd_code (sh data : Z) : Z * Z :=
  if data =? 0xe0 then (Z.lor sh E0ESC, 0)
  else if hasf 0x80 data then
    let data := if hasf E0ESC sh then data else Z.land data 0x7f in
    (Z.land sh (not32 (Z.lor (shiftcode data) E0ESC)), 0)
  else
    let esc := hasf E0ESC sh in
    let data := if esc then Z.lor data 0x80 else data in
    let sh := if esc then Z.land sh (not32 E0ESC) else sh in
    let sh := Z.lxor (Z.lor sh (shiftcode data)) (togglecode data) in
    let c := charcode sh data in
    (sh, if hasf CAPSLOCK sh then
           if (97 <=? c) && (c <=? 122) then u32 (c + (65 - 97))
           else if (65 <=? c) && (c <=? 90) then u32 (c + (97 - 65))
           else c
         else c).

Definition kbdgetc : M console Z :=
  let* s := get in
  match kbd s with
  | [] => ret (-1)
  | data :: rest =>
      let '(sh, c) := kbd_code (shift s) data in
      modify (set_kbd rest sh) ;;;
      ret c
  end.

Definition uartgetc : M console Z :=
  let* s := get in
  if negb (uart s) then ret (-1)
  else
    match rx s with
    | [] => ret (-1)
    | c :: rest => modify (set_rx rest) ;;; ret c
    end.

(** ** The line editor *)

Definition set_e (e : Z) (i : input) : input := mk_input (inbuf i) (ir i) (iw i) e.
Definition set_w (w : Z) (i : input) : input := mk_input (inbuf i) (ir i) w (ie i).
Definition set_r (r : Z) (i : input) : input := mk_input (inbuf i) r (iw i) (ie i).
Definition upd_inp (f : input -> input) : M console unit := modify (fun s => set_inp (f (inp s)) s).

(** [input.buf[x % INPUT_BUF]] *)
Definition buf_at (x : Z) (i : input) : M console Z := from_opt (inbuf i !! Z.to_nat (x mod INPUT_BUF)).
(** [input.buf[input.e++ % INPUT_BUF] = c] *)
Definition put_char (c : Z) (i : input) : input :=
  mk_input (<[Z.to_nat (ie i mod INPUT_BUF) := u8 c]> (inbuf i)) (ir i) (iw i) (u32 (ie i + 1)).

(** The loop of Control-U; [input.e - input.w] is at most [INPUT_BUF]. *)
Fixpoint kill_line (fuel : nat) : M console unit :=
  match fuel with
  | O => fault
  | S fuel =>
      let* i := gets inp in
      if negb (ie i =? iw i) then
        let* b := buf_at (u32 (ie i - 1)) i in
        if negb (b =? 10) then
          upd_inp (set_e (u32 (ie i - 1))) ;;;
          consputc BACKSPACE ;;;
          kill_line fuel
        else ret tt
      else ret tt
  end.

(** The switch of [consoleintr]; the result is [doprocdump]. *)
Definition console_char (c : Z) : M console bool :=
  if c =? ctrl 80 then ret true
  else if c =? ctrl 85 then kill_line (S (Z.to_nat INPUT_BUF)) ;;; ret false
  else if (c =? ctrl 72) || (c =? 127) then
    let* i := gets inp in
    whenM (negb (ie i =? iw i)) (upd_inp (set_e (u32 (ie i - 1))) ;;; consputc BACKSPACE) ;;;
    ret false
  else
    let* i := gets inp in
    whenM (negb (c =? 0) && (u32 (ie i - ir i) <? INPUT_BUF))
      (let c := if c =? 13 then 10 else c in
       upd_inp (put_char c) ;;;
       consputc c ;;;
       let* i := gets inp in
       whenM ((c =? 10) || (c =? ctrl 68) || (ie i =? u32 (ir i + INPUT_BUF)))
         (upd_inp (set_w (ie i)) ;;;
          modify (con_wakeup ChInput))) ;;;
    ret false.

(** The result says whether [procdump] is called at the end. *)
Fixpoint consoleintr (fuel : nat) (getc : M console Z) (doprocdump : bool) : M console bool :=
  match fuel with
  | O => fault
  | S fuel =>
      let* c := getc in
      if 0 <=? c then
        let* d := console_char c in
        consoleintr fuel getc (doprocdump || d)
      else ret doprocdump
  end.

(** Every code and every byte is read once. *)
Definition kbdintr : M console bool :=
  let* n := gets (fun s => length (kbd s)) in consoleintr (S n) kbdgetc false.
Definition uartintr : M console bool :=
  let* n := gets (fun s => length (rx s)) in consoleintr (S n) uartgetc false.

(** ** Reading and writing the console *)

(** How the loop of [consoleread] ends: with [n] bytes still wanted, killed, or
    asleep with [n] bytes still wanted. *)
Inductive line := Line (n : nat) | Killed | Asleep (n : nat).

(** The loop, with [n] bytes wanted still of [target], and what it stores. *)
Fixpoint read_loop (killed : bool) (target n : nat) : M console (line * list Z) :=
  match n with
  | O => ret (Line 0, [])
  | S m =>
      let* i := gets inp in
      if ir i =? iw i then ret (if killed then Killed else Asleep n, [])
      else
        let* c := buf_at (ir i) i in
        upd_inp (set_r (u32 (ir i + 1))) ;;;
        if c =? ctrl 68 then
          whenM (n <? target)%nat (let* i := gets inp in upd_inp (set_r (u32 (ir i - 1)))) ;;;
          ret (Line n, [])
        else if c =? 10 then ret (Line m, [c])
        else
          let* (a, l) := read_loop killed target m in
          ret (a, c :: l)
  end.

(** The console with the file system. *)
Record con_fs := mk_con_fs { con : console; cfs : fs_state }.
Definition incon {A} (m : M console A) : M con_fs A := zoom con (fun c s => mk_con_fs c (cfs s)) m.
Definition incfs {A} (m : M fs_state A) : M con_fs A := zoom cfs (fun f s => mk_con_fs (con s) f) m.

Section io.
Context `{BlockDriver} (ip : nat).

(** The value of the call, or where it sleeps. *)
Inductive reading := Value (v : Z) | Waiting (n : nat).

(** The loop and what follows it; entered again with the [n] left when it was
    asleep. *)
Definition consoleread_from (killed : bool) (target n : nat) : M con_fs (reading * list Z) :=
  let* (a, l) := incon (read_loop killed target n) in
  match a with
  | Line n => incfs (ilock ip) ;;; ret (Value (Z.of_nat (target - n)), l)
  | Killed => incfs (ilock ip) ;;; ret (Value (-1), l)
  | Asleep n => ret (Waiting n, l)
  end.
Definition consoleread (killed : bool) (n : Z) : M con_fs (reading * list Z) :=
  incfs (iunlock ip) ;;;
  consoleread_from killed (Z.to_nat n) (Z.to_nat n).

(** The [n] bytes at [buf] *)
Definition consolewrite (buf : list Z) (n : Z) : M con_fs Z :=
  incfs (iunlock ip) ;;;
  incon (conputs ((fun c => Z.land c 0xff) <$> take (Z.to_nat n) buf)) ;;;
  incfs (ilock ip) ;;;
  ret n.
End io.

(** ** The screen *)

(** The cursor is in the first 24 of the 25 lines of the screen. *)
Definition cga_ok (s : console) : Prop := (2000 <= length (crt s))%nat /\ 0 <= cursor s < 1920.

(** What output does not touch. *)
Definition same_input (s s' : console) : Prop :=
  inp s' = inp s /\ cwoken s' = cwoken s /\ kbd s' = kbd s /\ shift s' = shift s /\ rx s' = rx s /\ uart s' = uart s.

Lemma poke_run p v s : 0 <= p < Z.of_nat (length (crt s)) ->
  poke p v s = Ret (set_screen (<[Z.to_nat p := v]> (crt s)) (cursor s) s) tt.
Proof. intros H. unfold poke. by rewrite (proj2 (Z.leb_le _ _)), (proj2 (Z.ltb_lt _ _)) by lia. Qed.

Lemma cursor_bytes pos : 0 <= pos < 2 ^ 16 -> Z.lor (Z.shiftl (u8 (Z.shiftr pos 8)) 8) (u8 pos) = pos.
Proof.
  intros H. unfold u8. rewrite Z.shiftr_div_pow2, Z.shiftl_mul_pow2 by lia.
  rewrite (Z.mod_small (pos / 2 ^ 8)) by (split; [apply Z.div_pos; lia|apply Z.div_lt_upper_bound; lia]).
  rewrite Z.lor_comm. pose proof (Z.div_mod pos (2 ^ 8) ltac:(lia)). 
  assert (Z.land (pos mod 2 ^ 8) (pos / 2 ^ 8 * 2 ^ 8) = 0) as E.
  { apply Z.bits_inj'. intros i Hi. rewrite Z.land_spec, Z.bits_0, <- Z.shiftl_mul_pow2 by lia.
    destruct (Z.ltb_spec i 8); [by rewrite Z.shiftl_spec_low, andb_false_r|]. by rewrite Z.mod_pow2_bits_high by lia. }
  rewrite <- Z.lxor_lor, <- Z.add_nocarry_lxor by exact E. lia.
Qed.

Lemma scroll_length pos c : 0 <= pos <= 1920 -> (2000 <= length c)%nat -> length (clear_from pos (scroll_up c)) = length c.
Proof.
  intros Hp Hc. unfold clear_from, scroll_up.
  rewrite !length_app, length_replicate, !length_take, !length_drop, !length_app, !length_take, !length_drop. lia.
Qed.

(** The cursor never leaves its lines: no character makes [cgaputc] panic or
    write outside the screen. *)
Lemma cgaputc_ok c s : cga_ok s ->
  exists m p, cgaputc c s = Ret (set_screen m p s) tt /\ cga_ok (set_screen m p s).
Proof.
  intros [Hl Hc]. unfold cgaputc. rewrite gets_bind.
  assert (exists m pos, (if c =? 10 then ret (cursor s + (80 - cursor s mod 80))
      else if c =? BACKSPACE then ret (if 0 <? cursor s then cursor s - 1 else cursor s)
      else poke (cursor s) (Z.lor (Z.land c 0xff) 0x0700) ;;; ret (cursor s + 1)) s = Ret (set_screen m (cursor s) s) pos /\
      length m = length (crt s) /\ 0 <= pos <= 1920) as (m & pos & R & Hm & Hpos).
  { destruct (c =? 10); [|destruct (c =? BACKSPACE)].
    - exists (crt s), (cursor s + (80 - cursor s mod 80)). split; [by destruct s|]. split; [done|].
      pose proof (Z.div_mod (cursor s) 80). pose proof (Z.mod_pos_bound (cursor s) 80). lia.
    - exists (crt s), (if 0 <? cursor s then cursor s - 1 else cursor s). split; [by destruct s|]. split; [done|].
      destruct (Z.ltb_spec 0 (cursor s)); lia.
    - eexists _, _. split; [erewrite bind_ret by (apply poke_run; lia); reflexivity|].
      rewrite length_insert. split; [done|lia]. }
  mrun R. rewrite (proj2 (Z.ltb_ge pos 0)), (proj2 (Z.ltb_ge (25 * 80) pos)) by lia. cbn [orb].
  assert (exists m' pos', (if 24 <=? pos / 80 then
        modify (fun s => set_screen (clear_from (pos - 80) (scroll_up (crt s))) (cursor s) s) ;;; ret (pos - 80)
      else ret pos) (set_screen m (cursor s) s) = Ret (set_screen m' (cursor s) s) pos' /\
      length m' = length (crt s) /\ 0 <= pos' < 1920) as (m' & pos' & R' & Hm' & Hpos').
  { destruct (Z.leb_spec 24 (pos / 80)).
    - assert (pos = 1920) as -> by (pose proof (Z.div_mod pos 80); pose proof (Z.mod_pos_bound pos 80); lia).
      eexists _, _. split; [reflexivity|]. split; [rewrite scroll_length by (cbn; lia); exact Hm|lia].
    - exists m, pos. split; [done|]. split; [done|]. pose proof (Z.mod_pos_bound pos 80). pose proof (Z.div_mod pos 80). lia. }
  mrun R'. rewrite modify_bind, cursor_bytes by lia. rewrite poke_run by (cbn; lia). eexists _, _. split; [reflexivity|].
  split; cbn; [rewrite length_insert|]; lia.
Qed.

Lemma consputc_ok c s : cga_ok s -> exists s', consputc c s = Ret s' tt /\ cga_ok s' /\ same_input s s'.
Proof.
  intros H. unfold consputc.
  assert (exists t, (if c =? BACKSPACE then uartputc 8 ;;; uartputc 32 ;;; uartputc 8 else uartputc c) s = Ret (set_tx t s) tt)
    as [t R].
  { destruct s as [a b u]. destruct (c =? BACKSPACE), u; eexists; reflexivity. }
  mrun R. destruct (cgaputc_ok c (set_tx t s)) as (m & p & R' & H'); [done|]. rewrite R'. eexists. split; [reflexivity|].
  split; [exact H'|]. by repeat split.
Qed.

(** ** The abstract line editor *)

(** The text that is ready to be read, and the line being edited. *)
Record ldisc := mk_ld { ready : list Z; edit : list Z }.

Definition type_char (c : Z) (d : ldisc) : ldisc :=
  if c =? ctrl 80 then d
  else if c =? ctrl 85 then mk_ld (ready d) []
  else if (c =? ctrl 72) || (c =? 127) then mk_ld (ready d) (take (length (edit d) - 1) (edit d))
  else if (c =? 0) || (128 <=? length (ready d) + length (edit d))%nat then d
  else
    let c := if c =? 13 then 10 else c in
    let l := edit d ++ [u8 c] in
    if (c =? 10) || (c =? ctrl 68) || (length (ready d) + length l =? 128)%nat then mk_ld (ready d ++ l) []
    else mk_ld (ready d) l.

(** Reading takes text up to the end of a line or Control-D, which is left
    there unless it comes first. *)
Fixpoint take_line (killed : bool) (target n : nat) (q : list Z) : line * list Z * list Z :=
  match n with
  | O => (Line 0, [], q)
  | S m =>
      match q with
      | [] => (if killed then Killed else Asleep n, [], [])
      | c :: q' =>
          if c =? ctrl 68 then (Line n, [], if (n <? target)%nat then q else q')
          else if c =? 10 then (Line m, [c], q')
          else let '(a, l, q'') := take_line killed target m q' in (a, c :: l, q'')
      end
  end.

(** [input] holds the text of the abstract editor around its ring. *)
Record ring (i : input) (d : ldisc) : Prop := {
  ring_len : length (inbuf i) = 128%nat;
  ring_r : is_u32 (ir i);
  ring_w : iw i = u32 (ir i + Z.of_nat (length (ready d)));
  ring_e : ie i = u32 (ir i + Z.of_nat (length (ready d ++ edit d)));
  ring_fill : (length (ready d ++ edit d) <= 128)%nat;
  ring_buf : forall j c, (ready d ++ edit d) !! j = Some c ->
    inbuf i !! Z.to_nat ((ir i + Z.of_nat j) mod INPUT_BUF) = Some c
}.
(** The end of a line is never in the line being edited. *)
Definition rep (i : input) (d : ldisc) : Prop := ring i d /\ 10 ∉ edit d.

Lemma u32_mod128 x : u32 x mod INPUT_BUF = x mod INPUT_BUF.
Proof. unfold u32, INPUT_BUF. apply Z.mod_mod_divide. by exists (2 ^ 25). Qed.

Lemma u32_shift_eq x a b : 0 <= a < 2 ^ 32 -> 0 <= b < 2 ^ 32 -> u32 (x + a) = u32 (x + b) -> a = b.
Proof.
  unfold u32. intros Ha Hb E. pose proof (Z.div_mod (x + a) (2 ^ 32)). pose proof (Z.div_mod (x + b) (2 ^ 32)). nia.
Qed.

Lemma u32_add x y : u32 (u32 x + y) = u32 (x + y).
Proof. unfold u32. apply Zplus_mod_idemp_l. Qed.
Lemma u32_sub x y : u32 (u32 x - y) = u32 (x - y).
Proof. unfold u32. apply Zminus_mod_idemp_l. Qed.

(** Different places within 128 of each other are different slots. *)
Lemma slot_neq x i j : 0 <= i < 128 -> 0 <= j < 128 -> i <> j ->
  Z.to_nat ((x + i) mod INPUT_BUF) <> Z.to_nat ((x + j) mod INPUT_BUF).
Proof.
  unfold INPUT_BUF. intros Hi Hj Hne E. pose proof (Z.mod_pos_bound (x + i) 128). pose proof (Z.mod_pos_bound (x + j) 128).
  pose proof (Z.div_mod (x + i) 128). pose proof (Z.div_mod (x + j) 128). lia.
Qed.

Lemma edit_empty i d : ring i d -> (ie i =? iw i) = bool_decide (edit d = []).
Proof.
  intros [_ _ -> -> Hf _]. rewrite length_app in *. apply eq_true_iff_eq. rewrite Z.eqb_eq, bool_decide_eq_true. split.
  - intros E%u32_shift_eq; [|lia..]. apply length_zero_iff_nil. lia.
  - intros ->. cbn. f_equal. lia.
Qed.

Lemma ready_empty i d : ring i d -> (ir i =? iw i) = bool_decide (ready d = []).
Proof.
  intros [_ Hr -> _ Hf _]. rewrite length_app in *. apply eq_true_iff_eq. rewrite Z.eqb_eq, bool_decide_eq_true. split.
  - intros E. rewrite <- (u32_small (ir i)), <- (Z.add_0_r (ir i)) in E at 1 by done. apply u32_shift_eq in E; [|lia..].
    apply length_zero_iff_nil. lia.
  - intros ->. cbn. by rewrite Z.add_0_r, u32_small.
Qed.

Lemma fill_test i d : ring i d -> (u32 (ie i - ir i) <? INPUT_BUF) = (length (ready d ++ edit d) <? 128)%nat.
Proof.
  intros [_ _ _ -> Hf _]. rewrite u32_sub. replace (_ + _ - ir i) with (Z.of_nat (length (ready d ++ edit d))) by lia.
  rewrite u32_small by (unfold is_u32; lia). unfold INPUT_BUF. apply eq_true_iff_eq. rewrite Z.ltb_lt, Nat.ltb_lt. lia.
Qed.

Lemma full_test i d : ring i d -> (ie i =? u32 (ir i + INPUT_BUF)) = (length (ready d ++ edit d) =? 128)%nat.
Proof.
  intros [_ _ _ -> Hf _]. unfold INPUT_BUF. apply eq_true_iff_eq. rewrite Z.eqb_eq, Nat.eqb_eq. split.
  - intros E%u32_shift_eq; lia.
  - intros ->. done.
Qed.

Lemma ring_last i q l c : ring i (mk_ld q (l ++ [c])) -> inbuf i !! Z.to_nat (u32 (ie i - 1) mod INPUT_BUF) = Some c.
Proof.
  intros [_ _ _ He _ Hb]. cbn [ready edit] in *. rewrite He, u32_sub, u32_mod128.
  rewrite <- (Hb (length (q ++ l)) c) by (rewrite app_assoc; by apply list_lookup_middle).
  do 3 f_equal. rewrite !length_app. cbn. lia.
Qed.

Lemma ring_erase i q l c : ring i (mk_ld q (l ++ [c])) -> ring (set_e (u32 (ie i - 1)) i) (mk_ld q l).
Proof.
  intros [Hl Hr Hw He Hf Hb]. cbn [ready edit] in *. split; cbn; try done.
  - rewrite He, u32_sub. f_equal. rewrite app_assoc, length_app. cbn. lia.
  - rewrite app_assoc, length_app in Hf. lia.
  - intros j x Hj. apply Hb. rewrite app_assoc. by apply lookup_app_l_Some.
Qed.

Lemma ring_put i q l c : ring i (mk_ld q l) -> (length (q ++ l) < 128)%nat ->
  ring (put_char c i) (mk_ld q (l ++ [u8 c])).
Proof.
  intros [Hl Hr Hw He Hf Hb] Hfull. cbn [ready edit] in *. split; cbn [put_char inbuf ir iw ie ready edit]; try done.
  - by rewrite length_insert.
  - rewrite He, u32_add. f_equal. rewrite app_assoc, (length_app (q ++ l)). cbn. lia.
  - rewrite app_assoc, length_app. cbn. lia.
  - intros j x Hj. rewrite He, u32_mod128. rewrite app_assoc in Hj. apply lookup_app_Some in Hj as [Hj|[Hge Hj]].
    + rewrite list_lookup_insert_ne; [by apply Hb|]. apply lookup_lt_Some in Hj. apply slot_neq; lia.
    + destruct (j - length (q ++ l))%nat eqn:Ej; [|done]. injection Hj as <-.
      replace j with (length (q ++ l)) by lia. apply list_lookup_insert_eq. rewrite Hl.
      unfold INPUT_BUF. pose proof (Z.mod_pos_bound (ir i + Z.of_nat (length (q ++ l))) 128). lia.
Qed.

Lemma ring_commit i q l : ring i (mk_ld q l) -> ring (set_w (ie i) i) (mk_ld (q ++ l) []).
Proof. intros [Hl Hr Hw He Hf Hb]. split; cbn in *; rewrite ?app_nil_r; done. Qed.

Lemma ring_take i c q l : ring i (mk_ld (c :: q) l) ->
  inbuf i !! Z.to_nat (ir i mod INPUT_BUF) = Some c /\ ring (set_r (u32 (ir i + 1)) i) (mk_ld q l).
Proof.
  intros [Hl Hr Hw He Hf Hb]. cbn [ready edit] in *. split.
  - rewrite <- (Hb 0%nat c) by done. by rewrite Z.add_0_r.
  - split; cbn [set_r inbuf ir iw ie ready edit]; try done.
    + apply u32_range.
    + rewrite Hw, u32_add. f_equal. cbn. lia.
    + rewrite He, u32_add. f_equal. cbn. lia.
    + cbn in Hf. lia.
    + intros j x Hj. rewrite <- (Hb (S j) x) by done. do 2 f_equal.
      rewrite <- (u32_mod128 (u32 (ir i + 1) + _)), u32_add, u32_mod128. f_equal. lia.
Qed.

(** ** The line editor refines the abstract one *)

(** [s'] comes from [s] by editing: the devices are left alone, and [wakeup]
    was called on the readers when [woke]. *)
Definition edited (woke : bool) (s s' : console) : Prop :=
  cga_ok s' /\ kbd s' = kbd s /\ shift s' = shift s /\ rx s' = rx s /\ uart s' = uart s /\
  cwoken s' = (if woke then [ChInput] else []) ++ cwoken s.

Lemma edited_trans w1 w2 s1 s2 s3 : edited w1 s1 s2 -> edited w2 s2 s3 -> w1 && w2 = false -> edited (w1 || w2) s1 s3.
Proof.
  intros (_ & K1 & S1 & R1 & U1 & W1) (C & K2 & S2 & R2 & U2 & W2) Hw. unfold edited.
  rewrite K2, S2, R2, U2, W2, W1. split; [exact C|]. do 4 (split; [done|]). by destruct w1, w2.
Qed.

Lemma edited_inp i s : cga_ok s -> edited false s (set_inp i s).
Proof. intros HC. split; [exact HC|]. by repeat split. Qed.

Lemma edited_refl s : cga_ok s -> edited false s s.
Proof. intros HC. split; [exact HC|]. by repeat split. Qed.

Lemma edited_put c s s' : edited false s s' -> exists s'', consputc c s' = Ret s'' tt /\ edited false s s'' /\ inp s'' = inp s'.
Proof.
  intros HE. destruct (consputc_ok c s' (proj1 HE)) as (s'' & R & C & I & W & K & S' & RX & U).
  exists s''. split; [exact R|]. split; [|exact I]. destruct HE as (_ & K1 & S1 & R1 & U1 & W1).
  unfold edited. rewrite K, S', RX, U, W. done.
Qed.

Lemma kill_line_run fuel s q l : rep (inp s) (mk_ld q l) -> cga_ok s -> (length l < fuel)%nat ->
  exists s', kill_line fuel s = Ret s' tt /\ rep (inp s') (mk_ld q []) /\ edited false s s'.
Proof.
  revert fuel s. induction l as [|c l IH] using rev_ind; intros fuel s [HR Hno] HC Hf;
    (destruct fuel as [|fuel]; [cbn in Hf; lia|]); cbn [kill_line]; rewrite gets_bind, (edit_empty _ _ HR).
  - exists s. split; [done|]. split; [done|]. by apply edited_refl.
  - rewrite bool_decide_eq_false_2 by (by destruct l). cbn [negb]. unfold buf_at. rewrite (ring_last _ _ _ _ HR).
    rewrite from_opt_bind. cbn [edit] in Hno. apply not_elem_of_app in Hno as [Hno Hc].
    rewrite (proj2 (Z.eqb_neq c 10)) by (intros ->; apply Hc; by left). cbn [negb]. unfold upd_inp. rewrite modify_bind.
    set (s1 := set_inp _ s). assert (edited false s s1) as HE by (by apply edited_inp).
    destruct (edited_put BACKSPACE s s1 HE) as (s2 & R2 & HE2 & I2). mrun R2.
    destruct (IH fuel s2) as (s' & R & HR' & HE'); [|by destruct HE2|rewrite length_app in Hf; cbn in Hf; lia|].
    + rewrite I2. split; [by eapply ring_erase|done].
    + exists s'. split; [exact R|]. split; [done|]. exact (edited_trans _ _ _ _ _ HE2 HE' eq_refl).
Qed.

(** Whether a character makes text ready. *)
Definition commits (c : Z) (d : ldisc) : bool := negb (length (ready (type_char c d)) =? length (ready d))%nat.

(** A character that is stored. *)
Lemma stored_char c s q l : 0 <= c < 256 -> rep (inp s) (mk_ld q l) -> cga_ok s -> (length (q ++ l) < 128)%nat ->
  let b := (c =? 10) || (c =? ctrl 68) || (length q + length (l ++ [c]) =? 128)%nat in
  exists s', (upd_inp (put_char c) ;;; consputc c ;;;
      let* i := gets inp in
      whenM ((c =? 10) || (c =? ctrl 68) || (ie i =? u32 (ir i + INPUT_BUF)))
        (upd_inp (set_w (ie i)) ;;; modify (con_wakeup ChInput))) s = Ret s' tt /\
    rep (inp s') (if b then mk_ld (q ++ l ++ [c]) [] else mk_ld q (l ++ [c])) /\ edited b s s'.
Proof.
  intros Hc [HR Hno] HC Hf b. apply (ring_put _ _ _ c) in HR; [|done]. cbn [edit] in Hno.
  assert (u8 c = c) as Eu by (apply Z.mod_small; lia). rewrite Eu in HR.
  destruct (edited_put c s (set_inp (put_char c (inp s)) s)) as (s1 & R & HE & I); [by apply edited_inp|].
  unfold upd_inp. rewrite modify_bind. mrun R. rewrite gets_bind, I. cbn [set_inp inp].
  rewrite (full_test _ _ HR). cbn [ready edit]. rewrite (length_app q). fold b. destruct b eqn:Eb.
  - eexists. split; [reflexivity|]. split.
    + cbn [con_wakeup set_inp inp]. rewrite I. cbn [set_inp inp]. split; [by apply ring_commit|apply not_elem_of_nil].
    + destruct HE as (C & K & Sh & R' & U & W). split; [exact C|]. cbn. by rewrite K, Sh, R', U, W.
  - exists s1. split; [done|]. split; [|exact HE]. rewrite I. split; [exact HR|]. cbn [edit].
    apply not_elem_of_app. split; [done|]. intros E%list_elem_of_singleton. subst c. discriminate Eb.
Qed.

Lemma console_char_refines c s d : 0 <= c < 256 -> rep (inp s) d -> cga_ok s ->
  exists s', console_char c s = Ret s' (c =? ctrl 80) /\ rep (inp s') (type_char c d) /\ edited (commits c d) s s'.
Proof.
  intros Hc0 [HR Hno] HC. destruct d as [q l]. cbn [edit] in Hno. unfold console_char, commits, type_char. cbn [ready edit].
  pose proof (edited_refl _ HC) as HE0.
  destruct (Z.eqb_spec c (ctrl 80)) as [->|H80]; [cbn [ready]; rewrite Nat.eqb_refl; by exists s|].
  destruct (Z.eqb_spec c (ctrl 85)) as [->|H85].
  { destruct (kill_line_run (S (Z.to_nat INPUT_BUF)) s q l) as (s' & R & HR' & HE); [done|done| |].
    - pose proof (ring_fill _ _ HR) as Hf. cbn [ready edit] in Hf. rewrite length_app in Hf. unfold INPUT_BUF. lia.
    - mrun R. cbn [ready]. rewrite Nat.eqb_refl. by exists s'. }
  destruct ((c =? ctrl 72) || (c =? 127)).
  { rewrite gets_bind, (edit_empty _ _ HR). cbn [ready edit]. rewrite Nat.eqb_refl.
    destruct l as [|x l _] using rev_ind; [by exists s|].
    rewrite bool_decide_eq_false_2 by (by destruct l). unfold whenM, upd_inp. cbn [negb].
    rewrite length_app, take_app_length' by (cbn; lia). apply not_elem_of_app in Hno as [Hno _].
    destruct (edited_put BACKSPACE s (set_inp (set_e (u32 (ie (inp s) - 1)) (inp s)) s)) as (s' & R & HE & I);
      [by apply edited_inp|].
    exists s'. split; [|split; [|exact HE]].
    - erewrite bind_ret; [reflexivity|]. rewrite modify_bind. exact R.
    - rewrite I. split; [by eapply ring_erase|done]. }
  rewrite gets_bind, (fill_test _ _ HR). cbn [ready edit]. rewrite length_app, Nat.leb_antisym.
  destruct (Z.eqb_spec c 0) as [->|Hc]; [cbn [orb negb ready]; rewrite Nat.eqb_refl; by exists s|].
  destruct (length q + length l <? 128)%nat eqn:Ef; cbn [orb negb andb ready]; [|rewrite Nat.eqb_refl; by exists s].
  apply Nat.ltb_lt in Ef. set (c' := if c =? 13 then 10 else c). assert (0 <= c' < 256) as Hc' by (unfold c'; destruct (c =? 13); lia).
  assert (u8 c' = c') as -> by (apply Z.mod_small; lia).
  destruct (stored_char c' s q l) as (s' & R & HR' & HE); [done|done|done|by rewrite length_app|].
  exists s'. unfold whenM at 1. mrun R. split; [done|].
  destruct ((c' =? 10) || (c' =? ctrl 68) || (length q + length (l ++ [c']) =? 128)%nat); (split; [done|]); cbn [ready].
  - rewrite length_app. replace (_ =? _)%nat with false; [done|]. symmetry. apply Nat.eqb_neq. rewrite ?length_app. cbn. lia.
  - by rewrite Nat.eqb_refl.
Qed.

(** The characters of a sequence of codes, and the new [shift]. *)
Fixpoint kbd_chars (sh : Z) (codes : list Z) : list Z * Z :=
  match codes with
  | [] => ([], sh)
  | d :: codes =>
      let '(sh, c) := kbd_code sh d in
      let '(cs, sh) := kbd_chars sh codes in (c :: cs, sh)
  end.

Definition type_chars (cs : list Z) (d : ldisc) : ldisc := foldl (fun d c => type_char c d) d cs.


Lemma type_char_ready c d : (length (ready d) <= length (ready (type_char c d)))%nat.
Proof.
  unfold type_char. repeat match goal with |- context [if ?b then _ else _] => destruct b end; cbn [ready]; rewrite ?length_app; lia.
Qed.

Lemma type_chars_ready cs d : (length (ready d) <= length (ready (type_chars cs d)))%nat.
Proof.
  revert d. induction cs as [|c cs IH]; intros d; [done|]. cbn [type_chars foldl].
  pose proof (type_char_ready c d). specialize (IH (type_char c d)). unfold type_chars in IH. lia.
Qed.

Lemma key_map_range keys e v d : Forall (fun x => 0 <= x < 256) keys -> 0 <= e < 256 -> 0 <= v < 256 ->
  0 <= key_map keys e v d < 256.
Proof.
  intros HF He Hv. unfold key_map. destruct (keys !! Z.to_nat d) as [x|] eqn:E; cbn [from_option id].
  - by eapply Forall_lookup_1 in HF.
  - unfold keypad. repeat match goal with |- context [match ?p with _ => _ end] => destruct p; try lia end.
Qed.

Lemma charcode_range sh d : 0 <= charcode sh d < 256.
Proof.
  unfold charcode, normalmap, shiftmap, ctlmap. change (u8 (ctrl 47)) with 239.
  destruct (_ =? 0); [|destruct (_ =? 1)]; (apply key_map_range; [apply (bool_decide_unpack _); vm_compute; exact I|lia|lia]).
Qed.

Lemma kbd_code_range sh d : 0 <= snd (kbd_code sh d) < 256.
Proof.
  unfold kbd_code. destruct (d =? 0xe0); [cbn; lia|]. destruct (hasf 0x80 d); [cbn; lia|]. cbn [snd].
  match goal with |- context [charcode ?a ?b] => pose proof (charcode_range a b) as H; revert H; generalize (charcode a b) end.
  intros c Hc. destruct (hasf CAPSLOCK _); [|lia].
  destruct (Z.leb_spec 97 c), (Z.leb_spec c 122); cbn [andb]; try (rewrite u32_small by (unfold is_u32; lia); lia);
    destruct (Z.leb_spec 65 c), (Z.leb_spec c 90); cbn [andb]; try lia; rewrite u32_small by (unfold is_u32; lia); lia.
Qed.

(** ** Interrupts *)

Section intr.
(** A device: [holds cs s] says that [getc] will return the characters [cs]
    from the state [s] on, and then -1. *)
Context (getc : M console Z) (holds : list Z -> console -> Prop).
Context (getc_end : forall s, holds [] s -> getc s = Ret s (-1)).
Context (getc_next : forall c cs s, holds (c :: cs) s -> 0 <= c < 256 /\
  exists s1, getc s = Ret s1 c /\ holds cs s1 /\ inp s1 = inp s /\ cwoken s1 = cwoken s /\ crt s1 = crt s /\ cursor s1 = cursor s).
Context (holds_edited : forall cs w s s', holds cs s -> edited w s s' -> holds cs s').

Lemma consoleintr_refines cs b s d : holds cs s -> rep (inp s) d -> cga_ok s ->
  exists s' b', consoleintr (S (length cs)) getc b s = Ret s' b' /\
    rep (inp s') (type_chars cs d) /\ cga_ok s' /\ holds [] s' /\
    (length (ready (type_chars cs d)) <> length (ready d) -> ChInput ∈ cwoken s') /\ (ChInput ∈ cwoken s -> ChInput ∈ cwoken s').
Proof.
  revert b s d. induction cs as [|c cs IH]; intros b s d Hh HR HC; cbn [length]; change (consoleintr (S ?n) getc ?b) with
    (let* c := getc in if 0 <=? c then let* d := console_char c in consoleintr n getc (b || d) else ret b).
  - mrun (getc_end s Hh). exists s, b. by repeat (split; [done|]).
  - destruct (getc_next c cs s Hh) as (Hc & s1 & R1 & Hh1 & I1 & W1 & C1 & P1). mrun R1.
    rewrite (proj2 (Z.leb_le 0 c)) by lia.
    destruct (console_char_refines c s1 d) as (s2 & R2 & HR2 & HE2); [done|by rewrite I1|unfold cga_ok; by rewrite C1, P1|]. mrun R2.
    destruct (IH (b || (c =? ctrl 80)) s2 (type_char c d)) as (s' & b' & R & HR' & HC' & Hh' & Hw & Hm);
      [by eapply holds_edited|done|apply HE2|].
    destruct HE2 as (_ & _ & _ & _ & _ & W2). rewrite W1 in W2.
    exists s', b'. split; [exact R|]. do 3 (split; [done|]). split.
    + intros Hne. destruct (commits c d) eqn:Ec.
      * apply Hm. rewrite W2. by left.
      * apply Hw. intros E. apply Hne. unfold commits in Ec. apply negb_false_iff, Nat.eqb_eq in Ec.
        change (type_chars (c :: cs) d) with (type_chars cs (type_char c d)). lia.
    + intros Hin. apply Hm. rewrite W2. apply elem_of_app. by right.
Qed.
End intr.

(** Both devices. *)
Definition kbd_holds (r : list Z) (u : bool) (sh : Z) (cs : list Z) (s : console) : Prop :=
  kbd_chars (shift s) (kbd s) = (cs, sh) /\ rx s = r /\ uart s = u.

Definition uart_holds (k : list Z) (sh : Z) (cs : list Z) (s : console) : Prop :=
  rx s = cs /\ uart s = true /\ Forall (fun c => 0 <= c < 256) cs /\ kbd s = k /\ shift s = sh.

Lemma kbd_chars_length codes sh cs sh' : kbd_chars sh codes = (cs, sh') -> length codes = length cs.
Proof.
  revert sh cs. induction codes as [|x l IH]; intros sh cs; cbn [kbd_chars]; [by intros [= <- _]|].
  destruct (kbd_code sh x) as [y c]. destruct (kbd_chars y l) as [cs' sh2] eqn:E. intros [= <- <-]. cbn. f_equal. by eapply IH.
Qed.

Lemma kbdintr_refines s d cs sh : kbd_chars (shift s) (kbd s) = (cs, sh) -> rep (inp s) d -> cga_ok s ->
  exists s' b, kbdintr s = Ret s' b /\ rep (inp s') (type_chars cs d) /\ cga_ok s' /\
    kbd s' = [] /\ shift s' = sh /\ rx s' = rx s /\ uart s' = uart s /\
    (length (ready (type_chars cs d)) <> length (ready d) -> ChInput ∈ cwoken s').
Proof.
  intros Hcs HR HC. unfold kbdintr. rewrite gets_bind, (kbd_chars_length _ _ _ _ Hcs).
  assert (forall s1, kbd_holds (rx s) (uart s) sh [] s1 -> kbd s1 = [] /\ shift s1 = sh) as Hnil.
  { intros s1 [E _]. pose proof (kbd_chars_length _ _ _ _ E) as El. destruct (kbd s1); [|done]. by injection E. }
  destruct (consoleintr_refines kbdgetc (kbd_holds (rx s) (uart s) sh)) with (cs := cs) (b := false) (s := s) (d := d)
    as (s' & b' & R & HR' & HC' & Hh & Hw & _); [| | |done|done|done|].
  - intros s1 [Hk _]%Hnil. unfold kbdgetc, bind, get. by rewrite Hk.
  - intros c cs1 s1 (E & Hrx & Hu). unfold kbdgetc, bind, get. destruct (kbd s1) as [|x l]; [done|]. cbn [kbd_chars] in E.
    pose proof (kbd_code_range (shift s1) x) as Hrng. destruct (kbd_code (shift s1) x) as [y c1].
    destruct (kbd_chars y l) as [cs2 sh2] eqn:E2. injection E as -> -> ->. split; [exact Hrng|].
    eexists. split; [reflexivity|]. by repeat split.
  - intros cs1 w s1 s2 (E & Hrx & Hu) (_ & K & Sh & Rx & U & _). unfold kbd_holds. by rewrite K, Sh, Rx, U.
  - apply Hnil in Hh as Hn. destruct Hh as (_ & Hrx & Hu), Hn as [Hk Hsh]. exists s', b'. by repeat (split; [done|]).
Qed.

Lemma uartintr_refines s d cs : uart s = true -> rx s = cs -> Forall (fun c => 0 <= c < 256) cs -> rep (inp s) d -> cga_ok s ->
  exists s' b, uartintr s = Ret s' b /\ rep (inp s') (type_chars cs d) /\ cga_ok s' /\
    kbd s' = kbd s /\ shift s' = shift s /\ rx s' = [] /\ uart s' = true /\
    (length (ready (type_chars cs d)) <> length (ready d) -> ChInput ∈ cwoken s').
Proof.
  intros Hu Hcs HF HR HC. unfold uartintr. rewrite gets_bind, Hcs.
  destruct (consoleintr_refines uartgetc (uart_holds (kbd s) (shift s))) with (cs := cs) (b := false) (s := s) (d := d)
    as (s' & b' & R & HR' & HC' & (Hrx & Hu' & _ & Hk & Hsh) & Hw & _); [| | |done|done|done|].
  - intros s1 (Hrx & Hu1 & _). unfold uartgetc, bind, get. by rewrite Hu1, Hrx.
  - intros c cs1 s1 (Hrx & Hu1 & [Hc HF1]%Forall_cons & Hk & Hsh). unfold uartgetc, bind, get. rewrite Hu1, Hrx. split; [done|].
    eexists. split; [reflexivity|]. by repeat split.
  - intros cs1 w s1 s2 (Hrx & Hu1 & HF1 & Hk & Hsh) (_ & K & Sh & Rx & U & _). unfold uart_holds. by rewrite K, Sh, Rx, U.
  - exists s', b'. by repeat (split; [done|]).
Qed.

(** ** Reading *)

Lemma read_loop_refines killed target n s q l :
  rep (inp s) (mk_ld q l) ->
  let '(a, bytes, q') := take_line killed target n q in
  exists i, read_loop killed target n s = Ret (set_inp i s) (a, bytes) /\ rep i (mk_ld q' l).
Proof.
  revert s q. induction n as [|n IH]; intros s q HR; cbn [take_line read_loop].
  { exists (inp s). by destruct s. }
  rewrite gets_bind, (ready_empty _ _ (proj1 HR)). cbn [ready]. destruct q as [|c q].
  { cbn [bool_decide]. rewrite bool_decide_eq_true_2 by done. exists (inp s). by destruct s. }
  rewrite bool_decide_eq_false_2 by done. destruct HR as [HR Hno]. destruct (ring_take _ _ _ _ HR) as [Hb HR'].
  unfold buf_at. rewrite Hb, from_opt_bind. unfold upd_inp at 1. rewrite modify_bind.
  destruct (c =? ctrl 68); [|destruct (c =? 10)].
  - destruct (S n <? target)%nat; cbn [whenM].
    + exists (set_r (u32 (u32 (ir (inp s) + 1) - 1)) (inp s)). split; [done|]. rewrite u32_sub.
      replace (ir (inp s) + 1 - 1) with (ir (inp s)) by lia. rewrite u32_small by apply (ring_r _ _ HR). by destruct (inp s).
    + eexists. split; [reflexivity|]. done.
  - eexists. split; [reflexivity|]. done.
  - specialize (IH (set_inp (set_r (u32 (ir (inp s) + 1)) (inp s)) s) q (conj HR' Hno)).
    destruct (take_line killed target n q) as [[a l0] q'']. destruct IH as (i & R & Hi). mrun R. by exists i.
Qed.

(** ** Sessions at the console *)

(** What happens at the console: codes from the keyboard, bytes from the
    serial port, and reads, started with [n = target] or entered again after a
    wakeup with the [n] that was left. *)
Inductive event := Typed (codes : list Z) | Received (bytes : list Z) | Reads (killed : bool) (target n : nat).

Definition happen (ev : event) : M console (option (line * list Z)) :=
  match ev with
  | Typed codes => modify (fun s => set_kbd codes (shift s) s) ;;; let* _ := kbdintr in ret None
  | Received bytes => modify (set_rx bytes) ;;; let* _ := uartintr in ret None
  | Reads killed target n => let* r := read_loop killed target n in ret (Some r)
  end.
Fixpoint session (evs : list event) : M console (list (option (line * list Z))) :=
  match evs with
  | [] => ret []
  | ev :: evs => let* r := happen ev in let* rs := session evs in ret (r :: rs)
  end.

(** The same with the abstract editor and the state of the shift keys. *)
Definition abs_happen (ev : event) (d : ldisc) (sh : Z) : ldisc * Z * option (line * list Z) :=
  match ev with
  | Typed codes => let '(cs, sh) := kbd_chars sh codes in (type_chars cs d, sh, None)
  | Received bytes => (type_chars bytes d, sh, None)
  | Reads killed target n =>
      let '(a, l, q) := take_line killed target n (ready d) in (mk_ld q (edit d), sh, Some (a, l))
  end.
Fixpoint abs_session (evs : list event) (d : ldisc) (sh : Z) : ldisc * list (option (line * list Z)) :=
  match evs with
  | [] => (d, [])
  | ev :: evs =>
      let '(d, sh, r) := abs_happen ev d sh in
      let '(d, rs) := abs_session evs d sh in (d, r :: rs)
  end.

Definition event_ok (ev : event) : Prop :=
  match ev with Received bytes => Forall (fun c => 0 <= c < 256) bytes | _ => True end.

Lemma happen_refines ev s d : rep (inp s) d -> cga_ok s -> uart s = true -> event_ok ev ->
  let '(d', sh, r) := abs_happen ev d (shift s) in
  exists s', happen ev s = Ret s' r /\ rep (inp s') d' /\ cga_ok s' /\ uart s' = true /\ shift s' = sh.
Proof.
  intros HR HC HU HE. destruct ev as [codes|bytes|killed target n]; cbn [abs_happen happen].
  - destruct (kbd_chars (shift s) codes) as [cs sh] eqn:E. rewrite modify_bind.
    destruct (kbdintr_refines (set_kbd codes (shift s) s) d cs sh) as (s' & b & R & HR' & HC' & _ & Hsh & _ & Hu & _); [done..|].
    mrun R. exists s'. by rewrite Hu.
  - rewrite modify_bind.
    destruct (uartintr_refines (set_rx bytes s) d bytes) as (s' & b & R & HR' & HC' & _ & Hsh & _ & Hu & _); [done..|].
    mrun R. by exists s'.
  - destruct d as [q l]. pose proof (read_loop_refines killed target n s q l HR) as H. cbn [ready edit].
    destruct (take_line killed target n q) as [[a bytes] q']. destruct H as (i & R & Hi). mrun R. eexists. split; [reflexivity|]. done.
Qed.

(** C26: the line editor refines its abstract description: in every session of
    keystrokes, serial input and reads, on a machine with a serial port and
    with indices that wrap around, each
    read returns the bytes that the abstract editor has ready for it, in the
    order they were typed, backspaces and killed lines applied, at most one
    line at a time; the buffer is never overrun, and no character makes the
    screen code panic. *)
Theorem console_session evs s d :
  rep (inp s) d -> cga_ok s -> uart s = true -> Forall event_ok evs ->
  exists s', session evs s = Ret s' (snd (abs_session evs d (shift s))) /\
    rep (inp s') (fst (abs_session evs d (shift s))) /\ cga_ok s'.
Proof.
  revert s d. induction evs as [|ev evs IH]; intros s d HR HC HU HE; cbn [session abs_session]; [by exists s|].
  apply Forall_cons in HE as [He HE]. pose proof (happen_refines ev s d HR HC HU He) as H.
  destruct (abs_happen ev d (shift s)) as [[d' sh] r]. destruct H as (s1 & R1 & HR1 & HC1 & HU1 & <-). mrun R1.
  destruct (IH s1 d' HR1 HC1 HU1 HE) as (s' & R & HR' & HC'). destruct (abs_session evs d' (shift s1)) as [d'' rs].
  mrun R. by exists s'.
Qed.

(** ** From keystrokes to the line *)

(** The codes of pressing and releasing the key of a character, with the
    shift key where it takes one. *)
Definition keystroke (c : Z) : list Z :=
  match list_find (eq c) normal_keys with
  | Some (i, _) => [Z.of_nat i; Z.of_nat i + 0x80]
  | None =>
      match list_find (eq c) shift_keys with
      | Some (i, _) => [0x2a; Z.of_nat i; Z.of_nat i + 0x80; 0xaa]
      | None => []
      end
  end.
Definition printable (c : Z) : Prop := 32 <= c <= 126.

Lemma keystroke_chars c : printable c \/ c = 10 ->
  exists cs, kbd_chars 0 (keystroke c) = (cs, 0) /\ filter (fun x => x <> 0) cs = [c].
Proof.
  intros Hc.
  assert (Forall (fun c => snd (kbd_chars 0 (keystroke c)) = 0 /\ filter (fun x => x <> 0) (fst (kbd_chars 0 (keystroke c))) = [c])
    (10 :: (Z.of_nat <$> seq 32 95))) as HF by (apply (bool_decide_unpack _); vm_compute; exact I).
  rewrite Forall_forall in HF. destruct (HF c) as [H1 H2].
  - destruct Hc as [Hc| ->]; [right|by left]. apply list_elem_of_fmap. exists (Z.to_nat c). unfold printable in Hc.
    split; [lia|]. apply elem_of_seq. lia.
  - exists (fst (kbd_chars 0 (keystroke c))). split; [|exact H2]. revert H1. destruct (kbd_chars 0 (keystroke c)). by intros <-.
Qed.

Lemma kbd_chars_app sh a b : kbd_chars sh (a ++ b) =
  let '(cs, sh) := kbd_chars sh a in let '(cs', sh) := kbd_chars sh b in (cs ++ cs', sh).
Proof.
  revert sh. induction a as [|x a IH]; intros sh; cbn [app kbd_chars]; [by destruct (kbd_chars sh b)|].
  destruct (kbd_code sh x) as [sh1 c]. rewrite IH. destruct (kbd_chars sh1 a) as [cs sh2]. by destruct (kbd_chars sh2 b).
Qed.

Lemma text_chars text : Forall (fun c => printable c \/ c = 10) text ->
  exists cs, kbd_chars 0 (text ≫= keystroke) = (cs, 0) /\ filter (fun x => x <> 0) cs = text.
Proof.
  induction 1 as [|c text Hc _ (cs & E & F)]; [by exists []|]. destruct (keystroke_chars c Hc) as (cs0 & E0 & F0).
  exists (cs0 ++ cs). rewrite bind_cons, kbd_chars_app, E0, E. split; [done|]. by rewrite filter_app, F0, F.
Qed.

(** A key that gives no character changes nothing. *)
Lemma type_chars_filter cs d : type_chars (filter (fun x => x <> 0) cs) d = type_chars cs d.
Proof.
  revert d. induction cs as [|c cs IH]; intros d; [done|]. rewrite filter_cons.
  destruct (decide (c <> 0)) as [Hc|Hc]; [apply IH|]. rewrite IH. by assert (c = 0) as -> by lia.
Qed.

Lemma type_chars_app a b d : type_chars (a ++ b) d = type_chars b (type_chars a d).
Proof. unfold type_chars. apply foldl_app. Qed.

Lemma type_text text l : Forall printable text -> (length l + length text < 128)%nat ->
  type_chars text (mk_ld [] l) = mk_ld [] (l ++ text).
Proof.
  revert l. induction text as [|c text IH]; intros l HF Hl; [by rewrite app_nil_r|]. cbn [length] in Hl.
  apply Forall_cons in HF as [Hc HF]. unfold printable in Hc. change (type_chars (c :: text) ?d) with (type_chars text (type_char c d)).
  assert (type_char c (mk_ld [] l) = mk_ld [] (l ++ [c])) as ->.
  { unfold type_char, ctrl. cbn [ready edit length]. rewrite !(proj2 (Z.eqb_neq c _)) by lia. cbn [orb].
    rewrite (proj2 (Nat.leb_gt _ _)) by (cbn; lia). cbv beta iota zeta. rewrite ?(proj2 (Z.eqb_neq c _)) by lia. cbn [orb].
    rewrite length_app. cbn [length]. rewrite (proj2 (Nat.eqb_neq _ _)) by lia.
    unfold u8. by rewrite Z.mod_small by lia. }
  rewrite IH; [by rewrite <- app_assoc|done|rewrite length_app; cbn; lia].
Qed.

Lemma take_text killed target text n : Forall printable text -> (length text < n)%nat ->
  take_line killed target n (text ++ [10]) = (Line (n - length text - 1), text ++ [10], []).
Proof.
  revert n. induction text as [|c text IH]; intros n HF Hn; (destruct n as [|n]; [cbn in Hn; lia|]); cbn [app take_line length].
  - unfold ctrl. cbn. by rewrite Nat.sub_0_r.
  - apply Forall_cons in HF as [Hc HF]. unfold printable, ctrl in *. rewrite !(proj2 (Z.eqb_neq c _)) by lia.
    rewrite IH; [done|done|cbn in Hn; lia].
Qed.

(** What is typed is what is read: the codes of the keys of a line of
    printable characters and of Enter, and then a read with enough room, give
    the line with its end to the reader, whatever the place in the ring. *)
Theorem typed_line_is_read s text n :
  rep (inp s) (mk_ld [] []) -> cga_ok s -> uart s = true -> shift s = 0 ->
  Forall printable text -> (length text < 128)%nat -> (length text < n)%nat ->
  exists s', session [Typed ((text ++ [10]) ≫= keystroke); Reads false n n] s =
      Ret s' [None; Some (Line (n - length text - 1), text ++ [10])] /\ rep (inp s') (mk_ld [] []) /\ cga_ok s'.
Proof.
  intros HR HC HU HS HF Hl Hn.
  destruct (text_chars (text ++ [10])) as (cs & E & F).
  { apply Forall_app. split; [eapply Forall_impl; [exact HF|by left]|]. apply Forall_singleton. by right. }
  pose proof (happen_refines (Typed ((text ++ [10]) ≫= keystroke)) s _ HR HC HU I) as H1. cbn [abs_happen] in H1.
  rewrite HS, E, <- type_chars_filter, F, type_chars_app, (type_text text []) in H1 by (cbn; done || lia).
  destruct H1 as (s1 & R1 & HR1 & HC1 & HU1 & HS1). cbn [session]. mrun R1.
  assert (type_chars [10] (mk_ld [] ([] ++ text)) = mk_ld (text ++ [10]) []) as E1.
  { unfold type_chars, type_char. cbn [foldl ready edit length app]. 
    rewrite (proj2 (Nat.leb_gt _ _)) by (cbn; lia). done. }
  rewrite E1 in HR1. pose proof (happen_refines (Reads false n n) s1 _ HR1 HC1 HU1 I) as H2. cbn [abs_happen ready edit] in H2.
  rewrite (take_text false n text n HF Hn) in H2. destruct H2 as (s2 & R2 & HR2 & HC2 & _). erewrite bind_ret; [|erewrite bind_ret by exact R2; reflexivity].
  by exists s2.
Qed.

(** A console whose indices are about to wrap around. *)
Definition demo_console : console :=
  mk_con (replicate 2000 0) 0 true [] [] 0 [] (mk_input (replicate 128 0) 0xfffffffd 0xfffffffd 0xfffffffd) [].

Lemma demo_console_ok : rep (inp demo_console) (mk_ld [] []) /\ cga_ok demo_console.
Proof.
  split; [|by repeat split; cbn; rewrite ?length_replicate; lia].
  split; [split; try done; cbn; lia|apply not_elem_of_nil].
Qed.

Lemma console_session_witness :
  exists s', session [Typed [30; 48; 14; 28]; Reads false 10 10] demo_console = Ret s' [None; Some (Line 8, [97; 10])] /\
    rep (inp s') (mk_ld [] []) /\ cga_ok s'.
Proof.
  exact (console_session [Typed [30; 48; 14; 28]; Reads false 10 10] demo_console (mk_ld [] [])
    (proj1 demo_console_ok) (proj2 demo_console_ok) eq_refl ltac:(repeat constructor)).
Defined.

Lemma typed_line_is_read_witness :
  exists s', session [Typed (([72; 105] ++ [10]) ≫= keystroke); Reads false 100 100] demo_console =
    Ret s' [None; Some (Line (100 - 2 - 1), [72; 105] ++ [10])] /\ rep (inp s') (mk_ld [] []) /\ cga_ok s'.
Proof.
  apply (typed_line_is_read demo_console [72; 105] 100 (proj1 demo_console_ok) (proj2 demo_console_ok) eq_refl eq_refl).
  - repeat constructor; unfold printable; lia.
  - cbn. lia.
  - cbn. lia.
Defined.
